(* ===== verification/_CoqProject ===== *)
-Q . S2P
Prelude.v
PyInt.v
Serializer.v
Deserializer.v
Leb128.v
Encoding.v
Ecv.v
PyValue.v
Compound.v
NCTypes.v
NCTypeTheory.v
NCTypeSafety.v
PatriciaTrie.v
NodeStore.v
TrieHash.v
TrieTheory.v
TrieUpdate.v
TrieSpec.v
TrieCanon.v
NodeStoreTheory.v
TrieClaims.v
BlockStorage.v
BlockStorageTheory.v
ContractStorage.v
StorageInterface.v
ContractStorageTheory.v
ChangesTracker.v
ChangesTrackerTheory.v
TrackerNesting.v
Fields.v
DequeTheory.v
TableTheory.v
FieldsClaims.v
PyFloat.v
ScriptCode.v
ScriptVM.v
ScriptTheory.v
ScriptP2PKH.v
ScriptMultisig.v
ScriptClaims.v
TxStruct.v
TxStructTheory.v
VertexStruct.v
VertexParser.v
VertexTheory.v
TokenInfo.v
TokenInfoTheory.v
VerifySum.v
StaticMetadata.v
StaticMetadataTheory.v
Metadata.v
Daa.v
FeatureActivation.v
FeatureTheory.v
FeatureClaims.v
TxVerifier.v
TxVerifierTheory.v
BlockVerifier.v
NCContext.v
RunnerState.v
Runner.v
RunnerSteps.v
RunnerRefine.v
RunnerBalance.v
RunnerRecords.v
RunnerFuel.v
RunnerFrame.v
VerificationService.v
VerificationTheory.v
BlockVerifierTheory.v
Heapq.v
Traversal.v
TraversalTheory.v
ConsensusState.v
TxConsensus.v
BlockConsensus.v
ConsensusTheory.v
ConsensusSafety.v
ConsensusWeights.v
RunnerClaims.v
