(* ===== verification/Prelude.v ===== *)
(** * Verification of the hathor-core full node

    The program is a full node of a DAG-based ledger with nano contracts, in Python.
    This library models the parts of it that decide which bytes, values, states and
    transactions are valid and which are executed, and proves what they guarantee.  Paths
    are relative to [src/hathor].

    ** Conventions

    Python's exceptions are the constructors of [exn] below; a call that may raise
    returns a [result]; a method that mutates an object is a command of the monad [M] on
    the object's state, and the mutations made before an exception stay.  Bytes are lists
    of [Byte.byte], integers are [Z], floats are [spec_float] in binary64, dictionaries are
    association lists in insertion order ([od_get], [od_set]) or stdpp's [gmap] where the
    order is not observed, sets are [gset] with the order of iteration as a parameter
    ([SetOrder]).  Loops that are not structural run on fuel: the number of bytes left, a
    logarithm of the value, the number of stored vertices; theorems state that the fuel is
    enough, or hold for every fuel and speak of the runs that return ([OutOfFuel] is an
    exception like the others).  Hash functions, elliptic curves, base58, zlib, unicode
    tables, powers and logarithms of the C library, RocksDB and the store of vertices are
    parameters (sections and type classes), each with an executable instance in a witness.

    ** Parts and files

    - [serialization], [utils/leb128.py]: serializers, deserializers and their byte limits
      (Serializer, Deserializer), LEB128 (Leb128), the other encodings (Encoding, Ecv),
      optionals, collections, mappings, tuples, caller ids (Compound).  Encoders and
      decoders are tied by the predicates [writes] and [reads].
    - [nanocontracts/nc_types]: Python values (PyValue), the types as one inductive with
      their methods (NCTypes), round trips (NCTypeTheory), soundness of deserialization and
      hashability (NCTypeSafety).
    - [nanocontracts/storage/patricia_trie.py], [backends.py], [node_nc_type.py]: the trie
      (PatriciaTrie), its store (NodeStore), and its theory: ids (TrieHash), the invariant
      of well-formed tries and lookup (TrieTheory), update (TrieUpdate), the map a
      trie denotes (TrieSpec), canonicity (TrieCanon), node bytes (NodeStoreTheory) and the
      properties (TrieClaims).
    - [nanocontracts/storage/block_storage.py] (BlockStorage, BlockStorageTheory),
      [contract_storage.py] (ContractStorage, ContractStorageTheory), [changes_tracker.py]
      (ChangesTracker, ChangesTrackerTheory, TrackerNesting).  StorageInterface holds the
      class [StorageOps] of operations and [StorageLaws] of their laws; contract storages
      and trackers are both instances, so trackers nest.
    - [nanocontracts/fields]: the attributes of a blueprint, with their cache, over any
      [StorageOps] (Fields): values, deques, dictionaries and sets; what they refine is
      proved from [StorageLaws] (DequeTheory, TableTheory), runs are in FieldsClaims.
    - [transaction/scripts], [crypto/util.py]: opcodes, script construction and parsing
      (ScriptCode), the stack machine (ScriptVM), its theory (ScriptTheory, ScriptP2PKH,
      ScriptMultisig) and who can spend what (ScriptClaims).
    - [transaction/base_transaction.py], [transaction.py], [block.py], [token_creation_tx.py],
      [headers], [aux_pow.py], [vertex_parser.py]: vertices and their bytes (TxStruct,
      TxStructTheory, VertexStruct), parsing (VertexParser) and round trips (VertexTheory).
    - [transaction/util.py], [token_info.py], [nanocontracts/balance_rules.py]: prices in
      binary floating point (PyFloat), the token dictionary and [verify_sum] (TokenInfo),
      what the dictionary holds (TokenInfoTheory) and conservation of value (VerifySum).
    - [transaction/static_metadata.py] (StaticMetadata, StaticMetadataTheory),
      [transaction_metadata.py] (Metadata), [daa.py] (Daa), [feature_activation]
      (FeatureActivation, FeatureTheory, FeatureClaims).
    - [verification]: the verifiers of transactions (TxVerifier, TxVerifierTheory), of
      blocks, merged mining and proof of authority (BlockVerifier, BlockVerifierTheory), and
      their composition (VerificationService, VerificationTheory).
    - [transaction/storage/traversal.py]: the heap of [heapq] (Heapq), the walks on the DAG
      (Traversal) and what they visit (TraversalTheory).
    - [consensus]: the state of the node (ConsensusState), the algorithm for transactions
      (TxConsensus) and for blocks with the height index (BlockConsensus); what each
      operation keeps (ConsensusTheory), no double spend (ConsensusSafety), accumulated
      weights and the height index (ConsensusWeights).
    - [nanocontracts/method.py], [context.py], [vertex_data.py]: arguments of methods and
      the context of a call (NCContext).
    - [nanocontracts/runner]: calls, trackers and the state of the runner (RunnerState), its
      operations (Runner).  The code of a blueprint is a parameter (class [Blueprints]): a
      tree of syscalls whose branches are the answers, so any Python body that terminates is
      one.  A tracker over trackers over a storage is a list of layers that [stack_up]
      assembles.  Nested calls run on [call_fuel] levels, one more than the depth at which
      the runner refuses a call.  RunnerSteps gives what contract code can do as a step
      relation, RunnerRefine shows that every run of it is one; by induction on it follow
      the balances (RunnerBalance), the books of the calls and the check of the balances
      and that views change nothing (RunnerRecords); RunnerFuel shows that the
      levels are enough, RunnerFrame that nothing reaches the storage before the commit.
      RunnerClaims holds the properties and runs of two contracts.

    ** What the theorems show

    Encodings and types: every value a type accepts is written and read back, any bytes
    that are read give a value of the type, decoders terminate.  Trie: under any sequence of
    updates, commits and reopenings in which no two different nodes get the same digest
    ([collision_free]), it refines a finite map, equal contents give equal root ids and
    conversely, and commits are durable; nodes are hashed without delimiters, so this is
    more than collision resistance of SHA-256, and TrieClaims has contents that break it.
    The theory of the storages keeps to contents that the hash delimits ([over]).  Storages: sequence numbers only grow, locked storages
    do not change, a committed tracker is indistinguishable from the storage below it, at
    any nesting.  Fields: a deque refines a list, a dictionary a mapping and a set a set, over
    any storage and for values it accepts, with the cache of attributes.  Scripts: evaluation
    terminates, an output is spent exactly with the signatures its script asks for, and the
    owner can produce them unless the timelock is one the script cannot push.  Transactions:
    a signature covers all funds, bytes of every vertex class round-trip, and a transaction
    whose sums are verified neither creates nor destroys value without authority or
    payment (prices below 2^53).  Verification: what an accepted transaction, merge-mined block or authority
    block satisfies, that rewards mature and the supply is the scheduled one.  Features:
    the cached computation of states refines the state machine, histories are monotonic.
    Consensus: over any history of accepted transactions and blocks, contract execution and
    the removal of vertices left aside, no output has two executed spenders, walks terminate and visit what is reachable, accumulated weights are
    exact where they are compared, the height index is the best chain.  Contracts: in any
    execution the balances of all contracts add up to what the call brings in and the
    recorded mints, melts and fees, the assertions of the runner hold, calls are bounded in
    number and depth, view methods change nothing, and nothing is stored before the method
    returned and its balances were checked.  Some theorems state
    where the code departs from its intent (token prices above 2^53, unparsable fee
    headers, truncated headers, keys that look like the length of a container).

    ** Not modelled

    Input and output (p2p, HTTP resources, RocksDB, the other indexes), Python itself (the
    interpreter that runs a blueprint and meters it, the random number generator it may ask
    for), the execution of the contracts of a block by the consensus, the removal of vertices
    after a reorganisation, JSON conversions and mining services.  The manifest lists each part with the reason. *)

From stdpp Require Import base list gmap strings.
From Stdlib Require Import ZArith Lia.
From Stdlib Require Import Strings.Byte.

Local Open Scope Z_scope.

(** * Python exceptions

    The exception classes the modelled code raises or catches.  Messages are not
    modelled, classes and the subclass relation used by [except] clauses are. *)

Inductive exn : Type :=
| AttributeError | AssertionError | TypeError | ValueError | OverflowError
| KeyError | IndexError | UnboundLocalError | RuntimeError | NotImplementedError | StructError
| UnicodeEncodeError | UnicodeDecodeError
| SerializationError | OutOfDataError | BadDataError | MaxBytesExceededError
| NCInsufficientFunds | NCTokenAlreadyExists | NanoContractDoesNotExist | NCInvalidAction
| ScriptError | OutOfData | MissingStackItems | EqualVerifyFailed | FinalStackInvalid
| OracleChecksigFailed | DataIndexError | InvalidStackData | VerifyFailed | TimeLocked
| InvalidScriptError | InvalidInputData | InvalidInputDataSize | InexistentInput | TooManySigOps
| ConflictingInputs | TimestampError | InputOutputMismatch | ForbiddenMint | ForbiddenMelt
| TokenNotFound | InvalidToken | InvalidOutputValue | InvalidOutputScriptSize | TooManyOutputs
| TooManyInputs | TooFewInputs | DuplicatedParents | IncorrectParents | ParentDoesNotExist
| TransactionNotInAllowedScopeError | TransactionDoesNotExist | TokenCreationTransactionDoesNotExist | InvalidAddress
| InvalidFeeHeader | FeeHeaderTokenNotFound | InvalidFeeAmount | NCInvalidSignature
| TooManyTokens | UnusedTokensError | InvalidVersionError | PowError | WeightError | RewardLocked
| InputVoidedAndConfirmed | ConflictWithConfirmedTxError | TooManyWithinConflicts | TooManyBetweenConflicts
| ZeroDivisionError | TooManyHeaders | HeaderNotSupported | NCInvalidSeqnum
| ZlibError | BlockHeightError | AuxPowNoMagicError | AuxPowUnexpectedMagicError | AuxPowLongMerklePathError
| PoaValidationError | InvalidBlockReward | TransactionDataError | BlockWithInputs | BlockWithTokensError
| CheckpointError | BlockMustSignalError | NCFail | NCTxValidationError | NCInvalidPubKey | NCMethodNotFound
| NCInvalidMethodCall | BlueprintDoesNotExist | OCBBlueprintNotConfirmed | OCBPubKeyNotAllowed
| NCSerializationError | NCSerializationArgTooLong | NCViewMethodError | NCInvalidContext | NCRecursionError
| NCNumberOfCallsExceeded | NCInvalidContractId | NCInvalidFeePaymentToken | NCInvalidInitializeMethodCall
| NCInvalidPublicMethodCallFromView | NCAlreadyInitializedContractError | NCUninitializedContractError
| NCInvalidFee | NCInvalidSyscall | NCForbiddenAction | NCForbiddenReentrancy
| OutOfFuel.

#[export] Instance exn_eq_dec : EqDecision exn.
Proof. solve_decision. Defined.

(** [issubclass_exn e c]: an instance of [e] is caught by [except c].
    [OutOfDataError] inherits both [SerializationError] and [struct.error]. *)
Definition issubclass_exn (e c : exn) : bool :=
  bool_decide (e = c) ||
  match e, c with
  | OutOfDataError, SerializationError => true
  | OutOfDataError, StructError => true
  | BadDataError, SerializationError => true
  | MaxBytesExceededError, SerializationError => true
  | UnicodeEncodeError, ValueError => true
  | UnicodeDecodeError, ValueError => true
  | (OutOfData | MissingStackItems | EqualVerifyFailed | FinalStackInvalid | OracleChecksigFailed
      | DataIndexError | InvalidStackData | VerifyFailed | TimeLocked), ScriptError => true
  | (ForbiddenMint | ForbiddenMelt), InputOutputMismatch => true
  | TokenCreationTransactionDoesNotExist, TransactionDoesNotExist => true
  | (FeeHeaderTokenNotFound | InvalidFeeAmount), InvalidFeeHeader => true
  | (AuxPowNoMagicError | AuxPowUnexpectedMagicError | AuxPowLongMerklePathError), PowError => true
  | (NCInvalidSignature | NCInvalidPubKey | NCInvalidSeqnum | NCMethodNotFound | NCInvalidMethodCall),
    NCTxValidationError => true
  | (NCTxValidationError | NCInvalidSignature | NCInvalidPubKey | NCInvalidSeqnum | NCMethodNotFound
      | NCInvalidMethodCall | NanoContractDoesNotExist | BlueprintDoesNotExist | NCInsufficientFunds
      | NCInvalidAction | NCTokenAlreadyExists | OCBBlueprintNotConfirmed | OCBPubKeyNotAllowed), NCFail => true
  | NCSerializationArgTooLong, NCSerializationError => true
  | (NCSerializationError | NCSerializationArgTooLong | NCViewMethodError | NCInvalidContext | NCRecursionError
      | NCNumberOfCallsExceeded | NCInvalidContractId | NCInvalidFeePaymentToken | NCInvalidInitializeMethodCall
      | NCInvalidPublicMethodCallFromView | NCAlreadyInitializedContractError | NCUninitializedContractError
      | NCInvalidFee | NCInvalidSyscall | NCForbiddenAction | NCForbiddenReentrancy), NCFail => true
  | _, _ => false
  end.

(** * Results and the state-and-exception monad

    A Python statement that mutates an object and may raise is a function from
    the object's state to its result and the state it leaves behind: as in
    Python, the mutations made before an exception are kept. *)

Inductive result (A : Type) : Type :=
| Ok (a : A)
| Err (e : exn).
Arguments Ok {A} _.
Arguments Err {A} _.

Definition M (S A : Type) : Type := S -> result A * S.

Definition ret {S A} (a : A) : M S A := fun s => (Ok a, s).

Definition raise {S A} (e : exn) : M S A := fun s => (Err e, s).

Definition bind {S A B} (m : M S A) (f : A -> M S B) : M S B := fun s =>
  match m s with
  | (Ok a, s') => f a s'
  | (Err e, s') => (Err e, s')
  end.

(** [try: m except c: raise e'] *)
Definition try_raise {S A} (m : M S A) (c e' : exn) : M S A := fun s =>
  match m s with
  | (Err e, s') => if issubclass_exn e c then (Err e', s') else (Err e, s')
  | r => r
  end.

(** [assert b] *)
Definition py_assert {S} (b : bool) : M S unit :=
  if b then ret tt else raise AssertionError.

(** lift of a computation that neither reads nor writes the state *)
Definition lift {S A} (r : result A) : M S A := fun s => (r, s).

Definition rbind {A B} (r : result A) (f : A -> result B) : result B :=
  match r with
  | Ok a => f a
  | Err e => Err e
  end.

Declare Scope py_scope.
Delimit Scope py_scope with py.
Notation "'let!' x := m 'in' k" := (bind m (fun x => k))
  (at level 10, x pattern, m at level 100, k at level 200,
   format "'[v' 'let!'  x  :=  m  'in' '/' k ']'") : py_scope.
Notation "m ';;;' k" := (bind m (fun _ => k))
  (at level 199, right associativity) : py_scope.
Notation "'let?' x := m 'in' k" := (rbind m (fun x => k))
  (at level 10, x pattern, m at level 100, k at level 200,
   format "'[v' 'let?'  x  :=  m  'in' '/' k ']'") : py_scope.

(** iteration of a command over a list, a Python [for] loop with no result *)
Fixpoint for_each {S A} (l : list A) (f : A -> M S unit) : M S unit :=
  match l with
  | [] => ret tt
  | x :: l' => bind (f x) (fun _ => for_each l' f)
  end.

(** a generator run [n] times, collecting its values in order *)
Fixpoint repeat_m {S A} (n : nat) (m : M S A) : M S (list A) :=
  match n with
  | O => ret []
  | S n' => bind m (fun x => bind (repeat_m n' m) (fun xs => ret (x :: xs)))
  end.

(** the pure counterparts on results *)
Fixpoint rfor {A} (l : list A) (f : A -> result unit) : result unit :=
  match l with
  | [] => Ok tt
  | x :: l' => rbind (f x) (fun _ => rfor l' f)
  end.

(** [l[i]] of a Python list *)
Definition py_index {A} (l : list A) (i : Z) : result A :=
  let i := if i <? 0 then i + Z.of_nat (length l) else i in
  if i <? 0 then Err IndexError
  else match l !! Z.to_nat i with Some x => Ok x | None => Err IndexError end.

Definition is_ok {A} (r : result A) : bool :=
  match r with Ok _ => true | Err _ => false end.

Section monad_lemmas.
Local Open Scope py_scope.
Context {S A B C : Type}.

Lemma bind_ok (m : M S A) (f : A -> M S B) s a s' :
  m s = (Ok a, s') -> bind m f s = f a s'.
Proof. unfold bind. by intros ->. Qed.

Lemma bind_err (m : M S A) (f : A -> M S B) s e s' :
  m s = (Err e, s') -> bind m f s = (Err e, s').
Proof. unfold bind. by intros ->. Qed.

Lemma bind_ok_inv (m : M S A) (f : A -> M S B) s b s'' :
  bind m f s = (Ok b, s'') ->
  exists a s', m s = (Ok a, s') /\ f a s' = (Ok b, s'').
Proof. unfold bind. destruct (m s) as [[a|e] s']; naive_solver. Qed.

Lemma bind_assoc (m : M S A) (f : A -> M S B) (g : B -> M S C) s :
  bind (bind m f) g s = bind m (fun a => bind (f a) g) s.
Proof. unfold bind. by destruct (m s) as [[a|e] s']. Qed.

Lemma rbind_ok_inv (r : result A) (f : A -> result B) b :
  rbind r f = Ok b -> exists a, r = Ok a /\ f a = Ok b.
Proof. destruct r; naive_solver. Qed.
End monad_lemmas.

Lemma rfor_ok {A} (l : list A) f :
  rfor l f = Ok tt <-> Forall (fun x => f x = Ok tt) l.
Proof.
  induction l as [|x l IH]; simpl; [naive_solver|].
  rewrite Forall_cons, <- IH.
  destruct (f x) as [[]|e]; simpl; split; [tauto|tauto|done|by intros [? _]].
Qed.

(** [inv_ok H] splits a successful run [bind m f s = (Ok _, _)] into its steps. *)
Ltac inv_ok H :=
  let a := fresh "a" in let s := fresh "s" in let Hm := fresh "Hm" in
  apply bind_ok_inv in H; destruct H as (a & s & Hm & H).

Ltac inv_rok H :=
  let a := fresh "a" in let Hm := fresh "Hm" in
  apply rbind_ok_inv in H; destruct H as (a & Hm & H).

(** split the boolean test that drives the goal or a hypothesis *)
Ltac case_if :=
  match goal with
  | |- context [if ?b then _ else _] => destruct b eqn:?
  | H : context [if ?b then _ else _] |- _ => destruct b eqn:?
  end.

(** * Bytes

    A Python [bytes] object is a list of [Byte.byte]; [b2z] reads a byte as the
    integer indexing a buffer returns, [z2b] keeps the low eight bits. *)

Abbreviation byte := Byte.byte (only parsing).
Abbreviation bytes := (list Byte.byte) (only parsing).

Definition b2z (b : byte) : Z := Z.of_N (Byte.to_N b).

Definition z2b (z : Z) : byte :=
  match Byte.of_N (Z.to_N (z mod 256)) with
  | Some b => b
  | None => Byte.x00
  end.

Definition zb (l : list Z) : bytes := map z2b l.

Definition blen (bs : bytes) : Z := Z.of_nat (length bs).

#[export] Instance byte_eq_dec : EqDecision byte := Byte.byte_eq_dec.

#[export] Program Instance byte_countable : Countable byte :=
  inj_countable Byte.to_N Byte.of_N _.
Next Obligation. intros b. apply Byte.of_to_N. Qed.

Lemma b2z_range b : 0 <= b2z b < 256.
Proof. unfold b2z. pose proof (Byte.to_N_bounded b). lia. Qed.

Lemma z2b_b2z b : z2b (b2z b) = b.
Proof.
  unfold z2b. pose proof (b2z_range b).
  rewrite Z.mod_small by lia. unfold b2z.
  by rewrite N2Z.id, Byte.of_to_N.
Qed.

Lemma b2z_z2b z : b2z (z2b z) = z mod 256.
Proof.
  unfold z2b, b2z. pose proof (Z.mod_pos_bound z 256 ltac:(lia)).
  destruct (Byte.of_N (Z.to_N (z mod 256))) as [b|] eqn:E.
  - apply Byte.to_of_N in E. rewrite E. lia.
  - apply Byte.of_N_None_iff in E. lia.
Qed.

Lemma b2z_z2b_small z : 0 <= z < 256 -> b2z (z2b z) = z.
Proof. intros. rewrite b2z_z2b. by apply Z.mod_small. Qed.

Lemma b2z_inj b c : b2z b = b2z c -> b = c.
Proof. intros H. rewrite <- (z2b_b2z b), <- (z2b_b2z c). by rewrite H. Qed.

Lemma blen_app xs ys : blen (xs ++ ys) = blen xs + blen ys.
Proof. unfold blen. rewrite length_app. lia. Qed.

Lemma blen_nonneg xs : 0 <= blen xs.
Proof. unfold blen. lia. Qed.

Lemma blen_cons b xs : blen (b :: xs) = 1 + blen xs.
Proof. unfold blen. simpl. lia. Qed.

Lemma blen_nil : blen [] = 0.
Proof. reflexivity. Qed.

Create HintDb pybytes.
Create Rewrite HintDb pybytes.
#[export] Hint Rewrite blen_app blen_cons blen_nil : pybytes.
#[export] Hint Resolve blen_nonneg b2z_range : pybytes.

(** arithmetic on byte lengths *)
Ltac blia :=
  autorewrite with pybytes in *;
  repeat match goal with
  | |- context [blen ?x] =>
      lazymatch goal with
      | _ : 0 <= blen x |- _ => fail
      | _ => pose proof (blen_nonneg x)
      end
  | _ : context [blen ?x] |- _ =>
      lazymatch goal with
      | _ : 0 <= blen x |- _ => fail
      | _ => pose proof (blen_nonneg x)
      end
  end; lia.

(** * Bit operations on unbounded integers *)

Lemma lor_shiftl_add a b s :
  0 <= s -> 0 <= a < 2 ^ s -> Z.lor a (Z.shiftl b s) = a + b * 2 ^ s.
Proof.
  intros Hs Ha.
  assert (Hland : Z.land a (Z.shiftl b s) = 0).
  { apply Z.bits_inj'. intros i Hi.
    rewrite Z.land_spec, Z.bits_0, Z.shiftl_spec by lia.
    destruct (Z.ltb_spec i s) as [Hlt|Hge].
    - rewrite (Z.testbit_neg_r b) by lia. apply andb_false_r.
    - rewrite <- (Z.mod_small a (2 ^ s)) by lia.
      by rewrite Z.mod_pow2_bits_high by lia. }
  rewrite <- Z.lxor_lor, <- Z.add_nocarry_lxor by done.
  by rewrite Z.shiftl_mul_pow2 by lia.
Qed.

Lemma land_ones_mod v n : 0 <= n -> Z.land v (2 ^ n - 1) = v mod 2 ^ n.
Proof.
  intros. rewrite <- Z.land_ones by lia. f_equal.
  rewrite Z.ones_equiv. lia.
Qed.

Lemma land_127 v : Z.land v 127 = v mod 128.
Proof. exact (land_ones_mod v 7 ltac:(lia)). Qed.

Lemma land_255 v : Z.land v 255 = v mod 256.
Proof. exact (land_ones_mod v 8 ltac:(lia)). Qed.

(** a single-bit mask tests that bit *)
Lemma land_pow2 v n : 0 <= n -> Z.land v (2 ^ n) = if Z.testbit v n then 2 ^ n else 0.
Proof.
  intros Hn. apply Z.bits_inj'. intros i Hi.
  rewrite Z.land_spec, Z.pow2_bits_eqb by lia.
  destruct (Z.eqb_spec n i) as [->|Hne].
  - destruct (Z.testbit v i); simpl; [by rewrite Z.pow2_bits_true by lia|].
    by rewrite Z.bits_0.
  - rewrite andb_false_r. destruct (Z.testbit v n).
    + by rewrite Z.pow2_bits_false by lia.
    + by rewrite Z.bits_0.
Qed.

Lemma testbit_div v n : 0 <= n -> Z.testbit v n = negb ((v / 2 ^ n) mod 2 =? 0).
Proof.
  intros. rewrite Z.testbit_eqb by lia.
  pose proof (Z.mod_pos_bound (v / 2 ^ n) 2 ltac:(lia)).
  destruct (Z.eqb_spec ((v / 2 ^ n) mod 2) 1), (Z.eqb_spec ((v / 2 ^ n) mod 2) 0); simpl; try done; lia.
Qed.

Lemma land_64_zero v : (Z.land v 64 =? 0) = ((v / 64) mod 2 =? 0).
Proof.
  change 64 with (2 ^ 6) at 1. rewrite land_pow2, testbit_div by lia.
  change (2 ^ 6) with 64. destruct ((v / 64) mod 2 =? 0); reflexivity.
Qed.

Lemma land_128_zero v : (Z.land v 128 =? 0) = ((v / 128) mod 2 =? 0).
Proof.
  change 128 with (2 ^ 7) at 1. rewrite land_pow2, testbit_div by lia.
  change (2 ^ 7) with 128. destruct ((v / 128) mod 2 =? 0); reflexivity.
Qed.

Lemma shiftr_7 v : Z.shiftr v 7 = v / 128.
Proof. by rewrite Z.shiftr_div_pow2 by lia. Qed.

Lemma shiftr_8 v : Z.shiftr v 8 = v / 256.
Proof. by rewrite Z.shiftr_div_pow2 by lia. Qed.

Lemma lor_128_small b : 0 <= b < 128 -> Z.lor b 128 = b + 128.
Proof. intros. exact (lor_shiftl_add b 1 7 ltac:(lia) ltac:(lia)). Qed.

(** * Ordered dictionaries

    A Python [dict] whose iteration order matters: the list of its items in
    insertion order, each key once. *)

Section odict.
Context {K A : Type} `{!EqDecision K}.

(** [d[k]], or [None] when the key is absent *)
Fixpoint od_get (d : list (K * A)) (k : K) : option A :=
  match d with
  | [] => None
  | (k', v) :: r => if bool_decide (k' = k) then Some v else od_get r k
  end.

(** [d[k] = v]: in place, or at the end *)
Fixpoint od_set (d : list (K * A)) (k : K) (v : A) : list (K * A) :=
  match d with
  | [] => [(k, v)]
  | (k', v') :: r => if bool_decide (k' = k) then (k', v) :: r else (k', v') :: od_set r k v
  end.

(** [del d[k]] *)
Fixpoint od_del (d : list (K * A)) (k : K) : result (list (K * A)) :=
  match d with
  | [] => Err KeyError
  | (k', v') :: r =>
      if bool_decide (k' = k) then Ok r else rbind (od_del r k) (fun r' => Ok ((k', v') :: r'))
  end.

Lemma od_get_set_eq d k v : od_get (od_set d k v) k = Some v.
Proof.
  induction d as [|[k' v'] d IH]; simpl; [by rewrite bool_decide_eq_true_2|].
  case_bool_decide as E; simpl; [by rewrite bool_decide_eq_true_2|].
  by rewrite bool_decide_eq_false_2.
Qed.

Lemma od_get_set_ne d k k' v : k <> k' -> od_get (od_set d k v) k' = od_get d k'.
Proof.
  intros Hne. induction d as [|[j v'] d IH]; simpl; [by rewrite bool_decide_eq_false_2|].
  case_bool_decide as E; simpl; [subst j; by rewrite !(bool_decide_eq_false_2 (k = k'))|].
  by rewrite IH.
Qed.

Lemma od_get_elem d k v : NoDup (map fst d) -> (k, v) ∈ d -> od_get d k = Some v.
Proof.
  induction d as [|[j w] d IH]; simpl; [by intros _ ?%not_elem_of_nil|].
  intros [Hj Hn]%NoDup_cons [[= -> ->]|Hin]%elem_of_cons; [by rewrite bool_decide_eq_true_2|].
  rewrite bool_decide_eq_false_2; [auto|]. intros ->. apply Hj.
  apply list_elem_of_fmap. by exists (k, v).
Qed.

Lemma od_get_in d k v : od_get d k = Some v -> (k, v) ∈ d.
Proof.
  induction d as [|[j w] d IH]; simpl; [done|]. case_bool_decide as E.
  - intros [= ->]. subst j. left.
  - intros H. right. auto.
Qed.

Lemma od_get_None d k : od_get d k = None <-> k ∉ map fst d.
Proof.
  induction d as [|[j w] d IH]; simpl; [split; [intros _; apply not_elem_of_nil|done]|].
  rewrite not_elem_of_cons. case_bool_decide as E; [naive_solver|]. rewrite IH. naive_solver.
Qed.

Lemma od_set_keys d k v j : j ∈ map fst (od_set d k v) <-> j = k \/ j ∈ map fst d.
Proof.
  induction d as [|[k' v'] d IH]; simpl; [by rewrite list_elem_of_singleton, elem_of_nil; naive_solver|].
  case_bool_decide as E; simpl; rewrite !elem_of_cons; [naive_solver|]. rewrite IH. naive_solver.
Qed.

Lemma od_set_nodup d k v : NoDup (map fst d) -> NoDup (map fst (od_set d k v)).
Proof.
  induction d as [|[k' v'] d IH]; simpl; [intros _; apply NoDup_singleton|].
  intros [Hk Hn]%NoDup_cons. case_bool_decide as E; simpl; apply NoDup_cons; [done|].
  split; [|auto]. rewrite od_set_keys. intros [?|?]; [congruence|done].
Qed.

Lemma od_set_Forall (P : K * A -> Prop) d k v : P (k, v) -> Forall P d -> Forall P (od_set d k v).
Proof.
  intros Hk. induction 1 as [|[k' v'] d Hx Hd IH]; simpl; [by repeat constructor|].
  case_bool_decide; subst; by constructor.
Qed.
End odict.
