(* ===== verification/PyInt.v ===== *)
(** Integers and strings of the Python standard library, as far as the modelled
    code uses them: [int.to_bytes], [int.from_bytes], the [struct] formats
    [!b], [!i] and [!q], and the strict UTF-8 codec of [str.encode] and
    [bytes.decode].  Each encoder comes with the round-trip lemma its clients use. *)

From stdpp Require Import base list.
From Stdlib Require Import ZArith Lia.
From S2P Require Import Prelude.

Local Open Scope Z_scope.
Local Open Scope py_scope.

(** * Big-endian integers *)

(** the low [len] bytes of the two's complement of [n], most significant first *)
Fixpoint be_bytes (len : nat) (n : Z) : bytes :=
  match len with
  | O => []
  | S k => be_bytes k (n / 256) ++ [z2b n]
  end.

Definition be_val (bs : bytes) : Z :=
  fold_left (fun acc b => acc * 256 + b2z b) bs 0.

(** [int.to_bytes(n, len, byteorder='big', signed=signed)] *)
Definition int_to_bytes (n : Z) (len : nat) (signed : bool) : result bytes :=
  if signed then
    if (- 2 ^ (8 * Z.of_nat len - 1) <=? n) && (n <? 2 ^ (8 * Z.of_nat len - 1))
    then Ok (be_bytes len n) else Err OverflowError
  else
    if (0 <=? n) && (n <? 2 ^ (8 * Z.of_nat len))
    then Ok (be_bytes len n) else Err OverflowError.

(** [int.from_bytes(bs, byteorder='big', signed=signed)] *)
Definition int_from_bytes (bs : bytes) (signed : bool) : Z :=
  let v := be_val bs in
  if signed && (2 ^ (8 * blen bs - 1) <=? v) then v - 2 ^ (8 * blen bs) else v.

Lemma length_be_bytes len n : length (be_bytes len n) = len.
Proof.
  revert n. induction len as [|len IH]; intros n; simpl; [done|].
  rewrite length_app, IH. simpl. lia.
Qed.

Lemma blen_be_bytes len n : blen (be_bytes len n) = Z.of_nat len.
Proof. unfold blen. by rewrite length_be_bytes. Qed.

Lemma be_val_snoc bs b : be_val (bs ++ [b]) = be_val bs * 256 + b2z b.
Proof. unfold be_val. by rewrite fold_left_app. Qed.

Lemma pow_8S k : 2 ^ (8 * Z.of_nat (S k)) = 256 * 2 ^ (8 * Z.of_nat k).
Proof.
  replace (8 * Z.of_nat (S k)) with (8 + 8 * Z.of_nat k) by lia.
  rewrite Z.pow_add_r by lia. reflexivity.
Qed.

Lemma be_val_be_bytes len n : be_val (be_bytes len n) = n mod 2 ^ (8 * Z.of_nat len).
Proof.
  revert n. induction len as [|k IH]; intros n; simpl be_bytes.
  - by rewrite Z.mod_1_r.
  - rewrite be_val_snoc, IH, b2z_z2b, pow_8S.
    rewrite Z.rem_mul_r by lia. lia.
Qed.

Lemma be_val_range bs : 0 <= be_val bs < 2 ^ (8 * blen bs).
Proof.
  induction bs as [|b bs IH] using rev_ind; [done|].
  rewrite be_val_snoc. unfold blen in *. rewrite length_app. simpl length.
  rewrite Nat.add_1_r, pow_8S. pose proof (b2z_range b). lia.
Qed.

Lemma be_bytes_be_val bs : be_bytes (length bs) (be_val bs) = bs.
Proof.
  induction bs as [|b bs IH] using rev_ind; [done|].
  rewrite length_app. simpl length. rewrite Nat.add_1_r. simpl.
  pose proof (b2z_range b). rewrite be_val_snoc.
  replace ((be_val bs * 256 + b2z b) / 256) with (be_val bs)
    by (rewrite Z.div_add_l, (Z.div_small (b2z b)) by lia; lia).
  rewrite IH. f_equal. f_equal.
  apply b2z_inj. rewrite b2z_z2b, Z.add_comm, Z.mod_add by lia.
  apply Z.mod_small. lia.
Qed.

Definition int_fits (n : Z) (len : nat) (signed : bool) : Prop :=
  if signed then - 2 ^ (8 * Z.of_nat len - 1) <= n < 2 ^ (8 * Z.of_nat len - 1)
  else 0 <= n < 2 ^ (8 * Z.of_nat len).

Lemma int_to_bytes_spec n len signed :
  (int_fits n len signed /\ int_to_bytes n len signed = Ok (be_bytes len n)) \/
  (~ int_fits n len signed /\ int_to_bytes n len signed = Err OverflowError).
Proof.
  unfold int_to_bytes, int_fits. destruct signed;
    match goal with |- context [(?a <=? ?b) && (?c <? ?d)] =>
      destruct (Z.leb_spec a b), (Z.ltb_spec c d) end; simpl; intuition lia.
Qed.

Lemma int_from_to_bytes n len signed :
  (0 < len)%nat -> int_fits n len signed ->
  int_from_bytes (be_bytes len n) signed = n.
Proof.
  intros Hlen Hfit. unfold int_from_bytes.
  rewrite blen_be_bytes, be_val_be_bytes.
  assert (Hp : 2 ^ (8 * Z.of_nat len) = 2 * 2 ^ (8 * Z.of_nat len - 1)).
  { rewrite <- Z.pow_succ_r by lia. f_equal. lia. }
  assert (0 < 2 ^ (8 * Z.of_nat len - 1)) by (apply Z.pow_pos_nonneg; lia).
  set (p := 2 ^ (8 * Z.of_nat len - 1)) in *.
  unfold int_fits in Hfit. destruct signed; simpl.
  - fold p in Hfit. rewrite Hp. destruct (Z.ltb_spec n 0) as [Hneg|Hpos].
    + replace (n mod (2 * p)) with (n + 2 * p)
        by (apply (Z.mod_unique n (2 * p) (-1)); lia).
      destruct (Z.leb_spec p (n + 2 * p)); lia.
    + rewrite Z.mod_small by lia. destruct (Z.leb_spec p n); lia.
  - rewrite Z.mod_small; lia.
Qed.

(** a decoded integer is in the range of its width *)
Lemma int_from_bytes_fits bs signed :
  bs <> [] -> int_fits (int_from_bytes bs signed) (length bs) signed.
Proof.
  intros Hne. pose proof (be_val_range bs) as Hr.
  unfold int_fits, int_from_bytes, blen in *.
  assert (0 < Z.of_nat (length bs)) by (destruct bs; [done|simpl; lia]).
  assert (Hp : 2 ^ (8 * Z.of_nat (length bs)) = 2 * 2 ^ (8 * Z.of_nat (length bs) - 1)).
  { rewrite <- Z.pow_succ_r by lia. f_equal. lia. }
  destruct signed; simpl; [|lia].
  destruct (Z.leb_spec (2 ^ (8 * Z.of_nat (length bs) - 1)) (be_val bs)); lia.
Qed.

(** re-encoding a decoded integer gives the bytes it was read from *)
Lemma be_bytes_from_bytes bs signed :
  be_bytes (length bs) (int_from_bytes bs signed) = bs.
Proof.
  pose proof (be_val_range bs) as Hr. unfold blen in Hr.
  assert (Hmod : int_from_bytes bs signed mod 2 ^ (8 * Z.of_nat (length bs)) = be_val bs).
  { unfold int_from_bytes, blen. case_if; [|by apply Z.mod_small].
    rewrite <- (Z.mod_small (be_val bs) _ Hr) at 2.
    rewrite <- (Z.mod_add (be_val bs - _) 1) by lia. f_equal. lia. }
  rewrite <- (be_bytes_be_val bs) at 3.
  rewrite <- (be_bytes_be_val (be_bytes (length bs) (int_from_bytes bs signed))).
  by rewrite length_be_bytes, be_val_be_bytes, Hmod.
Qed.

(** * [struct] formats *)

Inductive struct_format : Type := Fmt_b | Fmt_i | Fmt_q.

#[export] Instance struct_format_eq_dec : EqDecision struct_format.
Proof. solve_decision. Defined.

Definition calcsize (f : struct_format) : nat :=
  match f with Fmt_b => 1 | Fmt_i => 4 | Fmt_q => 8 end.

(** [struct.unpack('!x', data)]: a size mismatch is a [struct.error] *)
Definition struct_unpack (f : struct_format) (data : bytes) : result Z :=
  if Nat.eqb (length data) (calcsize f) then Ok (int_from_bytes data true)
  else Err StructError.

(** * Strict UTF-8

    A [str] is the list of its code points. *)

Definition pystr : Type := list Z.

Definition is_scalar (c : Z) : bool :=
  ((0 <=? c) && (c <? 55296)) || ((57344 <=? c) && (c <? 1114112)).

Definition utf8_char (c : Z) : bytes :=
  if c <? 128 then [z2b c]
  else if c <? 2048 then [z2b (192 + c / 64); z2b (128 + c mod 64)]
  else if c <? 65536 then
    [z2b (224 + c / 4096); z2b (128 + (c / 64) mod 64); z2b (128 + c mod 64)]
  else
    [z2b (240 + c / 262144); z2b (128 + (c / 4096) mod 64);
     z2b (128 + (c / 64) mod 64); z2b (128 + c mod 64)].

(** [s.encode('utf-8')]: surrogates cannot be encoded *)
Definition utf8_encode (s : pystr) : result bytes :=
  if forallb is_scalar s then Ok (concat (map utf8_char s)) else Err UnicodeEncodeError.

Definition is_cont (b : Z) : bool := (128 <=? b) && (b <? 192).

(** [data.decode('utf-8')]: rejects truncated, overlong and surrogate sequences *)
Fixpoint utf8_decode (bs : bytes) : result pystr :=
  match bs with
  | [] => Ok []
  | b0 :: r0 =>
    let x0 := b2z b0 in
    if x0 <? 128 then let? s := utf8_decode r0 in Ok (x0 :: s)
    else if x0 <? 192 then Err UnicodeDecodeError
    else match r0 with
    | [] => Err UnicodeDecodeError
    | b1 :: r1 =>
      let x1 := b2z b1 in
      if negb (is_cont x1) then Err UnicodeDecodeError
      else if x0 <? 224 then
        let c := (x0 - 192) * 64 + (x1 - 128) in
        if 128 <=? c then let? s := utf8_decode r1 in Ok (c :: s)
        else Err UnicodeDecodeError
      else match r1 with
      | [] => Err UnicodeDecodeError
      | b2 :: r2 =>
        let x2 := b2z b2 in
        if negb (is_cont x2) then Err UnicodeDecodeError
        else if x0 <? 240 then
          let c := (x0 - 224) * 4096 + (x1 - 128) * 64 + (x2 - 128) in
          if (2048 <=? c) && is_scalar c then let? s := utf8_decode r2 in Ok (c :: s)
          else Err UnicodeDecodeError
        else match r2 with
        | [] => Err UnicodeDecodeError
        | b3 :: r3 =>
          let x3 := b2z b3 in
          if negb (is_cont x3) then Err UnicodeDecodeError
          else
            let c := (x0 - 240) * 262144 + (x1 - 128) * 4096
                     + (x2 - 128) * 64 + (x3 - 128) in
            if (x0 <? 248) && (65536 <=? c) && is_scalar c
            then let? s := utf8_decode r3 in Ok (c :: s)
            else Err UnicodeDecodeError
        end
      end
    end
  end.

(** the value of a continuation byte, and its test, on the encoder's output *)
Lemma is_cont_enc x : 0 <= x < 64 -> is_cont (128 + x) = true.
Proof. intros. unfold is_cont. lia. Qed.

(** [bsmall] evaluates the bytes the encoder wrote *)
Ltac bsmall :=
  repeat match goal with
  | |- context [b2z (z2b ?x)] => rewrite (b2z_z2b_small x) by lia
  end.

Lemma utf8_decode_char c rest :
  is_scalar c = true ->
  utf8_decode (utf8_char c ++ rest) = rbind (utf8_decode rest) (fun s => Ok (c :: s)).
Proof.
  intros Hc. assert (0 <= c < 1114112) by (unfold is_scalar in Hc; lia).
  pose proof (Z.div_mod c 64 ltac:(lia)) as E0.
  pose proof (Z.div_mod (c / 64) 64 ltac:(lia)) as E1.
  pose proof (Z.div_mod (c / 64 / 64) 64 ltac:(lia)) as E2.
  pose proof (Z.mod_pos_bound c 64 ltac:(lia)).
  pose proof (Z.mod_pos_bound (c / 64) 64 ltac:(lia)).
  pose proof (Z.mod_pos_bound (c / 64 / 64) 64 ltac:(lia)).
  unfold utf8_char.
  replace (c / 4096) with (c / 64 / 64) by (rewrite Z.div_div by lia; f_equal; lia).
  replace (c / 262144) with (c / 64 / 64 / 64) by (rewrite !Z.div_div by lia; f_equal; lia).
  set (q0 := c / 64) in *. set (q1 := q0 / 64) in *. set (q2 := q1 / 64) in *.
  clearbody q2 q1 q0.
  destruct (Z.ltb_spec c 128); [|destruct (Z.ltb_spec c 2048); [|destruct (Z.ltb_spec c 65536)]];
    cbn [app utf8_decode]; bsmall; rewrite ?is_cont_enc by lia; cbn [negb].
  - rewrite (proj2 (Z.ltb_lt c 128)) by lia. done.
  - replace ((192 + q0 - 192) * 64 + (128 + c mod 64 - 128)) with c by lia.
    repeat case_if; try lia; done.
  - replace ((224 + q1 - 224) * 4096 + (128 + q0 mod 64 - 128) * 64 + (128 + c mod 64 - 128))
      with c by lia.
    rewrite Hc. repeat case_if; try lia; done.
  - replace ((240 + q2 - 240) * 262144 + (128 + q1 mod 64 - 128) * 4096
       + (128 + q0 mod 64 - 128) * 64 + (128 + c mod 64 - 128)) with c by lia.
    rewrite Hc. repeat case_if; try lia; done.
Qed.

Lemma utf8_decode_encode s bs : utf8_encode s = Ok bs -> utf8_decode bs = Ok s.
Proof.
  unfold utf8_encode. destruct (forallb is_scalar s) eqn:Hs; [|done].
  intros [= <-]. induction s as [|c s IH]; [done|].
  simpl in Hs. apply andb_true_iff in Hs as [Hc Hs].
  simpl. rewrite utf8_decode_char by done. by rewrite IH.
Qed.

(** the code points a strict decode produces can be encoded again *)
Lemma utf8_decode_scalar bs s : utf8_decode bs = Ok s -> forallb is_scalar s = true.
Proof.
  remember (length bs) as n eqn:Hn. revert bs s Hn.
  induction n as [n IH] using lt_wf_ind. intros [|b0 r0] s Hn; [by intros [= <-]|].
  cbn [utf8_decode].
  assert (Hrec : forall r c s', (length r < n)%nat -> is_scalar c = true ->
    rbind (utf8_decode r) (fun s => Ok (c :: s)) = Ok s' -> forallb is_scalar s' = true).
  { intros r c s' Hlt Hc H. inv_rok H. injection H as <-. simpl. rewrite Hc.
    eapply (IH _ Hlt); [reflexivity|done]. }
  simpl in Hn. pose proof (b2z_range b0).
  repeat first
    [ case_if; try discriminate
    | match goal with |- context [match ?r with [] => _ | _ :: _ => _ end] =>
        destruct r as [|? ?]; try discriminate end ].
  all: intros Hs; eapply Hrec in Hs; [exact Hs|simpl in *; lia|].
  all: repeat match goal with
    | H : (_ && _) = true |- _ => apply andb_true_iff in H as [? ?]
    | H : negb _ = false |- _ => apply negb_false_iff in H
    end; try done.
  - unfold is_scalar. lia.
  - unfold is_scalar, is_cont in *. lia.
Qed.
