(* ===== verification/Serializer.v ===== *)
(** The writing half of [hathor/serialization]: the in-memory
    [BytesSerializer] and the [MaxBytesSerializer] adapter that bounds the
    bytes written through it.  The second part gives the view of a serializer
    that encoders reason with: the bytes written so far and the budgets left. *)

From stdpp Require Import base list.
From Stdlib Require Import ZArith Lia.
From S2P Require Import Prelude PyInt.

Local Open Scope Z_scope.
Local Open Scope py_scope.

(** * Objects *)

Module BytesSerializer.
(** the two attributes of the class *)
Record attrs : Type := Attrs { _parts : list bytes; _pos : Z }.

(** [None] once [finalize] has deleted the attributes *)
Definition t : Type := option attrs.

Definition bs_init : t := Some (Attrs [] 0).

Definition bs_finalize : M t bytes := fun o =>
  match o with
  | Some a => (Ok (concat (_parts a)), None)
  | None => (Err AttributeError, None)
  end.

Definition bs_cur_pos (o : t) : result Z :=
  match o with
  | Some a => Ok (_pos a)
  | None => Err AttributeError
  end.

Definition bs_append (part : bytes) : M t unit := fun o =>
  match o with
  | Some a => (Ok tt, Some (Attrs (_parts a ++ [part]) (_pos a + blen part)))
  | None => (Err AttributeError, None)
  end.

(** [int.to_bytes(data)] is unsigned, one byte, and checks the range *)
Definition bs_write_byte (data : Z) : M t unit :=
  let! part := lift (int_to_bytes data 1 false) in
  bs_append part.

Definition bs_write_bytes (data : bytes) : M t unit := bs_append data.
End BytesSerializer.

(** a serializer object: the base class or an adapter around another one *)
Inductive serializer : Type :=
| SerBytes (o : BytesSerializer.t)
| SerMaxBytes (inner : serializer) (bytes_left : Z).

(** computations that write to a serializer *)
Abbreviation SM := (M serializer).
Definition Encoder (T : Type) : Type := T -> SM unit.

Module MaxBytesSerializer.
(** acts on [self._bytes_left]; the new budget is stored even when it raises *)
Definition ms_check_update_exceeds (write_size : Z) : M Z unit := fun left_ =>
  let left' := left_ - write_size in
  if left' <? 0 then (Err MaxBytesExceededError, left') else (Ok tt, left').

(** a write through the adapter: the check, then the inner write *)
Definition ms_write (size : Z) (inner_write : SM unit)
    (inner : serializer) (bytes_left : Z) : result unit * serializer :=
  match ms_check_update_exceeds size bytes_left with
  | (Err e, left') => (Err e, SerMaxBytes inner left')
  | (Ok _, left') =>
      let '(r, inner') := inner_write inner in (r, SerMaxBytes inner' left')
  end.
End MaxBytesSerializer.

(** * Methods, dispatched on the class of the object *)

Definition build_bytes_serializer : serializer := SerBytes BytesSerializer.bs_init.

Fixpoint ser_finalize (s : serializer) : result bytes * serializer :=
  match s with
  | SerBytes o => let '(r, o') := BytesSerializer.bs_finalize o in (r, SerBytes o')
  | SerMaxBytes inner n => let '(r, inner') := ser_finalize inner in (r, SerMaxBytes inner' n)
  end.

Fixpoint cur_pos (s : serializer) : result Z :=
  match s with
  | SerBytes o => BytesSerializer.bs_cur_pos o
  | SerMaxBytes inner _ => cur_pos inner
  end.

Fixpoint write_byte (data : Z) (s : serializer) : result unit * serializer :=
  match s with
  | SerBytes o => let '(r, o') := BytesSerializer.bs_write_byte data o in (r, SerBytes o')
  | SerMaxBytes inner n => MaxBytesSerializer.ms_write 1 (write_byte data) inner n
  end.

Fixpoint write_bytes (data : bytes) (s : serializer) : result unit * serializer :=
  match s with
  | SerBytes o => let '(r, o') := BytesSerializer.bs_write_bytes data o in (r, SerBytes o')
  | SerMaxBytes inner n =>
      MaxBytesSerializer.ms_write (blen data) (write_bytes data) inner n
  end.

(** the object an adapter wraps *)
Definition ser_inner (s : serializer) : serializer :=
  match s with SerMaxBytes inner _ => inner | SerBytes _ => s end.

(** [m] run on [serializer.with_max_bytes(n)]; the wrapped object keeps the
    writes after the adapter is dropped *)
Definition ser_with_max_bytes (n : Z) (m : SM unit) : SM unit := fun s =>
  let '(r, s') := m (SerMaxBytes s n) in (r, ser_inner s').

Definition ser_with_optional_max_bytes (n : option Z) (m : SM unit) : SM unit :=
  match n with
  | None => m
  | Some n => ser_with_max_bytes n m
  end.

(** * View of a serializer *)

(** the bytes written so far; [None] after [finalize] *)
Fixpoint written (s : serializer) : option bytes :=
  match s with
  | SerBytes o => option_map (fun a => concat (BytesSerializer._parts a)) o
  | SerMaxBytes inner _ => written inner
  end.

(** the budgets of the adapters, outermost first *)
Fixpoint budgets (s : serializer) : list Z :=
  match s with
  | SerBytes _ => []
  | SerMaxBytes inner n => n :: budgets inner
  end.

Definition fits (n : Z) (l : list Z) : Prop := Forall (fun b => n <= b) l.

Definition spend (n : Z) (l : list Z) : list Z := map (fun b => b - n) l.

(** the invariant of [BytesSerializer]: [_pos] counts the bytes of [_parts] *)
Fixpoint ser_inv (s : serializer) : Prop :=
  match s with
  | SerBytes (Some a) =>
      BytesSerializer._pos a = blen (concat (BytesSerializer._parts a))
  | SerBytes None => True
  | SerMaxBytes inner _ => ser_inv inner
  end.

(** an open serializer none of whose adapters has overrun its budget *)
Definition ready (s : serializer) : Prop :=
  is_Some (written s) /\ fits 0 (budgets s).

(** [s'] is [s] after writing [bs] *)
Definition pushed (bs : bytes) (s s' : serializer) : Prop :=
  written s' = option_map (fun w => w ++ bs) (written s) /\
  budgets s' = spend (blen bs) (budgets s) /\ (ser_inv s -> ser_inv s').

(** what an overrun budget is reported as: the adapter's exception, or the
    [ValueError] the variable-size integers turn it into *)
Definition overrun (e : exn) : Prop := e = MaxBytesExceededError \/ e = ValueError.

(** [m] writes exactly [bs] wherever [bs] fits the budgets, and raises otherwise *)
Definition writes (m : SM unit) (bs : bytes) : Prop := forall s, ready s ->
  (fits (blen bs) (budgets s) -> exists s', m s = (Ok tt, s') /\ pushed bs s s') /\
  (~ fits (blen bs) (budgets s) -> exists e s', m s = (Err e, s') /\ overrun e).

(** [m] raises on every ready serializer *)
Definition fails (m : SM unit) : Prop := forall s,
  ready s -> exists e s', m s = (Err e, s').

Lemma fits_dec n l : fits n l \/ ~ fits n l.
Proof. unfold fits. destruct (Forall_dec (fun b => n <= b) l); tauto. Qed.

Lemma fits_spend n m l :
  0 <= n -> 0 <= m -> fits (n + m) l <-> fits n l /\ fits m (spend n l).
Proof.
  intros. unfold fits, spend. rewrite Forall_fmap, <- Forall_and.
  apply Forall_iff. intros b. simpl. lia.
Qed.

Lemma fits_weaken n m l : n <= m -> fits m l -> fits n l.
Proof. intros ? Hf. eapply Forall_impl; [exact Hf|]. simpl. lia. Qed.

Lemma spend_spend n m l : spend m (spend n l) = spend (n + m) l.
Proof. unfold spend. rewrite map_map. apply map_ext. intros. lia. Qed.

Lemma spend_0 l : spend 0 l = l.
Proof. unfold spend. rewrite <- (map_id l) at 2. apply map_ext. intros. lia. Qed.

Lemma pushed_nil s : pushed [] s s.
Proof.
  unfold pushed. rewrite blen_nil, spend_0. split; [|done].
  destruct (written s); simpl; by rewrite ?app_nil_r.
Qed.

Lemma pushed_trans bs1 bs2 s1 s2 s3 :
  pushed bs1 s1 s2 -> pushed bs2 s2 s3 -> pushed (bs1 ++ bs2) s1 s3.
Proof.
  intros (H1 & H2 & H3) (H4 & H5 & H6). unfold pushed.
  rewrite H4, H5, H1, H2, spend_spend, blen_app. split; [|auto].
  destruct (written s1); simpl; [by rewrite app_assoc|done].
Qed.

Lemma pushed_ready bs s s' :
  ready s -> fits (blen bs) (budgets s) -> pushed bs s s' -> ready s'.
Proof.
  intros [[w Hw] _] Hf (H1 & H2 & _). split.
  - rewrite H1, Hw. simpl. eauto.
  - rewrite H2. apply (fits_spend (blen bs) 0); [blia|done|]. by rewrite Z.add_0_r.
Qed.

Lemma write_bytes_writes bs : writes (write_bytes bs) bs.
Proof.
  intros s. induction s as [o|inner IH n]; intros [[w Hw] Hr]; simpl in *.
  - destruct o as [a|]; [|done]. injection Hw as <-. split; [intros _|].
    + eexists. split; [reflexivity|]. split; simpl.
      * rewrite concat_app. simpl. by rewrite app_nil_r.
      * split; [done|]. intros ->. rewrite concat_app. simpl.
        by rewrite app_nil_r, blen_app.
    + intros []. constructor.
  - unfold MaxBytesSerializer.ms_write, MaxBytesSerializer.ms_check_update_exceeds.
    inversion Hr; subst. destruct (Z.ltb_spec (n - blen bs) 0) as [Hlt|Hge].
    + split; [intros Hf; inversion Hf; lia|].
      intros _. do 2 eexists. split; [done|by left].
    + destruct IH as [Hok Herr]; [split; eauto|]. split; intros Hf.
      * inversion Hf as [|? ? ? Hf']; subst. destruct (Hok Hf') as (s' & -> & Hp).
        eexists. split; [reflexivity|]. destruct Hp as (? & Hb & ?).
        unfold pushed. simpl. rewrite Hb. done.
      * destruct Herr as (e & s' & -> & ?); [|eauto].
        intros Hf'. apply Hf. constructor; [lia|done].
Qed.

Lemma write_byte_range z : 0 <= z < 256 -> forall s, write_byte z s = write_bytes [z2b z] s.
Proof.
  intros Hz s. induction s as [o|inner IH n]; simpl.
  - unfold BytesSerializer.bs_write_byte, BytesSerializer.bs_write_bytes, bind, lift.
    destruct (int_to_bytes_spec z 1 false) as [[_ ->]|[Hn _]]; [done|].
    exfalso. apply Hn. unfold int_fits. lia.
  - unfold MaxBytesSerializer.ms_write.
    destruct (MaxBytesSerializer.ms_check_update_exceeds _ n) as [[|] ?]; [|done].
    by rewrite IH.
Qed.

Lemma write_byte_writes z : 0 <= z < 256 -> writes (write_byte z) [z2b z].
Proof.
  intros Hz s Hs. rewrite write_byte_range by done. by apply write_bytes_writes.
Qed.

(** * Composition *)

Lemma writes_ret : writes (ret tt) [].
Proof.
  intros s [Hw Hr]. split; [|done]. intros _. exists s. split; [done|]. apply pushed_nil.
Qed.

Lemma writes_bind m bs k bs' :
  writes m bs -> writes k bs' -> writes (bind m (fun _ => k)) (bs ++ bs').
Proof.
  intros Hm Hk s Hs. destruct (Hm s Hs) as [Hok Herr].
  rewrite blen_app, fits_spend by blia.
  destruct (fits_dec (blen bs) (budgets s)) as [Hf|Hf].
  - destruct (Hok Hf) as (s1 & E1 & Hp1). rewrite (bind_ok _ _ _ _ _ E1).
    destruct (Hk s1) as [Hok' Herr']; [by eapply pushed_ready|].
    pose proof Hp1 as (_ & Hb & _). rewrite Hb in Hok', Herr'. split; intros Hf'.
    + destruct (Hok' (proj2 Hf')) as (s2 & -> & Hp2). eauto using pushed_trans.
    + apply Herr'. tauto.
  - destruct (Herr Hf) as (e & s1 & E1 & ?). rewrite (bind_err _ _ _ _ _ E1).
    split; [tauto|eauto].
Qed.

Lemma fails_bind_l {A} (m : SM unit) (k : unit -> SM A) :
  fails m -> forall s, ready s -> exists e s', bind m k s = (Err e, s').
Proof.
  intros Hm s Hs. destruct (Hm s Hs) as (e & s' & E). exists e, s'. by apply bind_err.
Qed.

Lemma fails_bind_r m bs k :
  writes m bs -> fails k -> fails (bind m (fun _ => k)).
Proof.
  intros Hm Hk s Hs. destruct (Hm s Hs) as [Hok Herr].
  destruct (fits_dec (blen bs) (budgets s)) as [Hf|Hf].
  - destruct (Hok Hf) as (s1 & E1 & Hp1). rewrite (bind_ok _ _ _ _ _ E1).
    apply Hk. by eapply pushed_ready.
  - destruct (Herr Hf) as (e & s1 & E1 & _). rewrite (bind_err _ _ _ _ _ E1). eauto.
Qed.

Lemma fails_raise e : fails (raise e).
Proof. intros s _. unfold raise. eauto. Qed.

(** an encoder behind its own byte limit *)
Lemma ser_with_max_bytes_writes n m bs :
  0 <= n -> writes m bs -> blen bs <= n -> writes (ser_with_max_bytes n m) bs.
Proof.
  intros Hn Hm Hle s Hs. unfold ser_with_max_bytes.
  destruct (Hm (SerMaxBytes s n)) as [Hok Herr].
  { destruct Hs. split; [done|]. by constructor. }
  simpl in *. split; intros Hf.
  - destruct Hok as (s' & -> & Hp1 & Hp2 & Hp3); [by constructor|].
    destruct s' as [o|inner n']; simpl in *; [done|]. simplify_eq.
    exists inner. split; [done|]. unfold pushed. eauto.
  - destruct Herr as (e & s' & -> & ?); [|eauto]. intros Hf'. by inversion Hf'.
Qed.

Lemma ser_with_max_bytes_overrun n m bs s :
  0 <= n -> writes m bs -> n < blen bs -> ready s ->
  exists e s', ser_with_max_bytes n m s = (Err e, s') /\ overrun e.
Proof.
  intros Hn Hm Hlt Hs. unfold ser_with_max_bytes.
  destruct (Hm (SerMaxBytes s n)) as [_ Herr].
  { destruct Hs. split; [done|]. by constructor. }
  destruct Herr as (e & s' & -> & ?); [|eauto].
  intros Hf. inversion Hf. lia.
Qed.

Lemma ser_with_max_bytes_fails n m bs :
  0 <= n -> writes m bs -> n < blen bs -> fails (ser_with_max_bytes n m).
Proof.
  intros Hn Hm Hlt s Hs.
  destruct (ser_with_max_bytes_overrun n m bs s) as (e & s' & ? & _); eauto.
Qed.

Lemma ser_with_max_bytes_fails_inner n m :
  0 <= n -> fails m -> fails (ser_with_max_bytes n m).
Proof.
  intros Hn Hm s Hs. unfold ser_with_max_bytes.
  destruct (Hm (SerMaxBytes s n)) as (e & s' & ->); [|eauto].
  destruct Hs. split; [done|]. by constructor.
Qed.

(** renaming an exception changes neither what is written nor whether it fails *)
Lemma try_raise_writes m c e bs :
  overrun e -> writes m bs -> writes (try_raise m c e) bs.
Proof.
  intros He Hm s Hs. unfold try_raise. destruct (Hm s Hs) as [Hok Herr]. split; intros Hf.
  - destruct (Hok Hf) as (s' & -> & ?). eauto.
  - destruct (Herr Hf) as (e' & s' & -> & ?). destruct (issubclass_exn e' c); eauto.
Qed.

Lemma try_raise_fails m c e : fails m -> fails (try_raise m c e).
Proof.
  intros Hm s Hs. unfold try_raise. destruct (Hm s Hs) as (e' & s' & ->).
  destruct (issubclass_exn e' c); eauto.
Qed.

(** an encoder that succeeded wrote its bytes *)
Lemma writes_ok_inv m bs s s' :
  writes m bs -> ready s -> m s = (Ok tt, s') -> fits (blen bs) (budgets s) /\ pushed bs s s'.
Proof.
  intros Hm Hs E. destruct (Hm s Hs) as [Hok Herr].
  destruct (fits_dec (blen bs) (budgets s)) as [Hf|Hf].
  - destruct (Hok Hf) as (s'' & E' & ?). rewrite E in E'. by simplify_eq.
  - destruct (Herr Hf) as (e & s'' & E' & _). by rewrite E in E'.
Qed.

Lemma ready_build : ready build_bytes_serializer.
Proof. split; [by eexists|constructor]. Qed.

(** what [finalize] returns after an encoder ran on a fresh serializer *)
Lemma finalize_pushed bs s' :
  pushed bs build_bytes_serializer s' -> budgets s' = [] ->
  exists s'', ser_finalize s' = (Ok bs, s'').
Proof.
  intros (Hw & _ & _) Hb. destruct s' as [[a|]|]; simpl in *; try done.
  injection Hw as <-. eauto.
Qed.

(** an encoder run on a fresh serializer, then [finalize] *)
Lemma writes_run m bs :
  writes m bs -> exists s', m build_bytes_serializer = (Ok tt, s') /\
                            fst (ser_finalize s') = Ok bs.
Proof.
  intros Hm. destruct (Hm _ ready_build) as [Hok _].
  destruct Hok as (s' & E & Hp); [constructor|]. exists s'. split; [done|].
  destruct (finalize_pushed bs s' Hp) as (s'' & ->); [|done].
  by destruct Hp as (_ & -> & _).
Qed.

Lemma fails_run m : fails m -> exists e s', m build_bytes_serializer = (Err e, s').
Proof. intros Hm. apply Hm, ready_build. Qed.

Lemma ser_with_optional_max_bytes_writes n m bs :
  (forall k, n = Some k -> 0 <= k /\ blen bs <= k) -> writes m bs ->
  writes (ser_with_optional_max_bytes n m) bs.
Proof.
  intros Hn Hm. destruct n as [k|]; [|done]. destruct (Hn k eq_refl).
  by apply ser_with_max_bytes_writes.
Qed.

Lemma overrun_value : overrun ValueError.
Proof. by right. Qed.

Create HintDb ser.
#[export] Hint Resolve writes_ret writes_bind write_bytes_writes write_byte_writes
  fails_raise try_raise_writes try_raise_fails ready_build overrun_value : ser.
