(* ===== verification/Deserializer.v ===== *)
(** The reading half of [hathor/serialization]: [BytesDeserializer] and the
    [MaxBytesDeserializer] adapter, with the view of a deserializer (bytes left
    to read, budgets) that decoders reason with. *)

From stdpp Require Import base list.
From Stdlib Require Import ZArith Lia.
From S2P Require Import Prelude PyInt Serializer.

Local Open Scope Z_scope.
Local Open Scope py_scope.

(** * Objects *)

(** a deserializer object; the view is [None] once [finalize] has deleted it *)
Inductive deserializer : Type :=
| DesBytes (_view : option bytes)
| DesMaxBytes (inner : deserializer) (bytes_left : Z).

Abbreviation DM := (M deserializer).
Definition Decoder (T : Type) : Type := DM T.

Module BytesDeserializer.
Definition t : Type := option bytes.

Definition bd_finalize : M t unit := fun o =>
  match o with
  | Some [] => (Ok tt, None)
  | Some (_ :: _) => (Err ValueError, o)
  | None => (Err AttributeError, None)
  end.

Definition bd_is_empty (o : t) : result bool :=
  match o with
  | Some v => Ok (match v with [] => true | _ => false end)
  | None => Err AttributeError
  end.

Definition bd_peek_byte (o : t) : result Z :=
  match o with
  | Some [] => Err OutOfDataError
  | Some (b :: _) => Ok (b2z b)
  | None => Err AttributeError
  end.

Definition bd_peek_bytes (n : Z) (exact : bool) (o : t) : result bytes :=
  if n <? 0 then Err ValueError
  else match o with
  | Some v => if exact && (blen v <? n) then Err OutOfDataError
              else Ok (take (Z.to_nat n) v)
  | None => Err AttributeError
  end.

(** [self._view = self._view[n:]] *)
Definition bd_advance (n : nat) (o : t) : t := option_map (drop n) o.

Definition bd_read_byte : M t Z := fun o =>
  match bd_peek_byte o with
  | Ok b => (Ok b, bd_advance 1 o)
  | Err e => (Err e, o)
  end.

Definition bd_read_bytes (n : Z) (exact : bool) : M t bytes := fun o =>
  match bd_peek_bytes n exact o with
  | Ok b =>
      if exact && (blen (default [] o) <? n) then (Err OutOfDataError, o)
      else (Ok b, bd_advance (Z.to_nat n) o)
  | Err e => (Err e, o)
  end.

Definition bd_read_all : M t bytes := fun o =>
  match o with
  | Some v => (Ok v, Some [])
  | None => (Err AttributeError, None)
  end.
End BytesDeserializer.

Module MaxBytesDeserializer.
Definition md_check_update_exceeds (read_size : Z) : M Z unit := fun left_ =>
  let left' := left_ - read_size in
  if left' <? 0 then (Err MaxBytesExceededError, left') else (Ok tt, left').

(** a read through the adapter: the check, then the inner read *)
Definition md_read {A} (size : Z) (inner_read : DM A)
    (inner : deserializer) (bytes_left : Z) : result A * deserializer :=
  match md_check_update_exceeds size bytes_left with
  | (Err e, left') => (Err e, DesMaxBytes inner left')
  | (Ok _, left') =>
      let '(r, inner') := inner_read inner in (r, DesMaxBytes inner' left')
  end.
End MaxBytesDeserializer.

(** * Methods, dispatched on the class of the object *)

Definition build_bytes_deserializer (data : bytes) : deserializer := DesBytes (Some data).

Definition on_bytes {A} (m : M BytesDeserializer.t A) (o : BytesDeserializer.t) :
    result A * deserializer :=
  let '(r, o') := m o in (r, DesBytes o').

Fixpoint des_finalize (d : deserializer) : result unit * deserializer :=
  match d with
  | DesBytes o => on_bytes BytesDeserializer.bd_finalize o
  | DesMaxBytes inner n => let '(r, inner') := des_finalize inner in (r, DesMaxBytes inner' n)
  end.

Fixpoint is_empty (d : deserializer) : result bool :=
  match d with
  | DesBytes o => BytesDeserializer.bd_is_empty o
  | DesMaxBytes inner _ => is_empty inner
  end.

Fixpoint peek_byte (d : deserializer) : result Z :=
  match d with
  | DesBytes o => BytesDeserializer.bd_peek_byte o
  | DesMaxBytes inner _ => peek_byte inner
  end.

Fixpoint peek_bytes (n : Z) (exact : bool) (d : deserializer) : result bytes :=
  match d with
  | DesBytes o => BytesDeserializer.bd_peek_bytes n exact o
  | DesMaxBytes inner _ => peek_bytes n exact inner
  end.

Fixpoint read_byte (d : deserializer) : result Z * deserializer :=
  match d with
  | DesBytes o => on_bytes BytesDeserializer.bd_read_byte o
  | DesMaxBytes inner n => MaxBytesDeserializer.md_read 1 read_byte inner n
  end.

Fixpoint read_bytes (n : Z) (exact : bool) (d : deserializer) : result bytes * deserializer :=
  match d with
  | DesBytes o => on_bytes (BytesDeserializer.bd_read_bytes n exact) o
  | DesMaxBytes inner left_ =>
      MaxBytesDeserializer.md_read n (read_bytes n exact) inner left_
  end.

(** the adapter reads what its budget allows, without charging it, and raises
    when the inner object still has data *)
Definition read_all (d : deserializer) : result bytes * deserializer :=
  match d with
  | DesBytes o => on_bytes BytesDeserializer.bd_read_all o
  | DesMaxBytes inner left_ =>
      match read_bytes left_ false inner with
      | (Err e, inner') => (Err e, DesMaxBytes inner' left_)
      | (Ok b, inner') =>
          match is_empty inner' with
          | Err e => (Err e, DesMaxBytes inner' left_)
          | Ok true => (Ok b, DesMaxBytes inner' left_)
          | Ok false => (Err MaxBytesExceededError, DesMaxBytes inner' left_)
          end
      end
  end.

Definition peek_struct (f : struct_format) (d : deserializer) : result Z :=
  let? data := peek_bytes (Z.of_nat (calcsize f)) true d in
  struct_unpack f data.

Definition read_struct (f : struct_format) : DM Z :=
  let! data := read_bytes (Z.of_nat (calcsize f)) true in
  lift (struct_unpack f data).

Definition des_inner (d : deserializer) : deserializer :=
  match d with DesMaxBytes inner _ => inner | DesBytes _ => d end.

(** [m] run on [deserializer.with_max_bytes(n)] *)
Definition des_with_max_bytes {A} (n : Z) (m : DM A) : DM A := fun d =>
  let '(r, d') := m (DesMaxBytes d n) in (r, des_inner d').

Definition des_with_optional_max_bytes {A} (n : option Z) (m : DM A) : DM A :=
  match n with
  | None => m
  | Some n => des_with_max_bytes n m
  end.

(** * View of a deserializer *)

Fixpoint remaining (d : deserializer) : option bytes :=
  match d with
  | DesBytes o => o
  | DesMaxBytes inner _ => remaining inner
  end.

Fixpoint des_budgets (d : deserializer) : list Z :=
  match d with
  | DesBytes _ => []
  | DesMaxBytes inner n => n :: des_budgets inner
  end.

(** [m] reads exactly [bs] and returns [a], wherever [bs] is next and fits *)
Definition reads {A} (m : DM A) (bs : bytes) (a : A) : Prop := forall d rest,
  remaining d = Some (bs ++ rest) -> fits (blen bs) (des_budgets d) ->
  exists d', m d = (Ok a, d') /\ remaining d' = Some rest /\
             des_budgets d' = spend (blen bs) (des_budgets d).

Lemma read_byte_reads b : reads read_byte [b] (b2z b).
Proof.
  intros d. induction d as [o|inner IH n]; intros rest Hr Hf; simpl in *.
  - subst o. eexists. done.
  - inversion Hf as [|? ? Hn Hf']; subst.
    destruct (IH rest Hr Hf') as (d' & E & H1 & H2).
    unfold MaxBytesDeserializer.md_read, MaxBytesDeserializer.md_check_update_exceeds.
    rewrite blen_cons, blen_nil in *.
    destruct (Z.ltb_spec (n - 1) 0); [lia|]. rewrite E. eexists. split; [done|].
    simpl. rewrite H2. done.
Qed.

Lemma read_bytes_reads bs exact : reads (read_bytes (blen bs) exact) bs bs.
Proof.
  intros d. induction d as [o|inner IH n]; intros rest Hr Hf; simpl in *.
  - subst o. unfold on_bytes, BytesDeserializer.bd_read_bytes, BytesDeserializer.bd_peek_bytes.
    destruct (Z.ltb_spec (blen bs) 0); [blia|]. simpl.
    rewrite (proj2 (Z.ltb_ge (blen (bs ++ rest)) (blen bs))) by blia.
    rewrite andb_false_r. unfold blen. rewrite Nat2Z.id, take_app_length, drop_app_length.
    eexists. done.
  - inversion Hf as [|? ? Hn Hf']; subst.
    destruct (IH rest Hr Hf') as (d' & E & H1 & H2).
    unfold MaxBytesDeserializer.md_read, MaxBytesDeserializer.md_check_update_exceeds.
    destruct (Z.ltb_spec (n - blen bs) 0); [lia|]. rewrite E. eexists. split; [done|].
    simpl. rewrite H2. done.
Qed.

Lemma reads_ret {A} (a : A) : reads (ret a) [] a.
Proof.
  intros d rest Hr Hf. exists d. rewrite blen_nil, spend_0. done.
Qed.

Lemma reads_bind {A B} (m : DM A) (f : A -> DM B) bs1 bs2 a b :
  reads m bs1 a -> reads (f a) bs2 b -> reads (bind m f) (bs1 ++ bs2) b.
Proof.
  intros Hm Hk d rest Hr Hf. rewrite blen_app in *.
  apply fits_spend in Hf as [Hf1 Hf2]; [|blia..].
  rewrite <- app_assoc in Hr.
  destruct (Hm d (bs2 ++ rest) Hr Hf1) as (d1 & E1 & H1 & H2).
  rewrite (bind_ok _ _ _ _ _ E1). rewrite <- H2 in Hf2.
  destruct (Hk d1 rest H1 Hf2) as (d2 & E2 & H3 & H4).
  exists d2. rewrite E2, H4, H2, spend_spend. done.
Qed.

(** sequencing with a continuation that reads nothing more *)
Lemma reads_bind_ret {A B} (m : DM A) (f : A -> DM B) bs a b :
  reads m bs a -> f a = ret b -> reads (bind m f) bs b.
Proof.
  intros Hm Hf. rewrite <- (app_nil_r bs). eapply reads_bind; [exact Hm|].
  rewrite Hf. apply reads_ret.
Qed.

Lemma des_with_max_bytes_reads {A} n (m : DM A) bs a :
  reads m bs a -> blen bs <= n -> reads (des_with_max_bytes n m) bs a.
Proof.
  intros Hm Hle d rest Hr Hf. unfold des_with_max_bytes.
  destruct (Hm (DesMaxBytes d n) rest Hr) as (d' & -> & H1 & H2); [by constructor|].
  destruct d' as [|inner n']; simpl in *; [done|]. simplify_eq. eauto.
Qed.

Lemma try_raise_reads {A} (m : DM A) c e bs a : reads m bs a -> reads (try_raise m c e) bs a.
Proof.
  intros Hm d rest Hr Hf. unfold try_raise.
  destruct (Hm d rest Hr Hf) as (d' & -> & ?). eauto.
Qed.

(** a successful [read_byte] charges every adapter one byte it had *)
Lemma read_byte_ok d z d' : read_byte d = (Ok z, d') ->
  exists b, z = b2z b /\ remaining d = option_map (cons b) (remaining d') /\
  is_Some (remaining d') /\
  des_budgets d' = spend 1 (des_budgets d) /\ fits 0 (des_budgets d').
Proof.
  revert z d'. induction d as [o|inner IH n]; intros z d'; simpl.
  - unfold on_bytes, BytesDeserializer.bd_read_byte.
    destruct o as [[|b v]|]; simpl; try done. intros [= <- <-].
    exists b. simpl. repeat split; try done. constructor.
  - unfold MaxBytesDeserializer.md_read, MaxBytesDeserializer.md_check_update_exceeds.
    destruct (Z.ltb_spec (n - 1) 0); [done|].
    destruct (read_byte inner) as [r inner'] eqn:E. intros [= -> <-].
    destruct (IH _ _ eq_refl) as (b & ? & ? & ? & Hb & ?).
    exists b. simpl. rewrite Hb in *. repeat split; try done. by constructor.
Qed.

(** a successful [read_bytes(n)] returns [n] bytes *)
Lemma read_bytes_ok n d bs d' : read_bytes n true d = (Ok bs, d') ->
  blen bs = n /\ remaining d = option_map (app bs) (remaining d') /\ is_Some (remaining d').
Proof.
  revert bs d'. induction d as [o|inner IH k]; intros bs d'; simpl.
  - unfold on_bytes, BytesDeserializer.bd_read_bytes, BytesDeserializer.bd_peek_bytes.
    destruct (Z.ltb_spec n 0); [done|]. destruct o as [v|]; [|done]. simpl.
    destruct (Z.ltb_spec (blen v) n); [done|]. intros [= <- <-].
    unfold blen in *. rewrite length_take. simpl. rewrite take_drop. repeat split; [lia|eauto].
  - unfold MaxBytesDeserializer.md_read, MaxBytesDeserializer.md_check_update_exceeds.
    destruct (Z.ltb_spec (k - n) 0); [done|].
    destruct (read_bytes n true inner) as [r inner'] eqn:E. intros [= -> <-].
    destruct (IH _ _ eq_refl). done.
Qed.

Lemma des_with_max_bytes_ok {A} n (m : DM A) d a d' :
  des_with_max_bytes n m d = (Ok a, d') ->
  exists d'', m (DesMaxBytes d n) = (Ok a, d'') /\ d' = des_inner d''.
Proof.
  unfold des_with_max_bytes. destruct (m (DesMaxBytes d n)) as [r d''].
  intros [= -> <-]. eauto.
Qed.

Lemma try_raise_ok {S A} (m : M S A) c e s a s' :
  try_raise m c e s = (Ok a, s') -> m s = (Ok a, s').
Proof.
  unfold try_raise. destruct (m s) as [[|e'] s'']; [done|].
  by destruct (issubclass_exn e' c).
Qed.

(** a decoder run on a fresh deserializer *)
Lemma reads_run {A} (m : DM A) bs rest a :
  reads m bs a -> m (build_bytes_deserializer (bs ++ rest)) = (Ok a, DesBytes (Some rest)).
Proof.
  intros Hm. destruct (Hm (build_bytes_deserializer (bs ++ rest)) rest) as (d' & -> & H1 & H2);
    [done|constructor|].
  destruct d' as [o|]; simpl in *; [by subst|done].
Qed.

Lemma des_with_optional_max_bytes_reads {A} n (m : DM A) bs a :
  (forall k, n = Some k -> blen bs <= k) -> reads m bs a ->
  reads (des_with_optional_max_bytes n m) bs a.
Proof. intros Hn Hm. destruct n as [k|]; [|done]. apply des_with_max_bytes_reads; auto. Qed.

Create HintDb des.
#[export] Hint Resolve reads_ret read_byte_reads read_bytes_reads try_raise_reads : des.
