(* ===== verification/Leb128.v ===== *)
(** LEB128 ([hathor/serialization/encoding/leb128.py]) and its bytes-level
    wrappers ([hathor/utils/leb128.py]).  The Python loops are translated with
    fuel; [leb_adequate] and the consumed input bound it, so the fuel is never
    exhausted. *)

From stdpp Require Import base list.
From Stdlib Require Import ZArith Lia.
From S2P Require Import Prelude PyInt Serializer Deserializer.

Local Open Scope Z_scope.
Local Open Scope py_scope.

(** * The code *)

(** the local variable [cont] of [encode_leb128]: the current byte is the last *)
Definition leb_cont (signed : bool) (value byte : Z) : bool :=
  if signed then
    ((value =? 0) && (Z.land byte 64 =? 0)) || ((value =? -1) && negb (Z.land byte 64 =? 0))
  else (value =? 0) && (Z.land byte 128 =? 0).

Fixpoint encode_leb128_loop (fuel : nat) (signed : bool) (value : Z) : SM unit :=
  match fuel with
  | O => raise OutOfFuel
  | S fuel' =>
      let byte := Z.land value 127 in
      let value := Z.shiftr value 7 in
      if leb_cont signed value byte then write_byte byte
      else write_byte (Z.lor byte 128) ;;; encode_leb128_loop fuel' signed value
  end.

(** iterations that suffice to write [value] *)
Definition leb_fuel (value : Z) : nat := S (S (Z.to_nat (Z.log2 (Z.abs value)))).

Definition encode_leb128 (signed : bool) (value : Z) : SM unit :=
  if negb signed && (value <? 0) then raise ValueError
  else encode_leb128_loop (leb_fuel value) signed value.

Fixpoint decode_leb128_loop (fuel : nat) (signed : bool) (result shift : Z) : DM Z :=
  match fuel with
  | O => raise OutOfFuel
  | S fuel' =>
      let! byte := read_byte in
      let result := Z.lor result (Z.shiftl (Z.land byte 127) shift) in
      let shift := shift + 7 in
      py_assert (shift mod 7 =? 0) ;;;
      (if Z.land byte 128 =? 0 then
        if signed && negb (Z.land byte 64 =? 0)
        then ret (Z.lor result (- Z.shiftl 1 shift))
        else ret result
      else decode_leb128_loop fuel' signed result shift)
  end.

(** every iteration consumes a byte, so the bytes left bound the iterations *)
Definition des_fuel (d : deserializer) : nat := S (length (default [] (remaining d))).

Definition decode_leb128 (signed : bool) : DM Z := fun d =>
  decode_leb128_loop (des_fuel d) signed 0 0 d.

(** [hathor/utils/leb128.py] *)
Module Leb128Utils.
(** the shared body of [encode_signed] and [encode_unsigned] *)
Definition encode_with (signed : bool) (value : Z) (max_bytes : option Z) : result bytes :=
  let enc := ser_with_optional_max_bytes max_bytes (encode_leb128 signed value) in
  let '(r, serializer) :=
    try_raise (try_raise enc MaxBytesExceededError ValueError)
      SerializationError ValueError build_bytes_serializer in
  let? _ := r in fst (ser_finalize serializer).

Definition encode_signed (value : Z) (max_bytes : option Z) : result bytes :=
  encode_with true value max_bytes.

Definition encode_unsigned (value : Z) (max_bytes : option Z) : result bytes :=
  encode_with false value max_bytes.

(** the shared body of [decode_signed] and [decode_unsigned] *)
Definition decode_with (signed : bool) (data : bytes) (max_bytes : option Z) :
    result (Z * bytes) :=
  let dec := des_with_optional_max_bytes max_bytes (decode_leb128 signed) in
  fst ((let! value := try_raise (try_raise dec MaxBytesExceededError ValueError)
          SerializationError ValueError in
        let! remaining_data := read_all in
        des_finalize ;;;
        ret (value, remaining_data)) (build_bytes_deserializer data)).

Definition decode_signed (data : bytes) (max_bytes : option Z) : result (Z * bytes) :=
  decode_with true data max_bytes.

Definition decode_unsigned (data : bytes) (max_bytes : option Z) : result (Z * bytes) :=
  decode_with false data max_bytes.
End Leb128Utils.

(** * The bytes of a value *)

(** the values one byte can hold *)
Definition leb_stop (signed : bool) (v : Z) : bool :=
  if signed then (-64 <=? v) && (v <? 64) else (0 <=? v) && (v <? 128).

Lemma leb_cont_stop signed v :
  leb_cont signed (Z.shiftr v 7) (Z.land v 127) = leb_stop signed v.
Proof.
  unfold leb_cont, leb_stop. rewrite land_64_zero, land_128_zero, shiftr_7, land_127.
  pose proof (Z.div_mod v 128 ltac:(lia)) as E.
  pose proof (Z.mod_pos_bound v 128 ltac:(lia)) as R.
  set (q := v / 128) in *. set (r := v mod 128) in *. clearbody q r.
  rewrite (Z.div_small r 128) by lia.
  destruct signed.
  - destruct (Z.ltb_spec r 64) as [H|H].
    + rewrite (Z.div_small r 64) by lia. change (0 mod 2 =? 0) with true. simpl. lia.
    + replace (r / 64) with 1 by (apply (Z.div_unique r 64 1 (r - 64)); lia).
      change (1 mod 2 =? 0) with false. simpl. lia.
  - simpl. lia.
Qed.

Fixpoint leb_bytes (fuel : nat) (signed : bool) (v : Z) : bytes :=
  match fuel with
  | O => []
  | S fuel' =>
      if leb_stop signed v then [z2b (v mod 128)]
      else z2b (v mod 128 + 128) :: leb_bytes fuel' signed (v / 128)
  end.

Definition leb128 (signed : bool) (v : Z) : bytes := leb_bytes (leb_fuel v) signed v.

(** [fuel] iterations are enough for [v] *)
Definition leb_adequate (fuel : nat) (signed : bool) (v : Z) : Prop :=
  exists n, (fuel = S n)%nat /\ - 2 ^ Z.of_nat n <= v < 2 ^ Z.of_nat n /\
            (signed = true \/ 0 <= v).

Lemma leb_adequate_step fuel signed v :
  leb_adequate (S fuel) signed v -> leb_stop signed v = false ->
  leb_adequate fuel signed (v / 128).
Proof.
  intros (n & [= ->] & Hv & Hs) Hstop. destruct n as [|n].
  - exfalso. change (2 ^ Z.of_nat 0) with 1 in Hv. unfold leb_stop in Hstop.
    destruct signed; [lia|]. destruct Hs as [Hs|Hs]; [done|lia].
  - exists n. split; [done|]. rewrite Nat2Z.inj_succ, Z.pow_succ_r in Hv by lia.
    pose proof (Z.div_mod v 128 ltac:(lia)). pose proof (Z.mod_pos_bound v 128 ltac:(lia)).
    assert (0 < 2 ^ Z.of_nat n) by (apply Z.pow_pos_nonneg; lia).
    split; [lia|]. destruct Hs as [Hs|Hs]; [by left|right; lia].
Qed.

Lemma leb_fuel_adequate signed v :
  signed = true \/ 0 <= v -> leb_adequate (leb_fuel v) signed v.
Proof.
  intros Hs. exists (S (Z.to_nat (Z.log2 (Z.abs v)))). split; [done|]. split; [|done].
  pose proof (Z.log2_nonneg (Z.abs v)).
  rewrite Nat2Z.inj_succ, Z2Nat.id by lia.
  destruct (Z.eq_dec v 0) as [->|Hne]; [simpl; lia|].
  pose proof (Z.log2_spec (Z.abs v) ltac:(lia)). lia.
Qed.

Lemma encode_leb128_loop_writes fuel signed v :
  leb_adequate fuel signed v ->
  writes (encode_leb128_loop fuel signed v) (leb_bytes fuel signed v).
Proof.
  revert v. induction fuel as [|fuel IH]; intros v Had.
  - by destruct Had as (n & ? & _).
  - cbn [encode_leb128_loop leb_bytes]. rewrite leb_cont_stop, land_127, shiftr_7.
    pose proof (Z.mod_pos_bound v 128 ltac:(lia)).
    destruct (leb_stop signed v) eqn:Hstop.
    + apply write_byte_writes. lia.
    + rewrite lor_128_small by lia. apply (writes_bind _ [_]).
      * apply write_byte_writes. lia.
      * apply IH. by apply leb_adequate_step.
Qed.

Lemma encode_leb128_writes signed v :
  signed = true \/ 0 <= v -> writes (encode_leb128 signed v) (leb128 signed v).
Proof.
  intros Hs. unfold encode_leb128.
  replace (negb signed && (v <? 0)) with false; [|destruct signed; [done|simpl; lia]].
  apply encode_leb128_loop_writes. by apply leb_fuel_adequate.
Qed.

Lemma encode_leb128_fails v : v < 0 -> fails (encode_leb128 false v).
Proof.
  intros Hv. unfold encode_leb128. rewrite (proj2 (Z.ltb_lt v 0) Hv). apply fails_raise.
Qed.

(** * Decoding what was encoded *)

Lemma lor_neg_shiftl r s : 0 <= s -> 0 <= r < 2 ^ s -> Z.lor r (- Z.shiftl 1 s) = r - 2 ^ s.
Proof.
  intros. rewrite Z.shiftl_1_l. replace (- 2 ^ s) with (Z.shiftl (-1) s)
    by (rewrite Z.shiftl_mul_pow2 by lia; lia).
  rewrite lor_shiftl_add by lia. lia.
Qed.

(** the effect of one payload byte on the accumulator *)
Lemma leb_acc r s x :
  0 <= s -> 0 <= r < 2 ^ s -> 0 <= x < 128 ->
  Z.lor r (Z.shiftl x s) = r + x * 2 ^ s /\ 0 <= r + x * 2 ^ s < 2 ^ (s + 7).
Proof.
  intros. rewrite lor_shiftl_add, Z.pow_add_r by lia. change (2 ^ 7) with 128.
  split; [done|]. nia.
Qed.

(** the payload and the flag of the bytes the encoder writes *)
Lemma leb_byte_last x : 0 <= x < 128 -> Z.land x 127 = x /\ (Z.land x 128 =? 0) = true.
Proof.
  intros. rewrite land_127, land_128_zero, Z.mod_small, (Z.div_small x) by lia. done.
Qed.

Lemma leb_byte_more x :
  0 <= x < 128 -> Z.land (x + 128) 127 = x /\ (Z.land (x + 128) 128 =? 0) = false.
Proof.
  intros. rewrite land_127, land_128_zero. split.
  - symmetry. apply (Z.mod_unique _ _ 1); lia.
  - replace ((x + 128) / 128) with 1 by (apply (Z.div_unique _ _ _ x); lia). done.
Qed.

Lemma py_assert_true {S} b (k : M S Z) s :
  b = true -> bind (py_assert b) (fun _ => k) s = k s.
Proof. by intros ->. Qed.

(** the sign test of the last byte, for the values that stop the encoder *)
Lemma leb_last_value signed v :
  leb_stop signed v = true ->
  (if signed && negb (Z.land (v mod 128) 64 =? 0) then v mod 128 - 128 else v mod 128) = v.
Proof.
  unfold leb_stop. rewrite land_64_zero. intros H.
  destruct signed; simpl.
  - apply andb_true_iff in H as [H1 H2].
    destruct (Z.ltb_spec v 0) as [Hn|Hp].
    + replace (v mod 128) with (v + 128) by (apply (Z.mod_unique _ _ (-1)); lia).
      replace ((v + 128) / 64) with 1 by (apply (Z.div_unique _ _ _ (v + 64)); lia).
      simpl. lia.
    + rewrite (Z.mod_small v 128), (Z.div_small v 64) by lia. done.
  - apply Z.mod_small. lia.
Qed.

Lemma decode_leb128_loop_reads fuel signed v n r s :
  leb_adequate fuel signed v -> (length (leb_bytes fuel signed v) <= n)%nat ->
  0 <= s -> s mod 7 = 0 -> 0 <= r < 2 ^ s ->
  reads (decode_leb128_loop n signed r s) (leb_bytes fuel signed v) (r + v * 2 ^ s).
Proof.
  revert v n r s. induction fuel as [|fuel IH]; intros v n r s Had Hlen Hs Hmod Hr.
  { by destruct Had as (? & ? & _). }
  cbn [leb_bytes] in *. pose proof (Z.mod_pos_bound v 128 ltac:(lia)) as Hx.
  assert (Hmod' : ((s + 7) mod 7 =? 0) = true).
  { rewrite <- (Z.mul_1_l 7) at 1. rewrite Z.mod_add by lia. lia. }
  destruct (leb_acc r s (v mod 128) Hs Hr Hx) as [Hacc Hacc'].
  destruct n as [|n]; [destruct (leb_stop signed v); simpl in Hlen; lia|].
  cbn [decode_leb128_loop]. destruct (leb_stop signed v) eqn:Hstop.
  - destruct (leb_byte_last _ Hx) as [Hp Hf].
    eapply reads_bind_ret; [apply read_byte_reads|]. cbv beta zeta.
    rewrite b2z_z2b_small, Hp, Hf, Hacc, Hmod' by lia.
    pose proof (leb_last_value signed v Hstop) as Hv.
    unfold py_assert, bind, ret. cbv iota.
    destruct (signed && negb (Z.land (v mod 128) 64 =? 0)).
    + rewrite lor_neg_shiftl by lia. rewrite Z.pow_add_r by lia. change (2 ^ 7) with 128.
      replace (r + v mod 128 * 2 ^ s - 2 ^ s * 128) with (r + v * 2 ^ s); [done|].
      rewrite <- Hv at 1. lia.
    + by rewrite Hv.
  - destruct (leb_byte_more _ Hx) as [Hp Hf].
    eapply (reads_bind _ _ [_]); [apply read_byte_reads|]. cbv beta zeta.
    rewrite b2z_z2b_small, Hp, Hf, Hacc, Hmod' by lia.
    unfold py_assert, bind at 1, ret at 1. cbv iota. simpl in Hlen.
    replace (r + v * 2 ^ s) with ((r + v mod 128 * 2 ^ s) + v / 128 * 2 ^ (s + 7)).
    + apply IH; try lia. by apply leb_adequate_step.
    + rewrite Z.pow_add_r by lia. change (2 ^ 7) with 128.
      rewrite (Z.div_mod v 128) at 3 by lia. lia.
Qed.

Lemma decode_leb128_reads signed v :
  signed = true \/ 0 <= v -> reads (decode_leb128 signed) (leb128 signed v) v.
Proof.
  intros Hs d rest Hr Hf. unfold decode_leb128.
  pose proof (decode_leb128_loop_reads (leb_fuel v) signed v (des_fuel d) 0 0) as H.
  rewrite Z.pow_0_r, Z.mul_1_r, Z.add_0_l in H.
  apply H; try done; [by apply leb_fuel_adequate|].
  unfold des_fuel. rewrite Hr. cbn [default from_option id].
  rewrite length_app. fold (leb128 signed v). lia.
Qed.

(** * Range of the decoded value and length of the encoding *)

(** the integers [k] bytes can carry *)
Definition leb_range (signed : bool) (k : Z) (v : Z) : Prop :=
  if signed then - 2 ^ (7 * k - 1) <= v < 2 ^ (7 * k - 1) else 0 <= v < 2 ^ (7 * k).

Lemma pow_7S k : 1 <= k -> 2 ^ (7 * (k + 1)) = 128 * 2 ^ (7 * k) /\
  2 ^ (7 * (k + 1) - 1) = 128 * 2 ^ (7 * k - 1).
Proof.
  intros. replace (7 * (k + 1)) with (7 + 7 * k) by lia.
  replace (7 + 7 * k - 1) with (7 + (7 * k - 1)) by lia.
  rewrite !Z.pow_add_r by lia. done.
Qed.

Lemma leb_range_1 signed v : leb_range signed 1 v <-> leb_stop signed v = true.
Proof.
  unfold leb_range, leb_stop. change (2 ^ (7 * 1 - 1)) with 64. change (2 ^ (7 * 1)) with 128.
  destruct signed; lia.
Qed.

Lemma leb_range_step signed k v :
  1 <= k -> leb_range signed (k + 1) v <-> leb_range signed k (v / 128).
Proof.
  intros Hk. destruct (pow_7S k Hk) as [E1 E2]. unfold leb_range. rewrite E1, E2.
  pose proof (Z.div_mod v 128 ltac:(lia)). pose proof (Z.mod_pos_bound v 128 ltac:(lia)).
  destruct signed; lia.
Qed.

Lemma leb_range_mono signed k k' v :
  1 <= k <= k' -> leb_range signed k v -> leb_range signed k' v.
Proof.
  intros Hk. unfold leb_range.
  pose proof (Z.pow_le_mono_r 2 (7 * k - 1) (7 * k' - 1) ltac:(lia) ltac:(lia)).
  pose proof (Z.pow_le_mono_r 2 (7 * k) (7 * k') ltac:(lia) ltac:(lia)).
  destruct signed; lia.
Qed.

Lemma leb_bytes_length fuel signed v k :
  leb_adequate fuel signed v -> 1 <= k ->
  blen (leb_bytes fuel signed v) <= k <-> leb_range signed k v.
Proof.
  revert v k. induction fuel as [|fuel IH]; intros v k Had Hk.
  { by destruct Had as (? & ? & _). }
  cbn [leb_bytes]. destruct (leb_stop signed v) eqn:Hstop.
  - rewrite blen_cons, blen_nil. split; [intros _|lia].
    apply (leb_range_mono _ 1); [lia|]. by apply leb_range_1.
  - pose proof (leb_adequate_step _ _ _ Had Hstop) as Had'. rewrite blen_cons.
    destruct (Z.eq_dec k 1) as [->|Hne].
    + rewrite leb_range_1, Hstop. split; [|done]. destruct Had' as (n & -> & _).
      cbn [leb_bytes]. destruct (leb_stop signed (v / 128)); blia.
    + replace k with (k - 1 + 1) by lia. rewrite leb_range_step by lia.
      rewrite <- (IH (v / 128) (k - 1)) by (done || lia). lia.
Qed.

(** [n] bytes are enough for [v] exactly when [v] has at most [7 n] bits *)
Lemma leb128_length signed v k :
  signed = true \/ 0 <= v -> 1 <= k -> blen (leb128 signed v) <= k <-> leb_range signed k v.
Proof. intros. apply leb_bytes_length; [by apply leb_fuel_adequate|done]. Qed.

(** a successful read consumed [k] bytes and produced an integer [k] bytes can carry *)
Lemma decode_leb128_loop_ok n signed j r d v d' :
  0 <= j -> 0 <= r < 2 ^ (7 * j) ->
  decode_leb128_loop n signed r (7 * j) d = (Ok v, d') ->
  exists k, 1 <= k /\ des_budgets d' = spend k (des_budgets d) /\
            fits 0 (des_budgets d') /\ leb_range signed (j + k) v.
Proof.
  revert j r d. induction n as [|n IH]; intros j r d Hj Hr H; [done|].
  cbn [decode_leb128_loop] in H. inv_ok H.
  destruct (read_byte_ok _ _ _ Hm) as (b & -> & _ & _ & Hb & Hf).
  inv_ok H. assert (s0 = s) as ->.
  { unfold py_assert in Hm0. destruct (_ =? 0); unfold ret, raise in Hm0; congruence. }
  rewrite land_127 in H. pose proof (Z.mod_pos_bound (b2z b) 128 ltac:(lia)) as Hx.
  destruct (leb_acc r (7 * j) _ ltac:(lia) Hr Hx) as [Hacc Hacc']. rewrite Hacc in H.
  replace (7 * j + 7) with (7 * (j + 1)) in * by lia.
  destruct (Z.land (b2z b) 128 =? 0).
  - exists 1. split; [lia|]. assert (Hend : s = d' /\ leb_range signed (j + 1) v); [|].
    { pose proof (Z.pow_add_r 2 6 (7 * j) ltac:(lia) ltac:(lia)) as E6.
      pose proof (Z.pow_add_r 2 7 (7 * j) ltac:(lia) ltac:(lia)) as E7.
      change (2 ^ 6) with 64 in E6. change (2 ^ 7) with 128 in E7.
      rewrite land_64_zero in H. unfold leb_range.
      replace (7 * (j + 1) - 1) with (6 + 7 * j) by lia.
      replace (7 * (j + 1)) with (7 + 7 * j) in * by lia.
      assert (Hbit : ((b2z b / 64) mod 2 =? 0) = (b2z b mod 128 <? 64)).
      { pose proof (b2z_range b). pose proof (Z.div_mod (b2z b) 64 ltac:(lia)).
        pose proof (Z.mod_pos_bound (b2z b) 64 ltac:(lia)).
        pose proof (Z.div_mod (b2z b / 64) 2 ltac:(lia)).
        pose proof (Z.mod_pos_bound (b2z b / 64) 2 ltac:(lia)).
        pose proof (Z.div_mod (b2z b) 128 ltac:(lia)). lia. }
      rewrite Hbit in H. unfold ret in H. destruct signed; cbn [andb] in H.
      - destruct (Z.ltb_spec (b2z b mod 128) 64); cbn [negb] in H.
        + injection H as <- <-. split; [done|]. nia.
        + rewrite lor_neg_shiftl in H by lia. injection H as <- <-. split; [done|]. nia.
      - injection H as <- <-. split; [done|]. lia. }
    destruct Hend as [<- ?]. done.
  - apply IH in H; [|lia|done]. destruct H as (k & ? & Hb' & ? & Hrange).
    exists (1 + k). replace (j + (1 + k)) with (j + 1 + k) by lia.
    split_and!; [lia|by rewrite Hb', Hb, spend_spend|done|done].
Qed.

Lemma decode_leb128_ok signed d v d' :
  decode_leb128 signed d = (Ok v, d') ->
  exists k, 1 <= k /\ des_budgets d' = spend k (des_budgets d) /\
            fits 0 (des_budgets d') /\ leb_range signed k v.
Proof.
  intros H. unfold decode_leb128 in H.
  apply (decode_leb128_loop_ok _ _ 0 0) in H; [|lia|simpl; lia].
  destruct H as (k & ? & ? & ? & ?). by exists k.
Qed.

#[export] Hint Resolve encode_leb128_writes : ser.
#[export] Hint Resolve decode_leb128_reads : des.

(** * The wrappers *)

Definition max_bytes_allow (signed : bool) (max_bytes : option Z) (v : Z) : Prop :=
  match max_bytes with None => True | Some n => leb_range signed n v end.

Definition max_bytes_ok (max_bytes : option Z) : Prop :=
  match max_bytes with None => True | Some n => 1 <= n end.

(** what the wrappers write: the encoding, when it is within the limit *)
Lemma encode_with_ok signed v max_bytes :
  signed = true \/ 0 <= v -> max_bytes_ok max_bytes ->
  max_bytes_allow signed max_bytes v ->
  Leb128Utils.encode_with signed v max_bytes = Ok (leb128 signed v).
Proof.
  intros Hs Hmb Hall. unfold Leb128Utils.encode_with.
  edestruct (writes_run (try_raise (try_raise
    (ser_with_optional_max_bytes max_bytes (encode_leb128 signed v))
    MaxBytesExceededError ValueError) SerializationError ValueError)) as (s' & -> & Hf).
  { apply try_raise_writes, try_raise_writes, ser_with_optional_max_bytes_writes;
      [auto with ser..| |by apply encode_leb128_writes].
    intros k ->. simpl in *. split; [lia|]. by apply leb128_length. }
  done.
Qed.


(** a negative value given as unsigned, or a value over the limit *)
Lemma encode_with_err signed v max_bytes :
  max_bytes_ok max_bytes ->
  ~ (signed = true \/ 0 <= v) \/ ~ max_bytes_allow signed max_bytes v ->
  Leb128Utils.encode_with signed v max_bytes = Err ValueError.
Proof.
  intros Hmb Hno. unfold Leb128Utils.encode_with, try_raise.
  assert (H : exists e s', ser_with_optional_max_bytes max_bytes (encode_leb128 signed v)
            build_bytes_serializer = (Err e, s') /\ overrun e).
  { destruct (decide (signed = true \/ 0 <= v)) as [Hs|Hs].
    - destruct Hno as [|Hno]; [done|]. destruct max_bytes as [n|]; simpl in *; [|done].
      apply (ser_with_max_bytes_overrun n _ (leb128 signed v)); auto with ser lia.
      destruct (Z.lt_ge_cases n (blen (leb128 signed v))) as [|Hge]; [done|].
      exfalso. by apply Hno, leb128_length.
    - assert (signed = false) as -> by (destruct signed; tauto).
      unfold encode_leb128. rewrite (proj2 (Z.ltb_lt v 0)) by lia.
      destruct max_bytes; do 2 eexists; (split; [reflexivity|by right]). }
  destruct H as (e & s' & -> & [-> | ->]); done.
Qed.

(** the round trip, by the range of what was encoded *)
Lemma leb128_utils_back signed v max_bytes bs rest :
  max_bytes_ok max_bytes ->
  Leb128Utils.encode_with signed v max_bytes = Ok bs ->
  Leb128Utils.decode_with signed (bs ++ rest) max_bytes = Ok (v, rest).
Proof.
  intros Hmb Henc.
  destruct (decide (signed = true \/ 0 <= v)) as [Hs|Hs];
    [|rewrite encode_with_err in Henc by auto; done].
  assert (Hall : max_bytes_allow signed max_bytes v).
  { destruct max_bytes as [n|]; [|done]. simpl in *.
    destruct (decide (blen (leb128 signed v) <= n)) as [Hle|Hle];
      [by apply leb128_length|].
    rewrite encode_with_err in Henc; [done|done|].
    right. simpl. intros Hr. by apply Hle, leb128_length. }
  rewrite encode_with_ok in Henc by done. injection Henc as <-.
  unfold Leb128Utils.decode_with.
  erewrite bind_ok; [|apply reads_run; apply try_raise_reads, try_raise_reads,
    des_with_optional_max_bytes_reads; [|by apply decode_leb128_reads]].
  - reflexivity.
  - intros k ->. by apply leb128_length.
Qed.

(** A value the wrappers of [hathor/utils/leb128.py] encoded, followed by
    any other data, is decoded to the same value and the data after it. *)
Theorem leb128_utils_roundtrip signed v max_bytes bs rest :
  max_bytes_ok max_bytes ->
  Leb128Utils.encode_with signed v max_bytes = Ok bs ->
  Leb128Utils.decode_with signed (bs ++ rest) max_bytes = Ok (v, rest).
Proof. apply leb128_utils_back. Qed.

Lemma leb128_utils_roundtrip_witness :
  Leb128Utils.decode_with true ([z2b 192; z2b 187; z2b 120] ++ [z2b 116]) (Some 3)
  = Ok (-123456, [z2b 116]).
Proof. apply leb128_utils_roundtrip; [simpl; lia|vm_compute; reflexivity]. Defined.

(** * Termination on arbitrary input *)

Lemma read_byte_errors d e d' : read_byte d = (Err e, d') -> e <> OutOfFuel.
Proof.
  revert d'. induction d as [o|inner IH n]; intros d'; simpl.
  - unfold on_bytes, BytesDeserializer.bd_read_byte. by destruct o as [[|b v]|]; intros [= <- <-].
  - unfold MaxBytesDeserializer.md_read, MaxBytesDeserializer.md_check_update_exceeds.
    destruct (n - 1 <? 0); [by intros [= <- <-]|].
    destruct (read_byte inner) as [r inner']. intros [= -> <-]. by eapply IH.
Qed.

Lemma decode_leb128_loop_fuel fuel signed r s d :
  (length (default [] (remaining d)) < fuel)%nat ->
  fst (decode_leb128_loop fuel signed r s d) <> Err OutOfFuel.
Proof.
  revert r s d. induction fuel as [|fuel IH]; intros r s d Hf; [lia|]. simpl.
  unfold bind at 1. destruct (read_byte d) as [[z|e] d'] eqn:E.
  - apply read_byte_ok in E as (b & -> & Hr & [w Hw] & _). rewrite Hr, Hw in Hf. simpl in Hf.
    unfold bind, py_assert. destruct (_ mod 7 =? 0); [|by apply not_eq_sym].
    simpl. destruct (Z.land (b2z b) 128 =? 0); [by destruct (signed && _)|].
    apply IH. rewrite Hw. simpl. lia.
  - apply read_byte_errors in E. simpl. congruence.
Qed.

(** On any input, however malformed or truncated, the LEB128 decoder's loop
    terminates within the bytes left: it returns a value or one of Python's
    exceptions, and the bound on its iterations is never what stops it. *)
Theorem decode_leb128_terminates signed d :
  fst (decode_leb128 signed d) <> Err OutOfFuel.
Proof. apply decode_leb128_loop_fuel. unfold des_fuel. lia. Qed.
