(* ===== verification/Encoding.v ===== *)
(** The simple encodings of [hathor/serialization/encoding]: booleans,
    fixed-size integers, length-prefixed bytes and UTF-8 strings, and the
    4-or-8-byte output values. *)

From stdpp Require Import base list.
From Stdlib Require Import ZArith Lia.
From S2P Require Import Prelude PyInt Serializer Deserializer Leb128.

Local Open Scope Z_scope.
Local Open Scope py_scope.

(** * The code *)

Definition encode_bool (value : bool) : SM unit :=
  write_byte (if value then 1 else 0).

Definition decode_bool : DM bool :=
  let! i := read_byte in
  if i =? 0 then ret false
  else if i =? 1 then ret true
  else raise ValueError.

Definition encode_int (number : Z) (length : nat) (signed : bool) : SM unit :=
  let! data := try_raise (lift (int_to_bytes number length signed)) OverflowError ValueError in
  write_bytes data.

Definition decode_int (length : nat) (signed : bool) : DM Z :=
  let! data := read_bytes (Z.of_nat length) true in
  ret (int_from_bytes data signed).

Definition encode_bytes (data : bytes) : SM unit :=
  encode_leb128 false (blen data) ;;;
  write_bytes data.

Definition decode_bytes : DM bytes :=
  let! size := decode_leb128 false in
  read_bytes size true.

Definition encode_utf8 (value : pystr) : SM unit :=
  let! data := lift (utf8_encode value) in
  encode_bytes data.

Definition decode_utf8 : DM pystr :=
  let! data := decode_bytes in
  lift (utf8_decode data).

Definition MAX_OUTPUT_VALUE_32 : Z := 2 ^ 31 - 1.
Definition MAX_OUTPUT_VALUE_64 : Z := 2 ^ 63.

Definition encode_output_value (number : Z) (strict : bool) : SM unit :=
  if number <? 0 then raise ValueError
  else if strict && (number =? 0) then raise ValueError
  else if number >? MAX_OUTPUT_VALUE_64 then raise ValueError
  else if number >? MAX_OUTPUT_VALUE_32 then
    let! data := lift (int_to_bytes (- number) 8 true) in write_bytes data
  else
    let! data := lift (int_to_bytes number 4 true) in write_bytes data.

Definition decode_output_value (strict : bool) : DM Z :=
  let! value_high_byte := (fun d => (peek_struct Fmt_b d, d)) in
  let! value := try_raise
    (if value_high_byte <? 0 then
      let! raw_value := read_struct Fmt_q in ret (- raw_value)
    else read_struct Fmt_i) StructError BadDataError in
  py_assert (0 <=? value) ;;;
  (if strict && (value =? 0) then raise ValueError
   else if (value <? MAX_OUTPUT_VALUE_32) && (value_high_byte <? 0) then raise ValueError
   else ret value).

(** * What they write and read *)

Definition bool_byte (b : bool) : byte := z2b (if b then 1 else 0).

Lemma encode_bool_writes b : writes (encode_bool b) [bool_byte b].
Proof. apply write_byte_writes. destruct b; lia. Qed.

Lemma decode_bool_reads b : reads decode_bool [bool_byte b] b.
Proof.
  eapply reads_bind_ret; [apply read_byte_reads|].
  unfold bool_byte. rewrite b2z_z2b_small by (destruct b; lia). by destruct b.
Qed.

Lemma lift_writes {A} (r : result A) a (k : A -> SM unit) bs :
  r = Ok a -> writes (k a) bs -> writes (bind (lift r) k) bs.
Proof. intros -> H. exact H. Qed.

Lemma lift_fails {A} (r : result A) e (k : A -> SM unit) :
  r = Err e -> fails (bind (lift r) k).
Proof. intros -> s _. unfold bind, lift. eauto. Qed.

Lemma encode_int_writes n len signed :
  int_fits n len signed -> writes (encode_int n len signed) (be_bytes len n).
Proof.
  intros Hf. unfold encode_int.
  destruct (int_to_bytes_spec n len signed) as [[_ ->]|[? _]]; [|done].
  apply write_bytes_writes.
Qed.

Lemma encode_int_err n len signed s :
  ~ int_fits n len signed -> encode_int n len signed s = (Err ValueError, s).
Proof.
  intros Hf. unfold encode_int, bind, try_raise, lift.
  destruct (int_to_bytes_spec n len signed) as [[? _]|[_ ->]]; [done|].
  reflexivity.
Qed.

Lemma decode_int_reads n len signed :
  (0 < len)%nat -> int_fits n len signed -> reads (decode_int len signed) (be_bytes len n) n.
Proof.
  intros Hl Hf. eapply reads_bind_ret.
  - rewrite <- (blen_be_bytes len n). apply read_bytes_reads.
  - by rewrite int_from_to_bytes.
Qed.

(** the encoding of a byte string *)
Definition lp_bytes (data : bytes) : bytes := leb128 false (blen data) ++ data.

Lemma encode_bytes_writes data : writes (encode_bytes data) (lp_bytes data).
Proof.
  apply writes_bind; [|apply write_bytes_writes].
  apply encode_leb128_writes. right. apply blen_nonneg.
Qed.

Lemma decode_bytes_reads data : reads decode_bytes (lp_bytes data) data.
Proof.
  eapply reads_bind; [|apply read_bytes_reads].
  apply decode_leb128_reads. right. apply blen_nonneg.
Qed.

Lemma decode_utf8_reads value data :
  utf8_encode value = Ok data -> reads decode_utf8 (lp_bytes data) value.
Proof.
  intros H. eapply reads_bind_ret; [apply decode_bytes_reads|].
  unfold lift, ret. by rewrite (utf8_decode_encode _ _ H).
Qed.

#[export] Hint Resolve encode_bool_writes encode_int_writes encode_bytes_writes : ser.
#[export] Hint Resolve decode_bool_reads decode_int_reads decode_bytes_reads : des.

(** * Output values *)

(** the values the encoder accepts *)
Definition valid_output_value (strict : bool) (n : Z) : Prop :=
  (if strict then 1 else 0) <= n <= MAX_OUTPUT_VALUE_64.

Definition output_bytes (n : Z) : bytes :=
  if n >? MAX_OUTPUT_VALUE_32 then be_bytes 8 (- n) else be_bytes 4 n.

(** the guards of the encoder, on the values it accepts *)
Lemma output_value_guards strict n : valid_output_value strict n ->
  0 <= n <= 2 ^ 63 /\ (n <? 0) = false /\ strict && (n =? 0) = false /\
  (n >? MAX_OUTPUT_VALUE_64) = false.
Proof.
  unfold valid_output_value, MAX_OUTPUT_VALUE_64. intros H.
  rewrite Z.gtb_ltb. destruct strict; simpl; split_and!; lia.
Qed.

Lemma encode_output_value_writes strict n :
  valid_output_value strict n -> writes (encode_output_value n strict) (output_bytes n).
Proof.
  intros H. destruct (output_value_guards _ _ H) as (? & G1 & G2 & G3).
  unfold encode_output_value, output_bytes. rewrite G1, G2, G3.
  unfold MAX_OUTPUT_VALUE_32. destruct (Z.gtb_spec n (2 ^ 31 - 1)) as [Hgt|Hle].
  - eapply lift_writes; [|apply write_bytes_writes].
    destruct (int_to_bytes_spec (- n) 8 true) as [[_ E]|[Hn _]]; [done|].
    exfalso. apply Hn. unfold int_fits. simpl. lia.
  - eapply lift_writes; [|apply write_bytes_writes].
    destruct (int_to_bytes_spec n 4 true) as [[_ E]|[Hn _]]; [done|].
    exfalso. apply Hn. unfold int_fits. simpl. lia.
Qed.

Lemma encode_output_value_err strict n s :
  ~ valid_output_value strict n -> encode_output_value n strict s = (Err ValueError, s).
Proof.
  unfold valid_output_value, encode_output_value, MAX_OUTPUT_VALUE_64. intros H.
  destruct (Z.ltb_spec n 0); [done|].
  destruct (strict && (n =? 0)) eqn:E; [done|].
  destruct (Z.gtb_spec n (2 ^ 63)); [done|].
  exfalso. apply H. destruct strict; simpl in *; lia.
Qed.

(** reading the first byte as a signed integer gives the sign of the whole *)
Lemma int_from_bytes_sign b bs :
  (int_from_bytes (b :: bs) true <? 0) = (int_from_bytes [b] true <? 0).
Proof.
  pose proof (be_val_range bs) as Hr. pose proof (b2z_range b) as Hb.
  assert (Hv : be_val (b :: bs) = b2z b * 2 ^ (8 * blen bs) + be_val bs).
  { induction bs as [|c bs IH] using rev_ind; [unfold be_val, blen; simpl; lia|].
    rewrite app_comm_cons, !be_val_snoc, IH by apply be_val_range.
    unfold blen. rewrite length_app. simpl length. rewrite Nat.add_1_r, pow_8S. lia. }
  unfold int_from_bytes. rewrite Hv, blen_cons. cbn [andb].
  change (be_val [b]) with (b2z b). change (blen [b]) with 1.
  change (2 ^ (8 * 1 - 1)) with 128. change (2 ^ (8 * 1)) with 256.
  pose proof (blen_nonneg bs). pose proof (Z.pow_pos_nonneg 2 (8 * blen bs) ltac:(lia) ltac:(lia)).
  replace (8 * (1 + blen bs)) with (8 + 8 * blen bs) by lia.
  replace (8 + 8 * blen bs - 1) with (7 + 8 * blen bs) by lia.
  rewrite !Z.pow_add_r by lia. change (2 ^ 8) with 256. change (2 ^ 7) with 128.
  set (p := 2 ^ (8 * blen bs)) in *.
  destruct (Z.leb_spec 128 (b2z b)), (Z.leb_spec (128 * p) (b2z b * p + be_val bs));
    symmetry; try (apply Z.ltb_lt); try (apply Z.ltb_ge); nia.
Qed.

Lemma peek_bytes_prefix d bs rest : remaining d = Some (bs ++ rest) ->
  peek_bytes (blen bs) true d = Ok bs.
Proof.
  induction d as [o|inner IH n]; simpl; [|done]. intros ->.
  unfold BytesDeserializer.bd_peek_bytes.
  rewrite (proj2 (Z.ltb_ge (blen bs) 0)) by blia. cbn [andb].
  rewrite (proj2 (Z.ltb_ge (blen (bs ++ rest)) (blen bs))) by blia.
  unfold blen. by rewrite Nat2Z.id, take_app_length.
Qed.

Lemma read_struct_reads f bs :
  length bs = calcsize f -> reads (read_struct f) bs (int_from_bytes bs true).
Proof.
  intros Hl. eapply reads_bind_ret.
  - rewrite <- Hl. apply (read_bytes_reads bs).
  - unfold struct_unpack. by rewrite Hl, Nat.eqb_refl.
Qed.

Lemma peek_struct_b d b bs :
  remaining d = Some (b :: bs) -> peek_struct Fmt_b d = Ok (int_from_bytes [b] true).
Proof.
  intros Hr. unfold peek_struct. change (Z.of_nat (calcsize Fmt_b)) with (blen [b]).
  by rewrite (peek_bytes_prefix d [b] bs).
Qed.

(** both sizes of the decoder: the sign of the first byte selects the format *)
Lemma decode_output_value_reads strict f bs v :
  length bs = calcsize f -> f <> Fmt_b ->
  v = (if decide (f = Fmt_q) then - int_from_bytes bs true else int_from_bytes bs true) ->
  (int_from_bytes bs true <? 0) = bool_decide (f = Fmt_q) ->
  0 <= v -> strict && (v =? 0) = false -> (f = Fmt_q -> MAX_OUTPUT_VALUE_32 <= v) ->
  reads (decode_output_value strict) bs v.
Proof.
  intros Hl Hf Hv Hsign Hpos Hstrict Hcanon d rest Hr Hfit. unfold decode_output_value.
  destruct bs as [|b bs]; [by destruct f|].
  erewrite bind_ok; [|by rewrite (peek_struct_b d b (bs ++ rest))]. cbv beta.
  rewrite <- (int_from_bytes_sign b bs), Hsign.
  edestruct (try_raise_reads
    (if bool_decide (f = Fmt_q) then let! raw_value := read_struct Fmt_q in ret (- raw_value)
     else read_struct Fmt_i) StructError BadDataError (b :: bs) v) as (d' & E & ?);
    [|exact Hr|exact Hfit|].
  { destruct f; [done| |]; simpl in Hv; subst v.
    - by apply read_struct_reads.
    - eapply reads_bind_ret; [by apply read_struct_reads|done]. }
  exists d'. split; [|done]. erewrite bind_ok; [|exact E]. cbv beta.
  rewrite (proj2 (Z.leb_le 0 v) Hpos), Hstrict. destruct f; [done|by rewrite andb_false_r|].
  by rewrite (proj2 (Z.ltb_ge v MAX_OUTPUT_VALUE_32)) by auto.
Qed.

Lemma decode_output_bytes strict n : valid_output_value strict n ->
  reads (decode_output_value strict) (output_bytes n) n.
Proof.
  intros H. destruct (output_value_guards _ _ H) as (Hn & _ & G2 & _).
  unfold output_bytes. destruct (Z.gtb_spec n MAX_OUTPUT_VALUE_32) as [Hgt|Hle];
    unfold MAX_OUTPUT_VALUE_32 in *.
  - assert (E : int_from_bytes (be_bytes 8 (- n)) true = - n)
      by (apply int_from_to_bytes; [lia|unfold int_fits; simpl; lia]).
    eapply (decode_output_value_reads _ Fmt_q); rewrite ?E; simpl; unfold MAX_OUTPUT_VALUE_32; lia || done.
  - assert (E : int_from_bytes (be_bytes 4 n) true = n)
      by (apply int_from_to_bytes; [lia|unfold int_fits; simpl; lia]).
    eapply (decode_output_value_reads _ Fmt_i); rewrite ?E; simpl; lia || done.
Qed.

(** An output value survives the round trip through its 4 or 8 bytes, with
    the rest of the buffer untouched, for every value the encoder accepts. *)
Theorem output_value_roundtrip strict n :
  valid_output_value strict n ->
  writes (encode_output_value n strict) (output_bytes n) /\
  reads (decode_output_value strict) (output_bytes n) n.
Proof. intros H. split; [by apply encode_output_value_writes|by apply decode_output_bytes]. Qed.

Lemma output_value_roundtrip_witness :
  valid_output_value true (2 ^ 31) /\
  reads (decode_output_value true)
    [Byte.xff; Byte.xff; Byte.xff; Byte.xff; Byte.x80; Byte.x00; Byte.x00; Byte.x00] (2 ^ 31).
Proof.
  assert (H : valid_output_value true (2 ^ 31)) by (split; vm_compute; discriminate).
  split; [exact H|]. exact (proj2 (output_value_roundtrip true (2 ^ 31) H)).
Defined.

(** a successful read of [n] bytes, seen from the bytes that were there *)
Lemma read_struct_ok f d v d' : read_struct f d = (Ok v, d') ->
  exists bs, remaining d = option_map (app bs) (remaining d') /\ is_Some (remaining d') /\
  length bs = calcsize f /\ v = int_from_bytes bs true.
Proof.
  intros H. unfold read_struct in H. inv_ok H.
  destruct (read_bytes_ok _ _ _ _ Hm) as (Hl & Hr & Hs).
  unfold lift, struct_unpack in H. case_if; [|done]. injection H as <- <-.
  exists a. split_and!; [done|done| |done]. by apply Nat.eqb_eq.
Qed.


(** the bytes behind each branch of the decoder *)
Lemma output_value_branch (neg : bool) d v d' :
  (if neg then let! raw_value := read_struct Fmt_q in ret (- raw_value)
   else read_struct Fmt_i) d = (Ok v, d') ->
  exists bs, remaining d = option_map (app bs) (remaining d') /\
  (if neg then bs = be_bytes 8 (- v) /\ v <= 2 ^ 63
   else bs = be_bytes 4 v /\ v < 2 ^ 31).
Proof.
  intros H. destruct neg.
  - inv_ok H. injection H as <- ->.
    destruct (read_struct_ok _ _ _ _ Hm) as (bs & Hr & _ & Hl & ->).
    exists bs. split; [done|]. rewrite Z.opp_involutive. simpl in Hl. split.
    + by rewrite <- Hl, be_bytes_from_bytes.
    + pose proof (int_from_bytes_fits bs true ltac:(by intros ->)) as Hfit.
      rewrite Hl in Hfit. unfold int_fits in Hfit. simpl in *. lia.
  - destruct (read_struct_ok _ _ _ _ H) as (bs & Hr & _ & Hl & ->).
    exists bs. split; [done|]. simpl in Hl. split.
    + by rewrite <- Hl, be_bytes_from_bytes.
    + pose proof (int_from_bytes_fits bs true ltac:(by intros ->)) as Hfit.
      rewrite Hl in Hfit. unfold int_fits in Hfit. simpl in *. lia.
Qed.

Lemma py_assert_ok {S} b (s s' : S) a : py_assert b s = (Ok a, s') -> b = true /\ s' = s.
Proof. unfold py_assert, ret, raise. destruct b; [|done]. by intros [= _ <-]. Qed.

(** The decoder accepts exactly the encoder's bytes, with one exception: the
    value [2 ** 31 - 1], which fits in 4 bytes, is also accepted in 8 bytes,
    because the size check compares with [<] and not with [<=]. *)
Theorem output_value_canonical strict d v d' :
  decode_output_value strict d = (Ok v, d') ->
  valid_output_value strict v /\
  exists bs, remaining d = option_map (app bs) (remaining d') /\
  (bs = output_bytes v \/ (v = MAX_OUTPUT_VALUE_32 /\ bs = be_bytes 8 (- v))).
Proof.
  intros H. unfold decode_output_value in H. inv_ok H. injection Hm as _ <-.
  inv_ok H. apply try_raise_ok in Hm. inv_ok H. apply py_assert_ok in Hm0 as [Hpos ->].
  destruct (strict && (a0 =? 0)) eqn:Hstrict; [done|].
  destruct ((a0 <? MAX_OUTPUT_VALUE_32) && (a <? 0)) eqn:Hcanon; [done|].
  injection H as <- <-. apply output_value_branch in Hm as (bs & Hr & Hbs).
  unfold valid_output_value, output_bytes, MAX_OUTPUT_VALUE_32, MAX_OUTPUT_VALUE_64 in *.
  split; [|exists bs; split; [exact Hr|]];
    destruct (a <? 0), Hbs as [-> ?], (Z.gtb_spec a0 (2 ^ 31 - 1)); try (destruct strict; lia); auto.
  right. split; [lia|done].
Qed.

Lemma output_value_canonical_witness :
  (exists d', decode_output_value true (build_bytes_deserializer (be_bytes 8 (- (2 ^ 31 - 1))))
    = (Ok (2 ^ 31 - 1), d')) /\
  valid_output_value true (2 ^ 31 - 1).
Proof.
  split; [eexists; vm_compute; reflexivity|].
  eapply (output_value_canonical true (build_bytes_deserializer (be_bytes 8 (- (2 ^ 31 - 1))))).
  vm_compute. reflexivity.
Defined.
