(* ===== verification/Ecv.v ===== *)
(** ECV, the exponential-continuation varint of
    [hathor/serialization/encoding/ecv.py]: LEB128 with continuation bits only
    in the bytes at power-of-two positions. *)

From stdpp Require Import base list.
From Stdlib Require Import ZArith Lia.
From S2P Require Import Prelude PyInt Serializer Deserializer Leb128.

Local Open Scope Z_scope.
Local Open Scope py_scope.

(** * The code *)

Definition is_pow2 (x : Z) : bool := (0 <? x) && (Z.land x (x - 1) =? 0).

Fixpoint encode_ecv_loop (fuel : nat) (signed : bool) (pos value : Z) : SM unit :=
  match fuel with
  | O => raise OutOfFuel
  | S fuel' =>
      if is_pow2 pos then
        let byte := Z.land value 127 in
        let value := Z.shiftr value 7 in
        if leb_cont signed value byte then write_byte byte
        else write_byte (Z.lor byte 128) ;;; encode_ecv_loop fuel' signed (pos + 1) value
      else
        let byte := Z.land value 255 in
        let value := Z.shiftr value 8 in
        write_byte byte ;;; encode_ecv_loop fuel' signed (pos + 1) value
  end.

(** twice the bytes the payload needs reaches the next power of two *)
Definition ecv_fuel (value : Z) : nat := (2 * leb_fuel value)%nat.

Definition encode_ecv (signed : bool) (value : Z) : SM unit :=
  if negb signed && (value <? 0) then raise ValueError
  else encode_ecv_loop (ecv_fuel value) signed 1 value.

Fixpoint decode_ecv_loop (fuel : nat) (signed : bool) (result shift pos : Z) : DM Z :=
  match fuel with
  | O => raise OutOfFuel
  | S fuel' =>
      let! byte := read_byte in
      if is_pow2 pos then
        let result := Z.lor result (Z.shiftl (Z.land byte 127) shift) in
        let shift := shift + 7 in
        if Z.land byte 128 =? 0 then
          if signed && negb (Z.land byte 64 =? 0)
          then ret (Z.lor result (- Z.shiftl 1 shift))
          else ret result
        else decode_ecv_loop fuel' signed result shift (pos + 1)
      else
        let result := Z.lor result (Z.shiftl byte shift) in
        decode_ecv_loop fuel' signed result (shift + 8) (pos + 1)
  end.

Definition decode_ecv (signed : bool) : DM Z := fun d =>
  decode_ecv_loop (des_fuel d) signed 0 0 1 d.

(** * Powers of two *)

Lemma is_pow2_pow k : 0 <= k -> is_pow2 (2 ^ k) = true.
Proof.
  intros Hk. unfold is_pow2. pose proof (Z.pow_pos_nonneg 2 k ltac:(lia) Hk).
  rewrite (proj2 (Z.ltb_lt 0 (2 ^ k))), land_ones_mod, Z.mod_same by lia. done.
Qed.

Lemma is_pow2_inv x : is_pow2 x = true -> exists k, 0 <= k /\ x = 2 ^ k.
Proof.
  unfold is_pow2. intros [Hx Hl]%andb_true_iff.
  apply Z.ltb_lt in Hx. apply Z.eqb_eq in Hl.
  exists (Z.log2 x). pose proof (Z.log2_nonneg x). split; [done|].
  pose proof (Z.log2_spec x Hx) as [Hlo Hhi].
  destruct (Z.eq_dec x (2 ^ Z.log2 x)) as [|Hne]; [done|]. exfalso.
  assert (Hb : Z.testbit (Z.land x (x - 1)) (Z.log2 x) = true).
  { rewrite Z.land_spec, Z.bit_log2 by lia.
    replace (Z.log2 x) with (Z.log2 (x - 1)) at 1; [by rewrite Z.bit_log2 by lia|].
    apply Z.log2_unique; lia. }
  by rewrite Hl, Z.bits_0 in Hb.
Qed.

(** * The bytes of a value *)

Fixpoint ecv_bytes (fuel : nat) (signed : bool) (pos v : Z) : bytes :=
  match fuel with
  | O => []
  | S fuel' =>
      if is_pow2 pos then
        if leb_stop signed v then [z2b (v mod 128)]
        else z2b (v mod 128 + 128) :: ecv_bytes fuel' signed (pos + 1) (v / 128)
      else z2b (v mod 256) :: ecv_bytes fuel' signed (pos + 1) (v / 256)
  end.

Definition ecv (signed : bool) (v : Z) : bytes := ecv_bytes (ecv_fuel v) signed 1 v.

(** [fuel] iterations reach a power of two at which [v] has been written: [n]
    more positions exhaust [v], and the stopping position is before [pos + fuel] *)
Definition ecv_adequate (fuel : nat) (signed : bool) (pos v : Z) : Prop :=
  (signed = true \/ 0 <= v) /\ 1 <= pos /\
  exists n k, 0 <= n /\ - 2 ^ n <= v < 2 ^ n /\ 0 <= k /\
              pos + n <= 2 ^ k /\ 2 ^ k < pos + Z.of_nat fuel.

(** dividing by a byte's capacity consumes one unit of the bound *)
Lemma div_bound n v d :
  1 <= n -> 2 <= d -> - 2 ^ n <= v < 2 ^ n -> - 2 ^ (n - 1) <= v / d < 2 ^ (n - 1).
Proof.
  intros Hn Hd Hv. replace n with (Z.succ (n - 1)) in Hv by lia.
  rewrite Z.pow_succ_r in Hv by lia.
  pose proof (Z.pow_pos_nonneg 2 (n - 1) ltac:(lia) ltac:(lia)).
  pose proof (Z.div_mod v d ltac:(lia)). pose proof (Z.mod_pos_bound v d ltac:(lia)). nia.
Qed.

Lemma div_keep v d : 2 <= d -> -1 <= v < 1 -> -1 <= v / d < 1.
Proof.
  intros. pose proof (Z.div_mod v d ltac:(lia)). pose proof (Z.mod_pos_bound v d ltac:(lia)). nia.
Qed.

Lemma ecv_adequate_next fuel signed pos v d :
  2 <= d -> ecv_adequate (S fuel) signed pos v ->
  is_pow2 pos && leb_stop signed v = false ->
  ecv_adequate fuel signed (pos + 1) (v / d).
Proof.
  intros Hd (Hs & Hpos & n & k & Hn & Hv & Hk & Hle & Hlt) Hgo.
  split; [|split; [lia|]].
  { destruct Hs as [|Hs]; [by left|right]. apply Z.div_pos; lia. }
  destruct (Z.eq_dec n 0) as [->|Hne].
  - change (2 ^ 0) with 1 in Hv. exists 0, k. change (2 ^ 0) with 1.
    split_and!; try lia; [apply div_keep; lia..|].
    destruct (Z.eq_dec pos (2 ^ k)) as [->|]; [|lia]. exfalso.
    rewrite is_pow2_pow in Hgo by done. unfold leb_stop in Hgo. simpl in Hgo.
    destruct signed; [lia|]. destruct Hs as [|Hs]; [done|lia].
  - exists (n - 1), k. pose proof (div_bound n v d ltac:(lia) Hd Hv). split_and!; lia.
Qed.

Lemma ecv_fuel_adequate signed v :
  signed = true \/ 0 <= v -> ecv_adequate (ecv_fuel v) signed 1 v.
Proof.
  intros Hs. split; [done|]. split; [done|].
  destruct (leb_fuel_adequate signed v Hs) as (n & Hn & Hv & _).
  unfold ecv_fuel. rewrite Hn. exists (Z.of_nat n), (Z.log2_up (1 + Z.of_nat n)).
  pose proof (Z.log2_up_nonneg (1 + Z.of_nat n)). split_and!; try lia.
  - destruct (Z.eq_dec (Z.of_nat n) 0) as [->|]; [done|].
    apply Z.log2_up_spec. lia.
  - destruct n as [|m]; [reflexivity|]. set (n := S m) in *.
    pose proof (Z.log2_up_spec (1 + Z.of_nat n) ltac:(lia)) as [Hlo _].
    pose proof (Z.log2_up_pos (1 + Z.of_nat n) ltac:(lia)).
    replace (Z.log2_up (1 + Z.of_nat n)) with (Z.succ (Z.pred (Z.log2_up (1 + Z.of_nat n)))) by lia.
    rewrite Z.pow_succ_r by lia. lia.
Qed.

Lemma encode_ecv_loop_writes fuel signed pos v :
  ecv_adequate fuel signed pos v ->
  writes (encode_ecv_loop fuel signed pos v) (ecv_bytes fuel signed pos v).
Proof.
  revert pos v. induction fuel as [|fuel IH]; intros pos v Had.
  { destruct Had as (_ & ? & n & k & ?). lia. }
  cbn [encode_ecv_loop ecv_bytes]. rewrite leb_cont_stop, land_127, land_255, shiftr_7, shiftr_8.
  pose proof (Z.mod_pos_bound v 128 ltac:(lia)). pose proof (Z.mod_pos_bound v 256 ltac:(lia)).
  destruct (is_pow2 pos) eqn:Hp; [destruct (leb_stop signed v) eqn:Hstop|].
  - apply write_byte_writes. lia.
  - rewrite lor_128_small by lia. apply (writes_bind _ [_]); [apply write_byte_writes; lia|].
    apply IH, ecv_adequate_next; [lia|done|by rewrite Hp, Hstop].
  - apply (writes_bind _ [_]); [apply write_byte_writes; lia|].
    apply IH, ecv_adequate_next; [lia|done|by rewrite Hp].
Qed.

Lemma decode_ecv_loop_reads fuel signed pos v n r s :
  ecv_adequate fuel signed pos v -> (length (ecv_bytes fuel signed pos v) <= n)%nat ->
  0 <= s -> 0 <= r < 2 ^ s ->
  reads (decode_ecv_loop n signed r s pos) (ecv_bytes fuel signed pos v) (r + v * 2 ^ s).
Proof.
  revert pos v n r s. induction fuel as [|fuel IH]; intros pos v n r s Had Hlen Hs Hr.
  { destruct Had as (_ & ? & ? & k & ?). lia. }
  cbn [ecv_bytes] in *. pose proof (Z.mod_pos_bound v 128 ltac:(lia)) as Hx.
  pose proof (Z.mod_pos_bound v 256 ltac:(lia)) as Hy.
  destruct (leb_acc r s (v mod 128) Hs Hr Hx) as [Hacc Hacc'].
  destruct n as [|n]; [repeat case_if; simpl in Hlen; lia|].
  cbn [decode_ecv_loop].
  destruct (is_pow2 pos) eqn:Hp; [destruct (leb_stop signed v) eqn:Hstop|]; simpl in Hlen.
  - destruct (leb_byte_last _ Hx) as [Hb Hf].
    eapply reads_bind_ret; [apply read_byte_reads|]. cbv beta zeta.
    rewrite b2z_z2b_small, Hb, Hf, Hacc by lia.
    pose proof (leb_last_value signed v Hstop) as Hv.
    destruct (signed && negb (Z.land (v mod 128) 64 =? 0)); [|by rewrite Hv].
    rewrite lor_neg_shiftl, Z.pow_add_r by lia. change (2 ^ 7) with 128.
    f_equal. rewrite <- Hv at 2. lia.
  - destruct (leb_byte_more _ Hx) as [Hb Hf].
    eapply (reads_bind _ _ [_]); [apply read_byte_reads|]. cbv beta zeta.
    rewrite b2z_z2b_small, Hb, Hf, Hacc by lia.
    replace (r + v * 2 ^ s) with ((r + v mod 128 * 2 ^ s) + v / 128 * 2 ^ (s + 7)).
    + apply IH; try lia. apply ecv_adequate_next; [lia|done|by rewrite Hp, Hstop].
    + rewrite Z.pow_add_r by lia. change (2 ^ 7) with 128.
      rewrite (Z.div_mod v 128) at 3 by lia. lia.
  - eapply (reads_bind _ _ [_]); [apply read_byte_reads|]. cbv beta zeta.
    rewrite b2z_z2b_small, lor_shiftl_add by lia.
    pose proof (Z.pow_add_r 2 s 8 ltac:(lia) ltac:(lia)) as E. change (2 ^ 8) with 256 in E.
    replace (r + v * 2 ^ s) with ((r + v mod 256 * 2 ^ s) + v / 256 * 2 ^ (s + 8)).
    + apply IH; try lia; [|nia]. apply ecv_adequate_next; [lia|done|by rewrite Hp].
    + rewrite E. rewrite (Z.div_mod v 256) at 3 by lia. lia.
Qed.

(** the encoder stops at a power-of-two position *)
Lemma ecv_bytes_pow2 fuel signed pos v :
  ecv_adequate fuel signed pos v ->
  is_pow2 (pos - 1 + blen (ecv_bytes fuel signed pos v)) = true.
Proof.
  revert pos v. induction fuel as [|fuel IH]; intros pos v Had.
  { destruct Had as (_ & ? & ? & k & ?). lia. }
  cbn [ecv_bytes]. destruct (is_pow2 pos) eqn:Hp; [destruct (leb_stop signed v) eqn:Hstop|];
    rewrite blen_cons.
  - rewrite blen_nil. by replace (pos - 1 + (1 + 0)) with pos by lia.
  - rewrite <- (IH (pos + 1) (v / 128)); [f_equal; lia|].
    apply ecv_adequate_next; [lia|done|by rewrite Hp, Hstop].
  - rewrite <- (IH (pos + 1) (v / 256)); [f_equal; lia|].
    apply ecv_adequate_next; [lia|done|by rewrite Hp].
Qed.

(** Every integer (non-negative when [signed] is false) is written by
    [encode_ecv] and read back by [decode_ecv], the encoder's loop terminates,
    and the encoding's length is a power of two, as the module documents. *)
Theorem ecv_roundtrip signed v :
  signed = true \/ 0 <= v ->
  writes (encode_ecv signed v) (ecv signed v) /\
  reads (decode_ecv signed) (ecv signed v) v /\
  exists k, 0 <= k /\ blen (ecv signed v) = 2 ^ k.
Proof.
  intros Hs. pose proof (ecv_fuel_adequate signed v Hs) as Had. split_and!.
  - unfold encode_ecv.
    replace (negb signed && (v <? 0)) with false; [|destruct signed; [done|simpl; lia]].
    by apply encode_ecv_loop_writes.
  - intros d rest Hr Hf. unfold decode_ecv.
    pose proof (decode_ecv_loop_reads (ecv_fuel v) signed 1 v (des_fuel d) 0 0) as H.
    rewrite Z.pow_0_r, Z.mul_1_r, Z.add_0_l in H. apply H; try done.
    unfold des_fuel. rewrite Hr. cbn [default from_option id].
    rewrite length_app. fold (ecv signed v). lia.
  - apply is_pow2_inv. rewrite <- (ecv_bytes_pow2 _ _ _ _ Had). f_equal.
Qed.

Lemma ecv_roundtrip_witness :
  reads (decode_ecv true) [z2b 192; z2b 187; z2b 248; z2b 127] (-123456).
Proof.
  exact (proj1 (proj2 (ecv_roundtrip true (-123456) (or_introl eq_refl)))).
Defined.
