(* ===== verification/PyValue.v ===== *)
(** The Python values that reach the nano-contract types: integers, strings,
    bytes and their subclasses, tuples, collections, dictionaries and the record
    classes of the repository, with the equality, hashability and iteration
    behaviour the code relies on. *)

From stdpp Require Import base list strings.
From Stdlib Require Import ZArith Lia.
From S2P Require Import Prelude PyInt.

Local Open Scope Z_scope.
Local Open Scope py_scope.

(** * Classes *)

(** [hathor/transaction/token_info.py] *)
Inductive TokenVersion : Type := NATIVE | DEPOSIT | FEE.

#[export] Instance TokenVersion_eq_dec : EqDecision TokenVersion.
Proof. solve_decision. Defined.

Definition token_version_value (v : TokenVersion) : Z :=
  match v with NATIVE => 0 | DEPOSIT => 1 | FEE => 2 end.

(** [TokenVersion(value)] raises for a value with no member *)
Definition token_version_of (z : Z) : result TokenVersion :=
  if z =? 0 then Ok NATIVE else if z =? 1 then Ok DEPOSIT
  else if z =? 2 then Ok FEE else Err ValueError.

Lemma token_version_of_value v : token_version_of (token_version_value v) = Ok v.
Proof. by destruct v. Qed.

(** [bytes] and its subclasses in [hathor/nanocontracts/types.py] *)
Inductive bytes_class : Type :=
| ClsBytes | ClsAddress | ClsVertexId | ClsBlueprintId | ClsContractId
| ClsTokenUid | ClsTxOutputScript.

#[export] Instance bytes_class_eq_dec : EqDecision bytes_class.
Proof. solve_decision. Defined.

(** a dataclass: its name and whether it is frozen (then it is hashable) *)
Record dataclass_ : Type := Dataclass { dc_name : string; dc_frozen : bool }.

#[export] Instance dataclass_eq_dec : EqDecision dataclass_.
Proof. solve_decision. Defined.

(** * Values

    A set or dictionary is the list of its items in iteration order. *)
Inductive value : Type :=
| VNone
| VBool (b : bool)
| VInt (z : Z)
| VTokenVersion (v : TokenVersion)
| VStr (s : pystr)
| VBytes (c : bytes_class) (bs : bytes)
| VTuple (l : list value)
| VNamedTuple (name : string) (l : list value)
| VList (l : list value)
| VDeque (l : list value)
| VSet (l : list value)
| VFrozenSet (l : list value)
| VDict (l : list (value * value))
| VSignedData (data : value) (script_input : bytes)
| VDataclass (c : dataclass_) (fields : list (string * value))
| VDeletedKey.

(** [isinstance(v, int)], with the integer: [bool] and [IntEnum] are subclasses *)
Definition as_int (v : value) : option Z :=
  match v with
  | VInt z => Some z
  | VBool b => Some (Z.b2z b)
  | VTokenVersion t => Some (token_version_value t)
  | _ => None
  end.

(** [isinstance(v, bytes)], with the contents *)
Definition as_bytes (v : value) : option bytes :=
  match v with VBytes _ bs => Some bs | _ => None end.

(** [isinstance(v, tuple)] *)
Definition as_tuple (v : value) : option (list value) :=
  match v with VTuple l => Some l | VNamedTuple _ l => Some l | _ => None end.

(** [isinstance(v, collections.abc.Collection)], with what iteration yields *)
Definition as_collection (v : value) : option (list value) :=
  match v with
  | VStr s => Some (map (fun c => VStr [c]) s)
  | VBytes _ bs => Some (map (fun b => VInt (b2z b)) bs)
  | VTuple l | VNamedTuple _ l | VList l | VDeque l | VSet l | VFrozenSet l => Some l
  | VDict l => Some (map fst l)
  | _ => None
  end.

(** [isinstance(v, collections.abc.Hashable)]: the class defines [__hash__];
    [SignedData] defines [__eq__] only, which makes it unhashable *)
Definition is_Hashable (v : value) : bool :=
  match v with
  | VList _ | VDeque _ | VSet _ | VDict _ | VSignedData _ _ => false
  | VDataclass c _ => dc_frozen c
  | _ => true
  end.

(** [hash(v)] returns: a tuple or frozen dataclass hashes its members *)
Fixpoint hashable (v : value) : bool :=
  match v with
  | VTuple l | VNamedTuple _ l => forallb hashable l
  | VList _ | VDeque _ | VSet _ | VDict _ | VSignedData _ _ => false
  | VDataclass c fields =>
      dc_frozen c && forallb (fun kv => let '(_, x) := kv in hashable x) fields
  | _ => true
  end.

(** [v == w] *)
Fixpoint py_eqb (v w : value) {struct v} : bool :=
  let list_eqb := fix go (l l' : list value) : bool :=
    match l, l' with
    | [], [] => true
    | x :: r, y :: r' => py_eqb x y && go r r'
    | _, _ => false
    end in
  let set_eqb l l' :=
    Nat.eqb (length l) (length l') && forallb (fun x => existsb (py_eqb x) l') l in
  match as_int v, as_int w with
  | Some a, Some b => a =? b
  | Some _, None | None, Some _ => false
  | None, None =>
    match v, w with
    | VNone, VNone | VDeletedKey, VDeletedKey => true
    | VStr s, VStr s' => bool_decide (s = s')
    | VBytes _ bs, VBytes _ bs' => bool_decide (bs = bs')
    | (VTuple l | VNamedTuple _ l), (VTuple l' | VNamedTuple _ l') => list_eqb l l'
    | VList l, VList l' => list_eqb l l'
    | VDeque l, VDeque l' => list_eqb l l'
    | (VSet l | VFrozenSet l), (VSet l' | VFrozenSet l') => set_eqb l l'
    | VDict l, VDict l' =>
        Nat.eqb (length l) (length l') &&
        forallb (fun kx => let '(k, x) := kx in
          existsb (fun kx' => let '(k', x') := kx' in py_eqb k k' && py_eqb x x') l') l
    | VSignedData d s, VSignedData d' s' => py_eqb d d' && bool_decide (s = s')
    | VDataclass c fs, VDataclass c' fs' =>
        bool_decide (c = c') &&
        (fix go (l l' : list (string * value)) : bool :=
          match l, l' with
          | [], [] => true
          | (n, x) :: r, (n', y) :: r' => String.eqb n n' && py_eqb x y && go r r'
          | _, _ => false
          end) fs fs'
    | _, _ => false
    end
  end.

(** * Sets and dictionaries *)

(** adding one item of an iterable to a set under construction *)
Definition set_add (l : list value) (x : value) : result (list value) :=
  if negb (hashable x) then Err TypeError
  else if existsb (fun y => py_eqb y x) l then Ok l else Ok (l ++ [x]).

(** [d[k] = v]: an equal key keeps its position and is not replaced *)
Fixpoint assoc_set (l : list (value * value)) (k v : value) : list (value * value) :=
  match l with
  | [] => [(k, v)]
  | (k', v') :: r => if py_eqb k' k then (k', v) :: r else (k', v') :: assoc_set r k v
  end.

Definition dict_set (l : list (value * value)) (kv : value * value) :
    result (list (value * value)) :=
  let '(k, v) := kv in
  if negb (hashable k) then Err TypeError else Ok (assoc_set l k v).

(** keyword lookup in an instance's fields, [getattr] *)
Fixpoint field_get (name : string) (fields : list (string * value)) : result value :=
  match fields with
  | [] => Err AttributeError
  | (n, v) :: r => if String.eqb n name then Ok v else field_get name r
  end.

(** no two items of a set, or keys of a dictionary, are equal *)
Fixpoint distinct (l : list value) : bool :=
  match l with
  | [] => true
  | x :: r => forallb (fun y => negb (py_eqb x y)) r && distinct r
  end.

Lemma existsb_distinct_snoc l x :
  distinct (l ++ [x]) = true -> existsb (fun y => py_eqb y x) l = false.
Proof.
  induction l as [|y l IH]; simpl; [done|].
  rewrite forallb_app. simpl. intros [[_ Hyx]%andb_true_iff Hd]%andb_true_iff.
  rewrite andb_true_r in Hyx. apply negb_true_iff in Hyx.
  by rewrite Hyx, IH.
Qed.

Lemma distinct_app_l l l' : distinct (l ++ l') = true -> distinct l = true.
Proof.
  induction l as [|x l IH]; simpl; [done|].
  rewrite forallb_app. intros [[H1 _]%andb_true_iff H2]%andb_true_iff.
  by rewrite H1, IH.
Qed.

Lemma assoc_set_fresh l k v :
  distinct (map fst l ++ [k]) = true -> assoc_set l k v = l ++ [(k, v)].
Proof.
  induction l as [|[k' v'] l IH]; simpl; [done|].
  rewrite forallb_app. simpl. intros [[_ Hk]%andb_true_iff Hd]%andb_true_iff.
  rewrite andb_true_r in Hk. apply negb_true_iff in Hk. by rewrite Hk, IH.
Qed.

(** * Induction over nested values *)
Section value_ind.
Variable P : value -> Prop.
Hypothesis HNone : P VNone.
Hypothesis HBool : forall b, P (VBool b).
Hypothesis HInt : forall z, P (VInt z).
Hypothesis HTokenVersion : forall t, P (VTokenVersion t).
Hypothesis HStr : forall s, P (VStr s).
Hypothesis HBytes : forall c bs, P (VBytes c bs).
Hypothesis HTuple : forall l, Forall P l -> P (VTuple l).
Hypothesis HNamedTuple : forall n l, Forall P l -> P (VNamedTuple n l).
Hypothesis HList : forall l, Forall P l -> P (VList l).
Hypothesis HDeque : forall l, Forall P l -> P (VDeque l).
Hypothesis HSet : forall l, Forall P l -> P (VSet l).
Hypothesis HFrozenSet : forall l, Forall P l -> P (VFrozenSet l).
Hypothesis HDict : forall l, Forall (fun kv => P (fst kv) /\ P (snd kv)) l -> P (VDict l).
Hypothesis HSignedData : forall d s, P d -> P (VSignedData d s).
Hypothesis HDataclass : forall c fs, Forall (fun kv => P (snd kv)) fs -> P (VDataclass c fs).
Hypothesis HDeletedKey : P VDeletedKey.

Fixpoint value_nested_ind (v : value) : P v :=
  let all := fix all (l : list value) : Forall P l :=
    match l with [] => Forall_nil_2 _ | x :: r => Forall_cons_2 _ _ _ (value_nested_ind x) (all r) end in
  match v with
  | VNone => HNone
  | VBool b => HBool b
  | VInt z => HInt z
  | VTokenVersion t => HTokenVersion t
  | VStr s => HStr s
  | VBytes c bs => HBytes c bs
  | VTuple l => HTuple l (all l)
  | VNamedTuple n l => HNamedTuple n l (all l)
  | VList l => HList l (all l)
  | VDeque l => HDeque l (all l)
  | VSet l => HSet l (all l)
  | VFrozenSet l => HFrozenSet l (all l)
  | VDict l => HDict l
      ((fix go (l : list (value * value)) : Forall (fun kv => P (fst kv) /\ P (snd kv)) l :=
        match l with
        | [] => Forall_nil_2 _
        | kv :: r => Forall_cons_2 _ _ _
            (conj (value_nested_ind (fst kv)) (value_nested_ind (snd kv))) (go r)
        end) l)
  | VSignedData d s => HSignedData d s (value_nested_ind d)
  | VDataclass c fs => HDataclass c fs
      ((fix go (l : list (string * value)) : Forall (fun kv => P (snd kv)) l :=
        match l with
        | [] => Forall_nil_2 _
        | kv :: r => Forall_cons_2 _ _ _ (value_nested_ind (snd kv)) (go r)
        end) fs)
  | VDeletedKey => HDeletedKey
  end.
End value_ind.

(** a value equals itself when its sets and dictionaries do, which holds of every value *)
Lemma py_eqb_refl v : py_eqb v v = true.
Proof.
  induction v as [| | | | | |l IH|n l IH|l IH|l IH|l IH|l IH|l IH|d s IH|c fs IH|]
    using value_nested_ind; simpl; rewrite ?Z.eqb_refl, ?bool_decide_eq_true_2 by done; try done.
  1-4: induction IH as [|x r Hx _ IHr]; [done|]; by rewrite Hx.
  1-2: rewrite Nat.eqb_refl; simpl; apply forallb_forall; intros x Hx;
    apply existsb_exists; exists x; split; [done|];
    rewrite Forall_forall in IH; apply IH; by apply list_elem_of_In.
  - rewrite Nat.eqb_refl. simpl. apply forallb_forall. intros [k x] Hx.
    apply existsb_exists. exists (k, x). split; [done|].
    rewrite Forall_forall in IH. apply list_elem_of_In in Hx.
    destruct (IH _ Hx) as [H1 H2]. simpl in *. by rewrite H1, H2.
  - by rewrite IH.
  - induction IH as [|[n x] r Hx _ IHr]; [done|]. simpl in *.
    by rewrite String.eqb_refl, Hx.
Qed.
