(* ===== verification/Compound.v ===== *)
(** The compound encodings of [hathor/serialization/compound_encoding]: each
    delegates part of the work to the encoders it is given. *)

From stdpp Require Import base list.
From Stdlib Require Import ZArith Lia.
From S2P Require Import Prelude PyInt Serializer Deserializer Leb128 Encoding PyValue.

Local Open Scope Z_scope.
Local Open Scope py_scope.

(** * The code *)

Definition encode_optional {T} (value : option T) (encoder : Encoder T) : SM unit :=
  match value with
  | None => encode_bool false
  | Some v => encode_bool true ;;; encoder v
  end.

Definition decode_optional {T} (decoder : Decoder T) : DM (option T) :=
  let! has_value := decode_bool in
  if (has_value : bool) then let! v := decoder in ret (Some v) else ret None.

Definition encode_collection {T} (values : list T) (encoder : Encoder T) : SM unit :=
  encode_leb128 false (Z.of_nat (length values)) ;;;
  for_each values encoder.

(** a [builder] consumes the generator: it takes the items one at a time, and may
    raise on any of them (an unhashable member of a set) *)
Record builder (T R : Type) : Type := Builder {
  b_init : R;
  b_add : R -> T -> result R
}.
Arguments Builder {T R} _ _.
Arguments b_init {T R} _.
Arguments b_add {T R} _ _ _.

Fixpoint build_loop {T R} (n : nat) (item : DM T) (b : builder T R) (acc : R) : DM R :=
  match n with
  | O => ret acc
  | S n' =>
      let! x := item in
      let! acc' := lift (b_add b acc x) in
      build_loop n' item b acc'
  end.

Definition decode_collection {T R} (decoder : Decoder T) (b : builder T R) : DM R :=
  let! length := decode_leb128 false in
  build_loop (Z.to_nat length) decoder b (b_init b).

Definition encode_mapping {K V} (items : list (K * V))
    (key_encoder : Encoder K) (value_encoder : Encoder V) : SM unit :=
  encode_leb128 false (Z.of_nat (length items)) ;;;
  for_each items (fun kv => key_encoder (fst kv) ;;; value_encoder (snd kv)).

Definition decode_mapping {K V R} (key_decoder : Decoder K) (value_decoder : Decoder V)
    (b : builder (K * V) R) : DM R :=
  let! size := decode_leb128 false in
  build_loop (Z.to_nat size)
    (let! k := key_decoder in let! v := value_decoder in ret (k, v)) b (b_init b).

Fixpoint encode_zip {T} (values : list T) (encoders : list (Encoder T)) : SM unit :=
  match values, encoders with
  | v :: vs, e :: es => e v ;;; encode_zip vs es
  | _, _ => ret tt
  end.

Definition encode_tuple {T} (values : list T) (encoders : list (Encoder T)) : SM unit :=
  py_assert (Nat.eqb (length values) (length encoders)) ;;;
  encode_zip values encoders.

Fixpoint decode_tuple {T} (decoders : list (Decoder T)) : DM (list T) :=
  match decoders with
  | [] => ret []
  | d :: ds => let! v := d in let! vs := decode_tuple ds in ret (v :: vs)
  end.

Definition encode_signed_data {T} (data : T) (script_input : bytes) (encoder : Encoder T) :
    SM unit :=
  encoder data ;;; encode_bytes script_input.

Definition decode_signed_data {T} (decoder : Decoder T) : DM (T * bytes) :=
  let! data := decoder in
  let! script_input := decode_bytes in
  ret (data, script_input).

Definition ADDRESS_LEN_BYTES : Z := 25.
Definition TX_HASH_SIZE : Z := 32.

(** [match value] on the classes [Address] and [ContractId]; anything else is
    [assert_never] *)
Definition encode_caller_id (v : value) : SM unit :=
  match v with
  | VBytes ClsAddress bs =>
      py_assert (blen bs =? ADDRESS_LEN_BYTES) ;;; encode_bool false ;;; write_bytes bs
  | VBytes ClsContractId bs =>
      py_assert (blen bs =? TX_HASH_SIZE) ;;; encode_bool true ;;; write_bytes bs
  | _ => raise AssertionError
  end.

Definition decode_caller_id : DM value :=
  let! is_contract := decode_bool in
  if (is_contract : bool) then
    let! data := read_bytes TX_HASH_SIZE true in ret (VBytes ClsContractId data)
  else
    let! data := read_bytes ADDRESS_LEN_BYTES true in ret (VBytes ClsAddress data).

(** * Codecs

    [codec e d a]: the encoder [e] either raises everywhere, or writes some bytes
    that the decoder [d] reads back as [a]. *)

Definition codec {A} (e : SM unit) (d : DM A) (a : A) : Prop :=
  (exists bs, writes e bs /\ reads d bs a) \/ fails e.

Section combinators.
Context {A B : Type}.

Lemma codec_seq (e1 e2 : SM unit) (d1 : DM A) (f : A -> DM B) a b :
  codec e1 d1 a -> codec e2 (f a) b ->
  codec (bind e1 (fun _ => e2)) (bind d1 f) b.
Proof.
  intros [(bs1 & W1 & R1)|F1]; [|intros _; right; intros s; by apply fails_bind_l].
  intros [(bs2 & W2 & R2)|F2]; [|right; by eapply fails_bind_r].
  left. exists (bs1 ++ bs2). split; [by apply writes_bind|by eapply reads_bind].
Qed.

Lemma codec_ret (a : A) : codec (ret tt) (ret a) a.
Proof. left. exists []. split; [apply writes_ret|apply reads_ret]. Qed.

Lemma codec_map (e : SM unit) (d : DM A) (f : A -> DM B) a b :
  codec e d a -> f a = ret b -> codec e (bind d f) b.
Proof.
  intros [(bs & W & R)|F] Hf; [|by right].
  left. exists bs. split; [done|by eapply reads_bind_ret].
Qed.

Lemma codec_max_bytes n (e : SM unit) (d : DM A) a :
  0 <= n -> codec e d a -> codec (ser_with_max_bytes n e) (des_with_max_bytes n d) a.
Proof.
  intros Hn [(bs & W & R)|F]; [|right; by apply ser_with_max_bytes_fails_inner].
  destruct (Z.le_gt_cases (blen bs) n) as [Hle|Hgt].
  - left. exists bs. split; [by apply ser_with_max_bytes_writes|by apply des_with_max_bytes_reads].
  - right. eapply ser_with_max_bytes_fails; [done|exact W|lia].
Qed.

Lemma codec_try (e : SM unit) (d : DM A) a c1 x1 c2 x2 :
  overrun x1 -> codec e d a -> codec (try_raise e c1 x1) (try_raise d c2 x2) a.
Proof.
  intros Hx [(bs & W & R)|F]; [|right; by apply try_raise_fails].
  left. exists bs. split; [by apply try_raise_writes|by apply try_raise_reads].
Qed.

Lemma codec_assert b (e : SM unit) (d : DM A) a :
  (b = true -> codec e d a) -> codec (py_assert b ;;; e) d a.
Proof.
  intros H. destruct b; [|by right; apply fails_raise].
  destruct (H eq_refl) as [(bs & W & R)|F]; [left|by right].
  exists bs. split; [|done]. apply (writes_bind _ []); [apply writes_ret|done].
Qed.
End combinators.

Lemma codec_leb128 signed v : codec (encode_leb128 signed v) (decode_leb128 signed) v.
Proof.
  destruct (decide (signed = true \/ 0 <= v)) as [H|H].
  - left. exists (leb128 signed v).
    split; [by apply encode_leb128_writes|by apply decode_leb128_reads].
  - right. assert (signed = false) as -> by (destruct signed; tauto).
    apply encode_leb128_fails. lia.
Qed.

Lemma codec_bool b : codec (encode_bool b) decode_bool b.
Proof. left. eexists. split; [apply encode_bool_writes|apply decode_bool_reads]. Qed.

Lemma codec_bytes bs : codec (encode_bytes bs) decode_bytes bs.
Proof. left. eexists. split; [apply encode_bytes_writes|apply decode_bytes_reads]. Qed.

Lemma codec_write_bytes bs n : blen bs = n -> codec (write_bytes bs) (read_bytes n true) bs.
Proof. intros <-. left. eexists. split; [apply write_bytes_writes|apply read_bytes_reads]. Qed.

Lemma codec_int n len signed :
  (0 < len)%nat -> codec (encode_int n len signed) (decode_int len signed) n.
Proof.
  intros Hl. destruct (int_to_bytes_spec n len signed) as [[Hf _]|[Hf _]].
  - left. eexists. split; [by apply encode_int_writes|by apply decode_int_reads].
  - right. intros s _. rewrite encode_int_err by done. eauto.
Qed.

Lemma codec_utf8 s : codec (encode_utf8 s) decode_utf8 s.
Proof.
  unfold encode_utf8. destruct (utf8_encode s) as [data|e] eqn:E.
  - left. exists (lp_bytes data). split; [apply encode_bytes_writes|by apply decode_utf8_reads].
  - right. by eapply lift_fails.
Qed.

Lemma codec_optional {T} (v : option T) (e : Encoder T) (d : Decoder T) :
  (forall x, v = Some x -> codec (e x) d x) ->
  codec (encode_optional v e) (decode_optional d) v.
Proof.
  intros H. destruct v as [x|]; simpl.
  - eapply codec_seq; [apply codec_bool|]. cbv iota.
    eapply codec_map; [by apply H|done].
  - eapply codec_map; [apply codec_bool|done].
Qed.

(** the loop over the items of a collection, and a builder that accepts them *)
Lemma codec_build_loop {T R} (l : list T) (e : Encoder T) (d : DM T) (b : builder T R)
    (acc : nat -> R) :
  (forall i x, l !! i = Some x -> codec (e x) d x) ->
  (forall i x, l !! i = Some x -> b_add b (acc i) x = Ok (acc (S i))) ->
  codec (for_each l e) (build_loop (length l) d b (acc O)) (acc (length l)).
Proof.
  revert acc. induction l as [|x l IH]; intros acc Hc Hb; simpl; [apply codec_ret|].
  eapply codec_seq; [by apply (Hc O x)|]. cbv beta.
  rewrite (Hb O x eq_refl). change (lift (Ok (acc 1%nat))) with (@ret deserializer R (acc 1%nat)).
  assert (E : forall k : R -> DM R, bind (ret (acc 1%nat)) k = k (acc 1%nat)) by done.
  rewrite E. apply (IH (fun i => acc (S i))).
  - intros i y Hy. by apply (Hc (S i)).
  - intros i y Hy. by apply (Hb (S i)).
Qed.

Lemma codec_collection {T R} (l : list T) (e : Encoder T) (d : Decoder T) (b : builder T R)
    (acc : nat -> R) :
  (forall i x, l !! i = Some x -> codec (e x) d x) ->
  acc O = b_init b -> (forall i x, l !! i = Some x -> b_add b (acc i) x = Ok (acc (S i))) ->
  codec (encode_collection l e) (decode_collection d b) (acc (length l)).
Proof.
  intros Hc H0 Hb. eapply codec_seq; [apply codec_leb128|]. cbv beta.
  rewrite Nat2Z.id, <- H0. by apply codec_build_loop.
Qed.

Lemma codec_mapping {K V R} (l : list (K * V)) (ek : Encoder K) (ev : Encoder V)
    (dk : Decoder K) (dv : Decoder V) (b : builder (K * V) R) (acc : nat -> R) :
  (forall i k v, l !! i = Some (k, v) -> codec (ek k) dk k /\ codec (ev v) dv v) ->
  acc O = b_init b -> (forall i x, l !! i = Some x -> b_add b (acc i) x = Ok (acc (S i))) ->
  codec (encode_mapping l ek ev) (decode_mapping dk dv b) (acc (length l)).
Proof.
  intros Hc H0 Hb. eapply codec_seq; [apply codec_leb128|]. cbv beta.
  rewrite Nat2Z.id, <- H0. apply codec_build_loop; [|done].
  intros i [k v] Hi. destruct (Hc i k v Hi). eapply codec_seq; [done|].
  eapply codec_map; done.
Qed.

Lemma codec_tuple {T} (l : list T) (es : list (Encoder T)) (ds : list (Decoder T)) :
  length es = length ds ->
  (forall i v e d, l !! i = Some v -> es !! i = Some e -> ds !! i = Some d -> codec (e v) d v) ->
  codec (encode_tuple l es) (decode_tuple ds) l.
Proof.
  intros Hlen Hc. apply codec_assert. intros Hl. apply Nat.eqb_eq in Hl.
  revert es ds Hlen Hl Hc. induction l as [|v l IH]; intros [|e es] [|d ds] Hlen Hl Hc;
    simpl in *; try lia; [apply codec_ret|].
  eapply codec_seq; [by apply (Hc O)|]. eapply codec_map; [|done].
  apply IH; [lia|lia|]. intros i. apply (Hc (S i)).
Qed.

Lemma codec_signed_data {T} (x : T) script (e : Encoder T) (d : Decoder T) :
  codec (e x) d x -> codec (encode_signed_data x script e) (decode_signed_data d) (x, script).
Proof.
  intros H. eapply codec_seq; [exact H|]. eapply codec_map; [apply codec_bytes|done].
Qed.

Lemma codec_caller_id v : codec (encode_caller_id v) decode_caller_id v.
Proof.
  destruct v as [| | | | |c bs| | | | | | | | | |]; try (right; apply fails_raise).
  destruct c; try (right; apply fails_raise); simpl.
  all: apply codec_assert; intros Hl%Z.eqb_eq.
  all: eapply codec_seq; [apply codec_bool|]; cbv iota.
  all: eapply codec_map; [by apply codec_write_bytes|done].
Qed.

#[export] Hint Resolve codec_leb128 codec_bool codec_bytes codec_utf8 codec_caller_id : ser.
