(* ===== verification/NCTypes.v ===== *)
(** The nano-contract types of [hathor/nanocontracts/nc_types]: one constructor
    per [NCType] subclass, the per-class [_check_value], [_serialize] and
    [_deserialize] methods, and the final methods of the base class that combine
    them. *)

From stdpp Require Import base list strings.
From Stdlib Require Import ZArith Lia.
From S2P Require Import Prelude PyInt Serializer Deserializer Leb128 Encoding PyValue Compound.

Local Open Scope Z_scope.
Local Open Scope py_scope.

(** * The types *)

Inductive nc_type : Type :=
| BoolNCType
| StrNCType
| BytesNCType
| BytesLikeNCType (_actual_type : bytes_class)
| AddressNCType
| Bytes32NCType (_actual_type : bytes_class)
| TokenUidNCType
| CallerIdNCType
| NullNCType
| Int32NCType
| Uint32NCType
| Uint8NCType
| TokenVersionNCType
| VarInt32NCType
| VarUint32NCType
| OptionalNCType (_value : nc_type)
| SignedDataNCType (_value : nc_type)
| TupleVarNCType (arg : nc_type)
| TupleNCType (_args : list nc_type)
| NamedTupleNCType (_actual_type : string) (_args : list nc_type)
| ListNCType (_item : nc_type)
| DequeNCType (_item : nc_type)
| SetNCType (_item : nc_type)
| FrozenSetNCType (_item : nc_type)
| DictNCType (_key _value : nc_type)
| DataclassNCType (_class : dataclass_) (_fields : list (string * nc_type)).

(** [NCType.is_hashable] *)
Fixpoint is_hashable (t : nc_type) : bool :=
  match t with
  | OptionalNCType t | SignedDataNCType t | TupleVarNCType t => is_hashable t
  | TupleNCType ts | NamedTupleNCType _ ts => forallb is_hashable ts
  | ListNCType _ | DequeNCType _ | SetNCType _ | DictNCType _ _ | DataclassNCType _ _ => false
  | _ => true
  end.

Definition DEFAULT_BYTES_MAX_LENGTH : Z := 2 ^ 16.
Definition HATHOR_TOKEN_UID : bytes := [Byte.x00].
Definition TOKEN_SIZE : Z := 32.

(** a check: [isinstance] or another condition, else the exception *)
Definition require (b : bool) (e : exn) : result unit := if b then Ok tt else Err e.

(** * [_check_value], per class

    A compound class gets the deep checks of its members as arguments. *)

Definition Bool_check_value (v : value) : result unit :=
  require (match v with VBool _ => true | _ => false end) TypeError.

Definition Str_check_value (v : value) : result unit :=
  require (match v with VStr _ => true | _ => false end) TypeError.

Definition BytesLike_check_value (v : value) : result unit :=
  match as_bytes v with Some _ => Ok tt | None => Err TypeError end.

Definition Address_check_value (v : value) : result unit :=
  match as_bytes v with
  | Some bs => require (blen bs =? ADDRESS_LEN_BYTES) ValueError
  | None => Err TypeError
  end.

Definition FixedSizeBytes_check_value (size : Z) (v : value) : result unit :=
  match as_bytes v with
  | Some bs => require (blen bs =? size) TypeError
  | None => Err TypeError
  end.

Definition TokenUid_check_value (v : value) : result unit :=
  match as_bytes v with
  | Some data =>
      if bool_decide (data = HATHOR_TOKEN_UID) then Ok tt
      else require (blen data =? TOKEN_SIZE) TypeError
  | None => Err TypeError
  end.

Definition CallerId_check_value (v : value) : result unit :=
  match v with
  | VBytes ClsAddress bs => require (blen bs =? ADDRESS_LEN_BYTES) ValueError
  | VBytes ClsContractId bs => require (blen bs =? TX_HASH_SIZE) ValueError
  | _ => Err AssertionError
  end.

Definition Null_check_value (v : value) : result unit :=
  require (match v with VNone => true | _ => false end) TypeError.

(** [_upper_bound_value], [_lower_bound_value] and [_check_range] of the two
    integer families; [None] is an absent bound *)
Definition check_range (upper lower : option Z) (z : Z) : result unit :=
  if (match upper with Some u => z >? u | None => false end) then Err ValueError
  else if (match lower with Some l => z <? l | None => false end) then Err ValueError
  else Ok tt.

Module SizedInt.
Definition si_upper_bound (signed : bool) (byte_size : Z) : option Z :=
  Some (if signed then 2 ^ (byte_size * 8 - 1) - 1 else 2 ^ (byte_size * 8) - 1).

Definition si_lower_bound (signed : bool) (byte_size : Z) : option Z :=
  Some (if signed then - 2 ^ (byte_size * 8 - 1) else 0).

Definition si_check_value (signed : bool) (byte_size : Z) (v : value) : result unit :=
  match as_int v with
  | Some z => check_range (si_upper_bound signed byte_size) (si_lower_bound signed byte_size) z
  | None => Err TypeError
  end.
End SizedInt.

Module VarInt.
Definition vi_upper_bound (signed : bool) (max_byte_size : option Z) : option Z :=
  match max_byte_size with
  | None => None
  | Some n => Some (if signed then 2 ^ (n * 7 - 1) - 1 else 2 ^ (n * 7) - 1)
  end.

Definition vi_lower_bound (signed : bool) (max_byte_size : option Z) : option Z :=
  if negb signed then Some 0
  else match max_byte_size with
  | Some n => Some (- 2 ^ (n * 7))
  | None => None
  end.

Definition vi_check_value (signed : bool) (max_byte_size : option Z) (v : value) : result unit :=
  match as_int v with
  | Some z => check_range (vi_upper_bound signed max_byte_size) (vi_lower_bound signed max_byte_size) z
  | None => Err TypeError
  end.
End VarInt.

(** [_max_byte_size] of [VarInt32NCType] and [VarUint32NCType] *)
Definition VARINT_MAX_BYTE_SIZE : Z := 32.

Definition checker : Type := value -> result unit.

Definition Optional_check_value (inner : checker) (deep : bool) (v : value) : result unit :=
  match v with
  | VNone => Ok tt
  | _ => if deep then inner v else Ok tt
  end.

Definition SignedData_check_value (inner : checker) (deep : bool) (v : value) : result unit :=
  match v with
  | VSignedData data _ => if deep then inner data else Ok tt
  | _ => Err TypeError
  end.

(** [isinstance(value, (tuple, list))] *)
Definition as_tuple_like (v : value) : option (list value) :=
  match v with VList l => Some l | _ => as_tuple v end.

Fixpoint check_zip (l : list value) (checks : list checker) : result unit :=
  match l, checks with
  | x :: l', c :: cs => let? _ := c x in check_zip l' cs
  | _, _ => Ok tt
  end.

Definition TupleVar_check_value (arg : checker) (deep : bool) (v : value) : result unit :=
  match as_tuple_like v with
  | Some l => if deep then rfor l arg else Ok tt
  | None => Err TypeError
  end.

Definition Tuple_check_value (args : list checker) (deep : bool) (v : value) : result unit :=
  match as_tuple_like v with
  | Some l =>
      if deep then
        let? _ := require (Nat.eqb (length l) (length args)) TypeError in check_zip l args
      else Ok tt
  | None => Err TypeError
  end.

(** the size is checked even when [deep] is false *)
Definition NamedTuple_check_value (args : list checker) (deep : bool) (v : value) : result unit :=
  match as_tuple v with
  | Some l =>
      let? _ := require (Nat.eqb (length l) (length args)) TypeError in
      if deep then check_zip l args else Ok tt
  | None => Err TypeError
  end.

Definition Collection_check_value (check_item : checker) (deep : bool) (v : value) : result unit :=
  match as_collection v with
  | Some l => if deep then rfor l check_item else Ok tt
  | None => Err TypeError
  end.

(** [SetNCType._check_item] *)
Definition Set_check_item (item : checker) (x : value) : result unit :=
  let? _ := require (is_Hashable x) TypeError in item x.

Definition Map_check_value (key val : checker) (deep : bool) (v : value) : result unit :=
  match v with
  | VDict l =>
      if deep then rfor l (fun kv => let? _ := key (fst kv) in val (snd kv)) else Ok tt
  | _ => Err TypeError
  end.

Definition Dataclass_check_value (c : dataclass_) (v : value) : result unit :=
  match v with
  | VDataclass c' _ => require (bool_decide (c' = c)) TypeError
  | _ => Err TypeError
  end.

(** [NCType._check_value], dispatched on the class *)
Fixpoint check_value_ (t : nc_type) (deep : bool) (v : value) {struct t} : result unit :=
  match t with
  | BoolNCType => Bool_check_value v
  | StrNCType => Str_check_value v
  | BytesNCType | BytesLikeNCType _ => BytesLike_check_value v
  | AddressNCType => Address_check_value v
  | Bytes32NCType _ => FixedSizeBytes_check_value 32 v
  | TokenUidNCType => TokenUid_check_value v
  | CallerIdNCType => CallerId_check_value v
  | NullNCType => Null_check_value v
  | Int32NCType => SizedInt.si_check_value true 4 v
  | Uint32NCType => SizedInt.si_check_value false 4 v
  | Uint8NCType | TokenVersionNCType => SizedInt.si_check_value false 1 v
  | VarInt32NCType => VarInt.vi_check_value true (Some VARINT_MAX_BYTE_SIZE) v
  | VarUint32NCType => VarInt.vi_check_value false (Some VARINT_MAX_BYTE_SIZE) v
  | OptionalNCType t => Optional_check_value (check_value_ t true) deep v
  | SignedDataNCType t => SignedData_check_value (check_value_ t true) deep v
  | TupleVarNCType t => TupleVar_check_value (check_value_ t true) deep v
  | TupleNCType ts => Tuple_check_value (map (fun t => check_value_ t true) ts) deep v
  | NamedTupleNCType _ ts => NamedTuple_check_value (map (fun t => check_value_ t true) ts) deep v
  | ListNCType t | DequeNCType t => Collection_check_value (check_value_ t true) deep v
  | SetNCType t | FrozenSetNCType t =>
      Collection_check_value (Set_check_item (check_value_ t true)) deep v
  | DictNCType k w => Map_check_value (check_value_ k true) (check_value_ w true) deep v
  | DataclassNCType c _ => Dataclass_check_value c v
  end.

(** [NCType.check_value] *)
Definition check_value (t : nc_type) (v : value) : result unit := check_value_ t true v.

(** * [_serialize], per class

    Each is called after the shallow check, so the failing projections below are
    unreachable; they raise [AttributeError] or [TypeError] as the code would. *)

Definition with_bytes (v : value) (k : bytes -> SM unit) : SM unit :=
  match as_bytes v with Some bs => k bs | None => raise TypeError end.

Definition with_int (v : value) (k : Z -> SM unit) : SM unit :=
  match as_int v with Some z => k z | None => raise TypeError end.

Definition with_items (items : option (list value)) (k : list value -> SM unit) : SM unit :=
  match items with Some l => k l | None => raise TypeError end.

Definition Bool_serialize (v : value) : SM unit :=
  match v with VBool b => encode_bool b | _ => raise AssertionError end.

Definition Str_serialize (v : value) : SM unit :=
  match v with
  | VStr s => ser_with_max_bytes DEFAULT_BYTES_MAX_LENGTH (encode_utf8 s)
  | _ => raise AssertionError
  end.

Definition BytesLike_serialize (v : value) : SM unit :=
  with_bytes v (fun data => ser_with_max_bytes DEFAULT_BYTES_MAX_LENGTH (encode_bytes data)).

Definition FixedSizeBytes_serialize (size : Z) (v : value) : SM unit :=
  with_bytes v (fun data => py_assert (blen data =? size) ;;; write_bytes data).

Definition Address_serialize (v : value) : SM unit :=
  with_bytes v (fun data => py_assert (blen data =? ADDRESS_LEN_BYTES) ;;; write_bytes data).

Definition SizedInt_serialize (signed : bool) (byte_size : nat) (v : value) : SM unit :=
  with_int v (fun z => encode_int z byte_size signed).

Definition VarInt_serialize (signed : bool) (max_byte_size : option Z) (v : value) : SM unit :=
  with_int v (fun z =>
    try_raise (ser_with_optional_max_bytes max_byte_size (encode_leb128 signed z))
      MaxBytesExceededError ValueError).

Definition Optional_serialize (inner : Encoder value) (v : value) : SM unit :=
  encode_optional (match v with VNone => None | _ => Some v end) inner.

(** the native token is written as [None]; the others through [Bytes32NCType(bytes)] *)
Definition TokenUid_serialize (bytes32 : Encoder value) (v : value) : SM unit :=
  with_bytes v (fun data =>
    encode_optional (if bool_decide (data = HATHOR_TOKEN_UID) then None else Some v) bytes32).

Definition SignedData_serialize (inner : Encoder value) (v : value) : SM unit :=
  match v with
  | VSignedData data script => encode_signed_data data script inner
  | _ => raise AssertionError
  end.

Definition TupleVar_serialize (arg : Encoder value) (v : value) : SM unit :=
  with_items (as_tuple_like v) (fun l => encode_collection l arg).

Definition Tuple_serialize (args : list (Encoder value)) (v : value) : SM unit :=
  with_items (as_tuple_like v) (fun l => encode_tuple l args).

Definition NamedTuple_serialize (args : list (Encoder value)) (v : value) : SM unit :=
  with_items (as_tuple v) (fun l => encode_tuple l args).

Definition Collection_serialize (item : Encoder value) (v : value) : SM unit :=
  with_items (as_collection v) (fun l => encode_collection l item).

Definition Map_serialize (key val : Encoder value) (v : value) : SM unit :=
  match v with
  | VDict l => encode_mapping l key val
  | _ => raise AttributeError
  end.

Definition Dataclass_serialize (fields : list (string * Encoder value)) (v : value) : SM unit :=
  match v with
  | VDataclass _ fs =>
      for_each fields (fun nf => let! x := lift (field_get (fst nf) fs) in snd nf x)
  | _ => raise AttributeError
  end.

(** [NCType.serialize]: the shallow check, then the [_serialize] of the class *)
Fixpoint serialize (t : nc_type) (v : value) {struct t} : SM unit :=
  lift (check_value_ t false v) ;;;
  match t with
  | BoolNCType => Bool_serialize v
  | StrNCType => Str_serialize v
  | BytesNCType | BytesLikeNCType _ => BytesLike_serialize v
  | AddressNCType => Address_serialize v
  | Bytes32NCType _ => FixedSizeBytes_serialize 32 v
  | TokenUidNCType =>
      TokenUid_serialize (fun x =>
        lift (FixedSizeBytes_check_value 32 x) ;;; FixedSizeBytes_serialize 32 x) v
  | CallerIdNCType => encode_caller_id v
  | NullNCType => ret tt
  | Int32NCType => SizedInt_serialize true 4 v
  | Uint32NCType => SizedInt_serialize false 4 v
  | Uint8NCType | TokenVersionNCType => SizedInt_serialize false 1 v
  | VarInt32NCType => VarInt_serialize true (Some VARINT_MAX_BYTE_SIZE) v
  | VarUint32NCType => VarInt_serialize false (Some VARINT_MAX_BYTE_SIZE) v
  | OptionalNCType t => Optional_serialize (serialize t) v
  | SignedDataNCType t => SignedData_serialize (serialize t) v
  | TupleVarNCType t => TupleVar_serialize (serialize t) v
  | TupleNCType ts => Tuple_serialize (map serialize ts) v
  | NamedTupleNCType _ ts => NamedTuple_serialize (map serialize ts) v
  | ListNCType t | DequeNCType t | SetNCType t | FrozenSetNCType t =>
      Collection_serialize (serialize t) v
  | DictNCType k w => Map_serialize (serialize k) (serialize w) v
  | DataclassNCType _ fields =>
      Dataclass_serialize (map (fun nf => (fst nf, serialize (snd nf))) fields) v
  end.

(** * [_deserialize], per class *)

Definition Str_deserialize : DM value :=
  let! s := des_with_max_bytes DEFAULT_BYTES_MAX_LENGTH decode_utf8 in ret (VStr s).

Definition BytesLike_deserialize (c : bytes_class) : DM value :=
  let! data := des_with_max_bytes DEFAULT_BYTES_MAX_LENGTH decode_bytes in ret (VBytes c data).

Definition Address_deserialize : DM value :=
  let! data := read_bytes ADDRESS_LEN_BYTES true in ret (VBytes ClsAddress data).

Definition FixedSizeBytes_deserialize (size : Z) (c : bytes_class) : DM value :=
  let! data := read_bytes size true in ret (VBytes c data).

Definition SizedInt_deserialize (signed : bool) (byte_size : nat) : DM value :=
  let! z := decode_int byte_size signed in ret (VInt z).

Definition TokenVersion_deserialize : DM value :=
  let! z := decode_int 1 false in
  let! v := lift (token_version_of z) in ret (VTokenVersion v).

Definition VarInt_deserialize (signed : bool) (max_byte_size : option Z) : DM value :=
  let! z := try_raise (des_with_optional_max_bytes max_byte_size (decode_leb128 signed))
    MaxBytesExceededError ValueError in
  ret (VInt z).

Definition Optional_deserialize (inner : Decoder value) : DM value :=
  let! o := decode_optional inner in ret (default VNone o).

Definition TokenUid_deserialize (bytes32 : Decoder value) : DM value :=
  let! raw_value := decode_optional bytes32 in
  ret (VBytes ClsTokenUid
    (match raw_value with Some v => default [] (as_bytes v) | None => HATHOR_TOKEN_UID end)).

Definition SignedData_deserialize (inner : Decoder value) : DM value :=
  let! p := decode_signed_data inner in ret (VSignedData (fst p) (snd p)).

Definition list_builder {T} : builder T (list T) := Builder [] (fun l x => Ok (l ++ [x])).
Definition set_builder : builder value (list value) := Builder [] set_add.
Definition dict_builder : builder (value * value) (list (value * value)) := Builder [] dict_set.

(** a collection class differs from another in its [_build] *)
Definition Collection_deserialize (item : Decoder value)
    (b : builder value (list value)) (mk : list value -> value) : DM value :=
  let! l := decode_collection item b in ret (mk l).

Definition Tuple_deserialize (args : list (Decoder value)) (mk : list value -> value) : DM value :=
  let! l := decode_tuple args in ret (mk l).

Definition Map_deserialize (key val : Decoder value) : DM value :=
  let! l := decode_mapping key val dict_builder in ret (VDict l).

Fixpoint decode_fields (fields : list (string * Decoder value)) : DM (list (string * value)) :=
  match fields with
  | [] => ret []
  | (n, d) :: r => let! x := d in let! kwargs := decode_fields r in ret ((n, x) :: kwargs)
  end.

Definition Dataclass_deserialize (c : dataclass_) (fields : list (string * Decoder value)) : DM value :=
  let! kwargs := decode_fields fields in ret (VDataclass c kwargs).

(** the shallow check of a decoded value *)
Definition checked (check : checker) (m : DM value) : DM value :=
  let! v := m in lift (check v) ;;; ret v.

(** [NCType.deserialize]: the [_deserialize] of the class, then the shallow check *)
Fixpoint deserialize (t : nc_type) : DM value :=
  checked (check_value_ t false)
  match t with
  | BoolNCType => let! b := decode_bool in ret (VBool b)
  | StrNCType => Str_deserialize
  | BytesNCType => BytesLike_deserialize ClsBytes
  | BytesLikeNCType c => BytesLike_deserialize c
  | AddressNCType => Address_deserialize
  | Bytes32NCType c => FixedSizeBytes_deserialize 32 c
  | TokenUidNCType =>
      TokenUid_deserialize
        (checked (FixedSizeBytes_check_value 32) (FixedSizeBytes_deserialize 32 ClsBytes))
  | CallerIdNCType => decode_caller_id
  | NullNCType => ret VNone
  | Int32NCType => SizedInt_deserialize true 4
  | Uint32NCType => SizedInt_deserialize false 4
  | Uint8NCType => SizedInt_deserialize false 1
  | TokenVersionNCType => TokenVersion_deserialize
  | VarInt32NCType => VarInt_deserialize true (Some VARINT_MAX_BYTE_SIZE)
  | VarUint32NCType => VarInt_deserialize false (Some VARINT_MAX_BYTE_SIZE)
  | OptionalNCType t => Optional_deserialize (deserialize t)
  | SignedDataNCType t => SignedData_deserialize (deserialize t)
  | TupleVarNCType t => Collection_deserialize (deserialize t) list_builder VTuple
  | TupleNCType ts => Tuple_deserialize (map deserialize ts) VTuple
  | NamedTupleNCType n ts => Tuple_deserialize (map deserialize ts) (VNamedTuple n)
  | ListNCType t => Collection_deserialize (deserialize t) list_builder VList
  | DequeNCType t => Collection_deserialize (deserialize t) list_builder VDeque
  | SetNCType t => Collection_deserialize (deserialize t) set_builder VSet
  | FrozenSetNCType t => Collection_deserialize (deserialize t) set_builder VFrozenSet
  | DictNCType k w => Map_deserialize (deserialize k) (deserialize w)
  | DataclassNCType c fields =>
      Dataclass_deserialize c (map (fun nf => (fst nf, deserialize (snd nf))) fields)
  end.

(** [NCType.to_bytes] and [NCType.from_bytes] *)
Definition to_bytes (t : nc_type) (v : value) : result bytes :=
  let '(r, serializer) := serialize t v build_bytes_serializer in
  let? _ := r in fst (ser_finalize serializer).

Definition from_bytes (t : nc_type) (data : bytes) : result value :=
  fst ((let! v := deserialize t in des_finalize ;;; ret v) (build_bytes_deserializer data)).

Example serialize_dict :
  to_bytes (DictNCType StrNCType BoolNCType) (VDict [(VStr [102; 111; 111], VBool false)])
  = Ok (map z2b [1; 3; 102; 111; 111; 0]).
Proof. vm_compute. reflexivity. Qed.

Example deserialize_set_dedup :
  from_bytes (SetNCType VarInt32NCType) (map z2b [3; 5; 6; 5]) = Ok (VSet [VInt 5; VInt 6]).
Proof. vm_compute. reflexivity. Qed.
