(* ===== verification/NCTypeTheory.v ===== *)
(** Theory of the nano-contract types: the typing judgement [has_type], the
    round trip of every type through its serialization, and the soundness of
    deserialization. *)

From stdpp Require Import base list strings.
From Stdlib Require Import ZArith Lia.
From S2P Require Import Prelude PyInt Serializer Deserializer Leb128 Encoding PyValue Compound NCTypes.

Local Open Scope Z_scope.
Local Open Scope py_scope.

(** * Typing

    [has_type t v]: [v] is a value [t] describes, of exactly the class
    deserialization builds. *)

Definition in_range (lo hi z : Z) : bool := (lo <=? z) && (z <? hi).

Definition has_len (bs : bytes) (n : Z) : bool := blen bs =? n.

Definition is_bytes_of (c : bytes_class) (p : bytes -> bool) (v : value) : bool :=
  match v with VBytes c' bs => bool_decide (c' = c) && p bs | _ => false end.

Definition is_int_in (lo hi : Z) (v : value) : bool :=
  match v with VInt z => in_range lo hi z | _ => false end.

Fixpoint names_distinct (l : list string) : bool :=
  match l with
  | [] => true
  | n :: r => forallb (fun m => negb (String.eqb n m)) r && names_distinct r
  end.

Fixpoint has_type (t : nc_type) (v : value) {struct t} : bool :=
  let zip := fix zip (ts : list nc_type) (l : list value) : bool :=
    match ts, l with
    | [], [] => true
    | t :: ts', x :: l' => has_type t x && zip ts' l'
    | _, _ => false
    end in
  match t with
  | BoolNCType => match v with VBool _ => true | _ => false end
  | StrNCType => match v with VStr _ => true | _ => false end
  | BytesNCType => is_bytes_of ClsBytes (fun _ => true) v
  | BytesLikeNCType c => is_bytes_of c (fun _ => true) v
  | AddressNCType => is_bytes_of ClsAddress (fun bs => has_len bs ADDRESS_LEN_BYTES) v
  | Bytes32NCType c => is_bytes_of c (fun bs => has_len bs 32) v
  | TokenUidNCType =>
      is_bytes_of ClsTokenUid
        (fun bs => bool_decide (bs = HATHOR_TOKEN_UID) || has_len bs TOKEN_SIZE) v
  | CallerIdNCType =>
      is_bytes_of ClsAddress (fun bs => has_len bs ADDRESS_LEN_BYTES) v ||
      is_bytes_of ClsContractId (fun bs => has_len bs TX_HASH_SIZE) v
  | NullNCType => match v with VNone => true | _ => false end
  | Int32NCType => is_int_in (- 2 ^ 31) (2 ^ 31) v
  | Uint32NCType => is_int_in 0 (2 ^ 32) v
  | Uint8NCType => is_int_in 0 256 v
  | TokenVersionNCType => match v with VTokenVersion _ => true | _ => false end
  | VarInt32NCType => is_int_in (- 2 ^ 223) (2 ^ 223) v
  | VarUint32NCType => is_int_in 0 (2 ^ 224) v
  | OptionalNCType t => match v with VNone => true | _ => has_type t v end
  | SignedDataNCType t => match v with VSignedData d _ => has_type t d | _ => false end
  | TupleVarNCType t => match v with VTuple l => forallb (has_type t) l | _ => false end
  | TupleNCType ts => match v with VTuple l => zip ts l | _ => false end
  | NamedTupleNCType n ts =>
      match v with VNamedTuple n' l => String.eqb n n' && zip ts l | _ => false end
  | ListNCType t => match v with VList l => forallb (has_type t) l | _ => false end
  | DequeNCType t => match v with VDeque l => forallb (has_type t) l | _ => false end
  | SetNCType t =>
      match v with
      | VSet l => forallb (has_type t) l && forallb hashable l && distinct l
      | _ => false
      end
  | FrozenSetNCType t =>
      match v with
      | VFrozenSet l => forallb (has_type t) l && forallb hashable l && distinct l
      | _ => false
      end
  | DictNCType k w =>
      match v with
      | VDict l =>
          forallb (fun kv => has_type k (fst kv) && has_type w (snd kv)) l &&
          forallb hashable (map fst l) && distinct (map fst l)
      | _ => false
      end
  | DataclassNCType c fields =>
      match v with
      | VDataclass c' fs =>
          bool_decide (c' = c) && names_distinct (map fst fields) &&
          (fix go (fts : list (string * nc_type)) (l : list (string * value)) : bool :=
            match fts, l with
            | [], [] => true
            | (n, t) :: fts', (n', x) :: l' => String.eqb n n' && has_type t x && go fts' l'
            | _, _ => false
            end) fields fs
      | _ => false
      end
  end.

(** * Induction *)
Section nc_type_ind.
Variable P : nc_type -> Prop.
Hypothesis Hbase : forall t,
  match t with
  | OptionalNCType _ | SignedDataNCType _ | TupleVarNCType _ | TupleNCType _
  | NamedTupleNCType _ _ | ListNCType _ | DequeNCType _ | SetNCType _
  | FrozenSetNCType _ | DictNCType _ _ | DataclassNCType _ _ => True
  | _ => P t
  end.
Hypothesis HOptional : forall t, P t -> P (OptionalNCType t).
Hypothesis HSignedData : forall t, P t -> P (SignedDataNCType t).
Hypothesis HTupleVar : forall t, P t -> P (TupleVarNCType t).
Hypothesis HTuple : forall ts, Forall P ts -> P (TupleNCType ts).
Hypothesis HNamedTuple : forall n ts, Forall P ts -> P (NamedTupleNCType n ts).
Hypothesis HList : forall t, P t -> P (ListNCType t).
Hypothesis HDeque : forall t, P t -> P (DequeNCType t).
Hypothesis HSet : forall t, P t -> P (SetNCType t).
Hypothesis HFrozenSet : forall t, P t -> P (FrozenSetNCType t).
Hypothesis HDict : forall k w, P k -> P w -> P (DictNCType k w).
Hypothesis HDataclass : forall c fs,
  Forall (fun nf => P (snd nf)) fs -> P (DataclassNCType c fs).

Fixpoint nc_type_nested_ind (t : nc_type) : P t :=
  let all := fix all (l : list nc_type) : Forall P l :=
    match l with
    | [] => Forall_nil_2 _
    | x :: r => Forall_cons_2 _ _ _ (nc_type_nested_ind x) (all r)
    end in
  match t with
  | OptionalNCType t => HOptional t (nc_type_nested_ind t)
  | SignedDataNCType t => HSignedData t (nc_type_nested_ind t)
  | TupleVarNCType t => HTupleVar t (nc_type_nested_ind t)
  | TupleNCType ts => HTuple ts (all ts)
  | NamedTupleNCType n ts => HNamedTuple n ts (all ts)
  | ListNCType t => HList t (nc_type_nested_ind t)
  | DequeNCType t => HDeque t (nc_type_nested_ind t)
  | SetNCType t => HSet t (nc_type_nested_ind t)
  | FrozenSetNCType t => HFrozenSet t (nc_type_nested_ind t)
  | DictNCType k w => HDict k w (nc_type_nested_ind k) (nc_type_nested_ind w)
  | DataclassNCType c fs => HDataclass c fs
      ((fix go (l : list (string * nc_type)) : Forall (fun nf => P (snd nf)) l :=
        match l with
        | [] => Forall_nil_2 _
        | nf :: r => Forall_cons_2 _ _ _ (nc_type_nested_ind (snd nf)) (go r)
        end) fs)
  | BoolNCType => Hbase BoolNCType
  | StrNCType => Hbase StrNCType
  | BytesNCType => Hbase BytesNCType
  | BytesLikeNCType c => Hbase (BytesLikeNCType c)
  | AddressNCType => Hbase AddressNCType
  | Bytes32NCType c => Hbase (Bytes32NCType c)
  | TokenUidNCType => Hbase TokenUidNCType
  | CallerIdNCType => Hbase CallerIdNCType
  | NullNCType => Hbase NullNCType
  | Int32NCType => Hbase Int32NCType
  | Uint32NCType => Hbase Uint32NCType
  | Uint8NCType => Hbase Uint8NCType
  | TokenVersionNCType => Hbase TokenVersionNCType
  | VarInt32NCType => Hbase VarInt32NCType
  | VarUint32NCType => Hbase VarUint32NCType
  end.
End nc_type_ind.

Ltac nc_induction t := pattern t; apply nc_type_nested_ind; clear t.

(** * Boolean bookkeeping *)

(** split conjunctions of booleans in the hypotheses *)
Ltac split_bools :=
  repeat match goal with
  | H : (_ && _) = true |- _ => apply andb_true_iff in H as [? ?]
  | H : bool_decide _ = true |- _ => apply bool_decide_eq_true in H
  | H : String.eqb _ _ = true |- _ => apply String.eqb_eq in H
  | H : (_ =? _) = true |- _ => apply Z.eqb_eq in H
  end; subst.

Lemma is_bytes_of_inv c p v : is_bytes_of c p v = true -> exists bs, v = VBytes c bs /\ p bs = true.
Proof. destruct v; simpl; try done. intros H. split_bools. eauto. Qed.

Lemma is_int_in_inv lo hi v : is_int_in lo hi v = true -> exists z, v = VInt z /\ lo <= z < hi.
Proof. destruct v; simpl; try done. unfold in_range. intros H. eexists. split; [done|lia]. Qed.

(** the typing of a fixed-size tuple, componentwise *)
Fixpoint zip_types (ts : list nc_type) (l : list value) : bool :=
  match ts, l with
  | [], [] => true
  | t :: ts', x :: l' => has_type t x && zip_types ts' l'
  | _, _ => false
  end.

Fixpoint zip_fields (fts : list (string * nc_type)) (l : list (string * value)) : bool :=
  match fts, l with
  | [], [] => true
  | (n, t) :: fts', (n', x) :: l' => String.eqb n n' && has_type t x && zip_fields fts' l'
  | _, _ => false
  end.

Lemma has_type_tuple ts l : has_type (TupleNCType ts) (VTuple l) = zip_types ts l.
Proof. reflexivity. Qed.

Lemma has_type_namedtuple n ts n' l :
  has_type (NamedTupleNCType n ts) (VNamedTuple n' l) = String.eqb n n' && zip_types ts l.
Proof. reflexivity. Qed.

Lemma has_type_dataclass c fields c' fs :
  has_type (DataclassNCType c fields) (VDataclass c' fs) =
  bool_decide (c' = c) && names_distinct (map fst fields) && zip_fields fields fs.
Proof. reflexivity. Qed.

Lemma zip_types_length ts l : zip_types ts l = true -> length ts = length l.
Proof.
  revert l. induction ts as [|t ts IH]; intros [|x l]; simpl; try done.
  intros H. split_bools. f_equal. auto.
Qed.

Lemma zip_types_lookup ts l i t x :
  zip_types ts l = true -> ts !! i = Some t -> l !! i = Some x -> has_type t x = true.
Proof.
  revert l i. induction ts as [|t' ts IH]; intros [|x' l] [|i]; simpl; try done;
    intros H ??; split_bools; simplify_eq; eauto.
Qed.

Lemma forallb_lookup {A} (p : A -> bool) l i x : forallb p l = true -> l !! i = Some x -> p x = true.
Proof.
  intros H Hi. eapply forallb_forall; [exact H|]. apply list_elem_of_In.
  by eapply list_elem_of_lookup_2.
Qed.

(** * A typed value passes its check *)

Lemma check_zip_ok ts l :
  Forall (fun t => forall v, has_type t v = true -> check_value_ t true v = Ok tt) ts ->
  zip_types ts l = true -> check_zip l (map (fun t => check_value_ t true) ts) = Ok tt.
Proof.
  intros HF. revert l. induction HF as [|t ts Ht _ IH]; intros [|x l]; simpl; try done.
  intros H. split_bools. rewrite Ht by done. simpl. auto.
Qed.

Lemma rfor_check (p : value -> bool) (f : checker) l :
  (forall x, p x = true -> f x = Ok tt) -> forallb p l = true -> rfor l f = Ok tt.
Proof.
  intros Hf H. apply rfor_ok, Forall_forall. intros x Hx. apply Hf.
  eapply forallb_forall; [exact H|]. by apply list_elem_of_In.
Qed.

Lemma hashable_Hashable v : hashable v = true -> is_Hashable v = true.
Proof. destruct v; simpl; try done. intros H. by split_bools. Qed.

Lemma sized_int_check (signed : bool) (n : Z) z :
  0 < n ->
  (if signed then - 2 ^ (n * 8 - 1) <= z < 2 ^ (n * 8 - 1) else 0 <= z < 2 ^ (n * 8)) ->
  SizedInt.si_check_value signed n (VInt z) = Ok tt.
Proof.
  intros Hn Hz. unfold SizedInt.si_check_value, check_range. simpl.
  rewrite Z.gtb_ltb. destruct signed; repeat case_if; try done; lia.
Qed.

Lemma varint_check (signed : bool) (n : Z) z :
  0 < n -> leb_range signed n z -> VarInt.vi_check_value signed (Some n) (VInt z) = Ok tt.
Proof.
  intros Hn Hz. unfold VarInt.vi_check_value, VarInt.vi_upper_bound, VarInt.vi_lower_bound,
    check_range, leb_range in *. rewrite !(Z.mul_comm n 7).
  pose proof (Z.pow_le_mono_r 2 (7 * n - 1) (7 * n) ltac:(lia) ltac:(lia)).
  destruct signed; simpl; repeat case_if; try done; lia.
Qed.

Lemma set_check_ok (t : nc_type) l :
  (forall v deep, has_type t v = true -> check_value_ t deep v = Ok tt) ->
  forallb (has_type t) l = true -> forallb hashable l = true ->
  rfor l (Set_check_item (check_value_ t true)) = Ok tt.
Proof.
  intros IH H1 H2. apply rfor_ok, Forall_forall. intros x Hin%list_elem_of_In.
  eapply forallb_forall in H1; [|exact Hin]. eapply forallb_forall in H2; [|exact Hin].
  unfold Set_check_item. rewrite (hashable_Hashable x) by done. simpl. auto.
Qed.

Lemma leb_range_signed_32 z : - 2 ^ 223 <= z < 2 ^ 223 -> leb_range true VARINT_MAX_BYTE_SIZE z.
Proof. done. Qed.

Lemma leb_range_unsigned_32 z : 0 <= z < 2 ^ 224 -> leb_range false VARINT_MAX_BYTE_SIZE z.
Proof. done. Qed.

(** the scalar types *)
Lemma has_type_check_base t v deep :
  match t with
  | OptionalNCType _ | SignedDataNCType _ | TupleVarNCType _ | TupleNCType _
  | NamedTupleNCType _ _ | ListNCType _ | DequeNCType _ | SetNCType _
  | FrozenSetNCType _ | DictNCType _ _ | DataclassNCType _ _ => True
  | _ => has_type t v = true -> check_value_ t deep v = Ok tt
  end.
Proof.
  destruct t; try exact I; intros H; simpl in *.
  1,2,9,13: destruct v as [| | |[]| | | | | | | | | | | |]; done.
  all: try (apply is_bytes_of_inv in H as (bs & -> & H); unfold has_len in H).
  all: try (apply is_int_in_inv in H as (z & -> & H)).
  1,2: done.
  1,2: unfold Address_check_value, FixedSizeBytes_check_value; simpl; by rewrite H.
  - unfold TokenUid_check_value, has_len in *. simpl.
    destruct (bool_decide _); [done|]. simpl in H. by rewrite H.
  - apply orb_true_iff in H as [H|H]; apply is_bytes_of_inv in H as (bs & -> & H);
      unfold has_len in H; simpl; by rewrite H.
  - by apply sized_int_check.
  - by apply sized_int_check.
  - by apply sized_int_check.
  - by apply varint_check.
  - by apply varint_check.
Qed.

(** a typed value passes both the shallow and the deep check *)
Lemma has_type_check t : forall v deep, has_type t v = true -> check_value_ t deep v = Ok tt.
Proof.
  nc_induction t.
  - intros t. destruct t; try exact I; intros v deep;
      match goal with |- has_type ?t _ = true -> _ => exact (has_type_check_base t v deep) end.
  - intros t IH v deep H. simpl in *. destruct v; try done; destruct deep; simpl; auto.
  - intros t IH v deep H. simpl in *. destruct v; try done; destruct deep; simpl; auto.
  - intros t IH v deep H. simpl in *. destruct v; try done; destruct deep; simpl; [|done].
    eapply rfor_check; [|exact H]. auto.
  - intros ts IH v deep H. destruct v; try done. rewrite has_type_tuple in H.
    simpl. unfold Tuple_check_value. simpl. destruct deep; [|done].
    rewrite length_map, (zip_types_length _ _ H), Nat.eqb_refl. simpl.
    apply check_zip_ok; [|done]. eapply Forall_impl; [exact IH|]. auto.
  - intros n ts IH v deep H. destruct v; try done. rewrite has_type_namedtuple in H. split_bools.
    simpl. unfold NamedTuple_check_value. simpl.
    rewrite length_map, (zip_types_length ts l), Nat.eqb_refl by done. simpl.
    destruct deep; [|done]. apply check_zip_ok; [|done]. eapply Forall_impl; [exact IH|]. auto.
  - intros t IH v deep H. simpl in *. destruct v; try done; destruct deep; simpl; [|done].
    eapply rfor_check; [|exact H]. auto.
  - intros t IH v deep H. simpl in *. destruct v; try done; destruct deep; simpl; [|done].
    eapply rfor_check; [|exact H]. auto.
  - intros t IH v deep H. simpl in *. destruct v; try done; destruct deep; [|done]. split_bools.
    apply set_check_ok; auto.
  - intros t IH v deep H. simpl in *. destruct v; try done; destruct deep; [|done]. split_bools.
    apply set_check_ok; auto.
  - intros k w IHk IHw v deep H. simpl in *. destruct v; try done; destruct deep; simpl; [|done].
    split_bools. apply rfor_ok, Forall_forall. intros [k' v'] Hin%list_elem_of_In.
    eapply forallb_forall in H; [|exact Hin]. split_bools. simpl in *.
    rewrite IHk by done. simpl. auto.
  - intros c fs IH v deep H. destruct v; try done. rewrite has_type_dataclass in H. split_bools.
    simpl. by rewrite bool_decide_eq_true_2.
Qed.

(** * Round trip *)

Lemma codec_checked (chk : checker) (e : SM unit) (d : DM value) v :
  chk v = Ok tt -> codec e d v -> codec (lift (chk v) ;;; e) (checked chk d) v.
Proof.
  intros Hc He. eapply codec_map.
  - destruct He as [(bs & W & R)|F].
    + left. exists bs. split; [|exact R]. by eapply lift_writes.
    + right. rewrite Hc. exact F.
  - by rewrite Hc.
Qed.

(** builders, on the prefixes of the collection being rebuilt *)
Lemma list_builder_take {T} (l : list T) i x :
  l !! i = Some x -> b_add list_builder (take i l) x = Ok (take (S i) l).
Proof. intros H. simpl. by rewrite (take_S_r _ _ x). Qed.

Lemma set_builder_take l i x :
  forallb hashable l = true -> distinct l = true ->
  l !! i = Some x -> b_add set_builder (take i l) x = Ok (take (S i) l).
Proof.
  intros Hh Hd Hi. simpl. unfold set_add.
  rewrite (forallb_lookup _ _ _ _ Hh Hi). simpl.
  rewrite (take_S_r _ _ x) by done.
  rewrite existsb_distinct_snoc; [done|]. rewrite <- (take_S_r _ _ x) by done.
  rewrite <- (take_drop (S i) l) in Hd. by eapply distinct_app_l.
Qed.

Lemma dict_builder_take l i kv :
  forallb hashable (map fst l) = true -> distinct (map fst l) = true ->
  l !! i = Some kv -> b_add dict_builder (take i l) kv = Ok (take (S i) l).
Proof.
  intros Hh Hd Hi. destruct kv as [k v]. simpl. unfold dict_set.
  assert (Hk : map fst l !! i = Some k).
  { change (map fst l) with (fst <$> l). by rewrite list_lookup_fmap, Hi. }
  rewrite (forallb_lookup _ _ _ _ Hh Hk). simpl.
  rewrite (take_S_r _ _ (k, v)) by done. rewrite assoc_set_fresh; [done|].
  rewrite <- (take_drop (S i) l), map_app in Hd. apply distinct_app_l in Hd.
  by rewrite (take_S_r _ _ (k, v)), map_app in Hd.
Qed.

Lemma codec_collection_of l (e : Encoder value) (d : Decoder value) b mk :
  (forall x, x ∈ l -> codec (e x) d x) ->
  b_init b = [] -> (forall i x, l !! i = Some x -> b_add b (take i l) x = Ok (take (S i) l)) ->
  codec (encode_collection l e) (Collection_deserialize d b mk) (mk l).
Proof.
  intros Hc Hi Hb. eapply (codec_map _ _ _ (take (length l) l)).
  - apply (codec_collection _ _ _ _ (fun i => take i l)); [|by rewrite Hi|done].
    intros i x Hx. apply Hc. by eapply list_elem_of_lookup_2.
  - by rewrite firstn_all.
Qed.

Lemma codec_list_of (t : nc_type) l mk :
  (forall v, has_type t v = true -> codec (serialize t v) (deserialize t) v) ->
  forallb (has_type t) l = true ->
  codec (encode_collection l (serialize t)) (Collection_deserialize (deserialize t) list_builder mk) (mk l).
Proof.
  intros IH H. apply codec_collection_of; [|done|apply list_builder_take].
  intros x Hx%list_elem_of_In. apply IH. by eapply forallb_forall.
Qed.

Lemma codec_set_of (t : nc_type) l mk :
  (forall v, has_type t v = true -> codec (serialize t v) (deserialize t) v) ->
  forallb (has_type t) l && forallb hashable l && distinct l = true ->
  codec (encode_collection l (serialize t)) (Collection_deserialize (deserialize t) set_builder mk) (mk l).
Proof.
  intros IH H. split_bools. apply codec_collection_of; [|done|by intros; apply set_builder_take].
  intros x Hx%list_elem_of_In. apply IH. by eapply forallb_forall.
Qed.

Lemma codec_tuple_of (ts : list nc_type) l (mk : list value -> value) :
  Forall (fun t => forall v, has_type t v = true -> codec (serialize t v) (deserialize t) v) ts ->
  zip_types ts l = true ->
  codec (encode_tuple l (map serialize ts)) (Tuple_deserialize (map deserialize ts) mk) (mk l).
Proof.
  intros IH H. eapply codec_map; [|done]. apply codec_tuple; [by rewrite !length_map|].
  intros i v e d Hv He Hd.
  pose proof (list_lookup_fmap serialize ts i) as Es.
  pose proof (list_lookup_fmap deserialize ts i) as Ed.
  destruct (ts !! i) as [t|] eqn:Ht.
  2: { exfalso. assert (Some e = None) by (rewrite <- He; exact Es). done. }
  assert (Some e = Some (serialize t)) as [= ->] by (rewrite <- He; exact Es).
  assert (Some d = Some (deserialize t)) as [= ->] by (rewrite <- Hd; exact Ed).
  rewrite Forall_forall in IH. apply IH; [by eapply list_elem_of_lookup_2|].
  by eapply zip_types_lookup.
Qed.

Lemma field_get_skip n x fs m :
  String.eqb n m = false -> field_get m ((n, x) :: fs) = field_get m fs.
Proof. simpl. by intros ->. Qed.

(** the fields of a dataclass: reading them one by one finds each in its place *)
Lemma codec_fields (fts : list (string * nc_type)) fs all :
  Forall (fun nf => forall v, has_type (snd nf) v = true ->
            codec (serialize (snd nf) v) (deserialize (snd nf)) v) fts ->
  zip_fields fts fs = true ->
  (forall n x, (n, x) ∈ fs -> field_get n all = Ok x) ->
  codec (for_each (map (fun nf => (fst nf, serialize (snd nf))) fts)
          (fun nf => let! x := lift (field_get (fst nf) all) in snd nf x))
        (decode_fields (map (fun nf => (fst nf, deserialize (snd nf))) fts)) fs.
Proof.
  intros HF. revert fs. induction HF as [|[n t] fts Ht _ IH]; intros [|[n' x] fs]; simpl; try done;
    intros Hz Hall; [apply codec_ret|]. split_bools. simpl in *.
  eapply codec_seq.
  - rewrite (Hall n' x) by left. instantiate (1 := x). by apply Ht.
  - eapply codec_map; [|done]. apply IH; [done|]. intros m y Hm. apply Hall. by right.
Qed.

Lemma zip_fields_names fts fs : zip_fields fts fs = true -> map fst fts = map fst fs.
Proof.
  revert fs. induction fts as [|[n t] fts IH]; intros [|[n' x] fs]; simpl; try done.
  intros H. split_bools. f_equal. auto.
Qed.

Lemma field_get_distinct fs n x :
  names_distinct (map fst fs) = true -> (n, x) ∈ fs -> field_get n fs = Ok x.
Proof.
  induction fs as [|[m y] fs IH]; simpl; [by intros _ ?%not_elem_of_nil|].
  intros Hd [[= -> ->]|Hin]%elem_of_cons; [by rewrite String.eqb_refl|]. split_bools.
  destruct (String.eqb m n) eqn:E; [|by apply IH]. exfalso. apply String.eqb_eq in E as ->.
  assert (Hn : In n (map fst fs)).
  { apply in_map_iff. exists (n, x). split; [done|]. by apply list_elem_of_In. }
  eapply forallb_forall in H; [|exact Hn]. by rewrite String.eqb_refl in H.
Qed.

Lemma codec_varint signed z :
  codec (VarInt_serialize signed (Some VARINT_MAX_BYTE_SIZE) (VInt z))
        (VarInt_deserialize signed (Some VARINT_MAX_BYTE_SIZE)) (VInt z).
Proof.
  eapply codec_map; [|done]. apply codec_try; [apply overrun_value|].
  apply codec_max_bytes; [done|apply codec_leb128].
Qed.

Lemma codec_fixed_size c n bs :
  has_len bs n = true ->
  codec (FixedSizeBytes_serialize n (VBytes c bs)) (FixedSizeBytes_deserialize n c) (VBytes c bs).
Proof.
  intros H. eapply codec_map; [|done]. apply codec_assert. intros _.
  apply codec_write_bytes. by apply Z.eqb_eq.
Qed.

(** the inner [Bytes32NCType(bytes)] of [TokenUidNCType] *)
Lemma codec_token_uid bs :
  bool_decide (bs = HATHOR_TOKEN_UID) || has_len bs TOKEN_SIZE = true ->
  codec (TokenUid_serialize (fun x =>
           lift (FixedSizeBytes_check_value 32 x) ;;; FixedSizeBytes_serialize 32 x)
           (VBytes ClsTokenUid bs))
        (TokenUid_deserialize
           (checked (FixedSizeBytes_check_value 32) (FixedSizeBytes_deserialize 32 ClsBytes)))
        (VBytes ClsTokenUid bs).
Proof.
  intros H. unfold TokenUid_serialize, TokenUid_deserialize, with_bytes. cbn [as_bytes].
  case_bool_decide as Hn; simpl in H.
  - subst bs. eapply (codec_map _ _ _ None); [|done]. by apply codec_optional.
  - unfold encode_optional, decode_optional.
    eapply (codec_map _ _ _ (Some (VBytes ClsBytes bs))); [|done].
    eapply codec_seq; [apply codec_bool|]. cbv iota.
    eapply (codec_map _ _ _ (VBytes ClsBytes bs)); [|done]. unfold checked.
    assert (Hc : forall c, FixedSizeBytes_check_value 32 (VBytes c bs) = Ok tt).
    { intros c. unfold FixedSizeBytes_check_value. simpl. unfold has_len in H.
      change TOKEN_SIZE with 32 in H. by rewrite H. }
    rewrite Hc. eapply codec_map; [|cbv beta; by rewrite Hc].
    eapply codec_map; [|done]. apply codec_assert. intros _.
    apply codec_write_bytes. by apply Z.eqb_eq.
Qed.

(** the scalar types *)
Lemma codec_base t v : match t with
  | OptionalNCType _ | SignedDataNCType _ | TupleVarNCType _ | TupleNCType _
  | NamedTupleNCType _ _ | ListNCType _ | DequeNCType _ | SetNCType _
  | FrozenSetNCType _ | DictNCType _ _ | DataclassNCType _ _ => True
  | _ => has_type t v = true -> codec (serialize t v) (deserialize t) v
  end.
Proof.
  destruct t; try exact I; intros H; (apply codec_checked; [by apply has_type_check|]); simpl in H.
  1,2,9,13: destruct v; try done.
  all: try (apply is_bytes_of_inv in H as (bs & -> & H)).
  all: try (apply is_int_in_inv in H as (z & -> & H)).
  - eapply codec_map; [apply codec_bool|done].
  - eapply codec_map; [apply codec_max_bytes; [done|apply codec_utf8]|done].
  - apply codec_ret.
  - eapply codec_map; [apply codec_int; lia|]. cbv beta. by rewrite token_version_of_value.
  - eapply codec_map; [apply codec_max_bytes; [done|apply codec_bytes]|done].
  - eapply codec_map; [apply codec_max_bytes; [done|apply codec_bytes]|done].
  - by apply (codec_fixed_size ClsAddress ADDRESS_LEN_BYTES).
  - by apply codec_fixed_size.
  - by apply codec_token_uid.
  - apply codec_caller_id.
  - eapply codec_map; [apply codec_int; lia|done].
  - eapply codec_map; [apply codec_int; lia|done].
  - eapply codec_map; [apply codec_int; lia|done].
  - apply codec_varint.
  - apply codec_varint.
Qed.

(** the round trip of every type, by induction on the type *)
Lemma serialize_codec t : forall v,
  has_type t v = true -> codec (serialize t v) (deserialize t) v.
Proof.
  nc_induction t.
  - intros t. destruct t; try exact I; intros v;
      match goal with |- has_type ?t _ = true -> _ => exact (codec_base t v) end.
  - intros t IH v H. apply codec_checked; [by apply has_type_check|].
    eapply (codec_map _ _ _ (match v with VNone => None | _ => Some v end)); [|by destruct v].
    apply codec_optional. intros x Hx. destruct v; simplify_eq; by apply IH.
  - intros t IH v H. apply codec_checked; [by apply has_type_check|]. destruct v; try done.
    eapply codec_map; [apply codec_signed_data; by apply IH|done].
  - intros t IH v H. apply codec_checked; [by apply has_type_check|]. destruct v; try done.
    by apply codec_list_of.
  - intros ts IH v H. apply codec_checked; [by apply has_type_check|]. destruct v; try done.
    by apply codec_tuple_of.
  - intros n ts IH v H. apply codec_checked; [by apply has_type_check|]. destruct v; try done.
    rewrite has_type_namedtuple in H. split_bools. by apply codec_tuple_of.
  - intros t IH v H. apply codec_checked; [by apply has_type_check|]. destruct v; try done.
    by apply codec_list_of.
  - intros t IH v H. apply codec_checked; [by apply has_type_check|]. destruct v; try done.
    by apply codec_list_of.
  - intros t IH v H. apply codec_checked; [by apply has_type_check|]. destruct v; try done.
    by apply codec_set_of.
  - intros t IH v H. apply codec_checked; [by apply has_type_check|]. destruct v; try done.
    by apply codec_set_of.
  - intros k w IHk IHw v H. apply codec_checked; [by apply has_type_check|]. destruct v; try done.
    simpl in H. split_bools. eapply (codec_map _ _ _ (take (length l) l)); [|by rewrite firstn_all].
    apply (codec_mapping _ _ _ _ _ _ (fun i => take i l)); [|done|by intros; apply dict_builder_take].
    intros i k' v' Hi. eapply forallb_lookup in H; [|exact Hi]. split_bools. auto.
  - intros c fs IH v H. apply codec_checked; [by apply has_type_check|]. destruct v; try done.
    rewrite has_type_dataclass in H. split_bools. eapply codec_map; [|done].
    apply codec_fields; [done|done|]. intros n x. apply field_get_distinct.
    by erewrite <- zip_fields_names.
Qed.

(** C18: for every nano-contract type and every value of that type, serialization
    either raises on every open serializer, or writes bytes that deserialization
    reads back, consuming exactly them, as the same value. *)
Theorem nc_type_roundtrip t v :
  has_type t v = true -> codec (serialize t v) (deserialize t) v.
Proof. apply serialize_codec. Qed.

Lemma nc_type_roundtrip_witness :
  codec (serialize (DictNCType StrNCType (TupleNCType [VarInt32NCType; BoolNCType]))
           (VDict [(VStr [97], VTuple [VInt (-5); VBool true])]))
        (deserialize (DictNCType StrNCType (TupleNCType [VarInt32NCType; BoolNCType])))
        (VDict [(VStr [97], VTuple [VInt (-5); VBool true])]).
Proof. apply nc_type_roundtrip. vm_compute. reflexivity. Defined.
