(* ===== verification/NCTypeSafety.v ===== *)
(** Safety of the nano-contract types: whatever bytes it is given,
    deserialization returns only values of the type, and serialization succeeds
    on every value of the type that respects the documented size limits. *)

From stdpp Require Import base list strings.
From Stdlib Require Import ZArith Lia.
From S2P Require Import Prelude PyInt Serializer Deserializer Leb128 Encoding PyValue Compound NCTypes.
From S2P Require Import NCTypeTheory.

Local Open Scope Z_scope.
Local Open Scope py_scope.

(** * What a decoder can return *)

(** [yields m P]: on any deserializer, [m] returns only values satisfying [P] *)
Definition yields {A} (m : DM A) (P : A -> Prop) : Prop :=
  forall d a d', m d = (Ok a, d') -> P a.

Section yields.
Context {A B : Type}.

Lemma yields_ret (a : A) (P : A -> Prop) : P a -> yields (ret a) P.
Proof. intros H d x d' [= <- <-]. done. Qed.

Lemma yields_bind (m : DM A) (f : A -> DM B) P Q :
  yields m P -> (forall a, P a -> yields (f a) Q) -> yields (bind m f) Q.
Proof. intros Hm Hf d b d' H. inv_ok H. eapply Hf; [|exact H]. by eapply Hm. Qed.

Lemma yields_lift (r : result A) (P : A -> Prop) :
  (forall a, r = Ok a -> P a) -> yields (lift r) P.
Proof. intros H d a d' [= -> <-]. auto. Qed.

Lemma yields_any (m : DM A) : yields m (fun _ => True).
Proof. done. Qed.

Lemma yields_impl (m : DM A) (P Q : A -> Prop) :
  yields m P -> (forall a, P a -> Q a) -> yields m Q.
Proof. intros Hm H d a d' E. apply H. by eapply Hm. Qed.
End yields.

Lemma yields_build_loop {T R} n (item : DM T) (b : builder T R) (P : T -> Prop) (I : R -> Prop) acc :
  yields item P ->
  (forall r x r', I r -> P x -> b_add b r x = Ok r' -> I r') ->
  I acc -> yields (build_loop n item b acc) I.
Proof.
  intros Hi Hb. revert acc. induction n as [|n IH]; intros acc Hacc; simpl.
  - by apply yields_ret.
  - eapply yields_bind; [exact Hi|]. intros x Hx.
    eapply yields_bind; [|intros r Hr; by apply IH].
    apply yields_lift. intros r Hr. by eapply Hb.
Qed.

(** a decoder followed by a wrapper that reads nothing *)
Lemma yields_map {A} (m : DM A) (mk : A -> value) (P : A -> Prop) (Q : value -> Prop) :
  yields m P -> (forall a, P a -> Q (mk a)) -> yields (let! a := m in ret (mk a)) Q.
Proof. intros Hm H. eapply yields_bind; [exact Hm|]. intros a Ha. apply yields_ret. auto. Qed.

Lemma yields_checked chk m P : yields m P -> yields (checked chk m) P.
Proof.
  intros Hm. eapply yields_bind; [exact Hm|]. intros v Hv.
  eapply yields_bind; [apply yields_any|]. intros _ _. by apply yields_ret.
Qed.

Lemma yields_read_bytes n : yields (read_bytes n true) (fun bs => blen bs = n).
Proof. intros d bs d' H. by apply read_bytes_ok in H as [? _]. Qed.

Lemma yields_decode_int len signed :
  (0 < len)%nat -> yields (decode_int len signed) (fun z => int_fits z len signed).
Proof.
  intros Hl. eapply yields_bind; [apply yields_read_bytes|]. intros bs Hbs.
  apply yields_ret. unfold blen in Hbs.
  replace len with (length bs) by lia. apply int_from_bytes_fits. by destruct bs; [simpl in *; lia|].
Qed.

(** the byte limit bounds the integers a limited LEB128 read can return *)
Lemma yields_varint signed n :
  1 <= n ->
  yields (VarInt_deserialize signed (Some n))
    (fun v => exists z, v = VInt z /\ leb_range signed n z).
Proof.
  intros Hn. eapply (yields_map _ _ (leb_range signed n)); [|by eauto].
  intros d z d' H. apply try_raise_ok, des_with_max_bytes_ok in H as (d'' & H & _).
  apply decode_leb128_ok in H as (k & Hk & Hb & Hf & Hz).
  rewrite Hb in Hf. simpl in Hf. inversion Hf; subst.
  eapply leb_range_mono; [|exact Hz]. lia.
Qed.

(** * Builders *)

Lemma distinct_snoc l x :
  distinct l = true -> existsb (fun y => py_eqb y x) l = false -> distinct (l ++ [x]) = true.
Proof.
  induction l as [|y l IH]; simpl; [done|].
  intros [H1 H2]%andb_true_iff [Hy Hl]%orb_false_iff.
  rewrite forallb_app, H1, IH by done. simpl. by rewrite Hy.
Qed.

Lemma assoc_set_fst l k v :
  map fst (assoc_set l k v) =
  if existsb (fun y => py_eqb y k) (map fst l) then map fst l else map fst l ++ [k].
Proof.
  induction l as [|[k' v'] l IH]; simpl; [done|].
  destruct (py_eqb k' k); simpl; [done|]. rewrite IH. by destruct (existsb _ _).
Qed.

Definition set_inv (p : value -> bool) (l : list value) : Prop :=
  forallb p l && forallb hashable l && distinct l = true.

Lemma set_add_inv p l x l' :
  set_inv p l -> p x = true -> set_add l x = Ok l' -> set_inv p l'.
Proof.
  unfold set_inv, set_add. intros H Hp. split_bools.
  destruct (hashable x) eqn:Hh; simpl; [|done].
  destruct (existsb _ l) eqn:He; intros [= <-]; [by repeat (apply andb_true_iff; split)|].
  rewrite !forallb_app. simpl. rewrite Hp, Hh.
  repeat (apply andb_true_iff; split); try done. by apply distinct_snoc.
Qed.

Definition dict_inv (p q : value -> bool) (l : list (value * value)) : Prop :=
  Forall (fun k => p k = true) (map fst l) /\ Forall (fun v => q v = true) (map snd l) /\
  set_inv p (map fst l).

Lemma assoc_set_snd (P : value -> Prop) l k v :
  Forall P (map snd l) -> P v -> Forall P (map snd (assoc_set l k v)).
Proof.
  intros Hl Hv. induction l as [|[k0 v0] l IH]; simpl; [by constructor|].
  inversion Hl; subst. destruct (py_eqb k0 k); simpl; constructor; auto.
Qed.

Lemma forallb_Forall {A} (p : A -> bool) l : forallb p l = true <-> Forall (fun x => p x = true) l.
Proof. rewrite forallb_forall, List.Forall_forall. done. Qed.

Lemma dict_set_inv p q l kv l' :
  dict_inv p q l -> p (fst kv) = true /\ q (snd kv) = true -> dict_set l kv = Ok l' ->
  dict_inv p q l'.
Proof.
  destruct kv as [k v]. unfold dict_set. simpl. intros (Hp & Hq & Hs) [Hk Hv].
  destruct (hashable k) eqn:Hh; simpl; [|done]. intros [= <-].
  assert (Hs' : set_inv p (map fst (assoc_set l k v))).
  { apply (set_add_inv p (map fst l) k); [done..|]. unfold set_add. rewrite Hh, assoc_set_fst. simpl.
    by destruct (existsb _ _). }
  split; [|split; [by apply assoc_set_snd|done]].
  unfold set_inv in Hs'. split_bools. by apply forallb_Forall.
Qed.

(** * Deserialization is sound *)

(** the keys of [DataclassNCType._fields], a dictionary, are distinct *)
Fixpoint wf_type (t : nc_type) : bool :=
  match t with
  | OptionalNCType t | SignedDataNCType t | TupleVarNCType t | ListNCType t | DequeNCType t
  | SetNCType t | FrozenSetNCType t => wf_type t
  | TupleNCType ts | NamedTupleNCType _ ts => forallb wf_type ts
  | DictNCType k w => wf_type k && wf_type w
  | DataclassNCType _ fs =>
      names_distinct (map fst fs) && forallb (fun nf => let '(_, t) := nf in wf_type t) fs
  | _ => true
  end.

Abbreviation sound t := (yields (deserialize t) (fun v => has_type t v = true)).

Lemma yields_collection (d : Decoder value) b mk (P : value -> Prop) (I : list value -> Prop) Q :
  yields d P -> I (b_init b) -> (forall r x r', I r -> P x -> b_add b r x = Ok r' -> I r') ->
  (forall l, I l -> Q (mk l)) -> yields (Collection_deserialize d b mk) Q.
Proof.
  intros Hd Hi Hb HQ. eapply (yields_map _ _ I); [|done].
  eapply yields_bind; [apply yields_any|]. intros n _. by eapply yields_build_loop.
Qed.

Lemma yields_list t mk (Q : value -> Prop) :
  sound t -> (forall l, forallb (has_type t) l = true -> Q (mk l)) ->
  yields (Collection_deserialize (deserialize t) list_builder mk) Q.
Proof.
  intros Ht HQ. eapply (yields_collection _ _ _ _ (fun l => forallb (has_type t) l = true));
    [exact Ht|done| |done].
  simpl. intros r x r' Hr Hx [= <-]. by rewrite forallb_app, Hr; simpl; rewrite Hx.
Qed.

Lemma yields_set t mk (Q : value -> Prop) :
  sound t -> (forall l, set_inv (has_type t) l -> Q (mk l)) ->
  yields (Collection_deserialize (deserialize t) set_builder mk) Q.
Proof.
  intros Ht HQ. eapply (yields_collection _ _ _ _ (set_inv (has_type t))); [exact Ht|done| |done].
  simpl. intros r x r'. apply set_add_inv.
Qed.

Lemma yields_tuple ts :
  Forall (fun t => wf_type t = true -> sound t) ts -> forallb wf_type ts = true ->
  yields (decode_tuple (map deserialize ts)) (fun l => zip_types ts l = true).
Proof.
  intros HF. induction HF as [|t ts Ht _ IH]; simpl; intros Hw; [by apply yields_ret|].
  split_bools. eapply yields_bind; [by apply Ht|]. intros x Hx. simpl in Hx.
  eapply yields_bind; [by apply IH|]. intros l Hl. apply yields_ret. by rewrite Hx, Hl.
Qed.

Lemma yields_fields fs :
  Forall (fun nf => wf_type (snd nf) = true -> sound (snd nf)) fs ->
  forallb (fun nf => let '(_, t) := nf in wf_type t) fs = true ->
  yields (decode_fields (map (fun nf => (fst nf, deserialize (snd nf))) fs))
    (fun l => zip_fields fs l = true).
Proof.
  intros HF. induction HF as [|[n t] ts Ht _ IH]; simpl; intros Hw; [by apply yields_ret|].
  split_bools. eapply yields_bind; [by apply Ht|]. intros x Hx. simpl in Hx.
  eapply yields_bind; [by apply IH|]. intros l Hl. apply yields_ret.
  by rewrite String.eqb_refl, Hx, Hl.
Qed.

Lemma yields_dict k w :
  sound k -> sound w ->
  yields (Map_deserialize (deserialize k) (deserialize w))
    (fun v => has_type (DictNCType k w) v = true).
Proof.
  intros Hk Hw. eapply (yields_map _ _ (dict_inv (has_type k) (has_type w))).
  - eapply yields_bind; [apply yields_any|]. intros n _.
    eapply (yields_build_loop _ _ _ (fun kv => has_type k (fst kv) = true /\ has_type w (snd kv) = true)).
    + eapply yields_bind; [exact Hk|]. intros x Hx.
      eapply yields_bind; [exact Hw|]. intros y Hy. by apply yields_ret.
    + simpl. intros r kv r'. apply dict_set_inv.
    + repeat split; constructor.
  - intros l (Hp & Hq & Hs). unfold set_inv in Hs. split_bools. simpl. rewrite H1, H0, !andb_true_r.
    apply forallb_Forall. clear -Hp Hq. induction l as [|[x y] l IH]; [constructor|].
    inversion Hp; inversion Hq; subst. constructor; [|auto]. simpl in *. by rewrite H1, H5.
Qed.

Lemma yields_sized_int signed len lo hi :
  (0 < len)%nat -> (forall z, int_fits z len signed -> lo <= z < hi) ->
  yields (SizedInt_deserialize signed len) (fun v => is_int_in lo hi v = true).
Proof.
  intros Hl H. eapply yields_map; [by apply yields_decode_int|]. intros z Hz%H.
  simpl. unfold in_range. lia.
Qed.

Lemma yields_bytes_of c n p :
  (forall bs, blen bs = n -> p bs = true) ->
  yields (FixedSizeBytes_deserialize n c) (fun v => is_bytes_of c p v = true).
Proof.
  intros Hp. eapply yields_map; [apply yields_read_bytes|]. intros bs Hbs.
  simpl. by rewrite bool_decide_eq_true_2, Hp.
Qed.

Lemma yields_token_uid :
  yields (TokenUid_deserialize
    (checked (FixedSizeBytes_check_value 32) (FixedSizeBytes_deserialize 32 ClsBytes)))
    (fun v => has_type TokenUidNCType v = true).
Proof.
  eapply (yields_map _ _ (fun o => forall v, o = Some v -> exists bs, v = VBytes ClsBytes bs /\ blen bs = 32)).
  - eapply yields_bind; [apply yields_any|]. intros b _. destruct b.
    + eapply yields_bind; [apply yields_checked, (yields_bytes_of _ _ (fun bs => blen bs =? 32))|].
      { intros bs ->. done. }
      intros v (bs & -> & Hb)%is_bytes_of_inv. apply yields_ret. intros v [= <-].
      exists bs. split; [done|]. by apply Z.eqb_eq.
    + by apply yields_ret.
  - intros [v|] H; [|done]. destruct (H v eq_refl) as (bs & -> & Hb). simpl. unfold has_len.
    change TOKEN_SIZE with 32. rewrite Hb. by destruct (bool_decide (bs = _)).
Qed.

Lemma yields_caller_id : yields decode_caller_id (fun v => has_type CallerIdNCType v = true).
Proof.
  eapply yields_bind; [apply yields_any|]. intros [] _; eapply yields_map;
    try apply yields_read_bytes; intros bs Hb; simpl; unfold has_len; rewrite Hb; done.
Qed.

Lemma sound_base t : match t with
  | OptionalNCType _ | SignedDataNCType _ | TupleVarNCType _ | TupleNCType _
  | NamedTupleNCType _ _ | ListNCType _ | DequeNCType _ | SetNCType _
  | FrozenSetNCType _ | DictNCType _ _ | DataclassNCType _ _ => True
  | _ => sound t
  end.
Proof.
  destruct t; try exact I; apply yields_checked; cbn [has_type].
  - eapply yields_map; [apply yields_any|done].
  - eapply yields_map; [apply yields_any|done].
  - eapply yields_map; [apply yields_any|done].
  - eapply yields_map; [apply yields_any|]. intros bs _. simpl. by rewrite bool_decide_eq_true_2.
  - apply (yields_bytes_of ClsAddress ADDRESS_LEN_BYTES). intros bs. apply Z.eqb_eq.
  - apply yields_bytes_of. intros bs. apply Z.eqb_eq.
  - apply yields_token_uid.
  - apply yields_caller_id.
  - by apply yields_ret.
  - apply yields_sized_int; [lia|]. intros z Hz. exact Hz.
  - apply yields_sized_int; [lia|]. intros z Hz. exact Hz.
  - apply yields_sized_int; [lia|]. intros z Hz. exact Hz.
  - eapply yields_bind; [apply yields_any|]. intros z _.
    eapply yields_bind; [apply yields_any|]. intros v _. by apply yields_ret.
  - eapply yields_impl; [by apply yields_varint|]. intros v (z & -> & Hz).
    assert (- 2 ^ 223 <= z < 2 ^ 223) by exact Hz. unfold is_int_in, in_range. lia.
  - eapply yields_impl; [by apply yields_varint|]. intros v (z & -> & Hz).
    assert (0 <= z < 2 ^ 224) by exact Hz. unfold is_int_in, in_range. lia.
Qed.

Lemma deserialize_typed t : wf_type t = true -> sound t.
Proof.
  nc_induction t.
  - intros t. destruct t; try exact I; intros _;
      match goal with |- yields (deserialize ?t) _ => exact (sound_base t) end.
  - intros t IH Hw. apply yields_checked.
    eapply (yields_map _ _ (fun o => forall v, o = Some v -> has_type t v = true)).
    + eapply yields_bind; [apply yields_any|]. intros [] _; [|by apply yields_ret].
      eapply yields_bind; [by apply IH|]. intros v Hv. apply yields_ret. by intros ? [= <-].
    + intros [v|] H; [|done]. simpl. destruct v; auto.
  - intros t IH Hw. apply yields_checked. eapply (yields_map _ _ (fun p => has_type t (fst p) = true)); [|done].
    eapply yields_bind; [by apply IH|]. intros x Hx.
    eapply yields_bind; [apply yields_any|]. intros s _. by apply yields_ret.
  - intros t IH Hw. apply yields_checked. by apply yields_list; [apply IH|].
  - intros ts IH Hw. apply yields_checked. by eapply yields_map; [apply yields_tuple|].
  - intros n ts IH Hw. apply yields_checked. eapply yields_map; [by apply yields_tuple|].
    intros l Hl. rewrite has_type_namedtuple, String.eqb_refl. done.
  - intros t IH Hw. apply yields_checked. by apply yields_list; [apply IH|].
  - intros t IH Hw. apply yields_checked. by apply yields_list; [apply IH|].
  - intros t IH Hw. apply yields_checked. by apply yields_set; [apply IH|].
  - intros t IH Hw. apply yields_checked. by apply yields_set; [apply IH|].
  - intros k w IHk IHw Hw. simpl in Hw. split_bools. apply yields_checked. apply yields_dict; auto.
  - intros c fs IH Hw. simpl in Hw. split_bools. apply yields_checked.
    eapply yields_map; [by apply yields_fields|]. intros l Hl.
    by rewrite has_type_dataclass, bool_decide_eq_true_2, H, Hl.
Qed.

(** * Serialization succeeds within the limits *)

(** every string can be encoded, and no string or byte string exceeds the
    64 KiB, length prefix included, that [StrNCType] and [BytesNCType] allow *)
Fixpoint within_limits (v : value) : bool :=
  match v with
  | VStr s =>
      match utf8_encode s with
      | Ok bs => blen (lp_bytes bs) <=? DEFAULT_BYTES_MAX_LENGTH
      | Err _ => false
      end
  | VBytes _ bs => blen (lp_bytes bs) <=? DEFAULT_BYTES_MAX_LENGTH
  | VTuple l | VNamedTuple _ l | VList l | VDeque l | VSet l | VFrozenSet l =>
      forallb within_limits l
  | VDict l => forallb (fun kv => let '(k, x) := kv in within_limits k && within_limits x) l
  | VSignedData d _ => within_limits d
  | VDataclass _ fs => forallb (fun nf => let '(_, x) := nf in within_limits x) fs
  | _ => true
  end.

Definition good (e : SM unit) : Prop := exists bs, writes e bs.

Lemma good_seq e1 e2 : good e1 -> good e2 -> good (e1 ;;; e2).
Proof. intros [bs1 H1] [bs2 H2]. exists (bs1 ++ bs2). by apply writes_bind. Qed.

Lemma good_ret : good (ret tt).
Proof. exists []. apply writes_ret. Qed.

Lemma good_lift {A} (r : result A) a (k : A -> SM unit) : r = Ok a -> good (k a) -> good (bind (lift r) k).
Proof. intros Hr [bs H]. exists bs. by eapply lift_writes. Qed.

Lemma good_assert b e : b = true -> good e -> good (py_assert b ;;; e).
Proof. by intros ->. Qed.

Lemma good_bool b : good (encode_bool b).
Proof. eexists. apply encode_bool_writes. Qed.

Lemma good_bytes bs : good (encode_bytes bs).
Proof. eexists. apply encode_bytes_writes. Qed.

Lemma good_write bs : good (write_bytes bs).
Proof. eexists. apply write_bytes_writes. Qed.

Lemma good_leb signed z : signed = true \/ 0 <= z -> good (encode_leb128 signed z).
Proof. intros. eexists. by apply encode_leb128_writes. Qed.

Lemma good_for_each {A} (l : list A) (f : A -> SM unit) :
  (forall x, x ∈ l -> good (f x)) -> good (for_each l f).
Proof.
  induction l as [|x l IH]; intros H; simpl; [apply good_ret|].
  apply good_seq; [apply H; left|]. apply IH. intros y Hy. apply H. by right.
Qed.

Lemma good_collection {A} (l : list A) (f : A -> SM unit) :
  (forall x, x ∈ l -> good (f x)) -> good (encode_collection l f).
Proof. intros H. apply good_seq; [apply good_leb; lia|by apply good_for_each]. Qed.

Create HintDb good.
#[export] Hint Resolve good_seq good_ret good_bool good_bytes good_write good_collection : good.

Lemma good_zip ts l :
  Forall (fun t => forall v, has_type t v = true -> within_limits v = true -> good (serialize t v)) ts ->
  zip_types ts l = true -> forallb within_limits l = true ->
  good (encode_tuple l (map serialize ts)).
Proof.
  intros HF Hz Hw. apply good_assert.
  { rewrite length_map. apply Nat.eqb_eq. symmetry. by apply zip_types_length. }
  revert l Hz Hw. induction HF as [|t ts Ht _ IH]; intros [|x l]; simpl; try done; [intros; apply good_ret|].
  intros Hz Hw. split_bools. apply good_seq; auto.
Qed.

Lemma good_items t (l : list value) :
  (forall v, has_type t v = true -> within_limits v = true -> good (serialize t v)) ->
  forallb (has_type t) l = true -> forallb within_limits l = true ->
  good (encode_collection l (serialize t)).
Proof.
  intros IH Ht Hw. apply good_collection. intros x Hx%list_elem_of_In.
  apply IH; by eapply forallb_forall.
Qed.

Lemma good_fields (fts : list (string * nc_type)) fs all :
  Forall (fun nf => forall v, has_type (snd nf) v = true -> within_limits v = true ->
            good (serialize (snd nf) v)) fts ->
  zip_fields fts fs = true -> forallb (fun nf => let '(_, x) := nf in within_limits x) fs = true ->
  (forall n x, (n, x) ∈ fs -> field_get n all = Ok x) ->
  good (for_each (map (fun nf => (fst nf, serialize (snd nf))) fts)
          (fun nf => let! x := lift (field_get (fst nf) all) in snd nf x)).
Proof.
  intros HF. revert fs. induction HF as [|[n t] fts Ht _ IH]; intros [|[n' x] fs]; simpl; try done;
    intros Hz Hw Hall; [apply good_ret|]. split_bools. simpl in *.
  apply good_seq; [|eapply IH; [done..|]; intros m y Hm; apply Hall; by right].
  eapply good_lift; [apply Hall; left|]. auto.
Qed.

Lemma good_varint signed n z :
  1 <= n -> signed = true \/ 0 <= z -> leb_range signed n z ->
  good (VarInt_serialize signed (Some n) (VInt z)).
Proof.
  intros Hn Hs Hz. exists (leb128 signed z). apply try_raise_writes; [by right|].
  apply ser_with_max_bytes_writes; [lia|by apply encode_leb128_writes|by apply leb128_length].
Qed.

Lemma good_int z len signed : int_fits z len signed -> good (encode_int z len signed).
Proof. intros Hz. eexists. by apply encode_int_writes. Qed.

Lemma good_checked (chk : checker) v e : chk v = Ok tt -> good e -> good (lift (chk v) ;;; e).
Proof. intros Hc He. by eapply good_lift. Qed.

Lemma good_max_bytes bs : blen (lp_bytes bs) <= DEFAULT_BYTES_MAX_LENGTH ->
  good (ser_with_max_bytes DEFAULT_BYTES_MAX_LENGTH (encode_bytes bs)).
Proof.
  intros H. eexists. apply ser_with_max_bytes_writes; [done|apply encode_bytes_writes|done].
Qed.

Lemma good_str s : within_limits (VStr s) = true ->
  good (ser_with_max_bytes DEFAULT_BYTES_MAX_LENGTH (encode_utf8 s)).
Proof.
  simpl. destruct (utf8_encode s) as [bs|] eqn:E; [|done]. intros H%Z.leb_le.
  exists (lp_bytes bs). apply ser_with_max_bytes_writes; [done| |done].
  eapply lift_writes; [exact E|]. apply encode_bytes_writes.
Qed.

Lemma good_token_uid bs :
  bool_decide (bs = HATHOR_TOKEN_UID) || has_len bs TOKEN_SIZE = true ->
  good (TokenUid_serialize (fun x =>
     lift (FixedSizeBytes_check_value 32 x) ;;; FixedSizeBytes_serialize 32 x)
     (VBytes ClsTokenUid bs)).
Proof.
  unfold TokenUid_serialize, with_bytes. cbn [as_bytes].
  case_bool_decide as Hn; simpl; intros H; [apply good_bool|].
  assert (Hl : (blen bs =? 32) = true) by exact H.
  apply good_seq; [apply good_bool|]. eapply good_lift.
  - unfold FixedSizeBytes_check_value. simpl. by rewrite Hl.
  - apply good_assert; [done|apply good_write].
Qed.

Lemma good_base t v : match t with
  | OptionalNCType _ | SignedDataNCType _ | TupleVarNCType _ | TupleNCType _
  | NamedTupleNCType _ _ | ListNCType _ | DequeNCType _ | SetNCType _
  | FrozenSetNCType _ | DictNCType _ _ | DataclassNCType _ _ => True
  | _ => has_type t v = true -> within_limits v = true -> good (serialize t v)
  end.
Proof.
  destruct t; try exact I; intros H Hw; (apply good_checked; [by apply has_type_check|]); simpl in H.
  1,2,9,13: destruct v; try done.
  all: try (apply is_bytes_of_inv in H as (bs & -> & H)).
  all: try (apply is_int_in_inv in H as (z & -> & H)).
  - apply good_bool.
  - by apply good_str.
  - apply good_ret.
  - apply good_int. by destruct v.
  - apply good_max_bytes. by apply Z.leb_le.
  - apply good_max_bytes. by apply Z.leb_le.
  - apply good_assert; [done|apply good_write].
  - apply good_assert; [done|apply good_write].
  - by apply good_token_uid.
  - apply orb_true_iff in H as [(bs & -> & H)%is_bytes_of_inv|(bs & -> & H)%is_bytes_of_inv];
      (apply good_assert; [done|]); auto with good.
  - by apply good_int.
  - by apply good_int.
  - by apply good_int.
  - apply good_varint; [done|by left|done].
  - apply good_varint; [done|right; lia|done].
Qed.

Lemma serialize_good t : forall v,
  has_type t v = true -> within_limits v = true -> good (serialize t v).
Proof.
  nc_induction t.
  - intros t. destruct t; try exact I; intros v;
      match goal with |- has_type ?t _ = true -> _ => exact (good_base t v) end.
  - intros t IH v H Hw. apply good_checked; [by apply has_type_check|].
    simpl in H. unfold Optional_serialize, encode_optional. destruct v; auto with good.
  - intros t IH v H Hw. apply good_checked; [by apply has_type_check|]. destruct v; try done.
    apply good_seq; [by apply IH|apply good_bytes].
  - intros t IH v H Hw. apply good_checked; [by apply has_type_check|]. destruct v; try done.
    by apply good_items.
  - intros ts IH v H Hw. apply good_checked; [by apply has_type_check|]. destruct v; try done.
    by apply good_zip.
  - intros n ts IH v H Hw. apply good_checked; [by apply has_type_check|]. destruct v; try done.
    rewrite has_type_namedtuple in H. split_bools. by apply good_zip.
  - intros t IH v H Hw. apply good_checked; [by apply has_type_check|]. destruct v; try done.
    by apply good_items.
  - intros t IH v H Hw. apply good_checked; [by apply has_type_check|]. destruct v; try done.
    by apply good_items.
  - intros t IH v H Hw. apply good_checked; [by apply has_type_check|]. destruct v; try done.
    simpl in H. split_bools. by apply good_items.
  - intros t IH v H Hw. apply good_checked; [by apply has_type_check|]. destruct v; try done.
    simpl in H. split_bools. by apply good_items.
  - intros k w IHk IHw v H Hw. apply good_checked; [by apply has_type_check|]. destruct v; try done.
    simpl in H, Hw. split_bools. apply good_seq; [apply good_leb; lia|].
    apply good_for_each. intros [k' v'] Hx%list_elem_of_In.
    eapply forallb_forall in H; [|exact Hx]. eapply forallb_forall in Hw; [|exact Hx].
    simpl in *. split_bools. apply good_seq; auto.
  - intros c fs IH v H Hw. apply good_checked; [by apply has_type_check|]. destruct v; try done.
    rewrite has_type_dataclass in H. split_bools.
    eapply good_fields; [done..|]. intros n x. apply field_get_distinct.
    by erewrite <- zip_fields_names.
Qed.

(** what [to_bytes] and [from_bytes] do with a type's encoder and decoder *)
Lemma to_bytes_writes t v bs : writes (serialize t v) bs -> to_bytes t v = Ok bs.
Proof. intros (s' & E & F)%writes_run. unfold to_bytes. by rewrite E. Qed.

Lemma from_bytes_reads t v bs : reads (deserialize t) bs v -> from_bytes t bs = Ok v.
Proof.
  intros H. apply (reads_run _ _ []) in H. rewrite app_nil_r in H.
  unfold from_bytes. by rewrite (bind_ok _ _ _ _ _ H).
Qed.

Lemma good_codec {A} (e : SM unit) (d : DM A) a :
  good e -> codec e d a -> exists bs, writes e bs /\ reads d bs a.
Proof.
  intros [bs W] [H|F]; [done|]. apply writes_run in W as (s & E & _).
  apply fails_run in F as (e' & s' & E'). congruence.
Qed.

(** whatever [to_bytes] returned is read back *)
Lemma to_from_bytes t v bs : to_bytes t v = Ok bs -> has_type t v = true -> from_bytes t bs = Ok v.
Proof.
  intros E Ht. destruct (serialize_codec t v Ht) as [(bs' & W & R)|F].
  - rewrite (to_bytes_writes _ _ _ W) in E. simplify_eq. by apply from_bytes_reads.
  - apply fails_run in F as (e & s' & Es). unfold to_bytes in E. by rewrite Es in E.
Qed.

(** [to_bytes] succeeds on every value of the type within the size limits, and
    [from_bytes] returns that value from the bytes. *)
Theorem nc_type_to_from_bytes t v :
  has_type t v = true -> within_limits v = true ->
  exists bs, to_bytes t v = Ok bs /\ from_bytes t bs = Ok v.
Proof.
  intros Ht Hw. destruct (good_codec (serialize t v) (deserialize t) v) as (bs & W & R).
  - by apply serialize_good.
  - by apply serialize_codec.
  - exists bs. split; [by apply to_bytes_writes|by apply from_bytes_reads].
Qed.

Lemma nc_type_to_from_bytes_witness :
  exists bs, to_bytes (TupleNCType [VarInt32NCType; OptionalNCType StrNCType; SetNCType BytesNCType])
      (VTuple [VInt (-300); VStr [233; 128512]; VSet [VBytes ClsBytes [Byte.x01]]]) = Ok bs /\
    from_bytes (TupleNCType [VarInt32NCType; OptionalNCType StrNCType; SetNCType BytesNCType]) bs =
      Ok (VTuple [VInt (-300); VStr [233; 128512]; VSet [VBytes ClsBytes [Byte.x01]]]).
Proof. apply nc_type_to_from_bytes; vm_compute; reflexivity. Defined.

(** C37: on any input whatsoever, deserialization returns only values of the type,
    which then also pass the deep [check_value]. *)
Theorem nc_type_deserialize_sound t d v d' :
  wf_type t = true -> deserialize t d = (Ok v, d') ->
  has_type t v = true /\ check_value t v = Ok tt.
Proof.
  intros Hw H. assert (Ht : has_type t v = true) by (eapply deserialize_typed; eauto).
  split; [done|]. by apply has_type_check.
Qed.

Lemma nc_type_deserialize_sound_witness :
  has_type (SetNCType VarUint32NCType) (VSet [VInt 5; VInt 6]) = true /\
  check_value (SetNCType VarUint32NCType) (VSet [VInt 5; VInt 6]) = Ok tt.
Proof.
  eapply (nc_type_deserialize_sound _ (build_bytes_deserializer (map z2b [3; 5; 6; 5])));
    vm_compute; reflexivity.
Defined.

(** [VarInt32NCType] accepts the integers in [-2^224, -2^223) in [check_value]
    but raises [ValueError] when it serializes them: its lower bound allows one
    bit more than 32 bytes of signed LEB128 hold. *)
Theorem varint32_check_gap z :
  - 2 ^ 224 <= z < - 2 ^ 223 ->
  check_value VarInt32NCType (VInt z) = Ok tt /\
  to_bytes VarInt32NCType (VInt z) = Err ValueError.
Proof.
  intros Hz.
  assert (Hc : check_value_ VarInt32NCType true (VInt z) = Ok tt).
  { simpl. unfold VarInt.vi_check_value, check_range, VarInt.vi_upper_bound, VarInt.vi_lower_bound.
    cbn [as_int negb]. change (VARINT_MAX_BYTE_SIZE * 7 - 1) with 223.
    change (VARINT_MAX_BYTE_SIZE * 7) with 224. rewrite Z.gtb_ltb.
    repeat case_if; try done; lia. }
  split; [exact Hc|].
  destruct (ser_with_max_bytes_overrun VARINT_MAX_BYTE_SIZE (encode_leb128 true z)
    (leb128 true z) build_bytes_serializer) as (e & s' & E & He).
  - done.
  - by apply encode_leb128_writes; left.
  - apply Z.nle_gt. rewrite leb128_length by (by auto || done). unfold leb_range.
    change (7 * VARINT_MAX_BYTE_SIZE - 1) with 223. lia.
  - apply ready_build.
  - unfold to_bytes. cbn [serialize]. unfold bind, lift. change (check_value_ VarInt32NCType false (VInt z))
      with (check_value_ VarInt32NCType true (VInt z)). rewrite Hc.
    unfold VarInt_serialize, with_int, try_raise. cbn [as_int ser_with_optional_max_bytes].
    rewrite E. by destruct He as [-> | ->].
Qed.

Lemma varint32_check_gap_witness :
  check_value VarInt32NCType (VInt (- 2 ^ 223 - 1)) = Ok tt /\
  to_bytes VarInt32NCType (VInt (- 2 ^ 223 - 1)) = Err ValueError.
Proof. apply varint32_check_gap. split; [discriminate|reflexivity]. Defined.

(** * Hashability *)

Fixpoint no_signed_data (t : nc_type) : bool :=
  match t with
  | SignedDataNCType _ => false
  | OptionalNCType t | TupleVarNCType t | ListNCType t | DequeNCType t
  | SetNCType t | FrozenSetNCType t => no_signed_data t
  | TupleNCType ts | NamedTupleNCType _ ts => forallb no_signed_data ts
  | DictNCType k w => no_signed_data k && no_signed_data w
  | DataclassNCType _ fs => forallb (fun nf => let '(_, t) := nf in no_signed_data t) fs
  | _ => true
  end.

Lemma hashable_zip ts l :
  Forall (fun t => forall v, no_signed_data t = true -> is_hashable t = true ->
            has_type t v = true -> hashable v = true) ts ->
  forallb no_signed_data ts = true -> forallb is_hashable ts = true ->
  zip_types ts l = true -> forallb hashable l = true.
Proof.
  intros HF. revert l. induction HF as [|t ts Ht _ IH]; intros [|x l]; simpl; try done.
  intros. split_bools. rewrite Ht by done. simpl. auto.
Qed.

Lemma is_hashable_ok t : forall v,
  no_signed_data t = true -> is_hashable t = true -> has_type t v = true -> hashable v = true.
Proof.
  nc_induction t.
  - intros t. destruct t; try exact I; intros v _ _ H; simpl in H;
      try (apply orb_true_iff in H as [H|H]);
      try (apply is_bytes_of_inv in H as (? & -> & _));
      try (apply is_int_in_inv in H as (? & -> & _)); try done; by destruct v.
  - intros t IH v Hn Hh H. simpl in *. destruct v; auto.
  - done.
  - intros t IH v Hn Hh H. simpl in *. destruct v; try done. simpl.
    apply forallb_Forall. apply forallb_Forall in H. eapply Forall_impl; [exact H|]. auto.
  - intros ts IH v Hn Hh H. destruct v; try done. by eapply hashable_zip.
  - intros n ts IH v Hn Hh H. destruct v; try done. rewrite has_type_namedtuple in H. split_bools.
    by eapply hashable_zip.
  - done.
  - done.
  - done.
  - intros t IH v Hn Hh H. by destruct v.
  - done.
  - done.
Qed.

(** Where no [SignedData] occurs, a type that reports [is_hashable] has only
    values Python can hash, so they can be members of sets and keys of dictionaries. *)
Theorem is_hashable_sound t v :
  no_signed_data t = true -> is_hashable t = true -> has_type t v = true ->
  hashable v = true /\ is_Hashable v = true.
Proof. intros. assert (hashable v = true) by (by eapply is_hashable_ok). auto using hashable_Hashable. Qed.

Lemma is_hashable_sound_witness :
  hashable (VTuple [VInt 1; VStr [97]]) = true /\ is_Hashable (VTuple [VInt 1; VStr [97]]) = true.
Proof.
  apply (is_hashable_sound (TupleNCType [VarInt32NCType; StrNCType])); vm_compute; reflexivity.
Defined.

(** [SignedDataNCType] reports its value hashable when the inner type is, but no
    [SignedData] is: no non-empty set of signed data passes [check_value]. *)
Lemma signed_data_unhashable t x s l :
  is_hashable (SignedDataNCType t) = is_hashable t /\
  hashable (VSignedData x s) = false /\
  check_value (SetNCType (SignedDataNCType t)) (VSet (VSignedData x s :: l)) = Err TypeError.
Proof. done. Qed.
