(* ===== verification/PatriciaTrie.v ===== *)
(** The Patricia trie of [hathor/nanocontracts/storage/patricia_trie.py]: nodes
    addressed by a Merkle hash, updates that copy the path to the root, and the
    store interface of [backends.py] it is written against. *)

From stdpp Require Import base list gmap sorting.
From Stdlib Require Import ZArith Lia Strings.Byte.
From S2P Require Import Prelude.

Local Open Scope Z_scope.
Local Open Scope py_scope.

(** * Nodes *)

(** [DictChildren]: a dictionary, as the list of its items in insertion order *)
Abbreviation DictChildren := (list (bytes * bytes)) (only parsing).

(** [a.startswith(b)] *)
Fixpoint startswith (a b : bytes) : bool :=
  match b, a with
  | [], _ => true
  | y :: b', x :: a' => bool_decide (x = y) && startswith a' b'
  | _ :: _, [] => false
  end.

Fixpoint find_prefix (children : DictChildren) (a : bytes) : option (bytes * bytes) :=
  match children with
  | [] => None
  | (key, node_id) :: r => if startswith a key then Some (key, node_id) else find_prefix r a
  end.

(** item access, assignment and deletion *)
Abbreviation dget := (od_get (K := bytes) (A := bytes)).
Abbreviation dset := (od_set (K := bytes) (A := bytes)).
Abbreviation ddel := (od_del (K := bytes) (A := bytes)).

Record Node : Type := mkNode {
  n_key : bytes;
  n_length : Z;
  n_content : option bytes;
  n_children : DictChildren;
  n_id : option bytes
}.

(** [Node.id] *)
Definition node_id (n : Node) : result bytes :=
  match n_id n with Some i => Ok i | None => Err AssertionError end.

(** [Node.copy(content=...)] *)
Definition node_copy (n : Node) (content : option bytes) (children : option DictChildren) : Node :=
  mkNode (n_key n) (n_length n)
    (match content with Some c => Some c | None => n_content n end)
    (default (n_children n) children) None.

(** ordering of [bytes] objects *)
Fixpoint bytes_leb (a b : bytes) : bool :=
  match a, b with
  | [], _ => true
  | _ :: _, [] => false
  | x :: a', y :: b' =>
      (b2z x <? b2z y) || (bool_decide (x = y) && bytes_leb a' b')
  end.

Fixpoint insert_sorted (x : bytes) (l : list bytes) : list bytes :=
  match l with
  | [] => [x]
  | y :: r => if bytes_leb x y then x :: l else y :: insert_sorted x r
  end.

(** [sorted(l)] *)
Definition sorted (l : list bytes) : list bytes := foldr insert_sorted [] l.

(** the bytes [calculate_id] feeds to the hash, in order *)
Definition preimage (key : bytes) (content : option bytes) (ids : list bytes) : bytes :=
  key ++ default [] content ++ concat ids.

(** [d == d'] *)
Definition children_eqb (d d' : DictChildren) : bool :=
  Nat.eqb (length d) (length d') &&
  forallb (fun kv => bool_decide (dget d' (fst kv) = Some (snd kv))) d.

(** [Node.__eq__], generated by [@dataclass] *)
Definition node_eqb (n m : Node) : bool :=
  bool_decide (n_key n = n_key m) && (n_length n =? n_length m) &&
  bool_decide (n_content n = n_content m) && children_eqb (n_children n) (n_children m) &&
  bool_decide (n_id n = n_id m).

Section hash.
(** [hashlib.sha256(x).digest()] *)
Variable sha256 : bytes -> bytes.

Definition calculate_id (n : Node) : bytes :=
  sha256 (preimage (n_key n) (n_content n) (sorted (map snd (n_children n)))).

Definition update_id (n : Node) : result Node :=
  match n_id n with
  | None => Ok (mkNode (n_key n) (n_length n) (n_content n) (n_children n) (Some (calculate_id n)))
  | Some _ => Err AssertionError
  end.
End hash.

(** * Keys *)

Definition hex_digit (z : Z) : byte := z2b (if z <? 10 then 48 + z else 87 + z).

(** [key.hex().encode('ascii')] *)
Definition _encode_key (key : bytes) : bytes :=
  flat_map (fun b => [hex_digit (b2z b / 16); hex_digit (b2z b mod 16)]) key.

(** a digit [bytes.fromhex] accepts *)
Definition unhex_digit (b : byte) : option Z :=
  let c := b2z b in
  if (48 <=? c) && (c <? 58) then Some (c - 48)
  else if (97 <=? c) && (c <? 103) then Some (c - 87)
  else if (65 <=? c) && (c <? 71) then Some (c - 55)
  else None.

Fixpoint fromhex (s : bytes) : result bytes :=
  match s with
  | [] => Ok []
  | h :: l :: r =>
      match unhex_digit h, unhex_digit l with
      | Some a, Some b => let? rest := fromhex r in Ok (z2b (16 * a + b) :: rest)
      | _, _ => Err ValueError
      end
  | [_] => Err ValueError
  end.

Definition _decode_key (key : bytes) : result bytes :=
  fromhex (if Nat.odd (length key) then key ++ [z2b 48] else key).

Example encode_decode_key :
  _decode_key (_encode_key (map z2b [1; 171; 255])) = Ok (map z2b [1; 171; 255]).
Proof. vm_compute. reflexivity. Qed.

Fixpoint lcp_loop (i n : nat) (a b : bytes) : Z :=
  match n, a, b with
  | S n', x :: a', y :: b' =>
      if bool_decide (x = y) then lcp_loop (S i) n' a' b' else Z.of_nat i - 1
  | _, _, _ => Z.of_nat i - 1
  end.

(** the index of the last byte of the longest common prefix, [-1] if there is none *)
Definition _find_longest_common_prefix (a b : bytes) : Z :=
  lcp_loop 0 (Nat.min (length a) (length b)) a b.

(** * The store *)

(** [NodeTrieStore]: the operations of the abstract class *)
Class NodeTrieStore (DB : Type) : Type := {
  db_getitem : DB -> bytes -> result Node;
  db_setitem : DB -> bytes -> Node -> result DB;
  db_contains : DB -> bytes -> bool
}.

(** * The trie *)

Record trie : Type := mkTrie { _local_changes : gmap bytes Node; root : Node }.

(** an item of [log_path] or [new_nodes] *)
Abbreviation path_item := (bytes * Node)%type (only parsing).

Section trie_ops.
Variable sha256 : bytes -> bytes.
Context {DB : Type} `{!NodeTrieStore DB}.

(** [PatriciaTrie(store, root_id=root_id)] *)
Definition trie_init (root_id : option bytes) : M DB trie := fun db =>
  match root_id with
  | None =>
      match update_id sha256 (mkNode [] 0 None [] None) with
      | Err e => (Err e, db)
      | Ok r =>
          match node_id r with
          | Err e => (Err e, db)
          | Ok i =>
              match db_setitem db i r with
              | Err e => (Err e, db)
              | Ok db' => (Ok (mkTrie ∅ r), db')
              end
          end
      end
  | Some i =>
      match db_getitem db i with
      | Err e => (Err e, db)
      | Ok r => if bool_decide (n_id r = Some i) then (Ok (mkTrie ∅ r), db)
                else (Err AssertionError, db)
      end
  end.

Definition get_node (db : DB) (tr : trie) (i : bytes) : result Node :=
  match _local_changes tr !! i with
  | Some n => Ok n
  | None => db_getitem db i
  end.

Definition _add_to_db_or_assert (node : Node) : M DB unit := fun db =>
  match node_id node with
  | Err e => (Err e, db)
  | Ok i =>
      if db_contains db i then
        match db_getitem db i with
        | Err e => (Err e, db)
        | Ok n => if node_eqb n node then (Ok tt, db) else (Err AssertionError, db)
        end
      else
        match db_setitem db i node with
        | Err e => (Err e, db)
        | Ok db' => (Ok tt, db')
        end
  end.

Fixpoint _commit_dfs (fuel : nat) (local : gmap bytes Node) (node : Node) : M DB unit :=
  match fuel with
  | O => raise OutOfFuel
  | S fuel' =>
      _add_to_db_or_assert node ;;;
      for_each (map snd (n_children node)) (fun child_id =>
        match local !! child_id with
        | Some child => _commit_dfs fuel' local child
        | None => fun db => py_assert (db_contains db child_id) db
        end)
  end.

(** keys grow along a path, so no path is longer than the longest key *)
Definition commit_fuel (tr : trie) : nat :=
  S (list_max (map (fun n => length (n_key n)) (root tr :: (map_to_list (_local_changes tr)).*2))).

Definition commit : M (DB * trie) unit := fun s =>
  let '(db, tr) := s in
  let '(r, db') := _commit_dfs (commit_fuel tr) (_local_changes tr) (root tr) db in
  match r with
  | Ok _ => (Ok tt, (db', mkTrie ∅ (root tr)))
  | Err e => (Err e, (db', tr))
  end.

(** [_iter_dfs]: the nodes in the order they are yielded, with their height *)
Fixpoint _iter_dfs (fuel : nat) (db : DB) (tr : trie) (node : Node) (depth : Z) :
    result (list (Node * Z * bool)) :=
  match fuel with
  | O => Err OutOfFuel
  | S fuel' =>
      let is_leaf := match n_children node with [] => true | _ => false end in
      let? rest := (fix go (cs : DictChildren) : result (list (Node * Z * bool)) :=
        match cs with
        | [] => Ok []
        | (_, child_id) :: r =>
            let? child := get_node db tr child_id in
            let? l := _iter_dfs fuel' db tr child (depth + 1) in
            let? l' := go r in
            Ok (l ++ l')
        end) (n_children node) in
      Ok ((node, depth, is_leaf) :: rest)
  end.

Definition rollback (tr : trie) : trie := mkTrie ∅ (root tr).

Definition is_dirty (tr : trie) : bool := negb (bool_decide (_local_changes tr = ∅)).

(** the loop of [_find_nearest_node]; also returns [log_path] *)
Fixpoint nearest_loop (fuel : nat) (db : DB) (tr : trie) (key : bytes)
    (last_match : bytes) (node : Node) (log_path : list path_item) :
    result (Node * list path_item) :=
  match fuel with
  | O => Err OutOfFuel
  | S fuel' =>
      let log_path := log_path ++ [(last_match, node)] in
      if bool_decide (n_key node = key) then Ok (node, log_path)
      else
        let suffix := drop (Z.to_nat (n_length node)) key in
        match find_prefix (n_children node) suffix with
        | None => Ok (node, log_path)
        | Some (last_match, next_node_id) =>
            let? node := get_node db tr next_node_id in
            nearest_loop fuel' db tr key last_match node log_path
        end
  end.

Definition _find_nearest_node (db : DB) (tr : trie) (key : bytes) (root_id : option bytes) :
    result (Node * list path_item) :=
  let? node := match root_id with None => Ok (root tr) | Some i => get_node db tr i end in
  nearest_loop (S (length key)) db tr key [] node [].

(** the first loop of [_build_path], over [log_path[::-1]] *)
Fixpoint copy_path (rev_log_path : list path_item) (prev_suffix : bytes) :
    result (list path_item) :=
  match rev_log_path with
  | [] => Ok []
  | (suffix, node) :: r =>
      let new_node := node_copy node None None in
      let? children := ddel (n_children new_node) prev_suffix in
      let new_node := node_copy new_node None (Some children) in
      let? rest := copy_path r suffix in
      Ok ((suffix, new_node) :: rest)
  end.

(** the second loop: link each node to the previous one, hash it, store it *)
Fixpoint link_path (l : list path_item) (prev : option path_item) : M trie unit := fun tr =>
  match l with
  | [] =>
      match prev with
      | None => (Err AssertionError, tr)
      | Some (_, n) => (Ok tt, mkTrie (_local_changes tr) n)
      end
  | (suffix, node) :: r =>
      let linked :=
        match prev with
        | None => Ok node
        | Some (prev_suffix, p) =>
            let? i := node_id p in
            Ok (mkNode (n_key node) (n_length node) (n_content node)
                  (dset (n_children node) prev_suffix i) (n_id node))
        end in
      match (let? node := linked in
             let? node := update_id sha256 node in
             let? i := node_id node in Ok (i, node)) with
      | Err e => (Err e, tr)
      | Ok (i, node) =>
          link_path r (Some (suffix, node)) (mkTrie (<[i := node]> (_local_changes tr)) (root tr))
      end
  end.

Definition _build_path (log_path new_nodes : list path_item) : M trie unit :=
  let! prev_suffix := lift (match new_nodes with [] => Err IndexError | (s, _) :: _ => Ok s end) in
  let! log_path_copy := lift (copy_path (rev log_path) prev_suffix) in
  link_path (rev new_nodes ++ log_path_copy) None.

(** the [for] loop of [_update]: the first child that shares a prefix *)
Fixpoint find_shared (suffix : bytes) (children : DictChildren) : option (bytes * bytes * Z) :=
  match children with
  | [] => None
  | (k, v) :: r =>
      let idx := _find_longest_common_prefix suffix k in
      if idx <? 0 then find_shared suffix r else Some (k, v, idx)
  end.

Definition leaf (key content : bytes) : Node :=
  mkNode key (blen key) (Some content) [] None.

(** [new_nodes] of [_update], from the nearest node *)
Definition update_nodes (key content : bytes) (parent_match : bytes) (parent : Node) :
    result (list path_item) :=
  if bool_decide (n_key parent = key) then
    Ok [(parent_match, node_copy parent (Some content) None)]
  else
    let plen := Z.to_nat (n_length parent) in
    let suffix := drop plen key in
    match find_shared suffix (n_children parent) with
    | Some (k, v, idx) =>
        let n := S (Z.to_nat idx) in
        let common_key := take (plen + n) key in
        let common_key_suffix := take n suffix in
        let split := mkNode common_key (blen common_key) None [(drop n k, v)] None in
        let? parent_children_copy := ddel (n_children parent) k in
        let parent_copy := node_copy parent None (Some parent_children_copy) in
        if bool_decide (n_key split = key) then
          let split := mkNode common_key (blen common_key) (Some content) [(drop n k, v)] None in
          Ok [(parent_match, parent_copy); (common_key_suffix, split)]
        else
          let suffix := drop (Z.to_nat (n_length split)) key in
          Ok [(parent_match, parent_copy); (common_key_suffix, node_copy split None None);
              (suffix, leaf key content)]
    | None =>
        Ok [(parent_match, node_copy parent None None); (suffix, leaf key content)]
    end.

Definition _update (db : DB) (key content : bytes) : M trie unit := fun tr =>
  match _find_nearest_node db tr key None with
  | Err e => (Err e, tr)
  | Ok (parent, log_path) =>
      match rev log_path with
      | [] => (Err IndexError, tr)
      | (parent_match, _) :: rlog =>
          match update_nodes key content parent_match parent with
          | Err e => (Err e, tr)
          | Ok new_nodes => _build_path (rev rlog) new_nodes tr
          end
      end
  end.

Definition _get (db : DB) (tr : trie) (key : bytes) (root_id : option bytes) : result bytes :=
  match key with
  | [] => Err KeyError
  | _ =>
      let? r := _find_nearest_node db tr key root_id in
      let node := fst r in
      if bool_decide (n_key node = key) then
        match n_content node with Some c => Ok c | None => Err KeyError end
      else Err KeyError
  end.

Definition update (db : DB) (key content : bytes) : M trie unit :=
  _update db (_encode_key key) content.

Definition get (db : DB) (tr : trie) (key : bytes) (root_id : option bytes) : result bytes :=
  _get db tr (_encode_key key) root_id.

Definition has_key (db : DB) (tr : trie) (key : bytes) (root_id : option bytes) : result bool :=
  match get db tr key root_id with
  | Ok _ => Ok true
  | Err KeyError => Ok false
  | Err e => Err e
  end.
End trie_ops.
