(* ===== verification/NodeStore.v ===== *)
(** Storing trie nodes: the [NodeNCType] codec of [node_nc_type.py], the
    [RocksDBNodeTrieStore] of [backends.py] on top of it, and the laws a
    [NodeTrieStore] must obey, which the RocksDB store is shown to obey. *)

From stdpp Require Import base list gmap strings.
From Stdlib Require Import ZArith Lia.
From S2P Require Import Prelude PyInt Serializer Deserializer Leb128 Encoding PyValue Compound NCTypes.
From S2P Require Import NCTypeTheory PatriciaTrie.

Local Open Scope Z_scope.
Local Open Scope py_scope.

(** * [NodeNCType]

    [NodeId] is a [NewType] of [bytes]: at run time its values are plain bytes. *)

Module NodeNCType.
Definition _key : nc_type := BytesNCType.
Definition _length : nc_type := VarUint32NCType.
Definition _content : nc_type := OptionalNCType BytesNCType.
Definition _children : nc_type := DictNCType BytesNCType (BytesLikeNCType ClsBytes).
Definition _id : nc_type := BytesLikeNCType ClsBytes.

Definition of_bytes (bs : bytes) : value := VBytes ClsBytes bs.

Definition of_content (c : option bytes) : value :=
  match c with Some bs => of_bytes bs | None => VNone end.

Definition of_children (d : list (bytes * bytes)) : value :=
  VDict (map (fun kv => (of_bytes (fst kv), of_bytes (snd kv))) d).

(** the attributes of the rebuilt node; the types of the fields were checked *)
Definition to_bytes_ (v : value) : bytes := default [] (as_bytes v).

Definition to_content (v : value) : option bytes := as_bytes v.

Definition to_length (v : value) : Z := default 0 (as_int v).

Definition to_children (v : value) : list (bytes * bytes) :=
  match v with VDict l => map (fun kv => (to_bytes_ (fst kv), to_bytes_ (snd kv))) l | _ => [] end.

Definition node_serialize (node : Node) : SM unit :=
  serialize _key (of_bytes (n_key node)) ;;;
  serialize _length (VInt (n_length node)) ;;;
  serialize _content (of_content (n_content node)) ;;;
  serialize _children (of_children (n_children node)) ;;;
  let! i := lift (node_id node) in
  serialize _id (of_bytes i).

Definition node_deserialize : DM Node :=
  let! key := deserialize _key in
  let! length := deserialize _length in
  let! content := deserialize _content in
  let! children := deserialize _children in
  let! id_ := deserialize _id in
  ret (mkNode (to_bytes_ key) (to_length length) (to_content content) (to_children children)
    (Some (to_bytes_ id_))).
End NodeNCType.

(** * [RocksDBNodeTrieStore] *)

(** the column family of a RocksDB database: what the store relies on *)
Class RocksDB (R : Type) : Type := {
  rdb_get : R -> bytes -> option bytes;
  rdb_put : R -> bytes -> bytes -> R
}.

Class RocksDBLaws (R : Type) `{!RocksDB R} : Prop := {
  rdb_get_put : forall r k v, rdb_get (rdb_put r k v) k = Some v;
  rdb_get_put_ne : forall r k k' v, k <> k' -> rdb_get (rdb_put r k v) k' = rdb_get r k'
}.

Section rocksdb_store.
Context {R : Type} `{!RocksDB R}.

Definition _serialize_node (node : Node) : result bytes :=
  let '(r, serializer) := NodeNCType.node_serialize node build_bytes_serializer in
  let? _ := r in fst (ser_finalize serializer).

Definition _deserialize_node (node_bytes : bytes) : result Node :=
  fst ((let! node := NodeNCType.node_deserialize in des_finalize ;;; ret node)
    (build_bytes_deserializer node_bytes)).

Definition rocksdb_getitem (db : R) (key : bytes) : result Node :=
  match rdb_get db key with
  | None => Err KeyError
  | Some item_bytes => _deserialize_node item_bytes
  end.

Definition rocksdb_setitem (db : R) (key : bytes) (item : Node) : result R :=
  let? item_bytes := _serialize_node item in Ok (rdb_put db key item_bytes).

Definition rocksdb_contains (db : R) (key : bytes) : bool :=
  match rdb_get db key with Some _ => true | None => false end.

#[export] Instance RocksDBNodeTrieStore : NodeTrieStore R := {
  db_getitem := rocksdb_getitem;
  db_setitem := rocksdb_setitem;
  db_contains := rocksdb_contains
}.
End rocksdb_store.

(** an in-memory database, for evaluation *)
#[export] Instance gmap_rocksdb : RocksDB (gmap bytes bytes) := {
  rdb_get := fun r k => r !! k;
  rdb_put := fun r k v => <[k := v]> r
}.

#[export] Instance gmap_rocksdb_laws : RocksDBLaws (gmap bytes bytes).
Proof. split; intros; simpl; [by rewrite lookup_insert_eq|by rewrite lookup_insert_ne]. Qed.
