(* ===== verification/TrieHash.v ===== *)
(** Hashing of trie nodes: sorting of child ids, hexadecimal keys, and what the
    trie relies on of its hash: that the nodes it meets have different digests.
    The preimage of a digest does not delimit key, content and child ids, so this
    is a condition on the nodes and not only on SHA-256. *)

From stdpp Require Import base list gmap sorting.
From Stdlib Require Import ZArith Lia Strings.Byte.
From S2P Require Import Prelude PatriciaTrie.

Local Open Scope Z_scope.

(** * Sorting *)

Definition bytes_le (a b : bytes) : Prop := bytes_leb a b = true.

#[export] Instance bytes_le_dec a b : Decision (bytes_le a b).
Proof. unfold bytes_le. apply _. Defined.

Lemma bytes_leb_cons x y a b :
  bytes_leb (x :: a) (y :: b) = true <-> b2z x < b2z y \/ (x = y /\ bytes_leb a b = true).
Proof.
  simpl. rewrite orb_true_iff, andb_true_iff, Z.ltb_lt, bool_decide_eq_true. done.
Qed.

#[export] Instance bytes_le_total : Total bytes_le.
Proof.
  intros a. unfold bytes_le. induction a as [|x a IH]; intros [|y b]; [by left..|by right|].
  rewrite !bytes_leb_cons. destruct (Z.lt_trichotomy (b2z x) (b2z y)) as [H|[H%b2z_inj|H]]; [tauto| |tauto].
  destruct (IH b); naive_solver.
Qed.

#[export] Instance bytes_le_trans : Transitive bytes_le.
Proof.
  intros a. unfold bytes_le. induction a as [|x a IH]; intros [|y b] [|z c]; try done.
  rewrite !bytes_leb_cons. intros [H|[-> H]] [H'|[-> H']]; [left; lia|tauto|tauto|].
  right. split; [done|]. by eapply IH.
Qed.

#[export] Instance bytes_le_antisymm : AntiSymm (=) bytes_le.
Proof.
  intros a. unfold bytes_le. induction a as [|x a IH]; intros [|y b]; try done.
  rewrite !bytes_leb_cons. intros [H|[-> H]] [H'|[E H']]; try lia; subst; try lia. f_equal. auto.
Qed.

Lemma insert_sorted_perm x l : insert_sorted x l ≡ₚ x :: l.
Proof.
  induction l as [|y l IH]; simpl; [done|]. destruct (bytes_leb x y); [done|].
  rewrite IH. by rewrite Permutation_swap.
Qed.

Lemma sorted_perm l : sorted l ≡ₚ l.
Proof. induction l as [|x l IH]; simpl; [done|]. by rewrite insert_sorted_perm, IH. Qed.

Lemma insert_sorted_ordered x l : StronglySorted bytes_le l -> StronglySorted bytes_le (insert_sorted x l).
Proof.
  induction 1 as [|y l Hl IH Hy]; simpl; [by repeat constructor|].
  destruct (bytes_leb x y) eqn:E.
  - constructor; [by constructor|]. constructor; [done|].
    eapply Forall_impl; [exact Hy|]. intros z Hz. by etrans; [exact E|].
  - constructor; [done|]. rewrite insert_sorted_perm. constructor; [|done].
    destruct (bytes_le_total x y); [|done]. unfold bytes_le in *. congruence.
Qed.

Lemma sorted_ordered l : StronglySorted bytes_le (sorted l).
Proof. induction l as [|x l IH]; simpl; [constructor|]. by apply insert_sorted_ordered. Qed.

#[export] Instance sorted_proper : Proper (Permutation ==> eq) sorted.
Proof.
  intros l l' H. eapply (StronglySorted_unique bytes_le); [apply sorted_ordered..|].
  by rewrite !sorted_perm.
Qed.

(** * Hexadecimal keys *)

Definition is_hex (b : byte) : bool := match unhex_digit b with Some _ => true | None => false end.

Definition hexkey (k : bytes) : Prop := Forall (fun b => is_hex b = true) k.

Lemma unhex_hex z : 0 <= z < 16 -> unhex_digit (hex_digit z) = Some z.
Proof.
  intros Hz. unfold unhex_digit, hex_digit.
  destruct (Z.ltb_spec z 10); rewrite b2z_z2b_small by lia.
  - rewrite (proj2 (Z.leb_le 48 (48 + z))), (proj2 (Z.ltb_lt (48 + z) 58)) by lia. simpl. f_equal. lia.
  - rewrite (proj2 (Z.ltb_ge (87 + z) 58)), andb_false_r by lia.
    rewrite (proj2 (Z.leb_le 97 (87 + z))), (proj2 (Z.ltb_lt (87 + z) 103)) by lia. simpl. f_equal. lia.
Qed.

Lemma nibbles b : 0 <= b2z b / 16 < 16 /\ 0 <= b2z b mod 16 < 16 /\ 16 * (b2z b / 16) + b2z b mod 16 = b2z b.
Proof.
  pose proof (b2z_range b). pose proof (Z.div_mod (b2z b) 16 ltac:(lia)).
  pose proof (Z.mod_pos_bound (b2z b) 16 ltac:(lia)). lia.
Qed.

Lemma hexkey_encode k : hexkey (_encode_key k).
Proof.
  unfold hexkey. induction k as [|b k IH]; simpl; [constructor|].
  destruct (nibbles b) as (? & ? & _).
  repeat constructor; [unfold is_hex; by rewrite unhex_hex..|done].
Qed.

Lemma fromhex_encode k : fromhex (_encode_key k) = Ok k.
Proof.
  induction k as [|b k IH]; [done|]. cbn [_encode_key flat_map app fromhex].
  destruct (nibbles b) as (? & ? & E). rewrite !unhex_hex by done.
  fold (_encode_key k). rewrite IH. simpl. by rewrite E, z2b_b2z.
Qed.

Lemma length_encode_key k : length (_encode_key k) = (2 * length k)%nat.
Proof. induction k as [|b k IH]; simpl; [done|]. fold (_encode_key k). rewrite IH. lia. Qed.

(** an encoded key decodes to itself, so the encoding is injective *)
Lemma decode_encode_key k : _decode_key (_encode_key k) = Ok k.
Proof.
  unfold _decode_key. rewrite length_encode_key.
  replace (Nat.odd (2 * length k)) with false; [apply fromhex_encode|].
  symmetry. rewrite <- Nat.negb_even. by rewrite Nat.even_mul.
Qed.

#[export] Instance encode_key_inj : Inj (=) (=) _encode_key.
Proof. intros k k' H. pose proof (decode_encode_key k) as E. rewrite H, decode_encode_key in E. by simplify_eq. Qed.

Lemma encode_key_nil k : _encode_key k = [] <-> k = [].
Proof. split; [|by intros ->]. by destruct k. Qed.

Lemma encode_key_app a b : _encode_key (a ++ b) = _encode_key a ++ _encode_key b.
Proof. apply flat_map_app. Qed.

(** * Commitment *)

Definition content_ok (V : bytes -> Prop) (c : option bytes) : Prop := forall x, c = Some x -> V x.

Definition digest (sha256 : bytes -> bytes) (i : bytes) : Prop := exists x, i = sha256 x.

(** Among the nodes in [U], given by key, content and sorted child ids, no two
    different ones have the same digest.  [U] is a parameter because the preimage
    does not delimit its three parts: of SHA-256 alone this holds when [U] is the
    nodes actually hashed and no two of them share a preimage (below), not of all
    nodes at once. *)
Class NodeHash (sha256 : bytes -> bytes) (U : bytes -> option bytes -> list bytes -> Prop) : Prop :=
  hash_commits : forall k1 c1 l1 k2 c2 l2, U k1 c1 l1 -> U k2 c2 l2 ->
    sha256 (preimage k1 c1 l1) = sha256 (preimage k2 c2 l2) ->
    k1 = k2 /\ c1 = c2 /\ l1 = l2.

(** Every node with a hexadecimal key, a content in [V] and digests as child ids.
    [NodeHash sha256 (over sha256 V)] is a condition on the layout of the contents
    too: it fails, for instance, when [V] has a hexadecimal digit, or a digest and
    the empty content. *)
Definition over (sha256 : bytes -> bytes) (V : bytes -> Prop)
    (k : bytes) (c : option bytes) (l : list bytes) : Prop :=
  hexkey k /\ content_ok V c /\ Forall (digest sha256) l.

(** the parts are not delimited: moving the end of the key into the content, or
    the end of the content into the child ids, leaves every digest unchanged *)
Lemma preimage_not_delimited (sha256 : bytes -> bytes) k x c i ids :
  sha256 (preimage (k ++ x) None (i :: ids)) = sha256 (preimage k (Some x) (i :: ids)) /\
  sha256 (preimage k (Some (c ++ i)) ids) = sha256 (preimage k (Some c) (i :: ids)).
Proof.
  unfold preimage. simpl. by rewrite <- !app_assoc.
Qed.

(** ** An instance that can be evaluated *)

Fixpoint escape (x : bytes) : bytes :=
  match x with
  | [] => [Byte.x00]
  | b :: r => Byte.x01 :: b :: escape r
  end.

(** a self-delimiting injection in place of SHA-256 *)
Definition demo_hash (x : bytes) : bytes := Byte.xff :: escape x.

Definition not_ff (b : byte) : bool := bool_decide (b <> Byte.xff).

(** contents the instance delimits: not hexadecimal at the start, no [0xff] *)
Definition demo_content (c : bytes) : Prop :=
  match c with [] => False | b :: _ => is_hex b = false end /\ Forall (fun b => not_ff b = true) c.

Lemma escape_app x y r s : escape x ++ r = escape y ++ s -> x = y /\ r = s.
Proof.
  revert y. induction x as [|b x IH]; intros [|c y]; simpl; try done; [by intros [= ->]|].
  intros [= <- [-> ->]%IH]. done.
Qed.

Lemma demo_hash_app x y r s : demo_hash x ++ r = demo_hash y ++ s -> x = y /\ r = s.
Proof. unfold demo_hash. simpl. intros [= H]. by apply escape_app. Qed.

Lemma demo_concat l1 l2 :
  Forall (digest demo_hash) l1 -> Forall (digest demo_hash) l2 -> concat l1 = concat l2 -> l1 = l2.
Proof.
  intros H1. revert l2. induction H1 as [|i l1 [x ->] _ IH]; intros l2 H2 E.
  - destruct H2 as [|j l2 [y ->] _]; done.
  - destruct H2 as [|j l2 [y ->] H2]; [done|]. simpl in E.
    change (demo_hash x ++ concat l1 = demo_hash y ++ concat l2) in E.
    apply demo_hash_app in E as [-> E]. f_equal. by apply IH.
Qed.

(** a maximal run of bytes satisfying [p] *)
Lemma span_inj (p : byte -> bool) k1 k2 r1 r2 :
  Forall (fun b => p b = true) k1 -> Forall (fun b => p b = true) k2 ->
  (forall b r, r1 = b :: r -> p b = false) -> (forall b r, r2 = b :: r -> p b = false) ->
  k1 ++ r1 = k2 ++ r2 -> k1 = k2 /\ r1 = r2.
Proof.
  intros H1. revert k2. induction H1 as [|b k1 Hb _ IH]; intros k2 H2 Hr1 Hr2 E.
  - destruct H2 as [|c k2 Hc _]; [done|]. simpl in E. rewrite (Hr1 _ _ E) in Hc. done.
  - destruct H2 as [|c k2 Hc H2]; simpl in E.
    + symmetry in E. rewrite (Hr2 _ _ E) in Hb. done.
    + simplify_eq. destruct (IH k2) as [-> ->]; done.
Qed.

Lemma demo_ids_head l b r :
  Forall (digest demo_hash) l -> concat l = b :: r -> b = Byte.xff.
Proof. intros [|i l' [x ->] _]; simpl; [done|]. unfold demo_hash. simpl. by intros [= <- _]. Qed.

#[export] Instance demo_node_hash : NodeHash demo_hash (over demo_hash demo_content).
Proof.
  intros k1 c1 l1 k2 c2 l2 (Hk1 & Hc1 & Hl1) (Hk2 & Hc2 & Hl2) E.
  assert (E' : preimage k1 c1 l1 = preimage k2 c2 l2).
  { apply (demo_hash_app _ _ [] []). by rewrite !app_nil_r. }
  assert (Hhead : forall c l b r, content_ok demo_content c -> Forall (digest demo_hash) l ->
            default [] c ++ concat l = b :: r -> is_hex b = false).
  { intros [[|x c]|] l b r Hc Hl Er; simpl in Er.
    - by destruct (Hc _ eq_refl).
    - simplify_eq. by destruct (Hc _ eq_refl).
    - by rewrite (demo_ids_head _ _ _ Hl Er). }
  apply (span_inj is_hex) in E' as [-> E']; [|done|done|by eauto|by eauto].
  apply (span_inj not_ff) in E' as [Ec E'].
  - apply demo_concat in E'; [|done|done]. subst l2. split; [done|]. split; [|done].
    destruct c1 as [[|x c1]|], c2 as [[|y c2]|]; simpl in Ec; try done;
      try (by destruct (Hc1 _ eq_refl)); try (by destruct (Hc2 _ eq_refl)). by rewrite Ec.
  - destruct c1 as [c|]; [|constructor]. by destruct (Hc1 _ eq_refl).
  - destruct c2 as [c|]; [|constructor]. by destruct (Hc2 _ eq_refl).
  - intros b r Er. by rewrite (demo_ids_head _ _ _ Hl1 Er).
  - intros b r Er. by rewrite (demo_ids_head _ _ _ Hl2 Er).
Qed.
