(* ===== verification/TrieTheory.v ===== *)
(** Correctness of the Patricia trie: the invariant of a store of hashed nodes, the map a
    node stands for, and lookups: the walk of [_find_nearest_node] ends at the node that
    decides the key, so [get] returns exactly what the trie binds. *)

From stdpp Require Import base list gmap sorting.
From Stdlib Require Import ZArith Lia Strings.Byte.
From S2P Require Import Prelude PatriciaTrie TrieHash.
From stdpp Require Import base list gmap.
From S2P Require Import Prelude PatriciaTrie TrieHash.

Local Open Scope Z_scope.
Local Open Scope py_scope.

(** * Prefixes *)

Lemma startswith_spec a b : startswith a b = true <-> b `prefix_of` a.
Proof.
  revert a. induction b as [|y b IH]; intros [|x a]; simpl.
  - split; [intros _; apply prefix_nil|done].
  - split; [intros _; apply prefix_nil|done].
  - split; [done|]. intros H. by apply prefix_nil_not in H.
  - rewrite andb_true_iff, bool_decide_eq_true, IH. split.
    + intros [-> H]. by apply prefix_cons.
    + intros H. split; [by apply prefix_cons_inv_1 in H|by apply prefix_cons_inv_2 in H].
Qed.

(** length of the longest common prefix *)
Fixpoint cpl (a b : bytes) : nat :=
  match a, b with
  | x :: a', y :: b' => if bool_decide (x = y) then S (cpl a' b') else O
  | _, _ => O
  end.

Lemma lcp_loop_cpl a b i n :
  n = Nat.min (length a) (length b) -> lcp_loop i n a b = Z.of_nat (i + cpl a b) - 1.
Proof.
  revert b i n. induction a as [|x a IH]; intros [|y b] i n ->; simpl; try lia.
  destruct (bool_decide (x = y)); [|lia]. rewrite IH by done. lia.
Qed.

Lemma find_longest_common_prefix_cpl a b :
  _find_longest_common_prefix a b = Z.of_nat (cpl a b) - 1.
Proof. unfold _find_longest_common_prefix. by rewrite lcp_loop_cpl. Qed.

(** the two strings past their common prefix *)
Lemma cpl_split a b :
  exists p a' b', a = p ++ a' /\ b = p ++ b' /\ length p = cpl a b /\
    (forall x r y s, a' = x :: r -> b' = y :: s -> x <> y).
Proof.
  revert b. induction a as [|x a IH]; intros b; [by exists [], [], b|].
  destruct b as [|y b]; [by exists [], (x :: a), []|]. simpl. case_bool_decide as Hxy.
  - subst y. destruct (IH b) as (p & a' & b' & -> & -> & Hl & Hd).
    exists (x :: p), a', b'. simpl. rewrite Hl. naive_solver.
  - exists [], (x :: a), (y :: b). naive_solver.
Qed.

Lemma cpl_pos x a y b : (0 < cpl (x :: a) (y :: b))%nat <-> x = y.
Proof. simpl. case_bool_decide; split; [done|lia|lia|done]. Qed.

(** * Dictionaries of children *)

(** suffixes are not empty and start with distinct bytes *)
Definition heads_ok (d : list (bytes * bytes)) : Prop :=
  NoDup (map (fun kv => head (fst kv)) d) /\ Forall (fun kv => fst kv <> []) d.

#[export] Instance heads_ok_proper : Proper (Permutation ==> iff) heads_ok.
Proof. intros d d' H. unfold heads_ok. by rewrite H. Qed.

Lemma heads_unique d x s1 i1 s2 i2 :
  heads_ok d -> (x :: s1, i1) ∈ d -> (x :: s2, i2) ∈ d -> s1 = s2 /\ i1 = i2.
Proof.
  intros [Hn _] H1 H2. apply list_elem_of_lookup in H1 as [j1 H1], H2 as [j2 H2].
  assert (j1 = j2); [|by simplify_eq].
  eapply NoDup_lookup; [exact Hn| |]; change (map ?f d) with (f <$> d);
    rewrite list_lookup_fmap; [by rewrite H1|by rewrite H2].
Qed.

Lemma heads_prefix_unique d a s1 i1 s2 i2 :
  heads_ok d -> (s1, i1) ∈ d -> (s2, i2) ∈ d -> s1 `prefix_of` a -> s2 `prefix_of` a ->
  s1 = s2 /\ i1 = i2.
Proof.
  intros Hd H1 H2 [r1 E1] [r2 E2]. pose proof Hd as [_ Hne]. rewrite Forall_forall in Hne.
  destruct s1 as [|x s1]; [by destruct (Hne _ H1)|]. destruct s2 as [|y s2]; [by destruct (Hne _ H2)|].
  subst a. simplify_eq. by destruct (heads_unique _ _ _ _ _ _ Hd H1 H2) as [-> ->].
Qed.

Lemma heads_ok_nodup d : heads_ok d -> NoDup (map fst d).
Proof.
  intros [Hn _]. induction d as [|[s i] d IH]; simpl in *; [constructor|].
  apply NoDup_cons in Hn as [Hx Hn]. apply NoDup_cons. split; [|auto].
  intros (kv & E & Hkv)%list_elem_of_fmap. apply Hx. apply list_elem_of_fmap.
  exists kv. by rewrite E.
Qed.

Lemma heads_ok_cons s i d :
  heads_ok ((s, i) :: d) <->
  s <> [] /\ heads_ok d /\ (forall t j, (t, j) ∈ d -> head t <> head s).
Proof.
  unfold heads_ok. simpl. rewrite NoDup_cons, Forall_cons. simpl. split.
  - intros [[Hx Hn] [Hs Hd]]. repeat split; try done. intros t j Ht E. apply Hx.
    apply list_elem_of_fmap. exists (t, j). by rewrite <- E.
  - intros (Hs & [Hn Hd] & Ht). repeat split; try done.
    intros ([t j] & E & Htj)%list_elem_of_fmap. by eapply Ht.
Qed.

Lemma find_prefix_spec d a :
  heads_ok d ->
  match find_prefix d a with
  | Some (s, i) => (s, i) ∈ d /\ s `prefix_of` a
  | None => forall s i, (s, i) ∈ d -> ~ s `prefix_of` a
  end.
Proof.
  intros _. induction d as [|[s i] d IH]; simpl; [by intros ?? ?%not_elem_of_nil|].
  destruct (startswith a s) eqn:E.
  - apply startswith_spec in E. split; [left|done].
  - assert (~ s `prefix_of` a) by (rewrite <- startswith_spec; congruence).
    destruct (find_prefix d a) as [[t j]|].
    + destruct IH. split; [by right|done].
    + intros t j [[= -> ->]|Ht]%elem_of_cons; [done|by apply (IH t j)].
Qed.

Lemma ddel_perm d s i : NoDup (map fst d) -> (s, i) ∈ d ->
  exists d', ddel d s = Ok d' /\ d ≡ₚ (s, i) :: d'.
Proof.
  induction d as [|[t j] d IH]; simpl; [by intros _ ?%not_elem_of_nil|].
  intros [Hx Hn]%NoDup_cons [[= -> ->]|Hin]%elem_of_cons.
  - rewrite bool_decide_eq_true_2 by done. eauto.
  - rewrite bool_decide_eq_false_2.
    + destruct (IH Hn Hin) as (d' & -> & Hp). eexists. split; [done|]. rewrite Hp. apply Permutation_swap.
    + intros ->. apply Hx. apply list_elem_of_fmap. by exists (s, i).
Qed.

Lemma dset_fresh d s i : s ∉ map fst d -> dset d s i ≡ₚ (s, i) :: d.
Proof.
  induction d as [|[t j] d IH]; simpl; [done|]. rewrite not_elem_of_cons. intros [Hne Hd].
  rewrite bool_decide_eq_false_2 by done. rewrite IH by done. apply Permutation_swap.
Qed.

Lemma heads_fresh (d : list (bytes * bytes)) s : (forall t j, (t, j) ∈ d -> head t <> head s) -> s ∉ map fst d.
Proof. intros H ([t j] & -> & Ht)%list_elem_of_fmap. by eapply H. Qed.

Lemma find_shared_spec suffix d :
  match find_shared suffix d with
  | Some (k, v, idx) => (k, v) ∈ d /\ idx = Z.of_nat (cpl suffix k) - 1 /\ (0 < cpl suffix k)%nat
  | None => forall k v, (k, v) ∈ d -> cpl suffix k = O
  end.
Proof.
  induction d as [|[k v] d IH]; simpl; [by intros ?? ?%not_elem_of_nil|].
  rewrite find_longest_common_prefix_cpl. destruct (Z.ltb_spec (Z.of_nat (cpl suffix k) - 1) 0).
  - destruct (find_shared suffix d) as [[[k' v'] idx]|].
    + destruct IH as (? & ? & ?). split; [by right|done].
    + intros k' v' [[= -> ->]|Hin]%elem_of_cons; [lia|by eapply IH].
  - split; [left|]. lia.
Qed.

(** * Equality of nodes

    Equality of Python nodes ignores the order of the children. *)

Record node_equiv (n m : Node) : Prop := NodeEquiv {
  eqv_key : n_key n = n_key m;
  eqv_length : n_length n = n_length m;
  eqv_content : n_content n = n_content m;
  eqv_children : n_children n ≡ₚ n_children m;
  eqv_id : n_id n = n_id m
}.

#[export] Instance node_Equiv : Equiv Node := node_equiv.

#[export] Instance node_equivalence : Equivalence node_equiv.
Proof.
  split.
  - intros n. by constructor.
  - intros n m []. by constructor.
  - intros n m p [] []. constructor; by etrans.
Qed.

#[export] Instance calculate_id_proper (sha256 : bytes -> bytes) :
  Proper (node_equiv ==> eq) (calculate_id sha256).
Proof. intros n m []. unfold calculate_id. by rewrite eqv_key0, eqv_content0, eqv_children0. Qed.

Lemma equiv_child n m s i : n ≡ m -> (s, i) ∈ n_children m -> (s, i) ∈ n_children n.
Proof. intros E H. by rewrite (eqv_children _ _ E). Qed.

(** * The invariant of a store of nodes *)

(** what a lookup by id returns: [get_node] of a trie, or its database alone *)
Abbreviation getter := (bytes -> result Node) (only parsing).

Section store.
Context (sha256 : bytes -> bytes) (U : bytes -> option bytes -> list bytes -> Prop) {HH : NodeHash sha256 U}.

(** a node whose children are stored, each under the node's key extended by
    its suffix *)
Record shape (g : getter) (n : Node) : Prop := Shape {
  sh_key : hexkey (n_key n);
  sh_length : n_length n = blen (n_key n);
  sh_keyed : is_Some (n_content n) -> exists k, n_key n = _encode_key k;
  sh_heads : heads_ok (n_children n);
  sh_children : forall s i, (s, i) ∈ n_children n ->
    digest sha256 i /\ exists m, g i = Ok m /\ n_key m = n_key n ++ s
}.

(** a node among those the hash commits to *)
Definition unode (n : Node) : Prop := U (n_key n) (n_content n) (sorted (map snd (n_children n))).

Lemma unode_proper n m : n ≡ m -> unode n -> unode m.
Proof. intros [Ek _ Ec Ed _]. unfold unode. by rewrite Ek, Ec, Ed. Qed.

(** below the root, a node carries a content or joins several children *)
Definition canon (n : Node) : Prop :=
  n_key n = [] \/ is_Some (n_content n) \/ (2 <= length (n_children n))%nat.

(** the nodes below [n] form a finite tree *)
Inductive finite_tree (g : getter) (n : Node) : Prop :=
| finite_intro :
    (forall s i m, (s, i) ∈ n_children n -> g i = Ok m -> finite_tree g m) -> finite_tree g n.

(** a node stored under its own hash *)
Record node_ok (g : getter) (i : bytes) (n : Node) : Prop := NodeOk {
  ok_shape : shape g n;
  ok_canon : canon n;
  ok_finite : finite_tree g n;
  ok_id : n_id n = Some i;
  ok_hash : i = calculate_id sha256 n;
  ok_unode : unode n
}.

Definition good (g : getter) : Prop := forall i n, g i = Ok n -> node_ok g i n.

(** [g'] still has every node of [g] *)
Definition ext (g g' : getter) : Prop := forall i n, g i = Ok n ->
  exists n', g' i = Ok n' /\ n ≡ n'.

Lemma ext_refl g : ext g g.
Proof. intros i n H. exists n. split; [done|]. apply node_equivalence. Qed.

Lemma ext_trans g1 g2 g3 : ext g1 g2 -> ext g2 g3 -> ext g1 g3.
Proof.
  intros H12 H23 i n H. destruct (H12 i n H) as (n2 & H2 & E2).
  destruct (H23 i n2 H2) as (n3 & H3 & E3). exists n3. split; [done|]. by etrans.
Qed.

Lemma shape_ext g g' n : ext g g' -> shape g n -> shape g' n.
Proof.
  intros He []. constructor; try done. intros s i Hi.
  destruct (sh_children0 s i Hi) as (Hd & m & Hm & Hk). split; [done|].
  destruct (He i m Hm) as (m' & Hm' & E). exists m'. by rewrite <- (eqv_key _ _ E).
Qed.

Lemma finite_ext g g' n n' :
  good g -> ext g g' -> shape g n -> n ≡ n' -> finite_tree g n -> finite_tree g' n'.
Proof.
  intros Hg He Hs En Hf. revert n' Hs En. induction Hf as [n _ IH]. intros n' Hs En.
  constructor. intros s i m' Hi Hm'. apply (equiv_child _ _ _ _ En) in Hi.
  destruct (sh_children _ _ Hs _ _ Hi) as (_ & m & Hm & _).
  destruct (He _ _ Hm) as (m'' & Hm'' & Em). rewrite Hm' in Hm''. simplify_eq.
  eapply IH; [done|done|apply (Hg _ _ Hm)|done].
Qed.

(** the same, in a part of a store *)
Lemma finite_part g g' n n' : ext g' g -> n ≡ n' -> finite_tree g n -> finite_tree g' n'.
Proof.
  intros He En Hf. revert n' En. induction Hf as [n _ IH]. intros n' En.
  constructor. intros s i m' Hi Hm'. apply (equiv_child _ _ _ _ En) in Hi.
  destruct (He _ _ Hm') as (m & Hm & Em). eapply IH; [done|done|]. by symmetry.
Qed.

Lemma finite_shape g n : good g -> finite_tree g n.
Proof. intros Hg. constructor. intros s i m _ Hm. apply (Hg _ _ Hm). Qed.

Lemma node_ok_ext g g' i n : good g -> ext g g' -> node_ok g i n -> node_ok g' i n.
Proof.
  intros Hg He []. constructor; [by eapply shape_ext|done| |done..].
  eapply finite_ext; [done|done|done|apply node_equivalence|done].
Qed.

Lemma shape_proper g n m : n ≡ m -> shape g n -> shape g m.
Proof.
  intros [Ek El Ec Ed _] []. rewrite Ek, El, Ec in *. constructor; try done.
  - by rewrite <- Ed.
  - intros s i Hi. rewrite <- Ed in Hi. rewrite <- Ek. rewrite Ek. auto.
Qed.

Lemma shape_ids g n : shape g n -> Forall (digest sha256) (sorted (map snd (n_children n))).
Proof.
  intros Hs. rewrite sorted_perm. apply Forall_forall.
  intros i ([s j] & -> & Hj)%list_elem_of_fmap. by destruct (sh_children _ _ Hs s j Hj).
Qed.

(** equal hashes mean equal nodes *)
Lemma node_ok_unique g g' i n m : ext g g' -> node_ok g i n -> node_ok g' i m -> n ≡ m.
Proof using HH.
  intros He [Sn _ _ In Hn Un] [Sm _ _ Im Hm Um]. rewrite Hn in Hm. unfold calculate_id in Hm.
  apply (hash_commits (U := U)) in Hm as (Ek & Ec & El); [|exact Un|exact Um].
  assert (Hids : map snd (n_children n) ≡ₚ map snd (n_children m)).
  { rewrite <- (sorted_perm (map snd (n_children n))), El. by rewrite sorted_perm. }
  constructor; [done| |done| |congruence].
  { by rewrite (sh_length _ _ Sn), (sh_length _ _ Sm), Ek. }
  (* the suffix of a child is determined by its id *)
  assert (Hsuf : forall i s s', (s, i) ∈ n_children n -> (s', i) ∈ n_children m -> s = s').
  { intros j s s' H1 H2. destruct (sh_children _ _ Sn _ _ H1) as (_ & c & Hc & Kc).
    destruct (sh_children _ _ Sm _ _ H2) as (_ & c' & Hc' & Kc').
    destruct (He _ _ Hc) as (c'' & Hc'' & Ecc). rewrite Hc' in Hc''. simplify_eq.
    apply (inj (app (n_key n))). rewrite <- Kc, (eqv_key _ _ Ecc), Kc'. by rewrite Ek. }
  apply NoDup_Permutation.
  - eapply NoDup_fmap_1, heads_ok_nodup, sh_heads, Sn.
  - eapply NoDup_fmap_1, heads_ok_nodup, sh_heads, Sm.
  - intros [s j]. split; intros Hj.
    + assert (Hin : j ∈ map snd (n_children m)).
      { rewrite <- Hids. apply list_elem_of_fmap. by exists (s, j). }
      apply list_elem_of_fmap in Hin as ([s' j'] & -> & Hin). by rewrite (Hsuf _ _ _ Hj Hin).
    + assert (Hin : j ∈ map snd (n_children n)).
      { rewrite Hids. apply list_elem_of_fmap. by exists (s, j). }
      apply list_elem_of_fmap in Hin as ([s' j'] & -> & Hin). by rewrite <- (Hsuf _ _ _ Hin Hj).
Qed.

(** ** Storing a node *)

Definition hashed (n : Node) : Node :=
  mkNode (n_key n) (n_length n) (n_content n) (n_children n) (Some (calculate_id sha256 n)).

Definition stored (g : getter) (i : bytes) (n : Node) : getter := fun j =>
  if bool_decide (j = i) then Ok n else g j.

Lemma hashed_shape g n : shape g n -> shape g (hashed n).
Proof. intros []. by constructor. Qed.

Lemma hashed_ok g n :
  good g -> shape g n -> canon n -> unode n -> node_ok g (calculate_id sha256 n) (hashed n).
Proof.
  intros Hg Hs Hc Hu. constructor; [by apply hashed_shape|done| |done..].
  by apply finite_shape.
Qed.

Lemma stored_spec g g' i n : good g -> node_ok g i n -> (forall j, g' j = stored g i n j) ->
  good g' /\ ext g g' /\ g' i = Ok n.
Proof using HH.
  intros Hg Hn Hg'. assert (He : ext g g').
  { intros j m Hj. rewrite Hg'. unfold stored. case_bool_decide as E; [subst j|by eapply ext_refl].
    exists n. split; [done|]. eapply node_ok_unique; [apply ext_refl|by apply Hg|done]. }
  split; [|split; [done|rewrite Hg'; unfold stored; by rewrite bool_decide_eq_true_2]].
  intros j m. rewrite Hg'. unfold stored at 1. case_bool_decide as E.
  - intros [= <-]. subst j. by eapply node_ok_ext.
  - intros Hj. eapply node_ok_ext; [done|done|]. by apply Hg.
Qed.

(** * The map a node stands for *)

Inductive binds (g : getter) : Node -> bytes -> bytes -> Prop :=
| binds_here n c : n_content n = Some c -> binds g n (n_key n) c
| binds_down n s i m k c :
    (s, i) ∈ n_children n -> g i = Ok m -> binds g m k c -> binds g n k c.

Lemma binds_unfold g n k c :
  binds g n k c <->
  (n_key n = k /\ n_content n = Some c) \/
  exists s i m, (s, i) ∈ n_children n /\ g i = Ok m /\ binds g m k c.
Proof.
  split.
  - intros []; [by left|right; eauto 10].
  - intros [[<- ?]|(s & i & m & ? & ? & ?)]; [by constructor|by eapply binds_down].
Qed.

Lemma binds_prefix g n k c : good g -> shape g n -> binds g n k c -> n_key n `prefix_of` k.
Proof.
  intros Hg Hs Hb. induction Hb as [|n s i m k c Hi Hm Hb IH]; [done|].
  destruct (sh_children _ _ Hs _ _ Hi) as (_ & m' & Hm' & Ek). rewrite Hm in Hm'. simplify_eq.
  etrans; [|apply IH, (Hg _ _ Hm)]. rewrite Ek. by apply prefix_app_r.
Qed.

Lemma binds_ext g g' n n' k c : ext g g' -> n ≡ n' -> binds g n k c -> binds g' n' k c.
Proof.
  intros He En Hb. revert n' En. induction Hb as [n c Hc|n s i m k c Hi Hm Hb IH]; intros n' En.
  - rewrite (eqv_key _ _ En). constructor. by rewrite <- (eqv_content _ _ En).
  - destruct (He i m Hm) as (m' & Hm' & Em). eapply binds_down; [|done|by apply IH].
    by rewrite <- (eqv_children _ _ En).
Qed.

Lemma binds_ext_inv g g' n n' k c :
  good g -> ext g g' -> shape g n -> n ≡ n' -> binds g' n' k c -> binds g n k c.
Proof.
  intros Hg He Hs En Hb. revert n Hs En.
  induction Hb as [n' c Hc|n' s i m' k c Hi Hm' Hb IH]; intros n Hs En.
  - rewrite <- (eqv_key _ _ En). constructor. by rewrite (eqv_content _ _ En).
  - rewrite <- (eqv_children _ _ En) in Hi.
    destruct (sh_children _ _ Hs _ _ Hi) as (_ & m & Hm & _).
    destruct (He _ _ Hm) as (m'' & Hm'' & Em). rewrite Hm' in Hm''. simplify_eq.
    eapply binds_down; [done|done|]. apply IH; [apply (Hg _ _ Hm)|done].
Qed.

(** the map of a stored node does not change as the store grows *)
Lemma binds_stable g g' n k c :
  good g -> ext g g' -> shape g n -> binds g' n k c <-> binds g n k c.
Proof.
  intros Hg He Hs. split.
  - by apply binds_ext_inv.
  - by apply binds_ext.
Qed.

Lemma binds_stable_equiv g g' n n' k c :
  good g -> ext g g' -> shape g n -> n ≡ n' -> binds g n k c <-> binds g' n' k c.
Proof.
  intros Hg He Hs En. split.
  - by apply binds_ext.
  - by apply binds_ext_inv.
Qed.
End store.

Lemma drop_suffix {A} (p s : list A) : drop (length p) (p ++ s) = s.
Proof. apply drop_app_length. Qed.

Section lookup.
Context (sha256 : bytes -> bytes) (U : bytes -> option bytes -> list bytes -> Prop) {HH : NodeHash sha256 U}.
Context {DB : Type} `{!NodeTrieStore DB}.

(** the nodes from [n] towards [key], with the suffix each was reached by;
    [r] is the last *)
Inductive walk (g : getter) (key : bytes) : bytes -> Node -> list (bytes * Node) -> Node -> Prop :=
| walk_found m n : n_key n = key -> walk g key m n [(m, n)] n
| walk_stuck m n :
    n_key n <> key -> n_key n `prefix_of` key ->
    (forall s i, (s, i) ∈ n_children n -> ~ n_key n ++ s `prefix_of` key) ->
    walk g key m n [(m, n)] n
| walk_down m n s i ch path r :
    n_key n <> key -> (s, i) ∈ n_children n -> n_key n ++ s `prefix_of` key -> g i = Ok ch ->
    walk g key s ch path r -> walk g key m n ((m, n) :: path) r.

Lemma prefix_suffix (n k s : bytes) r : k = n ++ r -> n ++ s `prefix_of` k <-> s `prefix_of` r.
Proof. intros ->. split; [apply prefix_app_inv|apply prefix_app]. Qed.

(** the loop terminates within its fuel and follows the walk *)
Lemma nearest_loop_walk fuel db tr key m n log :
  good sha256 U (get_node db tr) -> shape sha256 (get_node db tr) n -> n_key n `prefix_of` key ->
  (length key < fuel + length (n_key n))%nat ->
  exists path r, nearest_loop fuel db tr key m n log = Ok (r, log ++ path) /\
                 walk (get_node db tr) key m n path r.
Proof.
  intros Hg. revert m n log. induction fuel as [|fuel IH]; intros m n log Hs Hp Hf.
  { apply prefix_length in Hp. lia. }
  simpl. case_bool_decide as Hk.
  { exists [(m, n)], n. split; [done|by constructor]. }
  destruct Hp as [suf Hsuf].
  assert (Hdrop : drop (Z.to_nat (n_length n)) key = suf).
  { rewrite (sh_length _ _ _ Hs), Hsuf. unfold blen. rewrite Nat2Z.id. apply drop_suffix. }
  rewrite Hdrop. pose proof (find_prefix_spec (n_children n) suf (sh_heads _ _ _ Hs)) as Hfp.
  destruct (find_prefix (n_children n) suf) as [[s i]|].
  - destruct Hfp as [Hin Hpre]. destruct (sh_children _ _ _ Hs _ _ Hin) as (_ & ch & Hch & Kch).
    rewrite Hch. simpl.
    assert (Hpre' : n_key n ++ s `prefix_of` key) by (by rewrite prefix_suffix).
    destruct (IH s ch (log ++ [(m, n)])) as (path & r & E & Hw).
    + apply (Hg _ _ Hch).
    + by rewrite Kch.
    + rewrite Kch, length_app. assert (s <> []).
      { pose proof (sh_heads _ _ _ Hs) as [_ Hne]. rewrite Forall_forall in Hne. by apply (Hne _ Hin). }
      destruct s; [done|simpl; lia].
    + exists ((m, n) :: path), r. rewrite E. split; [by rewrite <- app_assoc|]. by eapply walk_down.
  - exists [(m, n)], n. split; [done|]. apply walk_stuck; [done|by exists suf|].
    intros s i Hin. rewrite prefix_suffix by done. by eapply Hfp.
Qed.

Lemma suffix_ne g n s i : shape sha256 g n -> (s, i) ∈ n_children n -> s <> [].
Proof.
  intros Hs Hin. pose proof (sh_heads _ _ _ Hs) as [_ Hne]. rewrite Forall_forall in Hne.
  by apply (Hne _ Hin).
Qed.

Lemma child_of g n s i m :
  shape sha256 g n -> (s, i) ∈ n_children n -> g i = Ok m -> n_key m = n_key n ++ s.
Proof.
  intros Hs Hin Hm. destruct (sh_children _ _ _ Hs _ _ Hin) as (_ & m' & Hm' & K). congruence.
Qed.

(** what is bound below a child extends the child's key, and is not the node's own key *)
Lemma child_binds g n s i m k c :
  good sha256 U g -> shape sha256 g n -> (s, i) ∈ n_children n -> g i = Ok m ->
  binds g m k c -> n_key n ++ s `prefix_of` k /\ k <> n_key n.
Proof.
  intros Hg Hs Hin Hm Hb. rewrite <- (child_of g n s i m) by done.
  assert (Hp : n_key m `prefix_of` k) by (eapply binds_prefix; [done|apply (Hg _ _ Hm)|done]).
  split; [done|]. intros ->. apply prefix_length in Hp.
  rewrite (child_of g n s i m), length_app in Hp by done.
  pose proof (suffix_ne _ _ _ _ Hs Hin). destruct s; [done|simpl in Hp; lia].
Qed.

Lemma child_unique g n k s i s' i' :
  shape sha256 g n -> (s, i) ∈ n_children n -> (s', i') ∈ n_children n ->
  n_key n ++ s `prefix_of` k -> n_key n ++ s' `prefix_of` k -> s = s' /\ i = i'.
Proof.
  intros Hs H1 H2 P1 P2. assert (n_key n `prefix_of` k) as [suf Hsuf] by (by eapply prefix_app_l).
  rewrite (prefix_suffix _ _ _ suf) in P1 by done. rewrite (prefix_suffix _ _ _ suf) in P2 by done.
  eapply heads_prefix_unique; [apply Hs|done..].
Qed.

(** the end of the walk decides the key *)
Lemma walk_binds g key m n path r c :
  good sha256 U g -> shape sha256 g n -> walk g key m n path r ->
  binds g n key c <-> n_key r = key /\ n_content r = Some c.
Proof.
  intros Hg Hs Hw. revert Hs.
  induction Hw as [m n Hk|m n Hk Hp Hno|m n s i ch path r Hk Hin Hpre Hch Hw IH]; intros Hs.
  - rewrite binds_unfold. split; [|by left]. intros [H|(s & i & ch & Hin & Hch & Hb)]; [done|].
    by destruct (child_binds g n s i ch key c).
  - rewrite binds_unfold. split; [|naive_solver]. intros [[? _]|(s & i & ch & Hin & Hch & Hb)]; [done|].
    exfalso. apply (Hno _ _ Hin). by eapply child_binds.
  - rewrite <- IH by apply (Hg _ _ Hch). rewrite binds_unfold. split; [|eauto 10].
    intros [[? _]|(s' & i' & ch' & Hin' & Hch' & Hb)]; [done|].
    destruct (child_binds g n s' i' ch' key c) as [Hpre' _]; try done.
    destruct (child_unique g n key s i s' i') as [-> ->]; try done. congruence.
Qed.

(** no key is bound twice *)
Lemma binds_functional g n k c c' :
  good sha256 U g -> shape sha256 g n -> binds g n k c -> binds g n k c' -> c = c'.
Proof.
  intros Hg Hs Hb. revert c' Hs. induction Hb as [n c Hc|n s i m k c Hi Hm Hb IH]; intros c' Hs Hb'.
  - apply (walk_binds g (n_key n) [] n [([], n)] n c') in Hb'; [|done|done|by constructor].
    destruct Hb'. congruence.
  - apply binds_unfold in Hb' as [[<- ?]|(s' & i' & m' & Hi' & Hm' & Hb')].
    + by destruct (child_binds g n s i m (n_key n) c).
    + destruct (child_binds g n s i m k c) as [P1 _]; try done.
      destruct (child_binds g n s' i' m' k c') as [P2 _]; try done.
      destruct (child_unique g n k s i s' i') as [-> ->]; try done.
      rewrite Hm in Hm'. simplify_eq. eapply IH; [apply (Hg _ _ Hm)|done].
Qed.
End lookup.
