(* ===== verification/TrieUpdate.v ===== *)
(** Updates of the Patricia trie: [update] never fails on a well-formed trie,
    preserves its invariant, and changes the binding of its key and no other. *)

From stdpp Require Import base list gmap.
From Stdlib Require Import ZArith Lia Strings.Byte.
From S2P Require Import Prelude PatriciaTrie TrieHash TrieTheory.

Local Open Scope Z_scope.
Local Open Scope py_scope.

Definition with_children (n : Node) (d : list (bytes * bytes)) : Node :=
  mkNode (n_key n) (n_length n) (n_content n) d (n_id n).

Lemma app_self_nil {A} (a s : list A) : a = a ++ s -> s = [].
Proof. intros H. apply (app_inv_head a). by rewrite app_nil_r. Qed.

Lemma head_app {A} (a b : list A) : a <> [] -> head (a ++ b) = head a.
Proof. by destruct a. Qed.

(** non-empty suffixes on the same path start with the same byte *)
Lemma prefix_heads (n k s t : bytes) :
  n ++ s `prefix_of` k -> n ++ t `prefix_of` k -> s <> [] -> t <> [] -> head s = head t.
Proof.
  intros P1 P2 Hs Ht. assert (n `prefix_of` k) as [suf Hsuf] by (by eapply prefix_app_l).
  rewrite (prefix_suffix _ _ _ suf) in P1 by done. rewrite (prefix_suffix _ _ _ suf) in P2 by done.
  destruct s as [|x s], t as [|y t]; try done. destruct P1 as [? ->], P2 as [? [= -> _]]. done.
Qed.

Section update.
Context (sha256 : bytes -> bytes) (U : bytes -> option bytes -> list bytes -> Prop) {HH : NodeHash sha256 U}.
Context {DB : Type} `{!NodeTrieStore DB}.

Abbreviation hashed := (hashed sha256).
Abbreviation shape := (shape sha256).
Abbreviation unode := (unode U).
Abbreviation good := (good sha256 U).

(** ** Linking *)

(** a node after the link to the previous one of the path *)
Definition attach (x : Node) (prev : option (bytes * Node)) : Node :=
  match prev with
  | None => x
  | Some (s, p) => with_children x (dset (n_children x) s (default [] (n_id p)))
  end.

Definition insert_node (tr : trie) (n : Node) : trie :=
  mkTrie (<[default [] (n_id n) := n]> (_local_changes tr)) (root tr).

Lemma link_cons s x r prev tr :
  n_id x = None -> (forall s p, prev = Some (s, p) -> is_Some (n_id p)) ->
  link_path sha256 ((s, x) :: r) prev tr =
  link_path sha256 r (Some (s, hashed (attach x prev))) (insert_node tr (hashed (attach x prev))).
Proof.
  intros Hx Hp. simpl. destruct prev as [[ps p]|]; simpl.
  - destruct (Hp _ _ eq_refl) as [i Hi]. unfold node_id. rewrite Hi. simpl.
    unfold update_id. simpl. by rewrite Hx.
  - unfold update_id. by rewrite Hx.
Qed.

(** the nodes [link_path] hashes *)
Fixpoint link_nodes (l : list (bytes * Node)) (prev : option (bytes * Node)) : list Node :=
  match l with
  | [] => []
  | (s, x) :: r => hashed (attach x prev) :: link_nodes r (Some (s, hashed (attach x prev)))
  end.

(** the nodes [_update] hashes, from the lowest new one up to the root *)
Definition built_nodes (db : DB) (key content : bytes) (tr : trie) : list Node :=
  match _find_nearest_node db tr key None with
  | Ok (parent, log_path) =>
      match rev log_path with
      | (parent_match, _) :: rlog =>
          match update_nodes key content parent_match parent, copy_path rlog parent_match with
          | Ok news, Ok copies => link_nodes (rev news ++ copies) None
          | _, _ => []
          end
      | [] => []
      end
  | Err _ => []
  end.

Definition written (m : gmap bytes Node) (l : list Node) : gmap bytes Node :=
  foldl (fun m x => <[default [] (n_id x) := x]> m) m l.

Lemma link_path_written l prev tr tr' :
  link_path sha256 l prev tr = (Ok tt, tr') ->
  _local_changes tr' = written (_local_changes tr) (link_nodes l prev) /\
  Some (root tr') = last (from_option (fun p => [snd p]) [] prev ++ link_nodes l prev).
Proof using.
  revert prev tr. induction l as [|[s x] l IH]; intros prev tr E.
  { simpl in E. destruct prev as [[s p]|]; [|done]. by injection E as <-. }
  assert (Hx : n_id x = None).
  { simpl in E. destruct prev as [[ps p]|]; [destruct (node_id p); [|done]|]; unfold update_id in E; simpl in E;
      by destruct (n_id x). }
  rewrite link_cons in E; [|done|].
  - apply IH in E as [-> ->]. split; [done|]. cbn [link_nodes]. by rewrite last_app_cons.
  - intros ps p ->. simpl in E. unfold node_id in E. by destruct (n_id p).
Qed.

Lemma link_path_returns l prev tr :
  Forall (fun x => n_id (snd x) = None) l ->
  match prev with None => l <> [] | Some (_, p) => is_Some (n_id p) end ->
  exists tr', link_path sha256 l prev tr = (Ok tt, tr').
Proof using.
  intros Hl. revert prev tr. induction Hl as [|[s x] l Hx _ IH]; intros prev tr Hp.
  { destruct prev as [[s p]|]; [|done]. by eexists. }
  rewrite link_cons; [|done|by intros ? ? ->]. apply IH. by eexists.
Qed.

Lemma copies_unhashed rlog s copies : copy_path rlog s = Ok copies -> Forall (fun x => n_id (snd x) = None) copies.
Proof using.
  revert s copies. induction rlog as [|[s' p] r IH]; intros s copies E; [by injection E as <-|].
  cbn [copy_path] in E. destruct (ddel _ _); [|done]. simpl rbind in E.
  destruct (copy_path r s') as [c|] eqn:Ec; [|done]. injection E as <-. constructor; [done|]. by eapply IH.
Qed.

Lemma news_unhashed key content m r news : update_nodes key content m r = Ok news ->
  Forall (fun x => n_id (snd x) = None) news /\ exists y tl, news = (m, y) :: tl.
Proof using.
  intros En. unfold update_nodes in En. repeat case_match; simplify_eq; try by (split; [repeat constructor|eauto]).
  all: destruct (ddel _ _); simpl in *; repeat case_bool_decide; simplify_eq; by (split; [repeat constructor|eauto]).
Qed.

(** the nodes of an update are exactly what it writes, the last one as the root *)
Lemma _update_written db key content tr tr' :
  _update sha256 db key content tr = (Ok tt, tr') ->
  _local_changes tr' = written (_local_changes tr) (built_nodes db key content tr) /\
  Some (root tr') = last (built_nodes db key content tr).
Proof using.
  unfold _update, built_nodes. destruct (_find_nearest_node db tr key None) as [[r path]|]; [|done].
  destruct (rev path) as [|[m x] rlog]; [done|].
  destruct (update_nodes key content m r) as [news|] eqn:En; [|done]. unfold _build_path, bind, lift.
  rewrite rev_involutive. destruct (news_unhashed _ _ _ _ _ En) as (_ & y & tl & ->). destruct (copy_path rlog m) as [copies|]; [|done].
  intros E%link_path_written. exact E.
Qed.

Lemma insert_node_spec db tr x :
  good (get_node db tr) -> shape (get_node db tr) x -> canon x -> unode x ->
  let tr' := insert_node tr (hashed x) in
  good (get_node db tr') /\ ext (get_node db tr) (get_node db tr') /\
  get_node db tr' (calculate_id sha256 x) = Ok (hashed x).
Proof using HH.
  intros Hg Hx Hcx Hux. simpl. eapply stored_spec; [done..|by apply hashed_ok|].
  intros j. unfold get_node, stored, insert_node. simpl. case_bool_decide as E.
  - subst j. by rewrite lookup_insert_eq.
  - by rewrite lookup_insert_ne by congruence.
Qed.

(** ** Replacing a node *)

Lemma good_digest g i n : good g -> g i = Ok n -> digest sha256 i.
Proof. intros Hg Hi. destruct (Hg _ _ Hi) as [_ _ _ _ -> _]. by eexists. Qed.

Lemma swap_shape g g' p p' old rest s' i' n' :
  shape g p -> good g' -> ext g g' ->
  n_children p ≡ₚ old ++ rest ->
  n_key p' = n_key p -> n_length p' = n_length p -> n_content p' = n_content p ->
  n_children p' ≡ₚ (s', i') :: rest ->
  g' i' = Ok n' -> n_key n' = n_key p ++ s' -> s' <> [] ->
  (forall t j, (t, j) ∈ rest -> head t <> head s') -> shape g' p'.
Proof.
  intros Hs Hg' He Hch Kp Lp Cp Hch' Hi' Kn Hne Hheads.
  apply (shape_ext _ _ _ _ He) in Hs. destruct Hs as [H1 H2 Hkd H4 H5].
  constructor; rewrite ?Kp, ?Lp, ?Cp; try done.
  - rewrite Hch'. apply heads_ok_cons. split; [done|]. split; [|done].
    rewrite Hch in H4. destruct H4 as [Hn Hf]. rewrite map_app in Hn. split.
    + by apply NoDup_app in Hn as (_ & _ & ?).
    + by apply Forall_app in Hf as [_ ?].
  - intros t j. rewrite Hch'. intros [[= -> ->]|Ht]%elem_of_cons.
    + split; [by eapply good_digest|eauto].
    + apply H5. rewrite Hch. apply elem_of_app. by right.
Qed.

Section with_key.
Context (k0 content : bytes).
Abbreviation key := (_encode_key k0).

(** what an update makes of a node: hexadecimal key, digests as child ids, and no
    content, the new content or that of a node the hash already commits to *)
Definition allowed (x : Node) : Prop :=
  hexkey (n_key x) /\ Forall (digest sha256) (sorted (map snd (n_children x))) /\
  (n_content x = None \/ n_content x = Some content \/ exists p, unode p /\ n_content p = n_content x).

(** the hash commits to the nodes of [l] an update can make *)
Definition builds (l : list Node) : Prop := forall x, x ∈ l -> allowed x -> unode x.

Lemma builds_cons x l : builds (x :: l) -> (allowed x -> unode x) /\ builds l.
Proof. intros H. split; [apply H; left|]. intros y Hy. apply H. by right. Qed.

Lemma shape_allowed g x : shape g x ->
  n_content x = None \/ n_content x = Some content \/ (exists p, unode p /\ n_content p = n_content x) -> allowed x.
Proof. intros Hs Hc. split; [apply Hs|]. split; [by eapply shape_ids|done]. Qed.

(** [n'] binds what [n] does, except that it binds [key] to [content] *)
Definition replaces (g : getter) (n : Node) (g' : getter) (n' : Node) : Prop :=
  n_key n' = n_key n /\
  forall k c, binds g' n' k c <-> (k = key /\ c = content) \/ (k <> key /\ binds g n k c).

(** a node that takes a new child [n'] in place of the children [old] *)
Lemma swap_child g g' p p' old rest s' i' n' :
  good g -> shape g p -> ext g g' -> n_key p <> key ->
  n_children p ≡ₚ old ++ rest ->
  n_key p' = n_key p -> n_content p' = n_content p -> n_children p' ≡ₚ (s', i') :: rest ->
  g' i' = Ok n' -> s' <> [] -> n_key p ++ s' `prefix_of` key ->
  (forall t j, (t, j) ∈ rest -> head t <> head s') ->
  (forall k c, binds g' n' k c <-> (k = key /\ c = content) \/
     (k <> key /\ exists t j m, (t, j) ∈ old /\ g j = Ok m /\ binds g m k c)) ->
  replaces g p g' p'.
Proof.
  intros Hg Hs He Hk Hch Kp Cp Hch' Hn' Hne Hpre Hheads Hb. split; [done|]. intros k c.
  assert (Hrest : forall t j, (t, j) ∈ rest -> (t, j) ∈ n_children p).
  { intros t j Ht. rewrite Hch. apply elem_of_app. by right. }
  assert (Hkey : forall t j m q, (t, j) ∈ rest -> g j = Ok m -> ~ binds g m key q).
  { intros t j m q Ht Hm Hq. destruct (child_binds sha256 U g p t j m key q) as [P _]; auto.
    eapply Hheads; [done|]. eapply prefix_heads; [done|done| |done].
    eapply suffix_ne; [done|by apply Hrest]. }
  rewrite binds_unfold. split.
  - intros [[<- Hc]|(t & j & m & Ht & Hm & Hbm)].
    { right. rewrite Kp. split; [done|]. constructor. by rewrite <- Cp. }
    rewrite Hch' in Ht. apply elem_of_cons in Ht as [[= -> ->]|Ht].
    { rewrite Hn' in Hm. simplify_eq. apply Hb in Hbm as [?|(? & t & j & m' & Ho & Hm' & Hbm)]; [by left|].
      right. split; [done|]. eapply binds_down; [|done|done]. rewrite Hch. apply elem_of_app. by left. }
    destruct (sh_children _ _ _ Hs t j (Hrest _ _ Ht)) as (_ & m0 & Hm0 & _).
    destruct (He _ _ Hm0) as (m1 & Hm1 & Em). rewrite Hm in Hm1. simplify_eq.
    apply (binds_ext_inv sha256 U g) with (n := m0) in Hbm; [|done|done|apply (Hg _ _ Hm0)|done].
    right. split; [intros ->; by eapply Hkey|]. eapply binds_down; [by apply Hrest|done|done].
  - intros [[-> ->]|[Hkk Hbp]].
    { right. exists s', i', n'. rewrite Hch'. split; [left|]. split; [done|]. apply Hb. by left. }
    apply binds_unfold in Hbp as [[<- Hc]|(t & j & m & Ht & Hm & Hbm)].
    { left. rewrite Kp, Cp. done. }
    right. rewrite Hch in Ht. apply elem_of_app in Ht as [Ho|Hr].
    + exists s', i', n'. rewrite Hch'. split; [left|]. split; [done|]. apply Hb. right. eauto 10.
    + destruct (He _ _ Hm) as (m' & Hm' & Em). exists t, j, m'. rewrite Hch'. split; [by right|].
      split; [done|]. by eapply binds_ext.
Qed.

(** ** Climbing back to the root *)

(** the path above [n], bottom up: each node has the previous one as child *)
Inductive above (g : getter) : bytes -> Node -> list (bytes * Node) -> Node -> Prop :=
| above_top s n : above g s n [] n
| above_up s n s' p i r top :
    n_key p <> key -> shape g p -> canon p -> unode p -> (s, i) ∈ n_children p -> g i = Ok n ->
    n_key p ++ s `prefix_of` key -> above g s' p r top ->
    above g s n ((s', p) :: r) top.

(** [n'] stored in [tr] does to [n] what the update must do *)
Record replaced db (g : getter) (n : Node) (tr : trie) (n' : Node) : Prop := Replaced {
  rp_good : good (get_node db tr);
  rp_ext : ext g (get_node db tr);
  rp_stored : exists i, n_id n' = Some i /\ get_node db tr i = Ok n';
  rp_replaces : replaces g n (get_node db tr) n'
}.

(** linking a copy [x] of [p] to the new child [n'] that takes the place of [old] *)
Lemma link_parent db g p m x old rest s' n' tr r :
  good g -> shape g p -> canon p \/ rest <> [] -> (length old <= 1)%nat ->
  n_key p <> key -> n_children p ≡ₚ old ++ rest ->
  n_id x = None -> n_key x = n_key p -> n_length x = n_length p -> n_content x = n_content p ->
  n_children x ≡ₚ rest ->
  good (get_node db tr) -> ext g (get_node db tr) ->
  (exists i', n_id n' = Some i' /\ get_node db tr i' = Ok n') -> n_key n' = n_key p ++ s' ->
  s' <> [] -> n_key p ++ s' `prefix_of` key ->
  (forall t j, (t, j) ∈ rest -> head t <> head s') ->
  (forall k c, binds (get_node db tr) n' k c <-> (k = key /\ c = content) \/
     (k <> key /\ exists t j m, (t, j) ∈ old /\ g j = Ok m /\ binds g m k c)) ->
  n_content p = None \/ unode p -> builds (link_nodes ((m, x) :: r) (Some (s', n'))) ->
  exists n2 tr2, link_path sha256 ((m, x) :: r) (Some (s', n')) tr =
                 link_path sha256 r (Some (m, n2)) tr2 /\ replaced db g p tr2 n2 /\
                 builds (link_nodes r (Some (m, n2))).
Proof using HH.
  intros Hg Hs Hcp Hold Hk Hperm Ix Kx Lx Cx Dx Hgt Het (i' & Ii' & Gi') Kn Hne Hpre Hrest Hb Hup [Hu Hbl]%builds_cons.
  assert (Hx' : n_children (attach x (Some (s', n'))) ≡ₚ (s', i') :: rest).
  { simpl. rewrite Ii'. simpl. rewrite <- Dx. apply dset_fresh, heads_fresh.
    intros t j. rewrite Dx. apply Hrest. }
  assert (Hsx : shape (get_node db tr) (attach x (Some (s', n')))).
  { by eapply (swap_shape g _ p _ old rest s' i' n'). }
  assert (Hcx : canon (attach x (Some (s', n')))).
  { unfold canon in *. rewrite Hx'. simpl n_key. simpl n_content. rewrite Kx, Cx. cbn [length].
    destruct Hcp as [[?|[?|Hl]]|Hl]; [by left|by right; left|right; right..].
    - rewrite Hperm, length_app in Hl. lia.
    - destruct rest; [done|simpl; lia]. }
  assert (Hux : unode (attach x (Some (s', n')))).
  { apply Hu, (shape_allowed (get_node db tr)); [by apply hashed_shape|]. simpl. rewrite Cx.
    destruct Hup; [by left|right; right; eauto]. }
  destruct (insert_node_spec db tr _ Hgt Hsx Hcx Hux) as (Hg2 & He2 & Hst2).
  exists (hashed (attach x (Some (s', n')))), (insert_node tr (hashed (attach x (Some (s', n'))))).
  split; [apply link_cons; [done|]; intros ?? [= <- <-]; by eexists|]. split; [|exact Hbl].
  assert (He02 : ext g (get_node db (insert_node tr (hashed (attach x (Some (s', n'))))))).
  { by eapply ext_trans. }
  destruct (He2 _ _ Gi') as (n2 & Gn2 & En2).
  constructor; [done|done|by eexists|]. eapply (swap_child g _ p _ old rest s' i' n2); try done.
  intros k c. rewrite <- Hb. symmetry.
  eapply binds_stable_equiv; [done|done|apply (Hgt _ _ Gi')|done].
Qed.

Lemma above_copies g s n rlog top : above g s n rlog top -> exists copies, copy_path rlog s = Ok copies.
Proof.
  induction 1 as [|s n s' p i r top Hk Hs _ _ Hin Hi _ _ [copies Hc]]; [by exists []|].
  destruct (ddel_perm (n_children p) s i) as (rest & Hdel & _); [apply heads_ok_nodup, Hs|done|].
  eexists. cbn [copy_path]. simpl n_children. rewrite Hdel. simpl rbind. by rewrite Hc.
Qed.

Lemma climb db g s n rlog top tr n' copies :
  good g -> above g s n rlog top -> replaced db g n tr n' ->
  copy_path rlog s = Ok copies -> builds (link_nodes copies (Some (s, n'))) ->
  exists tr', link_path sha256 copies (Some (s, n')) tr = (Ok tt, tr') /\
    replaced db g top tr' (root tr').
Proof using HH.
  intros Hg Ha. revert tr n' copies.
  induction Ha as [s n|s n s' p i r top Hk Hs Hcp Hup Hin Hi Hpre Ha IH]; intros tr n' copies [Hgt Het Hst Hrp] Hcopy Hbl.
  { injection Hcopy as <-. by exists (mkTrie (_local_changes tr) n'). }
  destruct Hrp as [Kn' Hb]. pose proof (sh_heads _ _ _ Hs) as Hheads.
  destruct (ddel_perm (n_children p) s i) as (rest & Hdel & Hperm); [by apply heads_ok_nodup|done|].
  rewrite Hperm in Hheads. apply heads_ok_cons in Hheads as (Hne & _ & Hrest).
  cbn [copy_path] in Hcopy. simpl n_children in Hcopy. rewrite Hdel in Hcopy. simpl rbind in Hcopy.
  destruct (copy_path r s') as [copies'|] eqn:Hc; [|done]. injection Hcopy as <-.
  set (x := node_copy (node_copy p None None) None (Some rest)) in *.
  destruct (link_parent db g p s' x [(s, i)] rest s n' tr copies') as (n2 & tr2 & -> & Hr2 & Hb2); try done.
  - by left.
  - rewrite Kn'. by eapply child_of.
  - intros k c. rewrite Hb. split; (intros [?|[? Hbn]]; [by left|right]; split; [done|]).
    + exists s, i, n. by rewrite list_elem_of_singleton.
    + destruct Hbn as (t & j & m & Ht & Hm & ?). apply list_elem_of_singleton in Ht as [= -> ->].
      congruence.
  - by right.
  - by apply IH.
Qed.

(** ** The bottom of the path *)

(** [new_nodes], linked, replace the nearest node [r] *)
Definition links db (tr : trie) (m : bytes) (r : Node) (news : list (bytes * Node)) : Prop :=
  forall copies, builds (link_nodes (rev news ++ copies) None) -> exists n' tr1,
    link_path sha256 (rev news ++ copies) None tr = link_path sha256 copies (Some (m, n')) tr1 /\
    replaced db (get_node db tr) r tr1 n' /\ builds (link_nodes copies (Some (m, n'))).

(** storing the lowest new node *)
Lemma link_bottom db tr s x copies :
  good (get_node db tr) -> shape (get_node db tr) x -> canon x -> n_id x = None ->
  n_content x = Some content -> builds (link_nodes ((s, x) :: copies) None) ->
  exists tr1, link_path sha256 ((s, x) :: copies) None tr =
              link_path sha256 copies (Some (s, hashed x)) tr1 /\
    good (get_node db tr1) /\ ext (get_node db tr) (get_node db tr1) /\
    (exists i, n_id (hashed x) = Some i /\ get_node db tr1 i = Ok (hashed x)) /\
    builds (link_nodes copies (Some (s, hashed x))).
Proof using HH.
  intros Hg Hx Hcx Ix Cx [Hu Hbl]%builds_cons. exists (insert_node tr (hashed x)).
  assert (Hux : unode x) by (apply Hu, (shape_allowed (get_node db tr)); [by apply hashed_shape|by right; left]).
  destruct (insert_node_spec db tr x Hg Hx Hcx Hux) as (? & ? & ?).
  rewrite link_cons by done. split; [done|]. split; [done|]. split; [done|]. split; [by eexists|done].
Qed.

Lemma links_found db tr m r :
  good (get_node db tr) -> shape (get_node db tr) r -> n_key r = key ->
  links db tr m r [(m, node_copy r (Some content) None)].
Proof using HH.
  intros Hg Hs Hk copies Hbl. set (x := node_copy r (Some content) None) in *.
  assert (Hx : shape (get_node db tr) x).
  { destruct Hs. constructor; try done. intros _. simpl. rewrite Hk. eauto. }
  destruct (link_bottom db tr m x copies) as (tr1 & E & Hg1 & He1 & Hst & Hbl1);
    [done|done|by right; left; eexists|done..|].
  exists (hashed x), tr1. split; [exact E|]. split; [|done]. constructor; [done..|]. split; [done|].
  intros k c. rewrite (binds_stable sha256 U (get_node db tr)) by (done || by apply hashed_shape).
  rewrite binds_unfold. simpl. rewrite (binds_unfold _ r). split.
  - intros [[<- [= <-]]|(s & i & n & Hi & Hn & Hb)]; [by left|right].
    split; [|eauto 10]. rewrite <- Hk. by eapply (child_binds sha256 U (get_node db tr) r s i n k c).
  - intros [[-> ->]|[Hne [[? _]|?]]]; [by left|congruence|by right].
Qed.

Lemma shape_leaf g : hexkey key -> shape g (leaf key content).
Proof.
  intros. constructor; try done; simpl.
  - eauto.
  - split; constructor.
  - by intros ?? ?%not_elem_of_nil.
Qed.

Lemma binds_leaf g i k c :
  binds g (mkNode key (blen key) (Some content) [] i) k c <-> k = key /\ c = content.
Proof.
  rewrite binds_unfold. simpl. split; [|intros [-> ->]; by left].
  intros [[-> [= ->]]|(? & ? & ? & ?%not_elem_of_nil & _)]; done.
Qed.

Lemma canon_leaf : canon (leaf key content).
Proof. right. left. by eexists. Qed.

Lemma links_new_child db tr m r suf :
  good (get_node db tr) -> shape (get_node db tr) r -> canon r -> unode r -> hexkey key ->
  key = n_key r ++ suf -> suf <> [] ->
  (forall k v, (k, v) ∈ n_children r -> cpl suf k = O) ->
  links db tr m r [(m, node_copy r None None); (suf, leaf key content)].
Proof using HH.
  intros Hg Hs Hcr Hur Hh Ek Hne Hcpl copies. simpl rev. simpl app. intros Hbl.
  destruct (link_bottom db tr suf (leaf key content) ((m, node_copy r None None) :: copies))
    as (tr1 & E & Hg1 & He1 & Hst & Hbl1); [done|by apply shape_leaf|apply canon_leaf|done..|].
  rewrite E. apply (link_parent db _ r m _ [] (n_children r)); try done.
  - by left.
  - simpl. lia.
  - intros Hk. rewrite <- Hk in Ek. by apply app_self_nil in Ek.
  - by rewrite Ek.
  - intros t j Ht E'. pose proof (suffix_ne _ _ _ _ _ Hs Ht).
    destruct t as [|x t]; [done|]. destruct suf as [|y suf]; [done|]. injection E' as ->.
    specialize (Hcpl _ _ Ht). pose proof (proj2 (cpl_pos y suf y t) eq_refl). lia.
  - intros k c. unfold leaf, TrieTheory.hashed. simpl. rewrite binds_leaf.
    split; [by left|]. intros [?|(_ & ? & ? & ? & ?%not_elem_of_nil & _)]; done.
  - by right.
Qed.

(** the split node inserted above the child [k], which shares [p] with the suffix *)
Definition split_node (r : Node) (p k' v : bytes) (c : option bytes) : Node :=
  mkNode (n_key r ++ p) (blen (n_key r ++ p)) c [(k', v)] None.

Section split.
Context (db : DB) (tr : trie) (r : Node) (p k' v suf' : bytes).
Hypothesis Hg : good (get_node db tr).
Hypothesis Hs : shape (get_node db tr) r.
Hypothesis Hcr : canon r.
Hypothesis Hur : unode r.
Hypothesis Hin : (p ++ k', v) ∈ n_children r.
Hypothesis Hp : p <> [].
Hypothesis Hk' : k' <> [].
Hypothesis Ekey : key = (n_key r ++ p) ++ suf'.
Hypothesis Hh : hexkey key.

Lemma split_shape c :
  (is_Some c -> suf' = []) -> shape (get_node db tr) (split_node r p k' v c).
Proof using Hg Hs Hin Hk' Ekey Hh.
  intros Hsuf. unfold split_node. constructor; simpl; try done.
  - rewrite Ekey in Hh. by apply Forall_app in Hh as [? _].
  - intros Hsm. exists k0. rewrite Ekey, (Hsuf Hsm). by rewrite app_nil_r.
  - apply heads_ok_cons. split; [done|]. split; [split; constructor|]. by intros ?? ?%not_elem_of_nil.
  - intros s i [= -> ->]%list_elem_of_singleton. destruct (sh_children _ _ _ Hs _ _ Hin) as (? & m & ? & E).
    split; [done|]. exists m. by rewrite E, <- app_assoc.
Qed.

(** below the split node is what was below the child *)
Lemma split_binds_below k c :
  (exists s i m, (s, i) ∈ [(k', v)] /\ get_node db tr i = Ok m /\ binds (get_node db tr) m k c) <->
  (exists s i m, (s, i) ∈ [(p ++ k', v)] /\ get_node db tr i = Ok m /\ binds (get_node db tr) m k c).
Proof using.
  split; intros (s & i & m & [= -> ->]%list_elem_of_singleton & ? & ?).
  - exists (p ++ k'), v, m. by rewrite list_elem_of_singleton.
  - exists k', v, m. by rewrite list_elem_of_singleton.
Qed.

Lemma key_ne_parent : n_key r <> key.
Proof using Hp Ekey.
  rewrite Ekey, <- app_assoc. intros E%app_self_nil. by apply app_nil in E as [? _].
Qed.

Lemma split_rest : exists rest,
  ddel (n_children r) (p ++ k') = Ok rest /\ n_children r ≡ₚ [(p ++ k', v)] ++ rest /\
  (forall t j, (t, j) ∈ rest -> head t <> head p).
Proof using Hs Hin Hp.
  pose proof (sh_heads _ _ _ Hs) as Hheads.
  destruct (ddel_perm (n_children r) (p ++ k') v) as (rest & Hdel & Hperm); [by apply heads_ok_nodup|done|].
  exists rest. split; [done|]. split; [done|]. rewrite Hperm in Hheads.
  apply heads_ok_cons in Hheads as (_ & _ & H). intros t j Ht. specialize (H t j Ht).
  by rewrite head_app in H.
Qed.

(** the key is the split node's own key *)
Lemma links_split_here m rest :
  suf' = [] ->
  n_children r ≡ₚ [(p ++ k', v)] ++ rest -> (forall t j, (t, j) ∈ rest -> head t <> head p) ->
  links db tr m r [(m, node_copy r None (Some rest)); (p, split_node r p k' v (Some content))].
Proof using HH Hg Hs Hcr Hur Hin Hp Hk' Ekey Hh.
  intros Hsuf Hperm Hrest copies. simpl rev. simpl app. intros Hbl.
  assert (Hx : shape (get_node db tr) (split_node r p k' v (Some content))).
  { by apply split_shape. }
  destruct (link_bottom db tr p _ ((m, node_copy r None (Some rest)) :: copies) Hg Hx)
    as (tr1 & E & Hg1 & He1 & Hst & Hbl1); [by right; left; eexists|done..|].
  rewrite E. apply (link_parent db _ r m _ [(p ++ k', v)] rest); try done.
  - by left.
  - apply key_ne_parent.
  - rewrite Ekey. by apply prefix_app_r.
  - intros k c. rewrite (binds_stable sha256 U (get_node db tr)) by (done || by apply hashed_shape).
    rewrite binds_unfold. simpl. rewrite split_binds_below.
    assert (Ek : n_key r ++ p = key) by (by rewrite Ekey, Hsuf, app_nil_r). rewrite Ek. split.
    + intros [[<- [= <-]]|H]; [by left|right]. split; [|done].
      apply split_binds_below in H as (s & i & n & Hi & Hn & Hb). rewrite <- Ek.
      by eapply (child_binds sha256 U (get_node db tr) (split_node r p k' v (Some content)) s i n k c).
    + intros [[-> ->]|[_ H]]; [by left|by right].
  - by right.
Qed.

(** the key is a new leaf below the split node *)
Lemma links_split_leaf m rest :
  suf' <> [] -> head k' <> head suf' ->
  n_children r ≡ₚ [(p ++ k', v)] ++ rest -> (forall t j, (t, j) ∈ rest -> head t <> head p) ->
  links db tr m r [(m, node_copy r None (Some rest)); (p, split_node r p k' v None);
                   (suf', leaf key content)].
Proof using HH Hg Hs Hcr Hur Hin Hp Hk' Ekey Hh.
  intros Hsuf Hhd Hperm Hrest copies. simpl rev. simpl app. intros Hbl.
  set (copies1 := (m, node_copy r None (Some rest)) :: copies) in *.
  destruct (link_bottom db tr suf' (leaf key content) ((p, split_node r p k' v None) :: copies1))
    as (tr1 & E & Hg1 & He1 & Hst & Hbl1); [done|by apply shape_leaf|apply canon_leaf|done..|]. rewrite E.
  assert (Hx : shape (get_node db tr) (split_node r p k' v None)).
  { apply split_shape. by intros [? ?]. }
  destruct (link_parent db (get_node db tr) (split_node r p k' v None) p (split_node r p k' v None)
    [] [(k', v)] suf' (hashed (leaf key content)) tr1 copies1) as (n2 & tr2 & E2 & [Hg2 He2 Hst2 [K2 Hb2]] & Hbl2);
    try done.
  - by right.
  - simpl. lia.
  - simpl. rewrite Ekey. by intros ?%app_self_nil.
  - simpl. by rewrite Ekey.
  - by intros t j [= -> ->]%list_elem_of_singleton.
  - intros k c. unfold leaf, TrieTheory.hashed. simpl. rewrite binds_leaf.
    split; [by left|]. intros [?|(_ & ? & ? & ? & ?%not_elem_of_nil & _)]; done.
  - by left.
  - rewrite E2. apply (link_parent db _ r m _ [(p ++ k', v)] rest); try done.
    + by left.
    + apply key_ne_parent.
    + rewrite Ekey. by apply prefix_app_r.
    + intros k c. rewrite Hb2, binds_unfold. simpl. rewrite split_binds_below.
      split; (intros [?|[? H]]; [by left|right]; split; [done|]); [by destruct H as [[_ ?]|?]|by right].
    + by right.
Qed.
End split.

(** where a walk ends *)
Definition ends (r : Node) : Prop :=
  n_key r = key \/
  (n_key r <> key /\ n_key r `prefix_of` key /\
   forall s i, (s, i) ∈ n_children r -> ~ n_key r ++ s `prefix_of` key).

Lemma update_links db tr m r :
  good (get_node db tr) -> shape (get_node db tr) r -> canon r -> unode r ->
  hexkey key -> ends r ->
  exists news, update_nodes key content m r = Ok news /\ links db tr m r news.
Proof using HH.
  intros Hg Hs Hcr Hur Hh He. unfold update_nodes.
  destruct He as [Hk|(Hk & [suf Esuf] & Hno)].
  { rewrite bool_decide_eq_true_2 by done. eexists. split; [done|]. by apply links_found. }
  rewrite bool_decide_eq_false_2 by done.
  assert (Hlen : Z.to_nat (n_length r) = length (n_key r)).
  { rewrite (sh_length _ _ _ Hs). unfold blen. apply Nat2Z.id. }
  assert (Hne : suf <> []) by (intros ->; apply Hk; by rewrite Esuf, app_nil_r).
  rewrite Hlen. replace (drop (length (n_key r)) key) with suf by (rewrite Esuf; symmetry; apply drop_suffix).
  pose proof (find_shared_spec suf (n_children r)) as Hsh.
  destruct (find_shared suf (n_children r)) as [[[k v] idx]|].
  2: { eexists. split; [done|]. by apply links_new_child. }
  destruct Hsh as (Hin & -> & Hpos).
  replace (S (Z.to_nat (Z.of_nat (cpl suf k) - 1))) with (cpl suf k) by lia.
  destruct (cpl_split suf k) as (p & suf' & k' & Es & Ek & Hlp & Hdiff).
  rewrite <- Hlp in *. clear Hlp. subst suf k.
  rewrite drop_suffix, take_app_length.
  assert (Hp : p <> []) by (destruct p; [simpl in Hpos; lia|done]).
  assert (Ekey : key = (n_key r ++ p) ++ suf') by (by rewrite <- app_assoc).
  assert (Htake : take (length (n_key r) + length p) key = n_key r ++ p).
  { by rewrite Ekey, <- length_app, take_app_length. }
  assert (Hk' : k' <> []).
  { intros ->. apply (Hno _ _ Hin). rewrite app_nil_r, Ekey. by apply prefix_app_r. }
  rewrite Htake. destruct (split_rest db tr r p k' v) as (rest & Hdel & Hperm & Hrest); try done.
  rewrite Hdel. cbn [rbind n_key]. case_bool_decide as Hkk.
  - assert (Hsuf : suf' = []) by (rewrite Ekey in Hkk; by apply app_self_nil in Hkk).
    eexists. split; [done|]. by eapply links_split_here.
  - assert (Hsuf : suf' <> []) by (intros ->; apply Hkk; by rewrite Ekey, app_nil_r).
    cbn [n_length]. unfold blen. rewrite Nat2Z.id.
    replace (drop (length (n_key r ++ p)) key) with suf' by (rewrite Ekey; symmetry; apply drop_suffix).
    eexists. split; [done|]. eapply links_split_leaf; try done.
    destruct k' as [|x k']; [done|]. destruct suf' as [|y suf']; [done|]. simpl.
    intros [= ->]. by eapply Hdiff.
Qed.

(** the log of a walk is the path above its end *)
Lemma walk_above g m n path r rlog top :
  good g -> shape g n -> canon n -> unode n -> walk g key m n path r -> above g m n rlog top ->
  exists m' path', path = path' ++ [(m', r)] /\ above g m' r (rev path' ++ rlog) top /\
                   shape g r /\ canon r /\ unode r /\ ends r.
Proof.
  intros Hg Hs Hcn Hun Hw. revert rlog Hs Hcn Hun.
  induction Hw as [m n Hk|m n Hk Hp Hno|m n s i ch path r Hk Hin Hpre Hch Hw IH]; intros rlog Hs Hcn Hun Ha.
  - exists m, []. do 5 (split; [done|]). by left.
  - exists m, []. do 5 (split; [done|]). by right.
  - destruct (IH ((m, n) :: rlog)) as (m' & path' & -> & Ha' & Hs' & He').
    + apply (Hg _ _ Hch).
    + apply (Hg _ _ Hch).
    + apply (Hg _ _ Hch).
    + by eapply above_up.
    + exists m', ((m, n) :: path'). split; [done|]. split; [|done].
      simpl. by rewrite <- app_assoc.
Qed.

(** what [_update] links: new nodes that replace the nearest one, and copies of the path above it *)
Lemma _update_path db tr :
  good (get_node db tr) -> shape (get_node db tr) (root tr) -> unode (root tr) -> n_key (root tr) = [] ->
  hexkey key ->
  exists m r rlog news copies,
    _update sha256 db key content tr = link_path sha256 (rev news ++ copies) None tr /\
    built_nodes db key content tr = link_nodes (rev news ++ copies) None /\
    update_nodes key content m r = Ok news /\ copy_path rlog m = Ok copies /\
    above (get_node db tr) m r rlog (root tr) /\ links db tr m r news.
Proof using HH.
  intros Hg Hs Hu Hk Hh. unfold _update, built_nodes, _find_nearest_node. cbn [rbind].
  destruct (nearest_loop_walk sha256 U (S (length key)) db tr key [] (root tr) [])
    as (path & r & E & Hw); [done|done|rewrite Hk; apply prefix_nil|lia|].
  rewrite E. simpl app.
  destruct (walk_above _ _ _ _ _ [] (root tr) Hg Hs (or_introl Hk) Hu Hw)
    as (m' & path' & -> & Ha & Hsr & Hcr & Hur & He); [constructor|]. rewrite app_nil_r in Ha.
  rewrite rev_app_distr. simpl rev. simpl app.
  destruct (update_links db tr m' r) as (news & Hn & Hl); try done.
  destruct (news_unhashed _ _ _ _ _ Hn) as (_ & x & tl & Hnews).
  destruct (above_copies _ _ _ _ _ Ha) as (copies & Hc). exists m', r, (rev path'), news, copies.
  rewrite Hn, Hc. unfold _build_path. rewrite rev_involutive. unfold bind, lift. rewrite Hnews, <- Hnews.
  by rewrite Hc.
Qed.

(** [_update] returns, whatever the digests of the nodes it makes *)
Lemma _update_returns db tr :
  good (get_node db tr) -> shape (get_node db tr) (root tr) -> unode (root tr) -> n_key (root tr) = [] ->
  hexkey key -> exists tr', _update sha256 db key content tr = (Ok tt, tr').
Proof using HH.
  intros Hg Hs Hu Hk Hh.
  destruct (_update_path db tr) as (m & r & rlog & news & copies & -> & _ & Hn & Hc & _); [done..|].
  destruct (news_unhashed _ _ _ _ _ Hn) as (Hn' & x & tl & ->).
  apply link_path_returns; [|simpl; by destruct (rev tl)].
  apply Forall_app. split; [by apply Forall_rev|by eapply copies_unhashed].
Qed.

Lemma _update_replaced db tr :
  good (get_node db tr) -> shape (get_node db tr) (root tr) -> unode (root tr) -> n_key (root tr) = [] ->
  hexkey key -> builds (built_nodes db key content tr) ->
  exists tr', _update sha256 db key content tr = (Ok tt, tr') /\
    replaced db (get_node db tr) (root tr) tr' (root tr').
Proof using HH.
  intros Hg Hs Hu Hk Hh Hbl.
  destruct (_update_path db tr) as (m & r & rlog & news & copies & -> & Eb & _ & Hc & Ha & Hl); [done..|].
  rewrite Eb in Hbl. destruct (Hl copies Hbl) as (n1 & tr1 & -> & Hr1 & Hbl1).
  by apply (climb db (get_node db tr) m r rlog (root tr) tr1 n1 copies).
Qed.
End with_key.
End update.
