(* ===== verification/TrieSpec.v ===== *)
(** What [PatriciaTrie] promises to the storages built on it: an invariant kept
    by every operation, and the map of keys to contents it stands for, which
    [get] reads, [update] changes at one key, and [commit] makes durable. *)

From stdpp Require Import base list gmap.
From Stdlib Require Import ZArith Lia Strings.Byte.
From S2P Require Import Prelude PatriciaTrie TrieHash TrieTheory TrieUpdate.

Local Open Scope Z_scope.
Local Open Scope py_scope.

(** * What a store promises *)

(** the children of a Python node form a dictionary: no key twice *)
Definition dict_ok (n : Node) : Prop := NoDup (map fst (n_children n)).

Class StoreLaws (DB : Type) `{!NodeTrieStore DB} (valid : DB -> Prop) (storable : Node -> Prop) : Prop := {
  store_missing : forall db k, db_contains db k = false -> db_getitem db k = Err KeyError;
  store_contains : forall db k, valid db -> db_contains db k = true -> is_ok (db_getitem db k) = true;
  store_get_contains : forall db k n, db_getitem db k = Ok n -> db_contains db k = true;
  store_set : forall db k n, dict_ok n -> storable n -> exists db', db_setitem db k n = Ok db';
  store_set_valid : forall db k n db', valid db -> dict_ok n -> db_setitem db k n = Ok db' -> valid db';
  store_get_set : forall db k n db', dict_ok n -> db_setitem db k n = Ok db' -> db_getitem db' k = Ok n;
  store_get_set_ne : forall db k k' n db', k <> k' -> db_setitem db k n = Ok db' ->
    db_getitem db' k' = db_getitem db k'
}.

Section spec.
Context (sha256 : bytes -> bytes) (U : bytes -> option bytes -> list bytes -> Prop) {HH : NodeHash sha256 U}.
Context {DB : Type} `{!NodeTrieStore DB} (valid : DB -> Prop) (storable : Node -> Prop).
Context {SL : StoreLaws DB valid storable}.

Abbreviation shape := (shape sha256).
Abbreviation good := (good sha256 U).
Abbreviation node_ok := (node_ok sha256 U).

(** * The invariant *)

Record tinv (db : DB) (tr : trie) : Prop := TInv {
  ti_valid : valid db;
  ti_db : good (db_getitem db);
  ti_good : good (get_node db tr);
  ti_ext : ext (db_getitem db) (get_node db tr);
  ti_root : exists i, node_ok (get_node db tr) i (root tr) /\
    (_local_changes tr !! i = Some (root tr) \/
     (_local_changes tr !! i = None /\ is_ok (db_getitem db i) = true));
  ti_key : n_key (root tr) = []
}.

(** the map a trie stands for *)
Definition tmap (db : DB) (tr : trie) (k c : bytes) : Prop :=
  binds (get_node db tr) (root tr) (_encode_key k) c.

Lemma ti_shape db tr : tinv db tr -> shape (get_node db tr) (root tr).
Proof. intros [_ _ _ _ (i & Hok & _) _]. apply Hok. Qed.

Lemma tmap_functional db tr k c c' : tinv db tr -> tmap db tr k c -> tmap db tr k c' -> c = c'.
Proof. intros Ht. eapply binds_functional; [apply Ht|by apply ti_shape]. Qed.

(** only encoded keys are bound *)
Lemma binds_encoded g n k c : good g -> shape g n -> binds g n k c -> exists k', k = _encode_key k'.
Proof.
  intros Hg Hs Hb. induction Hb as [n c Hc|n s i m k c Hi Hm Hb IH].
  - apply (sh_keyed _ _ _ Hs). by eexists.
  - apply IH. apply (Hg _ _ Hm).
Qed.

(** * [get] *)

Lemma _get_spec db tr key : tinv db tr -> key <> [] ->
  match _get db tr key None with
  | Ok c => binds (get_node db tr) (root tr) key c
  | Err e => e = KeyError /\ forall c, ~ binds (get_node db tr) (root tr) key c
  end.
Proof.
  intros Ht Hne. unfold _get. destruct key as [|b key]; [done|]. set (k := b :: key).
  unfold _find_nearest_node. cbn [rbind].
  destruct (nearest_loop_walk sha256 U (S (length k)) db tr k [] (root tr) []) as (path & r & E & Hw).
  - apply Ht.
  - by apply ti_shape.
  - rewrite (ti_key _ _ Ht). apply prefix_nil.
  - lia.
  - rewrite E. cbn [rbind fst].
    assert (Hb : forall c, binds (get_node db tr) (root tr) k c <-> n_key r = k /\ n_content r = Some c).
    { intros c. eapply walk_binds; [apply Ht|by apply ti_shape|done]. }
    case_bool_decide as Hk; [destruct (n_content r) as [c|] eqn:Hc|].
    + by apply Hb.
    + split; [done|]. intros c [_ ?]%Hb. done.
    + split; [done|]. intros c [? _]%Hb. done.
Qed.

Lemma get_spec db tr k : tinv db tr -> k <> [] ->
  match get db tr k None with
  | Ok c => tmap db tr k c
  | Err e => e = KeyError /\ forall c, ~ tmap db tr k c
  end.
Proof. intros Ht Hk. apply _get_spec; [done|]. by rewrite encode_key_nil. Qed.

Lemma get_ok_iff db tr k c : tinv db tr -> k <> [] -> get db tr k None = Ok c <-> tmap db tr k c.
Proof.
  intros Ht Hk. pose proof (get_spec db tr k Ht Hk) as H. destruct (get db tr k None) as [c'|e].
  - split; [by intros [= <-]|]. intros H'. f_equal. by eapply tmap_functional.
  - split; [done|]. intros H'. by destruct H as [_ []%(fun f => f c)].
Qed.

(** * [update] *)

(** [update] returns and changes the map at its key, whenever the hash commits to
    the nodes the update makes *)
Lemma update_builds db tr k content : tinv db tr ->
  builds sha256 U content (built_nodes sha256 db (_encode_key k) content tr) ->
  exists tr', update sha256 db k content tr = (Ok tt, tr') /\ tinv db tr' /\
    forall k' c, tmap db tr' k' c <-> (k' = k /\ c = content) \/ (k' <> k /\ tmap db tr k' c).
Proof using HH.
  intros Ht Hb0. destruct (_update_replaced sha256 U k content db tr)
    as (tr' & E & [Hg He (i & Ii & Gi) [Kr Hb]]).
  - apply Ht.
  - by apply ti_shape.
  - destruct (ti_root _ _ Ht) as (i & Hok & _). apply Hok.
  - apply Ht.
  - apply hexkey_encode.
  - done.
  - exists tr'. split; [done|]. split.
    + constructor; try apply Ht; try done.
      * eapply ext_trans; [apply Ht|done].
      * exists i. split; [by apply Hg|]. unfold get_node in Gi.
        destruct (_local_changes tr' !! i) as [n|]; [left; by simplify_eq|right]. by rewrite Gi.
      * rewrite Kr. apply Ht.
    + intros k' c. unfold tmap. rewrite Hb.
      assert (Hk : _encode_key k' = _encode_key k <-> k' = k).
      { split; [apply (inj _encode_key)|congruence]. }
      by rewrite Hk.
Qed.

Lemma update_returns db tr k content : tinv db tr ->
  exists tr', update sha256 db k content tr = (Ok tt, tr').
Proof using HH.
  intros Ht. destruct (ti_root _ _ Ht) as (i & Hok & _).
  apply (_update_returns sha256 U k content db tr); [apply Ht|apply Hok|apply Hok|apply Ht|apply hexkey_encode].
Qed.

(** [get] raises only [KeyError] *)
Lemma get_err db tr k e : tinv db tr -> k <> [] -> get db tr k None = Err e -> e = KeyError.
Proof. intros Ht Hk E. pose proof (get_spec db tr k Ht Hk) as H. rewrite E in H. by destruct H. Qed.

(** * [__init__] *)

(** a trie with no local change reads its database *)
Lemma get_node_clean db r i : get_node db (mkTrie ∅ r) i = db_getitem db i.
Proof. unfold get_node. simpl. by rewrite lookup_empty. Qed.

Lemma ext_pointwise g g' : (forall i, g i = g' i) -> ext g g'.
Proof. intros E i n Hi. exists n. rewrite <- E. split; [done|]. apply node_equivalence. Qed.

Lemma good_pointwise g g' : (forall i, g i = g' i) -> good g -> good g'.
Proof.
  intros E Hg i n Hi. rewrite <- E in Hi. destruct (Hg i n Hi) as [Hs Hc Hf ? ? ?].
  constructor; [by eapply shape_ext; [apply ext_pointwise|]|done| |done..].
  apply (finite_part g g' n n); [apply ext_pointwise; by symmetry|apply node_equivalence|exact Hf].
Qed.

Lemma binds_pointwise g g' n k c : (forall i, g i = g' i) -> binds g n k c <-> binds g' n k c.
Proof.
  intros E. split; intros Hb; eapply binds_ext; try exact Hb; try apply node_equivalence;
    by apply ext_pointwise.
Qed.

Lemma clean_tinv db r i :
  valid db -> good (db_getitem db) -> node_ok (db_getitem db) i r -> n_key r = [] ->
  is_ok (db_getitem db i) = true -> tinv db (mkTrie ∅ r).
Proof.
  intros Hv Hg Hr Hk Hi.
  assert (E : forall j, db_getitem db j = get_node db (mkTrie ∅ r) j) by (intros; by rewrite get_node_clean).
  constructor; [done|done|by eapply good_pointwise|by apply ext_pointwise| |done].
  exists i. split; [eapply node_ok_ext; [done|by apply ext_pointwise|done]|right].
  split; [apply lookup_empty|done].
Qed.

Definition empty_root : Node := hashed sha256 (mkNode [] 0 None [] None).

Lemma empty_shape g : shape g (mkNode [] 0 None [] None).
Proof.
  constructor; simpl; [by constructor|done|by intros []|split; constructor|].
  by intros ?? ?%not_elem_of_nil.
Qed.

Lemma init_empty_spec db : valid db -> good (db_getitem db) -> storable empty_root -> U [] None [] ->
  exists tr db', trie_init sha256 None db = (Ok tr, db') /\ tinv db' tr /\
    ext (db_getitem db) (db_getitem db') /\ forall k c, ~ tmap db' tr k c.
Proof using HH SL.
  intros Hv Hg Hs Hu. unfold trie_init, update_id. cbn [n_id node_id].
  change (mkNode _ _ _ _ (Some _)) with empty_root.
  assert (Hd : dict_ok empty_root) by constructor.
  destruct (store_set db (calculate_id sha256 (mkNode [] 0 None [] None)) empty_root Hd Hs) as (db' & E).
  rewrite E. exists (mkTrie ∅ empty_root), db'.
  destruct (stored_spec sha256 U (db_getitem db) (db_getitem db')
    (calculate_id sha256 (mkNode [] 0 None [] None)) empty_root) as (Hg' & He & Hi).
  - done.
  - apply hashed_ok; [done|apply empty_shape|by left|exact Hu].
  - intros j. unfold stored. case_bool_decide as Ej; [subst j; by eapply store_get_set|].
    by eapply store_get_set_ne.
  - split; [done|]. split; [|split; [done|]].
    + eapply clean_tinv; [by eapply store_set_valid|done|by apply Hg'|done|]. by rewrite Hi.
    + intros k c Hb. unfold tmap in Hb. apply binds_unfold in Hb as [[_ ?]|(? & ? & ? & ?%not_elem_of_nil & _)]; done.
Qed.

Lemma init_root_spec db i r : valid db -> good (db_getitem db) ->
  db_getitem db i = Ok r -> n_key r = [] ->
  trie_init sha256 (Some i) db = (Ok (mkTrie ∅ r), db) /\ tinv db (mkTrie ∅ r).
Proof.
  intros Hv Hg Hi Hk. unfold trie_init. rewrite Hi. rewrite bool_decide_eq_true_2 by apply (Hg _ _ Hi).
  split; [done|]. eapply clean_tinv; [done|done|by apply Hg|done|]. by rewrite Hi.
Qed.

(** * [commit] *)

Lemma children_eqb_perm d d' : NoDup (map fst d') -> d ≡ₚ d' -> children_eqb d d' = true.
Proof.
  intros Hn Hp. unfold children_eqb. rewrite Hp at 1. rewrite Nat.eqb_refl. simpl.
  apply forallb_forall. intros [k v] Hin%list_elem_of_In. rewrite Hp in Hin.
  apply bool_decide_eq_true. simpl. clear Hp. induction d' as [|[k' v'] d' IH]; [by apply not_elem_of_nil in Hin|].
  simpl in *. apply NoDup_cons in Hn as [Hx Hn]. apply elem_of_cons in Hin as [[= -> ->]|Hin].
  - by rewrite bool_decide_eq_true_2.
  - rewrite bool_decide_eq_false_2; [auto|]. intros ->. apply Hx. apply list_elem_of_fmap. by exists (k, v).
Qed.

Lemma node_eqb_equiv n m : dict_ok m -> n ≡ m -> node_eqb n m = true.
Proof.
  intros Hd [Hk Hl Hn Hc Hi]. unfold node_eqb. rewrite Hk, Hl, Hn, Hi. rewrite !bool_decide_eq_true_2, Z.eqb_refl by done.
  simpl. rewrite children_eqb_perm by done. done.
Qed.

Section committing.
Context (db0 : DB) (tr : trie) (Ht : tinv db0 tr).
Context (Hstore : forall i n, _local_changes tr !! i = Some n -> storable n).

Abbreviation g := (get_node db0 tr).
Abbreviation local := (_local_changes tr).

(** a database during the commit: it has the nodes of [db0] and some local
    ones; only the nodes in [pending] may still miss a child *)
Record committing (pending : list bytes) (db : DB) : Prop := Committing {
  cm_valid : valid db;
  cm_old : forall j m, db_getitem db0 j = Ok m -> db_getitem db j = Ok m;
  cm_new : forall j m, db_getitem db j = Ok m -> db_getitem db0 j = Ok m \/ local !! j = Some m;
  cm_closed : forall j m, db_getitem db j = Ok m -> j ∈ pending \/
    forall s c, (s, c) ∈ n_children m -> is_ok (db_getitem db c) = true
}.

Lemma committing_ok pending db j m :
  committing pending db -> db_getitem db j = Ok m -> node_ok g j m /\ exists m', g j = Ok m' /\ m ≡ m'.
Proof using Ht.
  intros Hc Hj. destruct (cm_new _ _ Hc _ _ Hj) as [H0|Hl].
  - destruct (ti_ext _ _ Ht _ _ H0) as (m' & Hm' & Em). split; [|eauto].
    eapply node_ok_ext; [apply (ti_db _ _ Ht)|apply Ht|]. by apply (ti_db _ _ Ht).
  - assert (Hm : g j = Ok m) by (unfold get_node; by rewrite Hl).
    split; [by apply (ti_good _ _ Ht)|]. exists m. split; [done|]. apply node_equivalence.
Qed.

(** a node the commit visits: the root or a local node *)
Definition visited (i : bytes) (n : Node) : Prop :=
  node_ok g i n /\ (local !! i = Some n \/ (local !! i = None /\ is_ok (db_getitem db0 i) = true)).

Lemma add_to_db_spec pending db i n :
  committing pending db -> visited i n ->
  exists db', _add_to_db_or_assert n db = (Ok tt, db') /\ committing (i :: pending) db' /\
    is_ok (db_getitem db' i) = true /\
    (forall j m, db_getitem db j = Ok m -> db_getitem db' j = Ok m).
Proof using Ht Hstore HH SL.
  intros Hc [Hokn Hl]. pose proof Hokn as [Hs _ _ Hi Hh _]. unfold _add_to_db_or_assert, node_id. rewrite Hi.
  assert (Hd : dict_ok n) by (apply heads_ok_nodup; apply Hs).
  destruct (db_contains db i) eqn:Ec.
  - destruct (db_getitem db i) as [m|e] eqn:Em.
    2: { pose proof (store_contains db i (cm_valid _ _ Hc) Ec) as H. by rewrite Em in H. }
    rewrite node_eqb_equiv; [|done|].
    + exists db. split; [done|]. split; [|by rewrite Em]. destruct Hc as [? ? ? Hcl].
      constructor; try done. intros j m' Hj. destruct (Hcl j m' Hj); [left; by right|by right].
    + destruct (committing_ok _ _ _ _ Hc Em) as [Hok _].
      eapply node_ok_unique; [exact HH|apply ext_refl|exact Hok|exact Hokn].
  - assert (Hmiss : db_getitem db i = Err KeyError) by (by apply store_missing).
    assert (Hli : local !! i = Some n).
    { destruct Hl as [?|[_ Hi0]]; [done|]. destruct (db_getitem db0 i) as [m|] eqn:E0; [|done].
      rewrite (cm_old _ _ Hc _ _ E0) in Hmiss. done. }
    destruct (store_set db i n Hd (Hstore _ _ Hli)) as (db' & E). rewrite E. exists db'. split; [done|].
    assert (Hgi : db_getitem db' i = Ok n) by (by eapply store_get_set).
    assert (Hne : forall j, j <> i -> db_getitem db' j = db_getitem db j)
      by (intros; by eapply store_get_set_ne).
    assert (Hmono : forall j m, db_getitem db j = Ok m -> db_getitem db' j = Ok m).
    { intros j m Hj. rewrite Hne; [done|]. intros ->. by rewrite Hmiss in Hj. }
    split; [|split; [by rewrite Hgi|done]]. destruct Hc as [Hv Ho Hn Hcl]. constructor.
    + by eapply store_set_valid.
    + auto.
    + intros j m Hj. destruct (decide (j = i)) as [->|Hji]; [right; congruence|].
      apply Hn. by rewrite <- Hne.
    + intros j m Hj. destruct (decide (j = i)) as [->|Hji]; [left; left|].
      rewrite Hne in Hj by done. destruct (Hcl j m Hj) as [?|Hch]; [left; by right|right].
      intros s c Hsc. specialize (Hch s c Hsc). destruct (db_getitem db c) eqn:Ecc; [|done].
      by rewrite (Hmono _ _ Ecc).
Qed.

(** the fuel of [commit] covers every path *)
Definition bound : nat := pred (commit_fuel tr).

Lemma bound_root : (length (n_key (root tr)) <= bound)%nat.
Proof using. unfold bound, commit_fuel. simpl. lia. Qed.

Lemma bound_local i n : local !! i = Some n -> (length (n_key n) <= bound)%nat.
Proof using.
  intros Hl. unfold bound, commit_fuel. cbn [pred].
  assert (Hall : Forall (fun k => k <= list_max (map (fun n => length (n_key n))
    (root tr :: (map_to_list (_local_changes tr)).*2)))%nat
    (map (fun n => length (n_key n)) (root tr :: (map_to_list (_local_changes tr)).*2))).
  { by apply list_max_le. }
  rewrite Forall_forall in Hall. apply Hall. apply list_elem_of_fmap. exists n. split; [done|].
  right. apply list_elem_of_fmap. exists (i, n). split; [done|]. by apply elem_of_map_to_list.
Qed.

(** the loop over the children of a visited node *)
Lemma commit_children_spec fuel pending n cs db :
  (forall pending db i n, committing pending db -> visited i n ->
    (length (n_key n) <= bound < fuel + length (n_key n))%nat ->
    exists db', _commit_dfs fuel local n db = (Ok tt, db') /\ committing pending db' /\
      is_ok (db_getitem db' i) = true /\
      (forall j m, db_getitem db j = Ok m -> db_getitem db' j = Ok m)) ->
  shape g n -> (forall s c, (s, c) ∈ cs -> (s, c) ∈ n_children n) ->
  (bound < S fuel + length (n_key n))%nat -> committing pending db ->
  exists db', for_each (map snd cs) (fun child_id =>
      match local !! child_id with
      | Some child => _commit_dfs fuel local child
      | None => fun db => py_assert (db_contains db child_id) db
      end) db = (Ok tt, db') /\ committing pending db' /\
    (forall s c, (s, c) ∈ cs -> is_ok (db_getitem db' c) = true) /\
    (forall j m, db_getitem db j = Ok m -> db_getitem db' j = Ok m).
Proof using Ht SL.
  intros IH Hs Hcs Hf. revert db. induction cs as [|[s c] cs IHcs]; intros db Hc.
  { exists db. split; [done|]. split; [done|]. split; [by intros ?? ?%not_elem_of_nil|done]. }
  assert (Hin : (s, c) ∈ n_children n) by (apply Hcs; left).
  destruct (sh_children _ _ _ Hs s c Hin) as (_ & m & Hm & Km).
  assert (Hstep : exists db1, (match local !! c with
      | Some child => _commit_dfs fuel local child
      | None => fun db => py_assert (db_contains db c) db
      end) db = (Ok tt, db1) /\ committing pending db1 /\ is_ok (db_getitem db1 c) = true /\
      (forall j m, db_getitem db j = Ok m -> db_getitem db1 j = Ok m)).
  { destruct (local !! c) as [child|] eqn:El.
    - assert (m = child) as -> by (unfold get_node in Hm; rewrite El in Hm; by simplify_eq).
      apply IH; [done|split; [by apply (ti_good _ _ Ht)|by left]|].
      split; [by eapply bound_local|]. rewrite Km, length_app.
      pose proof (suffix_ne _ _ _ _ _ Hs Hin). destruct s; [done|simpl; lia].
    - assert (H0 : db_getitem db0 c = Ok m) by (unfold get_node in Hm; by rewrite El in Hm).
      pose proof (cm_old _ _ Hc _ _ H0) as Hd. rewrite (store_get_contains _ _ _ Hd).
      exists db. split; [done|]. split; [done|]. by rewrite Hd. }
  destruct Hstep as (db1 & E1 & Hc1 & Hi1 & Hm1).
  destruct (IHcs ltac:(intros; apply Hcs; by right) db1 Hc1) as (db' & E' & Hc' & Hall & Hm').
  exists db'. cbn [map for_each snd]. rewrite (bind_ok _ _ _ _ _ E1).
  split; [done|]. split; [done|]. split; [|auto].
  intros s' c' [[= -> ->]|Hin']%elem_of_cons; [|by eapply Hall].
  destruct (db_getitem db1 c) as [mc|] eqn:Ec; [|done]. by rewrite (Hm' _ _ Ec).
Qed.

Lemma commit_dfs_spec fuel pending db i n :
  committing pending db -> visited i n ->
  (length (n_key n) <= bound < fuel + length (n_key n))%nat ->
  exists db', _commit_dfs fuel local n db = (Ok tt, db') /\ committing pending db' /\
    is_ok (db_getitem db' i) = true /\
    (forall j m, db_getitem db j = Ok m -> db_getitem db' j = Ok m).
Proof using Ht Hstore HH SL.
  revert pending db i n. induction fuel as [|fuel IH]; intros pending db i n Hc Hv Hf; [lia|].
  destruct (add_to_db_spec pending db i n Hc Hv) as (db1 & E1 & Hc1 & Hi1 & Hm1).
  destruct Hv as [Hok Hl]. pose proof (ok_shape _ _ _ _ _ Hok) as Hs.
  destruct (commit_children_spec fuel (i :: pending) n (n_children n) db1 IH Hs)
    as (db2 & E2 & Hc2 & Hall & Hm2); [done|lia|done|].
  exists db2. cbn [_commit_dfs]. rewrite (bind_ok _ _ _ _ _ E1).
  split; [exact E2|]. split; [|split; [|auto]].
  - pose proof Hc2 as [? ? ? Hcl]. constructor; try done.
    intros j m Hj. destruct (Hcl j m Hj) as [[->|?]%elem_of_cons|?]; [right|by left|by right].
    intros s c Hsc. eapply Hall. destruct (committing_ok _ _ _ _ Hc2 Hj) as [Hokm _].
    assert (Eq : m ≡ n) by (eapply node_ok_unique; [exact HH|apply ext_refl|exact Hokm|exact Hok]).
    by rewrite <- (eqv_children _ _ Eq).
  - destruct (db_getitem db1 i) as [m|] eqn:Ei; [|done]. by rewrite (Hm2 _ _ Ei).
Qed.

(** the database the commit leaves is closed under children *)
Lemma committed_good db : committing [] db -> good (db_getitem db) /\ ext (db_getitem db) g.
Proof using Ht.
  intros Hc. assert (He : ext (db_getitem db) g).
  { intros j m Hj. by destruct (committing_ok _ _ _ _ Hc Hj) as [_ ?]. }
  split; [|exact He].
  - intros j m Hj. destruct (committing_ok _ _ _ _ Hc Hj) as [[[? ? ? ? Hch] ? Hf ? ? ?] _].
    constructor; [|done|apply (finite_part g _ m m); [exact He|apply node_equivalence|exact Hf]|done..].
    constructor; try done. intros s c Hsc.
    destruct (Hch s c Hsc) as (Hd & mc & Hmc & Kc). split; [done|].
    destruct (cm_closed _ _ Hc j m Hj) as [[]%not_elem_of_nil|Hall].
    specialize (Hall s c Hsc). destruct (db_getitem db c) as [mc'|] eqn:Ec; [|done].
    exists mc'. split; [done|]. destruct (committing_ok _ _ _ _ Hc Ec) as [_ (m'' & Hm'' & Em)].
    rewrite Hmc in Hm''. simplify_eq. by rewrite (eqv_key _ _ Em).
Qed.

Lemma commit_spec : exists db', commit (db0, tr) = (Ok tt, (db', mkTrie ∅ (root tr))) /\
  tinv db' (mkTrie ∅ (root tr)) /\
  (forall k c, tmap db' (mkTrie ∅ (root tr)) k c <-> tmap db0 tr k c) /\
  ext (db_getitem db0) (db_getitem db').
Proof using Ht Hstore HH SL.
  destruct (ti_root _ _ Ht) as (i & Hok & Hl).
  destruct (commit_dfs_spec (commit_fuel tr) [] db0 i (root tr)) as (db' & E & Hc & Hi & Hm).
  - constructor; try done; try apply Ht; [by left|]. intros j m Hj. right. intros s c Hsc.
    destruct (sh_children _ _ _ (ok_shape _ _ _ _ _ (ti_db _ _ Ht _ _ Hj)) s c Hsc) as (_ & mc & Hmc & _).
    by rewrite Hmc.
  - by split.
  - split; [apply bound_root|]. assert (commit_fuel tr = S bound) by done. lia.
  - destruct (committed_good db' Hc) as [Hg' He'].
    assert (Hroot : node_ok (db_getitem db') i (root tr)).
    { destruct (db_getitem db' i) as [r|] eqn:Er; [|done].
      assert (Eq : r ≡ root tr).
      { eapply node_ok_unique; [exact HH|exact He'|by apply Hg'|exact Hok]. }
      pose proof (Hg' _ _ Er) as [Hsr _ Hfr _ _ _]. destruct Hok as [_ ? _ ? ? ?].
      constructor; [by eapply shape_proper|done| |done..].
      eapply finite_part; [apply ext_refl|exact Eq|exact Hfr]. }
    exists db'. unfold commit. rewrite E. split; [done|]. split; [|split].
    + eapply clean_tinv; [apply Hc|done|done|apply Ht|done].
    + intros k c. unfold tmap.
      rewrite (binds_stable sha256 U (db_getitem db') g) by (done || apply Hroot).
      eapply binds_pointwise. intros j. simpl. by rewrite get_node_clean.
    + intros j m Hj. exists m. split; [by apply Hm|]. apply node_equivalence.
Qed.
End committing.
End spec.

(** * Contents that a hash delimits

    The storages read and write tries whose contents all come from some [V]; what
    they need of a trie is stated over every node with contents in [V]. *)
Section contents.
Context (sha256 : bytes -> bytes) (V : bytes -> Prop) {HH : NodeHash sha256 (over sha256 V)}.
Context {DB : Type} `{!NodeTrieStore DB} (valid : DB -> Prop).

Abbreviation tinv := (tinv sha256 (over sha256 V) valid).

Lemma over_empty : over sha256 V [] None [].
Proof. split; [by constructor|]. split; [done|constructor]. Qed.

Lemma over_builds content l : V content -> builds sha256 (over sha256 V) content l.
Proof.
  intros HV x _ (Hk & Hd & Hc). split; [done|]. split; [|done]. intros c Ec.
  destruct Hc as [E|[E|(p & (_ & Hp & _) & E)]]; [congruence| |apply Hp; congruence].
  rewrite Ec in E. by injection E as ->.
Qed.

Lemma update_spec db tr k content : tinv db tr -> V content ->
  exists tr', update sha256 db k content tr = (Ok tt, tr') /\ tinv db tr' /\
    forall k' c, tmap db tr' k' c <-> (k' = k /\ c = content) \/ (k' <> k /\ tmap db tr k' c).
Proof using HH. intros Ht HV. apply (update_builds sha256 (over sha256 V) valid db tr k content Ht). by apply over_builds. Qed.

(** the same in terms of [get] *)
Lemma update_get db tr k content :
  tinv db tr -> V content -> k <> [] ->
  exists tr', update sha256 db k content tr = (Ok tt, tr') /\ tinv db tr' /\
    get db tr' k None = Ok content /\
    forall k', k' <> [] -> k' <> k -> get db tr' k' None = get db tr k' None.
Proof using HH.
  intros Ht HV Hk. destruct (update_spec db tr k content Ht HV) as (tr' & E & Ht' & Hm).
  exists tr'. split; [done|]. split; [done|]. split.
  - eapply get_ok_iff; [done..|]. apply Hm. by left.
  - intros k' Hk' Hne. pose proof (get_spec _ _ _ db tr k' Ht Hk') as H.
    destruct (get db tr k' None) as [c|e].
    + eapply get_ok_iff; [done..|]. apply Hm. by right.
    + destruct H as [-> Hno]. pose proof (get_spec _ _ _ db tr' k' Ht' Hk') as H'.
      destruct (get db tr' k' None) as [c|e]; [|by destruct H' as [-> _]].
      apply Hm in H' as [[? _]|[_ H']]; [done|by destruct (Hno c)].
Qed.
End contents.

(** a store good for some nodes is good for more *)
Lemma good_mono sha256 (U U' : bytes -> option bytes -> list bytes -> Prop) g :
  (forall k c l, U k c l -> U' k c l) -> good sha256 U g -> good sha256 U' g.
Proof. intros H Hg i n Hi. destruct (Hg i n Hi). constructor; [done..|]. by apply H. Qed.

Lemma tinv_mono sha256 (U U' : bytes -> option bytes -> list bytes -> Prop) `{!NodeTrieStore DB} (valid : DB -> Prop) db tr :
  (forall k c l, U k c l -> U' k c l) -> tinv sha256 U valid db tr -> tinv sha256 U' valid db tr.
Proof.
  intros H [Hv Hd Hg He (i & [] & Hl) Hk].
  constructor; [done|exact (good_mono _ _ _ _ H Hd)|exact (good_mono _ _ _ _ H Hg)|done| |done].
  exists i. split; [|done]. constructor; [done..|]. by apply H.
Qed.
