(* ===== verification/TrieCanon.v ===== *)
(** The structure of a Patricia trie is determined by its contents: tries that
    bind the same keys to the same contents have the same root id, whatever the
    order of the updates that built them; and the root id determines the map. *)

From stdpp Require Import base list gmap.
From Stdlib Require Import ZArith Lia Strings.Byte.
From S2P Require Import Prelude PatriciaTrie TrieHash TrieTheory TrieUpdate TrieSpec.

Local Open Scope Z_scope.

Section canon.
Context (sha256 : bytes -> bytes) (U : bytes -> option bytes -> list bytes -> Prop) {HH : NodeHash sha256 U}.

Abbreviation shape := (shape sha256).
Abbreviation good := (good sha256 U).
Abbreviation node_ok := (node_ok sha256 U).

(** ** The root id determines the map *)

Lemma same_id_binds g1 g2 i n1 n2 k c :
  good g1 -> good g2 -> node_ok g1 i n1 -> node_ok g2 i n2 -> binds g1 n1 k c -> binds g2 n2 k c.
Proof using HH.
  intros Hg1 Hg2 Hn1 Hn2 Hb. revert i n2 Hn1 Hn2.
  assert (Hcommit : forall i m1 m2, node_ok g1 i m1 -> node_ok g2 i m2 ->
    n_key m1 = n_key m2 /\ n_content m1 = n_content m2 /\
    sorted (map snd (n_children m1)) = sorted (map snd (n_children m2))).
  { intros i m1 m2 [_ _ _ _ H1 U1] [_ _ _ _ H2 U2]. rewrite H1 in H2. unfold calculate_id in H2.
    by apply (hash_commits (U := U)) in H2. }
  induction Hb as [n1 c Hc|n1 s j m1 k c Hj Hm1 Hb IH]; intros i n2 Hn1 Hn2.
  - destruct (Hcommit _ _ _ Hn1 Hn2) as (-> & E & _). constructor. by rewrite <- E.
  - destruct (Hcommit _ _ _ Hn1 Hn2) as (_ & _ & E).
    assert (Hin : j ∈ map snd (n_children n2)).
    { rewrite <- (sorted_perm (map snd (n_children n2))), <- E, sorted_perm.
      apply list_elem_of_fmap. by exists (s, j). }
    apply list_elem_of_fmap in Hin as ([s' j'] & Ej & Hin). simpl in Ej. subst j'.
    destruct (sh_children _ _ _ (ok_shape _ _ _ _ _ Hn2) _ _ Hin) as (_ & m2 & Hm2 & _).
    eapply binds_down; [done|done|]. eapply IH; [by apply Hg1|by apply Hg2].
Qed.

(** ** The map determines the root id *)

Lemma child_ok g i n s j m : good g -> node_ok g i n -> (s, j) ∈ n_children n -> g j = Ok m ->
  node_ok g j m /\ n_key m <> [].
Proof.
  intros Hg Hn Hj Hm. split; [by apply Hg|].
  rewrite (child_of sha256 g n s j m) by (done || apply Hn).
  intros [_ Hs]%app_nil. by eapply suffix_ne in Hs; [|apply Hn|done].
Qed.

(** every node below the root binds some key *)
Lemma binds_some g i n : good g -> node_ok g i n -> n_key n <> [] -> exists k c, binds g n k c.
Proof.
  intros Hg Hn. pose proof (ok_finite _ _ _ _ _ Hn) as Hf. revert i Hn.
  induction Hf as [n _ IH]. intros i Hn Hk.
  destruct (ok_canon _ _ _ _ _ Hn) as [?|[[c Hc]|Hl]]; [done|exists (n_key n), c; by constructor|].
  destruct (n_children n) as [|[s j] d] eqn:Ed; [simpl in Hl; lia|].
  assert (Hj : (s, j) ∈ n_children n) by (rewrite Ed; left).
  destruct (sh_children _ _ _ (ok_shape _ _ _ _ _ Hn) _ _ Hj) as (_ & m & Hm & _).
  destruct (child_ok _ _ _ _ _ _ Hg Hn Hj Hm) as [Hokm Hkm].
  rewrite <- Ed in IH. destruct (IH s j m Hj Hm j Hokm Hkm) as (k & c & Hb).
  exists k, c. by eapply binds_down.
Qed.

(** the key of a node below the root is no longer than another's that binds the same *)
Lemma key_length_le g1 g2 i1 i2 n1 n2 :
  good g1 -> good g2 -> node_ok g1 i1 n1 -> node_ok g2 i2 n2 -> n_key n1 <> [] ->
  (forall k c, binds g1 n1 k c -> binds g2 n2 k c) ->
  (length (n_key n2) <= length (n_key n1))%nat.
Proof.
  intros Hg1 Hg2 Hn1 Hn2 Hk Hb.
  assert (Hp2 : forall k c, binds g1 n1 k c -> n_key n2 `prefix_of` k).
  { intros k c Hkc%Hb. eapply (binds_prefix sha256 U g2); [done|apply Hn2|done]. }
  destruct (ok_canon _ _ _ _ _ Hn1) as [?|[[c Hc]|Hl]]; [done| |].
  { apply prefix_length. eapply Hp2. by constructor. }
  destruct (n_children n1) as [|[s1 j1] [|[s2 j2] d]] eqn:Ed; try (simpl in Hl; lia).
  assert (H1 : (s1, j1) ∈ n_children n1) by (rewrite Ed; left).
  assert (H2 : (s2, j2) ∈ n_children n1) by (rewrite Ed; right; left).
  assert (Hsome : forall s j, (s, j) ∈ n_children n1 -> exists k, n_key n1 ++ s `prefix_of` k /\ n_key n2 `prefix_of` k).
  { intros s j Hj. destruct (sh_children _ _ _ (ok_shape _ _ _ _ _ Hn1) _ _ Hj) as (_ & m & Hm & Km).
    destruct (child_ok _ _ _ _ _ _ Hg1 Hn1 Hj Hm) as [Hokm Hkm].
    destruct (binds_some _ _ _ Hg1 Hokm Hkm) as (k & c & Hkc). exists k. split.
    - rewrite <- Km. eapply (binds_prefix sha256 U g1); [done|apply Hokm|done].
    - eapply Hp2. by eapply binds_down. }
  destruct (Hsome _ _ H1) as (k1 & P1 & Q1), (Hsome _ _ H2) as (k2 & P2 & Q2).
  apply Nat.nlt_ge. intros Hlt.
  (* [n_key n2] would extend [n_key n1] by the first byte of both suffixes *)
  pose proof (sh_heads _ _ _ (ok_shape _ _ _ _ _ Hn1)) as Hh. rewrite Ed in Hh.
  apply heads_ok_cons in Hh as (Hne1 & Hh & Hd). apply (Hd s2 j2); [left|].
  apply heads_ok_cons in Hh as (Hne2 & _ & _).
  assert (Hext : forall k, n_key n1 `prefix_of` k -> n_key n2 `prefix_of` k ->
    n_key n1 `prefix_of` n_key n2).
  { intros k Ha Hb'. destruct (prefix_weak_total _ _ _ Ha Hb') as [?|H']; [done|].
    apply prefix_length in H'. lia. }
  assert (n_key n1 `prefix_of` n_key n2) as [t Ht].
  { eapply Hext; [|exact Q1]. by eapply prefix_app_l. }
  rewrite Ht in Q1, Q2. assert (t <> []).
  { intros ->. rewrite app_nil_r in Ht. rewrite Ht in Hlt. lia. }
  rewrite (prefix_heads _ _ _ _ P2 Q2) by done. symmetry. by eapply prefix_heads.
Qed.

Lemma key_determined g1 g2 i1 i2 n1 n2 :
  good g1 -> good g2 -> node_ok g1 i1 n1 -> node_ok g2 i2 n2 -> n_key n1 <> [] -> n_key n2 <> [] ->
  (forall k c, binds g1 n1 k c <-> binds g2 n2 k c) -> n_key n1 = n_key n2.
Proof.
  intros Hg1 Hg2 Hn1 Hn2 Hk1 Hk2 Hb.
  assert (length (n_key n2) <= length (n_key n1))%nat.
  { eapply (key_length_le g1 g2); try done. apply Hb. }
  assert (length (n_key n1) <= length (n_key n2))%nat.
  { eapply (key_length_le g2 g1); try done. apply Hb. }
  destruct (binds_some _ _ _ Hg1 Hn1 Hk1) as (k & c & Hkc).
  assert (P1 : n_key n1 `prefix_of` k) by (eapply (binds_prefix sha256 U g1); [done|apply Hn1|done]).
  assert (P2 : n_key n2 `prefix_of` k) by (eapply (binds_prefix sha256 U g2); [done|apply Hn2|by apply Hb]).
  destruct P1 as [r1 E1], P2 as [r2 E2]. subst k. apply app_inj_1 in E2 as [? _]; [done|lia].
Qed.

Lemma heads_same d s1 i1 s2 i2 :
  heads_ok d -> (s1, i1) ∈ d -> (s2, i2) ∈ d -> head s1 = head s2 -> s1 = s2 /\ i1 = i2.
Proof.
  intros Hd H1 H2 E. pose proof Hd as [_ Hne]. rewrite Forall_forall in Hne.
  pose proof (Hne _ H1). pose proof (Hne _ H2).
  destruct s1 as [|x s1], s2 as [|y s2]; try done. injection E as ->.
  by destruct (heads_unique _ _ _ _ _ _ Hd H1 H2) as [-> ->].
Qed.

(** children of equal nodes that share a key bind the same keys *)
Lemma same_child g1 g2 i1 i2 n1 n2 s1 j1 m1 s2 j2 m2 k c c' :
  good g1 -> good g2 -> node_ok g1 i1 n1 -> node_ok g2 i2 n2 -> n_key n1 = n_key n2 ->
  (forall k c, binds g1 n1 k c -> binds g2 n2 k c) ->
  (s1, j1) ∈ n_children n1 -> g1 j1 = Ok m1 -> (s2, j2) ∈ n_children n2 -> g2 j2 = Ok m2 ->
  binds g1 m1 k c -> binds g2 m2 k c' ->
  forall k' d, binds g1 m1 k' d -> binds g2 m2 k' d.
Proof.
  intros Hg1 Hg2 Hn1 Hn2 Ek Hb H1 Hm1 H2 Hm2 B1 B2 k' d Bd.
  destruct (child_binds sha256 U g1 n1 s1 j1 m1 k c) as [P1 _]; try done; [apply Hn1|].
  destruct (child_binds sha256 U g2 n2 s2 j2 m2 k c') as [P2 _]; try done; [apply Hn2|].
  destruct (child_binds sha256 U g1 n1 s1 j1 m1 k' d) as [P1' Hk']; try done; [apply Hn1|].
  assert (Bn : binds g2 n2 k' d) by (apply Hb; by eapply binds_down).
  apply binds_unfold in Bn as [[? _]|(t & j & m & Ht & Hm & Bm)]; [congruence|].
  destruct (child_binds sha256 U g2 n2 t j m k' d) as [Pt _]; try done; [apply Hn2|].
  assert (N1 : s1 <> []) by (eapply suffix_ne; [apply Hn1|done]).
  assert (N2 : s2 <> []) by (eapply suffix_ne; [apply Hn2|done]).
  assert (Nt : t <> []) by (eapply suffix_ne; [apply Hn2|done]).
  rewrite <- Ek in P2, Pt.
  assert (Eh : head t = head s2).
  { rewrite (prefix_heads _ _ _ _ Pt P1') by done. by apply (prefix_heads _ _ _ _ P1 P2). }
  destruct (heads_same (n_children n2) t j s2 j2) as [-> ->]; try done; [apply Hn2|]. congruence.
Qed.

(** some child of [n2] binds what a child of [n1] binds *)
Lemma matching_child g1 g2 i1 i2 n1 n2 s1 j1 m1 :
  good g1 -> good g2 -> node_ok g1 i1 n1 -> node_ok g2 i2 n2 -> n_key n1 = n_key n2 ->
  (forall k c, binds g1 n1 k c <-> binds g2 n2 k c) ->
  (s1, j1) ∈ n_children n1 -> g1 j1 = Ok m1 ->
  exists s2 j2 m2, (s2, j2) ∈ n_children n2 /\ g2 j2 = Ok m2 /\
    (forall k c, binds g1 m1 k c <-> binds g2 m2 k c) /\ n_key m1 = n_key m2.
Proof.
  intros Hg1 Hg2 Hn1 Hn2 Ek Hb H1 Hm1.
  destruct (child_ok _ _ _ _ _ _ Hg1 Hn1 H1 Hm1) as [Ho1 Hk1].
  destruct (binds_some _ _ _ Hg1 Ho1 Hk1) as (k & c & B1).
  assert (Bn : binds g2 n2 k c) by (apply Hb; by eapply binds_down).
  destruct (child_binds sha256 U g1 n1 s1 j1 m1 k c) as [_ Hk]; try done; [apply Hn1|].
  apply binds_unfold in Bn as [[? _]|(s2 & j2 & m2 & H2 & Hm2 & B2)]; [congruence|].
  destruct (child_ok _ _ _ _ _ _ Hg2 Hn2 H2 Hm2) as [Ho2 Hk2].
  exists s2, j2, m2. assert (Hiff : forall k c, binds g1 m1 k c <-> binds g2 m2 k c).
  { intros k' d. split.
    - eapply (same_child g1 g2 i1 i2 n1 n2); try done. apply Hb.
    - eapply (same_child g2 g1 i2 i1 n2 n1); try done. apply Hb. }
  split; [done|]. split; [done|]. split; [done|]. by eapply (key_determined g1 g2).
Qed.

Lemma own_content g i n c : good g -> node_ok g i n ->
  n_content n = Some c <-> binds g n (n_key n) c.
Proof.
  intros Hg Hn. split; [by constructor|].
  intros [[_ ?]|(s & j & m & Hj & Hm & Hb)]%binds_unfold; [done|].
  destruct (child_binds sha256 U g n s j m (n_key n) c) as [_ ?]; try done. apply Hn.
Qed.

Lemma ids_nodup g i n : node_ok g i n -> NoDup (map snd (n_children n)).
Proof.
  intros Hn. pose proof (ok_shape _ _ _ _ _ Hn) as Hs.
  apply (NoDup_fmap_2_strong snd).
  - intros [s j] [s' j'] H1 H2 [= ->]. f_equal.
    destruct (sh_children _ _ _ Hs _ _ H1) as (_ & m & Hm & K1).
    destruct (sh_children _ _ _ Hs _ _ H2) as (_ & m' & Hm' & K2).
    rewrite Hm in Hm'. simplify_eq. rewrite K1 in K2. by apply app_inv_head in K2.
  - eapply NoDup_fmap_1, heads_ok_nodup, sh_heads, Hs.
Qed.

Lemma same_binds_id g1 g2 i1 i2 n1 n2 :
  good g1 -> good g2 -> node_ok g1 i1 n1 -> node_ok g2 i2 n2 -> n_key n1 = n_key n2 ->
  (forall k c, binds g1 n1 k c <-> binds g2 n2 k c) -> i1 = i2.
Proof.
  intros Hg1 Hg2 Hn1. pose proof (ok_finite _ _ _ _ _ Hn1) as Hf. revert i1 i2 n2 Hn1.
  induction Hf as [n1 _ IH]. intros i1 i2 n2 Hn1 Hn2 Ek Hb.
  assert (Ec : n_content n1 = n_content n2).
  { apply option_eq. intros c. rewrite (own_content g1 i1), (own_content g2 i2) by done.
    rewrite Ek. apply Hb. }
  assert (Ei : forall s j m, (s, j) ∈ n_children n1 -> g1 j = Ok m -> j ∈ map snd (n_children n2)).
  { intros s j m Hj Hm.
    destruct (matching_child g1 g2 i1 i2 n1 n2 s j m) as (s2 & j2 & m2 & H2 & Hm2 & Hbm & Km); try done.
    rewrite (IH s j m Hj Hm j j2 m2); [|by apply Hg1|by apply Hg2|done|done].
    apply list_elem_of_fmap. by exists (s2, j2). }
  assert (Hperm : map snd (n_children n1) ≡ₚ map snd (n_children n2)).
  { apply NoDup_Permutation; [by eapply ids_nodup..|]. intros j. split.
    - intros ([s j'] & -> & Hj)%list_elem_of_fmap.
      destruct (sh_children _ _ _ (ok_shape _ _ _ _ _ Hn1) _ _ Hj) as (_ & m & Hm & _). by eapply Ei.
    - intros ([s2 j'] & -> & H2)%list_elem_of_fmap. simpl.
      destruct (sh_children _ _ _ (ok_shape _ _ _ _ _ Hn2) _ _ H2) as (_ & m2 & Hm2 & _).
      destruct (matching_child g2 g1 i2 i1 n2 n1 s2 j' m2) as (s & j & m & Hj & Hm & Hbm & Km); try done.
      rewrite <- (IH s j m Hj Hm j j' m2); [|by apply Hg1|by apply Hg2|done|done].
      apply list_elem_of_fmap. by exists (s, j). }
  destruct Hn1 as [_ _ _ _ -> _], Hn2 as [_ _ _ _ -> _]. unfold calculate_id. by rewrite Ek, Ec, Hperm.
Qed.
(** two well-formed tries have the same root id exactly when they bind the same *)
Lemma same_root_id {DB} `{!NodeTrieStore DB} (valid : DB -> Prop) db1 tr1 db2 tr2 :
  tinv sha256 U valid db1 tr1 -> tinv sha256 U valid db2 tr2 ->
  (forall k c, tmap db1 tr1 k c <-> tmap db2 tr2 k c) <-> n_id (root tr1) = n_id (root tr2).
Proof using HH.
  intros H1 H2. destruct (ti_root _ _ _ _ _ H1) as (i1 & O1 & _).
  destruct (ti_root _ _ _ _ _ H2) as (i2 & O2 & _).
  pose proof (ti_good _ _ _ _ _ H1) as G1. pose proof (ti_good _ _ _ _ _ H2) as G2.
  rewrite (ok_id _ _ _ _ _ O1), (ok_id _ _ _ _ _ O2). split.
  - intros Hm. f_equal.
    apply (same_binds_id _ _ i1 i2 (root tr1) (root tr2) G1 G2 O1 O2);
      [by rewrite (ti_key _ _ _ _ _ H1), (ti_key _ _ _ _ _ H2)|].
    intros k c. split; intros Hb.
    + destruct (binds_encoded sha256 U _ _ k c G1 (ok_shape _ _ _ _ _ O1) Hb) as [k' ->]. by apply Hm.
    + destruct (binds_encoded sha256 U _ _ k c G2 (ok_shape _ _ _ _ _ O2) Hb) as [k' ->]. by apply Hm.
  - intros [= <-] k c. split; intros Hb.
    + exact (same_id_binds _ _ _ _ _ _ _ G1 G2 O1 O2 Hb).
    + exact (same_id_binds _ _ _ _ _ _ _ G2 G1 O2 O1 Hb).
Qed.
End canon.
