(* ===== verification/NodeStoreTheory.v ===== *)
(** The RocksDB node store keeps its promises: a node that can be serialized is
    read back unchanged, so [RocksDBNodeTrieStore] satisfies the laws the trie
    is verified against. *)

From stdpp Require Import base list gmap strings.
From Stdlib Require Import ZArith Lia.
From S2P Require Import Prelude PyInt Serializer Deserializer Leb128 Encoding PyValue Compound NCTypes.
From S2P Require Import NCTypeTheory NCTypeSafety PatriciaTrie NodeStore TrieSpec.

Local Open Scope Z_scope.
Local Open Scope py_scope.

(** * The node codec *)

Lemma codec_length z :
  codec (serialize VarUint32NCType (VInt z)) (deserialize VarUint32NCType) (VInt z).
Proof.
  destruct (has_type VarUint32NCType (VInt z)) eqn:E; [by apply serialize_codec|right].
  cbn [has_type is_int_in] in E. unfold in_range in E.
  cbn [serialize check_value_]. eapply lift_fails.
  unfold VarInt.vi_check_value, check_range, VarInt.vi_upper_bound, VarInt.vi_lower_bound.
  cbn [as_int negb]. change (VARINT_MAX_BYTE_SIZE * 7) with 224. rewrite Z.gtb_ltb.
  instantiate (1 := ValueError). repeat case_if; try done. lia.
Qed.

Lemma distinct_bytes (l : list bytes) : NoDup l -> distinct (map NodeNCType.of_bytes l) = true.
Proof.
  induction 1 as [|x l Hx _ IH]; simpl; [done|]. rewrite IH, andb_true_r.
  apply forallb_forall. intros v (y & <- & Hy)%in_map_iff. simpl.
  rewrite bool_decide_eq_false_2; [done|]. intros ->. apply Hx. by apply list_elem_of_In.
Qed.

Lemma children_typed d :
  NoDup (map fst d) -> has_type NodeNCType._children (NodeNCType.of_children d) = true.
Proof.
  intros Hd. unfold NodeNCType._children, NodeNCType.of_children. cbn [has_type].
  assert (Hfst : map fst (map (fun kv => (NodeNCType.of_bytes (fst kv), NodeNCType.of_bytes (snd kv))) d)
                 = map NodeNCType.of_bytes (map fst d)) by (by rewrite !map_map).
  rewrite Hfst, distinct_bytes by done. rewrite andb_true_r. apply andb_true_iff. split.
  - apply forallb_forall. intros kv (x & <- & _)%in_map_iff. done.
  - apply forallb_forall. intros v (x & <- & _)%in_map_iff. done.
Qed.

Lemma to_of_children d : NodeNCType.to_children (NodeNCType.of_children d) = d.
Proof.
  simpl. rewrite map_map. simpl. rewrite <- (map_id d) at 2. apply map_ext. by intros [? ?].
Qed.

Lemma codec_lift {A B} (r : result A) a (k : A -> SM unit) (d : DM B) b :
  r = Ok a -> codec (k a) d b -> codec (bind (lift r) k) d b.
Proof. by intros ->. Qed.

(** serializing a node fails, or deserializing returns the same node *)
Lemma node_codec n : dict_ok n -> codec (NodeNCType.node_serialize n) NodeNCType.node_deserialize n.
Proof.
  intros Hd. unfold NodeNCType.node_serialize, NodeNCType.node_deserialize.
  eapply codec_seq; [by apply serialize_codec|]. eapply codec_seq; [apply codec_length|].
  eapply codec_seq; [by apply serialize_codec; destruct (n_content n)|].
  eapply codec_seq; [by apply serialize_codec, children_typed|].
  destruct n as [key len content children [i|]]; [|right; by eapply lift_fails].
  apply (codec_lift _ i); [done|]. eapply codec_map.
  - by apply serialize_codec.
  - cbn [n_key n_length n_content n_children n_id]. rewrite to_of_children.
    by destruct content.
Qed.

Lemma serialize_node_back n bs : dict_ok n -> _serialize_node n = Ok bs -> _deserialize_node bs = Ok n.
Proof.
  intros Hd E. unfold _serialize_node in E. destruct (node_codec n Hd) as [(bs' & W & R')|F].
  - apply writes_run in W as (s' & Es & Ef). rewrite Es in E. simpl in E.
    assert (bs' = bs) as -> by congruence.
    apply (reads_run _ _ []) in R'. rewrite app_nil_r in R'. unfold _deserialize_node.
    by rewrite (bind_ok _ _ _ _ _ R').
  - apply fails_run in F as (e & s' & Es). by rewrite Es in E.
Qed.

(** A node whose children form a dictionary is written by [_serialize_node] to
    bytes from which [_deserialize_node] returns the same node: key, length,
    content, children in order, and id. *)
Theorem node_roundtrip n bs :
  dict_ok n -> _serialize_node n = Ok bs -> _deserialize_node bs = Ok n.
Proof. apply serialize_node_back. Qed.

Lemma node_roundtrip_witness :
  _deserialize_node (map z2b [2; 48; 49; 2; 1; 1; 7; 1; 1; 97; 1; 9; 1; 255]) =
  Ok (mkNode (map z2b [48; 49]) 2 (Some (map z2b [7])) [(map z2b [97], map z2b [9])] (Some (map z2b [255]))).
Proof. apply node_roundtrip; [apply NoDup_singleton|vm_compute; reflexivity]. Defined.

(** * The laws *)

Section rocksdb_laws.
Context {R : Type} `{!RocksDB R} {RL : RocksDBLaws R}.

(** every stored item was written by [_serialize_node] *)
Definition rocksdb_valid (db : R) : Prop :=
  forall k bs, rdb_get db k = Some bs -> is_ok (_deserialize_node bs) = true.

Definition rocksdb_storable (n : Node) : Prop := is_ok (_serialize_node n) = true.

#[export] Instance rocksdb_store_laws : StoreLaws R rocksdb_valid rocksdb_storable.
Proof using RL.
  split; simpl; unfold rocksdb_contains, rocksdb_getitem, rocksdb_setitem.
  - intros db k. by destruct (rdb_get db k).
  - intros db k Hv. destruct (rdb_get db k) eqn:E; [|done]. intros _. by eapply Hv.
  - intros db k n. by destruct (rdb_get db k).
  - intros db k n _. unfold rocksdb_storable. destruct (_serialize_node n); [|done]. eauto.
  - intros db k n db' Hv Hd H. inv_rok H. simplify_eq. intros k' bs'.
    destruct (decide (k = k')) as [->|Hne].
    + rewrite rdb_get_put. intros [= <-]. by rewrite (serialize_node_back _ _ Hd Hm).
    + rewrite rdb_get_put_ne by done. apply Hv.
  - intros db k n db' Hd H. inv_rok H. simplify_eq. rewrite rdb_get_put. by apply serialize_node_back.
  - intros db k k' n db' Hne H. inv_rok H. simplify_eq. by rewrite rdb_get_put_ne.
Qed.
End rocksdb_laws.
