(* ===== verification/TrieClaims.v ===== *)
(** The properties of the Patricia trie, over any store that obeys the laws and for
    any sequence of operations whose hashed nodes have different digests; their
    instances on the RocksDB store; and contents for which the digests coincide
    although the hash is injective, because the preimage is not delimited. *)

From stdpp Require Import base list gmap.
From Stdlib Require Import ZArith Lia Strings.Byte.
From S2P Require Import Prelude PatriciaTrie NodeStore TrieHash TrieTheory TrieUpdate TrieSpec.
From S2P Require Import TrieCanon NodeStoreTheory.

Local Open Scope Z_scope.
Local Open Scope py_scope.

(** * A trie to evaluate *)

Section demo.
Definition demo_init : result trie * gmap bytes bytes := trie_init demo_hash None ∅.
Definition demo_db : gmap bytes bytes := snd demo_init.
Definition demo_trie : trie :=
  match fst demo_init with Ok tr => tr | Err _ => mkTrie ∅ (empty_root demo_hash) end.
Definition demo_bytes (l : list Z) : bytes := map z2b l.
End demo.

Abbreviation demo_tinv := (tinv demo_hash (over demo_hash demo_content) rocksdb_valid) (only parsing).

Lemma demo_empty : rocksdb_valid (∅ : gmap bytes bytes) /\
  forall U, good demo_hash U (db_getitem (∅ : gmap bytes bytes)).
Proof. split; [intros k bs; simpl; by rewrite lookup_empty|]. by intros U i n. Qed.

Lemma demo_inv : demo_tinv demo_db demo_trie.
Proof.
  destruct demo_empty as [Hv Hg].
  destruct (init_empty_spec demo_hash (over demo_hash demo_content) rocksdb_valid rocksdb_storable ∅ Hv (Hg _))
    as (tr & db' & E & Hi & _); [vm_compute; reflexivity|apply over_empty|].
  unfold demo_db, demo_trie, demo_init. rewrite E. exact Hi.
Qed.

Lemma demo_content_ok l : forallb (fun z => (0 <=? z) && (z <? 255)) l = true ->
  match l with [] => false | z :: _ => z <? 48 end = true -> demo_content (demo_bytes l).
Proof.
  intros Hall Hhd. split.
  - destruct l as [|z l]; [done|]. simpl. simpl in Hall. unfold is_hex, unhex_digit.
    rewrite b2z_z2b_small by lia. repeat case_if; try done; lia.
  - apply Forall_forall. intros b (z & <- & Hz)%list_elem_of_In%in_map_iff.
    eapply forallb_forall in Hall; [|exact Hz]. unfold not_ff. apply bool_decide_eq_true.
    intros E. assert (E' : b2z (z2b z) = 255) by (by rewrite E). rewrite b2z_z2b_small in E' by lia. lia.
Qed.

(** * The nodes that were hashed *)

Definition child_ids (n : Node) : list bytes := sorted (map snd (n_children n)).

(** no two different nodes of [l] have the same digest: SHA-256 does not collide on
    them, and no two of them have the same undelimited preimage *)
Definition collision_free (sha256 : bytes -> bytes) (l : list Node) : Prop :=
  forall n n', n ∈ l -> n' ∈ l -> calculate_id sha256 n = calculate_id sha256 n' ->
    n_key n = n_key n' /\ n_content n = n_content n' /\ child_ids n = child_ids n'.

Definition nodes_of (l : list Node) (k : bytes) (c : option bytes) (ids : list bytes) : Prop :=
  exists n, n ∈ l /\ n_key n = k /\ n_content n = c /\ child_ids n = ids.

Lemma collision_free_hash sha256 l : collision_free sha256 l -> NodeHash sha256 (nodes_of l).
Proof. intros H k1 c1 l1 k2 c2 l2 (n & Hn & <- & <- & <-) (n' & Hn' & <- & <- & <-) E. by apply H. Qed.

Lemma nodes_of_sub l l' k c ids : l ⊆ l' -> nodes_of l k c ids -> nodes_of l' k c ids.
Proof. intros H (n & Hn & E). exists n. split; [by apply H|done]. Qed.

Lemma collision_free_sub sha256 l l' : l ⊆ l' -> collision_free sha256 l' -> collision_free sha256 l.
Proof. intros H Hc n n' Hn Hn'. apply Hc; by apply H. Qed.

#[export] Instance collision_free_dec sha256 l : Decision (collision_free sha256 l).
Proof.
  refine (cast_if (decide (Forall (fun n => Forall (fun n' => calculate_id sha256 n = calculate_id sha256 n' ->
    n_key n = n_key n' /\ n_content n = n_content n' /\ child_ids n = child_ids n') l) l))).
  - intros n n' Hn Hn'. rewrite Forall_forall in f. specialize (f n Hn). rewrite Forall_forall in f. by apply f.
  - intros H. apply n, Forall_forall. intros x Hx. apply Forall_forall. intros y Hy. by apply H.
Defined.

Section claims.
Context (sha256 : bytes -> bytes).
Context {DB : Type} `{!NodeTrieStore DB} (valid : DB -> Prop) (storable : Node -> Prop).
Context {SL : StoreLaws DB valid storable}.

(** the map of a well-formed trie, on the keys [get] accepts *)
Definition trie_is (db : DB) (tr : trie) (m : gmap bytes bytes) : Prop :=
  forall k c, tmap db tr k c <-> m !! k = Some c.

Lemma trie_is_get U `{!NodeHash sha256 U} db tr m k : tinv sha256 U valid db tr -> trie_is db tr m -> k <> [] ->
  get db tr k None = match m !! k with Some c => Ok c | None => Err KeyError end.
Proof.
  intros Ht Hm Hk. pose proof (get_spec sha256 U valid db tr k Ht Hk) as H.
  destruct (get db tr k None) as [c|e].
  - apply Hm in H. by rewrite H.
  - destruct H as [-> Hno]. destruct (m !! k) as [c|] eqn:E; [|done]. by destruct (Hno c); apply Hm.
Qed.

(** The states a trie reaches, with the map it should stand for and the nodes that
    were hashed: it starts empty in a store whose nodes are [ns], and goes on with
    updates, commits and reopenings of what was committed. *)
Inductive trie_run : DB -> trie -> gmap bytes bytes -> list Node -> Prop :=
| run_init db tr db' ns :
    valid db -> good sha256 (nodes_of ns) (db_getitem db) -> storable (empty_root sha256) ->
    trie_init sha256 None db = (Ok tr, db') -> trie_run db' tr ∅ (empty_root sha256 :: ns)
| run_update db tr m ns k c tr' :
    trie_run db tr m ns -> update sha256 db k c tr = (Ok tt, tr') ->
    trie_run db tr' (<[k := c]> m) (ns ++ built_nodes sha256 db (_encode_key k) c tr)
| run_commit db tr m ns db' tr' :
    trie_run db tr m ns -> (forall i n, _local_changes tr !! i = Some n -> storable n) ->
    commit (db, tr) = (Ok tt, (db', tr')) -> trie_run db' tr' m ns
| run_reopen db tr m ns tr' db' :
    trie_run db tr m ns -> _local_changes tr = ∅ ->
    trie_init sha256 (n_id (root tr)) db = (Ok tr', db') -> trie_run db' tr' m ns.

(** a trie opened at the root of one with no local change reads the same map *)
Lemma reopen_spec U `{!NodeHash sha256 U} db tr : tinv sha256 U valid db tr -> _local_changes tr = ∅ ->
  exists r, trie_init sha256 (n_id (root tr)) db = (Ok (mkTrie ∅ r), db) /\
    tinv sha256 U valid db (mkTrie ∅ r) /\ forall k c, tmap db (mkTrie ∅ r) k c <-> tmap db tr k c.
Proof.
  intros Ht El. destruct tr as [l r0]. simpl in El. subst l.
  destruct (ti_root _ _ _ _ _ Ht) as (i & Hok & [H|[_ Hi]]); [simpl in H; by rewrite lookup_empty in H|].
  simpl in Hok |- *. rewrite (ok_id _ _ _ _ _ Hok). destruct (db_getitem db i) as [r|] eqn:Er; [|done].
  pose proof (ti_db _ _ _ _ _ Ht i r Er) as Hr.
  assert (Eq : r ≡ r0) by (eapply node_ok_unique; [exact _|apply Ht|exact Hr|exact Hok]).
  assert (Kr : n_key r = []) by (rewrite (eqv_key _ _ Eq); apply Ht).
  destruct (init_root_spec sha256 U valid db i r) as [E Hinv]; [apply Ht|apply Ht|done|done|].
  exists r. split; [done|]. split; [done|]. intros k c. unfold tmap. simpl.
  eapply binds_stable_equiv; [apply Hinv|apply ext_pointwise; by intros|apply (ti_shape _ _ _ _ _ Hinv)|done].
Qed.

Lemma trie_run_inv db tr m ns : trie_run db tr m ns -> collision_free sha256 ns ->
  tinv sha256 (nodes_of ns) valid db tr /\ trie_is db tr m.
Proof using SL.
  induction 1 as [db tr db' ns Hv Hg Hs E|db tr m ns k c tr' _ IH E|db tr m ns db' tr' _ IH Hs E
    |db tr m ns tr' db' _ IH El E]; intros Hcf; pose proof (collision_free_hash _ _ Hcf) as HH.
  - destruct (init_empty_spec sha256 (nodes_of (empty_root sha256 :: ns)) valid storable db Hv)
      as (tr0 & db0 & E0 & Ht & _ & Hno); [|done|exists (empty_root sha256); by repeat constructor|].
    + eapply good_mono; [|exact Hg]. intros k c ids. apply nodes_of_sub. by right.
    + rewrite E in E0. simplify_eq. split; [done|]. intros k c. rewrite lookup_empty. split; [|done].
      intros H. by destruct (Hno k c).
  - destruct IH as [Ht Hm]; [by eapply collision_free_sub; [apply list_subseteq_app_l|]|].
    set (ns' := ns ++ _) in *. assert (Ht2 : tinv sha256 (nodes_of ns') valid db tr).
    { eapply tinv_mono; [|exact Ht]. intros ? ? ?. apply nodes_of_sub. by apply list_subseteq_app_l. }
    destruct (update_builds sha256 (nodes_of ns') valid db tr k c Ht2) as (tr0 & E0 & Ht' & Hm').
    { intros x Hx _. exists x. split; [|done]. apply elem_of_app. by right. }
    rewrite E in E0. simplify_eq. split; [done|]. intros k' c'. rewrite Hm', lookup_insert_Some.
    rewrite (Hm k' c'). naive_solver.
  - destruct (IH Hcf) as [Ht Hm].
    destruct (commit_spec sha256 (nodes_of ns) valid storable db tr Ht Hs) as (db0 & E0 & Ht' & Hm' & _).
    rewrite E in E0. simplify_eq. split; [done|]. intros k c. by rewrite Hm'.
  - destruct (IH Hcf) as [Ht Hm]. destruct (reopen_spec (nodes_of ns) db tr Ht El) as (r & E0 & Ht' & Hm').
    rewrite E in E0. simplify_eq. split; [done|]. intros k c. by rewrite Hm'.
Qed.

(** C15: refinement: after any sequence of updates, commits and reopenings starting
    from an empty trie, as long as no two different nodes hashed on the way got the
    same digest, [get] and [has_key] answer for every non-empty key as the finite
    map built by the same updates, and every further [update] returns without an
    error. The condition covers SHA-256 collisions and also nodes whose key, content
    and child ids, concatenated without delimiters, are the same bytes; the nodes
    are exactly those the updates write. *)
Theorem trie_refines_map db tr m ns k :
  trie_run db tr m ns -> collision_free sha256 ns -> k <> [] ->
  get db tr k None = match m !! k with Some c => Ok c | None => Err KeyError end /\
  has_key db tr k None = Ok (bool_decide (is_Some (m !! k))) /\
  (forall c, exists tr', update sha256 db k c tr = (Ok tt, tr')).
Proof using SL.
  intros Hr Hcf Hk. destruct (trie_run_inv db tr m ns Hr Hcf) as [Ht Hm].
  pose proof (collision_free_hash _ _ Hcf) as HH.
  unfold has_key. rewrite (trie_is_get (nodes_of ns) db tr m k) by done.
  split; [done|]. split; [|intros c; by eapply update_returns].
  destruct (m !! k) as [c|]; [by rewrite bool_decide_eq_true_2|].
  rewrite bool_decide_eq_false_2; [done|]. by intros [? ?].
Qed.

(** C33: in a state reached by updates, commits and reopenings in which no two
    different nodes that were hashed have the same digest, and whose local nodes can
    be serialized, [commit] returns: it never trips its consistency assertions. It
    leaves no local change, every id the store had is still there, [get] returns the
    same for every key, and so does a trie opened from the new store at the root id.
    (Without the condition on the digests the assertion can fail, also when the hash
    itself does not collide.) *)
Theorem trie_commit_durable db tr m ns :
  trie_run db tr m ns -> collision_free sha256 ns ->
  (forall i n, _local_changes tr !! i = Some n -> storable n) ->
  exists db' r, commit (db, tr) = (Ok tt, (db', mkTrie ∅ (root tr))) /\
    (forall i n, db_getitem db i = Ok n -> is_ok (db_getitem db' i) = true) /\
    trie_init sha256 (n_id (root tr)) db' = (Ok (mkTrie ∅ r), db') /\
    (forall k, k <> [] -> get db' (mkTrie ∅ (root tr)) k None = get db tr k None /\
                          get db' (mkTrie ∅ r) k None = get db tr k None).
Proof using SL.
  intros Hr Hcf Hs. destruct (trie_run_inv db tr m ns Hr Hcf) as [Ht Hm].
  pose proof (collision_free_hash _ _ Hcf) as HH.
  destruct (commit_spec sha256 (nodes_of ns) valid storable db tr Ht Hs) as (db' & E & Ht' & Hm' & He).
  destruct (reopen_spec (nodes_of ns) db' (mkTrie ∅ (root tr)) Ht' eq_refl) as (r & E2 & Ht2 & Hm2).
  exists db', r. split; [done|]. split.
  { intros i n Hi. destruct (He i n Hi) as (n' & Hn' & _). by rewrite Hn'. }
  split; [done|]. intros k Hk. rewrite (trie_is_get (nodes_of ns) db tr m k Ht Hm Hk).
  split; apply (trie_is_get (nodes_of ns)); try done; intros k' c; by rewrite ?Hm2, Hm'.
Qed.

(** C24: "the tree structure must be the same regardless of the order the items
    are added": of two tries reached by any sequences of updates, commits and
    reopenings, in any stores, such that no two different nodes hashed for either
    have the same digest, the root ids are equal exactly when the same updates'
    maps are: equal maps give equal root ids, and equal root ids equal maps.
    (For nodes with the same concatenated bytes the second direction fails.) *)
Theorem trie_root_id_canonical db1 tr1 m1 ns1 db2 tr2 m2 ns2 :
  trie_run db1 tr1 m1 ns1 -> trie_run db2 tr2 m2 ns2 -> collision_free sha256 (ns1 ++ ns2) ->
  m1 = m2 <-> n_id (root tr1) = n_id (root tr2).
Proof using SL.
  intros R1 R2 Hcf. pose proof (collision_free_hash _ _ Hcf) as HH. set (U := nodes_of (ns1 ++ ns2)) in *.
  assert (S1 : ns1 ⊆ ns1 ++ ns2) by (by apply list_subseteq_app_l).
  assert (S2 : ns2 ⊆ ns1 ++ ns2) by (by apply list_subseteq_app_r).
  destruct (trie_run_inv _ _ _ _ R1) as [T1 M1]; [by eapply collision_free_sub|].
  destruct (trie_run_inv _ _ _ _ R2) as [T2 M2]; [by eapply collision_free_sub|].
  apply (tinv_mono _ _ U) in T1; [|intros ? ? ?; by apply nodes_of_sub].
  apply (tinv_mono _ _ U) in T2; [|intros ? ? ?; by apply nodes_of_sub].
  rewrite <- (same_root_id sha256 U valid db1 tr1 db2 tr2 T1 T2). split.
  - intros -> k c. by rewrite (M1 k c), (M2 k c).
  - intros H. apply map_eq. intros k. apply option_eq. intros c. by rewrite <- (M1 k c), <- (M2 k c).
Qed.
End claims.

(** * Witnesses on the RocksDB store *)

Abbreviation demo_run := (trie_run demo_hash rocksdb_valid rocksdb_storable) (only parsing).

Definition demo_update (k c : list Z) (tr : trie) : trie :=
  snd (update demo_hash demo_db (demo_bytes k) (demo_bytes c) tr).

Definition demo_built (k c : list Z) (tr : trie) : list Node :=
  built_nodes demo_hash demo_db (_encode_key (demo_bytes k)) (demo_bytes c) tr.

(** contents of hexadecimal digits only *)
Definition demo_trie_a : trie := demo_update [1; 2] [56] demo_trie.
Definition demo_trie_b : trie := demo_update [1; 3] [49; 50] demo_trie.
Definition demo_trie_ab : trie := demo_update [1; 3] [49; 50] demo_trie_a.
Definition demo_trie_ba : trie := demo_update [1; 2] [56] demo_trie_b.

Definition demo_map : gmap bytes bytes :=
  <[demo_bytes [1; 3] := demo_bytes [49; 50]]> (<[demo_bytes [1; 2] := demo_bytes [56]]> ∅).

Definition demo_ns : list Node := [empty_root demo_hash].
Definition demo_ns_ab : list Node := (demo_ns ++ demo_built [1; 2] [56] demo_trie) ++ demo_built [1; 3] [49; 50] demo_trie_a.
Definition demo_ns_ba : list Node := (demo_ns ++ demo_built [1; 3] [49; 50] demo_trie) ++ demo_built [1; 2] [56] demo_trie_b.

Lemma demo_run_init : demo_run demo_db demo_trie ∅ demo_ns.
Proof.
  destruct demo_empty as [Hv Hg].
  destruct (init_empty_spec demo_hash (over demo_hash demo_content) rocksdb_valid rocksdb_storable ∅ Hv (Hg _))
    as (tr & db' & E & _); [vm_compute; reflexivity|apply over_empty|].
  eapply run_init; [exact Hv|apply Hg|vm_compute; reflexivity|].
  unfold demo_db, demo_trie, demo_init. rewrite E. done.
Qed.

Lemma demo_run_update k c tr m ns :
  demo_run demo_db tr m ns -> fst (update demo_hash demo_db (demo_bytes k) (demo_bytes c) tr) = Ok tt ->
  demo_run demo_db (demo_update k c tr) (<[demo_bytes k := demo_bytes c]> m) (ns ++ demo_built k c tr).
Proof.
  intros Hr E. eapply run_update; [exact Hr|]. unfold demo_update. rewrite <- E. by destruct (update _ _ _ _ _).
Qed.

Lemma demo_run_ab : demo_run demo_db demo_trie_ab demo_map demo_ns_ab.
Proof. repeat apply demo_run_update; [apply demo_run_init|vm_compute; reflexivity..]. Qed.

Lemma demo_run_ba : demo_run demo_db demo_trie_ba demo_map demo_ns_ba.
Proof.
  replace demo_map with (<[demo_bytes [1; 2] := demo_bytes [56]]>
    (<[demo_bytes [1; 3] := demo_bytes [49; 50]]> (∅ : gmap bytes bytes))) by (apply insert_insert_ne; discriminate).
  repeat apply demo_run_update; [apply demo_run_init|vm_compute; reflexivity..].
Qed.

Lemma demo_collision_free : collision_free demo_hash (demo_ns_ab ++ demo_ns_ba).
Proof. apply (bool_decide_unpack _). vm_compute. exact I. Qed.

Lemma demo_collision_free_ab : collision_free demo_hash demo_ns_ab.
Proof. eapply collision_free_sub; [|apply demo_collision_free]. by apply list_subseteq_app_l. Qed.

Lemma trie_refines_map_witness :
  get demo_db demo_trie_ab (demo_bytes [1; 2]) None =
    match demo_map !! demo_bytes [1; 2] with Some c => Ok c | None => Err KeyError end /\
  has_key demo_db demo_trie_ab (demo_bytes [1; 2]) None = Ok (bool_decide (is_Some (demo_map !! demo_bytes [1; 2]))) /\
  (forall c, exists tr', update demo_hash demo_db (demo_bytes [1; 2]) c demo_trie_ab = (Ok tt, tr')).
Proof.
  apply (trie_refines_map demo_hash rocksdb_valid rocksdb_storable _ _ _ demo_ns_ab);
    [apply demo_run_ab|apply demo_collision_free_ab|discriminate].
Defined.

#[export] Instance rocksdb_storable_dec n : Decision (rocksdb_storable n).
Proof. unfold rocksdb_storable. apply _. Defined.

Lemma demo_storable :
  forall i n, _local_changes demo_trie_ab !! i = Some n -> rocksdb_storable n.
Proof.
  change (map_Forall (fun _ n => rocksdb_storable n) (_local_changes demo_trie_ab)).
  apply map_Forall_to_list. apply List.Forall_forall. intros [i n].
  assert (H : forallb (fun x => is_ok (_serialize_node (snd x)))
    (map_to_list (_local_changes demo_trie_ab)) = true) by (vm_compute; reflexivity).
  intros Hin. eapply forallb_forall in H; [|exact Hin]. exact H.
Qed.

Lemma trie_commit_durable_witness :
  exists db' r, commit (demo_db, demo_trie_ab) = (Ok tt, (db', mkTrie ∅ (root demo_trie_ab))) /\
    (forall i n, db_getitem demo_db i = Ok n -> is_ok (db_getitem db' i) = true) /\
    trie_init demo_hash (n_id (root demo_trie_ab)) db' = (Ok (mkTrie ∅ r), db') /\
    (forall k, k <> [] ->
       get db' (mkTrie ∅ (root demo_trie_ab)) k None = get demo_db demo_trie_ab k None /\
       get db' (mkTrie ∅ r) k None = get demo_db demo_trie_ab k None).
Proof.
  apply (trie_commit_durable demo_hash rocksdb_valid rocksdb_storable _ _ demo_map demo_ns_ab);
    [apply demo_run_ab|apply demo_collision_free_ab|apply demo_storable].
Defined.

(** the same two updates in either order *)
Lemma trie_root_id_canonical_witness :
  demo_map = demo_map <-> n_id (root demo_trie_ab) = n_id (root demo_trie_ba).
Proof.
  apply (trie_root_id_canonical demo_hash rocksdb_valid rocksdb_storable demo_db demo_trie_ab demo_map demo_ns_ab
    demo_db demo_trie_ba demo_map demo_ns_ba); [apply demo_run_ab|apply demo_run_ba|apply demo_collision_free].
Defined.

(** * Nodes with the same bytes *)

(** with any hash, [{0x12: b'34x'}] and [{0x1234: b'x'}] have the same root id *)
Lemma root_id_ambiguous (sha256 : bytes -> bytes) {DB} `{!NodeTrieStore DB} (db : DB) :
  let tr := mkTrie ∅ (empty_root sha256) in
  n_id (root (snd (update sha256 db (demo_bytes [18]) (demo_bytes [51; 52; 120]) tr))) =
  n_id (root (snd (update sha256 db (demo_bytes [18; 52]) (demo_bytes [120]) tr))).
Proof. reflexivity. Qed.

(** a commit after [update(0x12, b'34x')], [commit], [update(0x12, b'y')] and
    [update(0x1234, b'x')] meets the id of the first leaf with another node, although
    the hash is injective *)
Lemma commit_trips_assertion :
  match commit (demo_db, demo_update [18] [51; 52; 120] demo_trie) with
  | (Ok _, (db, tr)) =>
      let tr := snd (update demo_hash db (demo_bytes [18]) (demo_bytes [121]) tr) in
      let tr := snd (update demo_hash db (demo_bytes [18; 52]) (demo_bytes [120]) tr) in
      fst (commit (db, tr)) = Err AssertionError
  | _ => False
  end.
Proof. vm_compute. reflexivity. Qed.

(** * Rollback *)

(** [rollback] drops the local nodes but not the root that refers to them: a key
    that was committed before the dropped update can no longer be read *)
Lemma rollback_loses_root :
  match commit (demo_db, demo_update [1; 2] [0; 7] demo_trie) with
  | (Ok _, (db, tr)) =>
      let tr' := rollback (snd (update demo_hash db (demo_bytes [1; 3]) (demo_bytes [0; 8]) tr)) in
      get db tr (demo_bytes [1; 2]) None = Ok (demo_bytes [0; 7]) /\
      get db tr' (demo_bytes [1; 2]) None = Err KeyError /\ n_id (root tr') <> n_id (root tr)
  | _ => False
  end.
Proof. vm_compute. repeat split. discriminate. Qed.
