(* ===== verification/BlockStorage.v ===== *)
(** The nano-contract state of a block, [hathor/nanocontracts/storage/block_storage.py]:
    contract roots, tokens and address sequence numbers in one trie. *)

From stdpp Require Import base list gmap strings.
From Stdlib Require Import ZArith Lia Strings.Byte.
From S2P Require Import Prelude PyInt Leb128 PyValue NCTypes PatriciaTrie.

Local Open Scope Z_scope.
Local Open Scope py_scope.

(** [try: r except KeyError: d] *)
Definition except_KeyError {A} (r : result A) (d : result A) : result A :=
  match r with Err KeyError => d | _ => r end.

(** * Keys *)

Inductive block_key : Type :=
| ContractKey (nc_id : bytes)
| TokenKey (token_id : bytes)
| AddressKey (address : bytes).

(** [bytes(key)]: the tag, then the id *)
Definition block_key_bytes (k : block_key) : bytes :=
  match k with
  | ContractKey nc_id => Byte.x00 :: nc_id
  | TokenKey token_id => Byte.x01 :: token_id
  | AddressKey address => Byte.x02 :: address
  end.

(** * Token descriptions *)

Record TokenDescription : Type := mkTokenDescription {
  td_token_id : bytes;
  td_token_name : pystr;
  td_token_symbol : pystr;
  td_token_version : TokenVersion
}.

Definition TokenDescription_class : dataclass_ := Dataclass "TokenDescription" true.

Definition TOKEN_DESCRIPTION_NC_TYPE : nc_type :=
  DataclassNCType TokenDescription_class
    [("token_id"%string, BytesNCType); ("token_name"%string, StrNCType);
     ("token_symbol"%string, StrNCType); ("token_version"%string, TokenVersionNCType)].

Definition token_description_value (td : TokenDescription) : value :=
  VDataclass TokenDescription_class
    [("token_id"%string, VBytes ClsBytes (td_token_id td)); ("token_name"%string, VStr (td_token_name td));
     ("token_symbol"%string, VStr (td_token_symbol td));
     ("token_version"%string, VTokenVersion (td_token_version td))].

(** the instance back from the value its type deserializes to *)
Definition token_description_of (v : value) : result TokenDescription :=
  match v with
  | VDataclass _ [(_, VBytes _ i); (_, VStr n); (_, VStr s); (_, VTokenVersion t)] =>
      Ok (mkTokenDescription i n s t)
  | _ => Err TypeError
  end.

Definition ADDRESS_SEQNUM_SIZE : Z := 8.

(** * [NCBlockStorage] *)

Record block_storage (DB : Type) : Type := mkBlock { b_db : DB; _block_trie : trie }.
Arguments mkBlock {DB} _ _.
Arguments b_db {DB} _.
Arguments _block_trie {DB} _.

Section block_storage.
Variable sha256 : bytes -> bytes.
Context {DB : Type} `{!NodeTrieStore DB}.

Abbreviation BM := (M (block_storage DB)).

(** [self._block_trie.get(bytes(key))] and [self._block_trie.update(bytes(key), content)] *)
Definition block_get (b : block_storage DB) (key : block_key) : result bytes :=
  get (b_db b) (_block_trie b) (block_key_bytes key) None.

Definition block_update (key : block_key) (content : bytes) : BM unit := fun b =>
  let '(r, tr) := update sha256 (b_db b) (block_key_bytes key) content (_block_trie b) in
  (r, mkBlock (b_db b) tr).

Definition get_contract_root_id (b : block_storage DB) (contract_id : bytes) : result bytes :=
  block_get b (ContractKey contract_id).

Definition has_contract (b : block_storage DB) (contract_id : bytes) : result bool :=
  except_KeyError (let? _ := get_contract_root_id b contract_id in Ok true) (Ok false).

Definition update_contract_trie (nc_id root_id : bytes) : BM unit :=
  block_update (ContractKey nc_id) root_id.

Definition block_commit : BM unit := fun b =>
  let '(r, (db, tr)) := commit (b_db b, _block_trie b) in (r, mkBlock db tr).

Definition block_get_root_id (b : block_storage DB) : result bytes :=
  node_id (root (_block_trie b)).

(** [NCBlockStorage._get_trie]: a trie on the same store *)
Definition block_get_trie (root_id : option bytes) : BM trie := fun b =>
  let '(r, db) := trie_init sha256 root_id (b_db b) in (r, mkBlock db (_block_trie b)).

Definition get_token_description (b : block_storage DB) (token_id : bytes) : result TokenDescription :=
  let? token_description_bytes := block_get b (TokenKey token_id) in
  let? v := from_bytes TOKEN_DESCRIPTION_NC_TYPE token_description_bytes in
  token_description_of v.

Definition block_has_token (b : block_storage DB) (token_id : bytes) : result bool :=
  except_KeyError (let? _ := block_get b (TokenKey token_id) in Ok true) (Ok false).

Definition block_create_token (td : TokenDescription) : BM unit :=
  let! token_description_bytes :=
    lift (to_bytes TOKEN_DESCRIPTION_NC_TYPE (token_description_value td)) in
  block_update (TokenKey (td_token_id td)) token_description_bytes.

Definition get_address_seqnum (b : block_storage DB) (address : bytes) : result Z :=
  match block_get b (AddressKey address) with
  | Err KeyError => Ok (-1)
  | Err e => Err e
  | Ok seqnum_bytes =>
      let? p := Leb128Utils.decode_unsigned seqnum_bytes (Some ADDRESS_SEQNUM_SIZE) in
      if bool_decide (snd p = []) then Ok (fst p) else Err AssertionError
  end.

Definition set_address_seqnum (address : bytes) (seqnum : Z) : BM unit :=
  py_assert (0 <=? seqnum) ;;;
  let! old_seqnum := (fun b => (get_address_seqnum b address, b)) in
  py_assert (old_seqnum <? seqnum) ;;;
  let! seqnum_bytes := lift (Leb128Utils.encode_unsigned seqnum (Some ADDRESS_SEQNUM_SIZE)) in
  block_update (AddressKey address) seqnum_bytes.
End block_storage.
