(* ===== verification/BlockStorageTheory.v ===== *)
(** Correctness of the block storage: tokens, contract roots and sequence numbers
    live under disjoint keys of one trie, sequence numbers only grow, and a token
    description is read back as it was created. *)

From stdpp Require Import base list gmap strings.
From Stdlib Require Import ZArith Lia Strings.Byte.
From S2P Require Import Prelude PyInt Serializer Deserializer Leb128 Encoding PyValue Compound NCTypes.
From S2P Require Import NCTypeTheory NCTypeSafety PatriciaTrie NodeStore TrieHash TrieTheory TrieSpec.
From S2P Require Import NodeStoreTheory TrieClaims BlockStorage.

Local Open Scope Z_scope.
Local Open Scope py_scope.

#[export] Instance block_key_inj : Inj (=) (=) block_key_bytes.
Proof. intros [] [] H; simpl in H; by simplify_eq. Qed.

Lemma block_key_ne k : block_key_bytes k <> [].
Proof. by destruct k. Qed.

Section theory.
Context (sha256 : bytes -> bytes) (V : bytes -> Prop) {HH : NodeHash sha256 (over sha256 V)}.
Context {DB : Type} `{!NodeTrieStore DB} (valid : DB -> Prop).

Definition binv (b : block_storage DB) : Prop := tinv sha256 (over sha256 V) valid (b_db b) (_block_trie b).

Lemma block_update_get b k content : binv b -> V content ->
  exists b', block_update sha256 k content b = (Ok tt, b') /\ binv b' /\ b_db b' = b_db b /\
    block_get b' k = Ok content /\ forall k', k' <> k -> block_get b' k' = block_get b k'.
Proof using HH.
  intros Hb HV. unfold block_update.
  destruct (update_get sha256 V valid (b_db b) (_block_trie b) (block_key_bytes k) content Hb HV)
    as (tr' & -> & Ht' & Hg & Ho); [apply block_key_ne|].
  eexists. split; [done|]. split; [exact Ht'|]. split; [done|]. split; [exact Hg|].
  intros k' Hne. apply Ho; [apply block_key_ne|]. by intros ?%(inj block_key_bytes).
Qed.

Lemma block_get_err b k e : binv b -> block_get b k = Err e -> e = KeyError.
Proof. intros Hb. by apply (get_err sha256 (over sha256 V) valid); [|apply block_key_ne]. Qed.

(** ** Sequence numbers *)

Lemma seqnum_decode s rest : 0 <= s < 2 ^ 56 ->
  Leb128Utils.encode_unsigned s (Some ADDRESS_SEQNUM_SIZE) = Ok (leb128 false s) /\
  Leb128Utils.decode_unsigned (leb128 false s ++ rest) (Some ADDRESS_SEQNUM_SIZE) = Ok (s, rest).
Proof.
  intros Hs. assert (E : Leb128Utils.encode_unsigned s (Some ADDRESS_SEQNUM_SIZE) = Ok (leb128 false s)).
  { apply encode_with_ok; [right; lia|done|exact Hs]. }
  split; [done|]. by apply leb128_utils_back.
Qed.

Lemma set_address_seqnum_ok b a s old :
  binv b -> get_address_seqnum b a = Ok old -> 0 <= s < 2 ^ 56 -> old < s -> V (leb128 false s) ->
  exists b', set_address_seqnum sha256 a s b = (Ok tt, b') /\ binv b' /\
    get_address_seqnum b' a = Ok s /\
    (forall k, k <> AddressKey a -> block_get b' k = block_get b k).
Proof using HH.
  intros Hb Hold Hs Hlt HV. destruct (seqnum_decode s [] Hs) as [E D]. rewrite app_nil_r in D.
  unfold set_address_seqnum. unfold bind at 1, py_assert at 1.
  rewrite (proj2 (Z.leb_le 0 s)) by lia. simpl. unfold bind at 1. rewrite Hold.
  unfold bind at 1, py_assert at 1. rewrite (proj2 (Z.ltb_lt old s)) by lia. simpl.
  rewrite E. unfold bind, lift. destruct (block_update_get b (AddressKey a) _ Hb HV)
    as (b' & -> & Hb' & _ & Hg & Ho).
  exists b'. split; [done|]. split; [done|]. split; [|exact Ho].
  unfold get_address_seqnum. by rewrite Hg, D.
Qed.

(** An address's sequence number only grows.  [set_address_seqnum] with a
    number greater than the current one (and encodable in 8 bytes) succeeds,
    [get_address_seqnum] then returns it, and no other sequence number, token
    or contract root changes; a number not greater is refused with
    [AssertionError] and changes nothing. *)
Theorem address_seqnum_monotonic b a s old :
  binv b -> get_address_seqnum b a = Ok old -> -1 <= old ->
  if (old <? s) && (s <? 2 ^ 56) then
    V (leb128 false s) ->
    exists b', set_address_seqnum sha256 a s b = (Ok tt, b') /\ binv b' /\
      get_address_seqnum b' a = Ok s /\
      (forall a', a' <> a -> get_address_seqnum b' a' = get_address_seqnum b a') /\
      (forall t, get_token_description b' t = get_token_description b t) /\
      (forall c, get_contract_root_id b' c = get_contract_root_id b c)
  else exists e, set_address_seqnum sha256 a s b = (Err e, b) /\ (s <= old -> e = AssertionError).
Proof using HH.
  intros Hb Hold Hge. destruct ((old <? s) && (s <? 2 ^ 56)) eqn:Ec.
  - apply andb_true_iff in Ec as [Hlt%Z.ltb_lt Hs%Z.ltb_lt]. intros HV.
    destruct (set_address_seqnum_ok b a s old) as (b' & E & Hb' & Hg & Ho); [done|done|lia|done|done|].
    exists b'. split; [done|]. split; [done|]. split; [done|]. split; [|split].
    + intros a' Hne. unfold get_address_seqnum. by rewrite Ho by congruence.
    + intros t. unfold get_token_description. by rewrite Ho.
    + intros c. unfold get_contract_root_id. by rewrite Ho.
  - unfold set_address_seqnum, py_assert, bind, ret, raise.
    destruct (Z.leb_spec 0 s); simpl; [|eauto]. rewrite Hold.
    destruct (Z.ltb_spec old s); [|eauto]. simpl in Ec. apply Z.ltb_ge in Ec.
    unfold Leb128Utils.encode_unsigned. rewrite encode_with_err; [|done|].
    + exists ValueError. split; [done|lia].
    + right. intros Hr. unfold max_bytes_allow, leb_range, ADDRESS_SEQNUM_SIZE in Hr. lia.
Qed.

(** ** Tokens *)

Lemma token_description_back td : token_description_of (token_description_value td) = Ok td.
Proof. by destruct td. Qed.

Lemma create_token_spec b td bs :
  binv b -> to_bytes TOKEN_DESCRIPTION_NC_TYPE (token_description_value td) = Ok bs -> V bs ->
  exists b', block_create_token sha256 td b = (Ok tt, b') /\ binv b' /\ b_db b' = b_db b /\
    block_has_token b' (td_token_id td) = Ok true /\
    get_token_description b' (td_token_id td) = Ok td /\
    (forall t, t <> td_token_id td -> get_token_description b' t = get_token_description b t /\
                                   block_has_token b' t = block_has_token b t) /\
    (forall a, get_address_seqnum b' a = get_address_seqnum b a) /\
    (forall c, get_contract_root_id b' c = get_contract_root_id b c).
Proof using HH.
  intros Hb Hbs HV. unfold block_create_token. rewrite Hbs. unfold bind, lift.
  destruct (block_update_get b (TokenKey (td_token_id td)) bs Hb HV) as (b' & -> & Hb' & Hdb & Hg & Ho).
  exists b'. split; [done|]. split; [done|]. split; [done|]. split; [|split; [|split; [|split]]].
  - unfold block_has_token. by rewrite Hg.
  - unfold get_token_description. rewrite Hg. simpl.
    rewrite (to_from_bytes _ _ _ Hbs); [simpl; apply token_description_back|done].
  - intros t Hne. unfold get_token_description, block_has_token. by rewrite Ho by congruence.
  - intros a. unfold get_address_seqnum. by rewrite Ho.
  - intros c. unfold get_contract_root_id. by rewrite Ho.
Qed.
(** A created token exists and its description is read back exactly, and the
    other tokens, the contract roots and the sequence numbers are unchanged. *)
Theorem token_create_get b td bs :
  binv b -> to_bytes TOKEN_DESCRIPTION_NC_TYPE (token_description_value td) = Ok bs -> V bs ->
  exists b', block_create_token sha256 td b = (Ok tt, b') /\ binv b' /\
    block_has_token b' (td_token_id td) = Ok true /\
    get_token_description b' (td_token_id td) = Ok td /\
    (forall t, t <> td_token_id td -> get_token_description b' t = get_token_description b t /\
                                   block_has_token b' t = block_has_token b t) /\
    (forall a, get_address_seqnum b' a = get_address_seqnum b a) /\
    (forall c, get_contract_root_id b' c = get_contract_root_id b c).
Proof using HH.
  intros Hb Hbs HV. destruct (create_token_spec b td bs Hb Hbs HV) as (b' & ? & ? & _ & ?). eauto.
Qed.
End theory.

(** * Witnesses *)

Definition demo_block : block_storage (gmap bytes bytes) := mkBlock demo_db demo_trie.

Abbreviation demo_binv := (binv demo_hash demo_content rocksdb_valid) (only parsing).

Lemma demo_block_inv : demo_binv demo_block.
Proof. exact demo_inv. Qed.

Lemma address_seqnum_monotonic_witness :
  exists b', set_address_seqnum demo_hash (demo_bytes [7]) 5 demo_block = (Ok tt, b') /\ demo_binv b' /\
    get_address_seqnum b' (demo_bytes [7]) = Ok 5 /\
    (forall a', a' <> demo_bytes [7] -> get_address_seqnum b' a' = get_address_seqnum demo_block a') /\
    (forall t, get_token_description b' t = get_token_description demo_block t) /\
    (forall c, get_contract_root_id b' c = get_contract_root_id demo_block c).
Proof.
  apply (address_seqnum_monotonic demo_hash demo_content rocksdb_valid demo_block (demo_bytes [7]) 5 (-1)).
  - apply demo_block_inv.
  - vm_compute. reflexivity.
  - discriminate.
  - apply (demo_content_ok [5]); reflexivity.
Defined.

Definition demo_token : TokenDescription :=
  mkTokenDescription (demo_bytes [1; 2]) [84; 75] [84] DEPOSIT.

Lemma token_create_get_witness :
  exists b', block_create_token demo_hash demo_token demo_block = (Ok tt, b') /\ demo_binv b' /\
    block_has_token b' (td_token_id demo_token) = Ok true /\
    get_token_description b' (td_token_id demo_token) = Ok demo_token /\
    (forall t, t <> td_token_id demo_token ->
       get_token_description b' t = get_token_description demo_block t /\
       block_has_token b' t = block_has_token demo_block t) /\
    (forall a, get_address_seqnum b' a = get_address_seqnum demo_block a) /\
    (forall c, get_contract_root_id b' c = get_contract_root_id demo_block c).
Proof.
  eapply (token_create_get demo_hash demo_content rocksdb_valid demo_block demo_token
    (demo_bytes [2; 1; 2; 2; 84; 75; 1; 84; 1])).
  - apply demo_block_inv.
  - vm_compute. reflexivity.
  - apply demo_content_ok; reflexivity.
Defined.
