(* ===== verification/ContractStorage.v ===== *)
(** The storage of one contract, [hathor/nanocontracts/storage/contract_storage.py]:
    attributes, balances and metadata in the contract's trie, tokens through the
    proxy to the block storage; with [maybedeleted_nc_type.py] and [token_proxy.py]. *)

From stdpp Require Import base list gmap strings.
From Stdlib Require Import ZArith Lia Strings.Byte.
From S2P Require Import Prelude PyInt Serializer Deserializer Encoding PyValue NCTypes PatriciaTrie.
From S2P Require Import BlockStorage.

Local Open Scope Z_scope.
Local Open Scope py_scope.

(** * [MaybeDeletedNCType] *)

Module MaybeDeletedNCType.
Definition is_DeletedKey (v : value) : bool :=
  match v with VDeletedKey => true | _ => false end.

(** [serialize]: the shallow check accepts everything *)
Definition md_serialize (_value : option nc_type) (v : value) : SM unit :=
  if is_DeletedKey v then encode_bool false
  else match _value with
  | None => raise ValueError
  | Some t => encode_bool true ;;; serialize t v
  end.

Definition md_deserialize (_value : option nc_type) : DM value :=
  let! has_value := decode_bool in
  if (has_value : bool) then
    match _value with
    | None => raise ValueError
    | Some t => deserialize t
    end
  else ret VDeletedKey.

Definition is_deleted_key (data : bytes) : result bool :=
  let? has_value := fst (decode_bool (build_bytes_deserializer data)) in
  Ok (negb has_value).
End MaybeDeletedNCType.
Import MaybeDeletedNCType.

(** * Keys *)

Inductive TrieKey : Type :=
| AttrKey (nc_id key : bytes)
| BalanceKey (nc_id token_uid : bytes)
| MetadataKey (nc_id key : bytes).

#[export] Instance TrieKey_eq_dec : EqDecision TrieKey.
Proof. solve_decision. Defined.

Definition _BLUEPRINT_ID_KEY : bytes := map z2b [98; 108; 117; 101; 112; 114; 105; 110; 116; 95; 105; 100].

(** * Balances *)

(** [Balance] and [MutableBalance] have the same attributes; a state is passed
    where the code mutates *)
Record Balance : Type := mkBalance { bal_value : Z; can_mint : bool; can_melt : bool }.

Definition MutableBalance_class : dataclass_ := Dataclass "MutableBalance" false.

Definition _BALANCE_NC_TYPE : nc_type :=
  DataclassNCType MutableBalance_class
    [("value"%string, VarInt32NCType); ("can_mint"%string, BoolNCType); ("can_melt"%string, BoolNCType)].

Definition balance_value (b : Balance) : value :=
  VDataclass MutableBalance_class
    [("value"%string, VInt (bal_value b)); ("can_mint"%string, VBool (can_mint b));
     ("can_melt"%string, VBool (can_melt b))].

(** the instance behind a value; [assert isinstance(balance, MutableBalance)] *)
Definition balance_of (v : value) : result Balance :=
  match v with
  | VDataclass c [(_, VInt z); (_, VBool mint); (_, VBool melt)] =>
      if bool_decide (c = MutableBalance_class) then Ok (mkBalance z mint melt) else Err AssertionError
  | _ => Err AssertionError
  end.

Definition balance_default : Balance := mkBalance 0 false false.

Definition balance_grant (b : Balance) (grant_mint grant_melt : bool) : Balance :=
  mkBalance (bal_value b) (can_mint b || grant_mint) (can_melt b || grant_melt).

Definition balance_revoke (b : Balance) (revoke_mint revoke_melt : bool) : Balance :=
  mkBalance (bal_value b) (can_mint b && negb revoke_mint) (can_melt b && negb revoke_melt).

(** * [NCContractStorage] *)

Record contract_storage (DB : Type) : Type := mkContract {
  cs_block : block_storage DB;
  _trie : trie;
  cs_nc_id : bytes;
  is_locked : bool
}.
Arguments mkContract {DB} _ _ _ _.
Arguments cs_block {DB} _.
Arguments _trie {DB} _.
Arguments cs_nc_id {DB} _.
Arguments is_locked {DB} _.

Section contract_storage.
Variable sha256 : bytes -> bytes.
Context {DB : Type} `{!NodeTrieStore DB}.

Abbreviation CM := (M (contract_storage DB)).

Definition trie_key_bytes (k : TrieKey) : bytes :=
  match k with
  | AttrKey _ key => Byte.x00 :: sha256 key
  | BalanceKey _ token_uid => Byte.x01 :: token_uid
  | MetadataKey _ key => Byte.x02 :: sha256 key
  end.

(** [TokenProxy] forwards to the block storage *)
Definition proxy_create_token (td : TokenDescription) : CM unit := fun c =>
  let '(r, b) := block_create_token sha256 td (cs_block c) in
  (r, mkContract b (_trie c) (cs_nc_id c) (is_locked c)).

Definition cs_has_token (c : contract_storage DB) (token_id : bytes) : result bool :=
  block_has_token (cs_block c) token_id.

Definition cs_get_token (c : contract_storage DB) (token_id : bytes) : result TokenDescription :=
  get_token_description (cs_block c) token_id.

Definition cs_create_token (td : TokenDescription) : CM unit := proxy_create_token td.

Definition lock (c : contract_storage DB) : contract_storage DB :=
  mkContract (cs_block c) (_trie c) (cs_nc_id c) true.

Definition unlock (c : contract_storage DB) : contract_storage DB :=
  mkContract (cs_block c) (_trie c) (cs_nc_id c) false.

Definition cs_check_if_locked : CM unit := fun c =>
  if is_locked c then (Err RuntimeError, c) else (Ok tt, c).

Definition _serialize (obj : value) (nc_type : option nc_type) : result bytes :=
  if match nc_type with None => negb (is_DeletedKey obj) | Some _ => false end then Err AssertionError
  else
    let '(r, serializer) := md_serialize nc_type obj build_bytes_serializer in
    let? _ := r in fst (ser_finalize serializer).

(** the deserializer is not finalized: data after the object is ignored *)
Definition _deserialize (content : bytes) (nc_type : nc_type) : result value :=
  fst (md_deserialize (Some nc_type) (build_bytes_deserializer content)).

(** [self._trie.get(bytes(trie_key))] *)
Definition cs_trie_get (c : contract_storage DB) (k : TrieKey) : result bytes :=
  get (b_db (cs_block c)) (_trie c) (trie_key_bytes k) None.

Definition _trie_has_key (c : contract_storage DB) (k : TrieKey) : result bool :=
  match cs_trie_get c k with
  | Err KeyError => Ok false
  | Err e => Err e
  | Ok value_bytes => let? deleted := is_deleted_key value_bytes in Ok (negb deleted)
  end.

Definition _trie_get_obj (c : contract_storage DB) (k : TrieKey) (nc_type : nc_type)
    (default : option value) : result value :=
  let? obj := match cs_trie_get c k with
    | Err KeyError => Ok VDeletedKey
    | Err e => Err e
    | Ok content => _deserialize content nc_type
    end in
  if is_DeletedKey obj then match default with None => Err KeyError | Some d => Ok d end
  else Ok obj.

Definition _trie_update (k : TrieKey) (nc_type : option nc_type) (obj : value) : CM unit :=
  let! content := lift (_serialize obj nc_type) in
  fun c =>
    let '(r, tr) := update sha256 (b_db (cs_block c)) (trie_key_bytes k) content (_trie c) in
    (r, mkContract (cs_block c) tr (cs_nc_id c) (is_locked c)).

Definition _to_attr_key (c : contract_storage DB) (key : bytes) : TrieKey := AttrKey (cs_nc_id c) key.

(** a [KeyError] is raised again, with another message *)
Definition cs_get_obj (c : contract_storage DB) (key : bytes) (nc_type : nc_type)
    (default : option value) : result value :=
  _trie_get_obj c (_to_attr_key c key) nc_type default.

Definition cs_put_obj (key : bytes) (nc_type : nc_type) (obj : value) : CM unit :=
  cs_check_if_locked ;;;
  fun c => _trie_update (_to_attr_key c key) (Some nc_type) obj c.

Definition cs_del_obj (key : bytes) : CM unit :=
  cs_check_if_locked ;;;
  fun c => _trie_update (_to_attr_key c key) None VDeletedKey c.

Definition cs_has_obj (c : contract_storage DB) (key : bytes) : result bool :=
  _trie_has_key c (_to_attr_key c key).

Definition _get_metadata (c : contract_storage DB) (key : bytes) : result bytes :=
  let? v := _trie_get_obj c (MetadataKey (cs_nc_id c) key) BytesNCType None in
  match as_bytes v with Some bs => Ok bs | None => Err TypeError end.

Definition _put_metadata (key metadata_bytes : bytes) : CM unit := fun c =>
  _trie_update (MetadataKey (cs_nc_id c) key) (Some BytesNCType) (VBytes ClsBytes metadata_bytes) c.

Definition cs_get_blueprint_id (c : contract_storage DB) : result bytes :=
  _get_metadata c _BLUEPRINT_ID_KEY.

Definition cs_set_blueprint_id (blueprint_id : bytes) : CM unit :=
  cs_check_if_locked ;;; _put_metadata _BLUEPRINT_ID_KEY blueprint_id.

Definition cs_get_mutable_balance (c : contract_storage DB) (token_uid : bytes) : result Balance :=
  let? v := _trie_get_obj c (BalanceKey (cs_nc_id c) token_uid) _BALANCE_NC_TYPE
    (Some (balance_value balance_default)) in
  balance_of v.

(** the body the balance methods share: read, change, check, write *)
Definition cs_change_balance (token_uid : bytes) (f : Balance -> Balance) (ok : Balance -> bool) :
    CM unit :=
  let! balance := (fun c => (cs_get_mutable_balance c token_uid, c)) in
  py_assert (ok (f balance)) ;;;
  fun c => _trie_update (BalanceKey (cs_nc_id c) token_uid) (Some _BALANCE_NC_TYPE)
    (balance_value (f balance)) c.

Definition cs_add_balance (token_uid : bytes) (amount : Z) : CM unit :=
  cs_check_if_locked ;;;
  cs_change_balance token_uid
    (fun b => mkBalance (bal_value b + amount) (can_mint b) (can_melt b))
    (fun b => 0 <=? bal_value b).

Definition cs_grant_authorities (token_uid : bytes) (grant_mint grant_melt : bool) : CM unit :=
  py_assert (negb (bool_decide (token_uid = HATHOR_TOKEN_UID))) ;;;
  cs_check_if_locked ;;;
  cs_change_balance token_uid (fun b => balance_grant b grant_mint grant_melt) (fun _ => true).

Definition cs_revoke_authorities (token_uid : bytes) (revoke_mint revoke_melt : bool) : CM unit :=
  py_assert (negb (bool_decide (token_uid = HATHOR_TOKEN_UID))) ;;;
  cs_check_if_locked ;;;
  cs_change_balance token_uid (fun b => balance_revoke b revoke_mint revoke_melt) (fun _ => true).

Definition cs_commit : CM unit :=
  cs_check_if_locked ;;;
  fun c =>
    let '(r, (db, tr)) := commit (b_db (cs_block c), _trie c) in
    (r, mkContract (mkBlock db (_block_trie (cs_block c))) tr (cs_nc_id c) (is_locked c)).

Definition cs_get_root_id (c : contract_storage DB) : result bytes := node_id (root (_trie c)).

(** keys grow along a path, and a balance key has at most 2 + 64 digits *)
Definition balance_dfs_fuel : nat := 67.

(** the first child whose key starts with the tag *)
Fixpoint find_tagged (db : DB) (tr : trie) (tag : bytes) (children : list (bytes * bytes)) :
    result (option Node) :=
  match children with
  | [] => Ok None
  | (_, child_id) :: r =>
      let? child := get_node db tr child_id in
      if startswith (n_key child) tag then Ok (Some child) else find_tagged db tr tag r
  end.

(** the loop over [iter_dfs]; the dictionary is built in the order of the nodes *)
Fixpoint collect_balances (nc_id : bytes) (nodes : list (Node * Z * bool))
    (balances : list (TrieKey * Balance)) : result (list (TrieKey * Balance)) :=
  match nodes with
  | [] => Ok balances
  | (node, _, _) :: r =>
      match n_content node with
      | None => collect_balances nc_id r balances
      | Some content =>
          let? v := _deserialize content _BALANCE_NC_TYPE in
          let? balance := balance_of v in
          let? key := _decode_key (n_key node) in
          collect_balances nc_id r (od_set balances (BalanceKey nc_id (drop 1 key)) balance)
      end
  end.

Definition cs_get_all_balances (c : contract_storage DB) : result (list (TrieKey * Balance)) :=
  let db := b_db (cs_block c) in
  let balance_tag := _encode_key [Byte.x01] in
  let? p := _find_nearest_node db (_trie c) balance_tag None in
  let node := fst p in
  let? balance_root :=
    if startswith (n_key node) balance_tag then Ok (Some node)
    else find_tagged db (_trie c) balance_tag (n_children node) in
  match balance_root with
  | None => Ok []
  | Some n =>
      let? nodes := _iter_dfs balance_dfs_fuel db (_trie c) n 0 in
      collect_balances (cs_nc_id c) nodes []
  end.
End contract_storage.

(** [NCBlockStorage.get_contract_storage] and [get_empty_contract_storage] *)
Section open_contract.
Variable sha256 : bytes -> bytes.
Context {DB : Type} `{!NodeTrieStore DB}.

Definition get_contract_storage (contract_id : bytes) : M (block_storage DB) (contract_storage DB) :=
  fun b =>
    match (let! nc_root_id := (fun b => (get_contract_root_id b contract_id, b)) in
           block_get_trie sha256 (Some nc_root_id)) b with
    | (Ok tr, b') => (Ok (mkContract b' tr contract_id false), b')
    | (Err KeyError, b') => (Err NanoContractDoesNotExist, b')
    | (Err e, b') => (Err e, b')
    end.

Definition get_empty_contract_storage (contract_id : bytes) :
    M (block_storage DB) (contract_storage DB) :=
  fun b =>
    match block_get_trie sha256 None b with
    | (Ok tr, b') => (Ok (mkContract b' tr contract_id false), b')
    | (Err e, b') => (Err e, b')
    end.
End open_contract.
