(* ===== verification/StorageInterface.v ===== *)
(** What a contract's storage promises to the code above it.

    [NCChangesTracker] inherits from [NCContractStorage] and wraps an instance of
    it, which may itself be a tracker: both implement the operations below, and
    the tracker is verified against the laws, not against an implementation. *)

From stdpp Require Import base list gmap strings.
From Stdlib Require Import ZArith Lia.
From S2P Require Import Prelude PyInt PyValue NCTypes NCTypeTheory BlockStorage ContractStorage.

Local Open Scope Z_scope.

Class StorageOps (S : Type) : Type := {
  so_has_token : S -> bytes -> result bool;
  so_get_token : S -> bytes -> result TokenDescription;
  so_create_token : TokenDescription -> M S unit;
  so_get_obj : S -> bytes -> nc_type -> option value -> result value;
  so_put_obj : bytes -> nc_type -> value -> M S unit;
  so_del_obj : bytes -> M S unit;
  so_has_obj : S -> bytes -> result bool;
  so_get_mutable_balance : S -> bytes -> result Balance;
  so_get_all_balances : S -> result (list (TrieKey * Balance));
  so_add_balance : bytes -> Z -> M S unit;
  so_grant_authorities : bytes -> bool -> bool -> M S unit;
  so_revoke_authorities : bytes -> bool -> bool -> M S unit;
  so_get_blueprint_id : S -> result bytes;
  so_set_blueprint_id : bytes -> M S unit
}.

(** * Frames: what an operation leaves as it was *)

Section frames.
Context {S : Type} `{!StorageOps S}.

Definition same_objs (P : bytes -> Prop) (s s' : S) : Prop := forall k, P k ->
  so_has_obj s' k = so_has_obj s k /\ forall t d, so_get_obj s' k t d = so_get_obj s k t d.

Definition same_balances (P : bytes -> Prop) (s s' : S) : Prop := forall tok, P tok ->
  so_get_mutable_balance s' tok = so_get_mutable_balance s tok.

Definition same_tokens (P : bytes -> Prop) (s s' : S) : Prop := forall i, P i ->
  so_has_token s' i = so_has_token s i /\ so_get_token s' i = so_get_token s i.

Definition same_blueprint (s s' : S) : Prop := so_get_blueprint_id s' = so_get_blueprint_id s.

Definition all_keys (k : bytes) : Prop := True.

Lemma same_objs_trans P s1 s2 s3 : same_objs P s1 s2 -> same_objs P s2 s3 -> same_objs P s1 s3.
Proof.
  intros H1 H2 k Hk. destruct (H1 k Hk) as [E1 F1], (H2 k Hk) as [E2 F2].
  split; [congruence|]. intros t d. by rewrite F2.
Qed.

Lemma same_balances_trans P s1 s2 s3 :
  same_balances P s1 s2 -> same_balances P s2 s3 -> same_balances P s1 s3.
Proof. intros H1 H2 k Hk. by rewrite H2, H1. Qed.

Lemma same_tokens_trans P s1 s2 s3 : same_tokens P s1 s2 -> same_tokens P s2 s3 -> same_tokens P s1 s3.
Proof. intros H1 H2 k Hk. destruct (H1 k Hk), (H2 k Hk). split; congruence. Qed.

Lemma same_blueprint_trans s1 s2 s3 : same_blueprint s1 s2 -> same_blueprint s2 s3 -> same_blueprint s1 s3.
Proof. unfold same_blueprint. congruence. Qed.

Lemma same_objs_sub (P Q : bytes -> Prop) s s' :
  (forall k, Q k -> P k) -> same_objs P s s' -> same_objs Q s s'.
Proof. intros HPQ H k Hk. by apply H, HPQ. Qed.

Lemma same_balances_sub (P Q : bytes -> Prop) s s' :
  (forall k, Q k -> P k) -> same_balances P s s' -> same_balances Q s s'.
Proof. intros HPQ H k Hk. by apply H, HPQ. Qed.

Lemma same_tokens_sub (P Q : bytes -> Prop) s s' :
  (forall k, Q k -> P k) -> same_tokens P s s' -> same_tokens Q s s'.
Proof. intros HPQ H k Hk. by apply H, HPQ. Qed.
End frames.

(** * The laws *)

Definition with_default (d : option value) : result value :=
  match d with None => Err KeyError | Some v => Ok v end.

Definition add_value (b : Balance) (amount : Z) : Balance :=
  mkBalance (bal_value b + amount) (can_mint b) (can_melt b).

(** [inv]: well-formed states; [unlocked]: changes are allowed; [okkey]: attribute
    keys in use; [fits]: objects, [okval]: balance values, [oktoken]: token
    descriptions and [okbp]: blueprint ids the storage accepts *)
Class StorageLaws (S : Type) `{!StorageOps S} (inv unlocked : S -> Prop) (okkey : bytes -> Prop)
    (fits : nc_type -> value -> Prop) (okval : Z -> Prop) (oktoken : TokenDescription -> Prop)
    (okbp : bytes -> Prop) : Prop := {
  fits_typed : forall t v, fits t v -> has_type t v = true;
  law_get : forall s k t d v, so_get_obj s k t d = Ok v ->
    MaybeDeletedNCType.is_DeletedKey v = false \/ d = Some v;
  law_put : forall s k t v, inv s -> unlocked s -> okkey k -> fits t v ->
    exists s', so_put_obj k t v s = (Ok tt, s') /\ inv s' /\ unlocked s' /\
      so_has_obj s' k = Ok true /\ (forall d, so_get_obj s' k t d = Ok v) /\
      same_objs (fun k' => okkey k' /\ k' <> k) s s' /\
      same_balances all_keys s s' /\ same_tokens all_keys s s' /\ same_blueprint s s';
  law_del : forall s k, inv s -> unlocked s -> okkey k ->
    exists s', so_del_obj k s = (Ok tt, s') /\ inv s' /\ unlocked s' /\
      so_has_obj s' k = Ok false /\ (forall t d, so_get_obj s' k t d = with_default d) /\
      same_objs (fun k' => okkey k' /\ k' <> k) s s' /\
      same_balances all_keys s s' /\ same_tokens all_keys s s' /\ same_blueprint s s';
  law_add : forall s tok amount b, inv s -> unlocked s ->
    so_get_mutable_balance s tok = Ok b -> okval (bal_value b + amount) ->
    exists s', so_add_balance tok amount s = (Ok tt, s') /\ inv s' /\ unlocked s' /\
      so_get_mutable_balance s' tok = Ok (add_value b amount) /\
      same_objs okkey s s' /\ same_balances (fun t => t <> tok) s s' /\
      same_tokens all_keys s s' /\ same_blueprint s s';
  law_grant : forall s tok mint melt b, inv s -> unlocked s -> tok <> HATHOR_TOKEN_UID ->
    so_get_mutable_balance s tok = Ok b -> okval (bal_value b) ->
    exists s', so_grant_authorities tok mint melt s = (Ok tt, s') /\ inv s' /\ unlocked s' /\
      so_get_mutable_balance s' tok = Ok (balance_grant b mint melt) /\
      same_objs okkey s s' /\ same_balances (fun t => t <> tok) s s' /\
      same_tokens all_keys s s' /\ same_blueprint s s';
  law_revoke : forall s tok mint melt b, inv s -> unlocked s -> tok <> HATHOR_TOKEN_UID ->
    so_get_mutable_balance s tok = Ok b -> okval (bal_value b) ->
    exists s', so_revoke_authorities tok mint melt s = (Ok tt, s') /\ inv s' /\ unlocked s' /\
      so_get_mutable_balance s' tok = Ok (balance_revoke b mint melt) /\
      same_objs okkey s s' /\ same_balances (fun t => t <> tok) s s' /\
      same_tokens all_keys s s' /\ same_blueprint s s';
  law_token : forall s td, inv s -> unlocked s -> oktoken td ->
    so_has_token s (td_token_id td) = Ok false ->
    exists s', so_create_token td s = (Ok tt, s') /\ inv s' /\ unlocked s' /\
      so_has_token s' (td_token_id td) = Ok true /\ so_get_token s' (td_token_id td) = Ok td /\
      same_objs okkey s s' /\ same_balances all_keys s s' /\
      same_tokens (fun i => i <> td_token_id td) s s' /\ same_blueprint s s';
  law_blueprint : forall s bp, inv s -> unlocked s -> okbp bp ->
    exists s', so_set_blueprint_id bp s = (Ok tt, s') /\ inv s' /\ unlocked s' /\
      so_get_blueprint_id s' = Ok bp /\
      same_objs okkey s s' /\ same_balances all_keys s s' /\ same_tokens all_keys s s'
}.
