(* ===== verification/ContractStorageTheory.v ===== *)
(** [NCContractStorage] obeys the storage laws, over any node store that obeys
    the store laws. *)

From stdpp Require Import base list gmap strings.
From Stdlib Require Import ZArith Lia Strings.Byte.
From S2P Require Import Prelude PyInt Serializer Deserializer Leb128 Encoding PyValue Compound NCTypes.
From S2P Require Import NCTypeTheory NCTypeSafety PatriciaTrie TrieHash TrieTheory TrieSpec BlockStorage.
From S2P Require Import BlockStorageTheory ContractStorage StorageInterface.

Local Open Scope Z_scope.
Local Open Scope py_scope.

Import MaybeDeletedNCType.

(** * Objects in the trie *)

Lemma has_type_not_deleted t v : has_type t v = true -> is_DeletedKey v = false.
Proof.
  intros H. destruct v; try done. exfalso. revert H. nc_induction t; try done.
  intros t. by destruct t.
Qed.

(** what is stored for a present object, and how it is read back *)
Lemma serialize_present t v bs :
  has_type t v = true -> _serialize v (Some t) = Ok bs ->
  _deserialize bs t = Ok v /\ is_deleted_key bs = Ok false.
Proof.
  intros Ht E. unfold _serialize, md_serialize in E. rewrite (has_type_not_deleted t v Ht) in E.
  destruct (serialize_codec t v Ht) as [(bs' & W & R)|F].
  - destruct (writes_run (encode_bool true ;;; serialize t v) ([bool_byte true] ++ bs')) as (s' & Es & Ef).
    { apply writes_bind; [apply encode_bool_writes|done]. }
    rewrite Es in E. simpl in E. rewrite Ef in E. simplify_eq. split.
    + assert (Hr : reads (md_deserialize (Some t)) ([bool_byte true] ++ bs') v).
      { eapply reads_bind; [apply decode_bool_reads|exact R]. }
      apply (reads_run _ _ []) in Hr. rewrite app_nil_r in Hr.
      change (fst (md_deserialize (Some t) (build_bytes_deserializer ([bool_byte true] ++ bs'))) = Ok v).
      by rewrite Hr.
    + done.
  - assert (F' : fails (encode_bool true ;;; serialize t v)).
    { eapply fails_bind_r; [apply encode_bool_writes|done]. }
    apply fails_run in F' as (e & s' & Es). by rewrite Es in E.
Qed.

Lemma serialize_deleted :
  _serialize VDeletedKey None = Ok [Byte.x00] /\ is_deleted_key [Byte.x00] = Ok true /\
  forall t, _deserialize [Byte.x00] t = Ok VDeletedKey.
Proof. split; [by vm_compute|]. split; [by vm_compute|]. by intros t. Qed.

Section theory.
Context (sha256 : bytes -> bytes) (V : bytes -> Prop) {HH : NodeHash sha256 (over sha256 V)}.
Context {DB : Type} `{!NodeTrieStore DB} (valid : DB -> Prop).

#[export] Instance contract_storage_ops : StorageOps (contract_storage DB) := {
  so_has_token := cs_has_token;
  so_get_token := cs_get_token;
  so_create_token := cs_create_token sha256;
  so_get_obj := cs_get_obj sha256;
  so_put_obj := cs_put_obj sha256;
  so_del_obj := cs_del_obj sha256;
  so_has_obj := cs_has_obj sha256;
  so_get_mutable_balance := cs_get_mutable_balance sha256;
  so_get_all_balances := cs_get_all_balances;
  so_add_balance := cs_add_balance sha256;
  so_grant_authorities := cs_grant_authorities sha256;
  so_revoke_authorities := cs_revoke_authorities sha256;
  so_get_blueprint_id := cs_get_blueprint_id sha256;
  so_set_blueprint_id := cs_set_blueprint_id sha256
}.

(** the attribute keys in use, on which the key hash has no collision *)
Context (okkey : bytes -> Prop).
Hypothesis okkey_inj : forall x y, okkey x -> okkey y -> sha256 x = sha256 y -> x = y.
(** the marker of a deleted object is a content the hash delimits *)
Hypothesis deleted_ok : V [Byte.x00].

Definition cinv (c : contract_storage DB) : Prop :=
  tinv sha256 (over sha256 V) valid (b_db (cs_block c)) (_trie c) /\ binv sha256 V valid (cs_block c).

Definition cs_unlocked (c : contract_storage DB) : Prop := is_locked c = false.

Definition cs_fits (t : nc_type) (v : value) : Prop :=
  has_type t v = true /\ exists bs, _serialize v (Some t) = Ok bs /\ V bs.

Definition cs_okval (z : Z) : Prop :=
  0 <= z /\ forall mint melt, cs_fits _BALANCE_NC_TYPE (balance_value (mkBalance z mint melt)).

Definition cs_oktoken (td : TokenDescription) : Prop :=
  exists bs, to_bytes TOKEN_DESCRIPTION_NC_TYPE (token_description_value td) = Ok bs /\ V bs.

Definition cs_okbp (bp : bytes) : Prop := cs_fits BytesNCType (VBytes ClsBytes bp).

Lemma trie_key_ne k : trie_key_bytes sha256 k <> [].
Proof. by destruct k. Qed.

(** ** One write *)

(** [c'] is [c] after [content] was stored under [k] *)
Record wrote (c c' : contract_storage DB) (k : TrieKey) (content : bytes) : Prop := Wrote {
  wr_inv : cinv c';
  wr_block : cs_block c' = cs_block c;
  wr_id : cs_nc_id c' = cs_nc_id c;
  wr_locked : is_locked c' = is_locked c;
  wr_here : cs_trie_get sha256 c' k = Ok content;
  wr_there : forall k', trie_key_bytes sha256 k' <> trie_key_bytes sha256 k ->
    cs_trie_get sha256 c' k' = cs_trie_get sha256 c k'
}.

Lemma trie_update_wrote c k t obj content :
  cinv c -> _serialize obj t = Ok content -> V content ->
  exists c', _trie_update sha256 k t obj c = (Ok tt, c') /\ wrote c c' k content.
Proof using HH.
  intros [Ht Hb] E HV. unfold _trie_update. rewrite E. unfold bind, lift.
  destruct (update_get sha256 V valid _ _ (trie_key_bytes sha256 k) content Ht HV)
    as (tr' & -> & Ht' & Hg & Ho); [apply trie_key_ne|].
  eexists. split; [done|]. constructor; try done.
  intros k' Hne. apply Ho; [apply trie_key_ne|done].
Qed.

(** reads that depend on the entries written elsewhere are unchanged *)
Lemma wrote_objs c c' k content (P : bytes -> Prop) : wrote c c' k content ->
  (forall key, P key -> trie_key_bytes sha256 (AttrKey (cs_nc_id c) key) <> trie_key_bytes sha256 k) ->
  same_objs P c c'.
Proof.
  intros W Hne key Hkey. simpl. unfold cs_has_obj, cs_get_obj, _trie_has_key, _trie_get_obj, _to_attr_key.
  rewrite (wr_id _ _ _ _ W), (wr_there _ _ _ _ W) by auto. done.
Qed.

Lemma wrote_balances c c' k content (P : bytes -> Prop) : wrote c c' k content ->
  (forall tok, P tok -> trie_key_bytes sha256 (BalanceKey (cs_nc_id c) tok) <> trie_key_bytes sha256 k) ->
  same_balances P c c'.
Proof.
  intros W Hne tok Htok. simpl. unfold cs_get_mutable_balance, _trie_get_obj.
  rewrite (wr_id _ _ _ _ W), (wr_there _ _ _ _ W) by auto. done.
Qed.

Lemma wrote_tokens c c' k content P : wrote c c' k content -> same_tokens P c c'.
Proof.
  intros W i _. simpl. unfold cs_has_token, cs_get_token. by rewrite (wr_block _ _ _ _ W).
Qed.

Lemma wrote_blueprint c c' k content : wrote c c' k content ->
  trie_key_bytes sha256 (MetadataKey (cs_nc_id c) _BLUEPRINT_ID_KEY) <> trie_key_bytes sha256 k ->
  same_blueprint c c'.
Proof.
  intros W Hne. unfold same_blueprint. simpl. unfold cs_get_blueprint_id, _get_metadata, _trie_get_obj.
  by rewrite (wr_id _ _ _ _ W), (wr_there _ _ _ _ W).
Qed.

(** reading a present object *)
Lemma trie_get_present c k t v bs d :
  cs_trie_get sha256 c k = Ok bs -> has_type t v = true -> _serialize v (Some t) = Ok bs ->
  _trie_get_obj sha256 c k t d = Ok v /\ _trie_has_key sha256 c k = Ok true.
Proof.
  intros Hg Ht E. destruct (serialize_present t v bs Ht E) as [D H].
  unfold _trie_get_obj, _trie_has_key. rewrite Hg, D, H. simpl.
  by rewrite (has_type_not_deleted t v Ht).
Qed.

Lemma unlocked_check c : cs_unlocked c -> cs_check_if_locked c = (Ok tt, c).
Proof. unfold cs_unlocked, cs_check_if_locked. by intros ->. Qed.

Lemma balance_back b : balance_of (balance_value b) = Ok b.
Proof. by destruct b. Qed.

Lemma okval_fits z b : cs_okval z -> bal_value b = z -> cs_fits _BALANCE_NC_TYPE (balance_value b).
Proof. intros [_ H] <-. destruct b. apply H. Qed.

(** ** The balance methods *)

Lemma change_balance_wrote c tok f ok b :
  cinv c -> cs_get_mutable_balance sha256 c tok = Ok b -> ok (f b) = true ->
  cs_fits _BALANCE_NC_TYPE (balance_value (f b)) ->
  exists c' content, cs_change_balance sha256 tok f ok c = (Ok tt, c') /\
    wrote c c' (BalanceKey (cs_nc_id c) tok) content /\
    cs_get_mutable_balance sha256 c' tok = Ok (f b).
Proof using HH.
  intros Hc Hb Hok [Ht (content & E & HV)]. unfold cs_change_balance, bind. rewrite Hb.
  unfold py_assert. rewrite Hok. simpl ret. unfold ret.
  destruct (trie_update_wrote c (BalanceKey (cs_nc_id c) tok) _ _ content Hc E HV) as (c' & E' & W).
  exists c', content. split; [exact E'|]. split; [done|].
  unfold cs_get_mutable_balance. rewrite (wr_id _ _ _ _ W).
  destruct (trie_get_present c' (BalanceKey (cs_nc_id c) tok) _ _ content
    (Some (balance_value balance_default)) (wr_here _ _ _ _ W) Ht E) as [-> _].
  apply balance_back.
Qed.

(** the effect of a balance method, as the laws state it *)
Lemma balance_frames c c' tok content : wrote c c' (BalanceKey (cs_nc_id c) tok) content ->
  same_objs okkey c c' /\ same_balances (fun t => t <> tok) c c' /\
  same_tokens all_keys c c' /\ same_blueprint c c'.
Proof.
  intros W. split; [by eapply wrote_objs|]. split; [|split; [by eapply wrote_tokens|by eapply wrote_blueprint]].
  eapply wrote_balances; [done|]. intros t Hne [= E]. done.
Qed.

Lemma wrote_unlocked c c' k content : wrote c c' k content -> cs_unlocked c -> cs_unlocked c'.
Proof. intros W. unfold cs_unlocked. by rewrite (wr_locked _ _ _ _ W). Qed.

Lemma not_hathor tok : tok <> HATHOR_TOKEN_UID ->
  negb (bool_decide (tok = HATHOR_TOKEN_UID)) = true.
Proof. intros H. by rewrite bool_decide_eq_false_2. Qed.

(** ** The laws *)

Lemma cs_law_put c k t v : cinv c -> cs_unlocked c -> okkey k -> cs_fits t v ->
  exists c', cs_put_obj sha256 k t v c = (Ok tt, c') /\ cinv c' /\ cs_unlocked c' /\
    cs_has_obj sha256 c' k = Ok true /\ (forall d, cs_get_obj sha256 c' k t d = Ok v) /\
    same_objs (fun k' => okkey k' /\ k' <> k) c c' /\
    same_balances all_keys c c' /\ same_tokens all_keys c c' /\ same_blueprint c c'.
Proof using HH okkey_inj.
  intros Hc Hu Hk [Ht (content & E & HV)]. unfold cs_put_obj.
  rewrite (bind_ok _ _ _ _ _ (unlocked_check c Hu)).
  destruct (trie_update_wrote c (_to_attr_key c k) _ _ content Hc E HV) as (c' & -> & W).
  exists c'. split; [done|]. split; [apply W|]. split; [by eapply wrote_unlocked|].
  assert (Hhere := wr_here _ _ _ _ W). unfold cs_has_obj, cs_get_obj, _to_attr_key in *.
  rewrite (wr_id _ _ _ _ W).
  split; [by eapply (trie_get_present c' _ t v content None)|].
  split; [intros d; by eapply trie_get_present|].
  split; [|split; [by eapply wrote_balances|split; [by eapply wrote_tokens|by eapply wrote_blueprint]]].
  eapply wrote_objs; [done|]. intros key [Hkey Hne] [= E']. by apply Hne, okkey_inj.
Qed.

Lemma cs_law_del c k : cinv c -> cs_unlocked c -> okkey k ->
  exists c', cs_del_obj sha256 k c = (Ok tt, c') /\ cinv c' /\ cs_unlocked c' /\
    cs_has_obj sha256 c' k = Ok false /\ (forall t d, cs_get_obj sha256 c' k t d = with_default d) /\
    same_objs (fun k' => okkey k' /\ k' <> k) c c' /\
    same_balances all_keys c c' /\ same_tokens all_keys c c' /\ same_blueprint c c'.
Proof using HH okkey_inj deleted_ok.
  intros Hc Hu Hk. unfold cs_del_obj.
  rewrite (bind_ok _ _ _ _ _ (unlocked_check c Hu)).
  destruct serialize_deleted as (E & Hdel & Hdes).
  destruct (trie_update_wrote c (_to_attr_key c k) None VDeletedKey _ Hc E deleted_ok) as (c' & -> & W).
  exists c'. split; [done|]. split; [apply W|]. split; [by eapply wrote_unlocked|].
  assert (Hhere := wr_here _ _ _ _ W).
  unfold cs_has_obj, cs_get_obj, _trie_has_key, _trie_get_obj, _to_attr_key in *.
  rewrite (wr_id _ _ _ _ W), Hhere, Hdel. split; [done|].
  split; [intros t d; by rewrite Hdes|].
  split; [|split; [by eapply wrote_balances|split; [by eapply wrote_tokens|by eapply wrote_blueprint]]].
  eapply wrote_objs; [done|]. intros key [Hkey Hne] [= E']. by apply Hne, okkey_inj.
Qed.

(** a balance method that succeeds on an acceptable value *)
Lemma cs_law_balance c tok f ok b (m : M (contract_storage DB) unit) :
  cinv c -> cs_unlocked c -> cs_get_mutable_balance sha256 c tok = Ok b ->
  m c = cs_change_balance sha256 tok f ok c -> ok (f b) = true -> cs_okval (bal_value (f b)) ->
  exists c', m c = (Ok tt, c') /\ cinv c' /\ cs_unlocked c' /\
    cs_get_mutable_balance sha256 c' tok = Ok (f b) /\
    same_objs okkey c c' /\ same_balances (fun t => t <> tok) c c' /\
    same_tokens all_keys c c' /\ same_blueprint c c'.
Proof using HH.
  intros Hc Hu Hb Em Hok Hv.
  destruct (change_balance_wrote c tok f ok b Hc Hb Hok) as (c' & content & E & W & Hb');
    [by eapply okval_fits|].
  exists c'. split; [by rewrite Em|]. split; [apply W|]. split; [by eapply wrote_unlocked|].
  split; [done|]. by eapply balance_frames.
Qed.

(** the guards of the authority methods *)
Lemma authorities_guards c tok (m : M (contract_storage DB) unit) :
  tok <> HATHOR_TOKEN_UID -> cs_unlocked c ->
  (py_assert (negb (bool_decide (tok = HATHOR_TOKEN_UID))) ;;; cs_check_if_locked ;;; m) c = m c.
Proof.
  intros Hne Hu. rewrite not_hathor by done. rewrite (bind_ok _ _ c tt c) by done.
  by rewrite (bind_ok _ _ _ _ _ (unlocked_check c Hu)).
Qed.

Lemma cs_law_token c td : cinv c -> cs_unlocked c -> cs_oktoken td ->
  exists c', cs_create_token sha256 td c = (Ok tt, c') /\ cinv c' /\ cs_unlocked c' /\
    cs_has_token c' (td_token_id td) = Ok true /\ cs_get_token c' (td_token_id td) = Ok td /\
    same_objs okkey c c' /\ same_balances all_keys c c' /\
    same_tokens (fun i => i <> td_token_id td) c c' /\ same_blueprint c c'.
Proof using HH.
  intros [Ht Hb] Hu (bs & E & HV). unfold cs_create_token, proxy_create_token.
  destruct (create_token_spec sha256 V valid (cs_block c) td bs Hb E HV)
    as (b' & -> & Hb' & Hdb & Hhas & Hget & Ho & _).
  eexists. split; [done|]. split; [split; [simpl; by rewrite Hdb|done]|]. split; [exact Hu|].
  split; [exact Hhas|]. split; [exact Hget|].
  assert (Hg : forall k, cs_trie_get sha256 (mkContract b' (_trie c) (cs_nc_id c) (is_locked c)) k =
                         cs_trie_get sha256 c k) by (intros k; unfold cs_trie_get; simpl; by rewrite Hdb).
  split; [|split; [|split]].
  - intros k _. simpl. unfold cs_has_obj, cs_get_obj, _trie_has_key, _trie_get_obj, _to_attr_key. simpl.
    by rewrite Hg.
  - intros tok _. simpl. unfold cs_get_mutable_balance, _trie_get_obj. simpl. by rewrite Hg.
  - intros i Hne. destruct (Ho i Hne). done.
  - unfold same_blueprint. simpl. unfold cs_get_blueprint_id, _get_metadata, _trie_get_obj. simpl.
    by rewrite Hg.
Qed.

Lemma cs_law_blueprint c bp : cinv c -> cs_unlocked c -> cs_okbp bp ->
  exists c', cs_set_blueprint_id sha256 bp c = (Ok tt, c') /\ cinv c' /\ cs_unlocked c' /\
    cs_get_blueprint_id sha256 c' = Ok bp /\
    same_objs okkey c c' /\ same_balances all_keys c c' /\ same_tokens all_keys c c'.
Proof using HH.
  intros Hc Hu [Ht (content & E & HV)]. unfold cs_set_blueprint_id, _put_metadata.
  rewrite (bind_ok _ _ _ _ _ (unlocked_check c Hu)).
  destruct (trie_update_wrote c (MetadataKey (cs_nc_id c) _BLUEPRINT_ID_KEY) _ _ content Hc E HV)
    as (c' & -> & W).
  exists c'. split; [done|]. split; [apply W|]. split; [by eapply wrote_unlocked|].
  split; [|split; [by eapply wrote_objs|split; [by eapply wrote_balances|by eapply wrote_tokens]]].
  unfold cs_get_blueprint_id, _get_metadata. rewrite (wr_id _ _ _ _ W).
  by destruct (trie_get_present c' (MetadataKey (cs_nc_id c) _BLUEPRINT_ID_KEY) _ _ content None
    (wr_here _ _ _ _ W) Ht E) as [-> _].
Qed.

#[export] Instance contract_storage_laws :
  StorageLaws (contract_storage DB) cinv cs_unlocked okkey cs_fits cs_okval cs_oktoken cs_okbp.
Proof using HH okkey_inj deleted_ok.
  split.
  - by intros t v [? _].
  - intros c k t d v. simpl. unfold cs_get_obj, _trie_get_obj. intros H. inv_rok H.
    destruct (is_DeletedKey a) eqn:E; [|left; congruence]. destruct d; [right; congruence|done].
  - intros c k t v. apply cs_law_put.
  - intros c k. apply cs_law_del.
  - intros c tok amount b Hc Hu Hb Hv.
    eapply (cs_law_balance c tok (fun b => add_value b amount) (fun b => 0 <=? bal_value b));
      [done|done|done| |by apply Z.leb_le, Hv|done].
    simpl. unfold cs_add_balance. by rewrite (bind_ok _ _ _ _ _ (unlocked_check c Hu)).
  - intros c tok mint melt b Hc Hu Hne Hb Hv.
    eapply (cs_law_balance c tok (fun b => balance_grant b mint melt) (fun _ => true)); try done.
    by apply authorities_guards.
  - intros c tok mint melt b Hc Hu Hne Hb Hv.
    eapply (cs_law_balance c tok (fun b => balance_revoke b mint melt) (fun _ => true)); try done.
    by apply authorities_guards.
  - intros c td Hc Hu Ht _. by apply cs_law_token.
  - intros c bp. apply cs_law_blueprint.
Qed.

(** ** Errors *)

(** While the storage is locked, every method that changes it raises
    [RuntimeError] (an authority change of the native token is refused even
    before) and leaves the storage untouched. *)
Theorem locked_storage_unchanged c k t v tok amount mint melt bp :
  is_locked c = true -> tok <> HATHOR_TOKEN_UID ->
  cs_put_obj sha256 k t v c = (Err RuntimeError, c) /\
  cs_del_obj sha256 k c = (Err RuntimeError, c) /\
  cs_add_balance sha256 tok amount c = (Err RuntimeError, c) /\
  cs_grant_authorities sha256 tok mint melt c = (Err RuntimeError, c) /\
  cs_revoke_authorities sha256 tok mint melt c = (Err RuntimeError, c) /\
  cs_set_blueprint_id sha256 bp c = (Err RuntimeError, c) /\
  cs_commit c = (Err RuntimeError, c).
Proof using.
  intros Hl Hne. unfold cs_put_obj, cs_del_obj, cs_add_balance, cs_grant_authorities,
    cs_revoke_authorities, cs_set_blueprint_id, cs_commit. rewrite not_hathor by done.
  unfold bind, py_assert, ret, cs_check_if_locked. by rewrite Hl.
Qed.

(** A withdrawal larger than the balance is refused with [AssertionError] and
    changes nothing; any other change of a balance by an acceptable amount is
    applied to that token's balance alone, keeping its authorities. *)
Theorem add_balance_spec c tok amount b :
  cinv c -> cs_unlocked c -> cs_get_mutable_balance sha256 c tok = Ok b ->
  if bal_value b + amount <? 0 then
    cs_add_balance sha256 tok amount c = (Err AssertionError, c)
  else cs_okval (bal_value b + amount) ->
    exists c', cs_add_balance sha256 tok amount c = (Ok tt, c') /\ cinv c' /\
      cs_get_mutable_balance sha256 c' tok = Ok (mkBalance (bal_value b + amount) (can_mint b) (can_melt b)) /\
      (forall tok', tok' <> tok -> cs_get_mutable_balance sha256 c' tok' = cs_get_mutable_balance sha256 c tok') /\
      (forall k, okkey k -> cs_has_obj sha256 c' k = cs_has_obj sha256 c k).
Proof using HH.
  intros Hc Hu Hb. destruct (Z.ltb_spec (bal_value b + amount) 0).
  - unfold cs_add_balance. rewrite (bind_ok _ _ _ _ _ (unlocked_check c Hu)).
    unfold cs_change_balance, bind. rewrite Hb. simpl.
    rewrite (proj2 (Z.leb_gt 0 (bal_value b + amount))) by lia. done.
  - intros Hv.
    destruct (cs_law_balance c tok (fun b => add_value b amount) (fun b => 0 <=? bal_value b) b
      (cs_add_balance sha256 tok amount)) as (c' & E & Hc' & _ & Hb' & Ho & Hbal & _);
      [done|done|done| |by apply Z.leb_le|done|].
    { unfold cs_add_balance. by rewrite (bind_ok _ _ _ _ _ (unlocked_check c Hu)). }
    exists c'. split; [done|]. split; [done|]. split; [done|]. split; [by intros; apply Hbal|].
    intros k Hk. by apply Ho.
Qed.
End theory.
