(* ===== verification/ChangesTracker.v ===== *)
(** The changes of one contract call, [hathor/nanocontracts/storage/changes_tracker.py]:
    a storage that keeps its changes to itself until [commit] applies them to the
    storage it wraps. *)

From stdpp Require Import base list gmap strings.
From Stdlib Require Import ZArith Lia.
From S2P Require Import Prelude PyInt PyValue NCTypes BlockStorage ContractStorage StorageInterface.

Local Open Scope Z_scope.
Local Open Scope py_scope.

Import MaybeDeletedNCType.

(** * Authority differences *)

Inductive _NCAuthorityState : Type := NONE | GRANTED | REVOKED.

#[export] Instance authority_state_eq_dec : EqDecision _NCAuthorityState.
Proof. solve_decision. Defined.

Record _NCAuthorityDiff : Type := mkDiff { d_mint : _NCAuthorityState; d_melt : _NCAuthorityState }.

Definition default_diff : _NCAuthorityDiff := mkDiff NONE NONE.

Definition grant_mint (d : _NCAuthorityDiff) : bool := bool_decide (d_mint d = GRANTED).
Definition grant_melt (d : _NCAuthorityDiff) : bool := bool_decide (d_melt d = GRANTED).
Definition revoke_mint (d : _NCAuthorityDiff) : bool := bool_decide (d_mint d = REVOKED).
Definition revoke_melt (d : _NCAuthorityDiff) : bool := bool_decide (d_melt d = REVOKED).

(** * [NCChangesTracker] *)

Record tracker (S : Type) : Type := mkTracker {
  storage : S;
  tr_nc_id : bytes;
  data : list (TrieKey * (value * option nc_type));
  _balance_diff : list (TrieKey * Z);
  _authorities_diff : list (TrieKey * _NCAuthorityDiff);
  _created_tokens : list (bytes * TokenDescription);
  _blueprint_id : option bytes;
  has_been_commited : bool;
  has_been_blocked : bool
}.
Arguments mkTracker {S} _ _ _ _ _ _ _ _ _.
Arguments storage {S} _.
Arguments tr_nc_id {S} _.
Arguments data {S} _.
Arguments _balance_diff {S} _.
Arguments _authorities_diff {S} _.
Arguments _created_tokens {S} _.
Arguments _blueprint_id {S} _.
Arguments has_been_commited {S} _.
Arguments has_been_blocked {S} _.

Section tracker.
Context {S : Type} `{!StorageOps S}.

Abbreviation TM := (M (tracker S)).

Definition tracker_init (nc_id : bytes) (s : S) : tracker S :=
  mkTracker s nc_id [] [] [] [] None false false.

(** assignments to one attribute *)
Definition set_storage (t : tracker S) (s : S) : tracker S :=
  mkTracker s (tr_nc_id t) (data t) (_balance_diff t) (_authorities_diff t) (_created_tokens t)
    (_blueprint_id t) (has_been_commited t) (has_been_blocked t).
Definition set_data (t : tracker S) d : tracker S :=
  mkTracker (storage t) (tr_nc_id t) d (_balance_diff t) (_authorities_diff t) (_created_tokens t)
    (_blueprint_id t) (has_been_commited t) (has_been_blocked t).
Definition set_balance_diff (t : tracker S) d : tracker S :=
  mkTracker (storage t) (tr_nc_id t) (data t) d (_authorities_diff t) (_created_tokens t)
    (_blueprint_id t) (has_been_commited t) (has_been_blocked t).
Definition set_authorities_diff (t : tracker S) d : tracker S :=
  mkTracker (storage t) (tr_nc_id t) (data t) (_balance_diff t) d (_created_tokens t)
    (_blueprint_id t) (has_been_commited t) (has_been_blocked t).
Definition set_created_tokens (t : tracker S) d : tracker S :=
  mkTracker (storage t) (tr_nc_id t) (data t) (_balance_diff t) (_authorities_diff t) d
    (_blueprint_id t) (has_been_commited t) (has_been_blocked t).
Definition set_blueprint (t : tracker S) b : tracker S :=
  mkTracker (storage t) (tr_nc_id t) (data t) (_balance_diff t) (_authorities_diff t) (_created_tokens t)
    b (has_been_commited t) (has_been_blocked t).
Definition set_flags (t : tracker S) (commited blocked : bool) : tracker S :=
  mkTracker (storage t) (tr_nc_id t) (data t) (_balance_diff t) (_authorities_diff t) (_created_tokens t)
    (_blueprint_id t) commited blocked.

Definition tr_has_token (t : tracker S) (token_id : bytes) : result bool :=
  match od_get (_created_tokens t) token_id with
  | Some _ => Ok true
  | None => so_has_token (storage t) token_id
  end.

Definition tr_create_token (td : TokenDescription) : TM unit :=
  let! exists_ := (fun t => (tr_has_token t (td_token_id td), t)) in
  if (exists_ : bool) then raise NCTokenAlreadyExists
  else fun t => (Ok tt, set_created_tokens t (od_set (_created_tokens t) (td_token_id td) td)).

Definition tr_get_token (t : tracker S) (token_id : bytes) : result TokenDescription :=
  match od_get (_created_tokens t) token_id with
  | Some td => Ok td
  | None => so_get_token (storage t) token_id
  end.

Definition tr_check_if_locked : TM unit := fun t =>
  if has_been_commited t then (Err RuntimeError, t)
  else if has_been_blocked t then (Err RuntimeError, t)
  else (Ok tt, t).

Definition block : TM unit :=
  tr_check_if_locked ;;; fun t => (Ok tt, set_flags t (has_been_commited t) true).

Definition tr_attr_key (t : tracker S) (key : bytes) : TrieKey := AttrKey (tr_nc_id t) key.

Definition tr_get_obj (t : tracker S) (key : bytes) (nc_type : nc_type) (default : option value) :
    result value :=
  let? obj := match od_get (data t) (tr_attr_key t key) with
    | Some (obj, _) => Ok obj
    | None => so_get_obj (storage t) key nc_type default
    end in
  if is_DeletedKey obj then match default with Some d => Ok d | None => Err KeyError end
  else Ok obj.

Definition tr_put_obj (key : bytes) (nc_type : nc_type) (obj : value) : TM unit :=
  tr_check_if_locked ;;;
  lift (check_value nc_type obj) ;;;
  fun t => (Ok tt, set_data t (od_set (data t) (tr_attr_key t key) (obj, Some nc_type))).

Definition tr_del_obj (key : bytes) : TM unit :=
  tr_check_if_locked ;;;
  fun t => (Ok tt, set_data t (od_set (data t) (tr_attr_key t key) (VDeletedKey, None))).

Definition tr_has_obj (t : tracker S) (key : bytes) : result bool :=
  match od_get (data t) (tr_attr_key t key) with
  | Some (obj, _) => Ok (negb (is_DeletedKey obj))
  | None => so_has_obj (storage t) key
  end.

(** the attribute name of a key of [data], the token of a key of the diffs *)
Definition attr_name (k : TrieKey) : bytes :=
  match k with AttrKey _ key | MetadataKey _ key | BalanceKey _ key => key end.

(** the four loops of [commit], on the wrapped storage *)
Definition commit_data (l : list (TrieKey * (value * option nc_type))) : M S unit :=
  for_each l (fun item =>
    let '(attr_key, (obj, nc_type)) := item in
    if is_DeletedKey obj then so_del_obj (attr_name attr_key)
    else match nc_type with
    | None => raise AssertionError
    | Some t => so_put_obj (attr_name attr_key) t obj
    end).

Definition commit_balances (l : list (TrieKey * Z)) : M S unit :=
  for_each l (fun item => so_add_balance (attr_name (fst item)) (snd item)).

Definition commit_authorities (l : list (TrieKey * _NCAuthorityDiff)) : M S unit :=
  for_each l (fun item =>
    so_grant_authorities (attr_name (fst item)) (grant_mint (snd item)) (grant_melt (snd item)) ;;;
    so_revoke_authorities (attr_name (fst item)) (revoke_mint (snd item)) (revoke_melt (snd item))).

Definition commit_tokens (l : list (bytes * TokenDescription)) : M S unit :=
  for_each l (fun item => so_create_token (snd item)).

Definition commit_storage (t : tracker S) : M S unit :=
  commit_data (data t) ;;;
  commit_balances (_balance_diff t) ;;;
  commit_authorities (_authorities_diff t) ;;;
  commit_tokens (_created_tokens t) ;;;
  match _blueprint_id t with
  | None => ret tt
  | Some b => so_set_blueprint_id b
  end.

Definition tr_commit : TM unit :=
  tr_check_if_locked ;;;
  fun t =>
    let '(r, s) := commit_storage t (storage t) in
    match r with
    | Ok _ => (Ok tt, set_flags (set_storage t s) true (has_been_blocked t))
    | Err e => (Err e, set_storage t s)
    end.

(** the changes pending for one token, applied to a balance *)
Definition apply_diff (balance : Balance) (amount : Z) (d : _NCAuthorityDiff) : Balance :=
  let balance := mkBalance (bal_value balance + amount) (can_mint balance) (can_melt balance) in
  let balance := balance_grant balance (grant_mint d) (grant_melt d) in
  balance_revoke balance (revoke_mint d) (revoke_melt d).

Definition tr_get_mutable_balance (t : tracker S) (token_uid : bytes) : result Balance :=
  let internal_key := BalanceKey (tr_nc_id t) token_uid in
  let? balance := so_get_mutable_balance (storage t) token_uid in
  let balance_diff := default 0 (od_get (_balance_diff t) internal_key) in
  let authorities_diff := default default_diff (od_get (_authorities_diff t) internal_key) in
  Ok (apply_diff balance balance_diff authorities_diff).

Definition validate_balances_are_positive (t : tracker S) : result unit :=
  rfor (_balance_diff t) (fun item =>
    let? balance := tr_get_mutable_balance t (attr_name (fst item)) in
    if bal_value balance <? 0 then Err NCInsufficientFunds else Ok tt).

(** the keys of [set(all_balance_keys)], in some order *)
Definition all_balance_keys (stored : list (TrieKey * Balance)) (t : tracker S) : list TrieKey :=
  remove_dups (map fst stored ++ map fst (_balance_diff t) ++ map fst (_authorities_diff t)).

Fixpoint read_balances (t : tracker S) (keys : list TrieKey) : result (list (TrieKey * Balance)) :=
  match keys with
  | [] => Ok []
  | k :: r =>
      let? b := tr_get_mutable_balance t (attr_name k) in
      let? rest := read_balances t r in
      Ok ((k, b) :: rest)
  end.

Definition tr_get_all_balances (t : tracker S) : result (list (TrieKey * Balance)) :=
  let? stored := so_get_all_balances (storage t) in
  read_balances t (all_balance_keys stored t).

Definition tr_add_balance (token_uid : bytes) (amount : Z) : TM unit :=
  tr_check_if_locked ;;;
  fun t =>
    let internal_key := BalanceKey (tr_nc_id t) token_uid in
    let old := default 0 (od_get (_balance_diff t) internal_key) in
    (Ok tt, set_balance_diff t (od_set (_balance_diff t) internal_key (old + amount))).

Definition set_authorities (token_uid : bytes) (mint melt : bool) (new : _NCAuthorityState) : TM unit :=
  py_assert (negb (bool_decide (token_uid = HATHOR_TOKEN_UID))) ;;;
  tr_check_if_locked ;;;
  fun t =>
    let internal_key := BalanceKey (tr_nc_id t) token_uid in
    let diff := default default_diff (od_get (_authorities_diff t) internal_key) in
    let diff := mkDiff (if mint then new else d_mint diff) (if melt then new else d_melt diff) in
    (Ok tt, set_authorities_diff t (od_set (_authorities_diff t) internal_key diff)).

Definition tr_grant_authorities (token_uid : bytes) (grant_mint grant_melt : bool) : TM unit :=
  set_authorities token_uid grant_mint grant_melt GRANTED.

Definition tr_revoke_authorities (token_uid : bytes) (revoke_mint revoke_melt : bool) : TM unit :=
  set_authorities token_uid revoke_mint revoke_melt REVOKED.

(** [bool(b'')] is [False]: only a non-empty blueprint id trips the last assertion *)
Definition tr_is_empty (t : tracker S) : result bool :=
  match _balance_diff t, _authorities_diff t, _created_tokens t, _blueprint_id t with
  | [], [], [], (None | Some []) => Ok (match data t with [] => true | _ => false end)
  | _, _, _, _ => Err AssertionError
  end.

Definition tr_get_blueprint_id (t : tracker S) : result bytes :=
  match _blueprint_id t with
  | Some b => Ok b
  | None => so_get_blueprint_id (storage t)
  end.

Definition tr_set_blueprint_id (b : bytes) : TM unit :=
  tr_check_if_locked ;;; fun t => (Ok tt, set_blueprint t (Some b)).
End tracker.

(** a tracker is a storage: it can wrap another tracker *)
#[export] Instance tracker_ops {S : Type} `{!StorageOps S} : StorageOps (tracker S) := {
  so_has_token := tr_has_token;
  so_get_token := tr_get_token;
  so_create_token := tr_create_token;
  so_get_obj := tr_get_obj;
  so_put_obj := tr_put_obj;
  so_del_obj := tr_del_obj;
  so_has_obj := tr_has_obj;
  so_get_mutable_balance := tr_get_mutable_balance;
  so_get_all_balances := tr_get_all_balances;
  so_add_balance := tr_add_balance;
  so_grant_authorities := tr_grant_authorities;
  so_revoke_authorities := tr_revoke_authorities;
  so_get_blueprint_id := tr_get_blueprint_id;
  so_set_blueprint_id := tr_set_blueprint_id
}.
