(* ===== verification/ChangesTrackerTheory.v ===== *)
(** Correctness of [NCChangesTracker], proved against the storage laws: reading
    through a tracker is reading the storage its [commit] would leave, and a
    tracker is itself a lawful storage, so trackers nest. *)

From stdpp Require Import base list gmap strings.
From Stdlib Require Import ZArith Lia.
From S2P Require Import Prelude PyInt PyValue NCTypes NCTypeTheory BlockStorage ContractStorage.
From S2P Require Import StorageInterface ContractStorageTheory ChangesTracker.

Local Open Scope Z_scope.
Local Open Scope py_scope.

Import MaybeDeletedNCType.

Section theory.
Context {S : Type} `{!StorageOps S} {inv unlocked : S -> Prop} {okkey : bytes -> Prop}
  {fits : nc_type -> value -> Prop} {okval : Z -> Prop} {oktoken : TokenDescription -> Prop}
  {okbp : bytes -> Prop}.
Context {L : StorageLaws S inv unlocked okkey fits okval oktoken okbp}.

(** everything but the objects, the balances, the tokens or the blueprint is as before *)
Definition only_objs (s s' : S) : Prop :=
  same_balances all_keys s s' /\ same_tokens all_keys s s' /\ same_blueprint s s'.
Definition only_balances (s s' : S) : Prop :=
  same_objs okkey s s' /\ same_tokens all_keys s s' /\ same_blueprint s s'.
Definition only_tokens (s s' : S) : Prop :=
  same_objs okkey s s' /\ same_balances all_keys s s' /\ same_blueprint s s'.

Lemma only_objs_trans s1 s2 s3 : only_objs s1 s2 -> only_objs s2 s3 -> only_objs s1 s3.
Proof.
  intros (? & ? & ?) (? & ? & ?).
  split; [by eapply same_balances_trans|split; [by eapply same_tokens_trans|by eapply same_blueprint_trans]].
Qed.

Lemma only_balances_trans s1 s2 s3 : only_balances s1 s2 -> only_balances s2 s3 -> only_balances s1 s3.
Proof.
  intros (? & ? & ?) (? & ? & ?).
  split; [by eapply same_objs_trans|split; [by eapply same_tokens_trans|by eapply same_blueprint_trans]].
Qed.

Lemma only_tokens_trans s1 s2 s3 : only_tokens s1 s2 -> only_tokens s2 s3 -> only_tokens s1 s3.
Proof.
  intros (? & ? & ?) (? & ? & ?).
  split; [by eapply same_objs_trans|split; [by eapply same_balances_trans|by eapply same_blueprint_trans]].
Qed.

(** ** The loops of [commit] *)

(** an entry of [data] *)
Definition data_ok (nc : bytes) (item : TrieKey * (value * option nc_type)) : Prop :=
  exists key, fst item = AttrKey nc key /\ okkey key /\
    match snd item with
    | (v, Some t) => fits t v
    | (v, None) => v = VDeletedKey
    end.

(** what the storage shows of an entry once it is committed *)
Definition shows (s : S) (key : bytes) (v : value) (ot : option nc_type) : Prop :=
  so_has_obj s key = Ok (negb (is_DeletedKey v)) /\
  forall t d, ot = Some t \/ ot = None ->
    so_get_obj s key t d = if is_DeletedKey v then with_default d else Ok v.

Lemma shows_same P s s' key v ot : same_objs P s s' -> P key -> shows s key v ot -> shows s' key v ot.
Proof.
  intros Hs Hk [H1 H2]. destruct (Hs key Hk) as [E1 E2]. split; [congruence|].
  intros t d Ht. rewrite E2. auto.
Qed.

Lemma commit_item_ok nc item s :
  inv s -> unlocked s -> data_ok nc item ->
  exists key s', fst item = AttrKey nc key /\ commit_data [item] s = (Ok tt, s') /\
    inv s' /\ unlocked s' /\ shows s' key (fst (snd item)) (snd (snd item)) /\
    same_objs (fun k => okkey k /\ k <> key) s s' /\ only_objs s s'.
Proof using L.
  destruct item as [ak [v ot]]. intros Hi Hu (key & Ek & Hk & Hv). simpl in Ek, Hv.
  subst ak. exists key. unfold commit_data. simpl. destruct ot as [t|].
  - assert (Hd : is_DeletedKey v = false) by (eapply has_type_not_deleted, fits_typed, Hv).
    rewrite Hd. destruct (law_put s key t v Hi Hu Hk Hv) as (s' & E & Hi' & Hu' & Hh & Hg & Ho & Hrest).
    exists s'. rewrite (bind_ok _ _ _ _ _ E). do 4 (split; [done|]). split; [|done].
    split; [by rewrite Hh, Hd|]. intros t' d [[= <-]|?]; [|done]. by rewrite Hg, Hd.
  - subst v. destruct (law_del s key Hi Hu Hk) as (s' & E & Hi' & Hu' & Hh & Hg & Ho & Hrest).
    exists s'. rewrite (bind_ok _ _ _ _ _ E).
    do 4 (split; [done|]). split; [|done]. split; [by rewrite Hh|]. intros t' d _. by rewrite Hg.
Qed.

Lemma commit_data_ok nc l s :
  inv s -> unlocked s -> NoDup (map fst l) -> Forall (data_ok nc) l ->
  exists s', commit_data l s = (Ok tt, s') /\ inv s' /\ unlocked s' /\
    (forall key v ot, (AttrKey nc key, (v, ot)) ∈ l -> shows s' key v ot) /\
    same_objs (fun k => okkey k /\ AttrKey nc k ∉ map fst l) s s' /\ only_objs s s'.
Proof using L.
  revert s. induction l as [|item l IH]; intros s Hi Hu Hn Hok.
  { exists s. split; [done|]. split; [done|]. split; [done|]. split; [by intros ??? ?%not_elem_of_nil|].
    by repeat split. }
  simpl in Hn. apply NoDup_cons in Hn as [Hx Hn]. apply Forall_cons in Hok as [Hitem Hok].
  destruct (commit_item_ok nc item s Hi Hu Hitem) as (key & s1 & Ek & E1 & Hi1 & Hu1 & Hsh & Ho1 & Hr1).
  destruct (IH s1 Hi1 Hu1 Hn Hok) as (s2 & E2 & Hi2 & Hu2 & Hsh2 & Ho2 & Hr2).
  exists s2. split.
  { unfold commit_data in *. simpl in *. apply bind_ok_inv in E1 as ([] & s1' & E1 & [= ->]).
    by rewrite (bind_ok _ _ _ _ _ E1). }
  split; [done|]. split; [done|]. split; [|split].
  - intros k v ot [Eit|Hin]%elem_of_cons; [|by apply Hsh2]. subst item. simpl in *. injection Ek as ->.
    eapply shows_same; [exact Ho2| |done]. split; [|done].
    destruct Hitem as (key' & [= <-] & ? & _). done.
  - eapply same_objs_trans; [eapply same_objs_sub; [|exact Ho1]|eapply same_objs_sub; [|exact Ho2]];
      intros k [Hk Hnot]; cbn [map] in Hnot; apply not_elem_of_cons in Hnot as [Hne Hnot]; [|done].
    split; [done|]. intros ->. by rewrite Ek in Hne.
  - by eapply only_objs_trans.
Qed.

(** a loop of balance changes [f] over the tokens of [l] *)
Lemma commit_balance_loop {A} (l : list (TrieKey * A)) (step : TrieKey * A -> M S unit)
    (f : A -> Balance -> Balance) nc s :
  (forall tok a s b, inv s -> unlocked s -> (BalanceKey nc tok, a) ∈ l ->
    so_get_mutable_balance s tok = Ok b -> okval (bal_value (f a b)) ->
    exists s', step (BalanceKey nc tok, a) s = (Ok tt, s') /\ inv s' /\ unlocked s' /\
      so_get_mutable_balance s' tok = Ok (f a b) /\
      same_balances (fun t => t <> tok) s s' /\ only_balances s s') ->
  inv s -> unlocked s -> NoDup (map fst l) ->
  Forall (fun item => exists tok b, fst item = BalanceKey nc tok /\
    so_get_mutable_balance s tok = Ok b /\ okval (bal_value (f (snd item) b))) l ->
  exists s', for_each l step s = (Ok tt, s') /\ inv s' /\ unlocked s' /\
    (forall tok a b, (BalanceKey nc tok, a) ∈ l -> so_get_mutable_balance s tok = Ok b ->
      so_get_mutable_balance s' tok = Ok (f a b)) /\
    same_balances (fun t => BalanceKey nc t ∉ map fst l) s s' /\ only_balances s s'.
Proof.
  revert s. induction l as [|[k a] l IH]; intros s Hstep Hi Hu Hn Hall.
  { exists s. split; [done|]. split; [done|]. split; [done|]. split; [by intros ??? ?%not_elem_of_nil|].
    by repeat split. }
  simpl in Hn. apply NoDup_cons in Hn as [Hx Hn]. apply Forall_cons in Hall as [(tok & b & Ek & Hb & Hv) Hall].
  simpl in Ek, Hv. subst k.
  destruct (Hstep tok a s b Hi Hu) as (s1 & E1 & Hi1 & Hu1 & Hb1 & Ho1 & Hr1); [left|done|done|].
  destruct (IH s1) as (s2 & E2 & Hi2 & Hu2 & Hb2 & Ho2 & Hr2); [|done|done|done| |].
  { intros tok' a' s0 b0 ?? Hin. apply Hstep; [done|done|by right]. }
  { rewrite Forall_forall in *. intros [k' a'] Hin. destruct (Hall _ Hin) as (tok' & b' & Ek' & Hb' & Hv').
    simpl in *. subst k'. exists tok', b'. split; [done|]. split; [|done]. rewrite Ho1; [done|].
    intros ->. apply Hx. apply list_elem_of_fmap. by exists (BalanceKey nc tok, a'). }
  exists s2. split; [simpl; by rewrite (bind_ok _ _ _ _ _ E1)|]. split; [done|]. split; [done|].
  split; [|split].
  - intros tok' a' b' [[= -> ->]|Hin]%elem_of_cons Hb'.
    + rewrite Hb in Hb'. simplify_eq. rewrite Ho2; [done|]. done.
    + apply Hb2; [done|]. rewrite Ho1; [done|]. intros ->. apply Hx. apply list_elem_of_fmap.
      by exists (BalanceKey nc tok, a').
  - intros t Ht. cbn [map fst] in Ht. apply not_elem_of_cons in Ht as [Hne Ht].
    rewrite Ho2 by done. apply Ho1. congruence.
  - by eapply only_balances_trans.
Qed.

Lemma commit_tokens_ok l s :
  inv s -> unlocked s -> NoDup (map fst l) ->
  Forall (fun item => fst item = td_token_id (snd item) /\ oktoken (snd item) /\
    so_has_token s (fst item) = Ok false) l ->
  exists s', commit_tokens l s = (Ok tt, s') /\ inv s' /\ unlocked s' /\
    (forall i td, (i, td) ∈ l -> so_has_token s' i = Ok true /\ so_get_token s' i = Ok td) /\
    same_tokens (fun i => i ∉ map fst l) s s' /\ only_tokens s s'.
Proof using L.
  revert s. induction l as [|[i td] l IH]; intros s Hi Hu Hn Hall.
  { exists s. split; [done|]. split; [done|]. split; [done|]. split; [by intros ?? ?%not_elem_of_nil|].
    by repeat split. }
  simpl in Hn. apply NoDup_cons in Hn as [Hx Hn]. apply Forall_cons in Hall as [(Ei & Hok & Hno) Hall].
  simpl in Ei, Hok, Hno. subst i.
  destruct (law_token s td Hi Hu Hok Hno) as (s1 & E1 & Hi1 & Hu1 & Hh1 & Hg1 & Ho1 & Hb1 & Ht1 & Hbp1).
  destruct (IH s1 Hi1 Hu1 Hn) as (s2 & E2 & Hi2 & Hu2 & Hall2 & Ht2 & Hr2).
  { rewrite Forall_forall in *. intros [j td'] Hin. destruct (Hall _ Hin) as (Ej & Hok' & Hno'). simpl in *.
    split; [done|]. split; [done|]. destruct (Ht1 j) as [-> _]; [|done]. intros ->. apply Hx.
    apply list_elem_of_fmap. by exists (td_token_id td, td'). }
  exists s2. split; [unfold commit_tokens in *; simpl; by rewrite (bind_ok _ _ _ _ _ E1)|].
  split; [done|]. split; [done|]. split; [|split].
  - intros j td' [[= -> ->]|Hin]%elem_of_cons; [|by apply Hall2].
    destruct (Ht2 (td_token_id td)) as [-> ->]; done.
  - intros j Hj. cbn [map fst] in Hj. apply not_elem_of_cons in Hj as [Hne Hj].
    destruct (Ht1 j Hne) as [E3 E4], (Ht2 j Hj) as [E5 E6]. split; congruence.
  - eapply only_tokens_trans; [|exact Hr2]. done.
Qed.

(** ** The invariant of a tracker *)

Record twf (t : tracker S) : Prop := Twf {
  tw_inv : inv (storage t);
  tw_data_keys : NoDup (map fst (data t));
  tw_data : Forall (data_ok (tr_nc_id t)) (data t);
  tw_balance_keys : NoDup (map fst (_balance_diff t));
  tw_balance : Forall (fun item => exists tok, fst item = BalanceKey (tr_nc_id t) tok) (_balance_diff t);
  tw_authority_keys : NoDup (map fst (_authorities_diff t));
  tw_authority : Forall (fun item => exists tok, fst item = BalanceKey (tr_nc_id t) tok /\
    tok <> HATHOR_TOKEN_UID) (_authorities_diff t);
  tw_token_keys : NoDup (map fst (_created_tokens t));
  tw_token : Forall (fun item => fst item = td_token_id (snd item) /\ oktoken (snd item) /\
    so_has_token (storage t) (fst item) = Ok false) (_created_tokens t);
  tw_blueprint : forall b, _blueprint_id t = Some b -> okbp b
}.

Definition tr_unlocked (t : tracker S) : Prop :=
  has_been_commited t = false /\ has_been_blocked t = false.

(** the balances the commit writes are readable and acceptable *)
Definition settled (t : tracker S) : Prop := forall tok,
  BalanceKey (tr_nc_id t) tok ∈ map fst (_balance_diff t) \/
  BalanceKey (tr_nc_id t) tok ∈ map fst (_authorities_diff t) ->
  exists b, tr_get_mutable_balance t tok = Ok b /\ okval (bal_value b).

Lemma apply_diff_eq b amount d :
  apply_diff b amount d =
  balance_revoke (balance_grant (add_value b amount) (grant_mint d) (grant_melt d))
    (revoke_mint d) (revoke_melt d).
Proof. done. Qed.

Lemma apply_diff_none b amount : apply_diff b amount default_diff = add_value b amount.
Proof. unfold apply_diff, add_value, balance_grant, balance_revoke. by destruct b as [z [] []]. Qed.

Lemma add_value_0 b : add_value b 0 = b.
Proof. destruct b. unfold add_value. simpl. by rewrite Z.add_0_r. Qed.

Lemma tracker_balance_value t tok b b' :
  so_get_mutable_balance (storage t) tok = Ok b -> tr_get_mutable_balance t tok = Ok b' ->
  bal_value b' = bal_value b + default 0 (od_get (_balance_diff t) (BalanceKey (tr_nc_id t) tok)).
Proof. intros E. unfold tr_get_mutable_balance. rewrite E. by intros [= <-]. Qed.

Lemma in_keys {A} (l : list (TrieKey * A)) k a : (k, a) ∈ l -> k ∈ map fst l.
Proof. intros H. apply list_elem_of_fmap. by exists (k, a). Qed.

(** [tr_get_mutable_balance] returns when the storage's does *)
Lemma tracker_balance_ok t tok b' : tr_get_mutable_balance t tok = Ok b' ->
  exists b, so_get_mutable_balance (storage t) tok = Ok b.
Proof. unfold tr_get_mutable_balance. destruct (so_get_mutable_balance _ _); [eauto|done]. Qed.

(** the balance changes of [commit], from a storage with the same balances *)
Lemma commit_diffs_ok t s :
  twf t -> settled t -> inv s -> unlocked s -> same_balances all_keys (storage t) s ->
  exists s', (commit_balances (_balance_diff t) ;;; commit_authorities (_authorities_diff t)) s = (Ok tt, s') /\
    inv s' /\ unlocked s' /\ only_balances s s' /\
    forall tok, so_get_mutable_balance s' tok = tr_get_mutable_balance t tok.
Proof using L.
  intros Hw Hset Hi Hu Hsame. set (nc := tr_nc_id t).
  destruct (commit_balance_loop (_balance_diff t) (fun item => so_add_balance (attr_name (fst item)) (snd item))
    (fun a b => add_value b a) nc s) as (s1 & E1 & Hi1 & Hu1 & Hb1 & Ho1 & Hr1); [|done|done|apply Hw| |].
  { intros tok a s0 b Hi0 Hu0 _ Hb Hv. destruct (law_add s0 tok a b Hi0 Hu0 Hb Hv)
      as (s' & E & ? & ? & ? & ? & ? & ? & ?). exists s'. by repeat (split; [done|]). }
  { pose proof (tw_balance _ Hw) as Hall. rewrite Forall_forall in *. intros [k a] Hin.
    destruct (Hall _ Hin) as [tok Ek]. simpl in Ek. subst k.
    destruct (Hset tok) as (b' & Hb' & Hv); [left; by eapply in_keys|].
    destruct (tracker_balance_ok _ _ _ Hb') as [b Hb]. exists tok, b. split; [done|].
    split; [by rewrite Hsame|]. rewrite (tracker_balance_value _ _ _ _ Hb Hb') in Hv.
    rewrite (od_get_elem _ _ a) in Hv; [done|apply Hw|done]. }
  assert (Hbal1 : forall tok b, so_get_mutable_balance (storage t) tok = Ok b ->
    so_get_mutable_balance s1 tok = Ok (add_value b (default 0 (od_get (_balance_diff t) (BalanceKey nc tok))))).
  { intros tok b Hb. destruct (od_get (_balance_diff t) (BalanceKey nc tok)) as [a|] eqn:Ea.
    - apply Hb1; [by apply od_get_in|]. by rewrite Hsame.
    - simpl. rewrite add_value_0, Ho1; [by rewrite Hsame|]. by apply od_get_None. }
  destruct (commit_balance_loop (_authorities_diff t) (fun item =>
      so_grant_authorities (attr_name (fst item)) (grant_mint (snd item)) (grant_melt (snd item)) ;;;
      so_revoke_authorities (attr_name (fst item)) (revoke_mint (snd item)) (revoke_melt (snd item)))
    (fun d b => balance_revoke (balance_grant b (grant_mint d) (grant_melt d)) (revoke_mint d) (revoke_melt d))
    nc s1) as (s2 & E2 & Hi2 & Hu2 & Hb2 & Ho2 & Hr2); [|done|done|apply Hw| |].
  { intros tok d s0 b Hi0 Hu0 Hin Hb Hv. simpl in *.
    assert (Hne : tok <> HATHOR_TOKEN_UID).
    { pose proof (tw_authority _ Hw) as Hall. rewrite Forall_forall in Hall.
      by destruct (Hall _ Hin) as (tok' & [= <-] & ?). }
    destruct (law_grant s0 tok (grant_mint d) (grant_melt d) b Hi0 Hu0 Hne Hb Hv)
      as (s3 & E3 & Hi3 & Hu3 & Hb3 & Ho3 & Hbs3 & Ht3 & Hp3).
    destruct (law_revoke s3 tok (revoke_mint d) (revoke_melt d) _ Hi3 Hu3 Hne Hb3 Hv)
      as (s4 & E4 & Hi4 & Hu4 & Hb4 & Ho4 & Hbs4 & Ht4 & Hp4).
    exists s4. rewrite (bind_ok _ _ _ _ _ E3). do 4 (split; [done|]).
    split; [by eapply same_balances_trans|]. by apply (only_balances_trans s0 s3 s4). }
  { pose proof (tw_authority _ Hw) as Hall. rewrite Forall_forall in *. intros [k d] Hin.
    destruct (Hall _ Hin) as (tok & Ek & _). simpl in Ek. subst k.
    destruct (Hset tok) as (b' & Hb' & Hv); [right; by eapply in_keys|].
    destruct (tracker_balance_ok _ _ _ Hb') as [b Hb].
    eexists tok, _. split; [done|]. split; [by apply Hbal1|].
    by rewrite (tracker_balance_value _ _ _ _ Hb Hb') in Hv. }
  exists s2. unfold commit_balances. rewrite (bind_ok _ _ _ _ _ E1).
  split; [exact E2|]. split; [done|]. split; [done|]. split; [by eapply only_balances_trans|].
  intros tok. unfold tr_get_mutable_balance. fold nc.
  destruct (so_get_mutable_balance (storage t) tok) as [b|e] eqn:Hb; simpl.
  - rewrite apply_diff_eq. destruct (od_get (_authorities_diff t) (BalanceKey nc tok)) as [d|] eqn:Ed.
    + apply Hb2; [by apply od_get_in|]. by apply Hbal1.
    + simpl. rewrite Ho2 by (by apply od_get_None). rewrite <- apply_diff_eq, apply_diff_none. by apply Hbal1.
  - assert (Hno : forall A (l : list (TrieKey * A)), (BalanceKey nc tok ∈ map fst l ->
      exists b, tr_get_mutable_balance t tok = Ok b /\ okval (bal_value b)) -> BalanceKey nc tok ∉ map fst l).
    { intros A l H Hin. destruct (H Hin) as (b & Hb' & _). apply tracker_balance_ok in Hb' as [b0 Hb0].
      congruence. }
    rewrite Ho2, Ho1, Hsame; [done|done|apply Hno|apply Hno]; intros; apply Hset; auto.
Qed.

(** ** [commit] *)

(** [s'] shows directly what the tracker [t] shows *)
Record reflects (t : tracker S) (s' : S) : Prop := Reflects {
  rf_has_obj : forall k, okkey k -> so_has_obj s' k = tr_has_obj t k;
  (** an object is read with the type it was stored with *)
  rf_get_obj : forall k ty d, okkey k ->
    (forall v ty', od_get (data t) (tr_attr_key t k) = Some (v, Some ty') -> ty' = ty) ->
    so_get_obj s' k ty d = tr_get_obj t k ty d;
  rf_balance : forall tok, so_get_mutable_balance s' tok = tr_get_mutable_balance t tok;
  rf_has_token : forall i, so_has_token s' i = tr_has_token t i;
  rf_get_token : forall i, so_get_token s' i = tr_get_token t i;
  rf_blueprint : so_get_blueprint_id s' = tr_get_blueprint_id t
}.

Lemma tracker_get_stored t s' k ty d :
  od_get (data t) (tr_attr_key t k) = None ->
  so_get_obj s' k ty d = so_get_obj (storage t) k ty d ->
  so_get_obj s' k ty d = tr_get_obj t k ty d.
Proof using L.
  intros Hn E. unfold tr_get_obj. rewrite Hn, E.
  destruct (so_get_obj (storage t) k ty d) as [v|e] eqn:Ev; [|done]. simpl.
  destruct (law_get _ _ _ _ _ Ev) as [-> | ->]; [done|]. by destruct (is_DeletedKey v).
Qed.

Lemma tracker_get_pending t s' k ty d v ot :
  od_get (data t) (tr_attr_key t k) = Some (v, ot) -> shows s' k v ot -> (ot = Some ty \/ ot = None) ->
  so_has_obj s' k = tr_has_obj t k /\ so_get_obj s' k ty d = tr_get_obj t k ty d.
Proof.
  intros Hg [Hh Hs] Ht. unfold tr_has_obj, tr_get_obj. rewrite Hg. split; [done|].
  rewrite Hs by done. simpl. destruct (is_DeletedKey v); [|done]. by destruct d.
Qed.

Lemma commit_storage_ok t :
  twf t -> settled t -> unlocked (storage t) ->
  exists s', commit_storage t (storage t) = (Ok tt, s') /\ inv s' /\ unlocked s' /\ reflects t s'.
Proof using L.
  intros Hw Hset Hu. unfold commit_storage. pose proof (tw_inv _ Hw) as Hi.
  destruct (commit_data_ok (tr_nc_id t) (data t) (storage t) Hi Hu (tw_data_keys _ Hw) (tw_data _ Hw))
    as (s1 & E1 & Hi1 & Hu1 & Hsh & Ho1 & Hb1 & Ht1 & Hp1).
  destruct (commit_diffs_ok t s1 Hw Hset Hi1 Hu1 Hb1) as (s2 & E2 & Hi2 & Hu2 & (Ho2 & Ht2 & Hp2) & Hbal).
  apply bind_ok_inv in E2 as ([] & s2' & E2a & E2b).
  destruct (commit_tokens_ok (_created_tokens t) s2 Hi2 Hu2 (tw_token_keys _ Hw))
    as (s3 & E3 & Hi3 & Hu3 & Htk & Ht3 & Ho3 & Hb3 & Hp3).
  { eapply Forall_impl; [apply (tw_token _ Hw)|]. intros [i td] (? & ? & Hno). split; [done|]. split; [done|].
    simpl in *. destruct (Ht2 i I) as [-> _]. destruct (Ht1 i I) as [-> _]. done. }
  assert (Hbp : exists s4, match _blueprint_id t with None => ret tt | Some b => so_set_blueprint_id b end s3
      = (Ok tt, s4) /\ inv s4 /\ unlocked s4 /\ so_get_blueprint_id s4 = tr_get_blueprint_id t /\
      same_objs okkey s3 s4 /\ same_balances all_keys s3 s4 /\ same_tokens all_keys s3 s4).
  { unfold tr_get_blueprint_id. destruct (_blueprint_id t) as [bp|] eqn:Ebp.
    - destruct (law_blueprint s3 bp Hi3 Hu3 (tw_blueprint _ Hw _ Ebp)) as (s4 & H). by exists s4.
    - exists s3. split; [done|]. do 2 (split; [done|]). split; [|by repeat split].
      unfold same_blueprint in *. congruence. }
  destruct Hbp as (s4 & E4 & Hi4 & Hu4 & Hbp & Ho4 & Hb4 & Ht4). exists s4.
  rewrite (bind_ok _ _ _ _ _ E1), (bind_ok _ _ _ _ _ E2a), (bind_ok _ _ _ _ _ E2b), (bind_ok _ _ _ _ _ E3).
  split; [exact E4|]. split; [done|]. split; [done|].
  assert (Ho : same_objs okkey s1 s4) by (by eauto using same_objs_trans).
  assert (Hobj : forall k, okkey k -> match od_get (data t) (tr_attr_key t k) with
    | Some (v, ot) => shows s4 k v ot
    | None => so_has_obj s4 k = so_has_obj (storage t) k /\
        forall ty d, so_get_obj s4 k ty d = so_get_obj (storage t) k ty d
    end).
  { intros k Hk. destruct (od_get (data t) (tr_attr_key t k)) as [[v ot]|] eqn:Eg.
    - eapply shows_same; [exact Ho|done|]. apply Hsh. by apply od_get_in.
    - apply od_get_None in Eg. destruct (Ho k Hk) as [F1 F2], (Ho1 k (conj Hk Eg)) as [G1 G2].
      split; [congruence|]. intros ty d. by rewrite F2, G2. }
  constructor; [..|exact Hbp].
  - intros k Hk. specialize (Hobj k Hk). unfold tr_has_obj.
    destruct (od_get (data t) (tr_attr_key t k)) as [[v ot]|]; [by destruct Hobj|apply Hobj].
  - intros k ty d Hk Hty. specialize (Hobj k Hk).
    destruct (od_get (data t) (tr_attr_key t k)) as [[v ot]|] eqn:Eg.
    + eapply tracker_get_pending; [exact Eg|done|]. destruct ot as [ty'|]; [left|by right].
      f_equal. by eapply Hty.
    + apply tracker_get_stored; [done|apply Hobj].
  - intros tok. by rewrite Hb4, Hb3, Hbal.
  - intros i. unfold tr_has_token. destruct (Ht4 i I) as [-> _].
    destruct (od_get (_created_tokens t) i) as [td|] eqn:Ei; [by destruct (Htk i td) as [? ?]; [apply od_get_in|]|].
    apply od_get_None in Ei. destruct (Ht3 i Ei) as [-> _], (Ht2 i I) as [-> _], (Ht1 i I) as [-> _]. done.
  - intros i. unfold tr_get_token. destruct (Ht4 i I) as [_ ->].
    destruct (od_get (_created_tokens t) i) as [td|] eqn:Ei; [by destruct (Htk i td) as [? ?]; [apply od_get_in|]|].
    apply od_get_None in Ei. destruct (Ht3 i Ei) as [_ ->], (Ht2 i I) as [_ ->], (Ht1 i I) as [_ ->]. done.
Qed.

Lemma tr_unlocked_check t : tr_unlocked t -> tr_check_if_locked t = (Ok tt, t).
Proof. intros [E1 E2]. unfold tr_check_if_locked. by rewrite E1, E2. Qed.

Lemma commit_ok t :
  twf t -> tr_unlocked t -> settled t -> unlocked (storage t) ->
  exists t', tr_commit t = (Ok tt, t') /\ inv (storage t') /\ unlocked (storage t') /\
    reflects t (storage t') /\ has_been_commited t' = true.
Proof using L.
  intros Hw Hu Hset Hus. destruct (commit_storage_ok t Hw Hset Hus) as (s' & E & Hi & Hu' & Hr).
  exists (set_flags (set_storage t s') true (has_been_blocked t)).
  unfold tr_commit. by rewrite (bind_ok _ _ _ _ _ (tr_unlocked_check t Hu)), E.
Qed.

(** C34: [commit] of a tracker that was neither committed nor blocked, over a storage that
    accepts changes, succeeds when what the tracker holds is acceptable to the storage: every
    object was checked against its type and serializes, the tokens to create serialize and do
    not exist in the storage, the blueprint id, if set, is valid, and the balances it would
    write are readable and in range.  The wrapped storage then shows exactly what the tracker
    showed before: every object (read with its type), balance with authorities, token and
    blueprint; afterwards the tracker refuses further changes. *)
Theorem tracker_commit_reflects t :
  twf t -> tr_unlocked t -> settled t -> unlocked (storage t) ->
  exists t', tr_commit t = (Ok tt, t') /\ inv (storage t') /\ unlocked (storage t') /\
    reflects t (storage t') /\
    (forall k ty v, tr_put_obj k ty v t' = (Err RuntimeError, t')) /\
    (forall tok amount, tr_add_balance tok amount t' = (Err RuntimeError, t')) /\
    tr_commit t' = (Err RuntimeError, t').
Proof using L.
  intros Hw Hu Hset Hus. destruct (commit_ok t Hw Hu Hset Hus) as (t' & E & Hi & Hu' & Hr & Hc).
  exists t'. do 4 (split; [done|]).
  unfold tr_put_obj, tr_add_balance, tr_commit, bind, tr_check_if_locked. by rewrite Hc.
Qed.
End theory.
