(* ===== verification/TrackerNesting.v ===== *)
(** A tracker obeys the storage laws it relies on, so a tracker can wrap another
    one (a contract that calls a contract that calls it back); with the balance
    check made before a commit, and concrete runs of the whole storage stack. *)

From stdpp Require Import base list gmap strings.
From Stdlib Require Import ZArith Lia Strings.Byte.
From S2P Require Import Prelude PyInt PyValue NCTypes NCTypeTheory PatriciaTrie NodeStore TrieHash TrieSpec.
From S2P Require Import NodeStoreTheory TrieClaims BlockStorage BlockStorageTheory ContractStorage.
From S2P Require Import StorageInterface ContractStorageTheory ChangesTracker ChangesTrackerTheory.

Local Open Scope Z_scope.
Local Open Scope py_scope.

Import MaybeDeletedNCType.

Section nesting.
Context {S : Type} `{!StorageOps S} {inv unlocked : S -> Prop} {okkey : bytes -> Prop}
  {fits : nc_type -> value -> Prop} {okval : Z -> Prop} {oktoken : TokenDescription -> Prop}
  {okbp : bytes -> Prop}.
Context {L : StorageLaws S inv unlocked okkey fits okval oktoken okbp}.

Abbreviation twf := (twf (inv := inv) (okkey := okkey) (fits := fits) (oktoken := oktoken) (okbp := okbp)).

(** both the tracker and what it wraps accept changes *)
Definition tr_open (t : tracker S) : Prop := tr_unlocked t /\ unlocked (storage t).

Lemma tr_open_check t : tr_open t -> tr_check_if_locked t = (Ok tt, t).
Proof. intros [H _]. by apply tr_unlocked_check. Qed.

(** ** The effect of one change on the tracker's views *)

Lemma set_data_objs (t : tracker S) k x :
  same_objs (fun k' => okkey k' /\ k' <> k) t (set_data t (od_set (data t) (tr_attr_key t k) x)).
Proof.
  intros k' [_ Hne]. simpl. unfold tr_has_obj, tr_get_obj, tr_attr_key. simpl.
  rewrite od_get_set_ne by congruence. done.
Qed.

Lemma set_data_wf (t : tracker S) k x :
  twf t -> data_ok (okkey := okkey) (fits := fits) (tr_nc_id t) (tr_attr_key t k, x) ->
  twf (set_data t (od_set (data t) (tr_attr_key t k) x)).
Proof.
  intros [] Hx. split; simpl; try done; [by apply od_set_nodup|by apply od_set_Forall].
Qed.

Lemma set_balance_wf (t : tracker S) tok x :
  twf t -> twf (set_balance_diff t (od_set (_balance_diff t) (BalanceKey (tr_nc_id t) tok) x)).
Proof.
  intros []. split; simpl; try done; [by apply od_set_nodup|]. apply od_set_Forall; [by eexists|done].
Qed.

Lemma set_authorities_wf (t : tracker S) tok x : tok <> HATHOR_TOKEN_UID ->
  twf t -> twf (set_authorities_diff t (od_set (_authorities_diff t) (BalanceKey (tr_nc_id t) tok) x)).
Proof.
  intros Hne []. split; simpl; try done; [by apply od_set_nodup|]. apply od_set_Forall; [by eexists|done].
Qed.

(** the pending changes of one token decide its balance *)
Lemma balance_congr (t t' : tracker S) tok : storage t' = storage t -> tr_nc_id t' = tr_nc_id t ->
  od_get (_balance_diff t') (BalanceKey (tr_nc_id t) tok) = od_get (_balance_diff t) (BalanceKey (tr_nc_id t) tok) ->
  od_get (_authorities_diff t') (BalanceKey (tr_nc_id t) tok) =
    od_get (_authorities_diff t) (BalanceKey (tr_nc_id t) tok) ->
  tr_get_mutable_balance t' tok = tr_get_mutable_balance t tok.
Proof. intros E1 E2 E3 E4. unfold tr_get_mutable_balance. by rewrite E1, E2, E3, E4. Qed.

Lemma set_authorities_law t tok mint melt new b :
  twf t -> tr_open t -> tok <> HATHOR_TOKEN_UID -> tr_get_mutable_balance t tok = Ok b ->
  exists t', set_authorities tok mint melt new t = (Ok tt, t') /\ twf t' /\ tr_open t' /\
    (new <> NONE -> tr_get_mutable_balance t' tok = Ok (
      mkBalance (bal_value b) (if mint then bool_decide (new = GRANTED) else can_mint b)
        (if melt then bool_decide (new = GRANTED) else can_melt b))) /\
    same_objs okkey t t' /\ same_balances (fun t => t <> tok) t t' /\
    same_tokens all_keys t t' /\ same_blueprint t t'.
Proof using.
  intros Hw Hu Hne Hb. eexists. split.
  { unfold set_authorities. rewrite bool_decide_eq_false_2 by done. rewrite (bind_ok _ _ t tt t) by done.
    by rewrite (bind_ok _ _ _ _ _ (tr_open_check t Hu)). }
  split; [by apply set_authorities_wf|]. split; [done|]. split; [|split; [done|split; [|done]]].
  - intros Hnew. revert Hb. unfold tr_get_mutable_balance. simpl. rewrite od_get_set_eq.
    destruct (so_get_mutable_balance _ _) as [b0|]; [|done]. simpl. intros [= <-]. f_equal.
    unfold apply_diff, balance_grant, balance_revoke, ChangesTracker.grant_mint, ChangesTracker.grant_melt,
      ChangesTracker.revoke_mint, ChangesTracker.revoke_melt. simpl.
    destruct b0 as [z m1 m2]. simpl.
    by destruct new, mint, melt, m1, m2; try done; simpl; rewrite ?andb_true_r, ?orb_true_r, ?andb_false_r.
  - intros tok' Hne'. by apply balance_congr; simpl; rewrite ?od_get_set_ne by congruence.
Qed.

(** a well-formed tracker that wraps a tracker *)
Abbreviation twf_ := (ChangesTrackerTheory.twf (inv := twf) (okkey := okkey) (fits := fits)
  (oktoken := oktoken) (okbp := okbp)).

#[export] Instance tracker_laws :
  StorageLaws (tracker S) twf tr_open okkey fits (fun _ => True) oktoken okbp.
Proof using L.
  split.
  - intros t v. apply fits_typed.
  - intros t k ty d v. simpl. unfold tr_get_obj. intros H.
    destruct (match od_get _ _ with Some (obj, _) => Ok obj | None => _ end) as [x|]; [|done].
    simpl in H. destruct (is_DeletedKey x) eqn:E; [|left; congruence]. destruct d; [right; congruence|done].
  - intros t k ty v Hw Hu Hk Hf. eexists. simpl. unfold tr_put_obj.
    rewrite (bind_ok _ _ _ _ _ (tr_open_check t Hu)). unfold check_value.
    rewrite (has_type_check ty v true) by (by eapply fits_typed). split; [done|].
    split; [apply set_data_wf; [done|by exists k]|]. split; [done|].
    assert (Hd : is_DeletedKey v = false) by (eapply has_type_not_deleted, fits_typed, Hf).
    unfold tr_has_obj, tr_get_obj. simpl. rewrite od_get_set_eq. simpl. rewrite Hd.
    split; [done|]. split; [done|]. split; [apply set_data_objs|done].
  - intros t k Hw Hu Hk. eexists. simpl. unfold tr_del_obj.
    rewrite (bind_ok _ _ _ _ _ (tr_open_check t Hu)). split; [done|].
    split; [apply set_data_wf; [done|by exists k]|]. split; [done|].
    unfold tr_has_obj, tr_get_obj. simpl. rewrite od_get_set_eq. simpl.
    split; [done|]. split; [done|]. split; [apply set_data_objs|done].
  - intros t tok amount b Hw Hu Hb _. eexists. simpl. unfold tr_add_balance.
    rewrite (bind_ok _ _ _ _ _ (tr_open_check t Hu)). split; [done|].
    split; [by apply set_balance_wf|]. split; [done|]. split; [|split; [done|split; [|done]]].
    + revert Hb. simpl. unfold tr_get_mutable_balance. simpl. rewrite od_get_set_eq.
      destruct (so_get_mutable_balance _ _) as [b0|]; [|done]. simpl. intros [= <-].
      unfold apply_diff, add_value. simpl. by rewrite Z.add_assoc.
    + intros tok' Hne'. by apply balance_congr; simpl; rewrite ?od_get_set_ne by congruence.
  - intros t tok mint melt b Hw Hu Hne Hb _.
    destruct (set_authorities_law t tok mint melt GRANTED b Hw Hu Hne Hb) as (t' & E & ? & ? & Hb' & ?).
    exists t'. split; [exact E|]. split; [done|]. split; [done|]. split; [|done].
    simpl. rewrite Hb' by done. unfold balance_grant.
    by destruct mint, melt, (can_mint b), (can_melt b).
  - intros t tok mint melt b Hw Hu Hne Hb _.
    destruct (set_authorities_law t tok mint melt REVOKED b Hw Hu Hne Hb) as (t' & E & ? & ? & Hb' & ?).
    exists t'. split; [exact E|]. split; [done|]. split; [done|]. split; [|done].
    simpl. rewrite Hb' by done. unfold balance_revoke.
    by destruct mint, melt, (can_mint b), (can_melt b).
  - intros t td Hw Hu Hok Hno. simpl in *. eexists. unfold tr_create_token, bind. rewrite Hno.
    split; [done|]. split; [|split; [done|]].
    + destruct Hw. split; simpl; try done; [by apply od_set_nodup|]. apply od_set_Forall; [|done].
      split; [done|]. split; [done|]. simpl. unfold tr_has_token in Hno.
      by destruct (od_get (_created_tokens t) (td_token_id td)).
    + unfold tr_has_token, tr_get_token. simpl. rewrite od_get_set_eq. split; [done|]. split; [done|].
      split; [done|]. split; [done|]. split; [|done]. intros i Hne. simpl. unfold tr_has_token, tr_get_token.
      simpl. by rewrite od_get_set_ne by congruence.
  - intros t bp Hw Hu Hok. eexists. simpl. unfold tr_set_blueprint_id.
    rewrite (bind_ok _ _ _ _ _ (tr_open_check t Hu)). split; [done|].
    split; [|done]. destruct Hw. split; simpl; try done. by intros b [= <-].
Qed.

(** ** What a commit into a tracker leaves pending there *)

(** a pending object of this key has the type it will be read with, or is deleted *)
Definition typed (t : tracker S) (k : bytes) (ty : nc_type) : Prop :=
  forall v ty', od_get (data t) (tr_attr_key t k) = Some (v, Some ty') -> ty' = ty.

Definition keeps_typed (k : bytes) (ty : nc_type) (m : M (tracker S) unit) : Prop :=
  forall u, typed u k ty -> typed (snd (m u)) k ty.

Lemma typed_bind k ty (m : M (tracker S) unit) f : keeps_typed k ty m -> (forall x, keeps_typed k ty (f x)) -> keeps_typed k ty (bind m f).
Proof. intros Hm Hf u Hu. specialize (Hm u Hu). unfold bind. destruct (m u) as [[x|e] u']; [by apply Hf|done]. Qed.

Lemma typed_for_each {A} k ty (l : list A) f : Forall (fun x => keeps_typed k ty (f x)) l -> keeps_typed k ty (for_each l f).
Proof. induction 1 as [|x l H _ IH]; [by intros u|]. apply typed_bind; [exact H|by intros _]. Qed.

(** a change that leaves the pending objects alone *)
Lemma typed_data k ty (m : M (tracker S) unit) :
  (forall u, data (snd (m u)) = data u /\ tr_nc_id (snd (m u)) = tr_nc_id u) -> keeps_typed k ty m.
Proof. intros H u Hu. destruct (H u) as [E1 E2]. unfold typed, tr_attr_key in *. by rewrite E1, E2. Qed.

Lemma typed_set_data k ty u k' v ot : typed u k ty -> (forall ty', k' = k -> ot = Some ty' -> ty' = ty) ->
  typed (set_data u (od_set (data u) (tr_attr_key u k') (v, ot))) k ty.
Proof.
  intros Hu Hk v' ty'. unfold tr_attr_key. simpl. destruct (decide (k' = k)) as [->|N].
  - rewrite od_get_set_eq. intros [= <- ->]. by apply Hk.
  - rewrite od_get_set_ne by congruence. apply Hu.
Qed.

Lemma typed_put k ty k' ty' v : (k' = k -> ty' = ty) -> keeps_typed k ty (tr_put_obj k' ty' v).
Proof.
  intros Hk u Hu. unfold tr_put_obj, bind, tr_check_if_locked, lift, raise, ret. repeat case_match; simplify_eq; simpl; try done.
  apply typed_set_data; [done|]. intros ty2 E [= <-]. by apply Hk.
Qed.

Lemma typed_del k ty k' : keeps_typed k ty (tr_del_obj k').
Proof.
  intros u Hu. unfold tr_del_obj, bind, tr_check_if_locked, raise, ret. repeat case_match; simplify_eq; simpl; try done.
  by apply typed_set_data.
Qed.

Lemma commit_keeps_typed (t : tracker (tracker S)) k ty : twf_ t ->
  (forall v ty', od_get (data t) (tr_attr_key t k) = Some (v, Some ty') -> ty' = ty) ->
  keeps_typed k ty (commit_storage t).
Proof using.
  intros Hw Ht. unfold commit_storage, commit_data, commit_balances, commit_authorities, commit_tokens.
  assert (Hlock : forall P : tracker S -> tracker S, (forall u, data (P u) = data u /\ tr_nc_id (P u) = tr_nc_id u) ->
    keeps_typed k ty (tr_check_if_locked ;;; fun u => (Ok tt, P u))).
  { intros P HP. apply typed_data. intros u. unfold bind, tr_check_if_locked, raise, ret. repeat case_match; simplify_eq; simpl; done || apply HP. }
  repeat (apply typed_bind; [|intros _]).
  - apply typed_for_each. pose proof (tw_data_keys _ Hw) as Hn. pose proof (tw_data _ Hw) as Hd. rewrite Forall_forall in Hd |- *.
    intros [ak [v ot]] Hin. destruct (Hd _ Hin) as (k' & Ek & _ & Hot). simpl in Ek, Hot. subst ak. cbn [attr_name].
    destruct (is_DeletedKey v); [apply typed_del|]. destruct ot as [ty'|]; [|by intros u]. apply typed_put. intros ->.
    apply (Ht v). by apply od_get_elem.
  - apply typed_for_each, Forall_forall. intros x _. apply Hlock. done.
  - apply typed_for_each, Forall_forall. intros x _. apply typed_bind; [|intros _];
      (apply typed_bind; [apply typed_data; intros u; unfold py_assert; by destruct (negb _)|intros _; by apply Hlock]).
  - apply typed_for_each, Forall_forall. intros x _. apply typed_data. intros u. simpl. unfold tr_create_token, bind, raise.
    repeat case_match; simplify_eq; done.
  - destruct (_blueprint_id t); [by apply Hlock|by intros u].
Qed.

(** C35: committing a tracker that wraps a tracker and then the wrapped one applies
    both layers of changes: when what both trackers hold is acceptable to the innermost
    storage (objects checked against their types that serialize, new tokens, valid blueprint
    ids), none of them is locked, and every balance the outer tracker shows is readable and in
    range, both commits succeed and the innermost storage shows what the outer tracker
    showed: which objects there are, their values, when read with the type they were last
    written with, balances with authorities, tokens and the blueprint. *)
Theorem nested_commit (t : tracker (tracker S)) :
  twf_ t -> tr_unlocked t -> tr_open (storage t) ->
  (forall tok, exists b, tr_get_mutable_balance t tok = Ok b /\ okval (bal_value b)) ->
  exists t' u', tr_commit t = (Ok tt, t') /\ tr_commit (storage t') = (Ok tt, u') /\
    inv (storage u') /\
    (forall k, okkey k -> so_has_obj (storage u') k = tr_has_obj t k) /\
    (forall k ty d, okkey k -> typed (storage t) k ty ->
      (forall v ty', od_get (data t) (tr_attr_key t k) = Some (v, Some ty') -> ty' = ty) ->
      so_get_obj (storage u') k ty d = tr_get_obj t k ty d) /\
    (forall tok, so_get_mutable_balance (storage u') tok = tr_get_mutable_balance t tok) /\
    (forall i, so_has_token (storage u') i = tr_has_token t i /\ so_get_token (storage u') i = tr_get_token t i) /\
    so_get_blueprint_id (storage u') = tr_get_blueprint_id t.
Proof using L.
  intros Hw Hu Hopen Hb.
  destruct (commit_storage_ok t Hw) as (s' & Es & Hi & Ho & Hr); [|done|].
  { intros tok _. destruct (Hb tok) as (b & ? & _). by exists b. }
  destruct Ho as [Ho1 Ho2].
  destruct (commit_ok s' Hi Ho1) as (u' & E' & Hi' & _ & Hr' & _); [|done|].
  { intros tok _. destruct (Hb tok) as (b & ? & ?). exists b. split; [|done].
    etransitivity; [apply (rf_balance _ _ Hr)|done]. }
  exists (set_flags (set_storage t s') true (has_been_blocked t)), u'.
  split; [unfold tr_commit; by rewrite (bind_ok _ _ _ _ _ (tr_unlocked_check t Hu)), Es|]. split; [done|]. split; [done|].
  split; [|split; [|split; [|split]]].
  - intros k Hk. etransitivity; [by apply Hr'|by apply Hr].
  - intros k ty d Hk Hty Ht. etransitivity; [|by apply Hr]. apply Hr'; [done|].
    change (typed s' k ty). pose proof (commit_keeps_typed t k ty Hw Ht (storage t) Hty) as H. by rewrite Es in H.
  - intros tok. etransitivity; [apply Hr'|apply Hr].
  - intros i. split; (etransitivity; [apply Hr'|apply Hr]).
  - etransitivity; [apply Hr'|apply Hr].
Qed.

(** [validate_balances_are_positive] passes only when every token with a pending
    change ends with a readable, non-negative balance; it raises only for a reason:
    [NCInsufficientFunds] for a changed token that ends below zero, or the error of
    reading a changed token's balance. *)
Theorem validate_balances_sound (t : tracker S) :
  Forall (fun item => exists tok, fst item = BalanceKey (tr_nc_id t) tok) (_balance_diff t) ->
  match validate_balances_are_positive t with
  | Ok _ => forall tok, BalanceKey (tr_nc_id t) tok ∈ map fst (_balance_diff t) ->
      exists b, tr_get_mutable_balance t tok = Ok b /\ 0 <= bal_value b
  | Err e => exists tok, BalanceKey (tr_nc_id t) tok ∈ map fst (_balance_diff t) /\
      (tr_get_mutable_balance t tok = Err e \/
       e = NCInsufficientFunds /\ exists b, tr_get_mutable_balance t tok = Ok b /\ bal_value b < 0)
  end.
Proof using.
  unfold validate_balances_are_positive. induction 1 as [|[k a] l [tok Hk] Hl IH]; simpl.
  { by intros tok ?%not_elem_of_nil. }
  simpl in Hk. subst k. simpl.
  destruct (tr_get_mutable_balance t tok) as [b|e] eqn:Hb; simpl;
    [|exists tok; split; [left|by left]].
  destruct (Z.ltb_spec (bal_value b) 0); simpl.
  { exists tok. split; [left|]. right. split; [done|]. by exists b. }
  destruct (rfor l _) as [[]|e].
  - intros tok' [[= ->]|Hin]%elem_of_cons; [by exists b|by apply IH].
  - destruct IH as (tok' & Hin & H'). exists tok'. split; [by right|done].
Qed.
End nesting.

(** * A storage to evaluate *)

Section demo.
Definition demo_contract : contract_storage (gmap bytes bytes) :=
  mkContract demo_block demo_trie (demo_bytes [9]) false.

Definition anykey (k : bytes) : Prop := True.

Lemma demo_okkey x y : anykey x -> anykey y -> demo_hash x = demo_hash y -> x = y.
Proof. intros _ _ E. apply (demo_hash_app x y [] []). by rewrite !app_nil_r. Qed.

Lemma demo_deleted : demo_content [Byte.x00].
Proof. apply (demo_content_ok [0]); reflexivity. Qed.

Lemma demo_cinv : cinv demo_hash demo_content rocksdb_valid demo_contract.
Proof. split; [exact demo_inv|exact demo_block_inv]. Qed.

#[local] Instance demo_ops : StorageOps (contract_storage (gmap bytes bytes)) :=
  contract_storage_ops demo_hash.

#[local] Instance demo_laws :
  StorageLaws (contract_storage (gmap bytes bytes)) (cinv demo_hash demo_content rocksdb_valid)
    cs_unlocked anykey (cs_fits demo_content) (cs_okval demo_content) (cs_oktoken demo_content)
    (cs_okbp demo_content) :=
  contract_storage_laws demo_hash demo_content rocksdb_valid anykey demo_okkey demo_deleted.

(** the balance values 0 to 47 *)
Lemma demo_okval z : 0 <= z < 48 -> cs_okval demo_content z.
Proof.
  intros Hz. assert (Hn : (Z.to_nat z < 48)%nat) by lia. rewrite <- (Z2Nat.id z) by lia.
  generalize dependent (Z.to_nat z). clear z Hz. intros n Hn. split; [lia|]. intros mint melt.
  assert (Hs : exists bs, _serialize (balance_value (mkBalance (Z.of_nat n) mint melt)) (Some _BALANCE_NC_TYPE) =
    Ok (demo_bytes bs) /\ bs = [1; Z.of_nat n; Z.b2z mint; Z.b2z melt] /\
    has_type _BALANCE_NC_TYPE (balance_value (mkBalance (Z.of_nat n) mint melt)) = true).
  { eexists. split; [|split; [reflexivity|]];
      do 48 (destruct n as [|n]; [by destruct mint, melt|]); exfalso; lia. }
  destruct Hs as (bs & E & Ebs & Ht). split; [done|]. exists (demo_bytes bs). split; [done|]. subst bs.
  apply demo_content_ok; [|done]. simpl. destruct mint, melt; simpl; lia.
Qed.

Definition demo_tok : bytes := demo_bytes [3; 3].
Definition demo_nc : bytes := demo_bytes [9].
Definition demo_name : bytes := demo_bytes [110].

(** a call that sets an attribute, receives 7 of a token and the right to mint
    it, and creates a token *)
Definition demo_call {S : Type} `{!StorageOps S} : M (tracker S) unit :=
  tr_put_obj demo_name VarInt32NCType (VInt 5) ;;;
  tr_add_balance demo_tok 9 ;;;
  tr_grant_authorities demo_tok true false ;;;
  tr_add_balance demo_tok (-2) ;;;
  tr_create_token demo_token.

Definition demo_tracker : tracker (contract_storage (gmap bytes bytes)) :=
  snd (demo_call (tracker_init demo_nc demo_contract)).

Lemma demo_tracker_eq : demo_tracker =
  mkTracker demo_contract demo_nc [(AttrKey demo_nc demo_name, (VInt 5, Some VarInt32NCType))]
    [(BalanceKey demo_nc demo_tok, 7)] [(BalanceKey demo_nc demo_tok, mkDiff GRANTED NONE)]
    [(td_token_id demo_token, demo_token)] None false false.
Proof. vm_compute. reflexivity. Qed.

Lemma demo_fits : cs_fits demo_content VarInt32NCType (VInt 5).
Proof.
  split; [by vm_compute|]. exists (demo_bytes [1; 5]).
  split; [vm_compute; reflexivity|]. by apply demo_content_ok.
Qed.

Lemma demo_token_ok : cs_oktoken demo_content demo_token.
Proof.
  exists (demo_bytes [2; 1; 2; 2; 84; 75; 1; 84; 1]).
  split; [vm_compute; reflexivity|]. by apply demo_content_ok.
Qed.

Lemma demo_tracker_wf :
  twf (inv := cinv demo_hash demo_content rocksdb_valid) (okkey := anykey) (fits := cs_fits demo_content)
    (oktoken := cs_oktoken demo_content) (okbp := cs_okbp demo_content) demo_tracker.
Proof.
  rewrite demo_tracker_eq. constructor.
  - exact demo_cinv.
  - apply NoDup_singleton.
  - apply Forall_singleton. exists demo_name. split; [done|]. split; [done|]. exact demo_fits.
  - apply NoDup_singleton.
  - apply Forall_singleton. by exists demo_tok.
  - apply NoDup_singleton.
  - apply Forall_singleton. exists demo_tok. split; [reflexivity|]. by vm_compute.
  - apply NoDup_singleton.
  - apply Forall_singleton. split; [done|]. split; [exact demo_token_ok|]. by vm_compute.
  - done.
Qed.

Lemma demo_balance : tr_get_mutable_balance demo_tracker demo_tok = Ok (mkBalance 7 true false).
Proof. vm_compute. reflexivity. Qed.

Lemma demo_has : tr_has_obj demo_tracker demo_name = Ok true.
Proof. vm_compute. reflexivity. Qed.

Lemma demo_settled : settled (okval := cs_okval demo_content) demo_tracker.
Proof.
  intros tok Htok. assert (tok = demo_tok) as ->.
  { rewrite demo_tracker_eq in Htok. simpl in Htok.
    destruct Htok as [H|H]; apply list_elem_of_singleton in H; by injection H. }
  exists (mkBalance 7 true false). split; [exact demo_balance|]. by apply demo_okval.
Qed.

Lemma tracker_commit_reflects_witness :
  exists t', tr_commit demo_tracker = (Ok tt, t') /\
    cs_get_mutable_balance demo_hash (storage t') demo_tok = Ok (mkBalance 7 true false) /\
    cs_has_obj demo_hash (storage t') demo_name = Ok true /\
    tr_commit t' = (Err RuntimeError, t').
Proof.
  destruct (tracker_commit_reflects demo_tracker demo_tracker_wf) as (t' & E & _ & _ & Hr & _ & _ & Hc).
  - split; reflexivity.
  - exact demo_settled.
  - reflexivity.
  - exists t'. split; [exact E|]. pose proof (rf_balance _ _ Hr demo_tok) as Hb.
    rewrite demo_balance in Hb. split; [exact Hb|]. split; [|exact Hc].
    pose proof (rf_has_obj _ _ Hr demo_name I) as Ho. rewrite demo_has in Ho. exact Ho.
Defined.

Lemma locked_storage_unchanged_witness :
  cs_commit (mkContract demo_block demo_trie demo_nc true) =
  (Err RuntimeError, mkContract demo_block demo_trie demo_nc true).
Proof.
  apply (locked_storage_unchanged demo_hash (mkContract demo_block demo_trie demo_nc true)
    [] BoolNCType (VBool true) demo_tok 0 true true []); [reflexivity|by vm_compute].
Defined.

Lemma add_balance_spec_witness :
  cs_add_balance demo_hash demo_tok (-1) demo_contract = (Err AssertionError, demo_contract) /\
  exists c', cs_add_balance demo_hash demo_tok 7 demo_contract = (Ok tt, c') /\
    cs_get_mutable_balance demo_hash c' demo_tok = Ok (mkBalance 7 false false).
Proof.
  assert (Hb : cs_get_mutable_balance demo_hash demo_contract demo_tok = Ok balance_default)
    by (vm_compute; reflexivity).
  split.
  - exact (add_balance_spec demo_hash demo_content rocksdb_valid anykey demo_contract demo_tok (-1)
      balance_default demo_cinv eq_refl Hb).
  - destruct (add_balance_spec demo_hash demo_content rocksdb_valid anykey demo_contract demo_tok 7
      balance_default demo_cinv eq_refl Hb) as (c' & E & _ & H & _); [by apply demo_okval|].
    exists c'. split; [exact E|exact H].
Defined.

Lemma validate_balances_sound_witness :
  exists b, tr_get_mutable_balance demo_tracker demo_tok = Ok b /\ 0 <= bal_value b.
Proof.
  pose proof (validate_balances_sound demo_tracker
    (tw_balance _ demo_tracker_wf)) as H.
  replace (validate_balances_are_positive demo_tracker) with (Ok tt) in H by (vm_compute; reflexivity).
  apply H. rewrite demo_tracker_eq. left.
Defined.

(** the same call, made through a tracker over a tracker *)
Definition demo_nested : tracker (tracker (contract_storage (gmap bytes bytes))) :=
  snd ((tr_add_balance demo_tok 4 ;;; tr_revoke_authorities demo_tok true false)
    (tracker_init demo_nc demo_tracker)).

Lemma demo_nested_eq : demo_nested =
  mkTracker demo_tracker demo_nc [] [(BalanceKey demo_nc demo_tok, 4)]
    [(BalanceKey demo_nc demo_tok, mkDiff REVOKED NONE)] [] None false false.
Proof. reflexivity. Qed.

Lemma demo_no_balance tok : cs_get_mutable_balance demo_hash demo_contract tok = Ok balance_default.
Proof.
  assert (E : get demo_db demo_trie (trie_key_bytes demo_hash (BalanceKey demo_nc tok)) None = Err KeyError).
  { destruct demo_empty as [Hv Hg].
    destruct (init_empty_spec demo_hash (over demo_hash demo_content) rocksdb_valid rocksdb_storable ∅ Hv (Hg _))
      as (tr & db' & E & Hi & _ & Hno); [vm_compute; reflexivity|apply over_empty|].
    unfold demo_db, demo_trie, demo_init. rewrite E. cbn [fst snd].
    pose proof (get_spec demo_hash (over demo_hash demo_content) rocksdb_valid db' tr
      (trie_key_bytes demo_hash (BalanceKey demo_nc tok)) Hi ltac:(done)) as H.
    destruct (get db' tr _ None) as [c|e]; [by destruct (Hno _ _ H)|by destruct H as [-> _]]. }
  unfold cs_get_mutable_balance, _trie_get_obj, cs_trie_get.
  change (b_db (cs_block demo_contract)) with demo_db. change (_trie demo_contract) with demo_trie.
  change (cs_nc_id demo_contract) with demo_nc. rewrite E. reflexivity.
Qed.

Lemma demo_nested_balance tok : exists b, tr_get_mutable_balance demo_nested tok = Ok b /\
  cs_okval demo_content (bal_value b).
Proof.
  set (k := BalanceKey demo_nc tok).
  assert (E1 : so_get_mutable_balance demo_tracker tok = Ok (apply_diff balance_default
    (default 0 (od_get [(BalanceKey demo_nc demo_tok, 7)] k))
    (default default_diff (od_get [(BalanceKey demo_nc demo_tok, mkDiff GRANTED NONE)] k)))).
  { rewrite demo_tracker_eq. simpl so_get_mutable_balance. unfold tr_get_mutable_balance. cbn [storage].
    change (so_get_mutable_balance demo_contract tok) with (cs_get_mutable_balance demo_hash demo_contract tok).
    rewrite demo_no_balance. reflexivity. }
  rewrite demo_nested_eq. unfold tr_get_mutable_balance. cbn [storage]. rewrite E1. eexists.
  split; [reflexivity|]. cbn [rbind tr_nc_id _balance_diff _authorities_diff od_get]. fold k.
  destruct (decide (BalanceKey demo_nc demo_tok = k)) as [E|E].
  - rewrite !(bool_decide_eq_true_2 _ E). exact (demo_okval 11 ltac:(lia)).
  - rewrite !(bool_decide_eq_false_2 _ E). exact (demo_okval 0 ltac:(lia)).
Qed.

Lemma demo_nested_shown :
  tr_get_mutable_balance demo_nested demo_tok = Ok (mkBalance 11 false false).
Proof. vm_compute. reflexivity. Qed.

Lemma demo_nested_obj : tr_get_obj demo_nested demo_name VarInt32NCType None = Ok (VInt 5).
Proof. vm_compute. reflexivity. Qed.

Lemma demo_nested_wf :
  twf (inv := twf (inv := cinv demo_hash demo_content rocksdb_valid) (okkey := anykey)
      (fits := cs_fits demo_content) (oktoken := cs_oktoken demo_content) (okbp := cs_okbp demo_content))
    (okkey := anykey) (fits := cs_fits demo_content)
    (oktoken := cs_oktoken demo_content) (okbp := cs_okbp demo_content) demo_nested.
Proof.
  rewrite demo_nested_eq. constructor.
  - exact demo_tracker_wf.
  - apply NoDup_nil_2.
  - constructor.
  - apply NoDup_singleton.
  - apply Forall_singleton. by exists demo_tok.
  - apply NoDup_singleton.
  - apply Forall_singleton. exists demo_tok. split; [reflexivity|]. by vm_compute.
  - apply NoDup_nil_2.
  - constructor.
  - done.
Qed.

Lemma nested_commit_witness :
  exists t' u', tr_commit demo_nested = (Ok tt, t') /\ tr_commit (storage t') = (Ok tt, u') /\
    cs_get_mutable_balance demo_hash (storage u') demo_tok = Ok (mkBalance 11 false false) /\
    cs_get_obj demo_hash (storage u') demo_name VarInt32NCType None = Ok (VInt 5).
Proof.
  destruct (nested_commit demo_nested demo_nested_wf) as (t' & u' & E & E' & _ & _ & Ho & Hb & _).
  - split; reflexivity.
  - split; [split; reflexivity|reflexivity].
  - exact demo_nested_balance.
  - exists t', u'. split; [exact E|]. split; [exact E'|].
    specialize (Hb demo_tok). rewrite demo_nested_shown in Hb. split; [exact Hb|].
    specialize (Ho demo_name VarInt32NCType None I). rewrite demo_nested_obj in Ho. apply Ho.
    + intros v ty' H. rewrite demo_nested_eq, demo_tracker_eq in H. vm_compute in H. by injection H as _ <-.
    + intros v ty' H. rewrite demo_nested_eq in H. discriminate H.
Defined.
End demo.
