(* ===== verification/Fields.v ===== *)
(** The fields of a blueprint, [hathor/nanocontracts/fields]: an attribute is a value or
    a container (deque, dictionary, set) that is spread over the keys of the contract's
    storage.

    A blueprint instance keeps a cache of the attributes it used.  Containers are handles:
    the key under which they are stored and their type. *)

From stdpp Require Import base list gmap strings.
From Stdlib Require Import ZArith Lia.
From S2P Require Import Prelude PyInt PyValue NCTypes BlockStorage ContractStorage StorageInterface.

Local Open Scope Z_scope.
Local Open Scope py_scope.

(** ["__init__"], ["__length__"], ["__metadata__"], [":"] *)
Definition KEY_SEPARATOR : bytes := zb [58].
Definition INIT_KEY : bytes := zb [95; 95; 105; 110; 105; 116; 95; 95].
Definition _LENGTH_KEY : bytes := zb [95; 95; 108; 101; 110; 103; 116; 104; 95; 95].
Definition _METADATA_KEY : bytes := zb [95; 95; 109; 101; 116; 97; 100; 97; 116; 97; 95; 95].

Definition join_key (prefix key : bytes) : bytes := prefix ++ KEY_SEPARATOR ++ key.

(** the type of an attribute *)
Inductive field_type : Type :=
| FLeaf (t : nc_type)
| FDeque (item : field_type)
| FDict (key : nc_type) (value : field_type)
| FSet (item : nc_type).

(** what reading an attribute gives *)
Inductive item : Type :=
| Val (v : value)
| Box (prefix : bytes) (type : field_type).

Section fields.
Context {S : Type} `{!StorageOps S}.

(** a blueprint instance: its storage, and its cache unless it is disabled *)
Record instance_ : Type := mkInstance { i_storage : S; i_cache : option (list (bytes * item)) }.

Abbreviation FM := (M instance_).

Definition on_storage {A} (m : M S A) : FM A := fun st =>
  let '(r, s) := m (i_storage st) in (r, mkInstance s (i_cache st)).

Definition read_storage {A} (f : S -> result A) : FM A := fun st => (f (i_storage st), st).

Definition put_obj (key : bytes) (t : nc_type) (v : value) : FM unit := on_storage (so_put_obj key t v).
Definition del_obj (key : bytes) : FM unit := on_storage (so_del_obj key).
Definition get_obj (key : bytes) (t : nc_type) (d : option value) : FM value := read_storage (fun s => so_get_obj s key t d).
Definition has_obj (key : bytes) : FM bool := read_storage (fun s => so_has_obj s key).

(** ** The cache *)

Definition cache_get (prefix : bytes) : FM (option item) := fun st =>
  (Ok (match i_cache st with None => None | Some d => od_get d prefix end), st).

Definition cache_set (prefix : bytes) (x : item) : FM unit := fun st =>
  (Ok tt, mkInstance (i_storage st) (match i_cache st with None => None | Some d => Some (od_set d prefix x) end)).

(** [if prefix in cache: del cache[prefix]] *)
Definition cache_del (prefix : bytes) : FM unit := fun st =>
  (Ok tt, mkInstance (i_storage st) (match i_cache st with
    | None => None
    | Some d => match od_del d prefix with Ok d' => Some d' | Err _ => Some d end
    end)).

(** ** [ContainerNode] *)

Record ContainerNode : Type := mkNode {
  is_leaf : bool;
  has_value : bytes -> FM bool;
  get_value : bytes -> FM item;
  set_value : bytes -> value -> FM unit;
  del_value : bytes -> FM unit
}.

Definition ContainerLeaf (t : nc_type) : ContainerNode := mkNode true
  (fun prefix =>
    let! c := cache_get prefix in
    match c with Some _ => ret true | None => has_obj prefix end)
  (fun prefix =>
    let! c := cache_get prefix in
    match c with
    | Some x => ret x
    | None => let! obj := get_obj prefix t None in cache_set prefix (Val obj) ;;; ret (Val obj)
    end)
  (fun prefix v => put_obj prefix t v ;;; cache_set prefix (Val v))
  (fun prefix => del_obj prefix ;;; cache_del prefix).

(** the truth value of what [get_obj(is_init_key, INIT_NC_TYPE, default=False)] returns *)
Definition is_init (prefix : bytes) : FM bool :=
  let! v := get_obj (join_key prefix INIT_KEY) BoolNCType (Some (VBool false)) in
  ret (match v with VBool b => b | _ => true end).

(** [init] is [__init_storage__] and [length] is [len] of the container of this type;
    [_build_container] asserts that keys are hashable *)
Definition ContainerProxy (type : field_type) (hashable : bool) (init : bytes -> value -> FM unit) (length : bytes -> FM Z) :
    ContainerNode := mkNode false
  (fun prefix =>
    let! c := cache_get prefix in
    match c with Some _ => ret true | None => is_init prefix end)
  (fun prefix =>
    let! c := cache_get prefix in
    match c with
    | Some x => ret x
    | None =>
        py_assert hashable ;;;
        let! b := is_init prefix in
        if (b : bool) then cache_set prefix (Box prefix type) ;;; ret (Box prefix type) else raise ValueError
    end)
  (fun prefix v =>
    py_assert hashable ;;;
    let! b := is_init prefix in
    if (b : bool) then raise ValueError else
    init prefix v ;;;
    put_obj (join_key prefix INIT_KEY) BoolNCType (VBool true) ;;;
    cache_set prefix (Box prefix type))
  (fun prefix =>
    py_assert hashable ;;;
    let! n := length prefix in
    if negb (n =? 0) then raise ValueError else
    del_obj (join_key prefix INIT_KEY) ;;; cache_del prefix).

(** ** [DequeContainer] *)

Record _DequeMetadata : Type := mkDequeMeta { first_index : Z; dq_length : Z; reversed : bool }.

Definition last_index (m : _DequeMetadata) : Z := first_index m + dq_length m - 1.

Definition DequeMetadata_class : dataclass_ := Dataclass "_DequeMetadata" true.

Definition _METADATA_NC_TYPE : nc_type := DataclassNCType DequeMetadata_class
  [("first_index"%string, VarInt32NCType); ("length"%string, VarInt32NCType); ("reversed"%string, BoolNCType)].

Definition deque_meta_value (m : _DequeMetadata) : value :=
  VDataclass DequeMetadata_class
    [("first_index"%string, VInt (first_index m)); ("length"%string, VInt (dq_length m)); ("reversed"%string, VBool (reversed m))].

(** the instance a dataclass value stands for *)
Definition deque_meta_of (v : value) : result _DequeMetadata :=
  match v with
  | VDataclass _ [(_, VInt f); (_, VInt n); (_, VBool r)] => Ok (mkDequeMeta f n r)
  | _ => Err AttributeError
  end.

(** [collections.abc.Sequence], with what iteration yields *)
Definition as_sequence (v : value) : option (list value) :=
  match v with
  | VStr _ | VBytes _ _ | VTuple _ | VNamedTuple _ _ | VList _ | VDeque _ => as_collection v
  | _ => None
  end.

Section deque.
Context (value_node : ContainerNode) (prefix : bytes).

Definition metadata_key : bytes := join_key prefix _METADATA_KEY.

Definition deque_to_db_key (index : Z) : result bytes :=
  let? key := to_bytes VarInt32NCType (VInt index) in Ok (join_key prefix key).

Definition __get_metadata : FM _DequeMetadata :=
  let! v := get_obj metadata_key _METADATA_NC_TYPE None in lift (deque_meta_of v).

Definition __update_metadata (m : _DequeMetadata) : FM unit := put_obj metadata_key _METADATA_NC_TYPE (deque_meta_value m).

(** the loops of [__extend] and [__extendleft]: the last index they used *)
Fixpoint put_items (step index : Z) (items : list value) : FM Z :=
  match items with
  | [] => ret index
  | x :: items =>
      let! db_key := lift (deque_to_db_key (index + step)) in
      set_value value_node db_key x ;;;
      put_items step (index + step) items
  end.

Definition __extend (items : list value) (m : _DequeMetadata) : FM unit :=
  let! new_last_index := put_items 1 (last_index m) items in
  __update_metadata (mkDequeMeta (first_index m) (new_last_index - first_index m + 1) (reversed m)).

Definition __extendleft (items : list value) (m : _DequeMetadata) : FM unit :=
  let! new_first_index := put_items (-1) (first_index m) items in
  __update_metadata (mkDequeMeta new_first_index (last_index m - new_first_index + 1) (reversed m)).

Definition __pop (m : _DequeMetadata) (left : bool) : FM item :=
  if dq_length m =? 0 then raise IndexError else
  let! db_key := lift (deque_to_db_key (if left then first_index m else last_index m)) in
  let! x := get_value value_node db_key in
  del_value value_node db_key ;;;
  __update_metadata (mkDequeMeta (if left then first_index m + 1 else first_index m) (dq_length m - 1) (reversed m)) ;;;
  ret x.

Definition __to_internal_index (index : Z) : FM Z :=
  let! m := __get_metadata in
  let idx := if index <? 0 then index + dq_length m else index in
  if (idx <? 0) || (dq_length m <=? idx) then raise IndexError
  else ret (if reversed m then last_index m - idx else first_index m + idx).

Definition deque_getitem (index : Z) : FM item :=
  let! i := __to_internal_index index in
  let! db_key := lift (deque_to_db_key i) in
  try_raise (get_value value_node db_key) KeyError KeyError.

Definition deque_len : FM Z := let! m := __get_metadata in ret (dq_length m).

Definition deque_setitem (index : Z) (v : value) : FM unit :=
  let! i := __to_internal_index index in
  let! db_key := lift (deque_to_db_key i) in
  set_value value_node db_key v.

Definition deque_extend (items : list value) : FM unit :=
  let! m := __get_metadata in if reversed m then __extendleft items m else __extend items m.

Definition deque_append (v : value) : FM unit := deque_extend [v].

Definition deque_pop : FM item := let! m := __get_metadata in __pop m (reversed m).

Definition deque_reverse : FM unit :=
  let! m := __get_metadata in __update_metadata (mkDequeMeta (first_index m) (dq_length m) (negb (reversed m))).

Definition deque_extendleft (items : list value) : FM unit :=
  let! m := __get_metadata in if reversed m then __extend items m else __extendleft items m.

Definition deque_appendleft (v : value) : FM unit := deque_extendleft [v].

Definition deque_popleft : FM item := let! m := __get_metadata in __pop m (negb (reversed m)).

(** the items at [n] indexes from [index] on *)
Fixpoint read_items (step index : Z) (n : nat) : FM (list item) :=
  match n with
  | O => ret []
  | Datatypes.S n =>
      let! db_key := lift (deque_to_db_key index) in
      let! x := get_value value_node db_key in
      let! rest := read_items step (index + step) n in ret (x :: rest)
  end.

(** the items a complete iteration yields *)
Definition deque_iter : FM (list item) :=
  let! m := __get_metadata in
  if reversed m then read_items (-1) (last_index m) (Z.to_nat (dq_length m))
  else read_items 1 (first_index m) (Z.to_nat (dq_length m)).

Definition deque_init_storage (initial : value) : FM unit :=
  __update_metadata (mkDequeMeta 0 0 false) ;;;
  match initial with
  | VNone => ret tt
  | _ => match as_sequence initial with None => raise TypeError | Some l => deque_extend l end
  end.
End deque.

(** ** Lengths of dictionaries and sets *)

Section length.
Context (prefix : bytes).

Definition length_key : bytes := join_key prefix _LENGTH_KEY.

Definition __get_length : FM Z :=
  let! v := get_obj length_key VarUint32NCType None in
  match as_int v with Some n => ret n | None => raise TypeError end.

Definition __increase_length : FM unit :=
  let! n := __get_length in put_obj length_key VarUint32NCType (VInt (n + 1)).

Definition __decrease_length : FM unit :=
  let! n := __get_length in
  py_assert (0 <? n) ;;; put_obj length_key VarUint32NCType (VInt (n - 1)).
End length.

(** ** [DictContainer] *)

Section dict.
Context (key_type : nc_type) (value_node : ContainerNode) (prefix : bytes).

Definition to_db_key (key : value) : result bytes :=
  let? k := to_bytes key_type key in Ok (join_key prefix k).

Definition dict_contains (key : value) : FM bool :=
  let! db_key := lift (to_db_key key) in has_value value_node db_key.

Definition dict_getitem (key : value) : FM item :=
  let! db_key := lift (to_db_key key) in
  try_raise (try_raise (get_value value_node db_key) KeyError KeyError) ValueError KeyError.

Definition dict_setitem (key v : value) : FM unit :=
  let! db_key := lift (to_db_key key) in
  let! present := dict_contains key in
  (if (present : bool) then ret tt else __increase_length prefix) ;;;
  set_value value_node db_key v.

Definition dict_delitem (key : value) : FM unit :=
  let! db_key := lift (to_db_key key) in
  let! present := dict_contains key in
  if negb present then ret tt else
  try_raise (del_value value_node db_key) KeyError KeyError ;;;
  __decrease_length prefix.

Definition dict_update (items : list (value * value)) : FM unit :=
  for_each items (fun kv => dict_setitem (fst kv) (snd kv)).

Definition dict_get (key default : value) : FM item :=
  let! present := dict_contains key in
  if (present : bool) then dict_getitem key
  else if is_leaf value_node then ret (Val default) else
  let! db_key := lift (to_db_key key) in
  __increase_length prefix ;;;
  set_value value_node db_key default ;;;
  get_value value_node db_key.

Definition dict_init_storage (initial : value) : FM unit :=
  put_obj (length_key prefix) VarUint32NCType (VInt 0) ;;;
  match initial with
  | VNone => ret tt
  | VDict l => dict_update l
  | _ => raise TypeError
  end.
End dict.

(** ** [SetContainer]: its members are stored without a cache *)

Section set.
Context (item_type : nc_type) (prefix : bytes).

Definition set_contains (elem : value) : FM bool :=
  let! key := lift (to_db_key item_type prefix elem) in has_obj key.

Definition set_add (elem : value) : FM unit :=
  let! key := lift (to_db_key item_type prefix elem) in
  let! present := has_obj key in
  if (present : bool) then ret tt else
  put_obj key item_type elem ;;; __increase_length prefix.

Definition set_discard (elem : value) : FM unit :=
  let! key := lift (to_db_key item_type prefix elem) in
  let! present := has_obj key in
  if negb present then ret tt else
  del_obj key ;;; __decrease_length prefix.

Definition set_remove (elem : value) : FM unit :=
  let! key := lift (to_db_key item_type prefix elem) in
  let! present := has_obj key in
  if negb present then raise KeyError else
  del_obj key ;;; __decrease_length prefix.

Definition set_update (others : list (list value)) : FM unit :=
  for_each others (fun other => for_each other set_add).

Definition set_difference_update (others : list (list value)) : FM unit :=
  for_each others (fun other => for_each other set_discard).

Fixpoint set_issuperset (other : list value) : FM bool :=
  match other with
  | [] => ret true
  | x :: other => let! b := set_contains x in if (b : bool) then set_issuperset other else ret false
  end.

(** the elements of [other] that are members, before duplicates are dropped *)
Fixpoint set_intersection (other : list value) : FM (list value) :=
  match other with
  | [] => ret []
  | x :: other =>
      let! b := set_contains x in
      let! rest := set_intersection other in ret (if (b : bool) then x :: rest else rest)
  end.

Definition set_isdisjoint (other : list value) : FM bool :=
  let! l := set_intersection other in ret (match l with [] => true | _ => false end).

Definition set_init_storage (initial : value) : FM unit :=
  put_obj (length_key prefix) VarUint32NCType (VInt 0) ;;;
  match initial with
  | VNone => ret tt
  | VSet l => set_update [l]
  | _ => raise TypeError
  end.
End set.

(** ** [ContainerNode.from_type] and [Field] *)

Fixpoint node_from_type (type : field_type) : ContainerNode :=
  match type with
  | FLeaf t => ContainerLeaf t
  | FDeque item => ContainerProxy type true (fun p => deque_init_storage (node_from_type item) p) deque_len
  | FDict key value =>
      ContainerProxy type (is_hashable key) (fun p => dict_init_storage key (node_from_type value) p) __get_length
  | FSet item => ContainerProxy type (is_hashable item) (fun p => set_init_storage item p) __get_length
  end.

Definition field_is_initialized (type : field_type) (prefix : bytes) : FM bool := has_value (node_from_type type) prefix.
Definition field_set (type : field_type) (prefix : bytes) (v : value) : FM unit := set_value (node_from_type type) prefix v.
Definition field_get (type : field_type) (prefix : bytes) : FM item :=
  try_raise (get_value (node_from_type type) prefix) KeyError AttributeError.
Definition field_delete (type : field_type) (prefix : bytes) : FM unit :=
  try_raise (del_value (node_from_type type) prefix) KeyError AttributeError.
End fields.
Arguments instance_ S : clear implicits.
Arguments ContainerNode S : clear implicits.
