(* ===== verification/DequeTheory.v ===== *)
(** Values under keys of a storage, with the cache of attributes in front of it, and deques:
    a deque of values refines a Python list, over any storage that keeps the storage's laws. *)

From stdpp Require Import base list gmap strings.
From Stdlib Require Import ZArith Lia.
From S2P Require Import Prelude PyInt PyValue NCTypes NCTypeTheory BlockStorage ContractStorage StorageInterface.
From S2P Require Import NCTypeSafety Fields.

Local Open Scope Z_scope.
Local Open Scope py_scope.

(** * Keys *)

Lemma join_key_inj p k k' : join_key p k = join_key p k' -> k = k'.
Proof. unfold join_key. intros H. by do 2 apply app_inv_head in H. Qed.

(** values of one type are distinguished by their bytes *)
Lemma to_bytes_inj t v w bs : has_type t v = true -> has_type t w = true ->
  to_bytes t v = Ok bs -> to_bytes t w = Ok bs -> v = w.
Proof.
  intros Hv Hw Ev Ew. pose proof (to_from_bytes _ _ _ Ev Hv) as Fv. rewrite (to_from_bytes _ _ _ Ew Hw) in Fv. by inversion Fv.
Qed.

Section laws.
Context {S : Type} `{!StorageOps S} {inv unlocked : S -> Prop} {okkey : bytes -> Prop} {fits : nc_type -> value -> Prop}.
Context {okval : Z -> Prop} {oktoken : TokenDescription -> Prop} {okbp : bytes -> Prop}.
Context {SL : StorageLaws S inv unlocked okkey fits okval oktoken okbp}.

Abbreviation FM := (M (instance_ S)).

(** * Values under keys, with the cache *)

Definition cached (st : instance_ S) (k : bytes) : option item :=
  match i_cache st with None => None | Some d => od_get d k end.

Definition cache_wf (st : instance_ S) : Prop := match i_cache st with None => True | Some d => NoDup (map fst d) end.

(** the storage can be changed *)
Definition ready (st : instance_ S) : Prop := inv (i_storage st) /\ unlocked (i_storage st) /\ cache_wf st.

Definition stored (st : instance_ S) (k : bytes) (t : nc_type) (v : value) : Prop :=
  so_get_obj (i_storage st) k t None = Ok v.

(** nothing but the given key changed *)
Definition only (k : bytes) (st st' : instance_ S) : Prop :=
  same_objs (fun k' => okkey k' /\ k' <> k) (i_storage st) (i_storage st') /\
  forall k', k' <> k -> cached st' k' = cached st k'.

Lemma only_stored k k' t v st st' : only k st st' -> okkey k' -> k' <> k -> stored st k' t v -> stored st' k' t v.
Proof. intros [H _] Hk N E. unfold stored. by rewrite (proj2 (H k' (conj Hk N))). Qed.

Lemma put_obj_ok k t v st : ready st -> okkey k -> fits t v ->
  exists st', put_obj k t v st = (Ok tt, st') /\ ready st' /\ stored st' k t v /\ only k st st' /\ i_cache st' = i_cache st.
Proof.
  intros (Hi & Hu & Hw) Hk Hf. destruct (law_put (S := S) _ k t v Hi Hu Hk Hf) as (s' & E & Hi' & Hu' & _ & Hg & Hs & _).
  eexists. unfold put_obj, on_storage. rewrite E. split; [done|]. split_and!; try done. apply Hg.
Qed.

Lemma cache_set_ok st k x : exists st', cache_set k x st = (Ok tt, st') /\ i_storage st' = i_storage st /\
  (cache_wf st -> cache_wf st') /\ (forall k', k' <> k -> cached st' k' = cached st k') /\
  (cached st' k = None \/ cached st' k = Some x).
Proof.
  eexists. split; [done|]. split; [done|]. unfold cache_wf, cached. simpl. destruct (i_cache st) as [d|].
  - split_and!; [apply od_set_nodup|intros k' N; by rewrite od_get_set_ne|right; by rewrite od_get_set_eq].
  - split_and!; [done|done|by left].
Qed.

(** the cache agrees with the storage at this key *)
Definition coherent (st : instance_ S) (k : bytes) (v : value) : Prop := cached st k = None \/ cached st k = Some (Val v).

Lemma leaf_set_ok k t v st : ready st -> okkey k -> fits t v ->
  exists st', set_value (ContainerLeaf t) k v st = (Ok tt, st') /\ ready st' /\ stored st' k t v /\ only k st st' /\
    coherent st' k v.
Proof.
  intros Hr Hk Hf. destruct (put_obj_ok k t v st Hr Hk Hf) as (s1 & E & (Hi & Hu & Hw) & Hs & [Ho1 Ho2] & Ec).
  destruct (cache_set_ok s1 k (Val v)) as (s2 & E2 & Es & Hw2 & Hc & Hk2). exists s2. simpl. rewrite (bind_ok _ _ _ _ _ E).
  split; [done|]. unfold ready, stored, only. rewrite Es. split_and!; auto. intros k' N. by rewrite Hc, Ho2.
Qed.

Lemma leaf_get_ok k t v st : ready st -> stored st k t v -> coherent st k v ->
  exists st', get_value (ContainerLeaf t) k st = (Ok (Val v), st') /\ ready st' /\ i_storage st' = i_storage st /\
    (forall k', k' <> k -> cached st' k' = cached st k') /\ coherent st' k v.
Proof.
  intros (Hi & Hu & Hw) Hs Hc. simpl. unfold bind at 1, cache_get. fold (cached st k). destruct Hc as [Hc|Hc]; rewrite Hc.
  - destruct (cache_set_ok st k (Val v)) as (s2 & E2 & Es & Hw2 & Hc2 & Hk2). exists s2.
    unfold bind, get_obj, read_storage. unfold stored in Hs. rewrite Hs, E2. unfold ready. rewrite Es. split_and!; auto.
  - exists st. by repeat split; [..|right].
Qed.

Lemma od_del_spec {A} (d : list (bytes * A)) k : match od_del d k with
  | Ok d' => (NoDup (map fst d) -> NoDup (map fst d') /\ od_get d' k = None) /\ (forall k', k' <> k -> od_get d' k' = od_get d k') /\
      (forall j, j ∈ map fst d' -> j ∈ map fst d)
  | Err _ => od_get d k = None
  end.
Proof.
  induction d as [|[j x] d IH]; simpl; [done|]. case_bool_decide as E.
  - subst. split_and!.
    + intros [Hj Hn]%NoDup_cons. split; [done|]. by apply od_get_None.
    + intros k' N. by rewrite bool_decide_eq_false_2 by done.
    + intros. by right.
  - destruct (od_del d k) as [r|e]; simpl; [|done]. destruct IH as (H1 & H2 & H3). split_and!.
    + intros [Hj Hn]%NoDup_cons. destruct (H1 Hn) as [Hr Hg]. rewrite bool_decide_eq_false_2 by done. split; [|done].
      apply NoDup_cons. auto.
    + intros k' N. case_bool_decide; auto.
    + intros y [->|Hy]%elem_of_cons; [left|right; auto].
Qed.

Lemma leaf_del_ok k t st : ready st -> okkey k ->
  exists st', del_value (ContainerLeaf t) k st = (Ok tt, st') /\ ready st' /\ only k st st' /\ cached st' k = None.
Proof.
  intros (Hi & Hu & Hw) Hk. destruct (law_del (S := S) _ k Hi Hu Hk) as (s' & E & Hi' & Hu' & _ & _ & Hs & _).
  simpl. unfold bind, del_obj, on_storage. rewrite E. eexists. split; [done|].
  unfold ready, only, cached, cache_wf in *. simpl. destruct (i_cache st) as [d|]; [|by split_and!].
  pose proof (od_del_spec d k) as Hd. destruct (od_del d k) as [d'|e]; [|by split_and!].
  destruct Hd as (H1 & H2 & _), (H1 Hw). by split_and!.
Qed.
(** what [has_obj] and [get_obj] answer after a change *)
Lemma put_obj_has k t v st st' : ready st -> okkey k -> fits t v -> put_obj k t v st = (Ok tt, st') ->
  so_has_obj (i_storage st') k = Ok true.
Proof.
  intros (Hi & Hu & _) Hk Hf E. destruct (law_put (S := S) _ k t v Hi Hu Hk Hf) as (s' & E' & _ & _ & H & _).
  unfold put_obj, on_storage in E. rewrite E' in E. by injection E as <-.
Qed.

Lemma leaf_set_has k t v st st' : ready st -> okkey k -> fits t v -> set_value (ContainerLeaf t) k v st = (Ok tt, st') ->
  so_has_obj (i_storage st') k = Ok true.
Proof.
  intros Hr Hk Hf E. simpl in E. inv_ok E. destruct a. apply (put_obj_has _ _ _ _ _ Hr Hk Hf) in Hm.
  unfold cache_set in E. by injection E as <-.
Qed.

Definition gone (st : instance_ S) (k : bytes) : Prop :=
  so_has_obj (i_storage st) k = Ok false /\ forall t d, so_get_obj (i_storage st) k t d = with_default d.

Lemma del_obj_ok k st : ready st -> okkey k ->
  exists st', del_obj k st = (Ok tt, st') /\ ready st' /\ only k st st' /\ i_cache st' = i_cache st /\ gone st' k.
Proof.
  intros (Hi & Hu & Hw) Hk. destruct (law_del (S := S) _ k Hi Hu Hk) as (s' & E & Hi' & Hu' & Hh & Hg & Hs & _).
  unfold del_obj, on_storage. rewrite E. eexists. split; [done|]. by split_and!.
Qed.

Lemma leaf_del_gone k t st st' : ready st -> okkey k -> del_value (ContainerLeaf t) k st = (Ok tt, st') -> gone st' k.
Proof.
  intros Hr Hk E. simpl in E. inv_ok E. destruct (del_obj_ok k st Hr Hk) as (s1 & E1 & _ & _ & _ & G). rewrite E1 in Hm.
  injection Hm as <- <-. unfold cache_del in E. by injection E as <-.
Qed.

(** * The items of a deque *)

Section deque.
Context (t : nc_type) (p : bytes) (lo hi : Z).

(** the indexes from [lo] to [hi] can be used *)
Record usable : Prop := {
  u_range : - 2 ^ 223 <= lo /\ hi <= 2 ^ 223;
  u_keys : forall i, lo <= i < hi -> exists k, deque_to_db_key p i = Ok k /\ okkey k;
  u_meta_key : okkey (metadata_key p);
  u_meta : forall f n r, lo <= f -> 0 <= n -> f + n <= hi -> fits _METADATA_NC_TYPE (deque_meta_value (mkDequeMeta f n r))
}.

Hypothesis U : usable.

Definition ikey (i : Z) : bytes := match deque_to_db_key p i with Ok k => k | Err _ => [] end.

Lemma ikey_ok i : lo <= i < hi -> deque_to_db_key p i = Ok (ikey i) /\ okkey (ikey i).
Proof. intros Hi. unfold ikey. by destruct (u_keys U i Hi) as (k & -> & Hk). Qed.

Lemma ikey_bytes i : lo <= i < hi -> exists bs, to_bytes VarInt32NCType (VInt i) = Ok bs /\ ikey i = join_key p bs.
Proof.
  intros Hi. destruct (ikey_ok i Hi) as [E _]. unfold deque_to_db_key in E.
  destruct (to_bytes VarInt32NCType (VInt i)) as [bs|e]; [|done]. simpl in E. exists bs. split; [done|congruence].
Qed.

Lemma index_type i : lo <= i < hi -> has_type VarInt32NCType (VInt i) = true.
Proof. intros Hi. pose proof (u_range U). simpl. apply andb_true_intro. split; [apply Z.leb_le|apply Z.ltb_lt]; lia. Qed.

Lemma ikey_inj i j : lo <= i < hi -> lo <= j < hi -> ikey i = ikey j -> i = j.
Proof.
  intros Hi Hj E. destruct (ikey_bytes i Hi) as (b & Eb & Kb), (ikey_bytes j Hj) as (c & Ec & Kc).
  rewrite Kb, Kc in E. apply join_key_inj in E. subst c.
  pose proof (to_bytes_inj _ _ _ _ (index_type i Hi) (index_type j Hj) Eb Ec) as Ev. by injection Ev.
Qed.

Lemma ikey_meta i : lo <= i < hi -> ikey i <> metadata_key p.
Proof.
  intros Hi E. destruct (ikey_bytes i Hi) as (b & Eb & Kb). rewrite Kb in E. apply join_key_inj in E. subst b.
  pose proof (to_from_bytes _ _ _ Eb (index_type i Hi)) as F. vm_compute in F. discriminate F.
Qed.

(** the items of [xs] are at the indexes from [f] on *)
Record items (st : instance_ S) (f : Z) (xs : list value) : Prop := {
  it_ready : ready st;
  it_lo : lo <= f;
  it_hi : f + Z.of_nat (length xs) <= hi;
  it_at : forall i v, xs !! i = Some v -> stored st (ikey (f + Z.of_nat i)) t v /\ coherent st (ikey (f + Z.of_nat i)) v;
  it_cache : forall j, lo <= j < hi -> j < f \/ f + Z.of_nat (length xs) <= j -> cached st (ikey j) = None
}.

Abbreviation node := (ContainerLeaf t).

(** an item at index [j] was written, and is now one of [ys] *)
Lemma items_write st st' f xs j v g ys : items st f xs -> lo <= j < hi -> ready st' -> stored st' (ikey j) t v ->
  only (ikey j) st st' -> coherent st' (ikey j) v -> lo <= g -> g + Z.of_nat (length ys) <= hi ->
  (forall i w, ys !! i = Some w -> g + Z.of_nat i = j /\ w = v \/
     g + Z.of_nat i <> j /\ exists i', g + Z.of_nat i = f + Z.of_nat i' /\ xs !! i' = Some w) ->
  (forall k, k < g \/ g + Z.of_nat (length ys) <= k -> k <> j /\ (k < f \/ f + Z.of_nat (length xs) <= k)) ->
  items st' g ys.
Proof.
  intros I Hj Hr Hs Ho Hc Hg1 Hg2 Hat Hout. constructor; try done.
  - intros i w Hw. destruct (Hat i w Hw) as [[-> ->]|(N & i' & E & Hx)]; [done|].
    apply lookup_lt_Some in Hw. assert (lo <= g + Z.of_nat i < hi) as Hi by lia.
    assert (ikey (g + Z.of_nat i) <> ikey j) as Nk by (intros Ek; apply N, ikey_inj; done).
    destruct (it_at _ _ _ I i' w Hx) as [Hs' Hc']. rewrite <- E in Hs', Hc'. split.
    + eapply only_stored; [exact Ho|by apply ikey_ok|done|done].
    + unfold coherent. by rewrite (proj2 Ho).
  - intros k Hk Hko. destruct (Hout k Hko) as [N Hko']. rewrite (proj2 Ho); [by apply (it_cache _ _ _ I)|].
    intros E. apply N. by apply ikey_inj.
Qed.

Lemma put_right st f xs v : items st f xs -> f + Z.of_nat (length xs) < hi -> fits t v ->
  exists st', set_value node (ikey (f + Z.of_nat (length xs))) v st = (Ok tt, st') /\ items st' f (xs ++ [v]) /\
    only (ikey (f + Z.of_nat (length xs))) st st'.
Proof.
  intros I Hr Hf. pose proof (it_lo _ _ _ I). assert (lo <= f + Z.of_nat (length xs) < hi) as Hw by lia.
  destruct (leaf_set_ok (ikey (f + Z.of_nat (length xs))) t v st) as (st' & E & R & Hs & Ho & Hc);
    [apply I|by apply ikey_ok|done|]. exists st'. split; [done|]. split; [|done].
  eapply items_write; [exact I|exact Hw|done..| | |].
  - rewrite length_app. simpl. lia.
  - intros i w. rewrite lookup_app. destruct (xs !! i) as [x|] eqn:Ex; intros Hi.
    + injection Hi as <-. right. apply lookup_lt_Some in Ex as Hl. split; [lia|]. by exists i.
    + apply lookup_ge_None in Ex. destruct (i - length xs)%nat eqn:En; simpl in Hi; [|by destruct n].
      injection Hi as <-. left. split; [f_equal; lia|done].
  - intros k. rewrite length_app. simpl. lia.
Qed.

Lemma put_left st f xs v : items st f xs -> lo < f -> fits t v ->
  exists st', set_value node (ikey (f - 1)) v st = (Ok tt, st') /\ items st' (f - 1) (v :: xs) /\ only (ikey (f - 1)) st st'.
Proof.
  intros I Hr Hf. pose proof (it_hi _ _ _ I). assert (lo <= f - 1 < hi) as Hw by lia.
  destruct (leaf_set_ok (ikey (f - 1)) t v st) as (st' & E & R & Hs & Ho & Hc);
    [apply I|by apply ikey_ok|done|]. exists st'. split; [done|]. split; [|done].
  eapply items_write; [exact I|exact Hw|done..| | | |].
  - lia.
  - simpl. lia.
  - intros [|i] w; simpl; intros Hi; [injection Hi as <-; left; split; [f_equal; lia|done]|].
    right. split; [lia|]. exists i. split; [lia|done].
  - intros k. simpl. lia.
Qed.
(** an item is read; the cache may remember it *)
Lemma get_item st f xs i v : items st f xs -> xs !! i = Some v ->
  exists st', get_value node (ikey (f + Z.of_nat i)) st = (Ok (Val v), st') /\ items st' f xs /\ i_storage st' = i_storage st.
Proof.
  intros I Hi. destruct (it_at _ _ _ I i v Hi) as [Hs Hc]. destruct (leaf_get_ok _ t v st (it_ready _ _ _ I) Hs Hc)
    as (st' & E & R & Es & Ho & Hc'). exists st'. split; [done|]. split; [|done].
  pose proof (it_lo _ _ _ I). pose proof (it_hi _ _ _ I). apply lookup_lt_Some in Hi as Hl.
  assert (lo <= f + Z.of_nat i < hi) as Hw by lia. constructor; try done.
  - intros j w Hj. destruct (it_at _ _ _ I j w Hj) as [Hs2 Hc2]. unfold stored. rewrite Es. split; [done|].
    destruct (decide (i = j)) as [->|N]; [simplify_eq; done|]. apply lookup_lt_Some in Hj as Hl2. unfold coherent. rewrite Ho; [done|].
    intros E2. apply ikey_inj in E2; lia.
  - intros j Hj Hout. rewrite Ho; [by apply (it_cache _ _ _ I)|]. intros E2. apply ikey_inj in E2; lia.
Qed.

Lemma set_item st f xs i v : items st f xs -> (i < length xs)%nat -> fits t v ->
  exists st', set_value node (ikey (f + Z.of_nat i)) v st = (Ok tt, st') /\ items st' f (<[i:=v]> xs) /\
    only (ikey (f + Z.of_nat i)) st st'.
Proof.
  intros I Hi Hf. pose proof (it_lo _ _ _ I). pose proof (it_hi _ _ _ I). assert (lo <= f + Z.of_nat i < hi) as Hw by lia.
  destruct (leaf_set_ok (ikey (f + Z.of_nat i)) t v st) as (st' & E & R & Hs & Ho & Hc);
    [apply I|by apply ikey_ok|done|]. exists st'. split; [done|]. split; [|done].
  eapply items_write; [exact I|exact Hw|done..| | |].
  - by rewrite length_insert.
  - intros j w. destruct (decide (i = j)) as [<-|N].
    + rewrite list_lookup_insert_eq by done. intros [= <-]. by left.
    + rewrite list_lookup_insert_ne by done. intros Hj. right. split; [lia|]. by exists j.
  - intros k. rewrite length_insert. lia.
Qed.

(** an item at one end is deleted *)
Lemma del_end st f xs j g ys : items st f xs -> lo <= j < hi ->
  (forall i w, ys !! i = Some w -> g + Z.of_nat i <> j /\ exists i', g + Z.of_nat i = f + Z.of_nat i' /\ xs !! i' = Some w) ->
  lo <= g -> g + Z.of_nat (length ys) <= hi ->
  (forall k, k < g \/ g + Z.of_nat (length ys) <= k -> k = j \/ k < f \/ f + Z.of_nat (length xs) <= k) ->
  exists st', del_value node (ikey j) st = (Ok tt, st') /\ items st' g ys /\ only (ikey j) st st'.
Proof.
  intros I Hj Hat Hg1 Hg2 Hout. destruct (leaf_del_ok (ikey j) t st (it_ready _ _ _ I)) as (st' & E & R & Ho & Hc); [by apply ikey_ok|].
  exists st'. split; [done|]. split; [|done]. constructor; try done.
  - intros i w Hw. destruct (Hat i w Hw) as (N & i' & Ei & Hx). apply lookup_lt_Some in Hw.
    assert (ikey (g + Z.of_nat i) <> ikey j) as Nk by (intros Ek; apply ikey_inj in Ek; lia).
    destruct (it_at _ _ _ I i' w Hx) as [Hs' Hc']. rewrite <- Ei in Hs', Hc'. split.
    + eapply only_stored; [exact Ho|apply ikey_ok; lia|done|done].
    + unfold coherent. by rewrite (proj2 Ho).
  - intros k Hk Hko. destruct (decide (k = j)) as [->|N]; [done|]. rewrite (proj2 Ho).
    + apply (it_cache _ _ _ I); [done|]. destruct (Hout k Hko); done.
    + intros Ek. apply N. by apply ikey_inj.
Qed.

(** ** Metadata *)

Definition meta_at (st : instance_ S) (f : Z) (n : nat) (r : bool) : Prop :=
  stored st (metadata_key p) _METADATA_NC_TYPE (deque_meta_value (mkDequeMeta f (Z.of_nat n) r)).

Lemma meta_only st st' j f n r : only (ikey j) st st' -> lo <= j < hi -> meta_at st f n r -> meta_at st' f n r.
Proof. intros Ho Hj H. eapply only_stored; [exact Ho|apply U| |exact H]. intros E. by apply (ikey_meta j Hj). Qed.

Lemma get_metadata_ok st f n r : meta_at st f n r -> __get_metadata p st = (Ok (mkDequeMeta f (Z.of_nat n) r), st).
Proof. intros H. unfold __get_metadata, bind, get_obj, read_storage. unfold meta_at, stored in H. rewrite H. done. Qed.

Lemma update_metadata_ok st f xs r : items st f xs ->
  exists st', __update_metadata p (mkDequeMeta f (Z.of_nat (length xs)) r) st = (Ok tt, st') /\ items st' f xs /\
    meta_at st' f (length xs) r.
Proof.
  intros I. destruct (put_obj_ok (metadata_key p) _METADATA_NC_TYPE (deque_meta_value (mkDequeMeta f (Z.of_nat (length xs)) r)) st)
    as (st' & E & R & Hs & [Ho1 Ho2] & Ec); [apply I|apply U|apply (u_meta U); [apply I|lia|apply I]|].
  exists st'. split; [done|]. split; [|done]. pose proof (it_lo _ _ _ I). pose proof (it_hi _ _ _ I).
  assert (forall k, cached st' k = cached st k) as Hc by (intros k; unfold cached; by rewrite Ec). constructor; try done.
  - intros i v Hi. apply lookup_lt_Some in Hi as Hl. destruct (it_at _ _ _ I i v Hi) as [H1 H2]. unfold coherent. rewrite Hc.
    split; [|done]. eapply only_stored; [by split|apply ikey_ok; lia|apply ikey_meta; lia|done].
  - intros j Hj Hout. rewrite Hc. by apply (it_cache _ _ _ I).
Qed.

(** ** The loops *)

Lemma put_items_right vs : forall st f xs, items st f xs -> f + Z.of_nat (length xs) + Z.of_nat (length vs) <= hi -> Forall (fits t) vs ->
  exists st', put_items node p 1 (f + Z.of_nat (length xs) - 1) vs st = (Ok (f + Z.of_nat (length (xs ++ vs)) - 1), st') /\
    items st' f (xs ++ vs).
Proof.
  induction vs as [|v vs IH]; intros st f xs I Hr Hf; cbn [put_items].
  - exists st. by rewrite app_nil_r.
  - apply Forall_cons in Hf as [Hv Hf]. simpl in Hr. destruct (put_right st f xs v I) as (s1 & E1 & I1 & _); [lia|done|].
    replace (f + Z.of_nat (length xs) - 1 + 1) with (f + Z.of_nat (length xs)) by lia. pose proof (it_lo _ _ _ I).
    unfold bind at 1, lift. rewrite (proj1 (ikey_ok (f + Z.of_nat (length xs)) ltac:(lia))).
    unfold bind at 1. rewrite E1. destruct (IH s1 f (xs ++ [v]) I1) as (s2 & E2 & I2); [rewrite length_app; simpl; lia|done|].
    exists s2. rewrite <- app_assoc in I2, E2. split; [|done]. rewrite length_app in E2 at 1. simpl in E2.
    replace (f + Z.of_nat (length xs + 1) - 1) with (f + Z.of_nat (length xs)) in E2 by lia. exact E2.
Qed.

Lemma put_items_left vs : forall st f xs, items st f xs -> lo + Z.of_nat (length vs) <= f -> Forall (fits t) vs ->
  exists st', put_items node p (-1) f vs st = (Ok (f - Z.of_nat (length vs)), st') /\
    items st' (f - Z.of_nat (length vs)) (rev vs ++ xs).
Proof.
  induction vs as [|v vs IH]; intros st f xs I Hr Hf; cbn [put_items].
  - exists st. simpl. by rewrite Z.sub_0_r.
  - apply Forall_cons in Hf as [Hv Hf]. simpl in Hr. destruct (put_left st f xs v I) as (s1 & E1 & I1 & _); [lia|done|].
    replace (f + -1) with (f - 1) by lia. pose proof (it_hi _ _ _ I).
    unfold bind at 1, lift. rewrite (proj1 (ikey_ok (f - 1) ltac:(lia))).
    unfold bind at 1. rewrite E1. destruct (IH s1 (f - 1) (v :: xs) I1) as (s2 & E2 & I2); [lia|done|].
    exists s2. cbn [rev length]. rewrite <- app_assoc, Nat2Z.inj_succ. simpl. replace (f - Z.succ (Z.of_nat (length vs))) with (f - 1 - Z.of_nat (length vs)) by lia.
    split; done.
Qed.

Lemma read_items_ok xs0 f n : forall st i, items st f xs0 -> (i + n <= length xs0)%nat ->
  exists st', read_items node p 1 (f + Z.of_nat i) n st = (Ok (map Val (take n (drop i xs0))), st') /\ items st' f xs0 /\
    i_storage st' = i_storage st.
Proof.
  induction n as [|n IH]; intros st i I Hn; [by exists st|]. cbn [read_items]. pose proof (it_lo _ _ _ I). pose proof (it_hi _ _ _ I).
  destruct (lookup_lt_is_Some_2 xs0 i ltac:(lia)) as [v Hv]. destruct (get_item st f xs0 i v I Hv) as (s1 & E1 & I1 & Es1).
  unfold bind at 1, lift. rewrite (proj1 (ikey_ok (f + Z.of_nat i) ltac:(lia))). unfold bind at 1. rewrite E1.
  replace (f + Z.of_nat i + 1) with (f + Z.of_nat (Datatypes.S i)) by lia. destruct (IH s1 (Datatypes.S i) I1 ltac:(lia)) as (s2 & E2 & I2 & Es2).
  unfold bind. rewrite E2. exists s2. split; [|split; [done|congruence]].
  rewrite (drop_S xs0 v i Hv). done.
Qed.

Lemma read_items_back xs0 f n : forall st i, items st f xs0 -> (i < length xs0)%nat -> (n <= Datatypes.S i)%nat ->
  exists st', read_items node p (-1) (f + Z.of_nat i) n st = (Ok (map Val (take n (rev (take (Datatypes.S i) xs0)))), st') /\ items st' f xs0 /\
    i_storage st' = i_storage st.
Proof.
  induction n as [|n IH]; intros st i I Hi Hn; [by exists st|]. cbn [read_items]. pose proof (it_lo _ _ _ I). pose proof (it_hi _ _ _ I).
  destruct (lookup_lt_is_Some_2 xs0 i ltac:(lia)) as [v Hv]. destruct (get_item st f xs0 i v I Hv) as (s1 & E1 & I1 & Es1).
  unfold bind at 1, lift. rewrite (proj1 (ikey_ok (f + Z.of_nat i) ltac:(lia))). unfold bind at 1. rewrite E1.
  rewrite (take_S_r xs0 i v Hv), rev_app_distr. simpl. destruct i as [|i].
  - destruct n; [|lia]. simpl. exists s1. done.
  - replace (f + Z.of_nat (Datatypes.S i) + -1) with (f + Z.of_nat i) by lia.
    destruct (IH s1 i I1 ltac:(lia) ltac:(lia)) as (s2 & E2 & I2 & Es2). unfold bind. rewrite E2. exists s2.
    split; [done|]. split; [done|congruence].
Qed.
(** ** The operations on the stored order *)

(** the items, with the metadata that goes with them *)
Definition holds (st : instance_ S) (f : Z) (xs : list value) (r : bool) : Prop := items st f xs /\ meta_at st f (length xs) r.

Lemma extend_right st f xs r vs : holds st f xs r -> f + Z.of_nat (length xs) + Z.of_nat (length vs) <= hi -> Forall (fits t) vs ->
  exists st', __extend node p vs (mkDequeMeta f (Z.of_nat (length xs)) r) st = (Ok tt, st') /\ holds st' f (xs ++ vs) r.
Proof.
  intros [I Hm] Hr Hf. unfold __extend, last_index. simpl. destruct (put_items_right vs st f xs I Hr Hf) as (s1 & E1 & I1).
  unfold bind. rewrite E1. destruct (update_metadata_ok s1 f (xs ++ vs) r I1) as (s2 & E2 & I2 & M2). exists s2.
  replace (f + Z.of_nat (length (xs ++ vs)) - 1 - f + 1) with (Z.of_nat (length (xs ++ vs))) by lia. done.
Qed.

Lemma extend_left st f xs r vs : holds st f xs r -> lo + Z.of_nat (length vs) <= f -> Forall (fits t) vs ->
  exists st', __extendleft node p vs (mkDequeMeta f (Z.of_nat (length xs)) r) st = (Ok tt, st') /\
    holds st' (f - Z.of_nat (length vs)) (rev vs ++ xs) r.
Proof.
  intros [I Hm] Hr Hf. unfold __extendleft, last_index. simpl. destruct (put_items_left vs st f xs I Hr Hf) as (s1 & E1 & I1).
  unfold bind. rewrite E1. destruct (update_metadata_ok s1 _ (rev vs ++ xs) r I1) as (s2 & E2 & I2 & M2). exists s2.
  replace (f + Z.of_nat (length xs) - 1 - (f - Z.of_nat (length vs)) + 1) with (Z.of_nat (length (rev vs ++ xs))); [done|].
  rewrite length_app, length_rev. lia.
Qed.

Lemma pop_empty st f r left : holds st f [] r -> __pop node p (mkDequeMeta f 0 r) left st = (Err IndexError, st).
Proof. done. Qed.

Lemma pop_right st f xs v r : holds st f (xs ++ [v]) r ->
  exists st', __pop node p (mkDequeMeta f (Z.of_nat (length (xs ++ [v]))) r) false st = (Ok (Val v), st') /\ holds st' f xs r.
Proof.
  intros [I Hm]. pose proof (it_lo _ _ _ I). pose proof (it_hi _ _ _ I) as Hh. rewrite length_app in *. simpl in Hh.
  unfold __pop, last_index. cbn [dq_length first_index reversed]. rewrite (proj2 (Z.eqb_neq _ 0)) by (simpl; lia).
  replace (f + Z.of_nat (length xs + length [v]) - 1) with (f + Z.of_nat (length xs)) by (simpl; lia).
  unfold bind at 1, lift. rewrite (proj1 (ikey_ok (f + Z.of_nat (length xs)) ltac:(lia))).
  destruct (get_item st f (xs ++ [v]) (length xs) v I) as (s1 & E1 & I1 & Es1); [by rewrite lookup_app_r, Nat.sub_diag|].
  unfold bind at 1. rewrite E1. destruct (del_end s1 f (xs ++ [v]) (f + Z.of_nat (length xs)) f xs I1) as (s2 & E2 & I2 & O2); try lia.
  { intros i w Hw. apply lookup_lt_Some in Hw as Hl. split; [lia|]. exists i. split; [done|]. by rewrite lookup_app_l. }
  { intros k Hk. rewrite length_app. simpl. lia. }
  unfold bind at 1. rewrite E2. destruct (update_metadata_ok s2 f xs r I2) as (s3 & E3 & I3 & M3).
  replace (Z.of_nat (length xs + length [v]) - 1) with (Z.of_nat (length xs)) by (simpl; lia).
  unfold bind. rewrite E3. by exists s3.
Qed.

Lemma pop_left st f xs v r : holds st f (v :: xs) r ->
  exists st', __pop node p (mkDequeMeta f (Z.of_nat (length (v :: xs))) r) true st = (Ok (Val v), st') /\ holds st' (f + 1) xs r.
Proof.
  intros [I Hm]. pose proof (it_lo _ _ _ I). pose proof (it_hi _ _ _ I) as Hh. cbn [length] in *.
  unfold __pop. cbn [dq_length first_index reversed]. rewrite (proj2 (Z.eqb_neq _ 0)) by lia.
  unfold bind at 1, lift. rewrite (proj1 (ikey_ok f ltac:(lia))).
  destruct (get_item st f (v :: xs) 0 v I) as (s1 & E1 & I1 & Es1); [done|]. rewrite Z.add_0_r in E1.
  unfold bind at 1. rewrite E1. destruct (del_end s1 f (v :: xs) f (f + 1) xs I1) as (s2 & E2 & I2 & O2); try lia.
  { intros i w Hw. split; [lia|]. exists (Datatypes.S i). split; [lia|done]. }
  { intros k Hk. cbn [length]. lia. }
  unfold bind at 1. rewrite E2. destruct (update_metadata_ok s2 (f + 1) xs r I2) as (s3 & E3 & I3 & M3).
  replace (Z.of_nat (Datatypes.S (length xs)) - 1) with (Z.of_nat (length xs)) by lia.
  unfold bind. rewrite E3. by exists s3.
Qed.
End deque.
End laws.

(** * A deque behaves as a list *)

Inductive deque_op : Type :=
| DExtend (l : list value) | DExtendleft (l : list value) | DAppend (v : value) | DAppendleft (v : value)
| DPop | DPopleft | DReverse | DGet (index : Z) | DSet (index : Z) (v : value) | DLen | DIter.

Inductive deque_out : Type := ONone | OItem (x : item) | OInt (z : Z) | OItems (l : list item).

Definition deque_run {S} `{!StorageOps S} (n : ContainerNode S) (p : bytes) (op : deque_op) : M (instance_ S) deque_out :=
  match op with
  | DExtend l => deque_extend n p l ;;; ret ONone
  | DExtendleft l => deque_extendleft n p l ;;; ret ONone
  | DAppend v => deque_append n p v ;;; ret ONone
  | DAppendleft v => deque_appendleft n p v ;;; ret ONone
  | DPop => let! x := deque_pop n p in ret (OItem x)
  | DPopleft => let! x := deque_popleft n p in ret (OItem x)
  | DReverse => deque_reverse p ;;; ret ONone
  | DGet i => let! x := deque_getitem n p i in ret (OItem x)
  | DSet i v => deque_setitem n p i v ;;; ret ONone
  | DLen => let! z := deque_len p in ret (OInt z)
  | DIter => let! l := deque_iter n p in ret (OItems l)
  end.

(** Python's index of a list *)
Definition list_index (l : list value) (i : Z) : option nat :=
  let idx := if i <? 0 then i + Z.of_nat (length l) else i in
  if (idx <? 0) || (Z.of_nat (length l) <=? idx) then None else Some (Z.to_nat idx).

(** the same operations on a list: the result, and the list afterwards *)
Definition list_run (op : deque_op) (l : list value) : result deque_out * list value :=
  match op with
  | DExtend vs => (Ok ONone, l ++ vs)
  | DExtendleft vs => (Ok ONone, rev vs ++ l)
  | DAppend v => (Ok ONone, l ++ [v])
  | DAppendleft v => (Ok ONone, v :: l)
  | DPop => match rev l with [] => (Err IndexError, l) | x :: r => (Ok (OItem (Val x)), rev r) end
  | DPopleft => match l with [] => (Err IndexError, l) | x :: r => (Ok (OItem (Val x)), r) end
  | DReverse => (Ok ONone, rev l)
  | DGet i =>
      match list_index l i with
      | None => (Err IndexError, l)
      | Some k => (match l !! k with Some x => Ok (OItem (Val x)) | None => Err IndexError end, l)
      end
  | DSet i v => match list_index l i with None => (Err IndexError, l) | Some k => (Ok ONone, <[k := v]> l) end
  | DLen => (Ok (OInt (Z.of_nat (length l))), l)
  | DIter => (Ok (OItems (map Val l)), l)
  end.

(** the values an operation stores *)
Definition op_values (op : deque_op) : list value :=
  match op with
  | DExtend l | DExtendleft l => l
  | DAppend v | DAppendleft v | DSet _ v => [v]
  | _ => []
  end.

Section refinement.
Context {S : Type} `{!StorageOps S} {inv unlocked : S -> Prop} {okkey : bytes -> Prop} {fits : nc_type -> value -> Prop}.
Context {okval : Z -> Prop} {oktoken : TokenDescription -> Prop} {okbp : bytes -> Prop}.
Context {SL : StorageLaws S inv unlocked okkey fits okval oktoken okbp}.
Context (t : nc_type) (p : bytes) (lo hi : Z) (U : usable (okkey := okkey) (fits := fits) p lo hi).

Abbreviation holds := (holds (inv := inv) (unlocked := unlocked) t p lo hi).
Abbreviation node := (ContainerLeaf t).

(** the deque under [p] is the list [l], and [m] more items can be put at either end *)
Definition deque_rep (st : instance_ S) (m : nat) (l : list value) : Prop :=
  exists f xs r, holds st f xs r /\ lo + Z.of_nat m <= f /\ f + Z.of_nat (length xs) + Z.of_nat m <= hi /\
    l = if (r : bool) then rev xs else xs.

Lemma metadata_of st f xs r : holds st f xs r -> __get_metadata p st = (Ok (mkDequeMeta f (Z.of_nat (length xs)) r), st).
Proof. intros [_ H]. by apply get_metadata_ok. Qed.

(** the simulation of one operation *)
Definition simulates (op : deque_op) : Prop := forall st m l,
  deque_rep st (m + length (op_values op)) l -> Forall (fits t) (op_values op) ->
  exists st', deque_run node p op st = (fst (list_run op l), st') /\ deque_rep st' m (snd (list_run op l)).

Lemma sim_extend vs : simulates (DExtend vs).
Proof.
  intros st m l (f & xs & r & H & Hlo & Hhi & ->) Hf. simpl in *. unfold deque_extend, bind. rewrite (metadata_of st f xs r H). simpl.
  destruct r.
  - destruct (extend_left t p lo hi U st f xs true vs H) as (s1 & E1 & H1); [lia|done|]. rewrite E1. exists s1. split; [done|].
    exists (f - Z.of_nat (length vs)), (rev vs ++ xs), true. split; [done|]. rewrite length_app, length_rev. split_and!; [lia|lia|].
    by rewrite rev_app_distr, rev_involutive.
  - destruct (extend_right t p lo hi U st f xs false vs H) as (s1 & E1 & H1); [lia|done|]. rewrite E1. exists s1. split; [done|].
    exists f, (xs ++ vs), false. split; [done|]. rewrite length_app. split_and!; [lia|lia|done].
Qed.

Lemma sim_extendleft vs : simulates (DExtendleft vs).
Proof.
  intros st m l (f & xs & r & H & Hlo & Hhi & ->) Hf. simpl in *. unfold deque_extendleft, bind. rewrite (metadata_of st f xs r H). simpl.
  destruct r.
  - destruct (extend_right t p lo hi U st f xs true vs H) as (s1 & E1 & H1); [lia|done|]. rewrite E1. exists s1. split; [done|].
    exists f, (xs ++ vs), true. split; [done|]. rewrite length_app. split_and!; [lia|lia|]. by rewrite rev_app_distr.
  - destruct (extend_left t p lo hi U st f xs false vs H) as (s1 & E1 & H1); [lia|done|]. rewrite E1. exists s1. split; [done|].
    exists (f - Z.of_nat (length vs)), (rev vs ++ xs), false. split; [done|]. rewrite length_app, length_rev. split_and!; [lia|lia|done].
Qed.

(** a pop at one end of the stored order *)
Lemma pop_stored st f xs r (left : bool) m : holds st f xs r -> lo + Z.of_nat m <= f -> f + Z.of_nat (length xs) + Z.of_nat m <= hi ->
  exists st', __pop node p (mkDequeMeta f (Z.of_nat (length xs)) r) left st =
    (match (if left then xs else rev xs) with [] => Err IndexError | x :: _ => Ok (Val x) end, st') /\
    exists f', holds st' f' (match (if left then xs else rev xs) with [] => xs | _ :: ys => if left then ys else rev ys end) r /\
      lo + Z.of_nat m <= f' /\
      f' + Z.of_nat (length (match (if left then xs else rev xs) with [] => xs | _ :: ys => if left then ys else rev ys end)) + Z.of_nat m <= hi.
Proof.
  intros H Hlo Hhi. destruct left.
  - destruct xs as [|v xs]; [exists st; split; [done|by exists f]|].
    destruct (pop_left t p lo hi U st f xs v r H) as (s1 & E1 & H1). exists s1. split; [done|]. exists (f + 1). simpl in *. split_and!; [done|lia|lia].
  - destruct xs as [|v xs _] using rev_ind; [exists st; split; [done|by exists f]|]. rewrite rev_app_distr. simpl.
    destruct (pop_right t p lo hi U st f xs v r H) as (s1 & E1 & H1). exists s1. split; [done|]. exists f. rewrite rev_involutive.
    rewrite length_app in Hhi. simpl in *. split_and!; [done|lia|lia].
Qed.

Lemma sim_pop : simulates DPop.
Proof.
  intros st m l (f & xs & r & H & Hlo & Hhi & ->) _. simpl in *. rewrite Nat.add_0_r in *.
  unfold deque_pop, bind. rewrite (metadata_of st f xs r H). simpl.
  destruct (pop_stored st f xs r r m H Hlo Hhi) as (s1 & E1 & f1 & H1 & L1 & L2). rewrite E1. exists s1. destruct r; simpl in *.
  - rewrite rev_involutive. destruct xs as [|x xs]; (split; [done|]); [by exists f1, [], true|by exists f1, xs, true].
  - destruct (rev xs) as [|x ys]; (split; [done|]); [by exists f1, xs, false|by exists f1, (rev ys), false].
Qed.

Lemma sim_popleft : simulates DPopleft.
Proof.
  intros st m l (f & xs & r & H & Hlo & Hhi & ->) _. simpl in *. rewrite Nat.add_0_r in *.
  unfold deque_popleft, bind. rewrite (metadata_of st f xs r H). simpl.
  destruct (pop_stored st f xs r (negb r) m H Hlo Hhi) as (s1 & E1 & f1 & H1 & L1 & L2). rewrite E1. exists s1. destruct r; simpl in *.
  - destruct (rev xs) as [|x ys] eqn:Ex; (split; [done|]); [exists f1, xs, true; by rewrite Ex|].
    exists f1, (rev ys), true. by rewrite rev_involutive.
  - destruct xs as [|x xs]; (split; [done|]); [by exists f1, [], false|by exists f1, xs, false].
Qed.

Lemma sim_reverse : simulates DReverse.
Proof.
  intros st m l (f & xs & r & H & Hlo & Hhi & ->) _. simpl in *. rewrite Nat.add_0_r in *.
  unfold deque_reverse, bind. rewrite (metadata_of st f xs r H). simpl.
  destruct (update_metadata_ok t p lo hi U st f xs (negb r) (proj1 H)) as (s1 & E1 & I1 & M1). rewrite E1. exists s1. split; [done|].
  exists f, xs, (negb r). split; [done|]. split_and!; [done|done|]. destruct r; simpl; [by rewrite rev_involutive|done].
Qed.
Lemma rev_lookup (xs : list value) k : (k < length xs)%nat -> rev xs !! k = xs !! (length xs - Datatypes.S k)%nat.
Proof. intros H. rewrite rev_alt. by apply reverse_lookup. Qed.

Lemma rev_insert (xs : list value) k v : (k < length xs)%nat -> <[k := v]> (rev xs) = rev (<[(length xs - Datatypes.S k)%nat := v]> xs).
Proof.
  intros H. apply list_eq. intros i. destruct (decide (i < length xs)%nat) as [Hi|Hi].
  - rewrite rev_lookup by (by rewrite length_insert). rewrite length_insert. destruct (decide (k = i)) as [<-|N].
    + rewrite list_lookup_insert_eq by (by rewrite length_rev). rewrite list_lookup_insert_eq by lia. done.
    + rewrite list_lookup_insert_ne by done. rewrite list_lookup_insert_ne by lia. by apply rev_lookup.
  - rewrite !lookup_ge_None_2; [done|rewrite length_rev, length_insert; lia|rewrite length_insert, length_rev; lia].
Qed.

(** the index in the stored order *)
Lemma internal_index st f xs r i : holds st f xs r ->
  __to_internal_index p i st =
  (match list_index (if (r : bool) then rev xs else xs) i with
   | None => Err IndexError
   | Some k => Ok (f + Z.of_nat (if r then length xs - Datatypes.S k else k))
   end, st) /\
  forall k, list_index (if r then rev xs else xs) i = Some k -> (k < length xs)%nat.
Proof.
  intros H. unfold __to_internal_index, bind. rewrite (metadata_of st f xs r H). unfold list_index, last_index. simpl.
  assert (length (if r then rev xs else xs) = length xs) as -> by (destruct r; [apply length_rev|done]).
  set (idx := if i <? 0 then i + Z.of_nat (length xs) else i).
  destruct (Z.ltb_spec idx 0); simpl; [done|]. destruct (Z.leb_spec (Z.of_nat (length xs)) idx); [done|]. split.
  - unfold ret. do 2 f_equal. destruct r; lia.
  - intros k [= <-]. lia.
Qed.

Lemma sim_get i : simulates (DGet i).
Proof.
  intros st m l (f & xs & r & H & Hlo & Hhi & ->) _. simpl in *. rewrite Nat.add_0_r in *.
  destruct (internal_index st f xs r i H) as [E Hk]. unfold deque_getitem. unfold bind at 1 2. rewrite E.
  destruct (list_index (if r then rev xs else xs) i) as [k|]; [|exists st; split; [done|by exists f, xs, r]].
  specialize (Hk k eq_refl). set (j := if r then (length xs - Datatypes.S k)%nat else k). assert (j < length xs)%nat as Hj by (destruct r; unfold j; lia).
  assert ((if r then rev xs else xs) !! k = xs !! j) as -> by (destruct r; unfold j; [by apply rev_lookup|done]).
  destruct (lookup_lt_is_Some_2 xs j Hj) as [v Hv]. rewrite Hv. destruct H as [I M]. pose proof (it_lo _ _ _ _ _ _ _ I). pose proof (it_hi _ _ _ _ _ _ _ I).
  unfold bind, lift. rewrite (proj1 (ikey_ok p lo hi U (f + Z.of_nat j) ltac:(lia))).
  destruct (get_item t p lo hi U st f xs j v I Hv) as (s1 & E1 & I1 & Es). unfold try_raise. rewrite E1. exists s1. split; [done|].
  exists f, xs, r. split; [|done]. split; [done|]. unfold meta_at, stored. by rewrite Es.
Qed.

Lemma sim_set i v : simulates (DSet i v).
Proof.
  intros st m l (f & xs & r & H & Hlo & Hhi & ->) Hf. simpl in Hlo, Hhi, Hf. apply Forall_inv in Hf.
  assert (lo + Z.of_nat m <= f /\ f + Z.of_nat (length xs) + Z.of_nat m <= hi) as [Lo Hi] by lia.
  destruct (internal_index st f xs r i H) as [E Hk]. simpl. unfold deque_setitem. unfold bind at 1 2. rewrite E.
  destruct (list_index (if r then rev xs else xs) i) as [k|]; [|exists st; split; [done|by exists f, xs, r]].
  specialize (Hk k eq_refl). set (j := if r then (length xs - Datatypes.S k)%nat else k). assert (j < length xs)%nat as Hj by (destruct r; unfold j; lia).
  destruct H as [I M]. pose proof (it_lo _ _ _ _ _ _ _ I).
  unfold bind, lift. rewrite (proj1 (ikey_ok p lo hi U (f + Z.of_nat j) ltac:(lia))).
  destruct (set_item t p lo hi U st f xs j v I Hj Hf) as (s1 & E1 & I1 & O1). cbn [set_value] in E1. rewrite E1. exists s1. split; [done|].
  exists f, (<[j := v]> xs), r. split; [split; [done|]|].
  - rewrite length_insert. eapply (meta_only p lo hi U); [exact O1|lia|done].
  - rewrite length_insert. split_and!; [done|done|]. simpl. destruct r; unfold j; [by apply rev_insert|done].
Qed.

Lemma sim_len : simulates DLen.
Proof.
  intros st m l (f & xs & r & H & Hlo & Hhi & ->) _. simpl in *. rewrite Nat.add_0_r in *.
  unfold deque_len, bind. rewrite (metadata_of st f xs r H). exists st. split; [|by exists f, xs, r]. simpl.
  unfold ret. do 3 f_equal. destruct r; [by rewrite length_rev|done].
Qed.

Lemma sim_iter : simulates DIter.
Proof.
  intros st m l (f & xs & r & H & Hlo & Hhi & ->) _. simpl in *. rewrite Nat.add_0_r in *.
  unfold deque_iter. unfold bind at 1 2. rewrite (metadata_of st f xs r H). unfold last_index. cbn [reversed dq_length first_index].
  rewrite Nat2Z.id. destruct H as [I M].
  assert (exists st', (if r then read_items node p (-1) (f + Z.of_nat (length xs) - 1) (length xs) else read_items node p 1 f (length xs)) st
    = (Ok (map Val (if r then rev xs else xs)), st') /\ items (inv := inv) (unlocked := unlocked) t p lo hi st' f xs /\ i_storage st' = i_storage st)
    as (s1 & E1 & I1 & Es1).
  { destruct r.
    - destruct (length xs) as [|n] eqn:En.
      + destruct xs; [|done]. by exists st.
      + replace (f + Z.of_nat (Datatypes.S n) - 1) with (f + Z.of_nat n) by lia.
        destruct (read_items_back t p lo hi U xs f (Datatypes.S n) st n I) as (s1 & E1 & R); [lia|lia|]. exists s1. split; [|done].
        rewrite E1. rewrite <- En, firstn_all, firstn_all2; [done|]. rewrite length_rev. lia.
    - destruct (read_items_ok t p lo hi U xs f (length xs) st 0 I) as (s1 & E1 & R); [lia|]. rewrite Z.add_0_r in E1. exists s1. split; [|done].
      rewrite E1. by rewrite drop_0, firstn_all. }
  rewrite E1. exists s1. split; [done|]. exists f, xs, r. split; [|done]. split; [done|]. unfold meta_at, stored. by rewrite Es1.
Qed.

(** a new deque is empty *)
Lemma deque_init_ok st m : ready (inv := inv) (unlocked := unlocked) st -> lo + Z.of_nat m <= 0 -> Z.of_nat m <= hi ->
  (forall j, lo <= j < hi -> cached st (ikey p j) = None) ->
  exists st', deque_init_storage node p VNone st = (Ok tt, st') /\ deque_rep st' m [].
Proof.
  intros R Hlo Hhi Hc. assert (items (inv := inv) (unlocked := unlocked) t p lo hi st 0 []) as I.
  { constructor; try done; simpl; try lia. intros j Hj _. by apply Hc. }
  destruct (update_metadata_ok t p lo hi U st 0 [] false I) as (st' & E & I' & M). unfold deque_init_storage.
  rewrite (bind_ok _ _ _ _ _ E). exists st'. split; [done|]. exists 0, [], false. split; [done|]. simpl. split_and!; [lia|lia|done].
Qed.

(** C12: Every operation of a deque of values behaves as the one of a Python list, errors
    included: over any storage that keeps the storage's laws, with or without a cache of
    attributes, wherever the deque starts in its range of indexes and whether it was
    reversed or not.  Room for the added items is assumed. *)
Theorem deque_refines_list op st m l :
  deque_rep st (m + length (op_values op)) l -> Forall (fits t) (op_values op) ->
  exists st', deque_run node p op st = (fst (list_run op l), st') /\ deque_rep st' m (snd (list_run op l)).
Proof.
  revert st m l. change (simulates op). destruct op.
  - apply sim_extend.
  - apply sim_extendleft.
  - exact (sim_extend [v]).
  - exact (sim_extendleft [v]).
  - apply sim_pop.
  - apply sim_popleft.
  - apply sim_reverse.
  - apply sim_get.
  - apply sim_set.
  - apply sim_len.
  - apply sim_iter.
Qed.
End refinement.
