(* ===== verification/TableTheory.v ===== *)
(** Dictionaries and sets: what they keep under the keys of a storage, and that each of
    their operations refines the one of a Python dictionary or set. *)

From stdpp Require Import base list gmap strings.
From Stdlib Require Import ZArith Lia.
From S2P Require Import Prelude PyInt PyValue NCTypes NCTypeTheory BlockStorage ContractStorage StorageInterface.
From S2P Require Import NCTypeSafety Fields DequeTheory.

Local Open Scope Z_scope.
Local Open Scope py_scope.

(** * Tables: what dictionaries and sets keep *)

Section table.
Context {S : Type} `{!StorageOps S} {inv unlocked : S -> Prop} {okkey : bytes -> Prop} {fits : nc_type -> value -> Prop}.
Context {okval : Z -> Prop} {oktoken : TokenDescription -> Prop} {okbp : bytes -> Prop}.
Context {SL : StorageLaws S inv unlocked okkey fits okval oktoken okbp}.
Context (kt vt : nc_type) (p : bytes) (dom : value -> Prop) (max : nat).

(** the keys of [dom] can be used, none of them is taken for the length *)
Record usable_keys : Prop := {
  k_type : forall k, dom k -> has_type kt k = true;
  k_key : forall k, dom k -> exists bs, to_bytes kt k = Ok bs /\ okkey (join_key p bs) /\ bs <> _LENGTH_KEY;
  k_length_key : okkey (length_key p);
  k_length : forall n, (n <= max)%nat -> fits VarUint32NCType (VInt (Z.of_nat n))
}.

Hypothesis U : usable_keys.

Definition dkey (k : value) : bytes := match to_db_key kt p k with Ok b => b | Err _ => [] end.

Lemma dkey_bytes k : dom k -> exists bs, to_bytes kt k = Ok bs /\ dkey k = join_key p bs /\ to_db_key kt p k = Ok (dkey k).
Proof. intros D. destruct (k_key U k D) as (bs & E & _). exists bs. unfold dkey, to_db_key. by rewrite E. Qed.

Lemma dkey_ok k : dom k -> to_db_key kt p k = Ok (dkey k) /\ okkey (dkey k) /\ dkey k <> length_key p.
Proof.
  intros D. destruct (dkey_bytes k D) as (bs & E & -> & ->). destruct (k_key U k D) as (bs' & E' & Hk & N).
  rewrite E in E'. injection E' as <-. split_and!; [done|done|]. intros F. by apply join_key_inj in F.
Qed.

Lemma dkey_inj k k' : dom k -> dom k' -> dkey k = dkey k' -> k = k'.
Proof.
  intros D D' E. destruct (dkey_bytes k D) as (bs & Eb & Kb & _), (dkey_bytes k' D') as (bs' & Eb' & Kb' & _).
  rewrite Kb, Kb' in E. apply join_key_inj in E. subst bs'. eapply to_bytes_inj; [by apply U..|done|done].
Qed.

(** the entries under the prefix, and their number *)
Record table (st : instance_ S) (l : list (value * value)) : Prop := {
  tb_ready : ready (inv := inv) (unlocked := unlocked) st;
  tb_dom : Forall dom (map fst l);
  tb_nodup : NoDup (map fst l);
  tb_at : forall k v, (k, v) ∈ l -> so_has_obj (i_storage st) (dkey k) = Ok true /\ stored st (dkey k) vt v /\ coherent st (dkey k) v;
  tb_out : forall k, dom k -> k ∉ map fst l -> so_has_obj (i_storage st) (dkey k) = Ok false /\ cached st (dkey k) = None /\
    forall d, so_get_obj (i_storage st) (dkey k) vt d = with_default d
}.

Definition length_at (st : instance_ S) (n : nat) : Prop := stored st (length_key p) VarUint32NCType (VInt (Z.of_nat n)).

Lemma table_keys st l k v : table st l -> (k, v) ∈ l -> dom k /\ k ∈ map fst l.
Proof.
  intros T Hin. assert (k ∈ map fst l) as H by (apply list_elem_of_fmap; by exists (k, v)).
  split; [|done]. by apply (proj1 (Forall_forall _ _) (tb_dom _ _ T)).
Qed.

(** a key was given a new value, or was removed *)
Lemma table_change st st' l l' k : table st l -> dom k -> ready (inv := inv) (unlocked := unlocked) st' -> only (okkey := okkey) (dkey k) st st' ->
  Forall dom (map fst l') -> NoDup (map fst l') ->
  (forall k' v', (k', v') ∈ l' -> k' <> k -> (k', v') ∈ l) -> (forall k', k' <> k -> k' ∈ map fst l -> k' ∈ map fst l') ->
  (forall v', (k, v') ∈ l' -> so_has_obj (i_storage st') (dkey k) = Ok true /\ stored st' (dkey k) vt v' /\ coherent st' (dkey k) v') ->
  (k ∉ map fst l' -> so_has_obj (i_storage st') (dkey k) = Ok false /\ cached st' (dkey k) = None /\
     forall d, so_get_obj (i_storage st') (dkey k) vt d = with_default d) ->
  table st' l'.
Proof.
  intros T D R [Ho1 Ho2] Hd Hn Hsub Hsup Hin Hout. constructor; try done.
  - intros k' v' Hk'. destruct (decide (dkey k' = dkey k)) as [E|N].
    + assert (dom k') as D' by (apply (proj1 (Forall_forall _ _) Hd); apply list_elem_of_fmap; by exists (k', v')).
      apply dkey_inj in E; [|done|done]. subst k'. by apply Hin.
    + assert (k' <> k) as Nk by congruence. apply Hsub in Hk'; [|done]. destruct (table_keys _ _ _ _ T Hk') as [D' _].
      destruct (tb_at _ _ T k' v' Hk') as (H1 & H2 & H3). destruct (dkey_ok k' D') as (_ & Hok & _).
      destruct (Ho1 (dkey k') (conj Hok N)) as [E1 E2]. unfold stored, coherent. rewrite E1, E2, Ho2 by done. done.
  - intros k' D' Nk'. destruct (decide (dkey k' = dkey k)) as [E|N].
    + apply dkey_inj in E; [|done|done]. subst k'. by apply Hout.
    + assert (k' <> k) as Nk by congruence. destruct (tb_out _ _ T k' D') as (H1 & H2 & H3); [intros H; by apply Nk', Hsup|].
      destruct (dkey_ok k' D') as (_ & Hok & _). destruct (Ho1 (dkey k') (conj Hok N)) as [E1 E2].
      rewrite E1, Ho2 by done. split_and!; [done|done|]. intros d. by rewrite E2.
Qed.

Lemma length_only st st' k n : dom k -> only (okkey := okkey) (dkey k) st st' -> length_at st n -> length_at st' n.
Proof.
  intros D Ho H. eapply only_stored; [exact Ho|apply U| |exact H]. intros E. by apply (dkey_ok k D).
Qed.

(** ** Lengths *)

Lemma get_length_ok st n : length_at st n -> __get_length p st = (Ok (Z.of_nat n), st).
Proof. intros H. unfold __get_length, bind, get_obj, read_storage. unfold length_at, stored in H. by rewrite H. Qed.

Lemma put_length_ok st l n : table st l -> (n <= max)%nat ->
  exists st', put_obj (length_key p) VarUint32NCType (VInt (Z.of_nat n)) st = (Ok tt, st') /\ table st' l /\ length_at st' n /\ i_cache st' = i_cache st.
Proof.
  intros T Hn. destruct (put_obj_ok (SL := SL) (length_key p) VarUint32NCType (VInt (Z.of_nat n)) st) as (st' & E & R & Hs & [Ho1 Ho2] & Ec);
    [apply T|apply U|by apply U|]. exists st'. split; [done|]. split; [|done].
  assert (forall k, cached st' k = cached st k) as Hc by (intros k; unfold cached; by rewrite Ec). constructor; try apply T; try done.
  - intros k v Hk. destruct (table_keys _ _ _ _ T Hk) as [D _]. destruct (dkey_ok k D) as (_ & Hok & N).
    destruct (tb_at _ _ T k v Hk) as (H1 & H2 & H3). destruct (Ho1 (dkey k) (conj Hok N)) as [E1 E2].
    unfold stored, coherent. by rewrite E1, E2, Hc.
  - intros k D Nk. destruct (tb_out _ _ T k D Nk) as (H1 & H2 & H3). destruct (dkey_ok k D) as (_ & Hok & N).
    destruct (Ho1 (dkey k) (conj Hok N)) as [E1 E2]. rewrite E1, Hc. split_and!; [done|done|]. intros d. by rewrite E2.
Qed.

Lemma increase_ok st l n : table st l -> length_at st n -> (n < max)%nat ->
  exists st', __increase_length p st = (Ok tt, st') /\ table st' l /\ length_at st' (Datatypes.S n) /\ i_cache st' = i_cache st.
Proof.
  intros T H Hn. unfold __increase_length. rewrite (bind_ok _ _ _ _ _ (get_length_ok st n H)).
  replace (Z.of_nat n + 1) with (Z.of_nat (Datatypes.S n)) by lia. by apply put_length_ok.
Qed.

Lemma decrease_ok st l n : table st l -> length_at st (Datatypes.S n) -> (Datatypes.S n <= max)%nat ->
  exists st', __decrease_length p st = (Ok tt, st') /\ table st' l /\ length_at st' n /\ i_cache st' = i_cache st.
Proof.
  intros T H Hn. unfold __decrease_length. rewrite (bind_ok _ _ _ _ _ (get_length_ok st _ H)).
  assert (0 <? Z.of_nat (Datatypes.S n) = true) as -> by (apply Z.ltb_lt; lia). unfold bind, py_assert, ret.
  replace (Z.of_nat (Datatypes.S n) - 1) with (Z.of_nat n) by lia. apply put_length_ok; [done|lia].
Qed.
(** ** Changes of a table *)

Lemma table_put_old st l1 l2 k v w st' : table st (l1 ++ (k, v) :: l2) -> ready (inv := inv) (unlocked := unlocked) st' ->
  only (okkey := okkey) (dkey k) st st' -> so_has_obj (i_storage st') (dkey k) = Ok true -> stored st' (dkey k) vt w ->
  coherent st' (dkey k) w -> table st' (l1 ++ (k, w) :: l2).
Proof.
  intros T R Ho Hh Hs Hc. pose proof (tb_nodup _ _ T) as Hn. pose proof (tb_dom _ _ T) as Hd.
  destruct (table_keys _ _ k v T) as [D _]; [apply elem_of_app; right; left|].
  assert (map fst (l1 ++ (k, w) :: l2) = map fst (l1 ++ (k, v) :: l2)) as Em by (rewrite !map_app; done).
  eapply (table_change st st' _ _ k T D R Ho); rewrite ?Em; try done.
  - intros k' v'. rewrite !elem_of_app, !elem_of_cons. naive_solver.
  - intros v' Hv'. assert (v' = w) as ->; [|done]. apply elem_of_app in Hv' as [Hv'|[Hv'|Hv']%elem_of_cons].
    + exfalso. rewrite map_app in Hn. apply NoDup_app in Hn as (_ & Hn & _). apply (Hn k); [apply list_elem_of_fmap; by exists (k, v')|left].
    + congruence.
    + exfalso. rewrite map_app in Hn. apply NoDup_app in Hn as (_ & _ & Hn). simpl in Hn. apply NoDup_cons in Hn as [Hn _].
      apply Hn, list_elem_of_fmap. by exists (k, v').
  - intros N. exfalso. apply N. rewrite map_app. apply elem_of_app. right. left.
Qed.

Lemma table_put_new st l k v st' : table st l -> dom k -> k ∉ map fst l -> ready (inv := inv) (unlocked := unlocked) st' ->
  only (okkey := okkey) (dkey k) st st' -> so_has_obj (i_storage st') (dkey k) = Ok true -> stored st' (dkey k) vt v ->
  coherent st' (dkey k) v -> table st' (l ++ [(k, v)]).
Proof.
  intros T D N R Ho Hh Hs Hc. eapply (table_change st st' _ _ k T D R Ho); rewrite ?map_app; simpl.
  - apply Forall_app. split; [apply T|by constructor].
  - apply NoDup_app. split_and!; [apply T| |apply NoDup_singleton]. intros x Hx ->%list_elem_of_singleton. done.
  - intros k' v' [?|Hk']%elem_of_app Nk; [done|]. apply list_elem_of_singleton in Hk'. congruence.
  - intros k' Nk Hk'. apply elem_of_app. by left.
  - intros v' [Hv'|Hv']%elem_of_app; [exfalso; apply N, list_elem_of_fmap; by exists (k, v')|].
    apply list_elem_of_singleton in Hv'. by injection Hv' as ->.
  - intros Nk. exfalso. apply Nk, elem_of_app. right. left.
Qed.

Lemma table_del st l1 l2 k v st' : table st (l1 ++ (k, v) :: l2) -> ready (inv := inv) (unlocked := unlocked) st' ->
  only (okkey := okkey) (dkey k) st st' -> gone st' (dkey k) -> cached st' (dkey k) = None -> table st' (l1 ++ l2).
Proof.
  intros T R Ho [Hh Hg] Hc. pose proof (tb_nodup _ _ T) as Hn. pose proof (tb_dom _ _ T) as Hd.
  destruct (table_keys _ _ k v T) as [D _]; [apply elem_of_app; right; left|]. rewrite map_app in Hn, Hd. simpl in Hn, Hd.
  assert (k ∉ map fst (l1 ++ l2)) as Nk.
  { rewrite map_app, elem_of_app. apply NoDup_app in Hn as (_ & H1 & [H2 _]%NoDup_cons). intros [H|H]; [|done]. apply (H1 k H). left. }
  eapply (table_change st st' _ _ k T D R Ho).
  - rewrite map_app. apply Forall_app in Hd as [? [_ ?]%Forall_cons]. by apply Forall_app.
  - rewrite map_app. apply NoDup_app in Hn as (H1 & H2 & [_ H3]%NoDup_cons). apply NoDup_app. split_and!; [done| |done].
    intros x Hx Hx2. apply (H2 x Hx). by right.
  - intros k' v'. rewrite !elem_of_app, elem_of_cons. naive_solver.
  - intros k' N'. rewrite !map_app. simpl. rewrite !elem_of_app, elem_of_cons. naive_solver.
  - intros v' Hv'. exfalso. apply Nk, list_elem_of_fmap. by exists (k, v').
  - intros _. by split_and!.
Qed.

(** whether a key is there, as the storage and as the cache tell *)
Lemma table_decide st l k : table st l -> dom k ->
  (exists v l1 l2, l = l1 ++ (k, v) :: l2 /\ so_has_obj (i_storage st) (dkey k) = Ok true) \/
  (k ∉ map fst l /\ so_has_obj (i_storage st) (dkey k) = Ok false).
Proof.
  intros T D. destruct (decide (dkey k ∈ map (fun e => dkey (fst e)) l)) as [Hin|Hout].
  - left. apply list_elem_of_fmap in Hin as ([k' v] & E & Hin). destruct (table_keys _ _ _ _ T Hin) as [D' _].
    simpl in E. apply dkey_inj in E; [|done|done]. subst k'. destruct (tb_at _ _ T k v Hin) as (Hh & _).
    apply list_elem_of_split in Hin as (l1 & l2 & ->). by exists v, l1, l2.
  - right. assert (k ∉ map fst l) as N.
    { intros H. apply Hout. apply list_elem_of_fmap in H as ([k' v] & E & H). simpl in E. subst k'. apply list_elem_of_fmap. by exists (k, v). }
    split; [done|]. by apply (tb_out _ _ T).
Qed.

(** the storage was not changed, the cache only at a coherent key *)
Lemma table_read st l1 l2 k v st' : table st (l1 ++ (k, v) :: l2) -> ready (inv := inv) (unlocked := unlocked) st' ->
  i_storage st' = i_storage st -> (forall k', k' <> dkey k -> cached st' k' = cached st k') -> coherent st' (dkey k) v ->
  table st' (l1 ++ (k, v) :: l2).
Proof.
  intros T R Es Hc Hk. destruct (tb_at _ _ T k v) as (H1 & H2 & _); [apply elem_of_app; right; left|].
  eapply (table_put_old st l1 l2 k v v st' T R); [split; [|done]|..]; unfold stored; rewrite ?Es; try done.
Qed.

(** ** Dictionaries of values *)

Abbreviation node := (ContainerLeaf vt).

(** the dictionary under [p] has the entries of [l], and room for [m] more *)
Definition dict_rep (st : instance_ S) (m : nat) (l : list (value * value)) : Prop :=
  table st l /\ length_at st (length l) /\ (length l + m <= max)%nat.

Lemma contains_ok st l k : table st l -> dom k ->
  exists b : bool, dict_contains kt node p k st = (Ok b, st) /\ b = bool_decide (dkey k ∈ map (fun e => dkey (fst e)) l).
Proof.
  intros T D. eexists. split; [|done]. unfold dict_contains, bind, lift. rewrite (proj1 (dkey_ok k D)). simpl. unfold bind, cache_get.
  fold (cached st (dkey k)). case_bool_decide as Hin.
  - apply list_elem_of_fmap in Hin as ([k' v] & E & Hin). destruct (table_keys _ _ _ _ T Hin) as [D' _]. simpl in E.
    apply dkey_inj in E; [|done|done]. subst k'. destruct (tb_at _ _ T k v Hin) as (Hh & _ & [Hc|Hc]); rewrite Hc; [|done].
    unfold has_obj, read_storage. by rewrite Hh.
  - destruct (tb_out _ _ T k D) as (Hh & Hc & _); [|rewrite Hc; unfold has_obj, read_storage; by rewrite Hh].
    intros H. apply Hin. apply list_elem_of_fmap in H as ([k' v] & E & H). simpl in E. subst k'. apply list_elem_of_fmap. by exists (k, v).
Qed.

(** a key is there or not, and [in] says so *)
Lemma contains_cases st l k : table st l -> dom k ->
  (exists v l1 l2, l = l1 ++ (k, v) :: l2 /\ dict_contains kt node p k st = (Ok true, st)) \/
  (k ∉ map fst l /\ dict_contains kt node p k st = (Ok false, st)).
Proof.
  intros T D. destruct (contains_ok st l k T D) as (b & E & Hb). rewrite E. case_bool_decide as Hin; subst b.
  - left. apply list_elem_of_fmap in Hin as ([k' v] & Ek & Hin). destruct (table_keys _ _ _ _ T Hin) as [D' _]. simpl in Ek.
    apply dkey_inj in Ek; [|done|done]. subst k'. apply list_elem_of_split in Hin as (l1 & l2 & ->). by exists v, l1, l2.
  - right. split; [|done]. intros H. apply Hin. apply list_elem_of_fmap in H as ([k' v] & Ek & H). simpl in Ek. subst k'.
    apply list_elem_of_fmap. by exists (k, v).
Qed.

Lemma getitem_present st m l1 l2 k v : dict_rep st m (l1 ++ (k, v) :: l2) ->
  exists st', dict_getitem kt node p k st = (Ok (Val v), st') /\ dict_rep st' m (l1 ++ (k, v) :: l2).
Proof.
  intros (T & L & Hm). assert ((k, v) ∈ l1 ++ (k, v) :: l2) as Hin by (apply elem_of_app; right; left).
  destruct (table_keys _ _ _ _ T Hin) as [D _], (tb_at _ _ T k v Hin) as (_ & Hs & Hc).
  destruct (leaf_get_ok (unlocked := unlocked) (inv := inv) (dkey k) vt v st (tb_ready _ _ T) Hs Hc) as (st' & E & R & Es & Ho & Hc').
  exists st'. unfold dict_getitem, bind, lift. rewrite (proj1 (dkey_ok k D)). unfold try_raise. rewrite E.
  split; [done|]. split_and!; [by eapply table_read| |done]. unfold length_at, stored. by rewrite Es.
Qed.

Lemma getitem_missing st l k : table st l -> dom k -> k ∉ map fst l -> dict_getitem kt node p k st = (Err KeyError, st).
Proof.
  intros T D N. destruct (tb_out _ _ T k D N) as (_ & Hc & Hg). unfold dict_getitem, bind, lift. rewrite (proj1 (dkey_ok k D)).
  unfold try_raise. simpl. unfold bind, cache_get. fold (cached st (dkey k)). rewrite Hc. unfold get_obj, read_storage. by rewrite Hg.
Qed.

Lemma keys_app (l1 l2 : list (value * value)) k v : k ∈ map fst (l1 ++ (k, v) :: l2).
Proof. rewrite map_app. apply elem_of_app. right. left. Qed.

(** the entries that the keys other than [k] have in [l] *)
Definition others (k : value) (l l' : list (value * value)) : Prop :=
  forall k' v', k' <> k -> (k', v') ∈ l' <-> (k', v') ∈ l.

Lemma nodup_key (l1 l2 : list (value * value)) k v w : NoDup (map fst (l1 ++ (k, v) :: l2)) -> (k, w) ∈ l1 ++ (k, v) :: l2 -> w = v.
Proof.
  rewrite map_app. intros (_ & H1 & [H2 _]%NoDup_cons)%NoDup_app [H|[H|H]%elem_of_cons]%elem_of_app; [|congruence|].
  - exfalso. apply (H1 k); [apply list_elem_of_fmap; by exists (k, w)|left].
  - exfalso. apply H2, list_elem_of_fmap. by exists (k, w).
Qed.

Lemma setitem_ok st m l k v : dict_rep st (Datatypes.S m) l -> dom k -> fits vt v ->
  exists st' l', dict_setitem kt node p k v st = (Ok tt, st') /\ dict_rep st' m l' /\ others k l l' /\ (forall w, (k, w) ∈ l' <-> w = v).
Proof.
  intros (T & L & Hm) D Hf. destruct (dkey_ok k D) as (Ek & Hok & Nl). unfold dict_setitem. unfold bind at 1, lift. rewrite Ek.
  destruct (contains_cases st l k T D) as [(w & l1 & l2 & -> & E)|[N E]]; rewrite (bind_ok _ _ _ _ _ E).
  - unfold bind at 1, ret. destruct (leaf_set_ok (SL := SL) (dkey k) vt v st (tb_ready _ _ T) Hok Hf) as (st' & E' & R & Hs & Ho & Hc).
    exists st', (l1 ++ (k, v) :: l2). split; [done|].
    assert (table st' (l1 ++ (k, v) :: l2)) as T'.
    { eapply table_put_old; try done. eapply leaf_set_has; [apply T|done|done|done]. }
    split; [split; [done|split]|split].
    + rewrite length_app in *. eapply length_only; [exact D|exact Ho|exact L].
    + rewrite length_app in *. simpl in *. lia.
    + intros k' v' Nk. rewrite !elem_of_app, !elem_of_cons. naive_solver.
    + intros w'. split; [|intros ->; apply elem_of_app; right; left]. apply (nodup_key l1 l2 k v w'), T'.
  - destruct (increase_ok st l (length l) T L) as (s1 & E1 & T1 & L1 & _); [lia|]. rewrite (bind_ok _ _ _ _ _ E1).
    destruct (leaf_set_ok (SL := SL) (dkey k) vt v s1 (tb_ready _ _ T1) Hok Hf) as (st' & E' & R & Hs & Ho & Hc).
    exists st', (l ++ [(k, v)]). split; [done|].
    assert (table st' (l ++ [(k, v)])) as T'.
    { eapply table_put_new; try done. eapply leaf_set_has; [apply T1|done|done|done]. }
    split; [split; [done|split]|split].
    + rewrite length_app. simpl. rewrite Nat.add_1_r. eapply length_only; [exact D|exact Ho|exact L1].
    + rewrite length_app. simpl. lia.
    + intros k' v' Nk. rewrite elem_of_app, list_elem_of_singleton. naive_solver.
    + intros w'. split; [|intros ->; apply elem_of_app; right; left]. apply (nodup_key l [] k v w'), T'.
Qed.

(** an assignment to a new key whose value the storage refuses fails, keeps the entries, and
    counts one entry too many: the length is increased before the value is stored *)
Lemma setitem_rejected st m l k v e : dict_rep st (Datatypes.S m) l -> dom k -> k ∉ map fst l ->
  (forall s, inv s -> unlocked s -> so_put_obj (dkey k) vt v s = (Err e, s)) ->
  exists st', dict_setitem kt node p k v st = (Err e, st') /\ table st' l /\ length_at st' (Datatypes.S (length l)).
Proof.
  intros (T & L & Hm) D N Hput. destruct (dkey_ok k D) as (Ek & _). unfold dict_setitem. unfold bind at 1, lift. rewrite Ek.
  destruct (contains_cases st l k T D) as [(w & l1 & l2 & -> & _)|[_ E]]; [by destruct N; rewrite map_app; apply elem_of_app; right; left|].
  rewrite (bind_ok _ _ _ _ _ E). destruct (increase_ok st l (length l) T L) as (s1 & E1 & T1 & L1 & _); [lia|].
  rewrite (bind_ok _ _ _ _ _ E1). exists s1. split; [|done]. destruct (tb_ready _ _ T1) as (Hi & Hu & _).
  cbn. unfold bind, put_obj, on_storage. rewrite (Hput _ Hi Hu). by destruct s1.
Qed.

Lemma delitem_ok st m l k : dict_rep st m l -> dom k ->
  exists st' l', dict_delitem kt node p k st = (Ok tt, st') /\ dict_rep st' m l' /\ others k l l' /\ k ∉ map fst l'.
Proof.
  intros (T & L & Hm) D. destruct (dkey_ok k D) as (Ek & Hok & Nl). unfold dict_delitem. unfold bind at 1, lift. rewrite Ek.
  destruct (contains_cases st l k T D) as [(w & l1 & l2 & -> & E)|[N E]]; rewrite (bind_ok _ _ _ _ _ E); [|by exists st, l].
  cbn [negb]. destruct (leaf_del_ok (SL := SL) (dkey k) vt st (tb_ready _ _ T) Hok) as (s1 & E1 & R & Ho & Hc).
  assert (gone s1 (dkey k)) as G by (eapply leaf_del_gone; [apply T|done|done]).
  pose proof (table_del _ _ _ _ _ _ T R Ho G Hc) as T1. unfold bind at 1, try_raise. rewrite E1.
  rewrite length_app in L, Hm. simpl in L, Hm.
  assert (length_at s1 (Datatypes.S (length (l1 ++ l2)))) as L1.
  { rewrite length_app, plus_n_Sm. eapply length_only; [exact D|exact Ho|exact L]. }
  destruct (decrease_ok s1 (l1 ++ l2) (length (l1 ++ l2)) T1 L1) as (st' & E' & T' & L' & _); [rewrite length_app; lia|].
  exists st', (l1 ++ l2). split; [done|]. split; [split; [done|split; [done|rewrite length_app; lia]]|]. split.
  - intros k' v' Nk. rewrite !elem_of_app, elem_of_cons. naive_solver.
  - pose proof (tb_nodup _ _ T) as Hn. rewrite map_app in *. apply NoDup_app in Hn as (_ & H1 & [H2 _]%NoDup_cons).
    rewrite elem_of_app. intros [H|H]; [|done]. apply (H1 k H). left.
Qed.

End table.

(** ** What the operations of a dictionary and of a set do *)

Inductive dict_op : Type :=
| KContains (k : value) | KGetitem (k : value) | KSetitem (k v : value) | KDelitem (k : value)
| KGet (k d : value) | KUpdate (items : list (value * value)) | KLen.

Definition dict_run {S} `{!StorageOps S} (kt : nc_type) (node : ContainerNode S) (p : bytes) (op : dict_op) : M (instance_ S) deque_out :=
  match op with
  | KContains k => let! b := dict_contains kt node p k in ret (OInt (Z.b2z b))
  | KGetitem k => let! x := dict_getitem kt node p k in ret (OItem x)
  | KSetitem k v => dict_setitem kt node p k v ;;; ret ONone
  | KDelitem k => dict_delitem kt node p k ;;; ret ONone
  | KGet k d => let! x := dict_get kt node p k d in ret (OItem x)
  | KUpdate items => dict_update kt node p items ;;; ret ONone
  | KLen => let! n := __get_length p in ret (OInt n)
  end.

(** the entry of one key was assigned, the others were kept *)
Definition assigned (k v : value) (l l' : list (value * value)) : Prop :=
  others k l l' /\ forall w, (k, w) ∈ l' <-> w = v.

(** the entries [l'] a dictionary with the entries [l] has after an operation, and its result *)
Definition dict_spec (op : dict_op) (l : list (value * value)) (r : result deque_out) (l' : list (value * value)) : Prop :=
  match op with
  | KContains k => l' = l /\ (k ∈ map fst l /\ r = Ok (OInt 1) \/ k ∉ map fst l /\ r = Ok (OInt 0))
  | KGetitem k => l' = l /\ ((exists v, (k, v) ∈ l /\ r = Ok (OItem (Val v))) \/ k ∉ map fst l /\ r = Err KeyError)
  | KSetitem k v => r = Ok ONone /\ assigned k v l l'
  | KDelitem k => r = Ok ONone /\ others k l l' /\ k ∉ map fst l'
  | KGet k d => l' = l /\ ((exists v, (k, v) ∈ l /\ r = Ok (OItem (Val v))) \/ k ∉ map fst l /\ r = Ok (OItem (Val d)))
  | KUpdate items => r = Ok ONone /\
      (fix updated items l := match items with
       | [] => l' = l
       | (k, v) :: items => exists l1, assigned k v l l1 /\ updated items l1
       end) items l
  | KLen => l' = l /\ r = Ok (OInt (Z.of_nat (length l)))
  end.

(** the entries an operation writes, and the keys it uses *)
Definition dict_written (op : dict_op) : list (value * value) :=
  match op with KSetitem k v => [(k, v)] | KUpdate items => items | _ => [] end.
Definition dict_keys (op : dict_op) : list value :=
  match op with
  | KContains k | KGetitem k | KDelitem k | KGet k _ | KSetitem k _ => [k]
  | KUpdate items => map fst items
  | KLen => []
  end.

Section dict_refinement.
Context {S : Type} `{!StorageOps S} {inv unlocked : S -> Prop} {okkey : bytes -> Prop} {fits : nc_type -> value -> Prop}.
Context {okval : Z -> Prop} {oktoken : TokenDescription -> Prop} {okbp : bytes -> Prop}.
Context {SL : StorageLaws S inv unlocked okkey fits okval oktoken okbp}.
Context (kt vt : nc_type) (p : bytes) (dom : value -> Prop) (max : nat).
Context (U : usable_keys (okkey := okkey) (fits := fits) kt p dom max).

Abbreviation dict_rep := (dict_rep (inv := inv) (unlocked := unlocked) kt vt p dom max).
Abbreviation node := (ContainerLeaf vt).

Lemma dict_rep_keys st m l : dict_rep st m l -> NoDup (map fst l).
Proof. intros (T & _). apply T. Qed.

Lemma update_ok items : forall st m l, dict_rep st (m + length items) l -> Forall dom (map fst items) -> Forall (fits vt) (map snd items) ->
  exists st' l', dict_update kt node p items st = (Ok tt, st') /\ dict_rep st' m l' /\ dict_spec (KUpdate items) l (Ok ONone) l'.
Proof.
  induction items as [|[k v] items IH]; intros st m l H Hd Hf; simpl in *.
  - exists st, l. by rewrite Nat.add_0_r in H.
  - apply Forall_cons in Hd as [D Hd]. apply Forall_cons in Hf as [F Hf]. rewrite <- plus_n_Sm in H.
    destruct (setitem_ok kt vt p dom max U st _ l k v H D F) as (s1 & l1 & E1 & H1 & A1).
    destruct (IH s1 m l1 H1 Hd Hf) as (st' & l' & E' & H' & _ & A'). exists st', l'. split_and!; [|done|done|].
    + unfold dict_update. simpl. unfold bind at 1. rewrite E1. exact E'.
    + by exists l1.
Qed.

(** a new dictionary is empty *)
Lemma dict_init_ok st : ready (inv := inv) (unlocked := unlocked) st ->
  (forall k, dom k -> cached st (dkey kt p k) = None /\ gone st (dkey kt p k)) ->
  exists st', dict_init_storage kt node p VNone st = (Ok tt, st') /\ dict_rep st' max [].
Proof.
  intros R Hc. destruct (put_length_ok kt vt p dom max U st [] 0) as (st' & E & T & L & _); [|lia|].
  - constructor; try done; [constructor|by intros ? ? ?%elem_of_nil|]. intros k D _. destruct (Hc k D) as (? & ? & ?). by split_and!.
  - unfold dict_init_storage. rewrite (bind_ok _ _ _ _ _ E). exists st'. split; [done|]. by split_and!.
Qed.

(** C13: Every operation of a dictionary of values does what the one of a Python dictionary
    does, over any storage that keeps the storage's laws, with or without a cache of
    attributes, as long as the keys are taken from a set of keys none of which is stored
    where the length is, the number of entries stays below a bound that the type of the
    length holds, and every value that is written is one the storage accepts for the type of
    the values.  Deleting a key that is missing does nothing.  An assignment to a new key
    of a value that the storage refuses raises the storage's error and keeps the entries, but,
    unlike in Python, leaves a length that is one too high. *)
Theorem dict_refines_mapping op st m l :
  dict_rep st (m + length (dict_written op)) l -> Forall dom (dict_keys op) ->
  (Forall (fits vt) (map snd (dict_written op)) ->
   exists st' r l', dict_run kt node p op st = (r, st') /\ dict_rep st' m l' /\ dict_spec op l r l') /\
  (forall k v e, op = KSetitem k v -> k ∉ map fst l -> (forall s, inv s -> unlocked s -> so_put_obj (dkey kt p k) vt v s = (Err e, s)) ->
   exists st', dict_run kt node p op st = (Err e, st') /\ table (inv := inv) (unlocked := unlocked) kt vt p dom st' l /\
     length_at p st' (Datatypes.S (length l))).
Proof.
  intros H0 Hd0. split; [revert H0 Hd0; rename op into op0|intros k v e -> N Hput].
  2:{ simpl in H0. rewrite Nat.add_1_r in H0. apply Forall_inv in Hd0.
      destruct (setitem_rejected kt vt p dom max U st m l k v e H0 Hd0 N Hput) as (st' & E & T & L). exists st'.
      unfold dict_run, bind. by rewrite E. }
  destruct op0 as [k|k|k v|k|k d|items|]; simpl; intros H Hd Hf; try apply Forall_inv in Hd; try rewrite Nat.add_0_r in H.
  - destruct (contains_cases kt vt p dom max U st l k (proj1 H) Hd) as [(v & l1 & l2 & -> & E)|[N E]]; unfold bind; rewrite E;
      eexists _, _, _; (split_and!; [done|done|done|]); [left; split; [apply keys_app|done]|by right].
  - destruct (contains_cases kt vt p dom max U st l k (proj1 H) Hd) as [(v & l1 & l2 & -> & _)|[N _]]; unfold bind.
    + destruct (getitem_present kt vt p dom max U st m l1 l2 k v H) as (st' & E & H'). rewrite E.
      eexists _, _, _. split_and!; [done|done|done|left; exists v; split; [apply elem_of_app; right; left|done]].
    + rewrite (getitem_missing kt vt p dom max U st l k (proj1 H) Hd N). eexists _, _, _. split_and!; [done|done|done|by right].
  - apply Forall_inv in Hf. rewrite Nat.add_1_r in H. destruct (setitem_ok kt vt p dom max U st m l k v H Hd Hf) as (st' & l' & E & H' & A).
    rewrite (bind_ok _ _ _ _ _ E). by eexists _, _, _.
  - destruct (delitem_ok kt vt p dom max U st m l k H Hd) as (st' & l' & E & H' & A). rewrite (bind_ok _ _ _ _ _ E). by eexists _, _, _.
  - unfold dict_get.
    destruct (contains_cases kt vt p dom max U st l k (proj1 H) Hd) as [(v & l1 & l2 & -> & Ec)|[N Ec]]; unfold bind; rewrite Ec.
    + destruct (getitem_present kt vt p dom max U st m l1 l2 k v H) as (st' & E & H'). rewrite E.
      eexists _, _, _. split_and!; [done|done|done|left; exists v; split; [apply elem_of_app; right; left|done]].
    + eexists _, _, _. split_and!; [done|done|done|by right].
  - destruct (update_ok items st m l H Hd Hf) as (st' & l' & E & H' & A). rewrite (bind_ok _ _ _ _ _ E). by eexists _, _, _.
  - unfold bind. rewrite (get_length_ok p st (length l) (proj1 (proj2 H))). by eexists _, _, _.
Qed.
End dict_refinement.

Inductive set_op : Type :=
| SContains (x : value) | SAdd (x : value) | SDiscard (x : value) | SRemove (x : value) | SLen
| SUpdate (others : list (list value)) | SDifferenceUpdate (others : list (list value))
| SIssuperset (other : list value) | SIsdisjoint (other : list value) | SIntersection (other : list value).

Definition set_run {S} `{!StorageOps S} (t : nc_type) (p : bytes) (op : set_op) : M (instance_ S) deque_out :=
  match op with
  | SContains x => let! b := set_contains t p x in ret (OInt (Z.b2z b))
  | SAdd x => set_add t p x ;;; ret ONone
  | SDiscard x => set_discard t p x ;;; ret ONone
  | SRemove x => set_remove t p x ;;; ret ONone
  | SLen => let! n := __get_length p in ret (OInt n)
  | SUpdate others => set_update t p others ;;; ret ONone
  | SDifferenceUpdate others => set_difference_update t p others ;;; ret ONone
  | SIssuperset other => let! b := set_issuperset t p other in ret (OInt (Z.b2z b))
  | SIsdisjoint other => let! b := set_isdisjoint t p other in ret (OInt (Z.b2z b))
  | SIntersection other => let! l := set_intersection t p other in ret (OItems (map Val l))
  end.

(** the elements an operation uses, and those of them it may add *)
Definition set_elems (op : set_op) : list value :=
  match op with
  | SContains x | SAdd x | SDiscard x | SRemove x => [x]
  | SLen => []
  | SUpdate others | SDifferenceUpdate others => concat others
  | SIssuperset other | SIsdisjoint other | SIntersection other => other
  end.
Definition set_written (op : set_op) : list value :=
  match op with SAdd x => [x] | SUpdate others => concat others | _ => [] end.

(** a Python truth value that says whether [P] holds *)
Definition says (r : result deque_out) (P : Prop) : Prop := P /\ r = Ok (OInt 1) \/ ~ P /\ r = Ok (OInt 0).

(** the members [l'] a set with the members [l] has after an operation, and its result *)
Definition set_spec (op : set_op) (l : list value) (r : result deque_out) (l' : list value) : Prop :=
  match op with
  | SContains x => l' = l /\ says r (x ∈ l)
  | SAdd x => r = Ok ONone /\ forall y, y ∈ l' <-> y ∈ l \/ y = x
  | SDiscard x => r = Ok ONone /\ forall y, y ∈ l' <-> y ∈ l /\ y <> x
  | SRemove x => x ∈ l /\ r = Ok ONone /\ (forall y, y ∈ l' <-> y ∈ l /\ y <> x) \/ x ∉ l /\ r = Err KeyError /\ l' = l
  | SLen => l' = l /\ r = Ok (OInt (Z.of_nat (length l)))
  | SUpdate others => r = Ok ONone /\ forall y, y ∈ l' <-> y ∈ l \/ y ∈ concat others
  | SDifferenceUpdate others => r = Ok ONone /\ forall y, y ∈ l' <-> y ∈ l /\ y ∉ concat others
  | SIssuperset other => l' = l /\ says r (forall y, y ∈ other -> y ∈ l)
  | SIsdisjoint other => l' = l /\ says r (forall y, y ∈ other -> y ∉ l)
  | SIntersection other => l' = l /\ exists found, r = Ok (OItems (map Val found)) /\ forall y, y ∈ found <-> y ∈ other /\ y ∈ l
  end.

Section set_refinement.
Context {S : Type} `{!StorageOps S} {inv unlocked : S -> Prop} {okkey : bytes -> Prop} {fits : nc_type -> value -> Prop}.
Context {okval : Z -> Prop} {oktoken : TokenDescription -> Prop} {okbp : bytes -> Prop}.
Context {SL : StorageLaws S inv unlocked okkey fits okval oktoken okbp}.
Context (t : nc_type) (p : bytes) (dom : value -> Prop) (max : nat).
Context (U : usable_keys (okkey := okkey) (fits := fits) t p dom max).

Abbreviation table := (table (inv := inv) (unlocked := unlocked) t t p dom).
Abbreviation dkey := (dkey t p).

Definition twice (l : list value) : list (value * value) := map (fun x => (x, x)) l.

Lemma twice_keys l : map fst (twice l) = l.
Proof. unfold twice. rewrite map_map. apply map_id. Qed.

(** the set under [p] has the members [l], each once, and room for [m] more; its members
    are not in the cache *)
Definition set_rep (st : instance_ S) (m : nat) (l : list value) : Prop :=
  table st (twice l) /\ length_at p st (length l) /\ (length l + m <= max)%nat /\ forall x, dom x -> cached st (dkey x) = None.

Lemma set_rep_nodup st m l : set_rep st m l -> NoDup l.
Proof. intros (T & _). rewrite <- (twice_keys l). apply T. Qed.

Lemma set_rep_less st m l : set_rep st (Datatypes.S m) l -> set_rep st m l.
Proof. intros (T & L & Hm & Hc). split_and!; try done. lia. Qed.

Lemma set_has st m l x : set_rep st m l -> dom x ->
  (exists l1 l2, l = l1 ++ x :: l2 /\ so_has_obj (i_storage st) (dkey x) = Ok true) \/
  (x ∉ l /\ so_has_obj (i_storage st) (dkey x) = Ok false).
Proof.
  intros (T & _) D. destruct (table_decide t t p dom max U st (twice l) x T D) as [(v & l1 & l2 & E & Hh)|[N Hh]].
  - left. apply (f_equal (map fst)) in E as Ek. rewrite twice_keys, map_app in Ek. simpl in Ek. by exists (map fst l1), (map fst l2).
  - right. by rewrite twice_keys in N.
Qed.

Lemma set_contains_ok st m l x : set_rep st m l -> dom x ->
  (x ∈ l /\ set_contains t p x st = (Ok true, st)) \/ (x ∉ l /\ set_contains t p x st = (Ok false, st)).
Proof.
  intros H D. unfold set_contains, bind, lift, has_obj, read_storage. rewrite (proj1 (dkey_ok t p dom max U x D)).
  destruct (set_has st m l x H D) as [(l1 & l2 & -> & ->)|[N ->]]; [left; split; [apply elem_of_app; right; left|done]|by right].
Qed.

Lemma set_add_ok st m l x : set_rep st (Datatypes.S m) l -> dom x -> fits t x ->
  exists st' l', set_add t p x st = (Ok tt, st') /\ set_rep st' m l' /\ forall y, y ∈ l' <-> y ∈ l \/ y = x.
Proof.
  intros H D F. destruct (dkey_ok t p dom max U x D) as (Ek & Hok & _). unfold set_add, bind at 1, lift. rewrite Ek.
  unfold bind at 1, has_obj, read_storage. destruct (set_has st _ l x H D) as [(l1 & l2 & -> & ->)|[N ->]].
  { exists st, (l1 ++ x :: l2). split_and!; [done|by apply set_rep_less|]. intros y. rewrite !elem_of_app, elem_of_cons. naive_solver. }
  destruct H as (T & L & Hm & Hc).
  destruct (put_obj_ok (SL := SL) (dkey x) t x st (tb_ready _ _ _ _ _ _ T) Hok F) as (s1 & E1 & R1 & Hs & Ho & Ec). rewrite (bind_ok _ _ _ _ _ E1).
  assert (forall k, cached s1 k = cached st k) as Hc1 by (intros k; unfold cached; by rewrite Ec).
  assert (table s1 (twice (l ++ [x]))) as T1.
  { unfold twice. rewrite map_app. eapply table_put_new; try done.
    - by rewrite twice_keys.
    - eapply put_obj_has; [apply T|done|done|done].
    - left. rewrite Hc1. by apply Hc. }
  assert (length_at p s1 (length l)) as L1 by (eapply length_only; [exact U|exact D|exact Ho|exact L]).
  destruct (increase_ok t t p dom max U s1 _ (length l) T1 L1) as (st' & E' & T' & L' & Ec'); [lia|]. exists st', (l ++ [x]). split; [done|].
  assert (Datatypes.S (length l) = length (l ++ [x])) as El by (rewrite length_app; simpl; lia). rewrite El in L'. split; [split_and!; [done|done| |]|].
  - rewrite length_app. simpl. lia.
  - intros y Dy. rewrite <- (Hc y Dy), <- Hc1. unfold cached. by rewrite Ec'.
  - intros y. by rewrite elem_of_app, list_elem_of_singleton.
Qed.

(** the common part of [discard] and [remove] *)
Lemma set_take st m l1 l2 x : set_rep st m (l1 ++ x :: l2) ->
  exists st', (del_obj (dkey x) ;;; __decrease_length p) st = (Ok tt, st') /\ set_rep st' m (l1 ++ l2) /\
    forall y, y ∈ l1 ++ l2 <-> y ∈ l1 ++ x :: l2 /\ y <> x.
Proof.
  intros H. pose proof (set_rep_nodup _ _ _ H) as Hn. destruct H as (T & L & Hm & Hc).
  assert (dom x) as D. { pose proof (tb_dom _ _ _ _ _ _ T) as Hd. rewrite twice_keys in Hd. apply Forall_app in Hd as [_ Hd]. by apply Forall_inv in Hd. }
  destruct (dkey_ok t p dom max U x D) as (_ & Hok & _).
  destruct (del_obj_ok (SL := SL) (dkey x) st (tb_ready _ _ _ _ _ _ T) Hok) as (s1 & E1 & R1 & Ho & Ec & G). rewrite (bind_ok _ _ _ _ _ E1).
  assert (forall k, cached s1 k = cached st k) as Hc1 by (intros k; unfold cached; by rewrite Ec).
  assert (table s1 (twice (l1 ++ l2))) as T1.
  { unfold twice. rewrite map_app. eapply table_del; try done; [|rewrite Hc1; by apply Hc]. unfold twice in T. rewrite map_app in T. exact T. }
  rewrite length_app in L, Hm. simpl in L, Hm. rewrite <- plus_n_Sm, <- length_app in L. rewrite <- plus_n_Sm, <- length_app in Hm.
  assert (length_at p s1 (Datatypes.S (length (l1 ++ l2)))) as L1 by (eapply length_only; [exact U|exact D|exact Ho|exact L]).
  destruct (decrease_ok t t p dom max U s1 _ _ T1 L1) as (st' & E' & T' & L' & Ec'); [lia|]. exists st'. split; [done|].
  split; [split_and!; [done|done|lia|]|].
  - intros y Dy. rewrite <- (Hc y Dy), <- Hc1. unfold cached. by rewrite Ec'.
  - intros y. apply NoDup_app in Hn as (_ & H1 & [H2 _]%NoDup_cons). rewrite !elem_of_app, elem_of_cons.
    split; [|naive_solver]. intros Hy. split; [naive_solver|]. intros ->. destruct Hy as [Hy|Hy]; [|done]. apply (H1 x Hy). left.
Qed.

Lemma set_discard_ok st m l x : set_rep st m l -> dom x ->
  exists st' l', set_discard t p x st = (Ok tt, st') /\ set_rep st' m l' /\ forall y, y ∈ l' <-> y ∈ l /\ y <> x.
Proof.
  intros H D. unfold set_discard, bind at 1, lift. rewrite (proj1 (dkey_ok t p dom max U x D)). unfold bind at 1, has_obj, read_storage.
  destruct (set_has st _ l x H D) as [(l1 & l2 & -> & ->)|[N ->]]; cbn [negb].
  - destruct (set_take st m l1 l2 x H) as (st' & E & H'). by exists st', (l1 ++ l2).
  - exists st, l. split_and!; [done|done|]. intros y. naive_solver.
Qed.

Lemma set_remove_ok st m l x : set_rep st m l -> dom x ->
  exists st' r l', set_remove t p x st = (r, st') /\ set_rep st' m l' /\
    (x ∈ l /\ r = Ok tt /\ (forall y, y ∈ l' <-> y ∈ l /\ y <> x) \/ x ∉ l /\ r = Err KeyError /\ l' = l).
Proof.
  intros H D. unfold set_remove, bind at 1, lift. rewrite (proj1 (dkey_ok t p dom max U x D)). unfold bind at 1, has_obj, read_storage.
  destruct (set_has st _ l x H D) as [(l1 & l2 & -> & ->)|[N ->]]; cbn [negb].
  - destruct (set_take st m l1 l2 x H) as (st' & E & H' & Hy). exists st', (Ok tt), (l1 ++ l2). split_and!; [done|done|].
    left. split_and!; [apply elem_of_app; right; left|done|done].
  - exists st, (Err KeyError), l. split_and!; [done|done|]. by right.
Qed.

Lemma set_update_ok others : forall st m l, set_rep st (m + length (concat others)) l -> Forall dom (concat others) -> Forall (fits t) (concat others) ->
  exists st' l', set_update t p others st = (Ok tt, st') /\ set_rep st' m l' /\ forall y, y ∈ l' <-> y ∈ l \/ y ∈ concat others.
Proof.
  assert (forall xs st m l, set_rep st (m + length xs) l -> Forall dom xs -> Forall (fits t) xs ->
    exists st' l', for_each xs (set_add t p) st = (Ok tt, st') /\ set_rep st' m l' /\ forall y, y ∈ l' <-> y ∈ l \/ y ∈ xs) as Hone.
  { induction xs as [|x xs IH]; intros st m l H Hd Hf; simpl in *.
    - exists st, l. rewrite Nat.add_0_r in H. split_and!; [done|done|]. intros y. rewrite elem_of_nil. naive_solver.
    - apply Forall_cons in Hd as [D Hd]. apply Forall_cons in Hf as [F Hf]. rewrite <- plus_n_Sm in H.
      destruct (set_add_ok st _ l x H D F) as (s1 & l1 & E1 & H1 & A1). rewrite (bind_ok _ _ _ _ _ E1).
      destruct (IH s1 m l1 H1 Hd Hf) as (st' & l' & E' & H' & A'). exists st', l'. split_and!; [done|done|]. intros y.
      rewrite A', A1, elem_of_cons. naive_solver. }
  unfold set_update. induction others as [|xs others IH]; intros st m l H Hd Hf; simpl in *.
  - exists st, l. rewrite Nat.add_0_r in H. split_and!; [done|done|]. intros y. rewrite elem_of_nil. naive_solver.
  - apply Forall_app in Hd as [D Hd]. apply Forall_app in Hf as [F Hf].
    destruct (Hone xs st (m + length (concat others))%nat l) as (s1 & l1 & E1 & H1 & A1); [|done|done|].
    { rewrite length_app in H. by replace (m + length (concat others) + length xs)%nat with (m + (length xs + length (concat others)))%nat by lia. }
    rewrite (bind_ok _ _ _ _ _ E1). destruct (IH s1 m l1 H1 Hd Hf) as (st' & l' & E' & H' & A'). exists st', l'. split_and!; [done|done|].
    intros y. rewrite A', A1, elem_of_app. naive_solver.
Qed.

Lemma set_difference_ok others : forall st m l, set_rep st m l -> Forall dom (concat others) ->
  exists st' l', set_difference_update t p others st = (Ok tt, st') /\ set_rep st' m l' /\ forall y, y ∈ l' <-> y ∈ l /\ y ∉ concat others.
Proof.
  assert (forall xs st m l, set_rep st m l -> Forall dom xs ->
    exists st' l', for_each xs (set_discard t p) st = (Ok tt, st') /\ set_rep st' m l' /\ forall y, y ∈ l' <-> y ∈ l /\ y ∉ xs) as Hone.
  { induction xs as [|x xs IH]; intros st m l H Hd; simpl in *.
    - exists st, l. split_and!; [done|done|]. intros y. rewrite elem_of_nil. naive_solver.
    - apply Forall_cons in Hd as [D Hd]. destruct (set_discard_ok st _ l x H D) as (s1 & l1 & E1 & H1 & A1). rewrite (bind_ok _ _ _ _ _ E1).
      destruct (IH s1 m l1 H1 Hd) as (st' & l' & E' & H' & A'). exists st', l'. split_and!; [done|done|]. intros y.
      rewrite A', A1, elem_of_cons. naive_solver. }
  unfold set_difference_update. induction others as [|xs others IH]; intros st m l H Hd; simpl in *.
  - exists st, l. split_and!; [done|done|]. intros y. rewrite elem_of_nil. naive_solver.
  - apply Forall_app in Hd as [D Hd]. destruct (Hone xs st m l H D) as (s1 & l1 & E1 & H1 & A1).
    rewrite (bind_ok _ _ _ _ _ E1). destruct (IH s1 m l1 H1 Hd) as (st' & l' & E' & H' & A'). exists st', l'. split_and!; [done|done|].
    intros y. rewrite A', A1, elem_of_app. naive_solver.
Qed.

Lemma set_intersection_ok st m l other : set_rep st m l -> Forall dom other ->
  exists found, set_intersection t p other st = (Ok found, st) /\ forall y, y ∈ found <-> y ∈ other /\ y ∈ l.
Proof.
  intros H. induction 1 as [|x other D Hd IH]; simpl.
  - exists []. split; [done|]. intros y. rewrite elem_of_nil. naive_solver.
  - destruct IH as (found & E & Hy). destruct (set_contains_ok st m l x H D) as [[Hx Ec]|[Hx Ec]]; rewrite (bind_ok _ _ _ _ _ Ec), (bind_ok _ _ _ _ _ E).
    + exists (x :: found). split; [done|]. intros y. rewrite !elem_of_cons, Hy. naive_solver.
    + exists found. split; [done|]. intros y. rewrite elem_of_cons, Hy. naive_solver.
Qed.

Lemma set_issuperset_ok st m l other : set_rep st m l -> Forall dom other ->
  ((forall y, y ∈ other -> y ∈ l) /\ set_issuperset t p other st = (Ok true, st)) \/
  (~ (forall y, y ∈ other -> y ∈ l) /\ set_issuperset t p other st = (Ok false, st)).
Proof.
  intros H. induction 1 as [|x other D Hd IH]; simpl.
  - left. split; [|done]. by intros y ?%elem_of_nil.
  - destruct (set_contains_ok st m l x H D) as [[Hx Ec]|[Hx Ec]]; rewrite (bind_ok _ _ _ _ _ Ec).
    + destruct IH as [[Hy E]|[Hy E]]; rewrite E; [left|right]; (split; [|done]).
      * intros y [->|Hin]%elem_of_cons; auto.
      * intros F. apply Hy. intros y Hin. apply F. by right.
    + right. split; [|done]. intros F. apply Hx, F. left.
Qed.

(** a new set is empty *)
Lemma set_init_ok st : ready (inv := inv) (unlocked := unlocked) st ->
  (forall x, dom x -> cached st (dkey x) = None /\ gone st (dkey x)) ->
  exists st', set_init_storage t p VNone st = (Ok tt, st') /\ set_rep st' max [].
Proof.
  intros R Hc. destruct (put_length_ok t t p dom max U st [] 0) as (st' & E & T & L & Ec); [|lia|].
  - constructor; try done; [constructor|by intros ? ? ?%elem_of_nil|]. intros k D _. destruct (Hc k D) as (? & ? & ?). by split_and!.
  - unfold set_init_storage. rewrite (bind_ok _ _ _ _ _ E). exists st'. split; [done|]. split_and!; try done.
    intros x D. unfold cached. rewrite Ec. by apply Hc.
Qed.

(** C14: Every operation of a set does what the one of a Python set does, over any storage
    that keeps the storage's laws, as long as the elements are taken from a set of values
    none of which is stored where the length is.  [len] is the number of members. *)
Theorem set_refines_set op st m l :
  set_rep st (m + length (set_written op)) l -> Forall dom (set_elems op) -> Forall (fits t) (set_written op) ->
  exists st' r l', set_run t p op st = (r, st') /\ set_rep st' m l' /\ NoDup l' /\ set_spec op l r l'.
Proof.
  intros H Hd Hf. assert (exists st' r l', set_run t p op st = (r, st') /\ set_rep st' m l' /\ set_spec op l r l') as (st' & r & l' & E & H' & A);
    [|exists st', r, l'; split_and!; try done; by eapply set_rep_nodup].
  destruct op as [x|x|x|x| |others|others|other|other|other]; simpl in *; try apply Forall_inv in Hd as D; try rewrite Nat.add_0_r in H.
  - destruct (set_contains_ok st m l x H D) as [[Hx E]|[Hx E]]; rewrite (bind_ok _ _ _ _ _ E); eexists _, _, _; (split_and!; [done|done|done|]);
      [by left|by right].
  - apply Forall_inv in Hf. rewrite Nat.add_1_r in H. destruct (set_add_ok st m l x H D Hf) as (st' & l' & E & H' & A).
    rewrite (bind_ok _ _ _ _ _ E). by eexists _, _, _.
  - destruct (set_discard_ok st m l x H D) as (st' & l' & E & H' & A). rewrite (bind_ok _ _ _ _ _ E). by eexists _, _, _.
  - destruct (set_remove_ok st m l x H D) as (st' & r & l' & E & H' & [(Hx & -> & A)|(Hx & -> & ->)]); unfold bind; rewrite E; eexists _, _, _;
      (split_and!; [done|done|]); [by left|by right].
  - unfold bind. rewrite (get_length_ok p st (length l) (proj1 (proj2 H))). by eexists _, _, _.
  - destruct (set_update_ok others st m l H Hd Hf) as (st' & l' & E & H' & A). rewrite (bind_ok _ _ _ _ _ E). by eexists _, _, _.
  - destruct (set_difference_ok others st m l H Hd) as (st' & l' & E & H' & A). rewrite (bind_ok _ _ _ _ _ E). by eexists _, _, _.
  - destruct (set_issuperset_ok st m l other H Hd) as [[Hx E]|[Hx E]]; rewrite (bind_ok _ _ _ _ _ E); eexists _, _, _; (split_and!; [done|done|done|]);
      [by left|by right].
  - destruct (set_intersection_ok st m l other H Hd) as (found & E & Hy). unfold set_isdisjoint, bind. rewrite E.
    eexists _, _, _. split_and!; [done|done|done|]. destruct found as [|y found]; [left|right]; (split; [|done]).
    + intros y Ho Hl. by apply (not_elem_of_nil y), Hy.
    + intros F. destruct (proj1 (Hy y)) as [Ho Hl]; [left|]. by apply (F y).
  - destruct (set_intersection_ok st m l other H Hd) as (found & E & Hy). rewrite (bind_ok _ _ _ _ _ E).
    eexists _, _, _. split_and!; [done|done|done|]. by exists found.
Qed.
End set_refinement.
