(* ===== verification/FieldsClaims.v ===== *)
(** Containers at work: concrete attributes over a tracker, and what goes wrong with keys
    that look like the length and with the cache of a call that is interrupted by another. *)

From stdpp Require Import base list gmap strings.
From Stdlib Require Import ZArith Lia Strings.Byte.
From S2P Require Import Prelude PyInt PyValue NCTypes NCTypeTheory NCTypeSafety PatriciaTrie NodeStore TrieHash NodeStoreTheory TrieClaims BlockStorage BlockStorageTheory.
From S2P Require Import ContractStorage StorageInterface ContractStorageTheory ChangesTracker ChangesTrackerTheory TrackerNesting.
From S2P Require Import Fields DequeTheory TableTheory.

Local Open Scope Z_scope.
Local Open Scope py_scope.

(** * Attributes do not share keys *)

(** the keys of an attribute: its name, or what its container puts under it *)
Definition key_of (name k : bytes) : Prop := k = name \/ exists rest, k = join_key name rest.

(** names are identifiers, which have no [":"] *)
Lemma attributes_apart name name' k : Byte.x3a ∉ name -> Byte.x3a ∉ name' -> key_of name k -> key_of name' k -> name = name'.
Proof.
  assert (forall n r n' r', Byte.x3a ∉ n -> Byte.x3a ∉ n' -> n ++ Byte.x3a :: r = n' ++ Byte.x3a :: r' -> n = n') as Hcut.
  { induction n as [|c n IH]; intros r [|c' n'] r' N N' E; simpl in *.
    - done.
    - injection E as E _. exfalso. apply N'. rewrite <- E. left.
    - injection E as E _. exfalso. apply N. rewrite E. left.
    - injection E as -> E. f_equal. apply (IH r n' r'); [|..|done]; intros H; [apply N|apply N']; by right. }
  unfold key_of, join_key, KEY_SEPARATOR. change (zb [58]) with [Byte.x3a].
  intros N N' [->|[r ->]] [E|[r' E]]; simpl in *.
  - done.
  - exfalso. apply N. rewrite E. apply elem_of_app. right. left.
  - exfalso. apply N'. rewrite <- E. apply elem_of_app. right. left.
  - by apply (Hcut name r name' r').
Qed.

(** * Attributes of a call over an empty contract *)

Section demo.
#[local] Existing Instance demo_ops.
#[local] Existing Instance demo_laws.

Abbreviation CS := (contract_storage (gmap bytes bytes)).

Definition demo_instance : instance_ (tracker CS) := mkInstance (tracker_init demo_nc demo_contract) (Some []).

Definition demo_field : bytes := demo_bytes [100].

Lemma demo_tracker_fresh : twf (inv := cinv demo_hash demo_content rocksdb_valid) (okkey := anykey) (fits := cs_fits demo_content)
    (oktoken := cs_oktoken demo_content) (okbp := cs_okbp demo_content) (tracker_init demo_nc demo_contract).
Proof.
  constructor.
  - exact demo_cinv.
  - apply NoDup_nil_2.
  - constructor.
  - apply NoDup_nil_2.
  - constructor.
  - apply NoDup_nil_2.
  - constructor.
  - apply NoDup_nil_2.
  - constructor.
  - intros b [=].
Qed.

Abbreviation demo_fits := (cs_fits demo_content).
Abbreviation demo_wf := (twf (inv := cinv demo_hash demo_content rocksdb_valid) (okkey := anykey) (fits := demo_fits)
  (oktoken := cs_oktoken demo_content) (okbp := cs_okbp demo_content)).
Abbreviation demo_open := (tr_open (unlocked := cs_unlocked)).

Lemma demo_ready : ready (inv := demo_wf) (unlocked := demo_open) demo_instance.
Proof. split; [exact demo_tracker_fresh|]. split; [|apply NoDup_nil_2]. split; [split; reflexivity|reflexivity]. Qed.

(** a value fits when it has its type and its bytes are those of a content *)
Lemma fits_bytes t v l : has_type t v = true -> _serialize v (Some t) = Ok (demo_bytes l) ->
  forallb (fun z => (0 <=? z) && (z <? 255)) l = true -> match l with [] => false | z :: _ => z <? 48 end = true -> demo_fits t v.
Proof. intros Ht E H1 H2. split; [done|]. exists (demo_bytes l). split; [done|]. by apply demo_content_ok. Qed.

(** the numbers from -3 to 3 *)
Lemma small_cases (P : Z -> Prop) : P (-3) -> P (-2) -> P (-1) -> P 0 -> P 1 -> P 2 -> P 3 -> forall i, -3 <= i <= 3 -> P i.
Proof.
  intros. assert (i = -3 \/ i = -2 \/ i = -1 \/ i = 0 \/ i = 1 \/ i = 2 \/ i = 3) as Hi by lia.
  by repeat (destruct Hi as [->|Hi]; [done|]); subst.
Qed.

Lemma small_int i : -3 <= i <= 3 -> demo_fits VarInt32NCType (VInt i).
Proof.
  intros Hi. apply (fits_bytes _ _ [1; i mod 128]); revert i Hi; apply small_cases; vm_compute; reflexivity.
Qed.

Lemma demo_usable : usable (okkey := anykey) (fits := demo_fits) demo_field (-3) 3.
Proof.
  split.
  - lia.
  - intros i Hi. exists (join_key demo_field (demo_bytes [i mod 128])). split; [|done].
    assert (-3 <= i <= 3) as Hi' by lia. clear Hi. revert i Hi'. apply small_cases; vm_compute; reflexivity.
  - done.
  - intros f n r Hf Hn Hfn. apply (fits_bytes _ _ [1; f mod 128; n mod 128; Z.b2z r]);
      (assert (-3 <= f <= 3) as Hf' by lia; assert (-3 <= n - 3 <= 3) as Hn' by lia; replace n with (n - 3 + 3) by lia;
       generalize dependent (n - 3); intros k Hk; clear n Hn Hfn Hf;
       revert f Hf' k Hk; apply (small_cases (fun f => forall k, -3 <= k <= 3 -> _)); apply small_cases; destruct r; vm_compute; reflexivity).
Qed.

Definition small (v : value) : Prop := exists i, v = VInt i /\ -3 <= i <= 3.

Lemma demo_usable_keys : usable_keys (okkey := anykey) (fits := demo_fits) VarInt32NCType demo_field small 3.
Proof.
  split.
  - intros k (i & -> & Hi). revert i Hi. apply small_cases; reflexivity.
  - intros k (i & -> & Hi). exists (demo_bytes [i mod 128]). split_and!; [|done|]; revert i Hi; apply small_cases; by vm_compute.
  - done.
  - intros n Hn. apply (fits_bytes _ _ [1; Z.of_nat n]); do 4 (destruct n as [|n]; [by vm_compute|]); lia.
Qed.

Lemma demo_no_entry k : small k -> cached demo_instance (dkey VarInt32NCType demo_field k) = None /\
  gone demo_instance (dkey VarInt32NCType demo_field k).
Proof.
  intros (i & -> & Hi). split; [done|]. unfold gone. split; [|intros t d]; revert i Hi; apply small_cases; vm_compute; try reflexivity;
    by destruct d as [[]|].
Qed.

Lemma small_ok l : forallb (fun i => (-3 <=? i) && (i <=? 3)) l = true -> Forall small (map VInt l) /\ Forall (demo_fits VarInt32NCType) (map VInt l).
Proof.
  intros H%Is_true_true_2%forallb_True. split; apply Forall_map; (eapply Forall_impl; [exact H|]); intros i Hi%Is_true_true; simpl in *.
  - exists i. split; [done|lia].
  - apply small_int. lia.
Qed.

Lemma deque_refines_list_witness :
  exists st st' : instance_ (tracker CS), deque_run (ContainerLeaf VarInt32NCType) demo_field (DExtend [VInt 1; VInt 2]) st = (Ok ONone, st') /\
    exists st'', deque_run (ContainerLeaf VarInt32NCType) demo_field DPop st' = (Ok (OItem (Val (VInt 2))), st'').
Proof.
  destruct (deque_init_ok (SL := tracker_laws) VarInt32NCType demo_field (-3) 3 demo_usable demo_instance 3 demo_ready)
    as (st & _ & R); [lia|lia|done|]. exists st.
  destruct (deque_refines_list VarInt32NCType demo_field (-3) 3 demo_usable (DExtend [VInt 1; VInt 2]) st 1 [] R) as (st' & E & R');
    [apply (small_ok [1; 2]); reflexivity|]. exists st'. split; [exact E|].
  destruct (deque_refines_list VarInt32NCType demo_field (-3) 3 demo_usable DPop st' 1 [VInt 1; VInt 2] R') as (st'' & E' & _); [constructor|].
  by exists st''.
Defined.

Lemma dict_refines_mapping_witness :
  exists (st st' : instance_ (tracker CS)) r, dict_run VarInt32NCType (ContainerLeaf VarInt32NCType) demo_field (KSetitem (VInt 1) (VInt 2)) st = (r, st') /\ r = Ok ONone /\
    exists st'' r', dict_run VarInt32NCType (ContainerLeaf VarInt32NCType) demo_field (KGetitem (VInt 1)) st' = (r', st'') /\
      r' = Ok (OItem (Val (VInt 2))).
Proof.
  destruct (dict_init_ok (SL := tracker_laws) VarInt32NCType VarInt32NCType demo_field small 3 demo_usable_keys demo_instance demo_ready demo_no_entry)
    as (st & _ & R). exists st.
  destruct (dict_refines_mapping VarInt32NCType VarInt32NCType demo_field small 3 demo_usable_keys (KSetitem (VInt 1) (VInt 2)) st 2 [] R)
    as [A _]; [apply (small_ok [1]); reflexivity|].
  destruct A as (st' & r & l' & E & R' & -> & Ho & Hv); [apply (small_ok [2]); reflexivity|].
  exists st', (Ok ONone). split_and!; [exact E|done|].
  destruct (dict_refines_mapping VarInt32NCType VarInt32NCType demo_field small 3 demo_usable_keys (KGetitem (VInt 1)) st' 2 l' R')
    as [A _]; [apply (small_ok [1]); reflexivity|].
  destruct A as (st'' & r' & l'' & E' & _ & _ & [(v & Hin & ->)|[N _]]); [constructor| |].
  - exists st'', (Ok (OItem (Val v))). split; [exact E'|]. by rewrite (proj1 (Hv v) Hin).
  - exfalso. apply N, list_elem_of_fmap. exists (VInt 1, VInt 2). split; [done|]. by apply Hv.
Defined.

Lemma set_refines_set_witness :
  exists (st st' : instance_ (tracker CS)) r, set_run VarInt32NCType demo_field (SUpdate [[VInt 1; VInt 2]; [VInt 1]]) st = (r, st') /\ r = Ok ONone /\
    exists st'' r', set_run VarInt32NCType demo_field (SContains (VInt 2)) st' = (r', st'') /\ r' = Ok (OInt 1).
Proof.
  destruct (set_init_ok (SL := tracker_laws) VarInt32NCType demo_field small 3 demo_usable_keys demo_instance demo_ready demo_no_entry)
    as (st & _ & R). exists st.
  destruct (set_refines_set VarInt32NCType demo_field small 3 demo_usable_keys (SUpdate [[VInt 1; VInt 2]; [VInt 1]]) st 0 [] R)
    as (st' & r & l' & E & R' & _ & -> & Hy); [apply (small_ok [1; 2; 1]); reflexivity|apply (small_ok [1; 2; 1]); reflexivity|].
  exists st', (Ok ONone). split_and!; [exact E|done|].
  destruct (set_refines_set VarInt32NCType demo_field small 3 demo_usable_keys (SContains (VInt 2)) st' 0 l' R')
    as (st'' & r' & l'' & E' & _ & _ & _ & [[_ ->]|[N _]]); [apply (small_ok [2]); reflexivity|constructor| |].
  - by exists st'', (Ok (OInt 1)).
  - exfalso. apply N, Hy. right. simpl. right. left.
Defined.

(** * Where containers differ from Python's *)

(** the tuple that is written as the ten bytes of ["__length__"] *)
Definition length_lookalike : value := VTuple (map VInt [-33; -33; -20; -27; -18; -25; -12; -24; -33; -33]).

Definition ten_ints : nc_type := TupleNCType (repeat VarInt32NCType 10).

Lemma lookalike_key : to_bytes ten_ints length_lookalike = Ok _LENGTH_KEY /\ has_type ten_ints length_lookalike = true /\ is_hashable ten_ints = true.
Proof. by vm_compute. Qed.

(** a set that was just made has this member, and removing it takes the length away *)
Lemma set_mistakes_length :
  let made := set_init_storage ten_ints demo_field VNone demo_instance in
  fst made = Ok tt /\
  fst (set_contains ten_ints demo_field length_lookalike (snd made)) = Ok true /\
  fst (set_run ten_ints demo_field SLen (snd made)) = Ok (OInt 0) /\
  fst (set_discard ten_ints demo_field length_lookalike (snd made)) = Err KeyError.
Proof. split_and!; vm_compute; reflexivity. Qed.

(** in a dictionary an assignment to this key sets the length *)
Lemma dict_overwrites_length :
  let used := (dict_init_storage ten_ints (ContainerLeaf VarInt32NCType) demo_field VNone ;;;
    dict_setitem ten_ints (ContainerLeaf VarInt32NCType) demo_field length_lookalike (VInt 5)) demo_instance in
  fst used = Ok tt /\ fst (dict_run ten_ints (ContainerLeaf VarInt32NCType) demo_field KLen (snd used)) = Ok (OInt 5).
Proof. split; vm_compute; reflexivity. Qed.

(** an assignment that the storage refuses, here of a string in a dictionary of integers, counts *)
Lemma dict_counts_refused :
  let used := (dict_init_storage VarInt32NCType (ContainerLeaf VarInt32NCType) demo_field VNone ;;;
    dict_setitem VarInt32NCType (ContainerLeaf VarInt32NCType) demo_field (VInt 1) (VStr [65])) demo_instance in
  fst used = Err TypeError /\ fst (dict_run VarInt32NCType (ContainerLeaf VarInt32NCType) demo_field KLen (snd used)) = Ok (OInt 1).
Proof. split; vm_compute; reflexivity. Qed.

(** what is cached is not read from the storage again *)
Lemma cached_value_stays {S} `{!StorageOps S} t k v (s s' : S) d : od_get d k = Some (Val v) ->
  get_value (ContainerLeaf t) k (mkInstance s' (Some d)) = (Ok (Val v), mkInstance s' (Some d)).
Proof. intros H. simpl. unfold bind, cache_get. simpl. by rewrite H. Qed.

(** a call sets an attribute to 1; a call within it, which has a tracker over the first
    one's and a cache of its own, sets it to 2 and is committed; the first call still sees
    1, while its storage has 2 *)
Definition inner_call (t : tracker CS) : tracker CS :=
  let '(_, st) := field_set (FLeaf VarInt32NCType) demo_field (VInt 2) (mkInstance (tracker_init demo_nc t) (Some [])) in
  storage (snd (tr_commit (i_storage st))).

Lemma inner_call_unseen :
  let before := field_set (FLeaf VarInt32NCType) demo_field (VInt 1) demo_instance in
  let after := mkInstance (inner_call (i_storage (snd before))) (i_cache (snd before)) in
  fst before = Ok tt /\ fst (field_get (FLeaf VarInt32NCType) demo_field after) = Ok (Val (VInt 1)) /\
  tr_get_obj (i_storage after) demo_field VarInt32NCType None = Ok (VInt 2).
Proof. split_and!; vm_compute; reflexivity. Qed.
End demo.
