(* ===== verification/PyFloat.v ===== *)
(** Python's floats, as far as token amounts use them: [int] to [float]
    conversion, multiplication, [abs], [math.ceil] and [math.floor] on IEEE binary64
    numbers ([SpecFloat] of the Standard Library), with the rounding-error bound of the
    multiplication, and the two functions of [hathor/transaction/util.py] that price the
    creation and the melting of deposit-based tokens. *)

From stdpp Require Import base list.
From Stdlib Require Import ZArith Lia Zpow_facts Floats.SpecFloat.
From S2P Require Import Prelude.

Local Open Scope Z_scope.
Local Open Scope py_scope.

(** * Floats *)

Definition prec : Z := 53.
Definition emax : Z := 1024.

(** [float(n)]: rounded to nearest, ties to even; too large an integer raises *)
Definition float_of_int (n : Z) : result spec_float :=
  match binary_normalize prec emax n 0 false with
  | S754_infinity _ => Err OverflowError
  | f => Ok f
  end.

Definition float_mul : spec_float -> spec_float -> spec_float := SFmul prec emax.

(** the integer part of [m * 2 ** e], rounded down or up *)
Definition scaled_floor (m e : Z) : Z := if 0 <=? e then m * 2 ^ e else m / 2 ^ (- e).
Definition scaled_ceil (m e : Z) : Z := - scaled_floor (- m) e.

(** [math.floor] and [math.ceil] *)
Definition float_to_int (round : Z -> Z -> Z) (f : spec_float) : result Z :=
  match f with
  | S754_zero _ => Ok 0
  | S754_infinity _ => Err OverflowError
  | S754_nan => Err ValueError
  | S754_finite s m e => Ok (round (if s then Z.neg m else Z.pos m) e)
  end.

Definition float_floor : spec_float -> result Z := float_to_int scaled_floor.
Definition float_ceil : spec_float -> result Z := float_to_int scaled_ceil.

(** the literal [0.01] *)
Definition float_0_01 : spec_float := S754_finite false 5764607523034235 (-59).

(** * [hathor/transaction/util.py] *)

Definition get_deposit_token_deposit_amount (percentage : spec_float) (mint_amount : Z) : result Z :=
  let? f := float_of_int mint_amount in
  float_ceil (SFabs (float_mul percentage f)).

Definition get_deposit_token_withdraw_amount (percentage : spec_float) (melt_amount : Z) : result Z :=
  let? f := float_of_int melt_amount in
  float_floor (SFabs (float_mul percentage f)).

(** * Rounding *)

(** [shifted X k mrs]: [mrs] is [X] shifted right by [k] bits, with the two bits that say
    how the bits dropped compare to half a unit *)
Definition shifted (X k : Z) (mrs : shr_record) : Prop :=
  0 <= k /\ 0 <= shr_m mrs /\
  exists rest, X = shr_m mrs * 2 ^ k + rest /\ 0 <= rest /\
    match shr_r mrs, shr_s mrs with
    | false, false => rest = 0
    | false, true => 0 < 2 * rest < 2 ^ k
    | true, false => 2 * rest = 2 ^ k
    | true, true => 2 ^ k < 2 * rest < 2 * 2 ^ k
    end.

Lemma shr_1_div m r s : 0 <= m ->
  shr_1 (Build_shr_record m r s) = Build_shr_record (m / 2) (Z.odd m) (r || s).
Proof.
  intros H. rewrite <- Z.div2_div. by destruct m as [|[p|p|]|p]; try lia.
Qed.

Lemma shr_1_shifted X k mrs : shifted X k mrs -> shifted X (k + 1) (shr_1 mrs).
Proof.
  destruct mrs as [m r s]. intros (Hk & Hm & rest & -> & Hr & Hc). cbn [shr_m shr_r shr_s] in *.
  rewrite shr_1_div by done. split; [lia|]. cbn [shr_m shr_r shr_s]. split; [apply Z.div_pos; lia|].
  exists ((m mod 2) * 2 ^ k + rest).
  pose proof (Z.div_mod m 2 ltac:(lia)) as Hd. rewrite Z.pow_add_r by lia. change (2 ^ 1) with 2.
  assert (0 < 2 ^ k) by (apply Z.pow_pos_nonneg; lia).
  rewrite Zmod_odd in *. split; [rewrite Hd at 1; lia|].
  destruct (Z.odd m); simpl; destruct r, s; simpl in *; lia.
Qed.

Lemma iter_pos_iter {A} (f : A -> A) p x : iter_pos f p x = Pos.iter f x p.
Proof.
  revert x. induction p as [p IH|p IH|]; intros x; simpl; rewrite ?IH; try done.
  - rewrite <- Pos.iter_swap. f_equal. by rewrite Pos.iter_swap.
Qed.

Lemma iter_shr_shifted X mrs p : shifted X 0 mrs -> shifted X (Z.pos p) (iter_pos shr_1 p mrs).
Proof.
  intros H. rewrite iter_pos_iter. induction p using Pos.peano_ind.
  - simpl. by apply (shr_1_shifted X 0).
  - rewrite Pos.iter_succ, Pos2Z.inj_succ. by apply (shr_1_shifted X (Z.pos p)).
Qed.

Lemma shifted_exact X : 0 <= X -> shifted X 0 (shr_record_of_loc X loc_Exact).
Proof. intros H. split; [lia|]. simpl. split; [done|]. exists 0. lia. Qed.

Lemma shr_spec X e n : 0 <= X -> 0 <= n ->
  exists mrs, shr (shr_record_of_loc X loc_Exact) e n = (mrs, e + n) /\ shifted X n mrs.
Proof.
  intros HX Hn. destruct n as [|p|p]; [| |lia].
  - eexists. split; [by rewrite Z.add_0_r|by apply shifted_exact].
  - eexists. split; [done|]. by apply iter_shr_shifted, shifted_exact.
Qed.

(** rounding to nearest is off by at most half a unit *)
Lemma round_half X k mrs : shifted X k mrs ->
  let R := round_nearest_even (shr_m mrs) (loc_of_shr_record mrs) in
  shr_m mrs <= R <= shr_m mrs + 1 /\ - 2 ^ k <= 2 * (R * 2 ^ k - X) <= 2 ^ k.
Proof.
  destruct mrs as [m r s]. intros (Hk & Hm & rest & -> & Hr & Hc). simpl in *.
  assert (0 < 2 ^ k) by (apply Z.pow_pos_nonneg; lia).
  destruct r, s; simpl; try destruct (Z.even m); lia.
Qed.

Lemma digits2_bounds p : 2 ^ (Z.pos (digits2_pos p) - 1) <= Z.pos p < 2 ^ Z.pos (digits2_pos p).
Proof.
  induction p as [p IH|p IH|]; [| |by vm_compute]; simpl digits2_pos; rewrite Pos2Z.inj_succ;
    replace (Z.succ (Z.pos (digits2_pos p)) - 1) with (Z.succ (Z.pos (digits2_pos p) - 1)) by lia;
    rewrite !Z.pow_succ_r by lia; lia.
Qed.

Lemma digits2_unique p d : 0 < d -> 2 ^ (d - 1) <= Z.pos p < 2 ^ d -> Z.pos (digits2_pos p) = d.
Proof.
  intros Hd H. pose proof (digits2_bounds p) as B. set (d' := Z.pos (digits2_pos p)) in *.
  assert (0 < d') by (unfold d'; lia).
  destruct (Z.lt_trichotomy d' d) as [Hlt|[->|Hlt]]; [|done|].
  - pose proof (Z.pow_le_mono_r 2 d' (d - 1) ltac:(lia) ltac:(lia)). lia.
  - pose proof (Z.pow_le_mono_r 2 d (d' - 1) ltac:(lia) ltac:(lia)). lia.
Qed.

Lemma fexp_normal e : -1021 <= e -> fexp prec emax e = e - 53.
Proof. unfold fexp, emin, prec, emax. lia. Qed.

(** the second normalization of [binary_round_aux]: only a carry to [2 ^ 53] moves it *)
Lemma renormalize R e : 2 ^ 52 <= R <= 2 ^ 53 -> -1074 <= e ->
  exists m e', shr_fexp prec emax R e loc_Exact = (Build_shr_record (Z.pos m) false false, e') /\
    ((Z.pos m = R /\ e' = e) \/ (R = 2 ^ 53 /\ 2 * Z.pos m = R /\ e' = e + 1)).
Proof.
  intros HR He. unfold shr_fexp. destruct R as [|r|r]; [lia| |lia].
  destruct (decide (Z.pos r = 2 ^ 53)) as [E|E].
  - rewrite E in *. change (Zdigits2 (2 ^ 53)) with 54. rewrite fexp_normal by lia.
    replace (54 + e - 53 - e) with 1 by lia. exists 4503599627370496%positive, (e + 1).
    split; [done|right; split; [done|]; lia].
  - cbn [Zdigits2]. rewrite (digits2_unique r 53) by lia. rewrite fexp_normal by lia.
    replace (53 + e - 53 - e) with 0 by lia. exists r, e. split; [done|by left].
Qed.

Lemma round_aux_spec s X e d : 53 <= d -> 2 ^ (d - 1) <= X < 2 ^ d -> -1074 <= e + (d - 53) < 971 ->
  exists m e' R, binary_round_aux prec emax s X e loc_Exact = S754_finite s m e' /\
    - 2 ^ (d - 53) <= 2 * (R * 2 ^ (d - 53) - X) <= 2 ^ (d - 53) /\
    ((Z.pos m = R /\ e' = e + (d - 53)) \/ (R = 2 ^ 53 /\ 2 * Z.pos m = R /\ e' = e + (d - 53) + 1)).
Proof.
  intros Hd HX He. unfold binary_round_aux, shr_fexp at 1.
  assert (0 < X) by (pose proof (Z.pow_pos_nonneg 2 (d - 1)); lia).
  destruct X as [|x|x]; [lia| |lia]. cbn [Zdigits2]. rewrite (digits2_unique x d) by lia.
  rewrite fexp_normal by lia. replace (d + e - 53 - e) with (d - 53) by lia.
  destruct (shr_spec (Z.pos x) e (d - 53)) as (mrs & -> & Hs); [lia..|].
  pose proof (round_half _ _ _ Hs) as [HR1 HR2].
  set (R := round_nearest_even (shr_m mrs) (loc_of_shr_record mrs)) in *.
  assert (2 ^ 52 <= shr_m mrs < 2 ^ 53) as Hm.
  { destruct Hs as (_ & Hm0 & rest & Hx & Hrest & Hc).
    assert (0 < 2 ^ (d - 53)) by (apply Z.pow_pos_nonneg; lia).
    replace (d - 1) with (52 + (d - 53)) in HX by lia. replace d with (53 + (d - 53)) in HX at 2 by lia.
    rewrite !Z.pow_add_r in HX by lia. destruct (shr_r mrs), (shr_s mrs); nia. }
  destruct (renormalize R (e + (d - 53))) as (m & e' & -> & Hcase); [lia..|]. cbn [shr_m].
  exists m, e', R. split; [|done]. case_match eqn:E; [done|]. unfold emax, prec in *. lia.
Qed.

(** integers below [2 ^ 53] are converted exactly *)
Lemma float_of_small n s p : 0 < Z.pos p < 2 ^ 53 -> n = (if s : bool then Z.neg p else Z.pos p) ->
  exists m e, float_of_int n = Ok (S754_finite s m e) /\
    -52 <= e <= 0 /\ 2 ^ 52 <= Z.pos m < 2 ^ 53 /\ Z.pos m = Z.pos p * 2 ^ (- e).
Proof.
  intros Hp ->. unfold float_of_int, binary_normalize.
  set (d := Z.pos (digits2_pos p)). pose proof (digits2_bounds p) as B. fold d in B.
  assert (1 <= d <= 53) as Hd.
  { split; [unfold d; lia|]. destruct (decide (d <= 53)); [done|].
    pose proof (Z.pow_le_mono_r 2 53 (d - 1) ltac:(lia) ltac:(lia)). lia. }
  assert (exists mz, shl_align p 0 (fexp prec emax (d + 0)) = (mz, d - 53) /\
                     Z.pos mz = Z.pos p * 2 ^ (53 - d)) as (mz & Hal & Hmz).
  { rewrite Z.add_0_r, fexp_normal by lia. unfold shl_align. rewrite Z.sub_0_r.
    destruct (d - 53) as [|q|q] eqn:E; [| lia |].
    - exists p. split; [done|]. replace (53 - d) with 0 by lia. lia.
    - eexists. split; [done|]. replace (53 - d) with (Z.pos q) by lia.
      clear. induction q using Pos.peano_ind.
      + simpl. lia.
      + rewrite Pos.iter_succ, Pos2Z.inj_succ, Z.pow_succ_r by lia. lia. }
  assert (2 ^ 52 <= Z.pos mz < 2 ^ 53) as Hb.
  { rewrite Hmz. assert (2 ^ (d - 1) * 2 ^ (53 - d) = 2 ^ 52) by (rewrite <- Z.pow_add_r by lia; f_equal; lia).
    assert (2 ^ d * 2 ^ (53 - d) = 2 ^ 53) by (rewrite <- Z.pow_add_r by lia; f_equal; lia).
    assert (0 < 2 ^ (53 - d)) by (apply Z.pow_pos_nonneg; lia). nia. }
  destruct (round_aux_spec s (Z.pos mz) (d - 53) 53) as (m & e' & R & Hr & Hhalf & Hc); [lia..|].
  change (2 ^ (53 - 53)) with 1 in Hhalf.
  assert (Z.pos m = Z.pos mz /\ e' = d - 53) as [Hm ->] by lia.
  exists m, (d - 53). split.
  - destruct s; simpl; unfold binary_round; fold d; by rewrite Hal, Hr.
  - rewrite Hm, Hmz. replace (- (d - 53)) with (53 - d) by lia. rewrite <- Hmz. lia.
Qed.

(** * The price of deposit-based tokens *)

(** the integer part of the rounded product is that of [n / 100] *)
Lemma rounded_percent n e k m R : (k = 52 \/ k = 53) -> -52 <= e <= 0 -> 0 < n ->
  m = n * 2 ^ (- e) -> m < 2 ^ 53 ->
  - 2 ^ k <= 2 * (R * 2 ^ k - 5764607523034235 * m) <= 2 ^ k ->
  R / 2 ^ (59 - e - k) = n / 100 /\ (- R) / 2 ^ (59 - e - k) = (- n) / 100.
Proof.
  intros Hk He Hn Hm Hm53 HR.
  set (A := 2 ^ k) in *. set (B := 2 ^ (59 - e - k)).
  assert (A * B = 2 ^ 59 * 2 ^ (- e)) as HAB.
  { unfold A, B. rewrite <- !Z.pow_add_r by lia. f_equal. lia. }
  assert (2 ^ 6 <= B /\ (k = 52 -> 2 ^ 7 <= B)) as [HB HB'].
  { unfold B. split; [|intros]; apply Z.pow_le_mono_r; lia. }
  assert (A = 2 ^ 52 \/ A = 2 ^ 53) as HA by (unfold A; destruct Hk as [-> | ->]; [by left|by right]).
  assert (200 * (R * A) - 2 * n * (A * B) - 24 * m <= 100 * A /\
          - (100 * A) <= 200 * (R * A) - 2 * n * (A * B) - 24 * m) as [H1 H2].
  { rewrite HAB. rewrite Hm in *. set (T := 2 ^ (- e)) in *. clearbody T A B.
    change (2 ^ 59) with 576460752303423488. lia. }
  assert (0 < m) by (rewrite Hm; apply Z.mul_pos_pos; [lia|apply Z.pow_pos_nonneg; lia]).
  assert (- 50 <= 100 * R - n * B) as HL.
  { clearbody A B. destruct HA as [-> | ->]; nia. }
  assert (100 * R - n * B < B) as HU.
  { clearbody B. destruct Hk as [-> | ->]; unfold A in *.
    - specialize (HB' eq_refl). change (2 ^ 52) with 4503599627370496 in *.
      change (2 ^ 53) with 9007199254740992 in *. change (2 ^ 7) with 128 in *. nia.
    - change (2 ^ 53) with 9007199254740992 in *. change (2 ^ 6) with 64 in *. nia. }
  change (2 ^ 6) with 64 in HB. clearbody A B.
  pose proof (Z.div_mod n 100 ltac:(lia)) as Hq. pose proof (Z.mod_pos_bound n 100 ltac:(lia)) as Hr.
  set (q := n / 100) in *. set (r := n mod 100) in *.
  destruct (decide (r = 0)) as [E|E].
  - assert (R = q * B) as -> by nia.
    rewrite <- Z.mul_opp_l, !Z.div_mul by lia. split; [done|].
    replace (- n) with (- q * 100) by lia. by rewrite Z.div_mul.
  - assert (q * B < R < (q + 1) * B) by nia. split.
    + symmetry. apply (Z.div_unique R B q (R - q * B)); lia.
    + transitivity (- q - 1).
      * symmetry. apply (Z.div_unique _ B _ ((q + 1) * B - R)); lia.
      * apply (Z.div_unique _ 100 _ (100 - r)); lia.
Qed.

(** rounding with an exponent one higher and half the mantissa *)
Lemma scaled_floor_neg m e : e < 0 -> scaled_floor m e = m / 2 ^ (- e).
Proof. intros H. unfold scaled_floor. case_match; [lia|done]. Qed.

Lemma scaled_floor_half m e : e < -1 -> scaled_floor m (e + 1) = scaled_floor (2 * m) e.
Proof.
  intros H. rewrite !scaled_floor_neg by lia. replace (- e) with (1 + (- (e + 1))) by lia.
  rewrite Z.pow_add_r by lia. change (2 ^ 1) with 2. rewrite Z.div_mul_cancel_l; [done| |lia].
  apply Z.pow_nonzero; lia.
Qed.

Lemma percent_product n : 0 < Z.abs n < 2 ^ 53 ->
  exists m e, (let? f := float_of_int n in Ok (SFabs (float_mul float_0_01 f))) = Ok (S754_finite false m e) /\
    scaled_floor (Z.pos m) e = Z.abs n / 100 /\ scaled_floor (- Z.pos m) e = (- Z.abs n) / 100.
Proof.
  intros Hn. assert (exists (s : bool) p, n = (if s then Z.neg p else Z.pos p) /\ Z.abs n = Z.pos p) as (s & p & Es & Ep).
  { destruct n as [|p|p]; [lia| |]; [exists false, p|exists true, p]; done. }
  rewrite Ep in *. destruct (float_of_small n s p) as (m & e & -> & He & Hm & Hmp); [lia|done|].
  cbn [rbind]. unfold float_mul, float_0_01, SFmul. rewrite Pos2Z.inj_mul.
  set (P := 5764607523034235 * Z.pos m).
  assert (exists d, (d = 105 \/ d = 106) /\ 2 ^ (d - 1) <= P < 2 ^ d) as (d & Hd & HP).
  { unfold P. destruct (decide (5764607523034235 * Z.pos m < 2 ^ 105)).
    - exists 105. split; [by left|]. change (2 ^ (105 - 1)) with (4503599627370496 * 4503599627370496).
      change (2 ^ 52) with 4503599627370496 in Hm. nia.
    - exists 106. split; [by right|]. change (2 ^ 106) with (9007199254740992 * 9007199254740992).
      change (2 ^ 53) with 9007199254740992 in Hm. change (106 - 1) with 105. nia. }
  destruct (round_aux_spec (xorb false s) P (-59 + e) d) as (m' & e' & R & -> & HR & Hcase); [lia..|].
  exists m', e'. split; [done|].
  destruct (rounded_percent (Z.pos p) e (d - 53) (Z.pos m) R) as [F1 F2]; [lia|done|lia|done|lia|done|].
  destruct Hcase as [[-> ->]|(_ & HR2 & ->)].
  - rewrite !scaled_floor_neg by lia. replace (- (-59 + e + (d - 53))) with (59 - e - (d - 53)) by lia. done.
  - rewrite !scaled_floor_half by lia. replace (2 * - Z.pos m') with (- R) by lia. rewrite HR2.
    rewrite !scaled_floor_neg by lia. replace (- (-59 + e + (d - 53))) with (59 - e - (d - 53)) by lia. done.
Qed.

(** below [2 ^ 53] units the two prices are exactly one percent, rounded up or down *)
Lemma deposit_amount_exact n : Z.abs n < 2 ^ 53 ->
  get_deposit_token_deposit_amount float_0_01 n = Ok (- ((- Z.abs n) / 100)).
Proof.
  intros H. destruct (decide (n = 0)) as [->|Hn]; [done|].
  destruct (percent_product n) as (m & e & Hf & _ & Hc); [lia|].
  unfold get_deposit_token_deposit_amount. destruct (float_of_int n); [|done]. simpl in *.
  injection Hf as ->. simpl. unfold scaled_ceil. by rewrite Hc.
Qed.

Lemma withdraw_amount_exact n : Z.abs n < 2 ^ 53 ->
  get_deposit_token_withdraw_amount float_0_01 n = Ok (Z.abs n / 100).
Proof.
  intros H. destruct (decide (n = 0)) as [->|Hn]; [done|].
  destruct (percent_product n) as (m & e & Hf & Hc & _); [lia|].
  unfold get_deposit_token_withdraw_amount. destruct (float_of_int n); [|done]. simpl in *.
  injection Hf as ->. simpl. by rewrite Hc.
Qed.

(** C39: the HTR deposit of a minted amount is one percent of it rounded up, and the HTR
    returned for a melted amount is one percent rounded down, exactly, for every amount
    below 2^53: binary floating point gives the integer result.  Above that it does not:
    2^53 + 9 units cost one unit less than one percent rounded up, and melting 2^63 - 1
    units returns two units more than one percent rounded down. *)
Theorem token_price_exact n : Z.abs n < 2 ^ 53 ->
  get_deposit_token_deposit_amount float_0_01 n = Ok (- ((- Z.abs n) / 100)) /\
  get_deposit_token_withdraw_amount float_0_01 n = Ok (Z.abs n / 100) /\
  get_deposit_token_deposit_amount float_0_01 (2 ^ 53 + 9) = Ok (- ((- (2 ^ 53 + 9)) / 100) - 1) /\
  get_deposit_token_withdraw_amount float_0_01 (2 ^ 63 - 1) = Ok ((2 ^ 63 - 1) / 100 + 2).
Proof.
  intros H. split; [by apply deposit_amount_exact|]. split; [by apply withdraw_amount_exact|].
  split; by vm_compute.
Qed.

Lemma token_price_exact_witness :
  get_deposit_token_deposit_amount float_0_01 12345 = Ok 124 /\
  get_deposit_token_withdraw_amount float_0_01 (-12345) = Ok 123.
Proof.
  split; [apply (token_price_exact 12345); by vm_compute|apply (token_price_exact (-12345)); by vm_compute].
Defined.
