(* ===== verification/ScriptCode.v ===== *)
(** Scripts as data: the opcodes ([hathor/transaction/scripts/opcode.py]), the readers of
    [execute.py], the builder of [hathor_script.py], the standard scripts of [p2pkh.py]
    and [multi_sig.py], and [construct.py]; with the address functions of
    [hathor/crypto/util.py] they use.

    Log messages are not modelled: they only feed the messages of exceptions. *)

From stdpp Require Import base list gmap.
From Stdlib Require Import ZArith Lia Strings.Byte.
From S2P Require Import Prelude PyInt.

Local Open Scope Z_scope.
Local Open Scope py_scope.

(** * The stack *)

(** the values scripts push; no operation pushes a [str] *)
Inductive item : Type := IBytes (b : bytes) | IInt (z : Z).

#[export] Instance item_eq_dec : EqDecision item.
Proof. solve_decision. Defined.

(** the Python list from its end: the head is [stack[-1]] *)
Definition Stack : Type := list item.

(** * [Opcode] *)

Inductive Opcode : Type :=
| OP_0 | OP_1 | OP_2 | OP_3 | OP_4 | OP_5 | OP_6 | OP_7 | OP_8 | OP_9 | OP_10 | OP_11 | OP_12
| OP_13 | OP_14 | OP_15 | OP_16 | OP_DUP | OP_EQUAL | OP_EQUALVERIFY | OP_CHECKSIG | OP_HASH160
| OP_PUSHDATA1 | OP_GREATERTHAN_TIMESTAMP | OP_CHECKMULTISIG | OP_CHECKDATASIG | OP_DATA_STREQUAL
| OP_DATA_GREATERTHAN | OP_FIND_P2PKH | OP_DATA_MATCH_VALUE.

Definition opcode_value (o : Opcode) : Z :=
  match o with
  | OP_0 => 0x50 | OP_1 => 0x51 | OP_2 => 0x52 | OP_3 => 0x53 | OP_4 => 0x54 | OP_5 => 0x55
  | OP_6 => 0x56 | OP_7 => 0x57 | OP_8 => 0x58 | OP_9 => 0x59 | OP_10 => 0x5a | OP_11 => 0x5b
  | OP_12 => 0x5c | OP_13 => 0x5d | OP_14 => 0x5e | OP_15 => 0x5f | OP_16 => 0x60
  | OP_DUP => 0x76 | OP_EQUAL => 0x87 | OP_EQUALVERIFY => 0x88 | OP_CHECKSIG => 0xAC
  | OP_HASH160 => 0xA9 | OP_PUSHDATA1 => 0x4C | OP_GREATERTHAN_TIMESTAMP => 0x6F
  | OP_CHECKMULTISIG => 0xAE | OP_CHECKDATASIG => 0xBA | OP_DATA_STREQUAL => 0xC0
  | OP_DATA_GREATERTHAN => 0xC1 | OP_FIND_P2PKH => 0xD0 | OP_DATA_MATCH_VALUE => 0xD1
  end.

Definition all_opcodes : list Opcode :=
  [OP_0; OP_1; OP_2; OP_3; OP_4; OP_5; OP_6; OP_7; OP_8; OP_9; OP_10; OP_11; OP_12; OP_13; OP_14;
   OP_15; OP_16; OP_DUP; OP_EQUAL; OP_EQUALVERIFY; OP_CHECKSIG; OP_HASH160; OP_PUSHDATA1;
   OP_GREATERTHAN_TIMESTAMP; OP_CHECKMULTISIG; OP_CHECKDATASIG; OP_DATA_STREQUAL; OP_DATA_GREATERTHAN;
   OP_FIND_P2PKH; OP_DATA_MATCH_VALUE].

(** [Opcode(value)]: [ValueError] when there is none *)
Definition opcode_of (value : Z) : result Opcode :=
  match List.find (fun o => opcode_value o =? value) all_opcodes with
  | Some o => Ok o
  | None => Err ValueError
  end.

Definition is_pushdata (opcode : Z) : bool :=
  if (1 <=? opcode) && (opcode <=? 75) then true
  else if (opcode_value OP_0 <=? opcode) && (opcode <=? opcode_value OP_16) then true
  else if opcode =? opcode_value OP_PUSHDATA1 then true
  else false.

Definition is_valid_opcode (opcode : Z) : bool :=
  if is_pushdata opcode then true else is_ok (opcode_of opcode).

(** * Reading scripts *)

(** [data[a:b]], for [0 <= a] *)
Definition slice (data : bytes) (a b : Z) : bytes := take (Z.to_nat (b - a)) (drop (Z.to_nat a) data).

(** [data[i]], for [0 <= i] *)
Definition byte_at (data : bytes) (i : Z) : result Z :=
  match data !! Z.to_nat i with Some b => Ok (b2z b) | None => Err IndexError end.

Definition get_data_single_byte (position : Z) (data : bytes) : result Z :=
  if (0 <=? position) && (position <? blen data) then
    byte_at data position
  else Err OutOfData.

Definition get_data_bytes (position length : Z) (data : bytes) : result bytes :=
  if negb ((0 <? length) && (length <=? blen data)) then Err OutOfData
  else if negb ((0 <? position) && (position <? blen data)) then Err OutOfData
  else if blen data <? position + length then Err OutOfData
  else Ok (slice data position (position + length)).

Definition decode_opn (opcode : Z) : result Z :=
  let int_val := opcode - opcode_value OP_0 in
  if negb ((0 <=? int_val) && (int_val <=? 16)) then Err InvalidScriptError else Ok int_val.

(** the opcode, the position of the next one, and the [to_append] that a caller
    with a stack finds pushed on it *)
Definition get_script_op (pos : Z) (data : bytes) : result (Z * Z * option item) :=
  let? opcode := get_data_single_byte pos data in
  if negb (is_valid_opcode opcode) then Err InvalidScriptError
  else if (1 <=? opcode) && (opcode <=? 75) then
    let pos := pos + 1 in
    let? to_append := get_data_bytes pos opcode data in
    Ok (opcode, pos + opcode, Some (IBytes to_append))
  else if opcode =? opcode_value OP_PUSHDATA1 then
    let pos := pos + 1 in
    let? length := get_data_single_byte pos data in
    let pos := pos + 1 in
    let? to_append := get_data_bytes pos length data in
    Ok (opcode, pos + length, Some (IBytes to_append))
  else if (opcode_value OP_0 <=? opcode) && (opcode <=? opcode_value OP_16) then
    let? to_append := decode_opn opcode in
    Ok (opcode, pos + 1, Some (IInt to_append))
  else Ok (opcode, pos + 1, None).

Definition push_opt (to_append : option item) (stack : Stack) : Stack :=
  match to_append with Some i => i :: stack | None => stack end.

Fixpoint get_data_value_loop (fuel : nat) (k : Z) (data : bytes) (position iteration : Z) : result bytes :=
  if position <? blen data then
    match fuel with
    | O => Err OutOfFuel
    | S fuel =>
        let? length := byte_at data position in
        let position := position + 1 in
        if blen data <? position + length then Err OutOfData
        else if iteration =? k then Ok (slice data position (position + length))
        else get_data_value_loop fuel k data (position + length) (iteration + 1)
    end
  else Err DataIndexError.

Definition get_data_value (k : Z) (data : bytes) : result bytes :=
  get_data_value_loop (S (length data)) k data 0 0.

(** the sizes of ['!B'], ['!H'], ['!I'] and ['!Q'] *)
Definition binary_to_int (binary : bytes) : result Z :=
  if (blen binary =? 1) || (blen binary =? 2) || (blen binary =? 4) || (blen binary =? 8)
  then Ok (int_from_bytes binary false) else Err StructError.

(** [struct.unpack('!I', buf)] *)
Definition unpack_I (buf : bytes) : result Z :=
  if blen buf =? 4 then Ok (int_from_bytes buf false) else Err StructError.

(** * [HathorScript]: the methods change [self.data] *)

(** [struct.pack] of an unsigned format of [size] bytes *)
Definition pack_uint (size : nat) (n : Z) : result bytes :=
  if (0 <=? n) && (n <? 256 ^ Z.of_nat size) then Ok (be_bytes size n) else Err StructError.

(** [bytes([n])] *)
Definition single_byte (n : Z) : result bytes :=
  if (0 <=? n) && (n <? 256) then Ok [z2b n] else Err ValueError.

Definition addOpcode (o : Opcode) : M bytes unit := fun data =>
  (Ok tt, data ++ [z2b (opcode_value o)]).

Definition pushData_int (data : Z) : result bytes :=
  if 4294967295 <? data then pack_uint 8 data
  else if 65535 <? data then pack_uint 4 data
  else if 255 <? data then pack_uint 2 data
  else pack_uint 1 data.

Definition pushData (data : item) : M bytes unit :=
  let! data := lift (match data with IInt n => pushData_int n | IBytes b => Ok b end) in
  let! size := lift (single_byte (blen data)) in
  fun self =>
    (Ok tt, if blen data <=? 75 then self ++ size ++ data
            else self ++ [z2b (opcode_value OP_PUSHDATA1)] ++ size ++ data).

(** run a builder from [HathorScript()] *)
Definition build_script (m : M bytes unit) : result bytes :=
  match m [] with (Ok _, data) => Ok data | (Err e, _) => Err e end.

(** * The patterns of [re_compile]

    A pattern is a sequence of opcode bytes and data blocks; as [re] does, [$] matches
    at the end and also before a final newline. *)

Definition re_lit (b : Z) (s : bytes) : option bytes :=
  match s with c :: r => if b2z c =? b then Some r else None | [] => None end.

(** [(DATA_n)] for [n <= 75], from [_re_pushdata]: the group and the rest *)
Definition re_data (n : Z) (s : bytes) : option (bytes * bytes) :=
  let s' := match re_lit (opcode_value OP_PUSHDATA1) s with Some r => r | None => s end in
  r ← re_lit n s';
  if blen r <? n then None
  else Some (take (length s - length r + Z.to_nat n) s, drop (Z.to_nat n) r).

Definition re_op (o : Opcode) (s : bytes) : option bytes := re_lit (opcode_value o) s.

Definition re_end (s : bytes) : option unit :=
  match s with [] => Some tt | [c] => if b2z c =? 10 then Some tt else None | _ => None end.

(** ['^(?:(DATA_4) OP_GREATERTHAN_TIMESTAMP)? ' tail], the groups *)
Definition re_timelocked (tail : bytes -> option bytes) (s : bytes) : option (option bytes * bytes) :=
  match (g ← re_data 4 s; r ← re_op OP_GREATERTHAN_TIMESTAMP (snd g); h ← tail r; Some (Some (fst g), h)) with
  | Some m => Some m
  | None => h ← tail s; Some (None, h)
  end.

Definition p2pkh_tail (s : bytes) : option bytes :=
  r ← re_op OP_DUP s; r ← re_op OP_HASH160 r; g ← re_data 20 r;
  r ← re_op OP_EQUALVERIFY (snd g); r ← re_op OP_CHECKSIG r; _ ← re_end r; Some (fst g).

Definition multisig_tail (s : bytes) : option bytes :=
  r ← re_op OP_HASH160 s; g ← re_data 20 r; r ← re_op OP_EQUAL (snd g); _ ← re_end r; Some (fst g).

(** [P2PKH.re_match.search] and [MultiSig.re_match.search] *)
Definition p2pkh_re_match : bytes -> option (option bytes * bytes) := re_timelocked p2pkh_tail.
Definition multisig_re_match : bytes -> option (option bytes * bytes) := re_timelocked multisig_tail.

Definition get_pushdata (data : bytes) : result bytes :=
  let? d0 := byte_at data 0 in
  if 75 <? d0 then let? length := byte_at data 1 in Ok (slice data 2 (2 + length))
  else Ok (slice data 1 (1 + d0)).

(** * What scripts take from the cryptography and base58 packages and from the settings *)

Class Crypto : Type := {
  sha256 : bytes -> bytes;
  ripemd160 : bytes -> bytes;
  PublicKey : Type;
  (** [EllipticCurvePublicKey.from_encoded_point]: [None] is [ValueError] *)
  from_encoded_point : bytes -> option PublicKey;
  (** [public_key.verify(signature, data)]: [false] is [InvalidSignature] *)
  ecdsa_verify : PublicKey -> bytes -> bytes -> bool;
  (** [base58.b58encode(x).decode('utf-8')]: it raises on an [int] *)
  b58encode : item -> result bytes;
  (** [base58.b58decode] *)
  b58decode : bytes -> result bytes
}.

Class ScriptSettings : Type := {
  P2PKH_VERSION_BYTE : bytes;
  MULTISIG_VERSION_BYTE : bytes;
  MAX_MULTISIG_PUBKEYS : Z;
  MAX_MULTISIG_SIGNATURES : Z
}.

Section scripts.
Context {CR : Crypto} {ST : ScriptSettings}.

(** ** [hathor/crypto/util.py] *)

Definition get_hash160 (public_key_bytes : bytes) : bytes := ripemd160 (sha256 public_key_bytes).

Definition get_checksum (address_bytes : bytes) : bytes := take 4 (sha256 (sha256 address_bytes)).

Definition get_address_from_public_key_hash (public_key_hash : bytes) (version_byte : option bytes) : bytes :=
  let address := default P2PKH_VERSION_BYTE version_byte ++ public_key_hash in
  address ++ get_checksum address.

Definition get_address_from_redeem_script_hash (redeem_script_hash : bytes) (version_byte : option bytes) : bytes :=
  let address := default MULTISIG_VERSION_BYTE version_byte ++ redeem_script_hash in
  address ++ get_checksum address.

Definition get_address_b58_from_bytes (address : item) : result bytes := b58encode address.

Definition get_address_b58_from_public_key_hash (public_key_hash : bytes) : result bytes :=
  b58encode (IBytes (get_address_from_public_key_hash public_key_hash None)).

Definition get_address_b58_from_redeem_script_hash (redeem_script_hash : bytes) : result bytes :=
  b58encode (IBytes (get_address_from_redeem_script_hash redeem_script_hash (Some MULTISIG_VERSION_BYTE))).

Definition decode_address (address58 : bytes) : result bytes :=
  let? decoded := match b58decode address58 with
    | Err e => Err (if issubclass_exn e ValueError then InvalidAddress else e)
    | Ok d => Ok d
    end in
  if negb (blen decoded =? 25) then Err InvalidAddress
  else if bool_decide (drop 21 decoded = get_checksum (take 21 decoded)) then Ok decoded
  else Err InvalidAddress.

Definition is_pubkey_compressed (pubkey : bytes) : bool :=
  match pubkey with [] => false | b :: _ => (b2z b =? 2) || (b2z b =? 3) end.

(** ** [P2PKH] and [MultiSig] *)

Record base_script : Type := mkScript { bs_address : bytes; bs_timelock : option Z }.

(** [if timelock: s.pushData(timelock); s.addOpcode(OP_GREATERTHAN_TIMESTAMP)] *)
Definition push_timelock (timelock : option Z) : M bytes unit :=
  match timelock with
  | None | Some 0 => ret tt
  | Some t => pushData (IInt t) ;;; addOpcode OP_GREATERTHAN_TIMESTAMP
  end.

(** [address[1:-4]], for 25 bytes *)
Definition address_hash (address : bytes) : bytes := slice address 1 21.

Definition p2pkh_create_output_script (address : bytes) (timelock : option Z) : result bytes :=
  if negb (blen address =? 25) then Err AssertionError
  else build_script (
    push_timelock timelock ;;;
    addOpcode OP_DUP ;;; addOpcode OP_HASH160 ;;; pushData (IBytes (address_hash address)) ;;;
    addOpcode OP_EQUALVERIFY ;;; addOpcode OP_CHECKSIG).

Definition p2pkh_create_input_data (public_key_bytes signature : bytes) : result bytes :=
  build_script (pushData (IBytes signature) ;;; pushData (IBytes public_key_bytes)).

(** the groups of a match to the object: the timelock block loses its first byte *)
Definition groups_to_script (to_b58 : bytes -> result bytes) (groups : option bytes * bytes) :
    result base_script :=
  let? timelock := match fst groups with
    | None | Some [] => Ok None
    | Some pushdata_timelock => let? t := unpack_I (drop 1 pushdata_timelock) in Ok (Some t)
    end in
  let? hash := get_pushdata (snd groups) in
  let? address_b58 := to_b58 hash in
  Ok (mkScript address_b58 timelock).

Definition p2pkh_parse_script (script : bytes) : result (option base_script) :=
  match p2pkh_re_match script with
  | Some groups => let? s := groups_to_script get_address_b58_from_public_key_hash groups in Ok (Some s)
  | None => Ok None
  end.

Definition multisig_create_output_script (address : bytes) (timelock : option Z) : result bytes :=
  if negb (blen address =? 25) then Err AssertionError
  else build_script (
    push_timelock timelock ;;;
    addOpcode OP_HASH160 ;;; pushData (IBytes (address_hash address)) ;;; addOpcode OP_EQUAL).

Definition multisig_create_input_data (redeem_script : bytes) (signatures : list bytes) : result bytes :=
  build_script (for_each signatures (fun s => pushData (IBytes s)) ;;; pushData (IBytes redeem_script)).

Definition multisig_parse_script (script : bytes) : result (option base_script) :=
  match multisig_re_match script with
  | Some groups => let? s := groups_to_script get_address_b58_from_redeem_script_hash groups in Ok (Some s)
  | None => Ok None
  end.

Fixpoint redeem_pos_loop (fuel : nat) (input_data : bytes) (pos last_pos : Z) : result Z :=
  if pos <? blen input_data then
    match fuel with
    | O => Err OutOfFuel
    | S fuel => let? (_, next, _) := get_script_op pos input_data in redeem_pos_loop fuel input_data next pos
    end
  else Ok last_pos.

Definition get_multisig_redeem_script_pos (input_data : bytes) : result Z :=
  redeem_pos_loop (S (length input_data)) input_data 0 0.

(** [op_pushdata] and [op_pushdata1] of [opcode.py]: the new position *)
Definition op_pushdata (position : Z) (full_data : bytes) (stack : Stack) : result (Z * Stack) :=
  let? (length, new_pos, to_append) := get_script_op position full_data in
  if length <=? 75 then Ok (new_pos, push_opt to_append stack) else Err AssertionError.

Definition op_pushdata1 (position : Z) (full_data : bytes) (stack : Stack) : result (Z * Stack) :=
  let? (opcode, new_pos, to_append) := get_script_op position full_data in
  if opcode =? opcode_value OP_PUSHDATA1 then Ok (new_pos, push_opt to_append stack) else Err AssertionError.

Fixpoint multisig_data_loop (fuel : nat) (input_data : bytes) (pos last_pos : Z) (stack : Stack) :
    result (Z * Stack) :=
  if pos <? blen input_data then
    match fuel with
    | O => Err OutOfFuel
    | S fuel =>
        let? opcode := byte_at input_data pos in
        let? (next, stack) :=
          if (1 <=? opcode) && (opcode <=? 75) then op_pushdata pos input_data stack
          else if opcode =? opcode_value OP_PUSHDATA1 then op_pushdata1 pos input_data stack
          else Ok (pos + 1, stack) in
        multisig_data_loop fuel input_data next pos stack
    end
  else Ok (last_pos, stack).

Definition get_multisig_data (input_data : bytes) : result bytes :=
  let? (last_pos, stack) := multisig_data_loop (S (length input_data)) input_data 0 0 [] in
  match stack with
  | [] => Err IndexError
  | IBytes redeem_script :: _ => Ok (slice input_data 0 last_pos ++ redeem_script)
  | IInt _ :: _ => Err AssertionError
  end.

(** ** [construct.py] *)

Inductive script_class : Type := P2PKH_ | MultiSig_.

Definition version_of (address : bytes) : result script_class :=
  let? a0 := byte_at address 0 in
  let? p := binary_to_int P2PKH_VERSION_BYTE in
  if a0 =? p then Ok P2PKH_
  else let? m := binary_to_int MULTISIG_VERSION_BYTE in
    if a0 =? m then Ok MultiSig_ else Err ScriptError.

Definition create_base_script (address : bytes) (timelock : option Z) : result (script_class * base_script) :=
  let? baddress := decode_address address in
  let? c := version_of baddress in
  Ok (c, mkScript address timelock).

Definition create_output_script (address : bytes) (timelock : option Z) : result bytes :=
  let? c := version_of address in
  match c with
  | P2PKH_ => p2pkh_create_output_script address timelock
  | MultiSig_ => multisig_create_output_script address timelock
  end.

(** [script.get_script()] *)
Definition get_script (s : script_class * base_script) : result bytes :=
  let? address := decode_address (bs_address (snd s)) in
  match fst s with
  | P2PKH_ => p2pkh_create_output_script address (bs_timelock (snd s))
  | MultiSig_ => multisig_create_output_script address (bs_timelock (snd s))
  end.

Definition parse_address_script (script : bytes) : result (option (script_class * base_script)) :=
  match p2pkh_re_match script with
  | Some _ => let? o := p2pkh_parse_script script in Ok ((fun s => (P2PKH_, s)) <$> o)
  | None =>
      match multisig_re_match script with
      | Some _ => let? o := multisig_parse_script script in Ok ((fun s => (MultiSig_, s)) <$> o)
      | None => Ok None
      end
  end.

(** [SigopCounter.count_sigops] *)
Definition sigops_of (enable_checkdatasig_count : bool) (opcode : Z) (last_opcode : option Z) : result Z :=
  if opcode =? opcode_value OP_CHECKSIG then Ok 1
  else if opcode =? opcode_value OP_CHECKMULTISIG then
    match last_opcode with
    | Some o => if (opcode_value OP_0 <=? o) && (o <=? opcode_value OP_16) then decode_opn o
                else Ok MAX_MULTISIG_PUBKEYS
    | None => Ok MAX_MULTISIG_PUBKEYS
    end
  else if opcode =? opcode_value OP_CHECKDATASIG then
    Ok (if enable_checkdatasig_count then 1 else 0)
  else Ok 0.

Fixpoint count_sigops_loop (fuel : nat) (enable : bool) (data : bytes) (pos n_ops : Z)
    (last_opcode : option Z) : result Z :=
  if pos <? blen data then
    match fuel with
    | O => Err OutOfFuel
    | S fuel =>
        let? (opcode, pos, _) := get_script_op pos data in
        let? n := sigops_of enable opcode last_opcode in
        count_sigops_loop fuel enable data pos (n_ops + n) (Some opcode)
    end
  else Ok n_ops.

Definition count_sigops (enable : bool) (data : bytes) : result Z :=
  count_sigops_loop (S (length data)) enable data 0 0 None.

Definition get_sigops_count (enable : bool) (data : bytes) (output_script : option bytes) : result Z :=
  match output_script with
  | Some script =>
      match multisig_re_match script with
      | Some _ => let? multisig_data := get_multisig_data data in count_sigops enable multisig_data
      | None => count_sigops enable data
      end
  | None => count_sigops enable data
  end.

(** ** [generate_multisig_redeem_script] of [hathor/wallet/util.py] *)

(** [getattr(Opcode, f'OP_{n}')] *)
Definition opcode_n (n : Z) : result Opcode :=
  if (0 <=? n) && (n <=? 16) then
    match opcode_of (opcode_value OP_0 + n) with Ok o => Ok o | Err _ => Err AttributeError end
  else Err AttributeError.

Definition generate_multisig_redeem_script (signatures_required : Z) (public_key_bytes : list bytes) :
    result bytes :=
  if MAX_MULTISIG_SIGNATURES <? signatures_required then Err ValueError
  else if MAX_MULTISIG_PUBKEYS <? Z.of_nat (length public_key_bytes) then Err ValueError
  else build_script (
    let! m := lift (opcode_n signatures_required) in addOpcode m ;;;
    for_each public_key_bytes (fun b => pushData (IBytes b)) ;;;
    let! n := lift (opcode_n (Z.of_nat (length public_key_bytes))) in addOpcode n ;;;
    addOpcode OP_CHECKMULTISIG).
End scripts.
