(* ===== verification/ScriptVM.v ===== *)
(** The script interpreter: the operations of [hathor/transaction/scripts/opcode.py] and
    the evaluation of [execute.py].  An operation changes the stack and may raise. *)

From stdpp Require Import base list gmap.
From Stdlib Require Import ZArith Lia Strings.Byte.
From S2P Require Import Prelude PyInt ScriptCode.

Local Open Scope Z_scope.
Local Open Scope py_scope.

(** * What a script sees of the transactions *)

Record TxInput : Type := mkTxInput { in_tx_id : bytes; in_index : Z; in_data : bytes }.

Record TxOutput : Type := mkTxOutput { out_value : Z; out_script : bytes; out_token_data : Z }.

(** the attributes of a transaction that scripts use; [stx_sighash] is
    the outcome of [tx.get_sighash_all_data()] *)
Record script_tx : Type := mkScriptTx {
  stx_timestamp : Z;
  stx_outputs : list TxOutput;
  stx_sighash : result bytes
}.

Inductive ScriptExtras : Type :=
| PlainExtras (tx : script_tx)
| UtxoScriptExtras (tx : script_tx) (txin : TxInput) (spent_outputs : list TxOutput).

Definition extras_tx (e : ScriptExtras) : script_tx :=
  match e with PlainExtras tx | UtxoScriptExtras tx _ _ => tx end.

(** [assert isinstance(x, bytes)] *)
Definition assert_bytes {S} (i : item) : M S bytes :=
  match i with IBytes b => ret b | IInt _ => raise AssertionError end.

Definition assert_int {S} (i : item) : M S Z :=
  match i with IInt z => ret z | IBytes _ => raise AssertionError end.

Definition pop : M Stack item := fun st =>
  match st with i :: st' => (Ok i, st') | [] => (Err IndexError, []) end.

Definition push (i : item) : M Stack unit := fun st => (Ok tt, i :: st).

(** [if len(stack) < n: raise MissingStackItems] *)
Definition need (n : Z) : M Stack unit := fun st =>
  if Z.of_nat (length st) <? n then (Err MissingStackItems, st) else (Ok tt, st).

(** [for _ in range(n): l.append(stack.pop())] *)
Definition pop_n (n : Z) : M Stack (list item) := repeat_m (Z.to_nat n) pop.

(** [except (ValueError, struct.error): raise VerifyFailed] *)
Definition or_verify_failed {S A} (m : M S A) : M S A :=
  try_raise (try_raise m ValueError VerifyFailed) StructError VerifyFailed.

Section vm.
Context {CR : Crypto} {ST : ScriptSettings}.

Abbreviation op := (M Stack unit).

Definition op_dup : op :=
  need 1 ;;; fun st => match st with i :: _ => (Ok tt, i :: st) | [] => (Err IndexError, st) end.

Definition op_greaterthan_timestamp (extras : ScriptExtras) : op :=
  need 1 ;;;
  let! buf := pop in
  let! buf := assert_bytes buf in
  let! timelock := lift (unpack_I buf) in
  match extras with
  | PlainExtras _ => raise AssertionError
  | UtxoScriptExtras tx _ _ => if stx_timestamp tx <=? timelock then raise TimeLocked else ret tt
  end.

Definition op_equal : op :=
  need 2 ;;;
  let! elem1 := pop in
  let! elem2 := pop in
  let! elem1 := assert_bytes elem1 in
  let! elem2 := assert_bytes elem2 in
  push (IInt (if bool_decide (elem1 = elem2) then 1 else 0)).

(** [if not is_equal]: an [int] is false when it is 0, [bytes] when they are empty *)
Definition truthy (i : item) : bool :=
  match i with IInt z => negb (z =? 0) | IBytes b => negb (bool_decide (b = [])) end.

Definition op_equalverify : op :=
  need 2 ;;;
  op_equal ;;;
  let! is_equal := pop in
  if truthy is_equal then ret tt else raise EqualVerifyFailed.

(** the shared part of the signature operations: the key behind the bytes *)
Definition load_pubkey {S} (pubkey : bytes) : M S PublicKey :=
  if negb (is_pubkey_compressed pubkey) then raise ScriptError
  else match from_encoded_point pubkey with
  | None => raise ScriptError
  | Some k => ret k
  end.

Definition op_checksig (extras : ScriptExtras) : op :=
  need 2 ;;;
  let! pubkey := pop in
  let! signature := pop in
  let! pubkey := assert_bytes pubkey in
  let! signature := assert_bytes signature in
  let! public_key := load_pubkey pubkey in
  let! data := lift (stx_sighash (extras_tx extras)) in
  if ecdsa_verify public_key signature data then push (IInt 1)
  else push (IInt 0).

Definition op_hash160 : op :=
  need 1 ;;;
  let! elem1 := pop in
  let! elem1 := assert_bytes elem1 in
  push (IBytes (get_hash160 elem1)).

Definition op_checkdatasig : op :=
  need 3 ;;;
  let! pubkey := pop in
  let! signature := pop in
  let! data := pop in
  let! pubkey := assert_bytes pubkey in
  let! signature := assert_bytes signature in
  let! data := assert_bytes data in
  let! public_key := load_pubkey pubkey in
  if ecdsa_verify public_key signature data then push (IBytes data) else raise OracleChecksigFailed.

(** the message of a failed comparison decodes both values *)
Definition op_data_strequal : op :=
  need 3 ;;;
  let! value := pop in
  let! data_k := pop in
  let! data := pop in
  let! value := assert_bytes value in
  let! data := assert_bytes data in
  match data_k with
  | IBytes _ => raise VerifyFailed
  | IInt data_k =>
      let! data_value := lift (get_data_value data_k data) in
      if bool_decide (data_value = value) then push (IBytes data)
      else lift (utf8_decode data_value) ;;; lift (utf8_decode value) ;;; raise VerifyFailed
  end.

Definition op_data_greaterthan : op :=
  need 3 ;;;
  let! value := pop in
  let! data_k := pop in
  let! data := pop in
  let! value := assert_bytes value in
  let! data := assert_bytes data in
  match data_k with
  | IBytes _ => raise VerifyFailed
  | IInt data_k =>
      let! data_value := lift (get_data_value data_k data) in
      let! (data_int, value_int) := or_verify_failed (
        let! data_int := lift (binary_to_int data_value) in
        let! value_int := lift (binary_to_int value) in
        ret (data_int, value_int)) in
      if data_int <=? value_int then raise VerifyFailed else push (IBytes data)
  end.

(** [pubkey = stack.pop(); buf = stack.pop(); ...; value = binary_to_int(buf)], [n] times *)
Fixpoint pop_values (n : nat) : M Stack (list (Z * item)) :=
  match n with
  | O => ret []
  | S n =>
      let! pubkey := pop in
      let! buf := pop in
      let! _ := assert_bytes pubkey in
      let! buf := assert_bytes buf in
      let! value := lift (binary_to_int buf) in
      let! rest := pop_values n in
      ret ((value, pubkey) :: rest)
  end.

(** the number of values on top of the stack, and the check of the stack's size *)
Definition pop_n_items : M Stack Z :=
  need 1 ;;;
  let! data_n_items := pop in
  let! data_n_items := assert_bytes data_n_items in
  let! n_items := lift (byte_at data_n_items 0) in
  need (2 * n_items + 3) ;;;
  ret n_items.

Definition op_data_match_interval : op :=
  let! n_items := pop_n_items in
  let! (items, last_pubkey, data_int) := or_verify_failed (
    let! items := pop_values (Z.to_nat n_items) in
    let! last_pubkey := pop in
    let! data_k := pop in
    let! data := pop in
    let! data_k := assert_int data_k in
    let! data := assert_bytes data in
    let! data_value := lift (get_data_value data_k data) in
    let! data_int := lift (binary_to_int data_value) in
    ret (items, last_pubkey, data_int)) in
  match List.find (fun it => fst it <? data_int) items with
  | Some it => push (snd it)
  | None => push last_pubkey
  end.

(** [items[value] = pubkey] for each pair, in order *)
Definition items_dict (l : list (Z * item)) : list (Z * item) :=
  foldl (fun d it => od_set d (fst it) (snd it)) [] l.

Definition op_data_match_value : op :=
  let! n_items := pop_n_items in
  let! items := or_verify_failed (pop_values (Z.to_nat n_items)) in
  let! last_pubkey := pop in
  let! data_k := pop in
  let! data := pop in
  let! data_k := assert_int data_k in
  let! data := assert_bytes data in
  let! data_value := lift (get_data_value data_k data) in
  let! data_int := lift (binary_to_int data_value) in
  let winner_pubkey := default last_pubkey (od_get (items_dict items) data_int) in
  let! _ := assert_bytes winner_pubkey in
  push winner_pubkey.

(** the loop over [tx.outputs] *)
Fixpoint find_p2pkh (address_b58 : bytes) (contract_value : Z) (outputs : list TxOutput) : result bool :=
  match outputs with
  | [] => Ok false
  | output :: outputs =>
      let? p2pkh_out := p2pkh_parse_script (out_script output) in
      match p2pkh_out with
      | Some s =>
          if bool_decide (bs_address s = address_b58) && (out_value output =? contract_value)
          then Ok true else find_p2pkh address_b58 contract_value outputs
      | None => find_p2pkh address_b58 contract_value outputs
      end
  end.

(** [outputs[i]], for [0 <= i] *)
Definition output_at (outputs : list TxOutput) (i : Z) : result TxOutput := py_index outputs i.

Definition op_find_p2pkh (extras : ScriptExtras) : op :=
  need 1 ;;;
  match extras with
  | PlainExtras _ => raise AssertionError
  | UtxoScriptExtras tx txin spent_outputs =>
      let! spent := lift (output_at spent_outputs (in_index txin)) in
      let! address := pop in
      let! address_b58 := lift (get_address_b58_from_bytes address) in
      let! found := lift (find_p2pkh address_b58 (out_value spent) (stx_outputs tx)) in
      if (found : bool) then push (IInt 1) else raise VerifyFailed
  end.

(** the result [op_checksig] leaves on the stack [[signature, pubkey]] *)
Definition checksig_pair (extras : ScriptExtras) (signature pubkey : item) : result item :=
  let '(r, st) := (op_checksig extras ;;; pop) [pubkey; signature] in r.

(** the inner [while]: the keys left after the one that accepts the signature *)
Fixpoint next_match (extras : ScriptExtras) (signature : item) (pubkeys : list item) :
    result (option (list item)) :=
  match pubkeys with
  | [] => Ok None
  | pubkey :: rest =>
      let? result := checksig_pair extras signature pubkey in
      if bool_decide (result = IInt 1) then Ok (Some rest) else next_match extras signature rest
  end.

Fixpoint match_signatures (extras : ScriptExtras) (signatures pubkeys : list item) : result bool :=
  match signatures with
  | [] => Ok true
  | signature :: signatures =>
      let? m := next_match extras signature pubkeys in
      match m with
      | None => Ok false
      | Some rest => match_signatures extras signatures rest
      end
  end.

(** an [int] at most [limit] on top of the stack *)
Definition pop_count (limit : Z) : M Stack Z :=
  let! count := pop in
  match count with
  | IBytes _ => raise InvalidStackData
  | IInt n => if limit <? n then raise InvalidStackData else ret n
  end.

Definition op_checkmultisig (extras : ScriptExtras) : op :=
  need 1 ;;;
  let! pubkey_count := pop_count MAX_MULTISIG_PUBKEYS in
  need pubkey_count ;;;
  let! pubkeys := pop_n pubkey_count in
  need 1 ;;;
  let! signatures_count := pop_count MAX_MULTISIG_SIGNATURES in
  need signatures_count ;;;
  let! signatures := pop_n signatures_count in
  let! ok := lift (match_signatures extras signatures pubkeys) in
  push (IInt (if (ok : bool) then 1 else 0)).

Definition execute_op_code (opcode : Opcode) (extras : ScriptExtras) : op :=
  match opcode with
  | OP_DUP => op_dup
  | OP_EQUAL => op_equal
  | OP_EQUALVERIFY => op_equalverify
  | OP_CHECKSIG => op_checksig extras
  | OP_HASH160 => op_hash160
  | OP_GREATERTHAN_TIMESTAMP => op_greaterthan_timestamp extras
  | OP_CHECKMULTISIG => op_checkmultisig extras
  | OP_DATA_STREQUAL => op_data_strequal
  | OP_DATA_GREATERTHAN => op_data_greaterthan
  | OP_DATA_MATCH_VALUE => op_data_match_value
  | OP_CHECKDATASIG => op_checkdatasig
  | OP_FIND_P2PKH => op_find_p2pkh extras
  | _ => raise ScriptError
  end.

(** * [execute.py] *)

(** one turn of the loop: what the opcode does to the stack *)
Definition eval_step (extras : ScriptExtras) (opcode : Z) (to_append : option item) : op :=
  (fun st => (Ok tt, push_opt to_append st)) ;;;
  if is_pushdata opcode then ret tt
  else let! o := lift (opcode_of opcode) in execute_op_code o extras.

Fixpoint eval_loop (fuel : nat) (data : bytes) (extras : ScriptExtras) (pos : Z) : op :=
  if pos <? blen data then
    match fuel with
    | O => raise OutOfFuel
    | S fuel =>
        let! (opcode, pos, to_append) := lift (get_script_op pos data) in
        eval_step extras opcode to_append ;;;
        eval_loop fuel data extras pos
    end
  else ret tt.

Definition evaluate_final_stack (stack : Stack) : result unit :=
  match stack with
  | [] => Err FinalStackInvalid
  | [i] => if bool_decide (i = IInt 1) then Ok tt else Err FinalStackInvalid
  | _ => Err FinalStackInvalid
  end.

Definition execute_eval (data : bytes) (extras : ScriptExtras) : result unit :=
  match eval_loop (S (length data)) data extras 0 [] with
  | (Ok _, stack) => evaluate_final_stack stack
  | (Err e, _) => Err e
  end.

Definition raw_script_eval (input_data output_script : bytes) (extras : ScriptExtras) : result unit :=
  match multisig_re_match output_script with
  | Some _ =>
      let? redeem_script_pos := get_multisig_redeem_script_pos input_data in
      let? _ := execute_eval (drop (Z.to_nat redeem_script_pos) input_data ++ output_script) extras in
      let? multisig_data := get_multisig_data input_data in
      execute_eval multisig_data extras
  | None => execute_eval (input_data ++ output_script) extras
  end.

Definition script_eval (tx : script_tx) (txin : TxInput) (spent_outputs : list TxOutput) : result unit :=
  let? spent := output_at spent_outputs (in_index txin) in
  raw_script_eval (in_data txin) (out_script spent) (UtxoScriptExtras tx txin spent_outputs).

(** [TransactionVerifier.verify_script] *)
Definition verify_script (tx : script_tx) (txin : TxInput) (spent_outputs : list TxOutput) : result unit :=
  match script_eval tx txin spent_outputs with
  | Err e => Err (if issubclass_exn e ScriptError then InvalidInputData else e)
  | r => r
  end.
End vm.
