(* ===== verification/ScriptTheory.v ===== *)
(** The structure of script evaluation: reading operations does not depend on where
    the script starts, evaluation terminates, and a script that parses on its own is
    executed on its own, whatever follows it. *)

From stdpp Require Import base list gmap.
From Stdlib Require Import ZArith Lia Strings.Byte.
From S2P Require Import Prelude PyInt ScriptCode ScriptVM.

Local Open Scope Z_scope.
Local Open Scope py_scope.

(** * Reading at a position *)

Lemma lookup_shift {A} (pre s : list A) (i : nat) : (pre ++ s) !! (length pre + i)%nat = s !! i.
Proof. rewrite lookup_app_r by lia. f_equal. lia. Qed.

Lemma single_byte_shift pre s p : 0 <= p ->
  get_data_single_byte (blen pre + p) (pre ++ s) = get_data_single_byte p s.
Proof.
  intros Hp. unfold get_data_single_byte, byte_at, blen. rewrite length_app.
  replace (Z.to_nat (Z.of_nat (length pre) + p)) with (length pre + Z.to_nat p)%nat by lia.
  rewrite lookup_shift. destruct (Z.ltb_spec p (Z.of_nat (length s))).
  - rewrite (proj2 (Z.leb_le 0 p)), (proj2 (Z.leb_le 0 (_ + p))) by lia.
    by rewrite (proj2 (Z.ltb_lt _ (Z.of_nat (length pre + length s)))) by lia.
  - rewrite (proj2 (Z.ltb_ge (_ + p) _)) by lia. by rewrite !andb_false_r.
Qed.

Lemma slice_shift pre s a b : 0 <= a -> slice (pre ++ s) (blen pre + a) (blen pre + b) = slice s a b.
Proof.
  intros Ha. unfold slice, blen.
  replace (Z.of_nat (length pre) + b - (Z.of_nat (length pre) + a)) with (b - a) by lia. f_equal.
  replace (Z.to_nat (Z.of_nat (length pre) + a)) with (length pre + Z.to_nat a)%nat by lia.
  by rewrite drop_app_add.
Qed.

(** the three checks together *)
Lemma get_data_bytes_eq position length data : 0 < position ->
  get_data_bytes position length data =
    if (0 <? length) && (position + length <=? blen data) then Ok (slice data position (position + length))
    else Err OutOfData.
Proof. intros Hp. unfold get_data_bytes. repeat case_match; try done; blia. Qed.

Lemma data_bytes_shift pre s p n : 0 < p ->
  get_data_bytes (blen pre + p) n (pre ++ s) = get_data_bytes p n s.
Proof.
  intros Hp. pose proof (blen_nonneg pre). rewrite !get_data_bytes_eq by lia.
  rewrite blen_app. replace (blen pre + p + n <=? blen pre + blen s) with (p + n <=? blen s) by lia.
  rewrite <- Z.add_assoc, slice_shift by lia. done.
Qed.

Definition shift_op (n : Z) (r : result (Z * Z * option item)) : result (Z * Z * option item) :=
  match r with Ok (o, p, i) => Ok (o, n + p, i) | Err e => Err e end.

Lemma script_op_shift pre s :
  get_script_op (blen pre) (pre ++ s) = shift_op (blen pre) (get_script_op 0 s).
Proof.
  unfold get_script_op. pose proof (blen_nonneg pre).
  rewrite <- (Z.add_0_r (blen pre)) at 1. rewrite single_byte_shift by lia.
  destruct (get_data_single_byte 0 s) as [o|e]; [|done]. simpl.
  destruct (is_valid_opcode o); simpl; [|done].
  change (0 + 1) with 1. change (1 + 1) with 2. rewrite <- !Z.add_assoc. change (1 + 1) with 2.
  destruct ((1 <=? o) && (o <=? 75)).
  { rewrite data_bytes_shift by lia. by destruct (get_data_bytes 1 o s). }
  destruct (o =? 76).
  { rewrite single_byte_shift by lia. destruct (get_data_single_byte 1 s) as [n|]; simpl; [|done].
    rewrite data_bytes_shift, <- Z.add_assoc by lia. by destruct (get_data_bytes 2 n s). }
  destruct ((80 <=? o) && (o <=? 96)); simpl; [|done]. by destruct (decode_opn o).
Qed.

Lemma single_byte_range p s o : get_data_single_byte p s = Ok o -> 0 <= o < 256 /\ 0 <= p < blen s.
Proof.
  unfold get_data_single_byte, byte_at. case_match eqn:E; [|done].
  destruct (s !! Z.to_nat p) as [b|]; [|done]. intros [= <-]. split; [apply b2z_range|]. blia.
Qed.

(** an operation takes at least one byte and stays within the script *)
Lemma script_op_progress s o p i : get_script_op 0 s = Ok (o, p, i) -> 1 <= p <= blen s.
Proof.
  unfold get_script_op. intros H. inv_rok H. apply single_byte_range in Hm as [_ Hm].
  case_match; [done|]. case_match; [|case_match; [|case_match]].
  - inv_rok H. rewrite get_data_bytes_eq in Hm0 by lia. case_match; [|done]. simplify_eq. blia.
  - inv_rok H. inv_rok H. rewrite get_data_bytes_eq in Hm1 by lia. case_match; [|done]. simplify_eq. blia.
  - inv_rok H. simplify_eq. blia.
  - simplify_eq. blia.
Qed.

Lemma single_byte_extend p s t o : get_data_single_byte p s = Ok o -> get_data_single_byte p (s ++ t) = Ok o.
Proof.
  intros H. pose proof (single_byte_range _ _ _ H) as [_ Hp]. revert H.
  unfold get_data_single_byte, byte_at, blen in *. rewrite length_app.
  rewrite (proj2 (Z.leb_le 0 p)), (proj2 (Z.ltb_lt p _)), (proj2 (Z.ltb_lt p (Z.of_nat (_ + _)))) by lia.
  rewrite lookup_app_l by lia. done.
Qed.

Lemma data_bytes_extend p n s t d : 0 < p -> get_data_bytes p n s = Ok d -> get_data_bytes p n (s ++ t) = Ok d.
Proof.
  intros Hp. rewrite !get_data_bytes_eq, blen_app by lia. pose proof (blen_nonneg t).
  case_match eqn:E; [|done]. intros [= <-].
  rewrite (proj2 (Z.ltb_lt 0 n)), (proj2 (Z.leb_le (p + n) (blen s + blen t))) by lia. simpl. f_equal.
  unfold slice, blen in *. rewrite drop_app_le by lia. rewrite take_app_le; [done|]. rewrite length_drop. lia.
Qed.

(** what follows a complete operation does not change it *)
Lemma script_op_extend s t o p i : get_script_op 0 s = Ok (o, p, i) -> get_script_op 0 (s ++ t) = Ok (o, p, i).
Proof.
  unfold get_script_op. intros H. inv_rok H. rewrite (single_byte_extend _ _ _ _ Hm). cbn [rbind].
  case_match; [done|]. case_match; [|case_match; [|done]].
  - inv_rok H. by rewrite (data_bytes_extend (0 + 1) _ _ _ _ ltac:(lia) Hm0).
  - inv_rok H. inv_rok H. rewrite (single_byte_extend _ _ _ _ Hm0). simpl.
    by rewrite (data_bytes_extend (0 + 1 + 1) _ _ _ _ ltac:(lia) Hm1).
Qed.

Lemma single_byte_prefix q n s o : get_data_single_byte q s = Ok o -> q < n <= blen s ->
  get_data_single_byte q (take (Z.to_nat n) s) = Ok o.
Proof.
  intros H Hn. pose proof (single_byte_range _ _ _ H) as [_ Hp]. revert H.
  unfold get_data_single_byte, byte_at, blen in *. rewrite length_take.
  rewrite (proj2 (Z.leb_le 0 q)), (proj2 (Z.ltb_lt q _)), (proj2 (Z.ltb_lt q (Z.of_nat (_ `min` _)))) by lia.
  rewrite lookup_take_lt by lia. done.
Qed.

Lemma data_bytes_prefix q m s d : 0 < q -> get_data_bytes q m s = Ok d ->
  get_data_bytes q m (take (Z.to_nat (q + m)) s) = Ok d.
Proof.
  intros Hq. rewrite !get_data_bytes_eq by lia. case_match eqn:E; [|done]. intros [= <-].
  unfold slice, blen in *. rewrite length_take.
  rewrite (proj2 (Z.ltb_lt 0 m)), (proj2 (Z.leb_le (q + m) (Z.of_nat (_ `min` _)))) by lia. simpl. f_equal.
  rewrite skipn_firstn_comm, take_take. f_equal. lia.
Qed.

(** an operation only depends on its own bytes *)
Lemma script_op_prefix s o p i : get_script_op 0 s = Ok (o, p, i) ->
  get_script_op 0 (take (Z.to_nat p) s) = Ok (o, p, i).
Proof.
  intros H. pose proof (script_op_progress _ _ _ _ H) as Hp. revert H. unfold get_script_op. intros H. inv_rok H.
  rewrite (single_byte_prefix _ _ _ _ Hm) by lia. cbn [rbind].
  case_match; [done|]. case_match; [|case_match; [|case_match]].
  - inv_rok H. injection H as <- <- <-. by rewrite (data_bytes_prefix (0 + 1) _ _ _ ltac:(lia) Hm0).
  - inv_rok H. inv_rok H. injection H as <- <- <-. pose proof (single_byte_range _ _ _ Hm0) as [? _].
    rewrite (single_byte_prefix _ _ _ _ Hm0) by lia. cbn [rbind].
    by rewrite (data_bytes_prefix (0 + 1 + 1) _ _ _ ltac:(lia) Hm1).
  - done.
  - done.
Qed.

(** * Scripts that parse *)

(** the operations of a script: opcode and pushed item of each *)
Inductive parses : bytes -> list (Z * option item) -> Prop :=
| parses_nil : parses [] []
| parses_cons s o p i ops :
    get_script_op 0 s = Ok (o, p, i) -> parses (drop (Z.to_nat p) s) ops -> parses s ((o, i) :: ops).

Lemma parses_app s t a b : parses s a -> parses t b -> parses (s ++ t) (a ++ b).
Proof.
  induction 1 as [|s o p i ops E Hp IH]; intros Ht; [done|]. simpl.
  eapply parses_cons; [by apply script_op_extend|].
  pose proof (script_op_progress _ _ _ _ E) as Hr. rewrite drop_app_le; [by apply IH|]. unfold blen in Hr. lia.
Qed.

Lemma parses_one s o i : get_script_op 0 s = Ok (o, blen s, i) -> parses s [(o, i)].
Proof.
  intros E. eapply parses_cons; [exact E|]. rewrite drop_ge; [constructor|]. unfold blen. lia.
Qed.

Lemma drop_split (p : Z) (s : bytes) : 1 <= p <= blen s ->
  s = take (Z.to_nat p) s ++ drop (Z.to_nat p) s /\ blen (take (Z.to_nat p) s) = p /\
  (length (drop (Z.to_nat p) s) < length s)%nat.
Proof.
  intros Hp. unfold blen in *. split; [by rewrite take_drop|]. rewrite length_take, length_drop. lia.
Qed.


(** * Evaluation *)

Section eval.
Context {CR : Crypto} {ST : ScriptSettings} (ex : ScriptExtras).

Definition run_ops (ops : list (Z * option item)) : M Stack unit :=
  for_each ops (fun op => eval_step ex (fst op) (snd op)).

Lemma run_ops_app a b st : run_ops (a ++ b) st = (run_ops a ;;; run_ops b) st.
Proof.
  revert st. induction a as [|op a IH]; intros st; [done|]. unfold run_ops in *. simpl.
  unfold bind at 1 2 3. destruct (eval_step _ _ _ st) as [[[]|e] st']; [|done]. rewrite IH. done.
Qed.

(** one turn, at any position *)
Lemma eval_loop_step fuel pre s st : s <> [] ->
  eval_loop (S fuel) (pre ++ s) ex (blen pre) st =
  match get_script_op 0 s with
  | Err e => (Err e, st)
  | Ok (o, p, i) =>
      (eval_step ex o i ;;; eval_loop fuel ((pre ++ take (Z.to_nat p) s) ++ drop (Z.to_nat p) s) ex
        (blen (pre ++ take (Z.to_nat p) s))) st
  end.
Proof.
  intros Hne. cbn [eval_loop].
  rewrite (proj2 (Z.ltb_lt (blen pre) (blen (pre ++ s))))
    by (rewrite blen_app; destruct s; [done|rewrite blen_cons; pose proof (blen_nonneg s); lia]).
  rewrite script_op_shift. destruct (get_script_op 0 s) as [[[o p] i]|e] eqn:E; [|done].
  destruct (drop_split p s (script_op_progress _ _ _ _ E)) as (Hs & Hp & _).
  unfold lift, bind at 1. cbn [shift_op]. rewrite <- app_assoc, take_drop, blen_app, Hp. done.
Qed.

Lemma eval_loop_nil fuel pre st : eval_loop fuel pre ex (blen pre) st = (Ok tt, st).
Proof. destruct fuel; cbn [eval_loop]; by rewrite Z.ltb_irrefl. Qed.

(** the position and the spare fuel do not matter *)
Lemma eval_loop_shift fuel : forall fuel' pre pre' s st, (length s < fuel)%nat -> (length s < fuel')%nat ->
  eval_loop fuel (pre ++ s) ex (blen pre) st = eval_loop fuel' (pre' ++ s) ex (blen pre') st.
Proof.
  induction fuel as [|fuel IH]; intros fuel' pre pre' s st Hf Hf'; [lia|].
  destruct fuel' as [|fuel']; [lia|]. destruct (decide (s = [])) as [->|Hne].
  { by rewrite !app_nil_r, !eval_loop_nil. }
  rewrite !eval_loop_step by done. destruct (get_script_op 0 s) as [[[o p] i]|e] eqn:E; [|done].
  destruct (drop_split p s (script_op_progress _ _ _ _ E)) as (_ & _ & Hl).
  unfold bind. destruct (eval_step ex o i st) as [[[]|e] st']; [|done]. apply IH; lia.
Qed.

Lemma eval_parses s ops : parses s ops -> forall fuel pre t st, (length (s ++ t) < fuel)%nat ->
  eval_loop fuel (pre ++ s ++ t) ex (blen pre) st =
  (run_ops ops ;;; eval_loop (S (length t)) t ex 0) st.
Proof.
  induction 1 as [|s o p i ops E Hp IH]; intros fuel pre t st Hf.
  { simpl. exact (eval_loop_shift fuel (S (length t)) pre [] t st Hf ltac:(lia)). }
  destruct fuel as [|fuel]; [lia|].
  destruct (drop_split p s (script_op_progress _ _ _ _ E)) as (_ & Hb & Hl).
  pose proof (script_op_progress _ _ _ _ E) as Hr.
  rewrite eval_loop_step; [|destruct s; [unfold blen in Hr; simpl in Hr; lia|done]].
  rewrite (script_op_extend _ t _ _ _ E).
  rewrite take_app_le, drop_app_le by (unfold blen in Hr; lia).
  unfold run_ops. simpl. unfold bind at 1 2 3. destruct (eval_step ex o i st) as [[[]|e] st']; [|done].
  rewrite IH; [done|]. rewrite length_app in *. lia.
Qed.

(** the whole evaluation of a script made of two *)
Lemma execute_eval_app s t a b : parses s a -> parses t b ->
  execute_eval (s ++ t) ex =
  match (run_ops a ;;; run_ops b) [] with
  | (Ok _, st) => evaluate_final_stack st
  | (Err e, _) => Err e
  end.
Proof.
  intros Ha Hb. unfold execute_eval.
  pose proof (eval_parses s a Ha (S (length (s ++ t))) [] t [] ltac:(lia)) as E0. simpl app in E0.
  change (blen []) with 0 in E0. rewrite E0. unfold bind. destruct (run_ops a []) as [[[]|e] st]; [|done].
  pose proof (eval_parses t b Hb (S (length t)) [] [] st) as E. rewrite app_nil_r in E. simpl app in E.
  change (blen []) with 0 in E. rewrite E by lia. unfold bind. by destruct (run_ops b st) as [[[]|e] st'].
Qed.

Lemma execute_eval_parses s a : parses s a ->
  execute_eval s ex =
  match run_ops a [] with
  | (Ok _, st) => evaluate_final_stack st
  | (Err e, _) => Err e
  end.
Proof.
  intros Ha. pose proof (execute_eval_app [] s [] a parses_nil Ha) as E. exact E.
Qed.
End eval.

(** * The other loops *)

Section loops.
Context {CR : Crypto} {ST : ScriptSettings}.

Lemma ltb_suffix pre s : (blen pre <? blen (pre ++ s)) = negb (bool_decide (s = [])).
Proof.
  rewrite blen_app. destruct s as [|b s]; [rewrite blen_nil, Z.add_0_r; apply Z.ltb_irrefl|].
  rewrite bool_decide_eq_false_2 by done. apply Z.ltb_lt. rewrite blen_cons. pose proof (blen_nonneg s). lia.
Qed.

(** the operation at the end of [pre], and the position after it *)
Lemma script_op_at pre s o q i : get_script_op (blen pre) (pre ++ s) = Ok (o, q, i) ->
  exists p, get_script_op 0 s = Ok (o, p, i) /\ q = blen (pre ++ take (Z.to_nat p) s) /\
    pre ++ s = (pre ++ take (Z.to_nat p) s) ++ drop (Z.to_nat p) s.
Proof.
  rewrite script_op_shift. destruct (get_script_op 0 s) as [[[o' p] i']|e] eqn:E; [|done].
  intros [= -> <- ->]. exists p. destruct (drop_split p s (script_op_progress _ _ _ _ E)) as (_ & Hp & _).
  split; [done|]. rewrite blen_app, Hp, <- app_assoc, take_drop. done.
Qed.

Lemma count_sigops_loop_parses fuel en : forall pre s n lo m,
  count_sigops_loop fuel en (pre ++ s) (blen pre) n lo = Ok m -> exists ops, parses s ops.
Proof.
  induction fuel as [|fuel IH]; intros pre s n lo m; cbn [count_sigops_loop]; rewrite ltb_suffix;
    case_bool_decide as Hs; simpl; try done; try (subst s; by exists []; constructor).
  intros H. inv_rok H. destruct a as [[o q] i]. inv_rok H.
  apply script_op_at in Hm as (p & E & -> & Hsplit). rewrite Hsplit in H.
  apply IH in H as [ops Hops]. exists ((o, i) :: ops). by eapply parses_cons.
Qed.

(** the signature-operation count only succeeds on a script that parses *)
Lemma count_sigops_parses en data n : count_sigops en data = Ok n -> exists ops, parses data ops.
Proof. intros H. by eapply (count_sigops_loop_parses _ _ [] data). Qed.

(** the position of the last operation *)
Lemma redeem_pos_parses fuel : forall pre s last q, redeem_pos_loop fuel (pre ++ s) (blen pre) last = Ok q ->
  (s = [] /\ q = last) \/
  exists a b opsa op, s = a ++ b /\ parses a opsa /\ parses b [op] /\ q = blen (pre ++ a).
Proof.
  induction fuel as [|fuel IH]; intros pre s last q; cbn [redeem_pos_loop]; rewrite ltb_suffix;
    case_bool_decide as Hs; simpl; try done; try (intros [= <-]; by left).
  intros H. inv_rok H. destruct a as [[o q'] i].
  apply script_op_at in Hm as (p & E & -> & Hsplit). rewrite Hsplit in H. right.
  destruct (drop_split p s (script_op_progress _ _ _ _ E)) as (Hs' & Hp & _).
  apply IH in H as [[Hd ->]|(a & b & opsa & op & Hd & Ha & Hb & ->)].
  - exists [], s, [], (o, i). rewrite app_nil_r. split; [done|]. split; [constructor|].
    split; [|done]. apply parses_one. rewrite Hd, app_nil_r in Hs'. rewrite Hs' at 2. by rewrite Hp.
  - exists (take (Z.to_nat p) s ++ a), b, ((o, i) :: opsa), op. rewrite Hd in Hs'.
    split; [by rewrite <- app_assoc|]. rewrite (app_assoc pre). split; [|done].
    eapply parses_cons.
    + apply script_op_extend, script_op_prefix, E.
    + rewrite drop_app_length'; [done|]. unfold blen in Hp. lia.
Qed.

(** what [get_multisig_data] keeps of an operation: blocks of data, no integers *)
Definition push_block (st : Stack) (op : Z * option item) : Stack :=
  if (1 <=? fst op) && (fst op <=? 75) || (fst op =? opcode_value OP_PUSHDATA1)
  then push_opt (snd op) st else st.

Lemma script_op_opcode s o p i : get_script_op 0 s = Ok (o, p, i) -> get_data_single_byte 0 s = Ok o.
Proof.
  unfold get_script_op. intros H. inv_rok H. rewrite Hm. f_equal.
  case_match; [done|]. case_match; [|case_match; [|case_match]]; repeat inv_rok H; congruence.
Qed.

Lemma script_op_single s o p i : get_script_op 0 s = Ok (o, p, i) ->
  (1 <=? o) && (o <=? 75) || (o =? opcode_value OP_PUSHDATA1) = false -> p = 1.
Proof.
  intros H Ho. apply orb_false_iff in Ho as [H1 H2]. pose proof (script_op_opcode _ _ _ _ H) as Hb.
  revert H. unfold get_script_op. rewrite Hb. cbn [rbind]. case_match; [done|]. rewrite H1, H2.
  case_match; intros E; [inv_rok E|]; simplify_eq; lia.
Qed.

Lemma byte_at_suffix pre s o : get_data_single_byte 0 s = Ok o -> byte_at (pre ++ s) (blen pre) = Ok o.
Proof.
  intros H. rewrite <- (single_byte_shift pre s 0), Z.add_0_r in H by lia.
  revert H. unfold get_data_single_byte. by case_match.
Qed.

Lemma multisig_data_step fuel pre s o p i last st : get_script_op 0 s = Ok (o, p, i) ->
  multisig_data_loop (S fuel) (pre ++ s) (blen pre) last st =
  multisig_data_loop fuel ((pre ++ take (Z.to_nat p) s) ++ drop (Z.to_nat p) s)
    (blen (pre ++ take (Z.to_nat p) s)) (blen pre) (push_block st (o, i)).
Proof.
  intros E. pose proof (script_op_progress _ _ _ _ E) as Hr.
  destruct (drop_split p s Hr) as (_ & Hp & _). pose proof (script_op_opcode _ _ _ _ E) as Hb.
  cbn [multisig_data_loop]. rewrite ltb_suffix, bool_decide_eq_false_2
    by (intros ->; unfold blen in Hr; simpl in Hr; lia). cbn [negb].
  rewrite (byte_at_suffix pre s o Hb). cbn [rbind].
  rewrite <- app_assoc, take_drop, blen_app, Hp.
  unfold op_pushdata, op_pushdata1, push_block. rewrite script_op_shift, E. cbn [shift_op rbind fst snd].
  pose proof (script_op_single _ _ _ _ E) as H1.
  destruct ((1 <=? o) && (o <=? 75)) eqn:E1; cbn [orb].
  - apply andb_true_iff in E1 as [_ ->]. done.
  - destruct (o =? opcode_value OP_PUSHDATA1) eqn:E2; [done|]. cbn [rbind]. by rewrite H1.
Qed.

Lemma multisig_data_parses a opsa b op : parses a opsa -> parses b [op] ->
  forall fuel pre last st, (length (a ++ b) < fuel)%nat ->
  multisig_data_loop fuel (pre ++ a ++ b) (blen pre) last st =
  Ok (blen (pre ++ a), push_block (foldl push_block st opsa) op).
Proof.
  intros Ha Hb. induction Ha as [|a o p i ops E Hp IH]; intros fuel pre last st Hf.
  - inversion Hb as [|? o p i ops' E Hd]; subst. destruct fuel as [|fuel]; [lia|].
    simpl app. rewrite (multisig_data_step _ _ _ _ _ _ _ _ E).
    destruct (drop_split p b (script_op_progress _ _ _ _ E)) as (_ & Hpp & _).
    inversion Hd as [Hd0|]. rewrite !app_nil_r. simpl.
    destruct fuel; cbn [multisig_data_loop]; by rewrite Z.ltb_irrefl.
  - destruct fuel as [|fuel]; [lia|]. pose proof (script_op_progress _ _ _ _ E) as Hr.
    rewrite (multisig_data_step _ _ _ o p i) by (by apply script_op_extend).
    destruct (drop_split p a Hr) as (_ & _ & Hl).
    rewrite take_app_le, drop_app_le by (unfold blen in Hr; lia).
    rewrite IH by (rewrite length_app in *; lia).
    rewrite <- app_assoc, take_drop. done.
Qed.
End loops.
