(* ===== verification/ScriptP2PKH.v ===== *)
(** The standard output scripts: what their builders write, how they parse back, and
    who can spend a pay-to-public-key-hash output. *)

From stdpp Require Import base list gmap.
From Stdlib Require Import ZArith Lia Strings.Byte.
From S2P Require Import Prelude PyInt ScriptCode ScriptVM ScriptTheory.

Local Open Scope Z_scope.
Local Open Scope py_scope.

(** * Builders *)

(** the bytes [pushData] appends for a block of data *)
Definition push_bytes (b : bytes) : bytes :=
  if blen b <=? 75 then [z2b (blen b)] ++ b else [z2b (opcode_value OP_PUSHDATA1)] ++ [z2b (blen b)] ++ b.

Definition op_byte (o : Opcode) : bytes := [z2b (opcode_value o)].

Lemma pushData_eq b self : blen b <= 255 -> pushData (IBytes b) self = (Ok tt, self ++ push_bytes b).
Proof.
  intros Hb. unfold pushData, lift, bind, single_byte. pose proof (blen_nonneg b).
  rewrite (proj2 (Z.leb_le 0 (blen b))), (proj2 (Z.ltb_lt (blen b) 256)) by lia. simpl.
  unfold push_bytes. by destruct (blen b <=? 75).
Qed.

Lemma pushes_eq l : forall self, Forall (fun b => blen b <= 255) l ->
  for_each l (fun b => pushData (IBytes b)) self = (Ok tt, self ++ concat (map push_bytes l)).
Proof.
  induction l as [|b l IH]; intros self Hl; simpl; [by rewrite app_nil_r|].
  apply Forall_cons in Hl as [Hb Hl]. rewrite (bind_ok _ _ _ _ _ (pushData_eq b self Hb)), IH by done.
  by rewrite <- app_assoc.
Qed.

(** * Their operations *)

Definition push_op (b : bytes) : Z * option item :=
  (if blen b <=? 75 then blen b else opcode_value OP_PUSHDATA1, Some (IBytes b)).

Definition fun_op (o : Opcode) : Z * option item := (opcode_value o, None).

Lemma parses_push b : 1 <= blen b <= 255 -> parses (push_bytes b) [push_op b].
Proof.
  intros Hb. unfold push_bytes, push_op.
  assert (Hz : b2z (z2b (blen b)) = blen b) by (apply b2z_z2b_small; lia).
  destruct (Z.leb_spec (blen b) 75) as [H|H]; apply parses_one; unfold get_script_op.
  - replace (get_data_single_byte 0 _) with (Ok (blen b)) by
      (unfold get_data_single_byte, byte_at; simpl; by rewrite Hz). cbn [rbind].
    assert (Hv : is_valid_opcode (blen b) = true).
    { unfold is_valid_opcode, is_pushdata. by rewrite (proj2 (Z.leb_le 1 _)), (proj2 (Z.leb_le _ 75)) by lia. }
    rewrite Hv. cbn [negb]. rewrite (proj2 (Z.leb_le 1 _)), (proj2 (Z.leb_le _ 75)) by lia. cbn [andb].
    rewrite get_data_bytes_eq by lia. rewrite blen_app.
    change (blen [z2b (blen b)]) with 1. rewrite (proj2 (Z.ltb_lt 0 _)), (proj2 (Z.leb_le _ (1 + blen b))) by lia.
    cbn [andb rbind]. unfold slice.
    replace (Z.to_nat (0 + 1 + blen b - (0 + 1))) with (length b) by (unfold blen; lia).
    change (drop _ ([z2b (blen b)] ++ b)) with b. by rewrite firstn_all.
  - change (z2b (opcode_value OP_PUSHDATA1)) with Byte.x4c.
    change (get_data_single_byte 0 _) with (Ok (A := Z) 76). cbn [rbind].
    change (negb (is_valid_opcode 76)) with false. cbn [andb].
    change ((1 <=? 76) && (76 <=? 75)) with false.
    change (76 =? opcode_value OP_PUSHDATA1) with true. cbn iota.
    replace (get_data_single_byte (0 + 1) _) with (Ok (blen b)) by
      (unfold get_data_single_byte, byte_at, blen in *; simpl length; simpl; rewrite Hz;
       by rewrite (proj2 (Z.ltb_lt 1 _)) by lia). cbn [rbind].
    rewrite get_data_bytes_eq by lia. rewrite !blen_app.
    change (blen [Byte.x4c]) with 1. change (blen [z2b (blen b)]) with 1.
    rewrite (proj2 (Z.ltb_lt 0 _)), (proj2 (Z.leb_le _ (1 + (1 + blen b)))) by lia.
    cbn [andb rbind]. unfold slice.
    replace (Z.to_nat (0 + 1 + 1 + blen b - (0 + 1 + 1))) with (length b) by (unfold blen; lia).
    change (drop _ ([Byte.x4c] ++ [z2b (blen b)] ++ b)) with b. rewrite firstn_all.
    do 3 f_equal. lia.
Qed.

Lemma parses_fun o : is_pushdata (opcode_value o) = false -> parses (op_byte o) [fun_op o].
Proof. intros H. apply parses_one. by destruct o. Qed.

(** the opcodes that push a small integer *)
Definition op_n (n : Z) : Z * option item := (opcode_value OP_0 + n, Some (IInt n)).

Lemma parses_op_n o n : opcode_n n = Ok o -> parses (op_byte o) [op_n n].
Proof.
  unfold opcode_n. case_match eqn:E; [|done]. intros H. apply parses_one.
  assert (n = opcode_value o - opcode_value OP_0 /\ 80 <= opcode_value o <= 96) as [-> Hr].
  { unfold opcode_of in H. destruct (List.find _ _) as [o'|] eqn:F; [|done]. injection H as ->.
    apply find_some in F as [_ F]. simpl opcode_value in *. lia. }
  destruct o; try (simpl in Hr; lia); reflexivity.
Qed.

(** * Running them *)

Lemma need_ok n st : n <= Z.of_nat (length st) -> need n st = (Ok tt, st).
Proof. intros H. unfold need. by rewrite (proj2 (Z.ltb_ge _ _) H). Qed.

Lemma need_missing n st : Z.of_nat (length st) < n -> need n st = (Err MissingStackItems, st).
Proof. intros H. unfold need. by rewrite (proj2 (Z.ltb_lt _ _) H). Qed.

Ltac step_need :=
  match goal with
  | |- context [bind (need ?n) _ ?st] =>
      rewrite (bind_ok (need n) _ st tt st (need_ok n st ltac:(rewrite ?length_app; simpl length; lia)))
  end.

Section run.
Context {CR : Crypto} {ST : ScriptSettings} (ex : ScriptExtras).

Abbreviation run := (run_ops ex).

Lemma run_cons op ops st : run (op :: ops) st = (eval_step ex (fst op) (snd op) ;;; run ops) st.
Proof. done. Qed.

Lemma is_pushdata_push b : 1 <= blen b <= 255 -> is_pushdata (fst (push_op b)) = true.
Proof.
  intros Hb. unfold push_op. simpl fst. destruct (Z.leb_spec (blen b) 75); [|done].
  unfold is_pushdata. by rewrite (proj2 (Z.leb_le 1 _)), (proj2 (Z.leb_le _ 75)) by lia.
Qed.

Lemma run_push b ops st : 1 <= blen b <= 255 -> run (push_op b :: ops) st = run ops (IBytes b :: st).
Proof.
  intros Hb. rewrite run_cons. unfold eval_step. rewrite (is_pushdata_push b Hb). done.
Qed.

Lemma run_pushes l ops : forall st, Forall (fun b => 1 <= blen b <= 255) l ->
  run (map push_op l ++ ops) st = run ops (map IBytes (rev l) ++ st).
Proof.
  induction l as [|b l IH]; intros st Hl; [done|]. apply Forall_cons in Hl as [Hb Hl].
  simpl app. rewrite run_push, IH by done. simpl rev. rewrite map_app, <- app_assoc. done.
Qed.

Lemma run_op_n n ops st : 0 <= n <= 16 -> run (op_n n :: ops) st = run ops (IInt n :: st).
Proof.
  intros Hn. rewrite run_cons. unfold eval_step, op_n. simpl fst.
  replace (is_pushdata (80 + n)) with true; [done|]. unfold is_pushdata. simpl opcode_value.
  rewrite (proj2 (Z.leb_gt (80 + n) 75)), andb_false_r by lia.
  by rewrite (proj2 (Z.leb_le 80 _)), (proj2 (Z.leb_le _ 96)) by lia.
Qed.

Lemma run_fun o ops st : is_pushdata (opcode_value o) = false ->
  run (fun_op o :: ops) st = (execute_op_code o ex ;;; run ops) st.
Proof.
  intros H. rewrite run_cons. unfold eval_step, fun_op. simpl fst. rewrite H.
  replace (opcode_of (opcode_value o)) with (Ok o) by (by destruct o). done.
Qed.

Lemma op_dup_eq st : op_dup st =
  match st with [] => (Err MissingStackItems, []) | i :: _ => (Ok tt, i :: st) end.
Proof. by destruct st; unfold op_dup; [|step_need]. Qed.

Lemma op_hash160_eq st : op_hash160 st =
  match st with
  | [] => (Err MissingStackItems, [])
  | IBytes b :: st' => (Ok tt, IBytes (get_hash160 b) :: st')
  | IInt _ :: st' => (Err AssertionError, st')
  end.
Proof. destruct st as [|[b|z] st]; unfold op_hash160; [done|by step_need..]. Qed.

Lemma op_equal_ok (b1 b2 : bytes) st :
  op_equal (IBytes b1 :: IBytes b2 :: st) = (Ok tt, IInt (if bool_decide (b1 = b2) then 1 else 0) :: st).
Proof. unfold op_equal. by step_need. Qed.

Lemma op_equal_inv st st' : op_equal st = (Ok tt, st') ->
  exists b1 b2 rest, st = IBytes b1 :: IBytes b2 :: rest /\
    st' = IInt (if bool_decide (b1 = b2) then 1 else 0) :: rest.
Proof.
  unfold op_equal. destruct st as [|i [|j st]]; [done|by rewrite (bind_err _ _ _ _ _ (need_missing 2 [i] ltac:(simpl; lia)))|].
  step_need. destruct i as [b1|?], j as [b2|?]; try done. intros [= <-]. eauto.
Qed.

Lemma op_equalverify_eq (b1 b2 : bytes) st :
  op_equalverify (IBytes b1 :: IBytes b2 :: st) =
  if bool_decide (b1 = b2) then (Ok tt, st) else (Err EqualVerifyFailed, st).
Proof.
  unfold op_equalverify. step_need. rewrite (bind_ok _ _ _ _ _ (op_equal_ok b1 b2 st)).
  by case_bool_decide.
Qed.

Lemma op_equalverify_inv st st' : op_equalverify st = (Ok tt, st') ->
  exists b, st = IBytes b :: IBytes b :: st'.
Proof.
  intros H. assert (exists b1 b2 rest, st = IBytes b1 :: IBytes b2 :: rest) as (b1 & b2 & rest & ->).
  { revert H. unfold op_equalverify. destruct st as [|i [|j st]];
      [done|by rewrite (bind_err _ _ _ _ _ (need_missing 2 [i] ltac:(simpl; lia)))|].
    step_need. intros H. apply bind_ok_inv in H as ([] & st1 & E & _).
    apply op_equal_inv in E as (b1 & b2 & rest & E & _). eauto. }
  rewrite op_equalverify_eq in H. case_bool_decide; [|done]. simplify_eq. eauto.
Qed.

(** the key and signature are a valid pair for the transaction *)
Definition signed_by (pk sig : bytes) : Prop := exists k data,
  is_pubkey_compressed pk = true /\ from_encoded_point pk = Some k /\
  stx_sighash (extras_tx ex) = Ok data /\ ecdsa_verify k sig data = true.

Lemma op_checksig_eq pk sig st : op_checksig ex (IBytes pk :: IBytes sig :: st) =
  match is_pubkey_compressed pk, from_encoded_point pk, stx_sighash (extras_tx ex) with
  | true, Some k, Ok data => (Ok tt, IInt (if ecdsa_verify k sig data then 1 else 0) :: st)
  | true, Some _, Err e => (Err e, st)
  | _, _, _ => (Err ScriptError, st)
  end.
Proof.
  unfold op_checksig. step_need. unfold bind, pop, assert_bytes, load_pubkey, raise, ret, push, lift.
  destruct (is_pubkey_compressed pk); simpl; [|done]. destruct (from_encoded_point pk) as [k|]; [|done].
  destruct (stx_sighash _) as [data|]; [|done]. by destruct (ecdsa_verify k sig _).
Qed.

Lemma op_checksig_true st st' : op_checksig ex st = (Ok tt, IInt 1 :: st') <->
  exists pk sig, st = IBytes pk :: IBytes sig :: st' /\ signed_by pk sig.
Proof.
  destruct st as [|i [|j st]].
  - split; [done|]. by intros (? & ? & ? & _).
  - unfold op_checksig. rewrite (bind_err _ _ _ _ _ (need_missing 2 [i] ltac:(simpl; lia))).
    split; [done|]. by intros (? & ? & ? & _).
  - destruct i as [pk|?], j as [sig|?];
      try (unfold op_checksig; step_need; split; [done|]; by intros (? & ? & ? & _)).
    rewrite op_checksig_eq. unfold signed_by. split.
    + destruct (is_pubkey_compressed pk) eqn:Ec; [|done].
      destruct (from_encoded_point pk) as [k|] eqn:Ek; [|done].
      destruct (stx_sighash _) as [data|] eqn:Ed; [|done].
      destruct (ecdsa_verify k sig _) eqn:Ev; intros [= <-]. eauto 12.
    + intros (pk' & sig' & [= <- <- <-] & k & data & -> & -> & -> & Hv). by rewrite Hv.
Qed.
End run.

(** * The standard output scripts *)

(** a timelock the builders encode in the four bytes the interpreter reads *)
Definition valid_lock (tl : option Z) : Prop :=
  match tl with None | Some 0 => True | Some t => 65535 < t <= 4294967295 end.

Definition lock_bytes (tl : option Z) : bytes :=
  match tl with
  | None | Some 0 => []
  | Some t => push_bytes (be_bytes 4 t) ++ op_byte OP_GREATERTHAN_TIMESTAMP
  end.

Definition lock_ops (tl : option Z) : list (Z * option item) :=
  match tl with
  | None | Some 0 => []
  | Some t => [push_op (be_bytes 4 t); fun_op OP_GREATERTHAN_TIMESTAMP]
  end.

Definition p2pkh_bytes (tl : option Z) (h : bytes) : bytes :=
  lock_bytes tl ++ op_byte OP_DUP ++ op_byte OP_HASH160 ++ push_bytes h ++
  op_byte OP_EQUALVERIFY ++ op_byte OP_CHECKSIG.

Definition p2pkh_ops (h : bytes) : list (Z * option item) :=
  [fun_op OP_DUP; fun_op OP_HASH160; push_op h; fun_op OP_EQUALVERIFY; fun_op OP_CHECKSIG].

Definition multisig_bytes (tl : option Z) (h : bytes) : bytes :=
  lock_bytes tl ++ op_byte OP_HASH160 ++ push_bytes h ++ op_byte OP_EQUAL.

Definition multisig_ops (h : bytes) : list (Z * option item) :=
  [fun_op OP_HASH160; push_op h; fun_op OP_EQUAL].

Lemma address_hash_len address : blen address = 25 -> blen (address_hash address) = 20.
Proof. unfold blen, address_hash, slice. intros H. rewrite length_take, length_drop. lia. Qed.

Lemma push_timelock_eq tl self : valid_lock tl -> push_timelock tl self = (Ok tt, self ++ lock_bytes tl).
Proof.
  intros Hv. destruct tl as [t|]; [|simpl; by rewrite app_nil_r].
  destruct (decide (t = 0)) as [->|Hne]; [simpl; by rewrite app_nil_r|].
  assert (Hr : 65535 < t <= 4294967295) by (by destruct t).
  assert (E : pushData (IInt t) self = (Ok tt, self ++ push_bytes (be_bytes 4 t))).
  { rewrite <- pushData_eq by (rewrite blen_be_bytes; lia). unfold pushData.
    replace (pushData_int t) with (Ok (be_bytes 4 t)); [done|]. unfold pushData_int, pack_uint.
    rewrite (proj2 (Z.ltb_ge 4294967295 t)), (proj2 (Z.ltb_lt 65535 t)) by lia.
    change (256 ^ Z.of_nat 4) with 4294967296.
    by rewrite (proj2 (Z.leb_le 0 t)), (proj2 (Z.ltb_lt t _)) by lia. }
  destruct t as [|t|t]; [done| |lia]. unfold push_timelock. rewrite (bind_ok _ _ _ _ _ E).
  unfold addOpcode, lock_bytes, op_byte. by rewrite <- app_assoc.
Qed.

Lemma p2pkh_script_eq address tl : blen address = 25 -> valid_lock tl ->
  p2pkh_create_output_script address tl = Ok (p2pkh_bytes tl (address_hash address)).
Proof.
  intros Ha Hl. unfold p2pkh_create_output_script, build_script. rewrite Ha. simpl Z.eqb. cbn [negb].
  rewrite (bind_ok _ _ _ _ _ (push_timelock_eq tl [] Hl)). unfold addOpcode, bind.
  rewrite pushData_eq by (rewrite address_hash_len by done; lia).
  unfold p2pkh_bytes, op_byte. rewrite <- !app_assoc. done.
Qed.

Lemma multisig_script_eq address tl : blen address = 25 -> valid_lock tl ->
  multisig_create_output_script address tl = Ok (multisig_bytes tl (address_hash address)).
Proof.
  intros Ha Hl. unfold multisig_create_output_script, build_script. rewrite Ha. simpl Z.eqb. cbn [negb].
  rewrite (bind_ok _ _ _ _ _ (push_timelock_eq tl [] Hl)). unfold addOpcode, bind.
  rewrite pushData_eq by (rewrite address_hash_len by done; lia).
  unfold multisig_bytes, op_byte. rewrite <- !app_assoc. done.
Qed.

Lemma p2pkh_create_len address tl script : p2pkh_create_output_script address tl = Ok script -> blen address = 25.
Proof. unfold p2pkh_create_output_script. by destruct (Z.eqb_spec (blen address) 25). Qed.

Lemma multisig_create_len address tl script :
  multisig_create_output_script address tl = Ok script -> blen address = 25.
Proof. unfold multisig_create_output_script. by destruct (Z.eqb_spec (blen address) 25). Qed.

Lemma parses_lock tl : valid_lock tl -> parses (lock_bytes tl) (lock_ops tl).
Proof.
  intros Hv. destruct tl as [[|t|t]|]; [exact parses_nil| |simpl in Hv; lia|exact parses_nil].
  apply (parses_app _ _ [push_op _] [fun_op _]); [|by apply parses_fun].
  apply parses_push. rewrite blen_be_bytes. lia.
Qed.

Lemma parses_p2pkh tl h : valid_lock tl -> 1 <= blen h <= 255 ->
  parses (p2pkh_bytes tl h) (lock_ops tl ++ p2pkh_ops h).
Proof.
  intros Hl Hh. apply parses_app; [by apply parses_lock|].
  apply (parses_app _ _ [_] (_ :: _)); [by apply parses_fun|].
  apply (parses_app _ _ [_] (_ :: _)); [by apply parses_fun|].
  apply (parses_app _ _ [_] (_ :: _)); [by apply parses_push|].
  apply (parses_app _ _ [_] (_ :: _)); by apply parses_fun.
Qed.

Lemma parses_multisig tl h : valid_lock tl -> 1 <= blen h <= 255 ->
  parses (multisig_bytes tl h) (lock_ops tl ++ multisig_ops h).
Proof.
  intros Hl Hh. apply parses_app; [by apply parses_lock|].
  apply (parses_app _ _ [_] (_ :: _)); [by apply parses_fun|].
  apply (parses_app _ _ [_] (_ :: _)); [by apply parses_push|by apply parses_fun].
Qed.

(** * The patterns on the standard scripts *)

Lemma re_op_byte o r : re_op o (op_byte o ++ r) = Some r.
Proof. unfold re_op, op_byte, re_lit. simpl. by destruct o. Qed.

Lemma re_op_other o o' r : opcode_value o <> opcode_value o' -> re_op o (op_byte o' ++ r) = None.
Proof.
  intros Hne. unfold re_op, op_byte, re_lit. simpl.
  replace (b2z (z2b (opcode_value o'))) with (opcode_value o') by (by destruct o').
  by rewrite (proj2 (Z.eqb_neq _ _)) by congruence.
Qed.

Lemma re_data_push b r : blen b <= 75 -> re_data (blen b) (push_bytes b ++ r) = Some (push_bytes b, r).
Proof.
  intros Hb. pose proof (blen_nonneg b). unfold re_data, push_bytes.
  rewrite (proj2 (Z.leb_le (blen b) 75)) by lia.
  assert (Hz : b2z (z2b (blen b)) = blen b) by (apply b2z_z2b_small; lia).
  simpl app. simpl re_lit. rewrite Hz.
  rewrite (proj2 (Z.eqb_neq (blen b) _)) by (simpl; lia). simpl re_lit. rewrite Hz, Z.eqb_refl. simpl.
  rewrite blen_app. pose proof (blen_nonneg r). rewrite (proj2 (Z.ltb_ge _ _)) by lia. do 2 f_equal.
  - replace (S (length (b ++ r)) - length (b ++ r) + Z.to_nat (blen b))%nat with (S (length b))
      by (unfold blen; lia). simpl. by rewrite take_app_length.
  - unfold blen. by rewrite Nat2Z.id, drop_app_length.
Qed.

Lemma re_data_pushdata1 b r : blen b <= 75 ->
  re_data (blen b) (op_byte OP_PUSHDATA1 ++ [z2b (blen b)] ++ b ++ r) =
  Some (op_byte OP_PUSHDATA1 ++ [z2b (blen b)] ++ b, r).
Proof.
  intros Hb. pose proof (blen_nonneg b). unfold re_data. fold (re_op OP_PUSHDATA1 (op_byte OP_PUSHDATA1 ++ [z2b (blen b)] ++ b ++ r)).
  rewrite re_op_byte. assert (Hz : b2z (z2b (blen b)) = blen b) by (apply b2z_z2b_small; lia).
  simpl re_lit. rewrite Hz, Z.eqb_refl. simpl.
  rewrite blen_app. pose proof (blen_nonneg r). rewrite (proj2 (Z.ltb_ge _ _)) by lia. do 2 f_equal.
  - replace (S (S (length (b ++ r))) - length (b ++ r) + Z.to_nat (blen b))%nat with (S (S (length b)))
      by (unfold blen; lia). simpl. by rewrite take_app_length.
  - unfold blen. by rewrite Nat2Z.id, drop_app_length.
Qed.

Lemma re_data_op n o r : 0 < n <= 75 -> n <> opcode_value o -> opcode_value o <> opcode_value OP_PUSHDATA1 ->
  re_data n (op_byte o ++ r) = None.
Proof.
  intros Hn Hne Ho. unfold re_data. fold (re_op OP_PUSHDATA1 (op_byte o ++ r)).
  rewrite re_op_other by congruence. unfold op_byte, re_lit. simpl.
  replace (b2z (z2b (opcode_value o))) with (opcode_value o) by (by destruct o).
  by rewrite (proj2 (Z.eqb_neq _ _)) by congruence.
Qed.

(** the timelock group, and what the rest of the pattern makes of the rest *)
Lemma re_timelocked_lock tail tl r :
  valid_lock tl -> (forall s, re_op OP_DUP s = None -> re_op OP_HASH160 s = None -> tail s = None) ->
  (exists o r', r = op_byte o ++ r' /\ (o = OP_DUP \/ o = OP_HASH160)) ->
  re_timelocked tail (lock_bytes tl ++ r) =
  match tail r with
  | Some h => Some (match tl with None | Some 0 => None | Some t => Some (push_bytes (be_bytes 4 t)) end, h)
  | None => None
  end.
Proof.
  intros Hv Htail (o & r' & -> & Ho). unfold re_timelocked.
  assert (Hno : re_data 4 (op_byte o ++ r') = None) by (destruct Ho; subst o; by apply re_data_op).
  destruct tl as [[|t|t]|]; [| |simpl in Hv; lia|].
  - change (lock_bytes _) with (@nil byte). rewrite app_nil_l, Hno. cbn [mbind option_bind]. by destruct (tail _).
  - set (b := be_bytes 4 (Z.pos t)).
    change (lock_bytes _) with (push_bytes b ++ op_byte OP_GREATERTHAN_TIMESTAMP). rewrite <- app_assoc.
    assert (Hb : blen b = 4) by apply blen_be_bytes. rewrite <- Hb at 1. rewrite re_data_push by lia.
    cbn [mbind option_bind snd fst]. rewrite re_op_byte. cbn [mbind option_bind].
    destruct (tail (op_byte o ++ r')) as [h|]; [done|]. cbn [mbind option_bind].
    replace (tail _) with (@None bytes); [done|]. symmetry. apply Htail; reflexivity.
  - change (lock_bytes _) with (@nil byte). rewrite app_nil_l, Hno. cbn [mbind option_bind].
    by destruct (tail _).
Qed.

Lemma p2pkh_tail_none s : re_op OP_DUP s = None -> re_op OP_HASH160 s = None -> p2pkh_tail s = None.
Proof. intros H _. unfold p2pkh_tail. by rewrite H. Qed.

Lemma multisig_tail_none s : re_op OP_DUP s = None -> re_op OP_HASH160 s = None -> multisig_tail s = None.
Proof. intros _ H. unfold multisig_tail. by rewrite H. Qed.

Definition lock_group (tl : option Z) : option bytes :=
  match tl with None | Some 0 => None | Some t => Some (push_bytes (be_bytes 4 t)) end.

Lemma p2pkh_matches tl h : valid_lock tl -> blen h = 20 ->
  p2pkh_re_match (p2pkh_bytes tl h) = Some (lock_group tl, push_bytes h) /\
  multisig_re_match (p2pkh_bytes tl h) = None.
Proof.
  intros Hv Hh. unfold p2pkh_re_match, multisig_re_match, p2pkh_bytes. split.
  - rewrite re_timelocked_lock; [|done|apply p2pkh_tail_none|by eauto].
    unfold p2pkh_tail. do 2 (rewrite re_op_byte; cbn [mbind option_bind snd fst]).
    rewrite <- Hh, re_data_push by lia. cbn [mbind option_bind snd fst].
    rewrite re_op_byte. cbn [mbind option_bind].
    change (op_byte OP_CHECKSIG) with (op_byte OP_CHECKSIG ++ []). by rewrite re_op_byte.
  - rewrite re_timelocked_lock; [|done|apply multisig_tail_none|by eauto].
    unfold multisig_tail. by rewrite re_op_other.
Qed.

Lemma multisig_matches tl h : valid_lock tl -> blen h = 20 ->
  multisig_re_match (multisig_bytes tl h) = Some (lock_group tl, push_bytes h) /\
  p2pkh_re_match (multisig_bytes tl h) = None.
Proof.
  intros Hv Hh. unfold p2pkh_re_match, multisig_re_match, multisig_bytes. split.
  - rewrite re_timelocked_lock; [|done|apply multisig_tail_none|by eauto].
    unfold multisig_tail. rewrite re_op_byte. cbn [mbind option_bind].
    rewrite <- Hh, re_data_push by lia. cbn [mbind option_bind snd fst].
    change (op_byte OP_EQUAL) with (op_byte OP_EQUAL ++ []). by rewrite re_op_byte.
  - rewrite re_timelocked_lock; [|done|apply p2pkh_tail_none|by eauto].
    unfold p2pkh_tail. by rewrite re_op_other.
Qed.

(** * Spending *)

Lemma final_stack_ok st : evaluate_final_stack st = Ok tt <-> st = [IInt 1].
Proof.
  destruct st as [|i [|j st]]; simpl; [done| |done]. case_bool_decide; [naive_solver|]. split; [done|congruence].
Qed.

Lemma parses_inj s a : parses s a -> forall b, parses s b -> a = b.
Proof.
  induction 1 as [|s o p i ops E Hp IH]; intros b Hb; inversion Hb as [|? o' p' i' ops' E' Hp']; subst; try done.
  rewrite E in E'. simplify_eq. f_equal. by apply IH.
Qed.

Section spend.
Context {CR : Crypto} {ST : ScriptSettings} (ex : ScriptExtras).

(** the timelock, if any, has passed *)
Definition unlocked (tl : option Z) : Prop :=
  match tl with
  | None | Some 0 => True
  | Some t => exists tx txin spent, ex = UtxoScriptExtras tx txin spent /\ t < stx_timestamp tx
  end.

(** what the input data leaves on the stack, run on its own *)
Definition leaves (input_data : bytes) (st : Stack) : Prop :=
  eval_loop (S (length input_data)) input_data ex 0 [] = (Ok tt, st).

Lemma leaves_run input ops st : parses input ops -> leaves input st <-> run_ops ex ops [] = (Ok tt, st).
Proof.
  intros Hp. unfold leaves. pose proof (eval_parses ex input ops Hp (S (length (input ++ []))) [] [] []) as E.
  rewrite !app_nil_r in E. simpl app in E. change (blen []) with 0 in E. rewrite E by lia.
  unfold bind. destruct (run_ops ex ops []) as [[[]|e] st']; [|done]. done.
Qed.

Lemma run_lock tl ops st st' : valid_lock tl ->
  run_ops ex (lock_ops tl ++ ops) st = (Ok tt, st') <->
  unlocked tl /\ run_ops ex ops st = (Ok tt, st').
Proof.
  intros Hv. destruct tl as [[|t|t]|]; simpl; [naive_solver| |simpl in Hv; lia|naive_solver].
  set (z := Z.pos t) in *. change (65535 < z <= 4294967295) in Hv.
  assert (Hb : blen (be_bytes 4 z) = 4) by apply blen_be_bytes.
  assert (Hu : unpack_I (be_bytes 4 z) = Ok z).
  { unfold unpack_I. rewrite Hb. simpl Z.eqb. cbn iota. f_equal. unfold int_from_bytes.
    rewrite be_val_be_bytes. apply Z.mod_small. simpl. lia. }
  change (push_op _ :: fun_op _ :: ops) with (push_op (be_bytes 4 z) :: fun_op OP_GREATERTHAN_TIMESTAMP :: ops).
  rewrite run_push by lia. rewrite run_fun by done.
  change (execute_op_code OP_GREATERTHAN_TIMESTAMP ex) with (op_greaterthan_timestamp ex).
  unfold op_greaterthan_timestamp. unfold bind at 1. step_need. unfold bind, pop, assert_bytes, ret, lift.
  rewrite Hu. destruct ex as [tx|tx txin spent].
  { split; [done|]. intros [(? & ? & ? & ? & _) _]. done. }
  destruct (Z.leb_spec (stx_timestamp tx) z).
  - split; [done|]. intros [(? & ? & ? & [= <- <- <-] & ?) _]. lia.
  - split; [intros E; split; [by eauto 10|exact E]|]. by intros [_ E].
Qed.

Lemma run_p2pkh h st : 1 <= blen h <= 255 ->
  run_ops ex (p2pkh_ops h) st = (Ok tt, [IInt 1]) <->
  exists pk sig, st = [IBytes pk; IBytes sig] /\ get_hash160 pk = h /\ signed_by ex pk sig.
Proof.
  intros Hh. unfold p2pkh_ops. rewrite run_fun by done. simpl execute_op_code.
  destruct st as [|x st].
  { split; [|by intros (? & ? & ? & _)]. unfold bind. by rewrite op_dup_eq. }
  rewrite (bind_ok _ _ _ _ _ (op_dup_eq (x :: st))). rewrite run_fun by done. simpl execute_op_code.
  destruct x as [pk|z].
  2:{ split; [|by intros (? & ? & ? & _)]. unfold bind. by rewrite op_hash160_eq. }
  rewrite (bind_ok _ _ _ _ _ (op_hash160_eq (IBytes pk :: IBytes pk :: st))).
  rewrite run_push, run_fun by done. simpl execute_op_code. unfold bind at 1.
  rewrite op_equalverify_eq. case_bool_decide as E.
  2:{ split; [done|]. intros (pk' & ? & [= <-] & <- & _). done. }
  rewrite run_fun by done. simpl execute_op_code.
  transitivity (op_checksig ex (IBytes pk :: st) = (Ok tt, [IInt 1])).
  { unfold bind. destruct (op_checksig ex (IBytes pk :: st)) as [[[]|e] st']; done. }
  rewrite op_checksig_true. split.
  - intros (pk' & sig & [= <- ->] & Hs). eauto.
  - intros (pk' & sig & [= <- ->] & _ & Hs). eauto.
Qed.

(** evaluation of an input that parses on its own, against an output that does *)
Lemma eval_split input script a b : parses input a -> parses script b ->
  execute_eval (input ++ script) ex = Ok tt <->
  exists st, leaves input st /\ run_ops ex b st = (Ok tt, [IInt 1]).
Proof.
  intros Ha Hb. rewrite (execute_eval_app ex _ _ _ _ Ha Hb). unfold bind. split.
  - destruct (run_ops ex a []) as [[[]|e] st] eqn:Ea; [|done].
    destruct (run_ops ex b st) as [[[]|e] st'] eqn:Eb; [|done]. intros ->%final_stack_ok.
    exists st. split; [by apply (leaves_run _ a)|done].
  - intros (st & Hl & Eb). apply (leaves_run _ a) in Hl; [|done]. rewrite Hl, Eb. by apply final_stack_ok.
Qed.

Lemma p2pkh_spend_iff address tl script en input n :
  p2pkh_create_output_script address tl = Ok script -> valid_lock tl ->
  get_sigops_count en input (Some script) = Ok n ->
  raw_script_eval input script ex = Ok tt <->
  exists pk sig, leaves input [IBytes pk; IBytes sig] /\ unlocked tl /\
    get_hash160 pk = address_hash address /\ signed_by ex pk sig.
Proof.
  intros Hs Hv Hn. pose proof (p2pkh_create_len _ _ _ Hs) as Ha.
  rewrite p2pkh_script_eq in Hs by done. injection Hs as <-.
  pose proof (address_hash_len address Ha) as Hh.
  destruct (p2pkh_matches tl (address_hash address) Hv Hh) as [_ Hm].
  unfold get_sigops_count in Hn. rewrite Hm in Hn. apply count_sigops_parses in Hn as [ops Hops].
  unfold raw_script_eval. rewrite Hm.
  rewrite (eval_split _ _ _ _ Hops (parses_p2pkh tl (address_hash address) Hv ltac:(lia))). split.
  - intros (st & Hl & Er). apply run_lock in Er as [Hul Er]; [|done].
    apply run_p2pkh in Er as (pk & sig & -> & ? & ?); [|lia]. eauto 10.
  - intros (pk & sig & Hl & Hul & Hpk & Hsig). exists [IBytes pk; IBytes sig]. split; [done|].
    apply run_lock; [done|]. split; [done|]. apply run_p2pkh; [lia|]. eauto.
Qed.
End spend.

(** * Parsing back *)

(** [if timelock]: 0 is no timelock *)
Definition normal_lock (tl : option Z) : option Z := match tl with Some 0 => None | _ => tl end.

Lemma get_pushdata_push b : 1 <= blen b <= 75 -> get_pushdata (push_bytes b) = Ok b.
Proof.
  intros Hb. unfold get_pushdata, push_bytes, byte_at. rewrite (proj2 (Z.leb_le (blen b) 75)) by lia.
  simpl. rewrite b2z_z2b_small by lia. rewrite (proj2 (Z.ltb_ge 75 _)) by lia. f_equal. unfold slice.
  replace (Z.to_nat (1 + blen b - 1)) with (length b) by (unfold blen; lia).
  change (drop (Z.to_nat 1) (z2b (blen b) :: b)) with b. apply firstn_all.
Qed.

Lemma unpack_lock z : 65535 < z <= 4294967295 -> unpack_I (drop 1 (push_bytes (be_bytes 4 z))) = Ok z.
Proof.
  intros Hz. change (drop 1 (push_bytes (be_bytes 4 z))) with (be_bytes 4 z).
  unfold unpack_I. rewrite blen_be_bytes. simpl Z.eqb. cbn iota. f_equal.
  unfold int_from_bytes. rewrite be_val_be_bytes. apply Z.mod_small. simpl. lia.
Qed.

Section parse.
Context {CR : Crypto} {ST : ScriptSettings}.

Lemma groups_back to_b58 tl h : valid_lock tl -> 1 <= blen h <= 75 ->
  groups_to_script to_b58 (lock_group tl, push_bytes h) =
  let? a := to_b58 h in Ok (mkScript a (normal_lock tl)).
Proof.
  intros Hv Hh. unfold groups_to_script. cbn [fst snd]. rewrite get_pushdata_push by done.
  destruct tl as [[|t|t]|]; [done| |simpl in Hv; lia|done].
  cbn [lock_group]. rewrite unpack_lock by done. done.
Qed.

(** the version, hash and checksum of an address *)
Definition is_address (version address : bytes) : Prop :=
  blen version = 1 /\ blen address = 25 /\ take 1 address = version /\
  drop 21 address = get_checksum (take 21 address).

Lemma address_split version address : is_address version address ->
  address = (version ++ address_hash address) ++ get_checksum (version ++ address_hash address).
Proof.
  intros (_ & Ha & Hv & Hc).
  assert (E : version ++ address_hash address = take 21 address).
  { rewrite <- Hv. unfold address_hash, slice. apply (take_take_drop address 1 20). }
  by rewrite E, <- Hc, take_drop.
Qed.

Lemma single_version v address : is_address v address ->
  exists b, v = [b] /\ byte_at address 0 = Ok (b2z b) /\ binary_to_int v = Ok (b2z b).
Proof.
  intros (Hl & Ha & Hv & _). destruct v as [|b [|]]; unfold blen in Hl; simpl in Hl; try lia.
  destruct address as [|b' address]; [unfold blen in Ha; simpl in Ha; lia|]. simpl in Hv. injection Hv as ->.
  exists b. by split.
Qed.

Lemma parse_p2pkh_script address tl : is_address P2PKH_VERSION_BYTE address -> valid_lock tl ->
  exists script, create_output_script address tl = Ok script /\
    parse_address_script script =
    let? a := b58encode (IBytes address) in Ok (Some (P2PKH_, mkScript a (normal_lock tl))).
Proof.
  intros Hi Hv. pose proof Hi as (_ & Ha & _). pose proof (address_hash_len address Ha) as Hh.
  exists (p2pkh_bytes tl (address_hash address)).
  destruct (p2pkh_matches tl (address_hash address) Hv Hh) as [Hm _]. split.
  - unfold create_output_script, version_of. destruct (single_version _ _ Hi) as (b & _ & -> & ->). simpl.
    rewrite Z.eqb_refl. simpl. by apply p2pkh_script_eq.
  - unfold parse_address_script, p2pkh_parse_script. rewrite Hm, groups_back by (done || lia).
    unfold get_address_b58_from_public_key_hash, get_address_from_public_key_hash. cbn [default].
    rewrite <- (address_split _ _ Hi). by destruct (b58encode _).
Qed.

Lemma parse_multisig_script address tl : is_address MULTISIG_VERSION_BYTE address -> valid_lock tl ->
  P2PKH_VERSION_BYTE <> MULTISIG_VERSION_BYTE -> blen P2PKH_VERSION_BYTE = 1 ->
  exists script, create_output_script address tl = Ok script /\
    parse_address_script script =
    let? a := b58encode (IBytes address) in Ok (Some (MultiSig_, mkScript a (normal_lock tl))).
Proof.
  intros Hi Hv Hne Hl. pose proof Hi as (_ & Ha & _). pose proof (address_hash_len address Ha) as Hh.
  exists (multisig_bytes tl (address_hash address)).
  destruct (multisig_matches tl (address_hash address) Hv Hh) as [Hm Hp]. split.
  - unfold create_output_script, version_of. destruct (single_version _ _ Hi) as (b & Eb & -> & ->).
    destruct P2PKH_VERSION_BYTE as [|c [|]]; unfold blen in Hl; simpl in Hl; try lia.
    assert (E : binary_to_int [c] = Ok (b2z c)) by done.
    rewrite E. simpl. destruct (Z.eqb_spec (b2z b) (b2z c)) as [E'|_].
    { destruct Hne. rewrite Eb. f_equal. by apply b2z_inj. }
    rewrite Z.eqb_refl. simpl. by apply multisig_script_eq.
  - unfold parse_address_script, multisig_parse_script. rewrite Hp, Hm, groups_back by (done || lia).
    unfold get_address_b58_from_redeem_script_hash, get_address_from_redeem_script_hash. 
    change (default _ (Some MULTISIG_VERSION_BYTE)) with MULTISIG_VERSION_BYTE.
    rewrite <- (address_split _ _ Hi). by destruct (b58encode _).
Qed.
End parse.
