(* ===== verification/ScriptMultisig.v ===== *)
(** Who can spend a multi-signature output: the two evaluations of [raw_script_eval],
    and the in-order matching of signatures to keys by [op_checkmultisig]. *)

From stdpp Require Import base list gmap.
From Stdlib Require Import ZArith Lia Strings.Byte.
From S2P Require Import Prelude PyInt ScriptCode ScriptVM ScriptTheory ScriptP2PKH.

Local Open Scope Z_scope.
Local Open Scope py_scope.

(** * The position and content of the redeem script *)

Lemma redeem_pos_step fuel pre s o p i last : get_script_op 0 s = Ok (o, p, i) ->
  redeem_pos_loop (S fuel) (pre ++ s) (blen pre) last =
  redeem_pos_loop fuel ((pre ++ take (Z.to_nat p) s) ++ drop (Z.to_nat p) s)
    (blen (pre ++ take (Z.to_nat p) s)) (blen pre).
Proof.
  intros E. pose proof (script_op_progress _ _ _ _ E) as Hr. destruct (drop_split p s Hr) as (_ & Hp & _).
  cbn [redeem_pos_loop]. rewrite ltb_suffix, bool_decide_eq_false_2
    by (intros ->; unfold blen in Hr; simpl in Hr; lia). cbn [negb].
  rewrite script_op_shift, E. cbn [shift_op rbind]. by rewrite <- app_assoc, take_drop, blen_app, Hp.
Qed.

Lemma redeem_pos_complete a opsa b op : parses a opsa -> parses b [op] ->
  forall fuel pre last, (length (a ++ b) < fuel)%nat ->
  redeem_pos_loop fuel (pre ++ a ++ b) (blen pre) last = Ok (blen (pre ++ a)).
Proof.
  intros Ha Hb. induction Ha as [|a o p i ops E Hp IH]; intros fuel pre last Hf.
  - inversion Hb as [|? o p i ops' E Hd]; subst. destruct fuel as [|fuel]; [lia|].
    simpl app. rewrite (redeem_pos_step _ _ _ _ _ _ _ E). inversion Hd as [Hd0|].
    rewrite !app_nil_r. destruct fuel; cbn [redeem_pos_loop]; by rewrite Z.ltb_irrefl.
  - destruct fuel as [|fuel]; [lia|]. pose proof (script_op_progress _ _ _ _ E) as Hr.
    rewrite (redeem_pos_step _ _ _ o p i) by (by apply script_op_extend).
    destruct (drop_split p a Hr) as (_ & _ & Hl).
    rewrite take_app_le, drop_app_le by (unfold blen in Hr; lia).
    rewrite IH by (rewrite length_app in *; lia). by rewrite <- app_assoc, take_drop.
Qed.

(** the opcodes that push a block of data *)
Definition is_push_op (o : Z) : bool := (1 <=? o) && (o <=? 75) || (o =? opcode_value OP_PUSHDATA1).

Lemma is_push_op_pushdata o : is_push_op o = true -> is_pushdata o = true.
Proof.
  unfold is_push_op, is_pushdata. destruct ((1 <=? o) && (o <=? 75)); [done|]. cbn [orb]. intros ->.
  by destruct ((opcode_value OP_0 <=? o) && _).
Qed.

(** what an operation pushes decides its opcode *)
Lemma script_op_item s o p i : get_script_op 0 s = Ok (o, p, i) ->
  match i with
  | Some (IBytes _) => is_push_op o = true
  | Some (IInt _) => is_pushdata o = true
  | None => is_pushdata o = false /\ is_valid_opcode o = true
  end.
Proof.
  intros H. pose proof (script_op_opcode _ _ _ _ H) as Hb. revert H. unfold get_script_op.
  rewrite Hb. cbn [rbind]. destruct (is_valid_opcode o) eqn:Ev; [|done]. cbn [negb]. unfold is_push_op, is_pushdata.
  destruct ((1 <=? o) && (o <=? 75)); [intros H; inv_rok H; by simplify_eq|].
  destruct (o =? opcode_value OP_PUSHDATA1); [intros H; do 2 inv_rok H; by simplify_eq|].
  destruct ((opcode_value OP_0 <=? o) && (o <=? opcode_value OP_16)); intros H; [inv_rok H|]; by simplify_eq.
Qed.

Section multisig.
Context {CR : Crypto} {ST : ScriptSettings} (ex : ScriptExtras).

Lemma exec_empty o st : execute_op_code o ex [] <> (Ok tt, st).
Proof. by destruct o. Qed.

(** a single operation that leaves a block of data pushed it *)
Lemma leaves_block b op d : parses b [op] -> leaves ex b [IBytes d] -> snd op = Some (IBytes d) /\ is_push_op (fst op) = true.
Proof.
  intros Hb Hl. apply (leaves_run ex b [op]) in Hl; [|done]. inversion Hb as [|? o p i ops E _]; subst.
  pose proof (script_op_item _ _ _ _ E) as Hi. unfold run_ops in Hl. simpl in Hl.
  apply bind_ok_inv in Hl as ([] & st & Hs & [= ->]). unfold eval_step in Hs.
  destruct i as [[d'|z]|]; simpl in *.
  - rewrite (is_push_op_pushdata o Hi) in Hs. by injection Hs as ->.
  - by rewrite Hi in Hs.
  - destruct Hi as [Hp _]. rewrite Hp in Hs. unfold bind, lift in Hs.
    destruct (opcode_of o) as [o'|]; [|done]. by apply exec_empty in Hs.
Qed.

Lemma run_multisig h st : 1 <= blen h <= 255 ->
  run_ops ex (multisig_ops h) st = (Ok tt, [IInt 1]) <->
  exists r, st = [IBytes r] /\ get_hash160 r = h.
Proof.
  intros Hh. unfold multisig_ops. rewrite run_fun by done. simpl execute_op_code.
  destruct st as [|[r|z] st].
  { split; [|by intros (? & ? & _)]. unfold bind. by rewrite op_hash160_eq. }
  2:{ split; [|by intros (? & ? & _)]. unfold bind. by rewrite op_hash160_eq. }
  rewrite (bind_ok _ _ _ _ _ (op_hash160_eq (IBytes r :: st))).
  rewrite run_push, run_fun by done. simpl execute_op_code.
  rewrite (bind_ok _ _ _ _ _ (op_equal_ok h (get_hash160 r) st)). split.
  - case_bool_decide; intros [= ->]. by exists r.
  - intros (r' & [= -> ->] & ->). by rewrite bool_decide_eq_true_2.
Qed.

Lemma redeem_pos_eq a opsa b op : parses a opsa -> parses b [op] ->
  get_multisig_redeem_script_pos (a ++ b) = Ok (blen a).
Proof.
  intros Ha Hb. exact (redeem_pos_complete a opsa b op Ha Hb (S (length (a ++ b))) [] 0 ltac:(lia)).
Qed.

Lemma multisig_data_eq a opsa b o r : parses a opsa -> parses b [(o, Some (IBytes r))] -> is_push_op o = true ->
  get_multisig_data (a ++ b) = Ok (a ++ r).
Proof.
  intros Ha Hb Ho. unfold get_multisig_data.
  pose proof (multisig_data_parses a opsa b _ Ha Hb (S (length (a ++ b))) [] 0 [] ltac:(lia)) as E.
  change (multisig_data_loop (S (length (a ++ b))) (a ++ b) 0 0 [] =
    Ok (blen a, push_block (foldl push_block [] opsa) (o, Some (IBytes r)))) in E.
  rewrite E. cbn [rbind]. unfold push_block. cbn [fst snd]. fold (is_push_op o). rewrite Ho. cbn [push_opt].
  unfold slice. rewrite drop_0.
  replace (Z.to_nat (blen a - 0)) with (length a) by (unfold blen; lia). by rewrite take_app_length.
Qed.

(** the first evaluation: the block in front of the output script *)
Lemma redeem_eval tl h b ops : parses b ops -> valid_lock tl -> blen h = 20 ->
  execute_eval (b ++ multisig_bytes tl h) ex = Ok tt <->
  exists r, leaves ex b [IBytes r] /\ unlocked ex tl /\ get_hash160 r = h.
Proof.
  intros Hops Hv Hh. rewrite (eval_split ex _ _ _ _ Hops (parses_multisig tl h Hv ltac:(lia))). split.
  - intros (st & Hl & Hr). apply run_lock in Hr as [Hu Hr]; [|done].
    apply run_multisig in Hr as (r & -> & Hr); [|lia]. eauto.
  - intros (r & Hl & Hu & Hr). exists [IBytes r]. split; [done|]. apply run_lock; [done|].
    split; [done|]. apply run_multisig; [lia|]. eauto.
Qed.

Lemma block_leaves b o r : parses b [(o, Some (IBytes r))] -> is_push_op o = true /\ leaves ex b [IBytes r].
Proof.
  intros Hb. assert (Ho : is_push_op o = true).
  { inversion Hb as [|? ? ? ? ? Eo _]; subst. exact (script_op_item _ _ _ _ Eo). }
  split; [done|]. apply (leaves_run ex b _ _ Hb). unfold run_ops, eval_step. simpl.
  by rewrite (is_push_op_pushdata o Ho).
Qed.

Lemma multisig_eval_iff address tl script input :
  multisig_create_output_script address tl = Ok script -> valid_lock tl ->
  raw_script_eval input script ex = Ok tt <->
  exists a opsa b o r, input = a ++ b /\ parses a opsa /\ parses b [(o, Some (IBytes r))] /\
    unlocked ex tl /\ get_hash160 r = address_hash address /\ execute_eval (a ++ r) ex = Ok tt.
Proof.
  intros Hs Hv. pose proof (multisig_create_len _ _ _ Hs) as Ha.
  rewrite multisig_script_eq in Hs by done. injection Hs as <-.
  pose proof (address_hash_len address Ha) as Hh. set (h := address_hash address) in *.
  destruct (multisig_matches tl h Hv Hh) as [Hm _]. unfold raw_script_eval. rewrite Hm. split.
  - intros H. inv_rok H. inv_rok H. destruct a0 as [].
    destruct (redeem_pos_parses _ [] input 0 a Hm0) as [[-> ->]|(a' & b & opsa & op & -> & Hpa & Hpb & ->)].
    { apply (redeem_eval tl h [] []) in Hm1 as (r & Hl & _); [done|constructor|done|done]. }
    rewrite app_nil_l in *. replace (Z.to_nat (blen a')) with (length a') in Hm1 by (unfold blen; lia).
    rewrite drop_app_length in Hm1. apply (redeem_eval tl h b [op]) in Hm1 as (r & Hl & Hu & Hr); [|done..].
    destruct (leaves_block b op r Hpb Hl) as [Hop Hblk]. destruct op as [o i]. simpl in Hop, Hblk. subst i.
    rewrite (multisig_data_eq a' opsa b o r Hpa Hpb Hblk) in H. by exists a', opsa, b, o, r.
  - intros (a & opsa & b & o & r & -> & Hpa & Hpb & Hu & Hr & He).
    destruct (block_leaves b o r Hpb) as [Hblk Hl].
    rewrite (redeem_pos_eq a opsa b _ Hpa Hpb). cbn [rbind].
    replace (Z.to_nat (blen a)) with (length a) by (unfold blen; lia). rewrite drop_app_length.
    rewrite (proj2 (redeem_eval tl h b _ Hpb Hv Hh)) by eauto. cbn [rbind].
    by rewrite (multisig_data_eq a opsa b o r Hpa Hpb Hblk).
Qed.
End multisig.

(** * [op_checkmultisig] *)

Section matching.
Context {CR : Crypto} {ST : ScriptSettings} (ex : ScriptExtras).

Lemma checksig_pair_true sig pk : checksig_pair ex sig pk = Ok (IInt 1) <->
  exists s k, sig = IBytes s /\ pk = IBytes k /\ signed_by ex k s.
Proof.
  unfold checksig_pair. split.
  - destruct ((op_checksig ex ;;; pop) [pk; sig]) as [r st'] eqn:E. intros ->.
    apply bind_ok_inv in E as ([] & st & E & Hp). destruct st as [|i st]; [done|]. simpl in Hp. simplify_eq.
    apply op_checksig_true in E as (k & s & [= -> -> <-] & Hs). eauto.
  - intros (s & k & -> & -> & Hs).
    rewrite (bind_ok _ _ _ tt [IInt 1]); [done|]. apply op_checksig_true. eauto.
Qed.

(** the signatures accepted by some of the keys, in order *)
Definition matched (sigs pks : list item) : Prop := exists keys, sublist keys pks /\
  Forall2 (fun s k => checksig_pair ex s k = Ok (IInt 1)) sigs keys.

Lemma next_match_sound s pks rest : next_match ex s pks = Ok (Some rest) ->
  exists k, checksig_pair ex s k = Ok (IInt 1) /\ sublist (k :: rest) pks.
Proof.
  induction pks as [|k pks IH]; simpl; [done|]. intros H. inv_rok H. case_bool_decide as E.
  - injection H as <-. subst a. eauto using sublist_skip.
  - destruct (IH H) as (k' & ? & ?). exists k'. split; [done|]. by constructor.
Qed.

Lemma match_sound sigs : forall pks, match_signatures ex sigs pks = Ok true -> matched sigs pks.
Proof.
  induction sigs as [|s sigs IH]; intros pks; simpl; [intros _; exists []; split; [apply sublist_nil_l|constructor]|].
  intros H. inv_rok H. destruct a as [rest|]; [|done]. apply next_match_sound in Hm as (k & Hk & Hs).
  destruct (IH rest H) as (keys & Hsub & Hall). exists (k :: keys). split; [|by constructor].
  etransitivity; [by apply sublist_skip|done].
Qed.

(** no signature check raises *)
Definition checkable (sigs pks : list item) : Prop := forall s k, s ∈ sigs -> k ∈ pks ->
  exists z, checksig_pair ex s k = Ok (IInt z).

Lemma sublist_tail {A} (k k' : A) l l' : sublist (k :: l) (k' :: l') -> sublist l l'.
Proof.
  intros H. inversion H as [|? ? ? H'|? ? ? H']; subst; [done|].
  etransitivity; [|exact H']. by apply sublist_cons.
Qed.

Lemma next_match_complete s pks k keys :
  checkable [s] pks -> sublist (k :: keys) pks -> checksig_pair ex s k = Ok (IInt 1) ->
  exists rest, next_match ex s pks = Ok (Some rest) /\ sublist keys rest /\ sublist rest pks.
Proof.
  induction pks as [|k' pks IH]; intros Hc Hs Hk; [by inversion Hs|]. simpl.
  destruct (Hc s k') as [z Hz]; [left|left|]. rewrite Hz. simpl. case_bool_decide as E.
  - exists pks. split; [done|]. split; [|by constructor]. by eapply sublist_tail.
  - inversion Hs as [| |]; subst; [congruence|].
    destruct IH as (rest & ? & ? & ?); [|done|done|].
    { intros s' k0 ? ?. apply Hc; [done|by right]. }
    exists rest. split; [done|]. split; [done|]. by constructor.
Qed.

Lemma match_complete sigs : forall pks, checkable sigs pks -> matched sigs pks ->
  match_signatures ex sigs pks = Ok true.
Proof.
  induction sigs as [|s sigs IH]; intros pks Hc (keys & Hs & Hall); [done|].
  inversion Hall as [|? k ? keys' Hk Hall']; subst. simpl.
  destruct (next_match_complete s pks k keys') as (rest & E & Hsub & Hr); [|done|done|].
  { intros s' k0 ->%list_elem_of_singleton ?. apply Hc; [left|done]. }
  rewrite E. simpl. apply IH; [|by exists keys'].
  intros s' k' ? ?. apply Hc; [by right|]. by eapply sublist_subseteq.
Qed.
End matching.

(** * Redeem scripts *)

Definition redeem_bytes (om on_ : Opcode) (pks : list bytes) : bytes :=
  op_byte om ++ concat (map push_bytes pks) ++ op_byte on_ ++ op_byte OP_CHECKMULTISIG.

Definition redeem_ops (m : Z) (pks : list bytes) : list (Z * option item) :=
  op_n m :: map push_op pks ++ [op_n (Z.of_nat (length pks)); fun_op OP_CHECKMULTISIG].

Lemma parses_pushes pks : Forall (fun b => 1 <= blen b <= 255) pks ->
  parses (concat (map push_bytes pks)) (map push_op pks).
Proof.
  induction 1 as [|b pks Hb _ IH]; simpl; [constructor|].
  apply (parses_app _ _ [_]); [by apply parses_push|done].
Qed.

Lemma opcode_n_range n o : opcode_n n = Ok o -> 0 <= n <= 16.
Proof. unfold opcode_n. case_match; [lia|done]. Qed.

Section redeem.
Context {CR : Crypto} {ST : ScriptSettings} (ex : ScriptExtras).

Lemma redeem_parses m pks r : generate_multisig_redeem_script m pks = Ok r ->
  Forall (fun b => 1 <= blen b <= 255) pks ->
  parses r (redeem_ops m pks) /\ 0 <= m <= 16 /\ (length pks <= 16)%nat /\
  m <= MAX_MULTISIG_SIGNATURES /\ Z.of_nat (length pks) <= MAX_MULTISIG_PUBKEYS.
Proof.
  unfold generate_multisig_redeem_script. intros H Hall. case_match eqn:Em; [done|]. case_match eqn:En; [done|].
  unfold build_script, lift, bind, addOpcode in H. destruct (opcode_n m) as [om|] eqn:Eom; [|done].
  rewrite pushes_eq in H by (eapply Forall_impl; [exact Hall|simpl; lia]).
  destruct (opcode_n (Z.of_nat (length pks))) as [on_|] eqn:Eon; [|done]. injection H as <-.
  pose proof (opcode_n_range _ _ Eom). pose proof (opcode_n_range _ _ Eon).
  split; [|lia]. rewrite <- !app_assoc.
  change (parses (op_byte om ++ concat (map push_bytes pks) ++ op_byte on_ ++ op_byte OP_CHECKMULTISIG)
    ([op_n m] ++ map push_op pks ++ [op_n (Z.of_nat (length pks)); fun_op OP_CHECKMULTISIG])).
  apply parses_app; [by apply parses_op_n|].
  apply parses_app; [by apply parses_pushes|].
  apply (parses_app _ _ [_] [_]); [by apply parses_op_n|by apply parses_fun].
Qed.

Lemma pop_n_app l st : pop_n (Z.of_nat (length l)) (l ++ st) = (Ok l, st).
Proof.
  unfold pop_n. rewrite Nat2Z.id. induction l as [|i l IH]; [done|]. simpl. unfold bind at 1. simpl.
  by rewrite (bind_ok _ _ _ _ _ IH).
Qed.

Lemma pop_count_ok limit n st : n <= limit -> pop_count limit (IInt n :: st) = (Ok n, st).
Proof. intros H. unfold pop_count, bind. simpl. by rewrite (proj2 (Z.ltb_ge limit n)) by lia. Qed.

Lemma checkmultisig_eq pks m sigs st :
  Z.of_nat (length pks) <= MAX_MULTISIG_PUBKEYS -> m = Z.of_nat (length sigs) -> m <= MAX_MULTISIG_SIGNATURES ->
  op_checkmultisig ex (IInt (Z.of_nat (length pks)) :: pks ++ IInt m :: sigs ++ st) =
  match match_signatures ex sigs pks with
  | Ok ok => (Ok tt, IInt (if ok then 1 else 0) :: st)
  | Err e => (Err e, st)
  end.
Proof.
  intros Hp -> Hm. unfold op_checkmultisig. step_need. rewrite (bind_ok _ _ _ _ _ (pop_count_ok _ _ _ Hp)).
  step_need.
  rewrite (bind_ok _ _ _ _ _ (pop_n_app pks _)). step_need.
  rewrite (bind_ok _ _ _ _ _ (pop_count_ok _ _ _ Hm)).
  step_need.
  rewrite (bind_ok _ _ _ _ _ (pop_n_app sigs _)). unfold lift, bind.
  by destruct (match_signatures ex sigs pks).
Qed.

Lemma checkmultisig_missing pks m st : 
  Z.of_nat (length pks) <= MAX_MULTISIG_PUBKEYS -> Z.of_nat (length st) < m -> m <= MAX_MULTISIG_SIGNATURES ->
  fst (op_checkmultisig ex (IInt (Z.of_nat (length pks)) :: pks ++ IInt m :: st)) = Err MissingStackItems.
Proof.
  intros Hp Hl Hm. unfold op_checkmultisig. step_need. rewrite (bind_ok _ _ _ _ _ (pop_count_ok _ _ _ Hp)).
  step_need.
  rewrite (bind_ok _ _ _ _ _ (pop_n_app pks _)). step_need.
  rewrite (bind_ok _ _ _ _ _ (pop_count_ok _ _ _ Hm)). by rewrite (bind_err _ _ _ _ _ (need_missing _ _ Hl)).
Qed.

(** what a redeem script accepts: exactly the required number of signatures *)
Lemma run_redeem m pks st : Forall (fun b => 1 <= blen b <= 255) pks -> 0 <= m <= 16 -> (length pks <= 16)%nat ->
  m <= MAX_MULTISIG_SIGNATURES -> Z.of_nat (length pks) <= MAX_MULTISIG_PUBKEYS ->
  run_ops ex (redeem_ops m pks) st = (Ok tt, [IInt 1]) <->
  Z.of_nat (length st) = m /\ match_signatures ex st (map IBytes (rev pks)) = Ok true.
Proof.
  intros Hall Hm Hn Hms Hps. unfold redeem_ops. rewrite run_op_n by done. rewrite run_pushes by done.
  rewrite run_op_n by lia. rewrite run_fun by done. simpl execute_op_code.
  replace (Z.of_nat (length pks)) with (Z.of_nat (length (map IBytes (rev pks)))) in *
    by (by rewrite length_map, length_rev).
  destruct (Z.lt_ge_cases (Z.of_nat (length st)) m) as [Hl|Hl].
  { split; [|lia]. pose proof (checkmultisig_missing (map IBytes (rev pks)) m st Hps Hl Hms) as E.
    unfold bind. destruct (op_checkmultisig _ _) as [r st']. simpl in E. by subst r. }
  rewrite <- (take_drop (Z.to_nat m) st) at 1. unfold bind.
  rewrite checkmultisig_eq; [|done|rewrite length_take; lia|done].
  assert (Hd : drop (Z.to_nat m) st = [] <-> Z.of_nat (length st) = m).
  { rewrite <- length_zero_iff_nil, length_drop. lia. }
  destruct (match_signatures ex (take (Z.to_nat m) st) _) as [ok|e] eqn:E.
  - split.
    + destruct ok; intros [= H]. apply Hd in H as H'. split; [done|]. by rewrite take_ge in E by lia.
    + intros [H1 H2]. rewrite take_ge in E by lia. rewrite E in H2. injection H2 as ->.
      by rewrite (proj2 Hd H1).
  - split; [done|]. intros [H1 H2]. rewrite take_ge in E by lia. congruence.
Qed.
End redeem.
