(* ===== verification/ScriptClaims.v ===== *)
(** The properties of script evaluation: who can spend the standard outputs, what the
    signature-operation count protects, round trips of the standard scripts, and
    termination. *)

From stdpp Require Import base list gmap.
From Stdlib Require Import ZArith Lia Strings.Byte.
From S2P Require Import Prelude PyInt ScriptCode ScriptVM ScriptTheory ScriptP2PKH ScriptMultisig.

Local Open Scope Z_scope.
Local Open Scope py_scope.

(** * What follows a script that parses, parses too *)

Lemma parses_rest a opsa t ops : parses a opsa -> parses (a ++ t) ops -> exists ops', parses t ops'.
Proof.
  intros Ha. revert ops. induction Ha as [|a o p i opsa E Hp IH]; intros ops H; [by exists ops|].
  inversion H as [Hnil|? o' p' i' ops' E' Hd]; subst.
  - pose proof (script_op_progress _ _ _ _ E) as Hr. symmetry in Hnil. apply app_nil in Hnil as [-> _].
    unfold blen in Hr. simpl in Hr. lia.
  - rewrite (script_op_extend a t o p i E) in E'. simplify_eq.
    pose proof (script_op_progress _ _ _ _ E) as Hr. rewrite drop_app_le in Hd by (unfold blen in Hr; lia).
    by apply IH in Hd.
Qed.

(** * Termination: fuel never runs out *)

Definition nofuel {S A} (m : M S A) : Prop := forall s, fst (m s) <> Err OutOfFuel.

Lemma nofuel_bind {S A B} (m : M S A) (f : A -> M S B) : nofuel m -> (forall a, nofuel (f a)) -> nofuel (bind m f).
Proof.
  intros Hm Hf s. unfold bind. specialize (Hm s). destruct (m s) as [[a|e] s']; [apply Hf|].
  intros [= ->]. by apply Hm.
Qed.

Lemma nofuel_ret {S A} (a : A) : nofuel (ret (S := S) a).
Proof. done. Qed.

Lemma nofuel_raise {S A} e : e <> OutOfFuel -> nofuel (raise (S := S) (A := A) e).
Proof. intros H s [= ->]. done. Qed.

Lemma nofuel_lift {S A} (r : result A) : r <> Err OutOfFuel -> nofuel (lift (S := S) r).
Proof. intros H s. done. Qed.

Lemma nofuel_if {S A} (b : bool) (m m' : M S A) : nofuel m -> nofuel m' -> nofuel (if b then m else m').
Proof. by destruct b. Qed.

Lemma nofuel_try {S A} (m : M S A) c e : e <> OutOfFuel -> nofuel m -> nofuel (try_raise m c e).
Proof.
  intros He Hm s. unfold try_raise. specialize (Hm s). destruct (m s) as [[a|e'] s']; [done|].
  destruct (issubclass_exn e' c); [simpl; congruence|done].
Qed.

Lemma nofuel_repeat {S A} n (m : M S A) : nofuel m -> nofuel (repeat_m n m).
Proof. intros Hm. induction n; simpl; [done|]. repeat (apply nofuel_bind; [done|intros]). done. Qed.

Lemma nofuel_pop : nofuel pop.
Proof. by intros [|]. Qed.
Lemma nofuel_push i : nofuel (push i).
Proof. done. Qed.
Lemma nofuel_need n : nofuel (need n).
Proof. intros st. unfold need. by case_match. Qed.
Lemma nofuel_bytes {S} i : nofuel (assert_bytes (S := S) i).
Proof. by destruct i. Qed.
Lemma nofuel_int {S} i : nofuel (assert_int (S := S) i).
Proof. by destruct i. Qed.

Lemma byte_at_fuel d i : byte_at d i <> Err OutOfFuel.
Proof. unfold byte_at. by case_match. Qed.
Lemma binary_to_int_fuel d : binary_to_int d <> Err OutOfFuel.
Proof. unfold binary_to_int. by case_match. Qed.
Lemma unpack_fuel d : unpack_I d <> Err OutOfFuel.
Proof. unfold unpack_I. by case_match. Qed.
Lemma opcode_of_fuel o : opcode_of o <> Err OutOfFuel.
Proof. unfold opcode_of. by case_match. Qed.

Lemma get_data_value_fuel k data : get_data_value k data <> Err OutOfFuel.
Proof.
  unfold get_data_value. assert (H : forall fuel pos it, 0 <= pos -> blen data - pos < Z.of_nat fuel ->
    get_data_value_loop fuel k data pos it <> Err OutOfFuel).
  { induction fuel as [|fuel IH]; intros pos it Hp Hf; simpl; case_match eqn:E; try done; [lia|].
    destruct (byte_at data pos) as [n|e] eqn:Eb; simpl; [|intros [= ->]; by apply (byte_at_fuel data pos)].
    repeat case_match; try done. assert (0 <= n) by (unfold byte_at in Eb; case_match; simplify_eq; apply b2z_range).
    apply IH; lia. }
  apply H; [lia|]. unfold blen. lia.
Qed.

Create HintDb nofuel.
#[export] Hint Resolve nofuel_bind nofuel_ret nofuel_lift nofuel_if nofuel_try nofuel_repeat nofuel_pop
  nofuel_push nofuel_need nofuel_bytes nofuel_int byte_at_fuel binary_to_int_fuel unpack_fuel opcode_of_fuel
  get_data_value_fuel : nofuel.
#[export] Hint Extern 2 (nofuel (raise _)) => apply nofuel_raise; discriminate : nofuel.
#[export] Hint Extern 2 (_ <> OutOfFuel) => discriminate : nofuel.
#[export] Hint Extern 3 (nofuel (match ?x with _ => _ end)) => destruct x : nofuel.

Ltac nofuel := repeat first [progress intros | solve [eauto 3 with nofuel] | apply nofuel_bind
  | apply nofuel_if | apply nofuel_try; [discriminate|] | match goal with |- nofuel (match ?x with _ => _ end) => destruct x end].

Lemma rbind_fuel {A B} (r : result A) (f : A -> B) : r <> Err OutOfFuel -> (let? s := r in Ok (f s)) <> Err OutOfFuel.
Proof. by destruct r; simpl; [|congruence]. Qed.

Lemma utf8_decode_fuel bs : utf8_decode bs <> Err OutOfFuel.
Proof.
  assert (H : forall n bs, (length bs < n)%nat -> utf8_decode bs <> Err OutOfFuel); [|by apply (H (S (length bs))); lia].
  clear bs. induction n as [|n IH]; intros bs Hn; [lia|]. destruct bs as [|b0 r0]; [done|]. cbn [utf8_decode].
  repeat first [apply rbind_fuel; apply IH; subst; simpl in *; lia | case_match; try done].
Qed.

#[export] Hint Resolve utf8_decode_fuel : nofuel.

Section termination.
Context {CR : Crypto} {ST : ScriptSettings}.
(** the encoder of addresses is a total function *)
Hypothesis b58_total : forall i, b58encode i <> Err OutOfFuel.

Lemma load_pubkey_fuel {S} pk : nofuel (load_pubkey (S := S) pk).
Proof using. unfold load_pubkey. nofuel. Qed.

Lemma pop_values_fuel n : nofuel (pop_values n).
Proof using. induction n; simpl; nofuel. Qed.

Lemma find_p2pkh_fuel a v outs : find_p2pkh a v outs <> Err OutOfFuel.
Proof using b58_total.
  induction outs as [|o outs IH]; [done|]. simpl. destruct (p2pkh_parse_script (out_script o)) as [[s|]|e] eqn:E; simpl.
  - by destruct (_ && _).
  - done.
  - intros [= ->]. revert E. unfold p2pkh_parse_script, groups_to_script, get_pushdata.
    destruct (p2pkh_re_match _) as [[g h]|]; [|done]. cbn [fst snd].
    destruct (match g with None | Some [] => _ | Some _ => _ end) as [t|e] eqn:Et; simpl.
    2:{ intros [= ->]. destruct g as [[|x g]|]; [done| |done]. revert Et. unfold unpack_I. by case_match. }
    destruct (byte_at h 0) as [d|e] eqn:Ed; simpl; [|intros [= ->]; by apply byte_at_fuel in Ed].
    destruct (75 <? d); [destruct (byte_at h 1) as [l|e] eqn:El; simpl; [|intros [= ->]; by apply byte_at_fuel in El]|];
      simpl; unfold get_address_b58_from_public_key_hash;
      (destruct (b58encode _) eqn:Eb; simpl; [done|]; intros [= ->]; by apply b58_total in Eb).
Qed.

(** the data to sign is computed *)
Context (ex : ScriptExtras) (sighash_total : stx_sighash (extras_tx ex) <> Err OutOfFuel).

Lemma op_checksig_fuel : nofuel (op_checksig ex).
Proof using sighash_total. unfold op_checksig. pose proof @load_pubkey_fuel. nofuel. Qed.

Lemma match_signatures_fuel sigs : forall pks, match_signatures ex sigs pks <> Err OutOfFuel.
Proof using sighash_total.
  assert (Hc : forall s k, checksig_pair ex s k <> Err OutOfFuel).
  { intros s k. unfold checksig_pair. pose proof (nofuel_bind _ _ op_checksig_fuel (fun _ => nofuel_pop) [k; s]) as H.
    by destruct (bind _ _ _). }
  assert (Hn : forall s pks, next_match ex s pks <> Err OutOfFuel).
  { intros s pks. induction pks as [|k pks IH]; simpl; [done|]. specialize (Hc s k).
    destruct (checksig_pair ex s k); simpl; [by case_bool_decide|congruence]. }
  induction sigs as [|s sigs IH]; intros pks; simpl; [done|]. specialize (Hn s pks).
  destruct (next_match ex s pks) as [[rest|]|e]; simpl; [apply IH|done|congruence].
Qed.

Lemma execute_op_fuel o : nofuel (execute_op_code o ex).
Proof using b58_total sighash_total.
  pose proof @load_pubkey_fuel. pose proof pop_values_fuel. pose proof find_p2pkh_fuel.
  pose proof match_signatures_fuel. pose proof b58_total.
  assert (forall outs i, output_at outs i <> Err OutOfFuel) by (intros; unfold output_at, py_index; by repeat case_match).
  assert (nofuel pop_n_items) by (unfold pop_n_items; nofuel).
  assert (forall l, nofuel (pop_count l)) by (intros l; unfold pop_count; nofuel).
  assert (forall n, nofuel (pop_n n)) by (intros n; unfold pop_n; nofuel).
  destruct o; simpl; try (by apply nofuel_raise);
    unfold op_dup, op_equal, op_equalverify, op_checksig, op_hash160, op_greaterthan_timestamp,
      op_checkmultisig, op_data_strequal, op_data_greaterthan, op_data_match_value, op_checkdatasig,
      op_find_p2pkh, or_verify_failed, get_address_b58_from_bytes; nofuel. by intros [|].
Qed.

Lemma script_op_fuel pos data : get_script_op pos data <> Err OutOfFuel.
Proof using.
  assert (Hs : forall p, get_data_single_byte p data <> Err OutOfFuel).
  { intros p. unfold get_data_single_byte. case_match; [apply byte_at_fuel|done]. }
  assert (Hb : forall p n, get_data_bytes p n data <> Err OutOfFuel).
  { intros p n. unfold get_data_bytes. by repeat case_match. }
  unfold get_script_op. specialize (Hs pos) as H0. destruct (get_data_single_byte pos data) as [o|]; simpl; [|congruence].
  case_match; [done|]. case_match; [|case_match; [|case_match; [|done]]].
  - specialize (Hb (pos + 1) o). destruct (get_data_bytes _ _ _); simpl; congruence.
  - specialize (Hs (pos + 1)). destruct (get_data_single_byte _ _) as [n|]; simpl; [|congruence].
    specialize (Hb (pos + 1 + 1) n). destruct (get_data_bytes _ _ _); simpl; congruence.
  - unfold decode_opn. by case_match.
Qed.

Lemma eval_loop_fuel fuel : forall pre s st, (length s < fuel)%nat ->
  fst (eval_loop fuel (pre ++ s) ex (blen pre) st) <> Err OutOfFuel.
Proof using b58_total sighash_total.
  induction fuel as [|fuel IH]; intros pre s st Hf; [lia|].
  destruct (decide (s = [])) as [->|Hne]; [by rewrite app_nil_r, eval_loop_nil|].
  rewrite eval_loop_step by done. pose proof (script_op_fuel 0 s) as Ho.
  destruct (get_script_op 0 s) as [[[o p] i]|e] eqn:E; [|simpl; congruence].
  destruct (drop_split p s (script_op_progress _ _ _ _ E)) as (_ & _ & Hl).
  assert (Hn : nofuel (eval_step ex o i)).
  { unfold eval_step. pose proof execute_op_fuel. apply nofuel_bind; [done|]. nofuel. }
  specialize (Hn st). unfold bind. destruct (eval_step ex o i st) as [[[]|e] st']; [|done].
  apply IH. lia.
Qed.

(** C36: script evaluation terminates on every script: the loops over operations and
    over data values make progress at each turn, so evaluation returns or raises
    one of its own errors. *)
Theorem script_eval_terminates data : execute_eval data ex <> Err OutOfFuel.
Proof using b58_total sighash_total.
  unfold execute_eval. pose proof (eval_loop_fuel (S (length data)) [] data [] ltac:(lia)) as H.
  change (eval_loop (S (length data)) ([] ++ data) ex (blen []) []) with
    (eval_loop (S (length data)) data ex 0 []) in H.
  destruct (eval_loop _ data ex 0 []) as [[[]|e] st]; [|simpl in H; congruence].
  unfold evaluate_final_stack. by repeat case_match.
Qed.
End termination.

(** * Signatures and keys behind stack items *)

Lemma Forall2_rev_ {A B} (P : A -> B -> Prop) l k : Forall2 P l k -> Forall2 P (rev l) (rev k).
Proof. induction 1; simpl; [constructor|]. apply Forall2_app; [done|by repeat constructor]. Qed.

Lemma sublist_rev {A} (l k : list A) : sublist l k -> sublist (rev l) (rev k).
Proof.
  induction 1; simpl; [constructor|by apply sublist_app|]. by apply sublist_inserts_r.
Qed.

Lemma sublist_map_IBytes l k : sublist (map IBytes l) (map IBytes k) -> sublist l k.
Proof.
  revert l. induction k as [|b k IH]; intros l H.
  - inversion H as [E| |]. by destruct l.
  - destruct l as [|c l]; [apply sublist_nil_l|]. inversion H; subst; [|by apply sublist_cons, IH].
    apply sublist_skip, IH. done.
Qed.

Lemma elem_of_rev_ {A} (x : A) l : x ∈ rev l <-> x ∈ l.
Proof. rewrite !list_elem_of_In. symmetry. apply in_rev. Qed.

Lemma sublist_fmap_ {A B} (f : A -> B) l k : sublist l k -> sublist (map f l) (map f k).
Proof. induction 1; simpl; by constructor. Qed.

Lemma matched_keys {CR : Crypto} ex st keys : Forall2 (fun s k => checksig_pair ex s k = Ok (IInt 1)) st keys ->
  exists sigs ks, st = map IBytes sigs /\ keys = map IBytes ks /\
    Forall2 (fun sig pk => signed_by ex pk sig) sigs ks.
Proof.
  induction 1 as [|s k st keys Hk _ (sigs & ks & -> & -> & IH)]; [by exists [], []|].
  apply checksig_pair_true in Hk as (sig & pk & -> & -> & Hs). exists (sig :: sigs), (pk :: ks).
  split; [done|]. split; [done|]. by constructor.
Qed.

(** * Spending *)

Section claims.
Context {CR : Crypto} {ST : ScriptSettings} (ex : ScriptExtras).

(** The count is needed for ownership, not only against expensive scripts: with
    input data that ends in the middle of a push, which the count rejects, the start of
    the output script becomes data, and evaluation alone accepts a signature by any
    key, whatever the address. *)
Theorem p2pkh_count_needed address script pk sig :
  p2pkh_create_output_script address None = Ok script ->
  1 <= blen pk <= 255 -> 1 <= blen sig <= 255 -> signed_by ex pk sig ->
  exists input, raw_script_eval input script ex = Ok tt /\
    (forall en n, get_sigops_count en input (Some script) <> Ok n).
Proof.
  intros Hs Hpk Hsig Hsigned. pose proof (p2pkh_create_len _ _ _ Hs) as Ha.
  rewrite p2pkh_script_eq in Hs by done. injection Hs as <-.
  pose proof (address_hash_len address Ha) as Hh. set (h := address_hash address) in *.
  destruct (p2pkh_matches None h I Hh) as [_ Hm].
  set (block := op_byte OP_DUP ++ op_byte OP_HASH160 ++ push_bytes h).
  assert (Hb : blen block = 23).
  { assert (Hp : blen (push_bytes h) = 21).
    { unfold push_bytes. rewrite Hh. change (20 <=? 75) with true. cbn iota. by rewrite blen_app, Hh. }
    unfold block. by rewrite !blen_app, Hp. }
  assert (Hpush : push_bytes block = [Byte.x17] ++ block) by (unfold push_bytes; by rewrite Hb).
  set (pre := push_bytes sig ++ push_bytes pk ++ push_bytes block).
  assert (Hpre : parses pre [push_op sig; push_op pk; push_op block]).
  { apply (parses_app _ _ [_] [_; _]); [by apply parses_push|].
    apply (parses_app _ _ [_] [_]); apply parses_push; lia. }
  exists (pre ++ [Byte.x17]). unfold get_sigops_count, raw_script_eval. rewrite Hm. split.
  - replace ((pre ++ [Byte.x17]) ++ p2pkh_bytes None h) with
      (pre ++ (push_bytes block ++ op_byte OP_EQUALVERIFY ++ op_byte OP_CHECKSIG)).
    2:{ rewrite Hpush. unfold p2pkh_bytes, block. simpl lock_bytes. rewrite app_nil_l. by rewrite <- !app_assoc. }
    apply (eval_split ex pre _ [push_op sig; push_op pk; push_op block]
      [push_op block; fun_op OP_EQUALVERIFY; fun_op OP_CHECKSIG]); [done| |].
    { apply (parses_app _ _ [_] [_; _]); [apply parses_push; lia|].
      apply (parses_app _ _ [_] [_]); by apply parses_fun. }
    exists [IBytes block; IBytes pk; IBytes sig]. split.
    + apply (leaves_run ex _ _ _ Hpre). rewrite !run_push by lia. done.
    + rewrite run_push, run_fun by (done || lia). simpl execute_op_code. unfold bind at 1.
      rewrite op_equalverify_eq, bool_decide_eq_true_2 by done. rewrite run_fun by done. simpl execute_op_code.
      rewrite (bind_ok _ _ _ tt [IInt 1]); [done|]. apply op_checksig_true. eauto.
  - intros en n [ops Hops]%count_sigops_parses. apply (parses_rest _ _ _ _ Hpre) in Hops as [ops' H].
    by inversion H.
Qed.

(** The owner of the key behind an address can spend its output: the input data
    built from the key and a signature is accepted, when both fit in a push, the
    signature is valid and the timelock has passed. *)
Theorem p2pkh_owner_spends address tl script pk sig input :
  p2pkh_create_output_script address tl = Ok script -> valid_lock tl ->
  p2pkh_create_input_data pk sig = Ok input -> pk <> [] -> sig <> [] ->
  get_hash160 pk = address_hash address -> signed_by ex pk sig -> unlocked ex tl ->
  raw_script_eval input script ex = Ok tt.
Proof.
  intros Hs Hv Hi Hpk Hsig Hh Hsig' Hu.
  assert (Hlen : forall b self st, fst (pushData (IBytes b) self) = Ok st -> blen b <= 255).
  { intros b self st. unfold pushData, lift, bind, single_byte.
    destruct (Z.ltb_spec (blen b) 256); [lia|]. by rewrite andb_false_r. }
  assert (Hne : forall b : bytes, b <> [] -> 1 <= blen b) by (intros [|]; [done|rewrite blen_cons; blia]).
  unfold p2pkh_create_input_data, build_script in Hi.
  destruct (pushData (IBytes sig) []) as [[[]|e] s1] eqn:E1; [|unfold bind in Hi; by rewrite E1 in Hi].
  rewrite (bind_ok _ _ _ _ _ E1) in Hi.
  destruct (pushData (IBytes pk) s1) as [[[]|e] s2] eqn:E2; [|done]. injection Hi as <-.
  assert (L1 : blen sig <= 255) by (eapply (Hlen sig []); by rewrite E1).
  assert (L2 : blen pk <= 255) by (eapply (Hlen pk s1); by rewrite E2).
  rewrite pushData_eq in E1 by done. injection E1 as <-. rewrite pushData_eq in E2 by done. injection E2 as <-.
  pose proof (Hne _ Hpk). pose proof (Hne _ Hsig).
  assert (Hp : parses (([] ++ push_bytes sig) ++ push_bytes pk) [push_op sig; push_op pk])
    by (apply (parses_app _ _ [_] [_]); by apply parses_push).
  pose proof (p2pkh_create_len _ _ _ Hs) as Ha.
  rewrite p2pkh_script_eq in Hs by done. injection Hs as <-.
  pose proof (address_hash_len address Ha) as Hh'. destruct (p2pkh_matches tl _ Hv Hh') as [_ Hm].
  unfold raw_script_eval. rewrite Hm.
  apply (eval_split ex _ _ _ _ Hp (parses_p2pkh tl (address_hash address) Hv ltac:(lia))).
  exists [IBytes pk; IBytes sig]. split; [apply (leaves_run ex _ _ _ Hp); by rewrite !run_push by lia|].
  apply run_lock; [done|]. split; [done|]. apply run_p2pkh; [lia|]. eauto.
Qed.


(** C38: the holders of enough keys can spend a multi-signature output without a timelock, or
    with a timelock from 65536 to 2^32-1 that has passed (outputs built with shorter
    timelocks cannot be read by the interpreter): with valid signatures by the required
    number of keys, in the order of the keys, the built input data is accepted, when all
    keys are valid compressed public keys, no key or signature is empty, and keys,
    signatures and redeem script are at most 255 bytes long. *)
Theorem multisig_owners_spend m pks r address tl script sigs keys input :
  generate_multisig_redeem_script m pks = Ok r -> Forall (fun b => 1 <= blen b <= 255) pks ->
  get_hash160 r = address_hash address ->
  multisig_create_output_script address tl = Ok script -> valid_lock tl -> unlocked ex tl ->
  Forall (fun pk => is_pubkey_compressed pk = true /\ exists k, from_encoded_point pk = Some k) pks ->
  blen r <= 255 -> Forall (fun b => 1 <= blen b <= 255) sigs ->
  multisig_create_input_data r sigs = Ok input ->
  Z.of_nat (length sigs) = m -> sublist keys pks -> Forall2 (fun sig pk => signed_by ex pk sig) sigs keys ->
  raw_script_eval input script ex = Ok tt.
Proof.
  intros Hg Hall Hr Hs Hv Hu Hkeys Hrl Hsl Hi Hm Hsub Hf.
  destruct (redeem_parses m pks r Hg Hall) as (Hpr & Hm' & Hn & Hms & Hps).
  assert (Hrn : 1 <= blen r).
  { destruct r as [|? r]; [by inversion Hpr|]. rewrite blen_cons. blia. }
  unfold multisig_create_input_data, build_script, bind in Hi.
  rewrite pushes_eq in Hi by (eapply Forall_impl; [exact Hsl|simpl; lia]). rewrite pushData_eq in Hi by done.
  injection Hi as <-.
  apply (multisig_eval_iff ex address tl); [done|done|].
  exists (concat (map push_bytes sigs)), (map push_op sigs), (push_bytes r), (fst (push_op r)), r.
  split; [done|]. pose proof (parses_pushes sigs Hsl) as Hps'. split; [done|].
  split; [by apply parses_push|]. split; [done|]. split; [done|].
  apply (eval_split ex _ _ _ _ Hps' Hpr). exists (map IBytes (rev sigs)). split.
  - apply (leaves_run ex _ _ _ Hps'). pose proof (run_pushes ex sigs [] [] Hsl) as E.
    rewrite !app_nil_r in E. exact E.
  - apply run_redeem; [done..|]. split; [by rewrite length_map, length_rev|].
    apply match_complete.
    + intros s k (sig & -> & Hsig)%list_elem_of_fmap (pk & -> & Hpk)%list_elem_of_fmap.
      rewrite elem_of_rev_ in Hpk, Hsig.
      assert (exists data, stx_sighash (extras_tx ex) = Ok data) as [data Hd].
      { apply list_elem_of_lookup in Hsig as [i Hi]. eapply Forall2_lookup_l in Hf as (? & _ & Hf); [|exact Hi].
        destruct Hf as (? & data & _ & _ & Hd & _). eauto. } rewrite Forall_forall in Hkeys. destruct (Hkeys pk Hpk) as (Hc & k & Hk).
      eexists. unfold checksig_pair, bind. rewrite op_checksig_eq, Hc, Hk, Hd. reflexivity.
    + exists (map IBytes (rev keys)). split.
      * apply sublist_fmap_, sublist_rev, Hsub.
      * apply Forall2_rev_ in Hf. revert Hf. generalize (rev sigs) (rev keys). clear.
        induction 1 as [|sig pk sigs keys H _ IH]; simpl; [constructor|]. constructor; [|done].
        apply checksig_pair_true. eauto.
Qed.

(** Building an output script for an address and parsing it gives back the class of
    the script, the address and the timelock (0 and no timelock are the same). *)
Theorem address_script_roundtrip c address tl :
  blen P2PKH_VERSION_BYTE = 1 -> P2PKH_VERSION_BYTE <> MULTISIG_VERSION_BYTE ->
  is_address (match c with P2PKH_ => P2PKH_VERSION_BYTE | MultiSig_ => MULTISIG_VERSION_BYTE end) address ->
  valid_lock tl ->
  exists script, create_output_script address tl = Ok script /\
    parse_address_script script =
    let? a := b58encode (IBytes address) in Ok (Some (c, mkScript a (normal_lock tl))).
Proof using. destruct c; intros; [by apply parse_p2pkh_script|by apply parse_multisig_script]. Qed.

(** the timelock of [t] pushed with OP_PUSHDATA1, which the pattern accepts *)
Definition p2pkh_bytes_pushdata1 (t : Z) (h : bytes) : bytes :=
  (op_byte OP_PUSHDATA1 ++ [Byte.x04] ++ be_bytes 4 t) ++ op_byte OP_GREATERTHAN_TIMESTAMP ++ p2pkh_bytes None h.

(** An output whose timelock is pushed with OP_PUSHDATA1 is spent under the same
    conditions as one built by [create_output_script], but [parse_script] raises
    [struct.error] on it: the pattern accepts the longer push, and the code that
    strips one byte from the matched block does not. *)
Theorem pushdata1_timelock_unparsed t h input en n :
  65535 < t <= 4294967295 -> blen h = 20 -> count_sigops en input = Ok n ->
  parse_address_script (p2pkh_bytes_pushdata1 t h) = Err StructError /\
  (raw_script_eval input (p2pkh_bytes_pushdata1 t h) ex = Ok tt <->
   raw_script_eval input (p2pkh_bytes (Some t) h) ex = Ok tt).
Proof.
  intros Ht Hh [ops Hops]%count_sigops_parses.
  assert (Hv : valid_lock (Some t)) by (destruct t; simpl in *; lia).
  assert (Hb : length (be_bytes 4 t) = 4%nat) by apply length_be_bytes.
  assert (Hm1 : p2pkh_re_match (p2pkh_bytes_pushdata1 t h) =
    Some (Some (op_byte OP_PUSHDATA1 ++ [Byte.x04] ++ be_bytes 4 t), push_bytes h) /\
    multisig_re_match (p2pkh_bytes_pushdata1 t h) = None).
  { destruct (p2pkh_matches None h I Hh) as [H1 _]. revert H1.
    unfold p2pkh_bytes_pushdata1, p2pkh_re_match, multisig_re_match, re_timelocked.
    set (rest := p2pkh_bytes None h). assert (Hbl : blen (be_bytes 4 t) = 4) by apply blen_be_bytes.
    pose proof (re_data_pushdata1 (be_bytes 4 t) (op_byte OP_GREATERTHAN_TIMESTAMP ++ rest) ltac:(lia)) as Er.
    rewrite Hbl in Er. rewrite <- !app_assoc. change [Byte.x04] with [z2b 4]. rewrite Er.
    cbn [mbind option_bind snd fst]. rewrite re_op_byte. cbn [mbind option_bind].
    assert (Hr : re_data 4 rest = None) by (by apply re_data_op). rewrite Hr. cbn [mbind option_bind].
    destruct (p2pkh_tail rest) as [g|]; intros [= ->]. split; [done|].
    replace (multisig_tail rest) with (@None bytes); [done|]. unfold multisig_tail, rest, p2pkh_bytes.
    rewrite (app_nil_l). by rewrite re_op_other. }
  destruct Hm1 as [Hm1 Hm2]. destruct (p2pkh_matches (Some t) h Hv Hh) as [_ Hm3]. split.
  - unfold parse_address_script, p2pkh_parse_script, groups_to_script. rewrite Hm1. cbn [fst snd].
    destruct (be_bytes 4 t) as [|b0 [|b1 [|b2 [|b3 [|]]]]]; try done.
  - unfold raw_script_eval. rewrite Hm2, Hm3.
    assert (Hp1 : parses (p2pkh_bytes_pushdata1 t h)
      ((76, Some (IBytes (be_bytes 4 t))) :: fun_op OP_GREATERTHAN_TIMESTAMP :: p2pkh_ops h)).
    { apply (parses_app _ _ [_] (_ :: _)).
      - apply parses_one. destruct (be_bytes 4 t) as [|b0 [|b1 [|b2 [|b3 [|]]]]]; done.
      - apply (parses_app _ _ [_]); [by apply parses_fun|]. apply (parses_p2pkh None h I). lia. }
    rewrite (eval_split ex _ _ _ _ Hops Hp1).
    rewrite (eval_split ex _ _ _ _ Hops (parses_p2pkh (Some t) h Hv ltac:(lia))).
    replace (lock_ops (Some t)) with [push_op (be_bytes 4 t); fun_op OP_GREATERTHAN_TIMESTAMP] by (by destruct t; [lia| |lia]).
    split; intros (st & Hl & Hr); exists st; (split; [exact Hl|]); revert Hr;
      rewrite ?run_cons; change (map fst _) with (map (A := Z * option item) fst);
      intros Hr; exact Hr.
Qed.

(** the bytes that [pushData] writes for a timelock outside the range of four bytes *)
Definition odd_lock_bytes (t : Z) : bytes :=
  if 4294967295 <? t then be_bytes 8 t else if 255 <? t then be_bytes 2 t else be_bytes 1 t.

Lemma odd_lock_size t : blen (odd_lock_bytes t) = 1 \/ blen (odd_lock_bytes t) = 2 \/ blen (odd_lock_bytes t) = 8.
Proof. unfold odd_lock_bytes. repeat case_match; rewrite blen_be_bytes; lia. Qed.

(** the timelock of an output script that [create_output_script] returned: none, one that the
    interpreter can read, or one that [pushData] wrote in one, two or eight bytes *)
Lemma created_lock address tl script : p2pkh_create_output_script address tl = Ok script ->
  valid_lock tl \/ exists t, tl = Some t /\ 0 < t /\
    script = (push_bytes (odd_lock_bytes t) ++ op_byte OP_GREATERTHAN_TIMESTAMP) ++ p2pkh_bytes None (address_hash address).
Proof.
  intros Hs. pose proof (p2pkh_create_len _ _ _ Hs) as Ha. pose proof (address_hash_len address Ha) as Hh.
  unfold p2pkh_create_output_script, build_script in Hs. rewrite Ha in Hs.
  change (negb (25 =? 25)) with false in Hs. cbn iota in Hs. unfold push_timelock in Hs.
  destruct tl as [[|t|t]|]; [by left| | |by left].
  2:{ unfold bind, pushData, lift, pushData_int, pack_uint in Hs. done. }
  destruct (decide (valid_lock (Some (Zpos t)))) as [Hv|Hv]; [by left|]. right. exists (Zpos t). split; [done|]. split; [done|].
  change (~ (65535 < Zpos t <= 4294967295)) in Hv. assert (Hi : pushData_int (Zpos t) = Ok (odd_lock_bytes (Zpos t)) \/ pushData_int (Zpos t) = Err StructError).
  { unfold pushData_int, pack_uint, odd_lock_bytes. destruct (Z.ltb_spec 4294967295 (Zpos t)); [destruct (_ && _); eauto|].
    destruct (Z.ltb_spec 65535 (Zpos t)); [lia|]. destruct (Z.ltb_spec 255 (Zpos t)); destruct (_ && _); eauto. }
  destruct Hi as [Hi|Hi]; unfold bind in Hs; [|unfold pushData, bind, lift in Hs; by rewrite Hi in Hs].
  assert (E : pushData (IInt (Zpos t)) [] = (Ok tt, push_bytes (odd_lock_bytes (Zpos t)))).
  { pose proof (odd_lock_size (Zpos t)) as Hsz. rewrite <- (app_nil_l (push_bytes _)), <- pushData_eq by lia.
    unfold pushData. by rewrite Hi. }
  rewrite E in Hs. unfold addOpcode in Hs. rewrite pushData_eq in Hs by lia. injection Hs as <-.
  unfold p2pkh_bytes. simpl lock_bytes. rewrite app_nil_l. unfold op_byte. by rewrite <- !app_assoc.
Qed.

(** [pushData] writes a timelock below 2^16 in one or two bytes, and one of 2^32 or more in
    eight, which the interpreter refuses to read: an output built with such a timelock is
    never spent, at any time, by any input the signature-operation count accepts. *)
Lemma odd_timelock_unspendable address t input en n :
  let script := (push_bytes (odd_lock_bytes t) ++ op_byte OP_GREATERTHAN_TIMESTAMP) ++ p2pkh_bytes None (address_hash address) in
  blen address = 25 -> get_sigops_count en input (Some script) = Ok n -> raw_script_eval input script ex <> Ok tt.
Proof.
  intros script Ha Hn. pose proof (address_hash_len address Ha) as Hh. pose proof (odd_lock_size t) as Htb.
  set (tb := odd_lock_bytes t) in *. set (h := address_hash address) in *.
  assert (Hm : multisig_re_match script = None).
  { unfold script, multisig_re_match, re_timelocked, push_bytes. unfold blen in Htb.
    destruct tb as [|b0 [|b1 [|b2 [|b3 [|b4 [|b5 [|b6 [|b7 [|]]]]]]]]]; simpl in Htb; try lia; done. }
  unfold get_sigops_count in Hn. rewrite Hm in Hn. apply count_sigops_parses in Hn as [ops Hops].
  unfold raw_script_eval. rewrite Hm. intros He.
  apply (eval_split ex input script ops
    ([push_op tb; fun_op OP_GREATERTHAN_TIMESTAMP] ++ p2pkh_ops h)) in He as (st & _ & Hrun); [|done|].
  2:{ unfold script. apply parses_app; [|by apply (parses_p2pkh None h I); lia].
      apply (parses_app _ _ [_] [_]); [apply parses_push; lia|by apply parses_fun]. }
  simpl app in Hrun. rewrite run_push, run_fun in Hrun by (done || lia). revert Hrun.
  change (execute_op_code OP_GREATERTHAN_TIMESTAMP ex) with (op_greaterthan_timestamp ex).
  unfold op_greaterthan_timestamp. unfold bind at 1. step_need. unfold bind, pop, assert_bytes, ret, lift.
  unfold unpack_I. by rewrite (proj2 (Z.eqb_neq (blen tb) 4)) by lia.
Qed.

(** An output built with a timelock from 1 to 65535 is never spent. *)
Theorem short_timelock_unspendable address t script input en n :
  0 < t <= 65535 -> p2pkh_create_output_script address (Some t) = Ok script ->
  get_sigops_count en input (Some script) = Ok n ->
  raw_script_eval input script ex <> Ok tt.
Proof.
  intros Ht Hs Hn. destruct (created_lock _ _ _ Hs) as [Hv|(t' & [= <-] & _ & ->)]; [destruct t; simpl in Hv; lia|].
  apply (odd_timelock_unspendable address t input en n); [by eapply p2pkh_create_len|done].
Qed.

(** C16: ownership of pay-to-public-key-hash outputs: for every output script that
    [create_output_script] returns and input data that has passed the signature-operation
    count, evaluation accepts the input exactly when, run on its own, it leaves one signature
    and one compressed public key on the stack, the key hashes to the address of the output,
    the signature is valid for the transaction under that key, and the timelock of the
    output, if any, is one the interpreter can read ([valid_lock]: from 65536 to 2^32-1) and
    has passed.  With any other timelock the script builder accepts (1 to 65535, or 2^32 and
    more), the output is never spent. *)
Theorem p2pkh_spend address tl script en input n :
  p2pkh_create_output_script address tl = Ok script ->
  get_sigops_count en input (Some script) = Ok n ->
  raw_script_eval input script ex = Ok tt <->
  valid_lock tl /\ exists pk sig, leaves ex input [IBytes pk; IBytes sig] /\ unlocked ex tl /\
    get_hash160 pk = address_hash address /\ signed_by ex pk sig.
Proof.
  intros Hs Hn. destruct (created_lock _ _ _ Hs) as [Hv|(t & -> & Ht & ->)].
  - rewrite (p2pkh_spend_iff ex address tl script en input n Hs Hv Hn). tauto.
  - pose proof (p2pkh_create_len _ _ _ Hs) as Ha. split; [by intros ?%(odd_timelock_unspendable address t input en n Ha Hn)|].
    intros [Hv _]. rewrite p2pkh_script_eq in Hs by done. injection Hs as Hs. exfalso.
    unfold p2pkh_bytes in Hs. change (lock_bytes None) with (@nil Byte.byte) in Hs. rewrite app_nil_l in Hs. apply app_inv_tail in Hs.
    assert (E : lock_bytes (Some t) = push_bytes (be_bytes 4 t) ++ op_byte OP_GREATERTHAN_TIMESTAMP) by (destruct t; [lia|done|lia]).
    rewrite E in Hs. apply app_inv_tail in Hs.
    assert (Hl : forall x, blen x <= 75 -> blen (push_bytes x) = 1 + blen x).
    { intros x Hx. unfold push_bytes. rewrite (proj2 (Z.leb_le _ _) Hx), blen_app. done. }
    apply (f_equal blen) in Hs. pose proof (odd_lock_size t) as Hsz.
    rewrite !Hl, blen_be_bytes in Hs by (rewrite ?blen_be_bytes; lia). lia.
Qed.
End claims.

(** * Concrete scripts *)

Section demo.

Definition demo_pks : list bytes := [zb [2; 10]; zb [2; 11]; zb [3; 12]].

(** two signatures out of three keys *)
Definition demo_redeem : bytes := zb [82; 2; 2; 10; 2; 2; 11; 2; 3; 12; 83; 174].

(** hashes of twenty bytes, with no collision on [demo_redeem]; keys are their own
    points, and a signature is the key followed by the data *)
#[local] Instance demo_crypto : Crypto := {
  sha256 := fun x => x;
  ripemd160 := fun x => if bool_decide (x = demo_redeem) then repeat Byte.x01 20
                        else Byte.x00 :: take 19 (x ++ repeat Byte.x00 19);
  PublicKey := bytes;
  from_encoded_point := Some;
  ecdsa_verify := fun k sig data => bool_decide (sig = k ++ data);
  b58encode := fun i => match i with IBytes b => Ok b | IInt _ => Err TypeError end;
  b58decode := Ok
}.

#[local] Instance demo_settings : ScriptSettings := {
  P2PKH_VERSION_BYTE := zb [0x28];
  MULTISIG_VERSION_BYTE := zb [0x64];
  MAX_MULTISIG_PUBKEYS := 20;
  MAX_MULTISIG_SIGNATURES := 15
}.

Definition demo_ex : ScriptExtras :=
  UtxoScriptExtras (mkScriptTx 100000 [] (Ok (zb [7]))) (mkTxInput [] 0 []) [].

Definition demo_pk : bytes := zb [2; 10].
Definition demo_sig : bytes := zb [2; 10; 7].
Definition demo_address : bytes := get_address_from_public_key_hash (get_hash160 demo_pk) None.
Definition demo_multi_address : bytes := get_address_from_redeem_script_hash (get_hash160 demo_redeem) None.

Definition ok_or {A} (d : A) (r : result A) : A := match r with Ok a => a | Err _ => d end.

Definition demo_script : bytes := ok_or [] (p2pkh_create_output_script demo_address (Some 70000)).
Definition demo_input : bytes := ok_or [] (p2pkh_create_input_data demo_pk demo_sig).

Lemma demo_signed : signed_by demo_ex demo_pk demo_sig.
Proof. exists demo_pk, (zb [7]). by vm_compute. Qed.

Lemma demo_unlocked : unlocked demo_ex (Some 70000).
Proof. do 3 eexists. split; [reflexivity|]. vm_compute. reflexivity. Qed.

Lemma p2pkh_spend_witness :
  raw_script_eval demo_input demo_script demo_ex = Ok tt /\
  exists pk sig, leaves demo_ex demo_input [IBytes pk; IBytes sig] /\ get_hash160 pk = address_hash demo_address.
Proof.
  assert (E : raw_script_eval demo_input demo_script demo_ex = Ok tt) by (vm_compute; reflexivity).
  split; [exact E|].
  destruct (proj1 (p2pkh_spend demo_ex demo_address (Some 70000) demo_script true demo_input 0
    ltac:(vm_compute; reflexivity) ltac:(vm_compute; reflexivity)) E)
    as (_ & pk & sig & Hl & _ & Hh & _).
  exists pk, sig. split; [exact Hl|exact Hh].
Defined.

(** a key that has nothing to do with the address *)
Lemma p2pkh_count_needed_witness :
  get_hash160 (zb [3; 99]) <> address_hash demo_address /\
  exists input script, p2pkh_create_output_script demo_address None = Ok script /\
    raw_script_eval input script demo_ex = Ok tt.
Proof.
  split; [by vm_compute|].
  destruct (p2pkh_count_needed demo_ex demo_address
    (ok_or [] (p2pkh_create_output_script demo_address None)) (zb [3; 99]) (zb [3; 99; 7])
    ltac:(vm_compute; reflexivity) ltac:(vm_compute; split; discriminate)
    ltac:(vm_compute; split; discriminate)) as (input & He & _).
  - exists (zb [3; 99]), (zb [7]). by vm_compute.
  - exists input, (ok_or [] (p2pkh_create_output_script demo_address None)).
    split; [vm_compute; reflexivity|exact He].
Defined.

Lemma p2pkh_owner_spends_witness : raw_script_eval demo_input demo_script demo_ex = Ok tt.
Proof.
  apply (p2pkh_owner_spends demo_ex demo_address (Some 70000) demo_script demo_pk demo_sig demo_input).
  - vm_compute; reflexivity.
  - simpl; lia.
  - vm_compute; reflexivity.
  - discriminate.
  - discriminate.
  - vm_compute; reflexivity.
  - exact demo_signed.
  - exact demo_unlocked.
Defined.

Lemma script_eval_terminates_witness : execute_eval (demo_input ++ demo_script) demo_ex <> Err OutOfFuel.
Proof. apply script_eval_terminates; [by intros []|discriminate]. Defined.

Definition demo_multi_script : bytes := ok_or [] (multisig_create_output_script demo_multi_address None).
Definition demo_sigs : list bytes := [zb [2; 10; 7]; zb [3; 12; 7]].
Definition demo_multi_input : bytes := ok_or [] (multisig_create_input_data demo_redeem demo_sigs).

Lemma demo_pks_ok : Forall (fun b => 1 <= blen b <= 255) demo_pks.
Proof. repeat constructor; vm_compute; discriminate. Qed.

Lemma demo_no_collision x : get_hash160 x = get_hash160 demo_redeem -> x = demo_redeem.
Proof.
  unfold get_hash160, ripemd160, sha256, demo_crypto.
  rewrite (bool_decide_eq_true_2 (demo_redeem = demo_redeem)) by done.
  destruct (decide (x = demo_redeem)); [done|]. by rewrite bool_decide_eq_false_2.
Qed.


Lemma multisig_owners_spend_witness : raw_script_eval demo_multi_input demo_multi_script demo_ex = Ok tt.
Proof.
  apply (multisig_owners_spend demo_ex 2 demo_pks demo_redeem demo_multi_address None demo_multi_script
    demo_sigs [zb [2; 10]; zb [3; 12]] demo_multi_input).
  - vm_compute; reflexivity.
  - exact demo_pks_ok.
  - vm_compute; reflexivity.
  - vm_compute; reflexivity.
  - exact I.
  - exact I.
  - repeat constructor; eexists; reflexivity.
  - vm_compute; discriminate.
  - repeat constructor; vm_compute; discriminate.
  - vm_compute; reflexivity.
  - reflexivity.
  - unfold demo_pks. apply sublist_skip, sublist_cons, sublist_skip, sublist_nil_l.
  - constructor; [|constructor; [|by constructor]]; do 2 eexists;
      (split; [reflexivity|split; [reflexivity|split; [reflexivity|vm_compute; reflexivity]]]).
Defined.

Lemma address_script_roundtrip_witness : exists script,
  create_output_script demo_multi_address (Some 70000) = Ok script /\
  parse_address_script script = Ok (Some (MultiSig_, mkScript demo_multi_address (Some 70000))).
Proof.
  destruct (address_script_roundtrip MultiSig_ demo_multi_address (Some 70000)) as (script & E & Hp).
  - vm_compute; reflexivity.
  - discriminate.
  - repeat split; vm_compute; reflexivity.
  - simpl; lia.
  - exists script. split; [exact E|exact Hp].
Defined.

Lemma pushdata1_timelock_unparsed_witness :
  parse_address_script (p2pkh_bytes_pushdata1 70000 (get_hash160 demo_pk)) = Err StructError /\
  raw_script_eval demo_input (p2pkh_bytes_pushdata1 70000 (get_hash160 demo_pk)) demo_ex = Ok tt.
Proof.
  destruct (pushdata1_timelock_unparsed demo_ex 70000 (get_hash160 demo_pk) demo_input true 0) as [E H].
  - lia.
  - vm_compute; reflexivity.
  - vm_compute; reflexivity.
  - split; [exact E|]. apply H. vm_compute. reflexivity.
Defined.

Lemma short_timelock_unspendable_witness :
  raw_script_eval demo_input (ok_or [] (p2pkh_create_output_script demo_address (Some 60000))) demo_ex <> Ok tt.
Proof.
  apply (short_timelock_unspendable demo_ex demo_address 60000 _ demo_input true 0).
  - lia.
  - vm_compute; reflexivity.
  - vm_compute; reflexivity.
Defined.
End demo.
