(* ===== verification/TxStruct.v ===== *)
(** Vertices and the bytes of a transaction's funds: inputs, outputs, token
    information and headers, [TxInput] and [TxOutput] of
    [hathor/transaction/base_transaction.py], [Transaction] and
    [TokenCreationTransaction], [NanoHeader] and [FeeHeader] of
    [hathor/transaction/headers], with the data a signature covers
    ([get_sighash_all]).

    A serializer is a function to [result bytes]; a parser of a buffer is a command on
    the bytes left. *)

From stdpp Require Import base list.
From Stdlib Require Import ZArith Lia Floats.SpecFloat.
From S2P Require Import Prelude PyInt Serializer Deserializer Leb128 Encoding PyValue Compound NCTypes.
From S2P Require Import BlockStorage ScriptCode ScriptVM.

Local Open Scope Z_scope.
Local Open Scope py_scope.

(** * Data *)

Inductive TxVersion : Type :=
| REGULAR_BLOCK | REGULAR_TRANSACTION | TOKEN_CREATION_TRANSACTION | MERGE_MINED_BLOCK | POA_BLOCK
| ON_CHAIN_BLUEPRINT.

#[export] Instance TxVersion_eq_dec : EqDecision TxVersion.
Proof. solve_decision. Defined.

Definition tx_version_value (v : TxVersion) : Z :=
  match v with
  | REGULAR_BLOCK => 0 | REGULAR_TRANSACTION => 1 | TOKEN_CREATION_TRANSACTION => 2
  | MERGE_MINED_BLOCK => 3 | POA_BLOCK => 5 | ON_CHAIN_BLUEPRINT => 6
  end.

Inductive NCActionType : Type := ACT_DEPOSIT | ACT_WITHDRAWAL | ACT_GRANT_AUTHORITY | ACT_ACQUIRE_AUTHORITY.

#[export] Instance NCActionType_eq_dec : EqDecision NCActionType.
Proof. solve_decision. Defined.

Definition action_type_value (t : NCActionType) : Z :=
  match t with
  | ACT_DEPOSIT => 1 | ACT_WITHDRAWAL => 2 | ACT_GRANT_AUTHORITY => 3 | ACT_ACQUIRE_AUTHORITY => 4
  end.

(** [NCActionType(value)] *)
Definition action_type_of (value : Z) : result NCActionType :=
  match find (fun t => action_type_value t =? value)
    [ACT_DEPOSIT; ACT_WITHDRAWAL; ACT_GRANT_AUTHORITY; ACT_ACQUIRE_AUTHORITY] with
  | Some t => Ok t
  | None => Err ValueError
  end.

Record NanoHeaderAction : Type := mkAction { act_type : NCActionType; act_token_index : Z; act_amount : Z }.

Record NanoHeader : Type := mkNano {
  nc_seqnum : Z;
  nc_id : bytes;
  nc_method : pystr;
  nc_args_bytes : bytes;
  nc_actions : list NanoHeaderAction;
  nc_address : bytes;
  nc_script : bytes
}.

Record FeeHeaderEntry : Type := mkFee { fee_token_index : Z; fee_amount : Z }.

Inductive VertexHeader : Type :=
| NanoHeader_ (h : NanoHeader)
| FeeHeader_ (fees : list FeeHeaderEntry).

(** [BitcoinAuxPow], the proof of work of a merge-mined block *)
Record BitcoinAuxPow : Type := mkAuxPow {
  header_head : bytes;
  coinbase_head : bytes;
  coinbase_tail : bytes;
  merkle_path : list bytes;
  header_tail : bytes
}.

(** a block or a transaction; [v_token_name], [v_token_symbol] and [v_token_version] are
    those of a [TokenCreationTransaction], [v_data] that of a block, [v_signer_id] and
    [v_signature] those of a [PoaBlock], [v_aux_pow] that of a [MergeMinedBlock], and
    [v_code] (the compressed code), [v_nc_pubkey] and [v_nc_signature] those of an
    [OnChainBlueprint] *)
Record vertex : Type := MkVertex {
  v_hash : bytes;
  v_signal_bits : Z;
  v_version : TxVersion;
  v_timestamp : Z;
  v_weight : spec_float;
  v_parents : list bytes;
  v_inputs : list TxInput;
  v_outputs : list TxOutput;
  v_tokens : list bytes;
  v_headers : list VertexHeader;
  v_token_name : pystr;
  v_token_symbol : pystr;
  v_token_version : TokenVersion;
  v_nonce : Z;
  v_data : bytes;
  v_signer_id : bytes;
  v_signature : bytes;
  v_aux_pow : option BitcoinAuxPow;
  v_code : bytes;
  v_nc_pubkey : bytes;
  v_nc_signature : bytes
}.

(** a vertex with the default values of the last fields *)
Definition mkVertex hash bits version timestamp weight parents inputs outputs tokens headers name symbol token_version : vertex :=
  MkVertex hash bits version timestamp weight parents inputs outputs tokens headers name symbol token_version 0 [] [] [] None [] [] [].

(** * Buffers *)

Definition unpack_len (n : Z) : M bytes bytes := fun buf => (Ok (take (Z.to_nat n) buf), drop (Z.to_nat n) buf).

(** [unpack] of one unsigned integer of [size] bytes: ['!B'] or ['!H'] *)
Definition unpack_uint (size : nat) : M bytes Z := fun buf =>
  if (size <=? length buf)%nat then (Ok (int_from_bytes (take size buf) false), drop size buf)
  else (Err StructError, buf).

Definition bytes_to_output_value : M bytes Z := fun data =>
  match try_raise (decode_output_value true) BadDataError InvalidOutputValue (build_bytes_deserializer data) with
  | (Ok v, d) => match read_all d with (Ok rest, _) => (Ok v, rest) | (Err e, _) => (Err e, data) end
  | (Err e, _) => (Err e, data)
  end.

Definition output_value_to_bytes (number : Z) : result bytes :=
  match try_raise (encode_output_value number true) ValueError InvalidOutputValue build_bytes_serializer with
  | (Ok _, s) => fst (ser_finalize s)
  | (Err e, _) => Err e
  end.

(** [b''.join(f(x) for x in l)] *)
Fixpoint rjoin {A} (f : A -> result bytes) (l : list A) : result bytes :=
  match l with
  | [] => Ok []
  | x :: l => let? b := f x in let? bs := rjoin f l in Ok (b ++ bs)
  end.

(** [s.encode('ascii')] and [b.decode('ascii')] *)
Definition ascii_encode (s : pystr) : result bytes :=
  if forallb (fun c => c <? 128) s then Ok (map z2b s) else Err UnicodeEncodeError.

Definition ascii_decode (b : bytes) : result pystr :=
  if forallb (fun c => b2z c <? 128) b then Ok (map b2z b) else Err UnicodeDecodeError.

Definition TX_HASH_SIZE : Z := 32.
Definition _NC_SCRIPT_LEN_MAX_BYTES : Z := 2.
Definition NANO_HEADER : bytes := [z2b 16].
Definition FEE_HEADER : bytes := [z2b 17].
Definition get_maximum_number_of_headers : Z := 2.

(** * Inputs and outputs *)

(** [bytes(tx_input)] *)
Definition TxInput_bytes (i : TxInput) : result bytes :=
  let? index := int_to_bytes (in_index i) 1 false in
  let? data_len := int_to_bytes (blen (in_data i)) 2 false in
  Ok (in_tx_id i ++ index ++ data_len ++ in_data i).

Definition TxInput_sighash_bytes (i : TxInput) : result bytes :=
  let? index := int_to_bytes (in_index i) 1 false in
  let? data_len := int_to_bytes 0 2 false in
  Ok (in_tx_id i ++ index ++ data_len).

Definition TxInput_create_from_bytes : M bytes TxInput :=
  let! input_tx_id := unpack_len TX_HASH_SIZE in
  let! input_index := unpack_uint 1 in
  let! data_len := unpack_uint 2 in
  let! input_data := unpack_len data_len in
  ret (mkTxInput input_tx_id input_index input_data).

(** [TxOutput(value, script, token_data)] *)
Definition TxOutput_init (value : Z) (script : bytes) (token_data : Z) : result TxOutput :=
  if (value <=? 0) || (MAX_OUTPUT_VALUE_64 <? value) then Err InvalidOutputValue
  else Ok (mkTxOutput value script token_data).

(** [bytes(tx_output)] *)
Definition TxOutput_bytes (o : TxOutput) : result bytes :=
  let? value := output_value_to_bytes (out_value o) in
  let? token_data := int_to_bytes (out_token_data o) 1 false in
  let? script_len := int_to_bytes (blen (out_script o)) 2 false in
  Ok (value ++ token_data ++ script_len ++ out_script o).

Definition TxOutput_create_from_bytes : M bytes TxOutput :=
  let! value := bytes_to_output_value in
  let! token_data := unpack_uint 1 in
  let! script_len := unpack_uint 2 in
  let! script := unpack_len script_len in
  lift (TxOutput_init value script token_data).

(** * Headers *)

Definition action_bytes (a : NanoHeaderAction) : result bytes :=
  let? type := int_to_bytes (action_type_value (act_type a)) 1 false in
  let? token_index := int_to_bytes (act_token_index a) 1 false in
  let? amount := output_value_to_bytes (act_amount a) in
  Ok (type ++ token_index ++ amount).

Definition nano_serialize (h : NanoHeader) (skip_signature : bool) : result bytes :=
  let? encoded_method := ascii_encode (nc_method h) in
  let? seqnum := Leb128Utils.encode_unsigned (nc_seqnum h) (Some ADDRESS_SEQNUM_SIZE) in
  let? method_len := int_to_bytes (blen encoded_method) 1 false in
  let? args_len := int_to_bytes (blen (nc_args_bytes h)) 2 false in
  let? actions_len := int_to_bytes (Z.of_nat (length (nc_actions h))) 1 false in
  let? actions := rjoin action_bytes (nc_actions h) in
  let script := if skip_signature then [] else nc_script h in
  let? script_len := Leb128Utils.encode_unsigned (blen script) (Some _NC_SCRIPT_LEN_MAX_BYTES) in
  Ok (NANO_HEADER ++ nc_id h ++ seqnum ++ method_len ++ encoded_method ++ args_len ++ nc_args_bytes h ++
      actions_len ++ actions ++ nc_address h ++ script_len ++ script).

Definition decode_unsigned_from (max_bytes : Z) : M bytes Z := fun buf =>
  match Leb128Utils.decode_unsigned buf (Some max_bytes) with
  | Ok (v, buf) => (Ok v, buf)
  | Err e => (Err e, buf)
  end.

Definition action_from_bytes : M bytes NanoHeaderAction :=
  let! type_bytes := unpack_len 1 in
  let! action_type := lift (action_type_of (int_from_bytes type_bytes false)) in
  let! token_index := unpack_uint 1 in
  let! amount := bytes_to_output_value in
  ret (mkAction action_type token_index amount).

(** [isinstance(tx, Transaction)], of the class that a version stands for *)
Definition is_transaction_class (cls : TxVersion) : bool :=
  match cls with
  | REGULAR_TRANSACTION | TOKEN_CREATION_TRANSACTION | ON_CHAIN_BLUEPRINT => true
  | REGULAR_BLOCK | MERGE_MINED_BLOCK | POA_BLOCK => false
  end.

(** [NanoHeader.deserialize], for a vertex of class [tx] *)
Definition nano_deserialize (tx : TxVersion) : M bytes NanoHeader :=
  py_assert (is_transaction_class tx) ;;;
  let! header_id := unpack_len 1 in
  py_assert (bool_decide (header_id = NANO_HEADER)) ;;;
  let! id := unpack_len 32 in
  let! seqnum := decode_unsigned_from ADDRESS_SEQNUM_SIZE in
  let! method_len := unpack_uint 1 in
  let! method := unpack_len method_len in
  let! args_bytes_len := unpack_uint 2 in
  let! args_bytes := unpack_len args_bytes_len in
  let! actions_len := unpack_uint 1 in
  let! actions := repeat_m (Z.to_nat actions_len) action_from_bytes in
  let! address := unpack_len ADDRESS_LEN_BYTES in
  let! script_len := decode_unsigned_from _NC_SCRIPT_LEN_MAX_BYTES in
  let! script := unpack_len script_len in
  let! decoded_method := lift (ascii_decode method) in
  ret (mkNano seqnum id decoded_method args_bytes actions address script).

Definition fee_bytes (f : FeeHeaderEntry) : result bytes :=
  let? token_index := int_to_bytes (fee_token_index f) 1 false in
  let? amount := output_value_to_bytes (fee_amount f) in
  Ok (token_index ++ amount).

Definition fee_serialize (fees : list FeeHeaderEntry) : result bytes :=
  let? fees_len := int_to_bytes (Z.of_nat (length fees)) 1 false in
  let? entries := rjoin fee_bytes fees in
  Ok (FEE_HEADER ++ fees_len ++ entries).

(** the loop body of [FeeHeader.deserialize], on its deserializer *)
Definition fee_from : DM FeeHeaderEntry :=
  let! token_index := read_byte in
  let! amount := decode_output_value true in
  ret (mkFee token_index amount).

(** [FeeHeader.deserialize], for a vertex of class [tx] *)
Definition fee_deserialize (tx : TxVersion) : M bytes (list FeeHeaderEntry) := fun buf =>
  match (let! header_id := read_bytes 1 true in
         py_assert (bool_decide (header_id = FEE_HEADER)) ;;;
         let! fees_len := read_byte in
         let! fees := repeat_m (Z.to_nat fees_len) fee_from in
         py_assert (is_transaction_class tx) ;;;
         let! remaining_bytes := read_all in
         ret (fees, remaining_bytes)) (build_bytes_deserializer buf) with
  | (Ok (fees, remaining_bytes), _) => (Ok fees, remaining_bytes)
  | (Err e, _) => (Err e, buf)
  end.

(** [header.get_sighash_bytes()] *)
Definition header_sighash_bytes (h : VertexHeader) : result bytes :=
  match h with
  | NanoHeader_ h => nano_serialize h true
  | FeeHeader_ fees => fee_serialize fees
  end.

(** * The funds of a transaction *)

Definition serialize_token_info (t : vertex) : result bytes :=
  let? encoded_name := utf8_encode (v_token_name t) in
  let? encoded_symbol := utf8_encode (v_token_symbol t) in
  let? version := int_to_bytes (token_version_value (v_token_version t)) 1 false in
  let? name_len := int_to_bytes (blen encoded_name) 1 false in
  let? symbol_len := int_to_bytes (blen encoded_symbol) 1 false in
  Ok (version ++ name_len ++ encoded_name ++ symbol_len ++ encoded_symbol).

(** [decode_string_utf8] *)
Definition decode_string_utf8 (b : bytes) : result pystr :=
  match utf8_decode b with
  | Err e => Err (if issubclass_exn e UnicodeDecodeError then StructError else e)
  | r => r
  end.

Definition deserialize_token_info : M bytes (pystr * pystr * TokenVersion) :=
  let! raw_token_version := unpack_uint 1 in
  let! token_version := lift (token_version_of raw_token_version) in
  let! name_len := unpack_uint 1 in
  let! name := unpack_len name_len in
  let! symbol_len := unpack_uint 1 in
  let! symbol := unpack_len symbol_len in
  let! decoded_name := lift (decode_string_utf8 name) in
  let! decoded_symbol := lift (decode_string_utf8 symbol) in
  ret (decoded_name, decoded_symbol, token_version).

(** [pack('!BB...B', ...)] *)
Definition pack_B (l : list Z) : result bytes := rjoin (pack_uint 1) l.

(** what [get_funds_struct] and [get_sighash_all] of transactions share: they differ in the
    bytes of an input, in the headers and, for an on-chain blueprint, in its signature *)
Definition funds_with (input_bytes : TxInput -> result bytes) (t : vertex) : result bytes :=
  let n_inputs := Z.of_nat (length (v_inputs t)) in
  let n_outputs := Z.of_nat (length (v_outputs t)) in
  match v_version t with
  | TOKEN_CREATION_TRANSACTION =>
      let? head := pack_B [v_signal_bits t; tx_version_value (v_version t); n_inputs; n_outputs] in
      let? inputs := rjoin input_bytes (v_inputs t) in
      let? outputs := rjoin TxOutput_bytes (v_outputs t) in
      let? info := serialize_token_info t in
      Ok (head ++ inputs ++ outputs ++ info)
  | _ =>
      let? head := pack_B [v_signal_bits t; tx_version_value (v_version t);
                           Z.of_nat (length (v_tokens t)); n_inputs; n_outputs] in
      let? inputs := rjoin input_bytes (v_inputs t) in
      let? outputs := rjoin TxOutput_bytes (v_outputs t) in
      Ok (head ++ concat (v_tokens t) ++ inputs ++ outputs)
  end.

(** ** On-chain blueprints *)

Definition ON_CHAIN_BLUEPRINT_VERSION : Z := 1.
Definition PYTHON_ZLIB : Z := 1.

Definition serialize_code (t : vertex) : result bytes :=
  let? ocb_version := int_to_bytes ON_CHAIN_BLUEPRINT_VERSION 1 false in
  let? kind := int_to_bytes PYTHON_ZLIB 1 false in
  let serialized_code := kind ++ v_code t in
  let? code_len := int_to_bytes (blen serialized_code) 4 false in
  Ok (ocb_version ++ code_len ++ serialized_code).

Definition _serialize_ocb (t : vertex) (skip_signature : bool) : result bytes :=
  let? code := serialize_code t in
  let? pubkey_len := int_to_bytes (blen (v_nc_pubkey t)) 1 false in
  let signature := if skip_signature then [] else v_nc_signature t in
  let? signature_len := int_to_bytes (blen signature) 1 false in
  Ok (code ++ pubkey_len ++ v_nc_pubkey t ++ signature_len ++ signature).

(** ** Blocks *)

Definition block_funds_struct (t : vertex) : result bytes :=
  let? head := pack_B [v_signal_bits t; tx_version_value (v_version t); Z.of_nat (length (v_outputs t))] in
  let? outputs := rjoin TxOutput_bytes (v_outputs t) in
  Ok (head ++ outputs).

Definition get_funds_struct (t : vertex) : result bytes :=
  match v_version t with
  | REGULAR_BLOCK | MERGE_MINED_BLOCK | POA_BLOCK => block_funds_struct t
  | ON_CHAIN_BLUEPRINT =>
      let? funds := funds_with TxInput_bytes t in
      let? ocb := _serialize_ocb t false in
      Ok (funds ++ ocb)
  | _ => funds_with TxInput_bytes t
  end.

(** of a transaction *)
Definition get_sighash_all (t : vertex) : result bytes :=
  let? funds := funds_with TxInput_sighash_bytes t in
  let? headers := rjoin header_sighash_bytes (v_headers t) in
  match v_version t with
  | ON_CHAIN_BLUEPRINT => let? ocb := _serialize_ocb t true in Ok (funds ++ headers ++ ocb)
  | _ => Ok (funds ++ headers)
  end.

Definition get_sighash_all_data {CR : Crypto} (t : vertex) : result bytes :=
  let? data := get_sighash_all t in Ok (sha256 data).

(** the fields [get_funds_fields_from_struct] sets *)
Record funds_fields : Type := mkFunds {
  ff_signal_bits : Z;
  ff_version : Z;
  ff_tokens : list bytes;
  ff_inputs : list TxInput;
  ff_outputs : list TxOutput;
  ff_token_info : option (pystr * pystr * TokenVersion)
}.

(** [Transaction.get_funds_fields_from_struct] *)
Definition get_funds_fields_from_struct : M bytes funds_fields :=
  let! signal_bits := unpack_uint 1 in
  let! version := unpack_uint 1 in
  let! tokens_len := unpack_uint 1 in
  let! inputs_len := unpack_uint 1 in
  let! outputs_len := unpack_uint 1 in
  let! tokens := repeat_m (Z.to_nat tokens_len) (unpack_len TX_HASH_SIZE) in
  let! inputs := repeat_m (Z.to_nat inputs_len) TxInput_create_from_bytes in
  let! outputs := repeat_m (Z.to_nat outputs_len) TxOutput_create_from_bytes in
  ret (mkFunds signal_bits version tokens inputs outputs None).

(** [TokenCreationTransaction.get_funds_fields_from_struct] *)
Definition token_creation_funds_fields_from_struct : M bytes funds_fields :=
  let! signal_bits := unpack_uint 1 in
  let! version := unpack_uint 1 in
  let! inputs_len := unpack_uint 1 in
  let! outputs_len := unpack_uint 1 in
  let! inputs := repeat_m (Z.to_nat inputs_len) TxInput_create_from_bytes in
  let! outputs := repeat_m (Z.to_nat outputs_len) TxOutput_create_from_bytes in
  let! info := deserialize_token_info in
  ret (mkFunds signal_bits version [] inputs outputs (Some info)).
