(* ===== verification/TxStructTheory.v ===== *)
(** Round trips of the bytes of transactions, and what a signature covers. *)

From stdpp Require Import base list.
From Stdlib Require Import ZArith Lia Floats.SpecFloat.
From S2P Require Import Prelude PyInt Serializer Deserializer Leb128 Encoding PyValue Compound NCTypes.
From S2P Require Import BlockStorage ScriptCode ScriptVM TxStruct.

Local Open Scope Z_scope.
Local Open Scope py_scope.

(** * Parsers of buffers *)

(** [m] takes exactly [bs] from the front of the buffer and returns [a] *)
Definition takes {A} (m : M bytes A) (bs : bytes) (a : A) : Prop := forall rest, m (bs ++ rest) = (Ok a, rest).

Lemma takes_bind {A B} (m : M bytes A) (f : A -> M bytes B) bs1 bs2 a b :
  takes m bs1 a -> takes (f a) bs2 b -> takes (bind m f) (bs1 ++ bs2) b.
Proof. intros Hm Hf rest. rewrite <- app_assoc. by rewrite (bind_ok _ _ _ _ _ (Hm _)). Qed.

Lemma takes_ret {A} (a : A) : takes (ret a) [] a.
Proof. done. Qed.

Lemma takes_then {A B} (m : M bytes A) (f : A -> M bytes B) bs a b :
  takes m bs a -> takes (f a) [] b -> takes (bind m f) bs b.
Proof. intros Hm Hf. rewrite <- (app_nil_r bs). by eapply takes_bind. Qed.

(** a step that looks at no byte *)
Lemma takes_lift {A B} (r : result A) (f : A -> M bytes B) a bs b :
  r = Ok a -> takes (f a) bs b -> takes (bind (lift r) f) bs b.
Proof. intros -> Hf rest. apply Hf. Qed.

Lemma takes_inj {A} (m : M bytes A) bs1 bs2 a1 a2 r1 r2 :
  takes m bs1 a1 -> takes m bs2 a2 -> bs1 ++ r1 = bs2 ++ r2 -> a1 = a2 /\ r1 = r2.
Proof. intros H1 H2 E. specialize (H1 r1). specialize (H2 r2). rewrite E, H2 in H1. by simplify_eq. Qed.

Lemma takes_len bs n : blen bs = n -> takes (unpack_len n) bs bs.
Proof.
  intros <- rest. unfold unpack_len, blen. by rewrite Nat2Z.id, take_app_length, drop_app_length.
Qed.

Lemma int_to_bytes_ok n size bs : int_to_bytes n size false = Ok bs ->
  bs = be_bytes size n /\ 0 <= n < 2 ^ (8 * Z.of_nat size).
Proof. destruct (int_to_bytes_spec n size false) as [[H ->]|[_ ->]]; [|done]. by intros [= <-]. Qed.

Lemma takes_uint n size bs : (0 < size)%nat -> int_to_bytes n size false = Ok bs -> takes (unpack_uint size) bs n.
Proof.
  intros Hs H rest. apply int_to_bytes_ok in H as [-> H]. unfold unpack_uint.
  rewrite length_app, length_be_bytes, (proj2 (Nat.leb_le _ _)) by lia.
  rewrite take_app_length', drop_app_length' by (by rewrite length_be_bytes). by rewrite int_from_to_bytes.
Qed.

Lemma takes_pack n bs : pack_uint 1 n = Ok bs -> takes (unpack_uint 1) bs n.
Proof.
  unfold pack_uint. case_match eqn:E; [|done]. intros [= <-]. apply takes_uint; [lia|].
  unfold int_to_bytes. change (2 ^ (8 * Z.of_nat 1)) with (256 ^ Z.of_nat 1). by rewrite E.
Qed.

Lemma output_value_to_bytes_ok n bs : output_value_to_bytes n = Ok bs ->
  valid_output_value true n /\ bs = output_bytes n.
Proof.
  unfold output_value_to_bytes, try_raise. intros H.
  destruct (decide (valid_output_value true n)) as [Hv|Hv].
  - split; [done|]. destruct (writes_run _ _ (encode_output_value_writes true n Hv)) as (s' & E & Hf).
    rewrite E in H. simpl in *. rewrite Hf in H. by injection H.
  - by rewrite encode_output_value_err in H.
Qed.

Lemma takes_output_value n bs : output_value_to_bytes n = Ok bs -> takes bytes_to_output_value bs n.
Proof.
  intros [Hv ->]%output_value_to_bytes_ok rest. unfold bytes_to_output_value.
  rewrite (reads_run _ _ rest _ (try_raise_reads _ BadDataError InvalidOutputValue _ _ (decode_output_bytes true n Hv))).
  done.
Qed.

Lemma takes_leb128 n k bs : 0 < k -> Leb128Utils.encode_unsigned n (Some k) = Ok bs ->
  takes (decode_unsigned_from k) bs n.
Proof.
  intros Hk H rest. unfold decode_unsigned_from, Leb128Utils.decode_unsigned.
  rewrite (leb128_utils_back false n (Some k) bs rest); [done|simpl; lia|done].
Qed.

(** serializing a list item by item, and reading as many items back *)
Lemma takes_repeat {A} (f : A -> result bytes) (m : M bytes A) l : forall bs,
  (forall x b, x ∈ l -> f x = Ok b -> takes m b x) -> rjoin f l = Ok bs ->
  takes (repeat_m (length l) m) bs l.
Proof.
  induction l as [|x l IH]; intros bs Hx H; simpl in *; [by injection H as <-|].
  inv_rok H. inv_rok H. injection H as <-.
  eapply takes_bind; [apply Hx; [by left|done]|]. cbn beta.
  eapply takes_then; [apply IH; [|done]; intros; eapply Hx; [by right|done]|]. apply takes_ret.
Qed.

Lemma takes_repeat_len {A} (f : A -> result bytes) (m : M bytes A) l bs n :
  n = Z.of_nat (length l) -> (forall x b, x ∈ l -> f x = Ok b -> takes m b x) -> rjoin f l = Ok bs ->
  takes (repeat_m (Z.to_nat n) m) bs l.
Proof. intros -> H. rewrite Nat2Z.id. by apply takes_repeat. Qed.

Lemma takes_ascii s b : Forall (fun c => 0 <= c) s -> ascii_encode s = Ok b -> ascii_decode b = Ok s.
Proof.
  unfold ascii_encode, ascii_decode. intros Hs. case_match eqn:E; [|done]. intros [= <-].
  assert (H : Forall (fun c => 0 <= c < 128) s).
  { rewrite Forall_forall in *. intros c Hc. split; [by apply Hs|].
    apply list_elem_of_In in Hc. rewrite forallb_forall in E. specialize (E c Hc). lia. }
  clear Hs E. rewrite map_map. replace (map (fun x => b2z (z2b x)) s) with s.
  - replace (forallb _ _) with true; [done|]. symmetry. induction H as [|c s Hc _ IH]; [done|]. simpl.
    rewrite IH, b2z_z2b_small by lia. rewrite andb_true_r. apply Z.ltb_lt. lia.
  - symmetry. induction H as [|c s Hc _ IH]; simpl; [done|]. by rewrite IH, b2z_z2b_small by lia.
Qed.

Create HintDb takes.
#[export] Hint Resolve takes_ret takes_pack takes_output_value : takes.
#[export] Hint Extern 1 (takes (unpack_len _) _ _) => apply takes_len : takes.
#[export] Hint Extern 1 (takes (unpack_uint _) _ _) => apply takes_uint; [lia|eassumption] : takes.
#[export] Hint Extern 1 (takes (decode_unsigned_from _) _ _) => apply takes_leb128; [by vm_compute|eassumption] : takes.

(** one step of a parser: the next field of the concatenation *)
Ltac takes_step := eapply takes_bind; [solve [eauto with takes]|cbn beta].

(** * Inputs and outputs *)

(** ids of vertices have 32 bytes *)
Definition wf_input (i : TxInput) : Prop := blen (in_tx_id i) = TX_HASH_SIZE.

Lemma input_takes i b : wf_input i -> TxInput_bytes i = Ok b -> takes TxInput_create_from_bytes b i.
Proof.
  intros Hw H. unfold TxInput_bytes in H. do 2 inv_rok H. injection H as <-.
  unfold TxInput_create_from_bytes. do 3 takes_step.
  eapply takes_then; [by apply takes_len|]. by destruct i.
Qed.

Lemma output_takes o b : TxOutput_bytes o = Ok b -> takes TxOutput_create_from_bytes b o.
Proof.
  intros H. unfold TxOutput_bytes in H. do 3 inv_rok H. injection H as <-.
  unfold TxOutput_create_from_bytes. do 3 takes_step. eapply takes_then; [by apply takes_len|].
  apply output_value_to_bytes_ok in Hm as [Hv _]. intros rest. unfold TxOutput_init, lift.
  destruct o as [v s t]. simpl in *. unfold valid_output_value in Hv.
  destruct (Z.leb_spec v 0); [lia|]. destruct (Z.ltb_spec MAX_OUTPUT_VALUE_64 v); [lia|done].
Qed.

(** * Headers *)

Definition wf_nano (h : NanoHeader) : Prop :=
  blen (nc_id h) = 32 /\ blen (nc_address h) = ADDRESS_LEN_BYTES /\ Forall (fun c => 0 <= c) (nc_method h).

Definition wf_header (h : VertexHeader) : Prop :=
  match h with NanoHeader_ h => wf_nano h | FeeHeader_ _ => True end.

(** the header as its signature sees it: the signature itself cleared *)
Definition unsigned_nano (h : NanoHeader) : NanoHeader :=
  mkNano (nc_seqnum h) (nc_id h) (nc_method h) (nc_args_bytes h) (nc_actions h) (nc_address h) [].

Definition unsigned_header (h : VertexHeader) : VertexHeader :=
  match h with NanoHeader_ h => NanoHeader_ (unsigned_nano h) | FeeHeader_ f => FeeHeader_ f end.

Lemma action_type_back t : action_type_of (action_type_value t) = Ok t.
Proof. by destruct t. Qed.

Lemma action_takes a b : action_bytes a = Ok b -> takes action_from_bytes b a.
Proof.
  intros H. unfold action_bytes in H. do 3 inv_rok H. injection H as <-.
  unfold action_from_bytes. apply int_to_bytes_ok in Hm as [-> Hr].
  eapply takes_bind; [by apply takes_len|]. cbn beta.
  eapply takes_lift; [rewrite int_from_to_bytes by (done || lia); apply action_type_back|].
  takes_step. eapply takes_then; [by apply takes_output_value|]. by destruct a.
Qed.

Definition with_script (h : NanoHeader) (script : bytes) : NanoHeader :=
  mkNano (nc_seqnum h) (nc_id h) (nc_method h) (nc_args_bytes h) (nc_actions h) (nc_address h) script.

Lemma takes_run {A B} (m : M bytes A) (f : A -> M bytes B) bs a rest :
  takes m bs a -> bind m f (bs ++ rest) = f a rest.
Proof. intros H. by rewrite (bind_ok _ _ _ _ _ (H rest)). Qed.

Ltac run_step := erewrite takes_run; [|solve [eauto with takes]]; cbn beta.

(** the script is what is left of the buffer, up to the length the header declares *)
Lemma nano_run tx h b : is_transaction_class tx = true -> wf_nano h -> nano_serialize h false = Ok b ->
  exists pre, b = pre ++ nc_script h /\ forall s, nano_deserialize tx (pre ++ s) =
    (Ok (with_script h (take (length (nc_script h)) s)), drop (length (nc_script h)) s).
Proof.
  intros Htx (Hid & Had & Hme) H. unfold nano_serialize in H. do 7 inv_rok H. injection H as <-.
  exists (NANO_HEADER ++ nc_id h ++ a0 ++ a1 ++ a ++ a2 ++ nc_args_bytes h ++ a3 ++ a4 ++ nc_address h ++ a5).
  split; [by rewrite <- !app_assoc|]. intros s. rewrite <- !app_assoc. unfold nano_deserialize.
  rewrite Htx. change (bind (py_assert true) ?f ?s) with (f tt s). cbn beta.
  rewrite (takes_run _ _ NANO_HEADER NANO_HEADER) by by apply takes_len.
  rewrite bool_decide_eq_true_2 by done. change (bind (py_assert true) ?f ?s) with (f tt s). cbn beta.
  do 7 run_step.
  rewrite (takes_run _ _ a4 (nc_actions h)) by (eapply takes_repeat_len; [done| |done]; intros; by apply action_takes).
  do 2 run_step. unfold bind at 1. unfold unpack_len at 1. unfold blen. rewrite Nat2Z.id.
  unfold bind, lift. by rewrite (takes_ascii _ _ Hme Hm).
Qed.

Lemma nano_takes tx h b : is_transaction_class tx = true -> wf_nano h -> nano_serialize h false = Ok b ->
  takes (nano_deserialize tx) b h.
Proof.
  intros Htx Hw H rest. destruct (nano_run tx h b Htx Hw H) as (pre & -> & E). rewrite <- app_assoc, E.
  rewrite take_app_length, drop_app_length. by destruct h.
Qed.

Lemma reads_repeat {A} (f : A -> result bytes) (m : DM A) l : forall bs,
  (forall x b, x ∈ l -> f x = Ok b -> reads m b x) -> rjoin f l = Ok bs -> reads (repeat_m (length l) m) bs l.
Proof.
  induction l as [|x l IH]; intros bs Hx H; simpl in *; [injection H as <-; apply reads_ret|].
  inv_rok H. inv_rok H. injection H as <-.
  eapply reads_bind; [apply Hx; [by left|done]|]. cbn beta.
  eapply reads_bind_ret; [apply IH; [|done]; intros; eapply Hx; [by right|done]|done].
Qed.

Lemma reads_next {A} (m : DM A) bs rest a :
  reads m bs a -> m (DesBytes (Some (bs ++ rest))) = (Ok a, DesBytes (Some rest)).
Proof. apply reads_run. Qed.

Lemma int_byte n b : int_to_bytes n 1 false = Ok b -> exists c, b = [c] /\ b2z c = n.
Proof.
  intros [-> H]%int_to_bytes_ok. exists (z2b n). split; [done|]. apply b2z_z2b_small. simpl in H. lia.
Qed.

Lemma fee_reads x b : fee_bytes x = Ok b -> reads fee_from b x.
Proof.
  intros H. unfold fee_bytes in H. do 2 inv_rok H. injection H as <-.
  apply int_byte in Hm as (c & -> & Hc). apply output_value_to_bytes_ok in Hm0 as [Hv ->].
  unfold fee_from. eapply reads_bind; [apply read_byte_reads|].
  eapply reads_bind_ret; [by apply decode_output_bytes|]. rewrite Hc. by destruct x.
Qed.

Lemma fee_takes tx fees b : is_transaction_class tx = true -> fee_serialize fees = Ok b -> takes (fee_deserialize tx) b fees.
Proof.
  intros Htx H rest. unfold fee_serialize in H. do 2 inv_rok H. injection H as <-.
  apply int_byte in Hm as (c & -> & Hc). unfold fee_deserialize.
  set (m := bind (read_bytes 1 true) _).
  assert (R : m (build_bytes_deserializer ((FEE_HEADER ++ [c] ++ a0) ++ rest)) = (Ok (fees, rest), DesBytes (Some []))).
  { unfold m, build_bytes_deserializer. rewrite <- !app_assoc.
    rewrite (bind_ok _ _ _ _ _ (reads_next _ FEE_HEADER _ _ (read_bytes_reads FEE_HEADER true))).
    rewrite bool_decide_eq_true_2 by done. change (bind (py_assert true) ?f ?s) with (f tt s). cbn beta.
    rewrite (bind_ok _ _ _ _ _ (reads_next _ [c] _ _ (read_byte_reads c))).
    rewrite Hc, Nat2Z.id.
    rewrite (bind_ok _ _ _ _ _ (reads_next _ a0 rest _ (reads_repeat fee_bytes fee_from fees a0
      (fun x b _ H => fee_reads x b H) Hm0))). by rewrite Htx. }
  change (z2b 17 :: [c] ++ a0) with (FEE_HEADER ++ [c] ++ a0). by rewrite R.
Qed.

(** the two headers, each with the parser [VertexParser] picks by the first byte *)
Lemma unsigned_serialize h : nano_serialize h true = nano_serialize (unsigned_nano h) false.
Proof. done. Qed.

Lemma header_first h b : header_sighash_bytes h = Ok b ->
  exists r, b = (match h with NanoHeader_ _ => z2b 16 | FeeHeader_ _ => z2b 17 end) :: r.
Proof.
  destruct h as [h|fees]; simpl; unfold nano_serialize, fee_serialize; intros H.
  - do 7 inv_rok H. injection H as <-. by eexists.
  - do 2 inv_rok H. injection H as <-. by eexists.
Qed.

(** headers with the same bytes to sign are the same up to their signatures *)
Lemma headers_inj hs : forall hs' b, Forall wf_header hs -> Forall wf_header hs' ->
  rjoin header_sighash_bytes hs = Ok b -> rjoin header_sighash_bytes hs' = Ok b ->
  map unsigned_header hs = map unsigned_header hs'.
Proof.
  induction hs as [|h hs IH]; intros [|h' hs'] b Hw Hw' H H'; simpl in *; [done| | |].
  - injection H as <-. do 2 inv_rok H'. apply header_first in Hm as [r ->]. done.
  - injection H' as <-. do 2 inv_rok H. apply header_first in Hm as [r ->]. done.
  - do 2 inv_rok H. do 2 inv_rok H'. injection H as <-. injection H' as E.
    apply Forall_cons in Hw as [Hh Hw]. apply Forall_cons in Hw' as [Hh' Hw'].
    assert (unsigned_header h = unsigned_header h' /\ a0 = a2) as [-> ->]; [|f_equal; by eapply IH].
    destruct (header_first _ _ Hm) as [r Er]. destruct (header_first _ _ Hm1) as [r' Er'].
    destruct h as [h|f], h' as [h'|f']; simpl in *; rewrite ?unsigned_serialize in *; try (by rewrite Er, Er' in E).
    + destruct (takes_inj (nano_deserialize REGULAR_TRANSACTION) a1 a (unsigned_nano h') (unsigned_nano h) a2 a0) as [-> ->];
        [by apply nano_takes|by apply nano_takes|done|done].
    + destruct (takes_inj (fee_deserialize REGULAR_TRANSACTION) a1 a f' f a2 a0) as [-> ->];
        [by apply fee_takes|by apply fee_takes|done|done].
Qed.

(** * The funds of a transaction *)

(** the two classes whose serialization is modelled *)
Definition plain_tx (t : vertex) : Prop :=
  v_version t = REGULAR_TRANSACTION \/ v_version t = TOKEN_CREATION_TRANSACTION.

Definition wf_tx (t : vertex) : Prop :=
  plain_tx t /\ Forall (fun u => blen u = TX_HASH_SIZE) (v_tokens t) /\ Forall wf_input (v_inputs t) /\
  Forall wf_header (v_headers t).

Definition is_token_creation (t : vertex) : bool := bool_decide (v_version t = TOKEN_CREATION_TRANSACTION).

Definition funds_parser (t : vertex) : M bytes funds_fields :=
  if is_token_creation t then token_creation_funds_fields_from_struct else get_funds_fields_from_struct.

Definition funds_of (t : vertex) : funds_fields :=
  mkFunds (v_signal_bits t) (tx_version_value (v_version t)) (if is_token_creation t then [] else v_tokens t)
    (v_inputs t) (v_outputs t)
    (if is_token_creation t then Some (v_token_name t, v_token_symbol t, v_token_version t) else None).

Lemma decode_string_back s b : utf8_encode s = Ok b -> decode_string_utf8 b = Ok s.
Proof. intros H. unfold decode_string_utf8. by rewrite (utf8_decode_encode _ _ H). Qed.

Lemma token_info_takes t b : serialize_token_info t = Ok b ->
  takes deserialize_token_info b (v_token_name t, v_token_symbol t, v_token_version t).
Proof.
  intros H. unfold serialize_token_info in H. do 5 inv_rok H. injection H as <-.
  unfold deserialize_token_info. takes_step. eapply takes_lift; [apply token_version_of_value|].
  do 3 takes_step. eapply takes_then; [by apply takes_len|].
  eapply takes_lift; [by apply decode_string_back|]. eapply takes_lift; [by apply decode_string_back|]. done.
Qed.

Lemma tokens_take l : Forall (fun u => blen u = TX_HASH_SIZE) l ->
  takes (repeat_m (length l) (unpack_len TX_HASH_SIZE)) (concat l) l.
Proof.
  induction 1 as [|u l Hu _ IH]; simpl; [done|]. eapply takes_bind; [by apply takes_len|].
  eapply takes_then; [done|]. done.
Qed.

Lemma pack_B_cons n l b : pack_B (n :: l) = Ok b ->
  exists b1 b2, pack_uint 1 n = Ok b1 /\ pack_B l = Ok b2 /\ b = b1 ++ b2.
Proof. unfold pack_B. simpl. intros H. do 2 inv_rok H. injection H as <-. eauto. Qed.

Ltac unpack_head H := repeat (apply pack_B_cons in H as (? & ? & ? & H & ->)); injection H as <-.

Lemma funds_takes t b : Forall (fun u => blen u = TX_HASH_SIZE) (v_tokens t) ->
  Forall wf_input (v_inputs t) -> funds_with TxInput_bytes t = Ok b -> takes (funds_parser t) b (funds_of t).
Proof.
  intros Htok Hin H.
  assert (Hi : forall x b, x ∈ v_inputs t -> TxInput_bytes x = Ok b -> takes TxInput_create_from_bytes b x).
  { intros x b' Hx. rewrite Forall_forall in Hin. apply input_takes. by apply Hin. }
  assert (Ho : forall x b, x ∈ v_outputs t -> TxOutput_bytes x = Ok b -> takes TxOutput_create_from_bytes b x).
  { intros x b' _. apply output_takes. }
  unfold funds_with in H. unfold funds_parser, funds_of, is_token_creation. case_bool_decide as E.
  - rewrite E in *. do 4 inv_rok H. injection H as <-. unpack_head Hm.
    rewrite app_nil_r, <- !app_assoc. unfold token_creation_funds_fields_from_struct.
    do 4 (eapply takes_bind; [by apply takes_pack|]; cbn beta).
    rewrite !Nat2Z.id. eapply takes_bind; [by eapply takes_repeat|]. eapply takes_bind; [by eapply takes_repeat|].
    eapply takes_then; [by apply token_info_takes|]. done.
  - destruct (v_version t); try done; do 3 inv_rok H; injection H as <-; unpack_head Hm;
      rewrite app_nil_r, <- !app_assoc; unfold get_funds_fields_from_struct;
      do 5 (eapply takes_bind; [by apply takes_pack|]; cbn beta);
      rewrite !Nat2Z.id; (eapply takes_bind; [by apply tokens_take|]);
      (eapply takes_bind; [by eapply takes_repeat|]); by eapply takes_then; [eapply takes_repeat|].
Qed.

Lemma plain_funds t : plain_tx t -> get_funds_struct t = funds_with TxInput_bytes t.
Proof. intros Hp. unfold get_funds_struct. by destruct Hp as [-> | ->]. Qed.

(** The funds of a transaction (regular or creating a token) survive the round trip:
    parsing what [get_funds_struct] wrote, whatever follows it, gives back the signal bits,
    version, tokens, inputs, outputs and token information, and leaves the rest. *)
Theorem tx_funds_roundtrip t b rest : wf_tx t -> get_funds_struct t = Ok b ->
  funds_parser t (b ++ rest) = (Ok (funds_of t), rest).
Proof. intros (Hp & Ht & Hi & _) H. rewrite plain_funds in H by done. by apply funds_takes. Qed.

(** Nano-contract and fee headers of a transaction survive the round trip, whatever follows them. *)
Theorem header_roundtrip tx h fees b rest : is_transaction_class tx = true ->
  (wf_nano h -> nano_serialize h false = Ok b -> nano_deserialize tx (b ++ rest) = (Ok h, rest)) /\
  (fee_serialize fees = Ok b -> fee_deserialize tx (b ++ rest) = (Ok fees, rest)).
Proof. intros Htx. split; [intros Hw H; by apply nano_takes|intros H; by apply fee_takes]. Qed.

(** ** What a signature covers *)

Definition clear_input (i : TxInput) : TxInput := mkTxInput (in_tx_id i) (in_index i) [].

Definition clear_inputs (t : vertex) : vertex :=
  MkVertex (v_hash t) (v_signal_bits t) (v_version t) (v_timestamp t) (v_weight t) (v_parents t)
    (map clear_input (v_inputs t)) (v_outputs t) (v_tokens t) (v_headers t) (v_token_name t) (v_token_symbol t)
    (v_token_version t) (v_nonce t) (v_data t) (v_signer_id t) (v_signature t) (v_aux_pow t) (v_code t) (v_nc_pubkey t) (v_nc_signature t).

Lemma rjoin_map {A B} (f : B -> result bytes) (g : A -> B) l : rjoin f (map g l) = rjoin (fun x => f (g x)) l.
Proof. induction l as [|x l IH]; simpl; [done|]. by rewrite IH. Qed.

Lemma rjoin_ext {A} (f g : A -> result bytes) l : (forall x, f x = g x) -> rjoin f l = rjoin g l.
Proof. intros H. induction l as [|x l IH]; simpl; [done|]. by rewrite IH, H. Qed.

(** the data to sign is the funds with the input data cleared, then the headers *)
Lemma sighash_funds t : funds_with TxInput_sighash_bytes t = funds_with TxInput_bytes (clear_inputs t).
Proof.
  unfold funds_with, clear_inputs; simpl. rewrite length_map, rjoin_map.
  rewrite (rjoin_ext TxInput_sighash_bytes (fun x => TxInput_bytes (clear_input x))).
  - by destruct (v_version t).
  - intros i. unfold TxInput_sighash_bytes, TxInput_bytes. cbn [clear_input in_index in_tx_id in_data]. by destruct (int_to_bytes (in_index i) 1 false).
Qed.

Lemma plain_sighash t : plain_tx t -> get_sighash_all t =
  let? funds := funds_with TxInput_bytes (clear_inputs t) in
  let? headers := rjoin header_sighash_bytes (v_headers t) in Ok (funds ++ headers).
Proof. intros Hp. unfold get_sighash_all. rewrite sighash_funds. by destruct Hp as [-> | ->]. Qed.


(** The length of the signature script of a nano-contract header is not enforced: when
    the header's bytes are cut anywhere inside the script, [deserialize] still accepts
    them, with the script cut short, and the bytes it read are not those the result
    serializes to. *)
Theorem nano_script_truncated tx h b n : is_transaction_class tx = true -> wf_nano h -> nano_serialize h false = Ok b ->
  (0 < n <= length (nc_script h))%nat ->
  let h' := with_script h (take (length (nc_script h) - n) (nc_script h)) in
  nano_deserialize tx (take (length b - n) b) = (Ok h', []) /\ nano_serialize h' false <> Ok (take (length b - n) b).
Proof.
  intros Htx Hw H Hn h'. destruct (nano_run tx h b Htx Hw H) as (pre & -> & E).
  rewrite length_app, take_app_ge, <- Nat.add_sub_assoc, Nat.add_sub_swap, Nat.sub_diag by lia.
  replace (length pre + (length (nc_script h) - n) - length pre)%nat with (length (nc_script h) - n)%nat by lia.
  split.
  - rewrite E, take_ge, drop_ge by (rewrite length_take; lia). done.
  - intros H'. destruct (nano_run tx h' _ Htx Hw H') as (pre' & Ep & E').
    assert (Hs : nc_script h' = take (length (nc_script h) - n) (nc_script h)) by done.
    rewrite Hs in Ep, E'. apply app_inj_2 in Ep as [<- _]; [|done].
    specialize (E (nc_script h)). specialize (E' (nc_script h)). rewrite E in E'.
    rewrite firstn_all, skipn_all in E'. injection E' as _ E'.
    symmetry in E'. apply (f_equal length) in E'. rewrite length_drop, length_take in E'. simpl in E'. lia.
Qed.

(** * Examples *)

Definition demo_nano : NanoHeader :=
  mkNano 300 (repeat (z2b 5) 32) [105; 110; 99] [z2b 1] [mkAction ACT_WITHDRAWAL 1 5000000000]
    (repeat (z2b 40) 25) [z2b 1; z2b 2; z2b 3].

Definition demo_funds_tx (token_creation : bool) (data : bytes) : vertex :=
  mkVertex [] 0 (if token_creation then TOKEN_CREATION_TRANSACTION else REGULAR_TRANSACTION) 0 (S754_zero false) []
    [mkTxInput (repeat (z2b 7) 32) 3 data] [mkTxOutput 100 [z2b 118] 0; mkTxOutput 1 [] 129]
    [repeat (z2b 9) 32] [NanoHeader_ demo_nano; FeeHeader_ [mkFee 0 3]] [84; 233] [84] DEPOSIT.

Lemma demo_nano_wf : wf_nano demo_nano.
Proof. split; [done|]. split; [done|]. repeat constructor; discriminate. Qed.

Lemma demo_funds_wf c data : wf_tx (demo_funds_tx c data).
Proof.
  split; [destruct c; [by right|by left]|]. split; [by repeat constructor|]. split; [by repeat constructor|].
  constructor; [apply demo_nano_wf|by repeat constructor].
Qed.

Definition demo_ok {A} (d : A) (r : result A) : A := match r with Ok a => a | Err _ => d end.

Lemma tx_funds_roundtrip_witness :
  get_funds_fields_from_struct (demo_ok [] (get_funds_struct (demo_funds_tx false [z2b 1])) ++ [z2b 0]) =
    (Ok (funds_of (demo_funds_tx false [z2b 1])), [z2b 0]) /\
  token_creation_funds_fields_from_struct (demo_ok [] (get_funds_struct (demo_funds_tx true [])) ++ [z2b 0]) =
    (Ok (funds_of (demo_funds_tx true [])), [z2b 0]).
Proof.
  split.
  - apply (tx_funds_roundtrip (demo_funds_tx false [z2b 1])); [apply demo_funds_wf|vm_compute; reflexivity].
  - apply (tx_funds_roundtrip (demo_funds_tx true [])); [apply demo_funds_wf|vm_compute; reflexivity].
Defined.

Lemma header_roundtrip_witness :
  nano_deserialize REGULAR_TRANSACTION (demo_ok [] (nano_serialize demo_nano false) ++ [z2b 0]) = (Ok demo_nano, [z2b 0]) /\
  fee_deserialize REGULAR_TRANSACTION (demo_ok [] (fee_serialize [mkFee 1 700]) ++ [z2b 0]) = (Ok [mkFee 1 700], [z2b 0]).
Proof.
  split.
  - apply (header_roundtrip REGULAR_TRANSACTION demo_nano []); [reflexivity|apply demo_nano_wf|vm_compute; reflexivity].
  - apply (header_roundtrip REGULAR_TRANSACTION demo_nano [mkFee 1 700]); vm_compute; reflexivity.
Defined.


Lemma nano_script_truncated_witness :
  let b := demo_ok [] (nano_serialize demo_nano false) in
  fst (nano_deserialize REGULAR_TRANSACTION (take (length b - 2) b)) = Ok (with_script demo_nano [z2b 1]).
Proof.
  intros b. destruct (nano_script_truncated REGULAR_TRANSACTION demo_nano b 2) as [E _];
    [reflexivity|apply demo_nano_wf|vm_compute; reflexivity|simpl; lia|]. rewrite E. reflexivity.
Defined.
