(* ===== verification/VertexStruct.v ===== *)
(** The bytes and the hash of a whole vertex: [get_struct], [create_from_struct] and
    [calculate_hash] of [hathor/transaction/base_transaction.py], [block.py],
    [transaction.py], [merge_mined_block.py], [aux_pow.py], [poa/poa_block.py] and
    [hathor/nanocontracts/on_chain_blueprint.py], the varints of
    [hathor/merged_mining/bitcoin.py], and [vertex_parser.py]. *)

From stdpp Require Import base list.
From Stdlib Require Import ZArith Lia Floats.SpecFloat.
From S2P Require Import Prelude PyInt PyValue PyFloat NCTypes ScriptCode ScriptVM TxStruct.

Local Open Scope Z_scope.
Local Open Scope py_scope.

(** * Doubles *)

(** the 64 bits of [pack('!d', f)]: sign, biased exponent, mantissa *)
Definition double_bits (f : spec_float) : Z :=
  let sign (s : bool) := if s then 2 ^ 63 else 0 in
  match f with
  | S754_zero s => sign s
  | S754_infinity s => sign s + 2047 * 2 ^ 52
  | S754_nan => 2047 * 2 ^ 52 + 2 ^ 51
  | S754_finite s m e =>
      if Z.pos m <? 2 ^ 52 then sign s + Z.pos m
      else sign s + (e + 1075) * 2 ^ 52 + (Z.pos m - 2 ^ 52)
  end.

Definition double_of_bits (n : Z) : spec_float :=
  let s := 2 ^ 63 <=? n in
  let r := n mod 2 ^ 63 in
  let ex := r / 2 ^ 52 in
  let m := r mod 2 ^ 52 in
  if ex =? 2047 then (if m =? 0 then S754_infinity s else S754_nan)
  else if ex =? 0 then match m with Z.pos p => S754_finite s p (-1074) | _ => S754_zero s end
  else match m + 2 ^ 52 with Z.pos p => S754_finite s p (ex - 1075) | _ => S754_nan end.

Definition pack_double (f : spec_float) : bytes := be_bytes 8 (double_bits f).

Arguments pack_double : simpl never.

Definition unpack_double : M bytes spec_float :=
  let! n := unpack_uint 8 in ret (double_of_bits n).

(** * Bitcoin's variable-length encodings *)

Definition le_bytes (size : nat) (n : Z) : bytes := rev (be_bytes size n).

(** [struct.pack] with a little-endian format *)
Definition pack_le (size : nat) (n : Z) : result bytes :=
  let? b := pack_uint size n in Ok (rev b).

Definition encode_varint (number : Z) : result bytes :=
  if number <? 0xfd then pack_le 1 number
  else if number <=? 0xffff then let? b := pack_le 2 number in Ok (z2b 0xfd :: b)
  else if number <=? 0xffffffff then let? b := pack_le 4 number in Ok (z2b 0xfe :: b)
  else let? b := pack_le 8 number in Ok (z2b 0xff :: b).

Definition encode_bytearray (array : bytes) : result bytes :=
  let? n := encode_varint (blen array) in Ok (n ++ array).

Definition encode_list (buffer : list bytes) : result bytes :=
  let? n := encode_varint (Z.of_nat (length buffer)) in Ok (n ++ concat buffer).

(** [struct.unpack('<..', buffer[start:start + size])] *)
Definition peek_le (start size : nat) (buffer : bytes) : result Z :=
  let b := take size (drop start buffer) in
  if (length b =? size)%nat then Ok (int_from_bytes (rev b) false) else Err StructError.

Definition read_varint : M bytes Z := fun buffer =>
  match peek_le 0 1 buffer with
  | Err e => (Err e, buffer)
  | Ok i =>
      if i <? 0xfd then (Ok i, drop 1 buffer)
      else
        let size := if i <? 0xfe then 2%nat else if i <? 0xff then 4%nat else 8%nat in
        match peek_le 1 size buffer with
        | Ok res => (Ok res, drop (S size) buffer)
        | Err e => (Err e, buffer)
        end
  end.

(** [buffer[:length]]; a length beyond what a list can hold takes everything *)
Definition read_nbytes (length : Z) : M bytes bytes := fun buffer =>
  let n := Z.to_nat (Z.min length (blen buffer)) in (Ok (take n buffer), drop n buffer).

Definition btc_read_bytes : M bytes bytes :=
  let! array_len := read_varint in read_nbytes array_len.

(** * [BitcoinAuxPow] *)

Definition MAX_MERKLE_PATH_COUNT : Z := 100.

Definition aux_pow_bytes (a : BitcoinAuxPow) : result bytes :=
  let? head := encode_bytearray (coinbase_head a) in
  let? tail := encode_bytearray (coinbase_tail a) in
  let? path := encode_list (merkle_path a) in
  Ok (header_head a ++ head ++ tail ++ path ++ header_tail a).

Definition read_hash : M bytes bytes := fun a =>
  if (32 <=? length a)%nat then (Ok (take 32 a), drop 32 a) else (Err AssertionError, a).

Definition aux_pow_from_bytes : M bytes BitcoinAuxPow :=
  let! header_head := read_nbytes 36 in
  let! coinbase_head := btc_read_bytes in
  let! coinbase_tail := btc_read_bytes in
  let! c := read_varint in
  if MAX_MERKLE_PATH_COUNT <? c then raise ValueError else
  let! merkle_path := repeat_m (Z.to_nat c) read_hash in
  let! header_tail := read_nbytes 12 in
  ret (mkAuxPow header_head coinbase_head coinbase_tail merkle_path header_tail).

Definition MAGIC_NUMBER : bytes := map z2b [72; 97; 116; 104].

(** [BitcoinAuxPow.dummy()] *)
Definition dummy_aux_pow : BitcoinAuxPow :=
  mkAuxPow (repeat Byte.x00 36) MAGIC_NUMBER [] [repeat Byte.x00 32] (repeat Byte.x00 12).

(** * Graph, nonce and headers *)

Definition base_graph_struct (v : vertex) : result bytes :=
  let? timestamp := pack_uint 4 (v_timestamp v) in
  let? parents_len := pack_uint 1 (Z.of_nat (length (v_parents v))) in
  Ok (pack_double (v_weight v) ++ timestamp ++ parents_len ++ concat (v_parents v)).

(** [Block.get_graph_struct] *)
Definition block_graph_struct (v : vertex) : result bytes :=
  let? graph := base_graph_struct v in
  let? data_bytes := int_to_bytes (blen (v_data v)) 1 false in
  Ok (graph ++ data_bytes ++ v_data v).

Definition SIGNER_ID_LEN : Z := 2.
Definition _MAX_POA_SIGNATURE_LEN : Z := 100.

Definition get_graph_struct (v : vertex) : result bytes :=
  match v_version v with
  | REGULAR_BLOCK | MERGE_MINED_BLOCK => block_graph_struct v
  | POA_BLOCK =>
      if negb (blen (v_signer_id v) =? SIGNER_ID_LEN) then Err AssertionError else
      let? graph := block_graph_struct v in
      let? signature_len := int_to_bytes (blen (v_signature v)) 1 false in
      Ok (graph ++ v_signer_id v ++ signature_len ++ v_signature v)
  | _ => base_graph_struct v
  end.

Definition SERIALIZATION_NONCE_SIZE (v : TxVersion) : nat :=
  match v with REGULAR_BLOCK | MERGE_MINED_BLOCK | POA_BLOCK => 16%nat | _ => 4%nat end.

Definition get_struct_nonce (v : vertex) : result bytes :=
  match v_version v with
  | MERGE_MINED_BLOCK => aux_pow_bytes (default dummy_aux_pow (v_aux_pow v))
  | ver => int_to_bytes (v_nonce v) (SERIALIZATION_NONCE_SIZE ver) false
  end.

Definition header_serialize (h : VertexHeader) : result bytes :=
  match h with NanoHeader_ h => nano_serialize h false | FeeHeader_ fees => fee_serialize fees end.

Definition get_headers_struct (v : vertex) : result bytes := rjoin header_serialize (v_headers v).

Definition get_struct_without_nonce (v : vertex) : result bytes :=
  let? funds := get_funds_struct v in let? graph := get_graph_struct v in Ok (funds ++ graph).

Definition get_struct (v : vertex) : result bytes :=
  let? struct_bytes := get_struct_without_nonce v in
  let? nonce := get_struct_nonce v in
  let? headers := get_headers_struct v in
  Ok (struct_bytes ++ nonce ++ headers).

(** * Hashes *)

Section hash.
Context {CR : Crypto}.

Definition sha256d_hash (data : bytes) : bytes := rev (sha256 (sha256 data)).

Definition get_funds_hash (v : vertex) : result bytes :=
  let? funds := get_funds_struct v in Ok (sha256 funds).

Definition get_graph_and_headers_hash (v : vertex) : result bytes :=
  let? graph := get_graph_struct v in
  let? headers := get_headers_struct v in
  Ok (sha256 (graph ++ headers)).

Definition get_mining_header_without_nonce (v : vertex) : result bytes :=
  let? funds_hash := get_funds_hash v in
  let? graph_hash := get_graph_and_headers_hash v in
  let data := funds_hash ++ graph_hash in
  if blen data =? 64 then Ok data else Err AssertionError.

Definition get_mining_base_hash (v : vertex) : result bytes :=
  let? header := get_mining_header_without_nonce v in Ok (sha256d_hash header).

(** [_merkle_concat] *)
Definition _merkle_concat (left right : bytes) : bytes := rev left ++ rev right.

Fixpoint build_merkle_root (root : bytes) (path : list bytes) : bytes :=
  match path with [] => root | b :: path => build_merkle_root (sha256d_hash (_merkle_concat root b)) path end.

Definition aux_pow_calculate_hash (a : BitcoinAuxPow) (base_block_hash : bytes) : bytes :=
  let coinbase_tx_hash := sha256d_hash (coinbase_head a ++ base_block_hash ++ coinbase_tail a) in
  let merkle_root := rev (build_merkle_root coinbase_tx_hash (merkle_path a)) in
  sha256d_hash (header_head a ++ merkle_root ++ header_tail a).

Definition HASH_NONCE_SIZE : nat := 16.

Definition calculate_hash (v : vertex) : result bytes :=
  match v_version v with
  | MERGE_MINED_BLOCK =>
      match v_aux_pow v with
      | None => Err AssertionError
      | Some a => let? base := get_mining_base_hash v in Ok (aux_pow_calculate_hash a base)
      end
  | _ =>
      let? header := get_mining_header_without_nonce v in
      let? nonce := int_to_bytes (v_nonce v) HASH_NONCE_SIZE false in
      Ok (rev (sha256 (sha256 (header ++ nonce))))
  end.
End hash.
