(* ===== verification/VertexParser.v ===== *)
(** Parsing vertices: [create_from_struct] of every class of vertex and
    [VertexParser.deserialize] ([hathor/transaction/vertex_parser.py]).

    A parser is a command on the bytes left; the fields that the methods
    [get_funds_fields_from_struct] and [get_graph_fields_from_struct] set on the new
    object are returned and put together at the end. *)

From stdpp Require Import base list.
From Stdlib Require Import ZArith Lia Floats.SpecFloat.
From S2P Require Import Prelude PyInt Encoding PyValue PyFloat NCTypes BlockStorage ScriptCode ScriptVM TxStruct VertexStruct.

Local Open Scope Z_scope.
Local Open Scope py_scope.

(** * Settings and libraries *)

(** [hathor/consensus/consensus_settings.py] *)
Record PoaSignerSettings : Type := mkSigner {
  public_key : bytes;
  signer_start_height : Z;
  signer_end_height : option Z
}.

Inductive ConsensusSettings : Type :=
| PowSettings
| PoaSettings (signers : list PoaSignerSettings).

Class ParserSettings : Type := {
  (** the truth value of the setting *)
  ENABLE_NANO_CONTRACTS : bool;
  NC_ON_CHAIN_BLUEPRINT_CODE_MAX_SIZE_UNCOMPRESSED : Z;
  NC_ON_CHAIN_BLUEPRINT_CODE_MAX_SIZE_COMPRESSED : Z;
  CONSENSUS_ALGORITHM : ConsensusSettings
}.

(** [zlib.decompressobj().decompress(data, max_length)]: the content and the unconsumed tail *)
Class Zlib : Type := { zlib_decompress : bytes -> Z -> result (bytes * bytes) }.

Section parser.
Context {PS : ParserSettings} {ZL : Zlib} {CR : Crypto}.

(** [_get_valid_vertex_versions] *)
Definition _get_valid_vertex_versions (c : ConsensusSettings) (include_genesis : bool) : list TxVersion :=
  match c with
  | PowSettings =>
      [REGULAR_BLOCK; REGULAR_TRANSACTION; TOKEN_CREATION_TRANSACTION; MERGE_MINED_BLOCK] ++
      (if ENABLE_NANO_CONTRACTS then [ON_CHAIN_BLUEPRINT] else [])
  | PoaSettings _ =>
      [POA_BLOCK; REGULAR_TRANSACTION; TOKEN_CREATION_TRANSACTION] ++
      (if include_genesis then [REGULAR_BLOCK] else []) ++
      (if ENABLE_NANO_CONTRACTS then [ON_CHAIN_BLUEPRINT] else [])
  end.

Definition is_vertex_version_valid (version : TxVersion) (include_genesis : bool) : bool :=
  bool_decide (version ∈ _get_valid_vertex_versions CONSENSUS_ALGORITHM include_genesis).

(** [TxVersion(value)] *)
Definition tx_version_of (value : Z) : result TxVersion :=
  match find (fun v => tx_version_value v =? value)
    [REGULAR_BLOCK; REGULAR_TRANSACTION; TOKEN_CREATION_TRANSACTION; MERGE_MINED_BLOCK; POA_BLOCK; ON_CHAIN_BLUEPRINT] with
  | Some v => Ok v
  | None => Err ValueError
  end.

(** [tx_version.get_cls()]; a class is named by its version *)
Definition get_cls (version : TxVersion) : result TxVersion :=
  match version with
  | ON_CHAIN_BLUEPRINT => if ENABLE_NANO_CONTRACTS then Ok version else Err ValueError
  | _ => Ok version
  end.

(** * Funds *)

(** [Block.get_funds_fields_from_struct] *)
Definition block_funds_fields_from_struct : M bytes funds_fields :=
  let! signal_bits := unpack_uint 1 in
  let! version := unpack_uint 1 in
  let! outputs_len := unpack_uint 1 in
  let! outputs := repeat_m (Z.to_nat outputs_len) TxOutput_create_from_bytes in
  ret (mkFunds signal_bits version [] [] outputs None).

Definition _decompress_code (data : bytes) (max_length : Z) : result pystr :=
  let? content_tail := zlib_decompress data max_length in
  match snd content_tail with
  | [] => utf8_decode (fst content_tail)
  | _ => Err ValueError
  end.

(** [Code.from_bytes], which also decompresses the code into [code.text] *)
Definition Code_from_bytes (data : bytes) : result bytes :=
  match data with
  | [] => Err IndexError
  | kind :: compressed_code =>
      if negb (b2z kind =? PYTHON_ZLIB) then Err ValueError else
      let? text := _decompress_code compressed_code NC_ON_CHAIN_BLUEPRINT_CODE_MAX_SIZE_UNCOMPRESSED in
      Ok compressed_code
  end.

Definition deserialize_code : M bytes bytes :=
  let! ocb_version := unpack_uint 1 in
  if negb (ocb_version =? ON_CHAIN_BLUEPRINT_VERSION) then raise ValueError else
  let! serialized_code_len := unpack_uint 4 in
  if NC_ON_CHAIN_BLUEPRINT_CODE_MAX_SIZE_COMPRESSED <? serialized_code_len then raise ValueError else
  let! serialized_code := unpack_len serialized_code_len in
  lift (Code_from_bytes serialized_code).

Record ocb_fields : Type := mkOcb { of_code : bytes; of_pubkey : bytes; of_signature : bytes }.

(** [OnChainBlueprint.get_funds_fields_from_struct], after the fields of a transaction *)
Definition ocb_fields_from_struct : M bytes ocb_fields :=
  let! code := deserialize_code in
  let! nc_pubkey_len := unpack_uint 1 in
  let! nc_pubkey := unpack_len nc_pubkey_len in
  let! nc_signature_len := unpack_uint 1 in
  let! nc_signature := unpack_len nc_signature_len in
  ret (mkOcb code nc_pubkey nc_signature).

Definition no_ocb : ocb_fields := mkOcb [] [] [].

Definition funds_fields_of (cls : TxVersion) : M bytes (funds_fields * ocb_fields) :=
  match cls with
  | REGULAR_BLOCK | MERGE_MINED_BLOCK | POA_BLOCK => let! f := block_funds_fields_from_struct in ret (f, no_ocb)
  | REGULAR_TRANSACTION => let! f := get_funds_fields_from_struct in ret (f, no_ocb)
  | TOKEN_CREATION_TRANSACTION => let! f := token_creation_funds_fields_from_struct in ret (f, no_ocb)
  | ON_CHAIN_BLUEPRINT => let! f := get_funds_fields_from_struct in let! o := ocb_fields_from_struct in ret (f, o)
  end.

(** * Graph *)

Record graph_fields : Type := mkGraph {
  gf_weight : spec_float;
  gf_timestamp : Z;
  gf_parents : list bytes;
  gf_data : bytes;
  gf_signer_id : bytes;
  gf_signature : bytes
}.

(** [GenericVertex.get_graph_fields_from_struct] *)
Definition base_graph_fields_from_struct : M bytes graph_fields :=
  let! weight := unpack_double in
  let! timestamp := unpack_uint 4 in
  let! parents_len := unpack_uint 1 in
  let! parents := repeat_m (Z.to_nat parents_len) (unpack_len TX_HASH_SIZE) in
  ret (mkGraph weight timestamp parents [] [] []).

(** [Block.get_graph_fields_from_struct] *)
Definition block_graph_fields_from_struct : M bytes graph_fields :=
  let! g := base_graph_fields_from_struct in
  let! data_bytes := unpack_uint 1 in
  let! data := unpack_len data_bytes in
  ret (mkGraph (gf_weight g) (gf_timestamp g) (gf_parents g) data [] []).

(** [PoaBlock.get_graph_fields_from_struct] *)
Definition poa_graph_fields_from_struct : M bytes graph_fields :=
  let! g := block_graph_fields_from_struct in
  let! signer_id := unpack_len SIGNER_ID_LEN in
  let! signature_len := unpack_uint 1 in
  if _MAX_POA_SIGNATURE_LEN <? signature_len then raise ValueError else
  let! signature := unpack_len signature_len in
  ret (mkGraph (gf_weight g) (gf_timestamp g) (gf_parents g) (gf_data g) signer_id signature).

Definition graph_fields_of (cls : TxVersion) : M bytes graph_fields :=
  match cls with
  | REGULAR_BLOCK | MERGE_MINED_BLOCK => block_graph_fields_from_struct
  | POA_BLOCK => poa_graph_fields_from_struct
  | _ => base_graph_fields_from_struct
  end.

(** * Nonce and headers *)

(** [Block.create_from_struct] and [Transaction.create_from_struct] read as many bytes *)
Definition read_nonce (size : nat) : M bytes Z := fun buf =>
  if (length buf <? size)%nat then (Err ValueError, buf)
  else (Ok (int_from_bytes (take size buf) false), drop size buf).

(** [VertexParser.get_supported_headers] *)
Definition get_supported_headers : list bytes := if ENABLE_NANO_CONTRACTS then [NANO_HEADER] else [].

(** [VertexHeaderId(header_id_bytes)] *)
Definition vertex_header_id (header_id_bytes : bytes) : result bytes :=
  if bool_decide (header_id_bytes ∈ [NANO_HEADER; FEE_HEADER]) then Ok header_id_bytes else Err ValueError.

(** [VertexParser.get_header_parser], applied to a vertex of class [cls]; the only parser it can
    return is the one of [NanoHeader] *)
Definition get_header_parser (cls : TxVersion) (header_id_bytes : bytes) : result (M bytes VertexHeader) :=
  let? header_id := vertex_header_id header_id_bytes in
  if bool_decide (header_id ∈ get_supported_headers)
  then Ok (let! h := nano_deserialize cls in ret (NanoHeader_ h))
  else Err ValueError.

(** [get_header_from_bytes], on a vertex of class [cls] that has [n] headers *)
Definition get_header_from_bytes (cls : TxVersion) (n : Z) : M bytes VertexHeader := fun buf =>
  if get_maximum_number_of_headers <=? n then (Err ValueError, buf) else
  match get_header_parser cls (take 1 buf) with
  | Ok parser => parser buf
  | Err e => (Err e, buf)
  end.

(** [while buf: buf = get_header_from_bytes(buf)]: every turn adds a header, and a third one
    is refused, so three turns are enough *)
Fixpoint headers_loop (cls : TxVersion) (turns : nat) (n : Z) : M bytes (list VertexHeader) := fun buf =>
  match buf with
  | [] => (Ok [], [])
  | _ =>
      match turns with
      | O => (Err OutOfFuel, buf)
      | S turns => (let! h := get_header_from_bytes cls n in let! hs := headers_loop cls turns (n + 1) in ret (h :: hs)) buf
      end
  end.

Definition headers_from_bytes (cls : TxVersion) : M bytes (list VertexHeader) := headers_loop cls 3 0.

(** * Vertices *)

Definition with_hash (v : vertex) (h : bytes) : vertex :=
  MkVertex h (v_signal_bits v) (v_version v) (v_timestamp v) (v_weight v) (v_parents v) (v_inputs v) (v_outputs v)
    (v_tokens v) (v_headers v) (v_token_name v) (v_token_symbol v) (v_token_version v) (v_nonce v) (v_data v)
    (v_signer_id v) (v_signature v) (v_aux_pow v) (v_code v) (v_nc_pubkey v) (v_nc_signature v).

(** the object a class builds before its hash is computed *)
Definition assemble (cls : TxVersion) (f : funds_fields) (o : ocb_fields) (g : graph_fields) (nonce : Z)
    (aux_pow : option BitcoinAuxPow) (headers : list VertexHeader) : vertex :=
  let info := default ([], [], DEPOSIT) (ff_token_info f) in
  MkVertex [] (ff_signal_bits f) cls (gf_timestamp g) (gf_weight g) (gf_parents g) (ff_inputs f) (ff_outputs f)
    (ff_tokens f) headers (fst (fst info)) (snd (fst info)) (snd info) nonce (gf_data g) (gf_signer_id g)
    (gf_signature g) aux_pow (of_code o) (of_pubkey o) (of_signature o).

(** [cls.create_from_struct(struct_bytes)]; [MergeMinedBlock] leaves what follows the proof of
    work unread. The version byte is the one [deserialize] picked the class by. *)
Definition create_from_struct (cls : TxVersion) (struct_bytes : bytes) : result vertex :=
  let parse : M bytes vertex :=
    let! fo := funds_fields_of cls in
    let! g := graph_fields_of cls in
    match cls with
    | MERGE_MINED_BLOCK =>
        let! aux_pow := aux_pow_from_bytes in
        ret (assemble cls (fst fo) (snd fo) g 0 (Some aux_pow) [])
    | _ =>
        let! nonce := read_nonce (SERIALIZATION_NONCE_SIZE cls) in
        let! headers := headers_from_bytes cls in
        ret (assemble cls (fst fo) (snd fo) g nonce None headers)
    end in
  let? v := fst (parse struct_bytes) in
  let? h := calculate_hash v in
  Ok (with_hash v h).

(** [VertexParser.deserialize] *)
Definition vertex_deserialize (data : bytes) : result vertex :=
  let? version := py_index data 1 in
  let r :=
    let? tx_version := tx_version_of (b2z version) in
    if negb (is_vertex_version_valid tx_version true) then Err StructError else
    let? cls := get_cls tx_version in
    create_from_struct cls data in
  match r with
  | Err e => Err (if issubclass_exn e ValueError then StructError else e)
  | Ok v => Ok v
  end.
End parser.
