(* ===== verification/VertexTheory.v ===== *)
(** The bytes of vertices survive the round trip through [get_struct] and
    [VertexParser.deserialize]; fee headers do not. *)

From stdpp Require Import base list.
From Stdlib Require Import ZArith Lia Floats.SpecFloat.
From S2P Require Import Prelude PyInt Encoding PyValue PyFloat NCTypes BlockStorage ScriptCode ScriptVM.
From S2P Require Import TxStruct TxStructTheory VertexStruct VertexParser.

Local Open Scope Z_scope.
Local Open Scope py_scope.

Lemma Ok_inj {A} (a b : A) : Ok a = Ok b -> a = b.
Proof. congruence. Qed.

(** * Doubles *)

(** the floats a Python [float] can be *)
Definition is_double (f : spec_float) : Prop := valid_binary prec emax f = true.

Lemma double_finite m e : bounded prec emax m e = true ->
  Z.pos m < 2 ^ 53 /\ -1074 <= e <= 971 /\ (Z.pos m < 2 ^ 52 -> e = -1074).
Proof.
  unfold bounded, canonical_mantissa, fexp, SpecFloat.emin, prec, emax. intros [Hc He]%andb_true_iff.
  apply Z.eqb_eq in Hc. apply Z.leb_le in He. pose proof (digits2_bounds m) as [Hl Hu].
  set (d := Z.pos (digits2_pos m)) in *. assert (d <= 53) by lia.
  split; [eapply Z.lt_le_trans; [exact Hu|apply Z.pow_le_mono_r; lia]|]. split; [lia|].
  intros Hm. destruct (decide (d = 53)) as [E|]; [|lia]. rewrite E in Hl. simpl in Hl. lia.
Qed.

Lemma double_back f : is_double f -> double_of_bits (double_bits f) = f.
Proof.
  unfold is_double. destruct f as [s|s| |s m e]; [by destruct s|by destruct s|done|]. cbn [valid_binary]. intros H.
  apply double_finite in H as (Hm & He & Hsub).
  assert (R : forall ex k, 0 <= ex < 2047 -> 0 <= k < 2 ^ 52 ->
    double_of_bits ((if s then 2 ^ 63 else 0) + (ex * 2 ^ 52 + k)) =
    if ex =? 0 then match k with Z.pos p => S754_finite s p (-1074) | _ => S754_zero s end
    else match k + 2 ^ 52 with Z.pos p => S754_finite s p (ex - 1075) | _ => S754_nan end).
  { intros ex k Hex Hk. unfold double_of_bits. set (r := ex * 2 ^ 52 + k). assert (Hr : 0 <= r < 2 ^ 63) by (unfold r; lia).
    replace (2 ^ 63 <=? (if s then 2 ^ 63 else 0) + r) with s by (destruct s; [destruct (Z.leb_spec (2 ^ 63) (2 ^ 63 + r))|destruct (Z.leb_spec (2 ^ 63) (0 + r))]; lia || done).
    replace (((if s then 2 ^ 63 else 0) + r) mod 2 ^ 63) with r
      by (destruct s; [rewrite <- (Z.mul_1_l (2 ^ 63)) at 1; rewrite Z.add_comm, Z.mod_add by lia|]; rewrite Z.mod_small; lia).
    replace (r / 2 ^ 52) with ex by (unfold r; rewrite Z.div_add_l, Z.div_small by lia; lia).
    replace (r mod 2 ^ 52) with k by (unfold r; rewrite Z.add_comm, Z.mod_add, Z.mod_small by lia; done).
    by destruct (Z.eqb_spec ex 2047); [lia|]. }
  unfold double_bits. destruct (Z.ltb_spec (Z.pos m) (2 ^ 52)) as [Hlt|Hge].
  - rewrite (Hsub Hlt). specialize (R 0 (Z.pos m)). rewrite Z.mul_0_l, Z.add_0_l in R. rewrite R by lia. done.
  - rewrite <- Z.add_assoc, R by lia. destruct (Z.eqb_spec (e + 1075) 0); [lia|].
    replace (Z.pos m - 2 ^ 52 + 2 ^ 52) with (Z.pos m) by lia. f_equal. lia.
Qed.

Lemma double_bits_range f : is_double f -> 0 <= double_bits f < 2 ^ 64.
Proof.
  unfold is_double. destruct f as [s|s| |s m e]; [by destruct s|by destruct s|done|]. cbn [valid_binary]. intros H.
  apply double_finite in H as (Hm & He & Hsub). unfold double_bits.
  destruct (Z.ltb_spec (Z.pos m) (2 ^ 52)), s; nia.
Qed.

Lemma takes_double f : is_double f -> takes unpack_double (pack_double f) f.
Proof.
  intros Hf. unfold unpack_double. eapply takes_then.
  - apply takes_uint; [lia|]. unfold int_to_bytes. destruct (double_bits_range f Hf).
    rewrite (proj2 (Z.leb_le _ _)), (proj2 (Z.ltb_lt _ _)) by done. done.
  - cbn beta. rewrite double_back by done. apply takes_ret.
Qed.
#[export] Hint Resolve takes_double : takes.

(** * Bitcoin's encodings *)

Lemma pack_le_ok size n b : pack_le size n = Ok b -> b = le_bytes size n /\ 0 <= n < 2 ^ (8 * Z.of_nat size).
Proof.
  unfold pack_le, pack_uint. destruct ((0 <=? n) && (n <? 256 ^ Z.of_nat size)) eqn:E; [|done]. intros [= <-].
  split; [done|]. apply andb_true_iff in E as [E1 E2]. apply Z.leb_le in E1. apply Z.ltb_lt in E2.
  replace (256) with (2 ^ 8) in E2 by done. rewrite <- Z.pow_mul_r in E2 by lia. done.
Qed.

Lemma peek_le_back pre size n rest : 0 <= n < 2 ^ (8 * Z.of_nat size) -> (0 < size)%nat ->
  peek_le (length pre) size (pre ++ le_bytes size n ++ rest) = Ok n.
Proof.
  intros Hn Hs. unfold peek_le, le_bytes. rewrite drop_app_length.
  assert (L : length (rev (be_bytes size n)) = size) by (by rewrite length_rev, length_be_bytes).
  rewrite take_app_length' by done. rewrite L, Nat.eqb_refl, rev_involutive. by rewrite int_from_to_bytes.
Qed.

Lemma takes_varint n b : encode_varint n = Ok b -> takes read_varint b n.
Proof.
  intros H rest. unfold encode_varint in H.
  assert (W : forall tag size b', 0xfd <= tag <= 0xff ->
    (if tag <? 0xfe then 2%nat else if tag <? 0xff then 4%nat else 8%nat) = size ->
    pack_le size n = Ok b' -> read_varint ((z2b tag :: b') ++ rest) = (Ok n, rest)).
  { intros tag size b' Ht Hs [-> Hn]%pack_le_ok. unfold read_varint.
    replace (peek_le 0 1 ((z2b tag :: le_bytes size n) ++ rest)) with (Ok tag)
      by (symmetry; apply (peek_le_back [] 1 tag); simpl; lia).
    assert (0 < size)%nat by (rewrite <- Hs; repeat case_match; lia).
    destruct (Z.ltb_spec tag 0xfd); [lia|]. rewrite Hs.
    replace (peek_le 1 size _) with (Ok n) by (symmetry; by apply (peek_le_back [z2b tag] size n)).
    change (drop (S size) ((z2b tag :: le_bytes size n) ++ rest)) with (drop size (le_bytes size n ++ rest)).
    unfold le_bytes. by rewrite drop_app_length' by (by rewrite length_rev, length_be_bytes). }
  destruct (Z.ltb_spec n 0xfd).
  - apply pack_le_ok in H as [-> Hn]. unfold read_varint.
    replace (peek_le 0 1 _) with (Ok n) by (symmetry; apply (peek_le_back [] 1 n); [done|lia]).
    destruct (Z.ltb_spec n 0xfd); [|lia]. unfold le_bytes. by rewrite drop_app_length' by (by rewrite length_rev, length_be_bytes).
  - destruct (Z.leb_spec n 0xffff); [|destruct (Z.leb_spec n 0xffffffff)]; inv_rok H; injection H as <-.
    + by apply (W 0xfd 2%nat).
    + by apply (W 0xfe 4%nat).
    + by apply (W 0xff 8%nat).
Qed.

Lemma takes_nbytes bs n : blen bs = n -> takes (read_nbytes n) bs bs.
Proof.
  intros <- rest. unfold read_nbytes. rewrite blen_app, Z.min_l by (pose proof (blen_nonneg rest); lia).
  unfold blen. by rewrite Nat2Z.id, take_app_length, drop_app_length.
Qed.

Lemma takes_bytearray bs b : encode_bytearray bs = Ok b -> takes btc_read_bytes b bs.
Proof.
  unfold encode_bytearray. intros H. inv_rok H. injection H as <-. unfold btc_read_bytes.
  eapply takes_bind; [by apply takes_varint|]. by apply takes_nbytes.
Qed.

#[export] Hint Resolve takes_varint takes_bytearray : takes.
#[export] Hint Extern 1 (takes (read_nbytes _) _ _) => apply takes_nbytes : takes.

(** the sizes that the parser of a proof of work counts on *)
Definition wf_aux_pow (a : BitcoinAuxPow) : Prop :=
  blen (header_head a) = 36 /\ Forall (fun h => blen h = 32) (merkle_path a) /\
  Z.of_nat (length (merkle_path a)) <= MAX_MERKLE_PATH_COUNT /\ blen (header_tail a) = 12.

Lemma takes_hashes l : Forall (fun h => blen h = 32) l -> takes (repeat_m (length l) read_hash) (concat l) l.
Proof.
  induction 1 as [|u l Hu _ IH]; simpl; [done|]. eapply takes_bind; [|by eapply takes_then; [exact IH|]].
  intros rest. unfold read_hash. unfold blen in Hu. rewrite length_app, (proj2 (Nat.leb_le _ _)) by lia.
  by rewrite take_app_length', drop_app_length' by lia.
Qed.

Lemma takes_aux_pow a b : wf_aux_pow a -> aux_pow_bytes a = Ok b -> takes aux_pow_from_bytes b a.
Proof.
  intros (Hh & Hp & Hn & Ht) H. unfold aux_pow_bytes in H. inv_rok H. inv_rok H. inv_rok H. injection H as <-.
  unfold encode_list in Hm1. inv_rok Hm1. injection Hm1 as <-. rewrite <- !app_assoc. unfold aux_pow_from_bytes.
  do 4 takes_step. rewrite (proj2 (Z.ltb_ge _ _)) by done. rewrite Nat2Z.id.
  eapply takes_bind; [by apply takes_hashes|]. eapply takes_then; [by apply takes_nbytes|]. by destruct a.
Qed.

(** * Vertices *)

Section roundtrip.
Context {PS : ParserSettings} {ZL : Zlib} {CR : Crypto}.

Definition is_block_version (v : TxVersion) : bool :=
  match v with REGULAR_BLOCK | MERGE_MINED_BLOCK | POA_BLOCK => true | _ => false end.

(** the vertex with the fields that its class does not have at their default values *)
Definition own_fields (v : vertex) : vertex :=
  let ver := v_version v in
  let keep {A} (p : bool) (x d : A) := if p then x else d in
  let block := is_block_version ver in
  let creation := bool_decide (ver = TOKEN_CREATION_TRANSACTION) in
  let poa := bool_decide (ver = POA_BLOCK) in
  let merged := bool_decide (ver = MERGE_MINED_BLOCK) in
  let ocb := bool_decide (ver = ON_CHAIN_BLUEPRINT) in
  MkVertex (v_hash v) (v_signal_bits v) ver (v_timestamp v) (v_weight v) (v_parents v)
    (keep (negb block) (v_inputs v) []) (v_outputs v) (keep (negb block && negb creation) (v_tokens v) [])
    (keep (negb merged) (v_headers v) []) (keep creation (v_token_name v) []) (keep creation (v_token_symbol v) [])
    (keep creation (v_token_version v) DEPOSIT) (keep (negb merged) (v_nonce v) 0) (keep block (v_data v) [])
    (keep poa (v_signer_id v) []) (keep poa (v_signature v) []) (keep merged (v_aux_pow v) None)
    (keep ocb (v_code v) []) (keep ocb (v_nc_pubkey v) []) (keep ocb (v_nc_signature v) []).

Definition wf_nano_header (h : VertexHeader) : Prop :=
  match h with NanoHeader_ h => ENABLE_NANO_CONTRACTS = true /\ wf_nano h | FeeHeader_ _ => False end.

(** what each class adds *)
Definition wf_class (v : vertex) : Prop :=
  match v_version v with
  | MERGE_MINED_BLOCK => exists a, v_aux_pow v = Some a /\ wf_aux_pow a
  | POA_BLOCK => blen (v_signature v) <= _MAX_POA_SIGNATURE_LEN
  | ON_CHAIN_BLUEPRINT =>
      ENABLE_NANO_CONTRACTS = true /\
      blen (v_code v) + 1 <= NC_ON_CHAIN_BLUEPRINT_CODE_MAX_SIZE_COMPRESSED /\
      is_ok (_decompress_code (v_code v) NC_ON_CHAIN_BLUEPRINT_CODE_MAX_SIZE_UNCOMPRESSED) = true
  | _ => True
  end.

(** a vertex as the node builds them: ids of 32 bytes, a weight that is a float, a version of
    the network *)
Definition wf_body (v : vertex) : Prop :=
  own_fields v = v /\ is_vertex_version_valid (v_version v) true = true /\ is_double (v_weight v) /\
  Forall (fun u => blen u = TX_HASH_SIZE) (v_tokens v) /\ Forall (fun u => blen u = TX_HASH_SIZE) (v_parents v) /\
  Forall wf_input (v_inputs v) /\ wf_class v.

(** with headers the parser supports (none on a block), and the hash of its bytes *)
Definition wf_vertex (v : vertex) : Prop :=
  wf_body v /\ Forall wf_nano_header (v_headers v) /\
  (is_transaction_class (v_version v) = true \/ v_headers v = []) /\
  Z.of_nat (length (v_headers v)) <= get_maximum_number_of_headers /\ calculate_hash v = Ok (v_hash v).

(** ** Funds *)

Definition ocb_of (v : vertex) : ocb_fields := mkOcb (v_code v) (v_nc_pubkey v) (v_nc_signature v).

Lemma takes_code v b : v_version v = ON_CHAIN_BLUEPRINT -> wf_class v -> serialize_code v = Ok b ->
  takes deserialize_code b (v_code v).
Proof.
  unfold wf_class. intros -> (_ & Hl & Hd) H. unfold serialize_code in H. inv_rok H. inv_rok H. inv_rok H. injection H as <-.
  apply int_byte in Hm0 as (k & -> & Hk). unfold deserialize_code. takes_step.
  rewrite Z.eqb_refl. cbn [negb]. takes_step. rewrite (proj2 (Z.ltb_ge _ _)) by (rewrite blen_app, blen_cons, blen_nil; lia).
  eapply takes_then; [by apply takes_len|]. intros rest. unfold lift, Code_from_bytes. cbn [app].
  rewrite Hk, Z.eqb_refl. cbn [negb]. destruct (_decompress_code _ _); [done|discriminate Hd].
Qed.

Lemma takes_ocb v b : v_version v = ON_CHAIN_BLUEPRINT -> wf_class v -> _serialize_ocb v false = Ok b ->
  takes ocb_fields_from_struct b (ocb_of v).
Proof.
  intros E Hw H. unfold _serialize_ocb in H. inv_rok H. inv_rok H. inv_rok H. injection H as <-.
  unfold ocb_fields_from_struct. eapply takes_bind; [by apply takes_code|]. do 3 takes_step.
  eapply takes_then; [by apply takes_len|]. done.
Qed.

Lemma takes_block_funds v b : block_funds_struct v = Ok b ->
  takes block_funds_fields_from_struct b (mkFunds (v_signal_bits v) (tx_version_value (v_version v)) [] [] (v_outputs v) None).
Proof.
  intros H. unfold block_funds_struct in H. inv_rok H. inv_rok H. injection H as <-. unpack_head Hm.
  rewrite app_nil_r, <- !app_assoc. unfold block_funds_fields_from_struct.
  do 3 (eapply takes_bind; [by apply takes_pack|]; cbn beta). rewrite Nat2Z.id.
  eapply takes_then; [eapply takes_repeat; [|done]; intros; by apply output_takes|]. done.
Qed.

Definition all_funds_of (v : vertex) : funds_fields :=
  if is_block_version (v_version v)
  then mkFunds (v_signal_bits v) (tx_version_value (v_version v)) [] [] (v_outputs v) None else funds_of v.

Lemma takes_funds v b : wf_body v -> get_funds_struct v = Ok b ->
  exists o, takes (funds_fields_of (v_version v)) b (all_funds_of v, o) /\
    o = if bool_decide (v_version v = ON_CHAIN_BLUEPRINT) then ocb_of v else no_ocb.
Proof.
  intros (_ & _ & _ & Htok & _ & Hin & Hc) H. eexists. split; [|done].
  unfold get_funds_struct in H. unfold all_funds_of, funds_fields_of.
  pose proof (fun b => funds_takes v b Htok Hin) as F. unfold funds_parser, is_token_creation in F.
  pose proof (fun b => takes_block_funds v b) as G.
  destruct (v_version v) eqn:E; cbn [is_block_version];
    try (eapply takes_then; [first [by apply G|by apply F]|apply takes_ret]).
  inv_rok H. inv_rok H. injection H as <-. eapply takes_bind; [by apply F|]. cbn beta.
  eapply takes_then; [by apply takes_ocb|]. done.
Qed.

(** ** Graph *)

Definition graph_of (v : vertex) : graph_fields :=
  mkGraph (v_weight v) (v_timestamp v) (v_parents v) (v_data v) (v_signer_id v) (v_signature v).

Lemma takes_pack4 n bs : pack_uint 4 n = Ok bs -> takes (unpack_uint 4) bs n.
Proof.
  unfold pack_uint. case_match eqn:E; [|done]. intros [= <-]. apply takes_uint; [lia|].
  unfold int_to_bytes. change (2 ^ (8 * Z.of_nat 4)) with (256 ^ Z.of_nat 4). by rewrite E.
Qed.

Lemma takes_base_graph v b : is_double (v_weight v) -> Forall (fun u => blen u = TX_HASH_SIZE) (v_parents v) ->
  base_graph_struct v = Ok b ->
  takes base_graph_fields_from_struct b (mkGraph (v_weight v) (v_timestamp v) (v_parents v) [] [] []).
Proof.
  intros Hd Hp H. unfold base_graph_struct in H. inv_rok H. inv_rok H. apply Ok_inj in H as <-.
  unfold base_graph_fields_from_struct. takes_step.
  eapply takes_bind; [by apply takes_pack4|].
  eapply takes_bind; [by apply takes_pack|]. rewrite Nat2Z.id. eapply takes_then; [by apply tokens_take|]. done.
Qed.

Lemma takes_block_graph v b : is_double (v_weight v) -> Forall (fun u => blen u = TX_HASH_SIZE) (v_parents v) ->
  block_graph_struct v = Ok b ->
  takes block_graph_fields_from_struct b (mkGraph (v_weight v) (v_timestamp v) (v_parents v) (v_data v) [] []).
Proof.
  intros Hd Hp H. unfold block_graph_struct in H. inv_rok H. inv_rok H. apply Ok_inj in H as <-.
  unfold block_graph_fields_from_struct. eapply takes_bind; [by apply takes_base_graph|]. takes_step.
  eapply takes_then; [by apply takes_len|]. done.
Qed.

Lemma takes_graph v b : wf_body v -> get_graph_struct v = Ok b -> takes (graph_fields_of (v_version v)) b (graph_of v).
Proof.
  intros (Ho & _ & Hd & _ & Hp & _ & Hc) H. unfold get_graph_struct in H. unfold graph_fields_of, graph_of.
  pose proof (takes_base_graph v b Hd Hp) as B. pose proof (takes_block_graph v) as K. unfold wf_class in Hc.
  rewrite <- Ho. unfold own_fields. cbn [v_version v_weight v_timestamp v_parents v_data v_signer_id v_signature].
  destruct (v_version v) eqn:E; try (by apply B); try (by apply K). cbn [is_block_version].
  destruct (negb _) eqn:El; [done|]. apply negb_false_iff, Z.eqb_eq in El. inv_rok H. inv_rok H. injection H as <-.
  unfold poa_graph_fields_from_struct. eapply takes_bind; [by apply K|]. cbn beta.
  eapply takes_bind; [by apply takes_len|]. takes_step. rewrite (proj2 (Z.ltb_ge _ _)) by done.
  eapply takes_then; [by apply takes_len|]. done.
Qed.

(** ** Headers *)

Lemma nano_first h b : nano_serialize h false = Ok b -> exists r, b = NANO_HEADER ++ r.
Proof. unfold nano_serialize. intros H. do 7 inv_rok H. injection H as <-. by eexists. Qed.

Lemma header_takes cls n h b : is_transaction_class cls = true -> n < get_maximum_number_of_headers -> wf_nano_header h -> header_serialize h = Ok b ->
  takes (get_header_from_bytes cls n) b h /\ b <> [].
Proof.
  intros Hcls Hn Hw H. destruct h as [h|]; [|done]. destruct Hw as [He Hw]. cbn [header_serialize] in H.
  destruct (nano_first h b H) as [r Er]. split; [|by subst].
  intros rest. unfold get_header_from_bytes. rewrite (proj2 (Z.leb_gt _ _)) by done.
  replace (take 1 (b ++ rest)) with NANO_HEADER by by subst.
  unfold get_header_parser, get_supported_headers. rewrite He. change (vertex_header_id NANO_HEADER) with (Ok NANO_HEADER).
  cbn [rbind]. rewrite bool_decide_eq_true_2 by by left.
  by apply (takes_then (nano_deserialize cls) (fun h => ret (NanoHeader_ h)) b h); [apply nano_takes|].
Qed.

(** a parser that takes everything *)
Lemma headers_back cls hs : is_transaction_class cls = true \/ hs = [] ->
  forall turns n b, (length hs < turns)%nat -> n + Z.of_nat (length hs) <= get_maximum_number_of_headers ->
  Forall wf_nano_header hs -> rjoin header_serialize hs = Ok b -> headers_loop cls turns n b = (Ok hs, []).
Proof.
  induction hs as [|h hs IH]; intros Hcls turns n b Ht Hn Hw H; cbn [rjoin length] in *; [injection H as <-; by destruct turns|].
  inv_rok H. inv_rok H. injection H as <-. destruct turns as [|turns]; [lia|]. apply Forall_cons in Hw as [Hh Hw].
  destruct Hcls as [Hcls|]; [|done]. destruct (header_takes cls n h a) as [T Ne]; [done|lia|done|done|]. destruct a as [|x a]; [done|]. cbn [headers_loop app].
  change (x :: a ++ a0) with ((x :: a) ++ a0). erewrite takes_run by exact T. cbn beta.
  by rewrite (bind_ok _ _ _ _ _ (IH (or_introl Hcls) turns (n + 1) a0 ltac:(lia) ltac:(lia) Hw Hm0)).
Qed.

(** ** Whole vertices *)

Lemma read_nonce_back n size b rest : int_to_bytes n size false = Ok b -> (0 < size)%nat ->
  read_nonce size (b ++ rest) = (Ok n, rest).
Proof.
  intros H Hs. apply int_to_bytes_ok in H as [-> H]. unfold read_nonce. pose proof (length_be_bytes size n) as L.
  rewrite length_app, L, (proj2 (Nat.ltb_ge _ _)) by lia.
  by rewrite take_app_length', drop_app_length', int_from_to_bytes.
Qed.

(** the bytes of the fields a class has do not depend on its hash *)
Lemma calculate_hash_with v h : calculate_hash (with_hash v h) = calculate_hash v.
Proof. done. Qed.

Lemma assemble_own v : own_fields v = v ->
  assemble (v_version v) (all_funds_of v) (if bool_decide (v_version v = ON_CHAIN_BLUEPRINT) then ocb_of v else no_ocb)
    (graph_of v) (v_nonce v) (v_aux_pow v) (v_headers v) = with_hash v [].
Proof.
  intros Ho. rewrite <- Ho. unfold assemble, all_funds_of, funds_of, graph_of, ocb_of, own_fields, with_hash, is_token_creation.
  cbn [v_version]. by destruct (v_version v).
Qed.

Lemma pack_second n m l b r : pack_B (n :: m :: l) = Ok b -> exists x s, b ++ r = x :: z2b m :: s.
Proof.
  intros H. apply pack_B_cons in H as (? & ? & P1 & H & ->). apply pack_B_cons in H as (? & ? & P2 & H & ->).
  unfold pack_uint in P1, P2. (case_match; [|done]). (case_match; [|done]). injection P1 as <-. injection P2 as <-. by eexists _, _.
Qed.

Lemma version_byte v b : get_funds_struct v = Ok b ->
  exists x r, b = x :: z2b (tx_version_value (v_version v)) :: r.
Proof.
  assert (F : forall b r, funds_with TxInput_bytes v = Ok b -> exists x s, b ++ r = x :: z2b (tx_version_value (v_version v)) :: s).
  { intros b' r H. unfold funds_with in H. destruct (v_version v); inv_rok H; inv_rok H; inv_rok H; try inv_rok H;
      injection H as <-; rewrite <- app_assoc; by eapply pack_second. }
  assert (B : block_funds_struct v = Ok b -> exists x s, b = x :: z2b (tx_version_value (v_version v)) :: s).
  { unfold block_funds_struct. intros H. inv_rok H. inv_rok H. injection H as <-. by eapply pack_second. }
  specialize (F b []) as F0. rewrite app_nil_r in F0. unfold get_funds_struct. intros H.
  destruct (v_version v); try (by apply B); try (by apply F0).
  inv_rok H. inv_rok H. injection H as <-. by apply F.
Qed.

(** the parsers of a class run one after the other: what is left for the headers *)
Lemma create_until_headers v b : wf_body v -> v_version v <> MERGE_MINED_BLOCK -> get_struct v = Ok b ->
  exists hb, rjoin header_serialize (v_headers v) = Ok hb /\
  create_from_struct (v_version v) b =
    let? hs := fst (headers_from_bytes (v_version v) hb) in
    let v' := assemble (v_version v) (all_funds_of v) (if bool_decide (v_version v = ON_CHAIN_BLUEPRINT) then ocb_of v else no_ocb)
      (graph_of v) (v_nonce v) None hs in
    let? h := calculate_hash v' in Ok (with_hash v' h).
Proof.
  intros Hw E H. unfold get_struct, get_struct_without_nonce in H. inv_rok H. inv_rok Hm. inv_rok Hm. apply Ok_inj in Hm as <-.
  inv_rok H. inv_rok H. apply Ok_inj in H as <-. exists a2. split; [done|]. rewrite <- app_assoc. unfold create_from_struct.
  destruct (takes_funds v a0 Hw Hm0) as (o & Tf & ->). erewrite (takes_run (funds_fields_of _)) by exact Tf. cbn beta.
  erewrite (takes_run (graph_fields_of _)) by exact (takes_graph v a1 Hw Hm1). cbn beta iota. cbn [fst snd].
  assert (R : read_nonce (SERIALIZATION_NONCE_SIZE (v_version v)) (a ++ a2) = (Ok (v_nonce v), a2)).
  { unfold get_struct_nonce in Hm. apply read_nonce_back; [by destruct (v_version v)|destruct (v_version v); simpl; lia]. }
  destruct (v_version v); try done; rewrite (bind_ok _ _ _ _ _ R); cbn beta; unfold bind; by destruct (headers_from_bytes _ a2) as [[hs|e] r].
Qed.

Lemma create_merged v b : wf_body v -> v_version v = MERGE_MINED_BLOCK -> get_struct v = Ok b ->
  create_from_struct (v_version v) b = let? h := calculate_hash v in Ok (with_hash v h).
Proof.
  intros Hw E H. unfold get_struct, get_struct_without_nonce in H. inv_rok H. inv_rok Hm. inv_rok Hm. apply Ok_inj in Hm as <-.
  inv_rok H. inv_rok H. apply Ok_inj in H as <-. rewrite <- app_assoc. unfold create_from_struct.
  destruct (takes_funds v a0 Hw Hm0) as (o & Tf & ->). erewrite (takes_run (funds_fields_of _)) by exact Tf. cbn beta.
  erewrite (takes_run (graph_fields_of _)) by exact (takes_graph v a1 Hw Hm1). cbn beta iota. cbn [fst snd].
  pose proof (assemble_own v (proj1 Hw)) as A. destruct Hw as (Ho & _ & _ & _ & _ & _ & Hc).
  unfold wf_class in Hc. unfold get_struct_nonce in Hm. rewrite E in Hc, Hm. destruct Hc as (p & Ep & Hp). rewrite Ep in Hm, A.
  replace (v_nonce v) with 0 in A by (rewrite <- Ho; unfold own_fields; by rewrite E).
  replace (v_headers v) with (@nil VertexHeader) in A by (rewrite <- Ho; unfold own_fields; by rewrite E).
  rewrite E in A |- *. erewrite takes_run by by apply takes_aux_pow. cbn [ret fst rbind]. by rewrite A.
Qed.

Lemma create_back v b : wf_vertex v -> get_struct v = Ok b -> create_from_struct (v_version v) b = Ok v.
Proof.
  intros (Hw & Hh & Hcls & Hn & Hash) H. pose proof Hw as (Ho & _). destruct (decide (v_version v = MERGE_MINED_BLOCK)) as [E|E].
  - rewrite (create_merged v b Hw E H), Hash. cbn [rbind]. by destruct v.
  - destruct (create_until_headers v b Hw E H) as (hb & Hm & ->). unfold headers_from_bytes.
    rewrite (headers_back _ (v_headers v) Hcls 3 0 hb ltac:(unfold get_maximum_number_of_headers in Hn; lia) Hn Hh Hm). cbn [fst rbind].
    pose proof (assemble_own v Ho) as A. replace (v_aux_pow v) with (@None BitcoinAuxPow) in A.
    + rewrite A, calculate_hash_with, Hash. cbn [rbind]. by destruct v.
    + rewrite <- Ho. unfold own_fields. cbn [v_aux_pow]. by rewrite bool_decide_eq_false_2.
Qed.

Lemma tx_version_back v : tx_version_of (b2z (z2b (tx_version_value v))) = Ok v.
Proof. by destruct v. Qed.

(** parsing picks the class of the vertex *)
Lemma deserialize_class v b : wf_body v -> get_struct v = Ok b ->
  vertex_deserialize b =
    match create_from_struct (v_version v) b with
    | Err e => Err (if issubclass_exn e ValueError then StructError else e)
    | Ok v => Ok v
    end.
Proof.
  intros (_ & Hv & _ & _ & _ & _ & Hc) H.
  assert (exists x r, b = x :: z2b (tx_version_value (v_version v)) :: r) as (x & r & Eb).
  { unfold get_struct, get_struct_without_nonce in H. inv_rok H. inv_rok Hm. inv_rok Hm. inv_rok H. inv_rok H.
    apply Ok_inj in Hm as <-. apply Ok_inj in H as <-. apply version_byte in Hm0 as (x & r & ->). by eexists _, _. }
  unfold vertex_deserialize. rewrite Eb at 1. change (py_index (x :: ?y :: r) 1) with (Ok y). cbn [rbind].
  rewrite tx_version_back. cbn [rbind]. rewrite Hv. cbn [negb].
  replace (get_cls (v_version v)) with (Ok (v_version v)); [done|].
  unfold get_cls, wf_class in *. destruct (v_version v); try done. by destruct Hc as [-> _].
Qed.


(** ** Fee headers *)

(** the headers the parser accepts when it gets to them *)
Definition supported_header (h : VertexHeader) : bool := match h with NanoHeader_ _ => ENABLE_NANO_CONTRACTS | FeeHeader_ _ => false end.

(** it refuses any other header, and any header after the last that is allowed *)
Lemma header_refused cls turns n h b rest : supported_header h = false \/ get_maximum_number_of_headers <= n ->
  header_serialize h = Ok b -> fst (headers_loop cls (S turns) n (b ++ rest)) = Err ValueError.
Proof.
  intros Hbad H. assert (exists r, b = (match h with NanoHeader_ _ => z2b 16 | FeeHeader_ _ => z2b 17 end) :: r) as [r ->].
  { destruct h; [by apply nano_first in H|]. cbn [header_serialize] in H. unfold fee_serialize in H. do 2 inv_rok H. injection H as <-. by eexists. }
  cbn [headers_loop app]. unfold bind, get_header_from_bytes. cbn [take].
  destruct (Z.leb_spec get_maximum_number_of_headers n); [done|]. destruct Hbad as [Hbad|]; [|lia].
  unfold get_header_parser, get_supported_headers, supported_header in *. destruct h as [h|f].
  - change (vertex_header_id (z2b 16 :: _)) with (Ok NANO_HEADER). cbn [rbind]. destruct ENABLE_NANO_CONTRACTS; [done|]. case_bool_decide as Hin; [by apply not_elem_of_nil in Hin|done].
  - change (vertex_header_id (z2b 17 :: _)) with (Ok FEE_HEADER). cbn [rbind].
    by rewrite bool_decide_eq_false_2 by (destruct ENABLE_NANO_CONTRACTS; [by intros ?%list_elem_of_singleton|by apply not_elem_of_nil]).
Qed.

Lemma headers_fee cls fees hs2 hs1 : is_transaction_class cls = true -> forall turns n b, (0 < turns)%nat ->
  get_maximum_number_of_headers < n + Z.of_nat turns ->
  Forall wf_header hs1 -> rjoin header_serialize (hs1 ++ FeeHeader_ fees :: hs2) = Ok b ->
  fst (headers_loop cls turns n b) = Err ValueError.
Proof.
  intros Hcls. induction hs1 as [|h hs IH]; intros turns n b Ht Hn Hw H; cbn [rjoin app] in *; inv_rok H; inv_rok H; injection H as <-;
    (destruct turns as [|turns]; [lia|]).
  - apply (header_refused cls turns n (FeeHeader_ fees)); [by left|done].
  - apply Forall_cons in Hw as [Hh Hw]. destruct (Z.leb_spec get_maximum_number_of_headers n) as [Hge|Hlt].
    { apply (header_refused cls turns n h); [by right|done]. }
    destruct (supported_header h) eqn:Es; [|apply (header_refused cls turns n h); [by left|done]].
    assert (Hnh : wf_nano_header h) by (by destruct h).
    destruct (header_takes cls n h a Hcls Hlt Hnh Hm) as [T Ne]. destruct a as [|x a]; [done|]. cbn [headers_loop app].
    change (x :: a ++ a0) with ((x :: a) ++ a0). erewrite takes_run by exact T. cbn beta. unfold bind.
    specialize (IH turns (n + 1) a0 ltac:(lia) ltac:(lia) Hw Hm0). by destruct (headers_loop cls turns (n + 1) a0) as [[|e] r].
Qed.

(** the bytes of a transaction with a fee header are never parsed *)
Lemma fee_header_refused v hs1 fees hs2 b : wf_body v -> is_transaction_class (v_version v) = true ->
  v_headers v = hs1 ++ FeeHeader_ fees :: hs2 -> Forall wf_header hs1 -> get_struct v = Ok b ->
  vertex_deserialize b = Err StructError.
Proof.
  intros Hw E Eh Hh H. rewrite (deserialize_class v b Hw H).
  destruct (create_until_headers v b Hw ltac:(by intros Ev; rewrite Ev in E) H) as (hb & Hm & ->).
  rewrite Eh in Hm. unfold headers_from_bytes. by rewrite (headers_fee _ fees hs2 hs1 E 3 0 hb) by (done || lia).
Qed.
End roundtrip.

(** * A network where nano contracts are enabled *)

Section demo.
Definition demo_parser_settings : ParserSettings := {|
  ENABLE_NANO_CONTRACTS := true;
  NC_ON_CHAIN_BLUEPRINT_CODE_MAX_SIZE_UNCOMPRESSED := 240000;
  NC_ON_CHAIN_BLUEPRINT_CODE_MAX_SIZE_COMPRESSED := 24000;
  CONSENSUS_ALGORITHM := PowSettings
|}.

(** a compression that keeps the data *)
Definition demo_zlib : Zlib := {| zlib_decompress data max_length := Ok (data, []) |}.

(** hashes of 32 bytes that keep the first bytes of the data *)
Definition demo_vertex_crypto : Crypto := {|
  sha256 := fun x => take 32 (x ++ repeat Byte.x00 32);
  ripemd160 := fun x => take 20 (x ++ repeat Byte.x00 20);
  PublicKey := bytes;
  from_encoded_point := Some;
  ecdsa_verify := fun k sig data => bool_decide (sig = k ++ take 1 data);
  b58encode := fun i => match i with IBytes b => Ok b | IInt _ => Err TypeError end;
  b58decode := Ok
|}.
#[local] Existing Instance demo_parser_settings.
#[local] Existing Instance demo_zlib.
#[local] Existing Instance demo_vertex_crypto.

Definition hashed (v : vertex) : vertex := with_hash v (demo_ok [] (calculate_hash v)).

Definition demo_weight : spec_float := S754_finite false 4855443348258816 (-48).

(** a transaction that calls a contract *)
Definition demo_call (headers : list VertexHeader) : vertex :=
  MkVertex [] 0 REGULAR_TRANSACTION 1600000000 demo_weight [repeat (z2b 3) 32; repeat (z2b 4) 32]
    [mkTxInput (repeat (z2b 7) 32) 3 [z2b 1; z2b 2]] [mkTxOutput 100 [z2b 118] 0; mkTxOutput 5000000000 [] 1]
    [repeat (z2b 9) 32] headers [] [] DEPOSIT 77 [] [] [] None [] [] [].

(** a merge-mined block with a long coinbase transaction *)
Definition demo_merged : vertex :=
  MkVertex [] 5 MERGE_MINED_BLOCK 1600000000 demo_weight (repeat (repeat (z2b 3) 32) 3)
    [] [mkTxOutput 6400 [z2b 118] 0] [] [] [] [] DEPOSIT 0 [z2b 1; z2b 2] [] []
    (Some (mkAuxPow (repeat (z2b 1) 36) (repeat (z2b 2) 260 ++ MAGIC_NUMBER) [z2b 8] (repeat (repeat (z2b 6) 32) 12) (repeat (z2b 4) 12)))
    [] [] [].

(** a blueprint whose code is ["ab"] *)
Definition demo_blueprint : vertex :=
  MkVertex [] 0 ON_CHAIN_BLUEPRINT 1600000000 demo_weight [repeat (z2b 3) 32; repeat (z2b 4) 32]
    [] [] [] [] [] [] DEPOSIT 78 [] [] [] None [z2b 97; z2b 98] (repeat (z2b 2) 33) [z2b 1].


End demo.
