(* ===== verification/TokenInfo.v ===== *)
(** The token amounts and authorities of a transaction: [hathor/transaction/token_info.py],
    the methods of [Transaction] that collect them from inputs, nano-contract actions,
    outputs and fees, the verification rules of [hathor/nanocontracts/balance_rules.py],
    and [TransactionVerifier.verify_sum]. *)

From stdpp Require Import base list.
From Stdlib Require Import ZArith Lia Floats.SpecFloat.
From S2P Require Import Prelude PyInt PyValue NCTypes PatriciaTrie BlockStorage PyFloat ScriptCode ScriptVM.
From S2P Require Import TxStruct.

Local Open Scope Z_scope.
Local Open Scope py_scope.

(** * What the verification reads from its surroundings *)

(** the settings of [hathor/conf/settings.py] that verification uses *)
Class TxSettings : Type := {
  FEE_PER_OUTPUT : Z;
  TOKEN_DEPOSIT_PERCENTAGE : spec_float;
  MAX_NUM_INPUTS : Z;
  MAX_NUM_OUTPUTS : Z;
  MAX_OUTPUT_SCRIPT_SIZE : Z;
  MAX_INPUT_DATA_SIZE : Z;
  MAX_TX_SIGOPS_INPUT : Z;
  MAX_TX_SIGOPS_OUTPUT : Z;
  MAX_DISTANCE_BETWEEN_BLOCKS : Z;
  REWARD_SPEND_MIN_BLOCKS : Z;
  GENESIS_HASHES : list bytes;
  GENESIS_BLOCK_HASH : bytes
}.

(** the storage of vertices: [get_transaction] raises [TransactionDoesNotExist] for an
    unknown hash *)
Class VertexStorage : Type := { get_transaction : bytes -> result vertex }.

(** the tokens created by nano contracts, [NCBlockStorage.has_token] and
    [NCBlockStorage.get_token_description] *)
Class TokenStore (B : Type) : Type := {
  has_token : B -> bytes -> result bool;
  token_description : B -> bytes -> result TokenDescription
}.

#[export] Instance block_token_store (DB : Type) `{!NodeTrieStore DB} : TokenStore (block_storage DB) := {
  has_token := block_has_token;
  token_description := get_token_description
}.

(** * [TxOutput] *)

Definition TOKEN_INDEX_MASK : Z := 127.
Definition TOKEN_AUTHORITY_MASK : Z := 128.
Definition TOKEN_MINT_MASK : Z := 1.
Definition TOKEN_MELT_MASK : Z := 2.
Definition ALL_AUTHORITIES : Z := Z.lor TOKEN_MINT_MASK TOKEN_MELT_MASK.

Definition get_token_index (o : TxOutput) : Z := Z.land (out_token_data o) TOKEN_INDEX_MASK.

Definition is_token_authority (o : TxOutput) : bool := 0 <? Z.land (out_token_data o) TOKEN_AUTHORITY_MASK.

Definition can_mint_token (o : TxOutput) : bool :=
  is_token_authority o && (0 <? Z.land (out_value o) TOKEN_MINT_MASK).

Definition can_melt_token (o : TxOutput) : bool :=
  is_token_authority o && (0 <? Z.land (out_value o) TOKEN_MELT_MASK).

(** * [Transaction] *)

Definition is_block (v : vertex) : bool :=
  match v_version v with REGULAR_BLOCK | MERGE_MINED_BLOCK | POA_BLOCK => true | _ => false end.

(** [Block.get_token_uid] and [Transaction.get_token_uid] *)
Definition get_token_uid (v : vertex) (index : Z) : result bytes :=
  if is_block v then (if index =? 0 then Ok HATHOR_TOKEN_UID else Err AssertionError)
  else if index =? 0 then Ok HATHOR_TOKEN_UID
  else py_index (v_tokens v) (index - 1).

(** [_get_header]: the first header of a type, [None] for its [ValueError] *)
Definition get_nano_header (v : vertex) : option NanoHeader :=
  head (omap (fun h => match h with NanoHeader_ n => Some n | _ => None end) (v_headers v)).

Definition get_fee_header (v : vertex) : option (list FeeHeaderEntry) :=
  head (omap (fun h => match h with FeeHeader_ f => Some f | _ => None end) (v_headers v)).

(** blocks answer [False] *)
Definition is_nano_contract (v : vertex) : bool :=
  negb (is_block v) && (match get_nano_header v with Some _ => true | None => false end).

Definition has_fees (v : vertex) : bool :=
  negb (is_block v) && (match get_fee_header v with Some _ => true | None => false end).

(** * Token information *)

Record TokenInfo : Type := mkInfo {
  version : option TokenVersion;
  amount : Z;
  info_can_mint : bool;
  info_can_melt : bool;
  chargeable_outputs : Z;
  chargeable_inputs : Z
}.

(** [TokenInfo(version=version)] *)
Definition new_info (version : option TokenVersion) : TokenInfo := mkInfo version 0 false false 0 0.

Definition has_been_melted (i : TokenInfo) : bool := amount i <? 0.
Definition has_been_minted (i : TokenInfo) : bool := 0 <? amount i.

Definition is_fee_version (v : option TokenVersion) : bool := bool_decide (v = Some FEE).

(** the mutations of a [TokenInfo]: a change of the amount that counts one chargeable
    output or input when [outs] or [ins] says so, and new authorities *)
Definition add_amount (i : TokenInfo) (n : Z) (outs ins : bool) : TokenInfo :=
  mkInfo (version i) (amount i + n) (info_can_mint i) (info_can_melt i)
    (chargeable_outputs i + Z.b2z outs) (chargeable_inputs i + Z.b2z ins).

Definition add_authorities (i : TokenInfo) (mint melt : bool) : TokenInfo :=
  mkInfo (version i) (amount i) (info_can_mint i || mint) (info_can_melt i || melt)
    (chargeable_outputs i) (chargeable_inputs i).

(** [TokenInfoDict]: a dictionary with [fees_from_fee_header] *)
Record TokenInfoDict : Type := mkDict {
  entries : list (bytes * TokenInfo);
  fees_from_fee_header : Z
}.

Definition set_entry (d : TokenInfoDict) (u : bytes) (i : TokenInfo) : TokenInfoDict :=
  mkDict (od_set (entries d) u i) (fees_from_fee_header d).

Section token_info.
Context {TS : TxSettings} {VS : VertexStorage} {B : Type} `{!TokenStore B}.

Definition entry_fee (i : TokenInfo) : Z :=
  if 0 <? chargeable_outputs i then chargeable_outputs i * FEE_PER_OUTPUT
  else if 0 <? chargeable_inputs i then FEE_PER_OUTPUT else 0.

Definition calculate_fee (d : TokenInfoDict) : Z :=
  fold_left (fun fee e => fee + entry_fee (snd e)) (entries d) 0.

Definition get_token_creation_transaction (hash_bytes : bytes) : result vertex :=
  let? tx := get_transaction hash_bytes in
  if bool_decide (v_version tx = TOKEN_CREATION_TRANSACTION) then Ok tx
  else Err TokenCreationTransactionDoesNotExist.

Definition get_token_version (nc_block_storage : B) (token_uid : bytes) : result (option TokenVersion) :=
  if bool_decide (token_uid = HATHOR_TOKEN_UID) then Ok (Some NATIVE)
  else match get_token_creation_transaction token_uid with
  | Ok token_creation_tx => Ok (Some (v_token_version token_creation_tx))
  | Err e =>
      if issubclass_exn e TransactionDoesNotExist then
        let? found := has_token nc_block_storage token_uid in
        if found : bool then
          let? td := token_description nc_block_storage token_uid in Ok (Some (td_token_version td))
        else Ok None
      else Err e
  end.

(** the output an input spends, with its token *)
Definition spent_output (i : TxInput) : result (bytes * TxOutput) :=
  let? spent_tx := get_transaction (in_tx_id i) in
  let? o := py_index (v_outputs spent_tx) (in_index i) in
  let? u := get_token_uid spent_tx (get_token_index o) in
  Ok (u, o).

(** one turn of the loop of [_get_token_info_from_inputs] *)
Definition input_step (nc_block_storage : B) (d : TokenInfoDict) (i : TxInput) : result TokenInfoDict :=
  let? (token_uid, o) := spent_output i in
  let? token_version := get_token_version nc_block_storage token_uid in
  let token_info := default (new_info token_version) (od_get (entries d) token_uid) in
  Ok (set_entry d token_uid
    (if is_token_authority o then add_authorities token_info (can_mint_token o) (can_melt_token o)
     else add_amount token_info (- out_value o) false (is_fee_version token_version))).

Fixpoint rfold {A D} (f : D -> A -> result D) (l : list A) (d : D) : result D :=
  match l with
  | [] => Ok d
  | x :: l => let? d := f d x in rfold f l d
  end.

(** [Transaction._get_token_info_from_inputs] with the override of
    [TokenCreationTransaction] *)
Definition _get_token_info_from_inputs (nc_block_storage : B) (t : vertex) : result TokenInfoDict :=
  let token_dict := mkDict [(HATHOR_TOKEN_UID, new_info (Some NATIVE))] 0 in
  let? token_dict := rfold (input_step nc_block_storage) (v_inputs t) token_dict in
  if bool_decide (v_version t = TOKEN_CREATION_TRANSACTION)
  then Ok (set_entry token_dict (v_hash t) (mkInfo (Some (v_token_version t)) 0 true true 0 0))
  else Ok token_dict.

(** ** Nano-contract actions *)

Inductive NCAction : Type :=
| NCDepositAction (token_uid : bytes) (amount : Z)
| NCWithdrawalAction (token_uid : bytes) (amount : Z)
| NCGrantAuthorityAction (token_uid : bytes) (mint melt : bool)
| NCAcquireAuthorityAction (token_uid : bytes) (mint melt : bool).

Definition action_token (a : NCAction) : bytes :=
  match a with
  | NCDepositAction u _ | NCWithdrawalAction u _ | NCGrantAuthorityAction u _ _ | NCAcquireAuthorityAction u _ _ => u
  end.

(** [BaseAction.type] *)
Definition nc_action_type (a : NCAction) : NCActionType :=
  match a with
  | NCDepositAction _ _ => ACT_DEPOSIT
  | NCWithdrawalAction _ _ => ACT_WITHDRAWAL
  | NCGrantAuthorityAction _ _ _ => ACT_GRANT_AUTHORITY
  | NCAcquireAuthorityAction _ _ _ => ACT_ACQUIRE_AUTHORITY
  end.

(** [_validate_authorities], then the constructor with its [__post_init__] *)
Definition authority_action (make : bytes -> bool -> bool -> NCAction) (token_uid : bytes) (amount : Z) : result NCAction :=
  if ALL_AUTHORITIES <? amount then Err NCInvalidAction
  else if bool_decide (token_uid = HATHOR_TOKEN_UID) then Err NCInvalidAction
  else Ok (make token_uid (0 <? Z.land amount TOKEN_MINT_MASK) (0 <? Z.land amount TOKEN_MELT_MASK)).

Definition to_nc_action (t : vertex) (a : NanoHeaderAction) : result NCAction :=
  let? token_uid := match get_token_uid t (act_token_index a) with
    | Err e => Err (if issubclass_exn e IndexError then NCInvalidAction else e)
    | r => r
    end in
  match act_type a with
  | ACT_DEPOSIT => Ok (NCDepositAction token_uid (act_amount a))
  | ACT_WITHDRAWAL => Ok (NCWithdrawalAction token_uid (act_amount a))
  | ACT_GRANT_AUTHORITY => authority_action NCGrantAuthorityAction token_uid (act_amount a)
  | ACT_ACQUIRE_AUTHORITY => authority_action NCAcquireAuthorityAction token_uid (act_amount a)
  end.

Fixpoint rmap {A C} (f : A -> result C) (l : list A) : result (list C) :=
  match l with
  | [] => Ok []
  | x :: l => let? y := f x in let? ys := rmap f l in Ok (y :: ys)
  end.

(** [NanoHeader.get_actions] *)
Definition get_actions (t : vertex) (h : NanoHeader) : result (list NCAction) := rmap (to_nc_action t) (nc_actions h).

(** the [verification_rule] of the four classes of [balance_rules.py] *)
Definition deposit_verification_rule (u : bytes) (n : Z) (d : TokenInfoDict) : result TokenInfoDict :=
  match od_get (entries d) u with
  | None => Err KeyError
  | Some i => Ok (set_entry d u (add_amount i n (is_fee_version (version i)) false))
  end.

Definition withdrawal_verification_rule (u : bytes) (n : Z) (d : TokenInfoDict) : result TokenInfoDict :=
  match od_get (entries d) u with
  | None => Err KeyError
  | Some i => Ok (set_entry d u (add_amount i (- n) false (is_fee_version (version i))))
  end.

Definition grant_verification_rule (u : bytes) (mint melt : bool) (d : TokenInfoDict) : result TokenInfoDict :=
  if bool_decide (u = HATHOR_TOKEN_UID) then Err AssertionError
  else match od_get (entries d) u with
  | None => Err KeyError
  | Some i =>
      if mint && negb (info_can_mint i) then Err NCInvalidAction
      else if melt && negb (info_can_melt i) then Err NCInvalidAction
      else Ok d
  end.

Definition acquire_verification_rule (u : bytes) (mint melt : bool) (d : TokenInfoDict) : result TokenInfoDict :=
  if bool_decide (u = HATHOR_TOKEN_UID) then Err AssertionError
  else match od_get (entries d) u with
  | None => Err KeyError
  | Some i => Ok (set_entry d u (add_authorities i mint melt))
  end.

(** [BalanceRules.get_rules(settings, action).verification_rule(token_dict)] *)
Definition verification_rule (a : NCAction) (d : TokenInfoDict) : result TokenInfoDict :=
  match a with
  | NCDepositAction u n => deposit_verification_rule u n d
  | NCWithdrawalAction u n => withdrawal_verification_rule u n d
  | NCGrantAuthorityAction u mint melt => grant_verification_rule u mint melt d
  | NCAcquireAuthorityAction u mint melt => acquire_verification_rule u mint melt d
  end.

(** one turn of the loop of [_update_token_info_from_nano_actions] *)
Definition action_step (nc_block_storage : B) (d : TokenInfoDict) (a : NCAction) : result TokenInfoDict :=
  let? d := match od_get (entries d) (action_token a) with
    | Some _ => Ok d
    | None =>
        let? v := get_token_version nc_block_storage (action_token a) in
        Ok (set_entry d (action_token a) (new_info v))
    end in
  verification_rule a d.

Definition _update_token_info_from_nano_actions (nc_block_storage : B) (t : vertex) (d : TokenInfoDict) :
    result TokenInfoDict :=
  if is_nano_contract t then
    match get_nano_header t with
    | None => Ok d
    | Some h => let? actions := get_actions t h in rfold (action_step nc_block_storage) actions d
    end
  else Ok d.

(** ** Outputs *)

Definition output_step (t : vertex) (d : TokenInfoDict) (o : TxOutput) : result TokenInfoDict :=
  let? token_uid := get_token_uid t (get_token_index o) in
  match od_get (entries d) token_uid with
  | None => Err InvalidToken
  | Some i =>
      if can_mint_token o && negb (info_can_mint i) then Err InvalidToken
      else if can_melt_token o && negb (info_can_melt i) then Err InvalidToken
      else if is_token_authority o then
        (if ALL_AUTHORITIES <? out_value o then Err InvalidToken else Ok d)
      else Ok (set_entry d token_uid (add_amount i (out_value o) (is_fee_version (version i)) false))
  end.

Definition _update_token_info_from_outputs (t : vertex) (d : TokenInfoDict) : result TokenInfoDict :=
  rfold (output_step t) (v_outputs t) d.

(** ** Fees *)

(** [FeeHeader.get_fees] *)
Definition get_fees (t : vertex) (fees : list FeeHeaderEntry) : result (list (bytes * Z)) :=
  rmap (fun f => let? u := get_token_uid t (fee_token_index f) in Ok (u, fee_amount f)) fees.

Definition fee_in_htr (fee : bytes * Z) : result Z :=
  if bool_decide (fst fee = HATHOR_TOKEN_UID) then Ok (snd fee)
  else get_deposit_token_withdraw_amount TOKEN_DEPOSIT_PERCENTAGE (snd fee).

(** [FeeHeader.total_fee_amount] *)
Definition total_fee_amount (t : vertex) (fees : list FeeHeaderEntry) : result Z :=
  let? fees := get_fees t fees in
  rfold (fun total fee => let? n := fee_in_htr fee in Ok (total + n)) fees 0.

Definition fee_step (d : TokenInfoDict) (fee : bytes * Z) : result TokenInfoDict :=
  match od_get (entries d) (fst fee) with
  | None => Err InvalidToken
  | Some i =>
      if is_fee_version (version i) then Err InvalidToken
      else Ok (set_entry d (fst fee) (add_amount i (snd fee) false false))
  end.

Definition _update_token_info_from_fees (t : vertex) (d : TokenInfoDict) : result TokenInfoDict :=
  if has_fees t then
    match get_fee_header t with
    | None => Ok d
    | Some fee_header =>
        let? fees := get_fees t fee_header in
        let? total := total_fee_amount t fee_header in
        rfold fee_step fees (mkDict (entries d) total)
    end
  else Ok d.

Definition get_complete_token_info (nc_block_storage : B) (t : vertex) : result TokenInfoDict :=
  let? token_dict := _get_token_info_from_inputs nc_block_storage t in
  let? token_dict := _update_token_info_from_nano_actions nc_block_storage t token_dict in
  let? token_dict := _update_token_info_from_outputs t token_dict in
  _update_token_info_from_fees t token_dict.

(** * [TransactionVerifier.verify_sum] *)

Definition _check_token_permissions (token_uid : bytes) (i : TokenInfo) : result unit :=
  if bool_decide (version i = Some NATIVE) then
    if bool_decide (token_uid = HATHOR_TOKEN_UID) && negb (info_can_mint i) && negb (info_can_melt i)
    then Ok tt else Err AssertionError
  else if bool_decide (token_uid = HATHOR_TOKEN_UID) then Err AssertionError
  else if has_been_melted i && negb (info_can_melt i) then Err ForbiddenMelt
  else if has_been_minted i && negb (info_can_mint i) then Err ForbiddenMint
  else Ok tt.

(** [withdraw], [deposit] and [has_nonexistent_tokens] *)
Definition sum_state : Type := Z * Z * bool.

Definition sum_step (allow_nonexistent_tokens : bool) (s : sum_state) (e : bytes * TokenInfo) : result sum_state :=
  let '(withdraw, deposit, missing) := s in
  let '(token_uid, i) := e in
  let? _ := _check_token_permissions token_uid i in
  match version i with
  | None => if allow_nonexistent_tokens then Ok (withdraw, deposit, true) else Err TokenNotFound
  | Some NATIVE | Some FEE => Ok s
  | Some DEPOSIT =>
      let? w := if has_been_melted i
        then get_deposit_token_withdraw_amount TOKEN_DEPOSIT_PERCENTAGE (amount i) else Ok 0 in
      let? p := if has_been_minted i
        then get_deposit_token_deposit_amount TOKEN_DEPOSIT_PERCENTAGE (amount i) else Ok 0 in
      Ok (withdraw + w, deposit + p, missing)
  end.

Definition verify_sum (d : TokenInfoDict) (allow_nonexistent_tokens : bool) : result unit :=
  let? s := rfold (sum_step allow_nonexistent_tokens) (entries d) (0, 0, false) in
  let '(withdraw, deposit, missing) := s in
  let htr_expected_amount := withdraw - deposit in
  match od_get (entries d) HATHOR_TOKEN_UID with
  | None => Err KeyError
  | Some htr_info =>
      if amount htr_info <? htr_expected_amount then Err InputOutputMismatch
      else if missing : bool then Ok tt
      else if negb (calculate_fee d =? fees_from_fee_header d) then Err InputOutputMismatch
      else if htr_expected_amount <? amount htr_info then Err InputOutputMismatch
      else if amount htr_info =? htr_expected_amount then Ok tt else Err AssertionError
  end.
End token_info.
