(* ===== verification/TokenInfoTheory.v ===== *)
(** What the token dictionary of a transaction contains, and what [verify_sum] then
    guarantees: every token is balanced or its authority is present, and the HTR paid
    matches the deposits, withdrawals and fees. *)

From stdpp Require Import base list.
From Stdlib Require Import ZArith Lia Floats.SpecFloat.
From S2P Require Import Prelude PyInt PyValue NCTypes PatriciaTrie BlockStorage PyFloat ScriptCode ScriptVM.
From S2P Require Import TxStruct TokenInfo.

Local Open Scope Z_scope.
Local Open Scope py_scope.

(** * Folds *)

Definition sumz {A} (g : A -> Z) (l : list A) : Z := foldr (fun x s => g x + s) 0 l.

Lemma sumz_app {A} (g : A -> Z) l k : sumz g (l ++ k) = sumz g l + sumz g k.
Proof. induction l as [|x l IH]; simpl; [done|]. rewrite IH. lia. Qed.

Lemma fold_left_sumz {A} (g : A -> Z) l : forall n, fold_left (fun s x => s + g x) l n = n + sumz g l.
Proof. induction l as [|x l IH]; intros n; simpl; [lia|]. rewrite IH. lia. Qed.

Lemma rfold_inv {A D} (step : D -> A -> result D) (P : D -> Prop) l : forall d d',
  (forall d x d', step d x = Ok d' -> P d -> P d') -> rfold step l d = Ok d' -> P d -> P d'.
Proof.
  induction l as [|x l IH]; intros d d' Hs H HP; simpl in H; [by injection H as <-|].
  inv_rok H. eapply IH; [done|done|]. by eapply Hs.
Qed.

(** * The dictionary seen by token *)

(** amount, chargeable outputs and inputs, authorities *)
Record view : Type := mkView { vw_amount : Z; vw_outs : Z; vw_ins : Z; vw_mint : bool; vw_melt : bool }.

Definition vzero : view := mkView 0 0 0 false false.
Definition vplus (v w : view) : view :=
  mkView (vw_amount v + vw_amount w) (vw_outs v + vw_outs w) (vw_ins v + vw_ins w)
    (vw_mint v || vw_mint w) (vw_melt v || vw_melt w).
Definition vsum {A} (g : A -> view) (l : list A) : view := foldr (fun x v => vplus (g x) v) vzero l.

Lemma vplus_assoc v w z : vplus v (vplus w z) = vplus (vplus v w) z.
Proof. unfold vplus; simpl. by rewrite !Z.add_assoc, !orb_assoc. Qed.

Lemma vplus_zero_r v : vplus v vzero = v.
Proof. destruct v. unfold vplus; simpl. by rewrite !Z.add_0_r, !orb_false_r. Qed.

Lemma vsum_fields {A} (g : A -> view) l :
  vsum g l = mkView (sumz (fun x => vw_amount (g x)) l) (sumz (fun x => vw_outs (g x)) l)
    (sumz (fun x => vw_ins (g x)) l) (existsb (fun x => vw_mint (g x)) l) (existsb (fun x => vw_melt (g x)) l).
Proof. induction l as [|x l IH]; simpl; [done|]. by rewrite IH. Qed.

Lemma rfold_view {A D} (step : D -> A -> result D) (P : D -> Prop) (f : D -> view) (g : A -> view) l : forall d d',
  (forall d x d', step d x = Ok d' -> P d -> P d' /\ f d' = vplus (f d) (g x)) ->
  rfold step l d = Ok d' -> P d -> P d' /\ f d' = vplus (f d) (vsum g l).
Proof.
  induction l as [|x l IH]; intros d d' Hs H HP; simpl in *; [injection H as <-; by rewrite vplus_zero_r|].
  inv_rok H. destruct (Hs _ _ _ Hm HP) as [HP' E]. destruct (IH _ _ Hs H HP') as [? ->]. split; [done|].
  by rewrite E, vplus_assoc.
Qed.

Definition info_view (i : TokenInfo) : view :=
  mkView (amount i) (chargeable_outputs i) (chargeable_inputs i) (info_can_mint i) (info_can_melt i).

Definition dict_view (u : bytes) (d : TokenInfoDict) : view :=
  match od_get (entries d) u with Some i => info_view i | None => vzero end.

Lemma view_set d v i u :
  dict_view u (set_entry d v i) = if bool_decide (v = u) then info_view i else dict_view u d.
Proof.
  unfold dict_view, set_entry. simpl. case_bool_decide as E.
  - subst. by rewrite od_get_set_eq.
  - by rewrite od_get_set_ne.
Qed.

Lemma view_add i n outs ins :
  info_view (add_amount i n outs ins) = vplus (info_view i) (mkView n (Z.b2z outs) (Z.b2z ins) false false).
Proof. unfold vplus, info_view; simpl. by rewrite !orb_false_r. Qed.

Lemma view_authorities i mint melt :
  info_view (add_authorities i mint melt) = vplus (info_view i) (mkView 0 0 0 mint melt).
Proof. unfold vplus, info_view; simpl. by rewrite !Z.add_0_r. Qed.

(** a step that changes the entry of one token by [w] *)
Lemma view_change d v i j w u : od_get (entries d) v = Some i \/ (od_get (entries d) v = None /\ info_view i = vzero) ->
  info_view j = vplus (info_view i) w ->
  dict_view u (set_entry d v j) = vplus (dict_view u d) (if bool_decide (v = u) then w else vzero).
Proof.
  intros Hi Hj. rewrite view_set. case_bool_decide as E; [|by rewrite vplus_zero_r]. subst.
  unfold dict_view. destruct Hi as [-> |[-> Hz]]; rewrite Hj; [done|by rewrite Hz].
Qed.

(** a dictionary's keys are distinct *)
Definition dict_ok (d : TokenInfoDict) : Prop := NoDup (map fst (entries d)).

Lemma dict_ok_set d u i : dict_ok d -> dict_ok (set_entry d u i).
Proof. apply od_set_nodup. Qed.

Section theory.
Context {TS : TxSettings} {VS : VertexStorage} {B : Type} `{!TokenStore B}.
Context (b : B) (t : vertex).

(** * What the transaction does to each token *)

(** the token the transaction creates *)
Definition created (u : bytes) : bool :=
  bool_decide (v_version t = TOKEN_CREATION_TRANSACTION) && bool_decide (v_hash t = u).

(** the version of a token, for this transaction *)
Definition token_version_for (u : bytes) : option TokenVersion :=
  if created u then Some (v_token_version t)
  else match get_token_version b u with Ok v => v | Err _ => None end.

Definition spends (u : bytes) (i : TxInput) (f : TxOutput -> bool) : option TxOutput :=
  match spent_output i with
  | Ok (v, o) => if bool_decide (v = u) && f o then Some o else None
  | Err _ => None
  end.

Definition regular (o : TxOutput) : bool := negb (is_token_authority o).

(** units of [u] the input brings in; whether it brings an authority *)
Definition input_value (u : bytes) (i : TxInput) : Z :=
  match spends u i regular with Some o => out_value o | None => 0 end.
Definition input_mints (u : bytes) (i : TxInput) : bool :=
  match spends u i can_mint_token with Some _ => true | None => false end.
Definition input_melts (u : bytes) (i : TxInput) : bool :=
  match spends u i can_melt_token with Some _ => true | None => false end.

(** units the action moves from the transaction to a contract *)
Definition action_value (u : bytes) (a : NCAction) : Z :=
  if bool_decide (action_token a = u) then
    match a with NCDepositAction _ n => n | NCWithdrawalAction _ n => - n | _ => 0 end
  else 0.
Definition acquires (u : bytes) (a : NCAction) (pick : bool -> bool -> bool) : bool :=
  match a with NCAcquireAuthorityAction v mint melt => bool_decide (v = u) && pick mint melt | _ => false end.
Definition action_mints (u : bytes) (a : NCAction) : bool := acquires u a (fun mint _ => mint).
Definition action_melts (u : bytes) (a : NCAction) : bool := acquires u a (fun _ melt => melt).

Definition output_of (u : bytes) (o : TxOutput) : bool :=
  match get_token_uid t (get_token_index o) with Ok v => bool_decide (v = u) && regular o | Err _ => false end.
Definition output_value (u : bytes) (o : TxOutput) : Z := if output_of u o then out_value o else 0.

Definition fee_value (u : bytes) (f : bytes * Z) : Z := if bool_decide (fst f = u) then snd f else 0.

Definition or_nil {A} (r : result (list A)) : list A := match r with Ok l => l | Err _ => [] end.

Definition tx_actions : list NCAction :=
  if is_nano_contract t then match get_nano_header t with Some h => or_nil (get_actions t h) | None => [] end else [].

Definition tx_fees : list (bytes * Z) :=
  if has_fees t then match get_fee_header t with Some f => or_nil (get_fees t f) | None => [] end else [].

(** what leaves the transaction less what enters it: outputs, deposits into contracts and
    fees, less inputs and withdrawals *)
Definition balance (u : bytes) : Z :=
  sumz (output_value u) (v_outputs t) + sumz (action_value u) tx_actions + sumz (fee_value u) tx_fees -
  (if created u then 0 else sumz (input_value u) (v_inputs t)).

(** the authorities the transaction holds: from its inputs, from a contract, or because
    it creates the token *)
Definition may_mint (u : bytes) : bool :=
  (created u || existsb (input_mints u) (v_inputs t)) || existsb (action_mints u) tx_actions.
Definition may_melt (u : bytes) : bool :=
  (created u || existsb (input_melts u) (v_inputs t)) || existsb (action_melts u) tx_actions.

(** ** Chargeable outputs and inputs of fee-based tokens *)

Definition count_out (u : bytes) (o : TxOutput) : Z := Z.b2z (output_of u o).
Definition count_deposit (u : bytes) (a : NCAction) : Z :=
  match a with NCDepositAction v _ => Z.b2z (bool_decide (v = u)) | _ => 0 end.
Definition count_in (u : bytes) (i : TxInput) : Z :=
  match spends u i regular with Some _ => 1 | None => 0 end.
Definition count_withdrawal (u : bytes) (a : NCAction) : Z :=
  match a with NCWithdrawalAction v _ => Z.b2z (bool_decide (v = u)) | _ => 0 end.

Definition if_fee (u : bytes) (n : Z) : Z := if is_fee_version (token_version_for u) then n else 0.

Definition charged_outputs (u : bytes) : Z :=
  if_fee u (sumz (count_deposit u) tx_actions + sumz (count_out u) (v_outputs t)).
Definition charged_inputs (u : bytes) : Z :=
  if_fee u ((if created u then 0 else sumz (count_in u) (v_inputs t)) + sumz (count_withdrawal u) tx_actions).

(** * The four loops *)

(** every entry has the version of its token *)
Definition versions_ok (d : TokenInfoDict) : Prop :=
  dict_ok d /\ forall u i, od_get (entries d) u = Some i -> get_token_version b u = Ok (version i).

Lemma od_get_set d v j u : od_get (entries (set_entry d v j)) u =
  if bool_decide (v = u) then Some j else od_get (entries d) u.
Proof. simpl. case_bool_decide as E; [subst; apply od_get_set_eq|by apply od_get_set_ne]. Qed.

Lemma is_Some_set d v j u : is_Some (od_get (entries d) u) -> is_Some (od_get (entries (set_entry d v j)) u).
Proof. intros H. rewrite od_get_set. case_bool_decide; [by eexists|done]. Qed.

Definition input_view (u : bytes) (i : TxInput) : view :=
  mkView (- input_value u i) 0
    (if is_fee_version (match get_token_version b u with Ok v => v | Err _ => None end) then count_in u i else 0)
    (input_mints u i) (input_melts u i).

Lemma input_step_view u d i d' : input_step b d i = Ok d' -> versions_ok d ->
  versions_ok d' /\ dict_view u d' = vplus (dict_view u d) (input_view u i).
Proof.
  unfold input_step. intros H [Hd Hv]. inv_rok H. destruct a as [v o]. inv_rok H. rename a into tv. simpl in H.
  set (inf := default (new_info tv) (od_get (entries d) v)) in *.
  assert (Hi : od_get (entries d) v = Some inf \/ (od_get (entries d) v = None /\ info_view inf = vzero)).
  { unfold inf. destruct (od_get (entries d) v); [by left|by right]. }
  assert (Hvi : get_token_version b v = Ok (version inf)).
  { unfold inf. destruct (od_get (entries d) v) eqn:E; [by apply Hv|done]. }
  injection H as <-. set (j := if is_token_authority o then _ else _).
  assert (Hvj : version j = version inf) by (unfold j; by destruct (is_token_authority o)).
  split.
  - split; [by apply dict_ok_set|]. intros u' i'. rewrite od_get_set. case_bool_decide; [|apply Hv].
    intros [= <-]. subst. by rewrite Hvj.
  - erewrite view_change; [|exact Hi|].
    2:{ instantiate (1 := if is_token_authority o then mkView 0 0 0 (can_mint_token o) (can_melt_token o)
          else mkView (- out_value o) 0 (Z.b2z (is_fee_version tv)) false false).
        unfold j. destruct (is_token_authority o); [apply view_authorities|apply view_add]. }
    f_equal. unfold input_view, input_value, input_mints, input_melts, count_in, spends. rewrite Hm.
    case_bool_decide as E; simpl.
    + subst. rewrite Hm0. unfold regular. destruct (is_token_authority o) eqn:Ea; simpl.
      * destruct (can_mint_token o), (can_melt_token o); by destruct (is_fee_version tv).
      * unfold can_mint_token, can_melt_token. rewrite Ea. simpl. by destruct (is_fee_version tv).
    + unfold vzero. by destruct (is_fee_version (match get_token_version b u with Ok v => v | Err _ => None end)).
Qed.

(** with the token being created in place *)
Definition versions_for (d : TokenInfoDict) : Prop :=
  dict_ok d /\ is_Some (od_get (entries d) HATHOR_TOKEN_UID) /\
  (forall u, created u = true -> is_Some (od_get (entries d) u)) /\
  (forall u i, od_get (entries d) u = Some i ->
    version i = token_version_for u /\ (created u = false -> get_token_version b u = Ok (version i))).

(** changing an entry without its version *)
Lemma versions_for_set d v i j : versions_for d -> version j = version i ->
  od_get (entries d) v = Some i -> versions_for (set_entry d v j).
Proof.
  intros (Hd & Hh & Hc & Hv) Hj Hi. split; [by apply dict_ok_set|]. split; [|split].
  - by apply is_Some_set.
  - intros u Hu. by apply is_Some_set, Hc.
  - intros u i'. rewrite od_get_set. case_bool_decide; [|apply Hv]. intros [= <-]. subst. rewrite Hj. by apply Hv.
Qed.

Definition start_view (u : bytes) : view :=
  if created u then mkView 0 0 0 true true else vsum (input_view u) (v_inputs t).

Lemma created_true u : created u = true <-> v_version t = TOKEN_CREATION_TRANSACTION /\ v_hash t = u.
Proof. unfold created. by rewrite andb_true_iff, !bool_decide_eq_true. Qed.

Lemma inputs_view u d : _get_token_info_from_inputs b t = Ok d -> versions_for d /\ dict_view u d = start_view u.
Proof.
  unfold _get_token_info_from_inputs. intros H. inv_rok H. rename a into d0, Hm into Hf.
  set (d1 := mkDict [(HATHOR_TOKEN_UID, new_info (Some NATIVE))] 0) in *.
  assert (H1 : versions_ok d1).
  { split; [apply NoDup_singleton|]. intros u' i. unfold d1. cbn [od_get entries].
    destruct (decide (HATHOR_TOKEN_UID = u')) as [<-|Hne]; [|by rewrite bool_decide_eq_false_2].
    rewrite bool_decide_eq_true_2 by done. intros [= <-].
    unfold get_token_version. by rewrite bool_decide_eq_true_2. }
  assert (Hh : is_Some (od_get (entries d0) HATHOR_TOKEN_UID)).
  { eapply (rfold_inv _ (fun d => is_Some (od_get (entries d) HATHOR_TOKEN_UID))); [|exact Hf|by eexists].
    intros d' x d'' Hs Hi. unfold input_step in Hs. inv_rok Hs. destruct a. inv_rok Hs. injection Hs as <-. by apply is_Some_set. }
  destruct (rfold_view _ versions_ok (dict_view u) (input_view u) _ _ _ (input_step_view u) Hf H1) as [[Hd Hv] Hu].
  assert (E0 : dict_view u d1 = vzero).
  { unfold dict_view, d1. cbn [od_get entries]. by destruct (bool_decide (HATHOR_TOKEN_UID = u)). }
  rewrite E0 in Hu. change (vplus vzero ?v) with (vplus vzero v) in Hu.
  assert (Hz : forall v, vplus vzero v = v) by (by intros []). rewrite Hz in Hu.
  unfold start_view. case_bool_decide as E; injection H as <-.
  - split.
    + split; [by apply dict_ok_set|]. split; [|split].
      * by apply is_Some_set.
      * intros u' [_ ->]%created_true. rewrite od_get_set, bool_decide_eq_true_2 by done. by eexists.
      * intros u' i. rewrite od_get_set. unfold token_version_for. case_bool_decide as Eu.
        -- intros [= <-]. rewrite (proj2 (created_true u')) by done. done.
        -- intros Hi. destruct (created u') eqn:Ec; [by apply created_true in Ec as [_ ?]|].
           rewrite (Hv _ _ Hi). done.
    + rewrite view_set. unfold created. rewrite (bool_decide_eq_true_2 (v_version t = _)) by done. simpl.
      by case_bool_decide.
  - assert (Hn : forall u, created u = false) by (intros; unfold created; by rewrite bool_decide_eq_false_2).
    rewrite Hn. split; [|done]. split; [done|]. split; [done|]. split; [intros u'; by rewrite Hn|].
    intros u' i Hi. unfold token_version_for. by rewrite Hn, (Hv _ _ Hi).
Qed.

Definition action_view (u : bytes) (a : NCAction) : view :=
  mkView (action_value u a) (if_fee u (count_deposit u a)) (if_fee u (count_withdrawal u a))
    (action_mints u a) (action_melts u a).

Lemma if_fee_0 u : if_fee u 0 = 0.
Proof. unfold if_fee. by destruct (is_fee_version _). Qed.

Lemma if_fee_b2z u v : is_fee_version v = is_fee_version (token_version_for u) ->
  Z.b2z (is_fee_version v) = if_fee u 1.
Proof. intros E. unfold if_fee. rewrite <- E. by destruct (is_fee_version v). Qed.

Lemma rule_view u a d d' : verification_rule a d = Ok d' -> versions_for d ->
  versions_for d' /\ dict_view u d' = vplus (dict_view u d) (action_view u a).
Proof.
  intros H Hv.
  assert (Hchange : forall i j w, od_get (entries d) (action_token a) = Some i -> version j = version i ->
    info_view j = vplus (info_view i) w ->
    (if bool_decide (action_token a = u) then w else vzero) = action_view u a ->
    versions_for (set_entry d (action_token a) j) /\
    dict_view u (set_entry d (action_token a) j) = vplus (dict_view u d) (action_view u a)).
  { intros i j w Hi Hj Hw Ea. split; [by eapply versions_for_set|]. rewrite <- Ea. eapply view_change; [by left|done]. }
  assert (Hf : forall i, od_get (entries d) (action_token a) = Some i ->
    Z.b2z (is_fee_version (version i)) = if_fee (action_token a) 1).
  { intros i Hi. apply if_fee_b2z. by rewrite (proj1 (proj2 (proj2 (proj2 Hv)) _ _ Hi)). }
  unfold verification_rule, deposit_verification_rule, withdrawal_verification_rule, grant_verification_rule,
    acquire_verification_rule in H. destruct a as [v n|v n|v mint melt|v mint melt]; simpl in *.
  - destruct (od_get (entries d) v) as [i|] eqn:Ei; [|done]. injection H as <-. eapply Hchange; [done|done|apply view_add|].
    unfold action_view, action_value, action_mints, action_melts; simpl. rewrite (Hf i eq_refl).
    case_bool_decide; simpl; rewrite ?if_fee_0; by subst.
  - destruct (od_get (entries d) v) as [i|] eqn:Ei; [|done]. injection H as <-. eapply Hchange; [done|done|apply view_add|].
    unfold action_view, action_value, action_mints, action_melts; simpl. rewrite (Hf i eq_refl).
    case_bool_decide; simpl; rewrite ?if_fee_0; by subst.
  - destruct (bool_decide (v = HATHOR_TOKEN_UID)); [done|]. destruct (od_get (entries d) v) as [i|] eqn:Ei; [|done].
    destruct (mint && _); [done|]. destruct (melt && _); [done|]. injection H as <-. split; [done|].
    unfold action_view, action_value, action_mints, action_melts; simpl. rewrite !if_fee_0.
    case_bool_decide; by rewrite (vplus_zero_r _).
  - destruct (bool_decide (v = HATHOR_TOKEN_UID)); [done|]. destruct (od_get (entries d) v) as [i|] eqn:Ei; [|done]. injection H as <-.
    eapply Hchange; [done|done|apply view_authorities|].
    unfold action_view, action_value, action_mints, action_melts; simpl. rewrite !if_fee_0. by case_bool_decide.
Qed.

Lemma action_step_view u d a d' : action_step b d a = Ok d' -> versions_for d ->
  versions_for d' /\ dict_view u d' = vplus (dict_view u d) (action_view u a).
Proof.
  unfold action_step. intros H Hv. inv_rok H. rename a0 into d1.
  assert (H1 : versions_for d1 /\ dict_view u d1 = dict_view u d).
  { destruct (od_get (entries d) (action_token a)) eqn:E; [by injection Hm as <-|].
    inv_rok Hm. injection Hm as <-. destruct Hv as (Hd & Hh & Hc & Hv).
    assert (Hn : created (action_token a) = false).
    { destruct (created (action_token a)) eqn:Ec; [|done]. apply Hc in Ec as [? Ec]. by rewrite E in Ec. }
    split; [split; [by apply dict_ok_set|split; [|split]]|].
    - by apply is_Some_set.
    - intros u' Hu. by apply is_Some_set, Hc.
    - intros u' i. rewrite od_get_set. case_bool_decide as Eu; [|apply Hv]. intros [= <-]. subst.
      unfold token_version_for. by rewrite Hn, Hm0.
    - rewrite view_set. case_bool_decide as Eu; [|done]. subst. unfold dict_view. by rewrite E. }
  destruct H1 as [H1 <-]. by apply rule_view.
Qed.

Definition output_view (u : bytes) (o : TxOutput) : view :=
  mkView (output_value u o) (if_fee u (count_out u o)) 0 false false.

Lemma output_step_view u d o d' : output_step t d o = Ok d' -> versions_for d ->
  versions_for d' /\ dict_view u d' = vplus (dict_view u d) (output_view u o).
Proof.
  unfold output_step. intros H Hv. inv_rok H. rename a into v.
  unfold output_view, output_value, count_out, output_of. rewrite Hm. unfold regular.
  destruct (od_get (entries d) v) as [i|] eqn:Ei; [|done]. destruct (can_mint_token o && _); [done|].
  destruct (can_melt_token o && _); [done|]. destruct (is_token_authority o).
  - destruct (ALL_AUTHORITIES <? out_value o); [done|]. injection H as <-. split; [done|].
    rewrite andb_false_r. simpl. by rewrite if_fee_0, (vplus_zero_r _).
  - injection H as <-. split; [by apply (versions_for_set d v i)|]. erewrite view_change; [|by left|apply view_add].
    rewrite andb_true_r. rewrite (if_fee_b2z v) by (by rewrite (proj1 (proj2 (proj2 (proj2 Hv)) _ _ Ei))).
    case_bool_decide; simpl; rewrite ?if_fee_0; by subst.
Qed.

Definition fee_view (u : bytes) (f : bytes * Z) : view := mkView (fee_value u f) 0 0 false false.

Lemma fee_step_view u d f d' : fee_step d f = Ok d' -> versions_for d ->
  versions_for d' /\ dict_view u d' = vplus (dict_view u d) (fee_view u f).
Proof.
  unfold fee_step. intros H Hv. destruct f as [v n]; simpl in *.
  destruct (od_get (entries d) v) as [i|] eqn:Ei; [|done]. destruct (is_fee_version _); [done|]. injection H as <-.
  split; [by apply (versions_for_set d v i)|]. erewrite view_change; [|by left|apply view_add].
  unfold fee_view, fee_value. simpl. by case_bool_decide.
Qed.

(** * The complete dictionary *)

Lemma sumz_ext {A} (g h : A -> Z) l : (forall x, g x = h x) -> sumz g l = sumz h l.
Proof. intros E. induction l as [|x l IH]; simpl; [done|]. by rewrite IH, E. Qed.

Lemma sumz_if_fee {A} u (g : A -> Z) l : sumz (fun x => if_fee u (g x)) l = if_fee u (sumz g l).
Proof.
  unfold if_fee. destruct (is_fee_version _); [done|]. induction l as [|x l IH]; simpl; [done|]. by rewrite IH.
Qed.

Lemma sumz_opp {A} (g : A -> Z) l : sumz (fun x => - g x) l = - sumz g l.
Proof. induction l as [|x l IH]; simpl; [done|]. rewrite IH. lia. Qed.

Lemma sumz_zero {A} (l : list A) : sumz (fun _ => 0) l = 0.
Proof. induction l as [|x l IH]; simpl; [done|]. by rewrite IH. Qed.

Lemma existsb_false {A} (l : list A) : existsb (fun _ => false) l = false.
Proof. by induction l. Qed.

Lemma start_view_eq u : start_view u =
  mkView (- (if created u then 0 else sumz (input_value u) (v_inputs t))) 0
    (if_fee u (if created u then 0 else sumz (count_in u) (v_inputs t)))
    (created u || existsb (input_mints u) (v_inputs t)) (created u || existsb (input_melts u) (v_inputs t)).
Proof.
  unfold start_view. destruct (created u) eqn:E; [by rewrite if_fee_0|].
  rewrite vsum_fields. unfold input_view; simpl. rewrite sumz_opp, sumz_zero. f_equal.
  rewrite <- sumz_if_fee. apply sumz_ext. intros x. unfold if_fee, token_version_for. by rewrite E.
Qed.

(** the HTR value of the fee header *)
Definition tx_fee_total : Z :=
  if has_fees t then match get_fee_header t with
    | Some f => match total_fee_amount t f with Ok n => n | Err _ => 0 end
    | None => 0
    end else 0.

Lemma complete_view u d : get_complete_token_info b t = Ok d -> versions_for d /\
  dict_view u d = mkView (balance u) (charged_outputs u) (charged_inputs u) (may_mint u) (may_melt u).
Proof.
  unfold get_complete_token_info. intros H. do 3 inv_rok H. rename a into d0, a0 into d1, a1 into d2.
  destruct (inputs_view u d0 Hm) as [V0 E0].
  assert (H1 : versions_for d1 /\ dict_view u d1 = vplus (dict_view u d0) (vsum (action_view u) tx_actions)).
  { unfold _update_token_info_from_nano_actions, tx_actions in *. destruct (is_nano_contract t).
    - destruct (get_nano_header t) as [h|]; [|injection Hm0 as <-; by rewrite (vplus_zero_r _)].
      inv_rok Hm0. rewrite Hm2. simpl. eapply rfold_view; [apply action_step_view|done|done].
    - injection Hm0 as <-. by rewrite (vplus_zero_r _). }
  destruct H1 as [V1 E1].
  destruct (rfold_view _ _ _ _ _ _ _ (output_step_view u) Hm1 V1) as [V2 E2].
  assert (H3 : versions_for d /\ dict_view u d = vplus (dict_view u d2) (vsum (fee_view u) tx_fees)).
  { unfold _update_token_info_from_fees, tx_fees in *. destruct (has_fees t).
    - destruct (get_fee_header t) as [f|]; [|injection H as <-; by rewrite (vplus_zero_r _)].
      do 2 inv_rok H. rewrite Hm2. simpl.
      exact (rfold_view _ _ _ _ _ _ _ (fee_step_view u) H (V2 : versions_for (mkDict (entries d2) a0))).
    - injection H as <-. by rewrite (vplus_zero_r _). }
  destruct H3 as [V3 ->]. split; [done|]. rewrite E2, E1, E0, start_view_eq, !vsum_fields. unfold vplus.
  cbn [vw_amount vw_outs vw_ins vw_mint vw_melt action_view output_view fee_view].
  rewrite !existsb_false, !orb_false_r, !sumz_if_fee, !sumz_zero.
  assert (Ha : forall n m, if_fee u (n + m) = if_fee u n + if_fee u m).
  { intros. unfold if_fee. by destruct (is_fee_version _). }
  unfold balance, charged_outputs, charged_inputs. rewrite !Ha. f_equal; try reflexivity; [|lia..].
  change (fun x => action_value u x) with (action_value u). change (fun x => output_value u x) with (output_value u).
  change (fun x => fee_value u x) with (fee_value u). lia.
Qed.

Lemma fee_header_kept d : get_complete_token_info b t = Ok d -> fees_from_fee_header d = tx_fee_total.
Proof.
  unfold get_complete_token_info. intros H. do 3 inv_rok H. rename a into d0, a0 into d1, a1 into d2.
  assert (K : forall {A} (step : TokenInfoDict -> A -> result TokenInfoDict) n l d d',
    (forall d x d', step d x = Ok d' -> fees_from_fee_header d' = fees_from_fee_header d) ->
    rfold step l d = Ok d' -> fees_from_fee_header d = n -> fees_from_fee_header d' = n).
  { intros A step n l d1' d2' Hs. eapply (rfold_inv step (fun d => fees_from_fee_header d = n)).
    intros d3 x d4 H3 <-. by eapply Hs. }
  assert (F0 : fees_from_fee_header d0 = 0).
  { unfold _get_token_info_from_inputs in Hm. inv_rok Hm.
    assert (fees_from_fee_header a = 0).
    { eapply K; [|exact Hm2|done]. intros d3 x d4 Hs. unfold input_step in Hs. inv_rok Hs. destruct a0.
      inv_rok Hs. by injection Hs as <-. }
    destruct (bool_decide _); by injection Hm as <-. }
  assert (F1 : fees_from_fee_header d1 = 0).
  { unfold _update_token_info_from_nano_actions in Hm0. destruct (is_nano_contract t); [|by injection Hm0 as <-].
    destruct (get_nano_header t); [|by injection Hm0 as <-]. inv_rok Hm0. eapply K; [|exact Hm0|done].
    intros d3 x d4 Hs. unfold action_step in Hs. inv_rok Hs.
    assert (E : fees_from_fee_header a0 = fees_from_fee_header d3).
    { destruct (od_get _ _); [by injection Hm3 as <-|]. inv_rok Hm3. by injection Hm3 as <-. }
    rewrite <- E. unfold verification_rule, deposit_verification_rule, withdrawal_verification_rule,
      grant_verification_rule, acquire_verification_rule in Hs. by repeat case_match; simplify_eq. }
  assert (F2 : fees_from_fee_header d2 = 0).
  { eapply K; [|exact Hm1|done]. intros d3 x d4 Hs. unfold output_step in Hs. inv_rok Hs.
    by repeat case_match; simplify_eq. }
  unfold _update_token_info_from_fees, tx_fee_total in *. destruct (has_fees t); [|by injection H as <-].
  destruct (get_fee_header t) as [f|]; [|by injection H as <-]. do 2 inv_rok H. rewrite Hm3.
  eapply K; [|exact H|done]. intros d3 x d4 Hs. unfold fee_step in Hs. by repeat case_match; simplify_eq.
Qed.
End theory.
