(* ===== verification/VerifySum.v ===== *)
(** The guarantees of [verify_sum] on the token dictionary of a transaction, stated on the
    transaction itself. *)

From stdpp Require Import base list.
From Stdlib Require Import ZArith Lia Floats.SpecFloat.
From S2P Require Import Prelude PyInt PyValue NCTypes PatriciaTrie BlockStorage PyFloat ScriptCode ScriptVM.
From S2P Require Import TxStruct TokenInfo TokenInfoTheory.

Local Open Scope Z_scope.
Local Open Scope py_scope.

(** the HTR a change of [n] units in a deposit token's supply gives back or costs: the
    quotient is rounded down, so melting ([n < 0]) returns one percent rounded down and
    minting costs one percent rounded up *)
Definition htr_value (n : Z) : Z := (- n) / 100.

Section verify_sum.
Context {TS : TxSettings} {VS : VertexStorage} {B : Type} `{!TokenStore B}.

(** ** The loop of [verify_sum] *)

Lemma permissions_ok u i : _check_token_permissions u i = Ok tt ->
  (u = HATHOR_TOKEN_UID <-> version i = Some NATIVE) /\
  (u <> HATHOR_TOKEN_UID -> (0 < amount i -> info_can_mint i = true) /\ (amount i < 0 -> info_can_melt i = true)).
Proof.
  unfold _check_token_permissions, has_been_melted, has_been_minted. intros H.
  case_bool_decide as E1; [case_bool_decide as E2; [|done]; by split|].
  case_bool_decide as E2; [done|]. split; [done|]. intros _.
  destruct (Z.ltb_spec (amount i) 0), (info_can_melt i); simpl in H; try done;
    destruct (Z.ltb_spec 0 (amount i)), (info_can_mint i); simpl in H; try done; (split; [intros|intros]; done || lia).
Qed.

(** what an entry adds to [withdraw - deposit] *)
Definition entry_htr (e : bytes * TokenInfo) : Z :=
  match version (snd e) with Some DEPOSIT => htr_value (amount (snd e)) | _ => 0 end.

Definition entry_missing (e : bytes * TokenInfo) : bool :=
  match version (snd e) with None => true | Some _ => false end.

Hypothesis percentage : TOKEN_DEPOSIT_PERCENTAGE = float_0_01.

Lemma sum_step_ok allow w p m e s' : sum_step allow (w, p, m) e = Ok s' -> Z.abs (amount (snd e)) < 2 ^ 53 ->
  let '(w', p', m') := s' in
  _check_token_permissions (fst e) (snd e) = Ok tt /\ (entry_missing e = true -> allow = true) /\
  w' - p' = w - p + entry_htr e /\ m' = m || entry_missing e.
Proof using percentage.
  destruct e as [u i]. simpl. intros H Hn. inv_rok H. destruct a. unfold entry_htr, entry_missing. simpl.
  destruct (version i) as [[]|] eqn:Ev.
  - injection H as <-. rewrite orb_false_r. repeat split; done || lia.
  - rewrite percentage in H. unfold has_been_melted, has_been_minted in H.
    unfold htr_value.
    destruct (Z.ltb_spec (amount i) 0).
    + rewrite withdraw_amount_exact in H by done. cbn [rbind] in H. destruct (Z.ltb_spec 0 (amount i)); [lia|].
      injection H as <-. rewrite orb_false_r, Z.abs_neq by lia. repeat split; done || lia.
    + cbn [rbind] in H. destruct (Z.ltb_spec 0 (amount i)).
      * rewrite deposit_amount_exact in H by done. cbn [rbind] in H. injection H as <-. rewrite orb_false_r.
        rewrite Z.abs_eq by lia. repeat split; done || lia.
      * assert (amount i = 0) as -> by lia. injection H as <-. rewrite orb_false_r. change (- 0 / 100) with 0. repeat split; done || lia.
  - injection H as <-. rewrite orb_false_r. repeat split; done || lia.
  - destruct allow; [|done]. injection H as <-. rewrite orb_true_r. repeat split; done || lia.
Qed.

Lemma sum_fold_ok allow l : forall w p m w' p' m',
  Forall (fun e => Z.abs (amount (snd e)) < 2 ^ 53) l ->
  rfold (sum_step allow) l (w, p, m) = Ok (w', p', m') ->
  Forall (fun e => _check_token_permissions (fst e) (snd e) = Ok tt /\ (entry_missing e = true -> allow = true)) l /\
  w' - p' = w - p + sumz entry_htr l /\ m' = m || existsb entry_missing l.
Proof using percentage.
  induction l as [|e l IH]; intros w p m w' p' m' Hn H; cbn [rfold sumz foldr existsb] in *.
  - injection H as <- <- <-. rewrite orb_false_r. split; [done|]. split; [lia|done].
  - apply Forall_cons in Hn as [Hn Hl]. inv_rok H. destruct a as [[w1 p1] m1].
    destruct (sum_step_ok _ _ _ _ _ _ Hm Hn) as (Hp & Ha & E & ->).
    destruct (IH _ _ _ _ _ _ Hl H) as (Hf & E' & ->). fold (sumz entry_htr l).
    split; [by constructor|]. split; [lia|by rewrite orb_assoc].
Qed.

Lemma verify_sum_ok d allow : verify_sum d allow = Ok tt ->
  Forall (fun e => Z.abs (amount (snd e)) < 2 ^ 53) (entries d) ->
  Forall (fun e => _check_token_permissions (fst e) (snd e) = Ok tt /\ (entry_missing e = true -> allow = true))
    (entries d) /\
  exists htr, od_get (entries d) HATHOR_TOKEN_UID = Some htr /\ sumz entry_htr (entries d) <= amount htr /\
    (existsb entry_missing (entries d) = false ->
      amount htr = sumz entry_htr (entries d) /\ fees_from_fee_header d = sumz (fun e => entry_fee (snd e)) (entries d)).
Proof using percentage.
  intros H Hn. unfold verify_sum in H. inv_rok H. destruct a as [[w p] m].
  destruct (sum_fold_ok _ _ _ _ _ _ _ _ Hn Hm) as (Hf & E & ->). split; [done|].
  destruct (od_get (entries d) HATHOR_TOKEN_UID) as [htr|]; [|done]. exists htr. split; [done|].
  destruct (Z.ltb_spec (amount htr) (w - p)); [done|]. split; [lia|]. simpl in H. intros Hx. rewrite Hx in H.
  unfold calculate_fee in H. rewrite fold_left_sumz in H.
  destruct (Z.eqb_spec (0 + sumz (fun e => entry_fee (snd e)) (entries d)) (fees_from_fee_header d)); [|done].
  simpl in H. destruct (Z.ltb_spec (w - p) (amount htr)); [done|]. lia.
Qed.
End verify_sum.

Section claims.
Context {TS : TxSettings} {VS : VertexStorage} {B : Type} `{!TokenStore B}.
Context (b : B) (t : vertex).

(** the entry of a token, read off the transaction *)
Definition info_of (u : bytes) : TokenInfo :=
  mkInfo (token_version_for b t u) (balance t u) (may_mint t u) (may_melt t u)
    (charged_outputs b t u) (charged_inputs b t u).

Lemma complete_entry d u : get_complete_token_info b t = Ok d ->
  match od_get (entries d) u with
  | Some i => i = info_of u
  | None => balance t u = 0 /\ may_mint t u = false /\ may_melt t u = false
  end.
Proof.
  intros H. destruct (complete_view b t u d H) as [(_ & _ & _ & Hv) E]. unfold dict_view in E.
  destruct (od_get (entries d) u) as [i|] eqn:Ei.
  - destruct (Hv _ _ Ei) as [Ev _]. destruct i. unfold info_of, info_view in *. simpl in *. by simplify_eq.
  - unfold vzero in E. by simplify_eq.
Qed.

Lemma complete_entries d : get_complete_token_info b t = Ok d ->
  entries d = map (fun u => (u, info_of u)) (map fst (entries d)) /\ NoDup (map fst (entries d)).
Proof.
  intros H. destruct (complete_view b t HATHOR_TOKEN_UID d H) as [(Hd & _) _]. split; [|done].
  assert (Ha : forall u i, (u, i) ∈ entries d -> i = info_of u).
  { intros u i Hin. pose proof (complete_entry d u H) as E. by rewrite (od_get_elem _ _ _ Hd Hin) in E. }
  revert Ha. clear. induction (entries d) as [|[u i] l IH]; intros Ha; simpl; [done|].
  rewrite (Ha u i) by (by left). f_equal. apply IH. intros u' i' Hin. apply Ha. by right.
Qed.

(** C20: the token dictionary is exact: for every token it holds what leaves the transaction
    (outputs, deposits, fees) less what enters it (inputs, withdrawals), the authorities
    that inputs, contracts or the creation of the token give, the token's version, and the
    numbers of outputs and inputs a fee-based token is charged for; a token without an
    entry is not moved at all. *)
Theorem complete_token_info_spec d : get_complete_token_info b t = Ok d ->
  fees_from_fee_header d = tx_fee_total t /\
  forall u, match od_get (entries d) u with
    | Some i => i = info_of u
    | None => balance t u = 0 /\ may_mint t u = false /\ may_melt t u = false
    end.
Proof. intros H. split; [by eapply fee_header_kept|]. intros u. by apply complete_entry. Qed.

(** the HTR a token's change of supply is worth, and the fee it is charged *)
Definition htr_change (u : bytes) : Z :=
  match token_version_for b t u with Some DEPOSIT => htr_value (balance t u) | _ => 0 end.

Definition fee_due (u : bytes) : Z :=
  if 0 <? charged_outputs b t u then charged_outputs b t u * FEE_PER_OUTPUT
  else if 0 <? charged_inputs b t u then FEE_PER_OUTPUT else 0.

Lemma sumz_map {A C} (g : C -> Z) (f : A -> C) l : sumz g (map f l) = sumz (fun x => g (f x)) l.
Proof. induction l as [|x l IH]; simpl; [done|]. by rewrite IH. Qed.

(** what a transaction may do to value: a token other than HTR gains units only with the
    authority to mint and loses units only with the authority to melt; HTR does not fall
    short of the change that the minted and melted deposit tokens cost and return, and is
    exactly that change, with the fee header paying exactly the fees due, unless tokens that
    do not exist are allowed and the transaction moves one *)
Definition value_conserved (allow : bool) : Prop :=
  (forall u, u <> HATHOR_TOKEN_UID ->
    (0 < balance t u -> may_mint t u = true) /\ (balance t u < 0 -> may_melt t u = true)) /\
  exists tokens, NoDup tokens /\ (forall u, balance t u <> 0 -> u ∈ tokens) /\
    sumz htr_change tokens <= balance t HATHOR_TOKEN_UID /\
    (allow = false \/ (forall u, u ∈ tokens -> token_version_for b t u <> None) ->
     balance t HATHOR_TOKEN_UID = sumz htr_change tokens /\ tx_fee_total t = sumz fee_due tokens).

Lemma verify_sum_conserves d allow : TOKEN_DEPOSIT_PERCENTAGE = float_0_01 ->
  (forall u, Z.abs (balance t u) < 2 ^ 53) ->
  get_complete_token_info b t = Ok d -> verify_sum d allow = Ok tt -> value_conserved allow.
Proof.
  intros Hp Hb Hd Hs. destruct (complete_entries d Hd) as [He Hn].
  set (us := map fst (entries d)) in *.
  assert (Hbound : Forall (fun e => Z.abs (amount (snd e)) < 2 ^ 53) (entries d)).
  { rewrite He. apply Forall_map, Forall_forall. intros u _. apply Hb. }
  destruct (verify_sum_ok Hp d allow Hs Hbound) as (Hf & htr & Hh & Hle & Hx).
  pose proof (complete_entry d HATHOR_TOKEN_UID Hd) as Eh. rewrite Hh in Eh. subst htr.
  split.
  - intros u Hu. pose proof (complete_entry d u Hd) as E. destruct (od_get (entries d) u) as [i|] eqn:Ei.
    + subst i. apply od_get_in in Ei. rewrite Forall_forall in Hf. destruct (Hf _ Ei) as [Hc _].
      by apply (permissions_ok u (info_of u)).
    + destruct E as (-> & _). split; lia.
  - exists us. split; [done|]. split; [|split].
    + intros u Hu. pose proof (complete_entry d u Hd) as E. destruct (od_get (entries d) u) as [i|] eqn:Ei; [|tauto].
      apply od_get_in in Ei. unfold us. by apply (list_elem_of_fmap_2 fst _ (u, i)).
    + rewrite He, sumz_map in Hle. exact Hle.
    + intros Hk. assert (Hmiss : existsb entry_missing (entries d) = false).
      { destruct (existsb entry_missing (entries d)) eqn:E; [|done]. apply existsb_exists in E as (e & Hin & Em).
        rewrite Forall_forall in Hf. apply list_elem_of_In in Hin. destruct Hk as [->|Hk].
        - destruct (Hf e Hin) as [_ Ha]. by apply Ha in Em.
        - rewrite He in Hin. apply list_elem_of_fmap in Hin as (u & -> & Hu). apply Hk in Hu.
          unfold entry_missing in Em. simpl in Em. by destruct (token_version_for b t u). }
      destruct (Hx Hmiss) as [E1 E2]. rewrite (fee_header_kept b t d Hd) in E2. rewrite He, sumz_map in E1, E2.
      split; [exact E1|exact E2].
Qed.

End claims.

(** * An example: 10000 units of a deposit token minted for 100 HTR *)

Section demo.
Definition demo_settings : TxSettings :=
  {| FEE_PER_OUTPUT := 1; TOKEN_DEPOSIT_PERCENTAGE := float_0_01; MAX_NUM_INPUTS := 255; MAX_NUM_OUTPUTS := 255;
     MAX_OUTPUT_SCRIPT_SIZE := 1024; MAX_INPUT_DATA_SIZE := 1024; MAX_TX_SIGOPS_INPUT := 1275;
     MAX_TX_SIGOPS_OUTPUT := 1275; MAX_DISTANCE_BETWEEN_BLOCKS := 4500; REWARD_SPEND_MIN_BLOCKS := 300;
     GENESIS_HASHES := []; GENESIS_BLOCK_HASH := [] |}.

Definition demo_token_uid : bytes := repeat (z2b 1) 32.

(** the transaction that created the token: an authority output and change in HTR *)
Definition demo_creation : vertex :=
  mkVertex demo_token_uid 0 TOKEN_CREATION_TRANSACTION 100 (S754_zero false) [] []
    [mkTxOutput 3 [] 129; mkTxOutput 500 [] 0] [demo_token_uid] [] [84] [84] DEPOSIT.

Definition demo_storage : VertexStorage :=
  {| get_transaction := fun h => if bool_decide (h = demo_token_uid) then Ok demo_creation
                                 else Err TransactionDoesNotExist |}.

Definition demo_tokens : TokenStore unit :=
  {| has_token := fun _ _ => Ok false; token_description := fun _ _ => Err KeyError |}.

Definition demo_mint : vertex :=
  mkVertex (repeat (z2b 2) 32) 0 REGULAR_TRANSACTION 200 (S754_zero false) []
    [mkTxInput demo_token_uid 0 []; mkTxInput demo_token_uid 1 []]
    [mkTxOutput 400 [] 0; mkTxOutput 10000 [] 1; mkTxOutput 3 [] 129] [demo_token_uid] [] [] [] NATIVE.

#[local] Existing Instances demo_settings demo_storage demo_tokens.

Definition demo_dict : TokenInfoDict :=
  match get_complete_token_info tt demo_mint with Ok d => d | Err _ => mkDict [] 0 end.

Lemma complete_token_info_spec_witness :
  od_get (entries demo_dict) demo_token_uid = Some (info_of tt demo_mint demo_token_uid) /\
  amount (info_of tt demo_mint demo_token_uid) = 10000.
Proof.
  split; [|vm_compute; reflexivity].
  assert (H : get_complete_token_info tt demo_mint = Ok demo_dict) by (vm_compute; reflexivity).
  pose proof (proj2 (complete_token_info_spec tt demo_mint demo_dict H) demo_token_uid) as E.
  destruct (od_get (entries demo_dict) demo_token_uid) as [i|] eqn:Ei; [by rewrite E|].
  vm_compute in Ei. discriminate.
Defined.

Lemma demo_balances u : balance demo_mint u =
  (if bool_decide (HATHOR_TOKEN_UID = u) then -100 else 0) + (if bool_decide (demo_token_uid = u) then 10000 else 0).
Proof.
  assert (S0 : spent_output (mkTxInput demo_token_uid 0 []) = Ok (demo_token_uid, mkTxOutput 3 [] 129)) by done.
  assert (S1 : spent_output (mkTxInput demo_token_uid 1 []) = Ok (HATHOR_TOKEN_UID, mkTxOutput 500 [] 0)) by done.
  unfold balance, input_value, spends, output_value, output_of. cbn [v_inputs v_outputs demo_mint mkVertex sumz foldr].
  rewrite S0, S1. change (created demo_mint u) with false.
  change (tx_actions demo_mint) with (@nil NCAction). change (tx_fees demo_mint) with (@nil (bytes * Z)).
  cbn [sumz foldr].
  change (get_token_uid demo_mint (get_token_index (mkTxOutput 400 [] 0))) with (Ok HATHOR_TOKEN_UID).
  change (get_token_uid demo_mint (get_token_index (mkTxOutput 10000 [] 1))) with (Ok demo_token_uid).
  change (get_token_uid demo_mint (get_token_index (mkTxOutput 3 [] 129))) with (Ok demo_token_uid).
  cbv iota beta. destruct (bool_decide (HATHOR_TOKEN_UID = u)), (bool_decide (demo_token_uid = u)); done.
Qed.

End demo.
