(* ===== verification/StaticMetadata.v ===== *)
(** Static metadata of vertices: [hathor/transaction/static_metadata.py], with the
    signal bits of blocks ([hathor/transaction/block.py], [hathor/utils/int.py]) and the
    criteria of features ([hathor/feature_activation/model/criteria.py], [settings.py]). *)

From stdpp Require Import base list sorting gmap.
From Stdlib Require Import ZArith Lia.
From S2P Require Import Prelude PyInt ScriptVM TxStruct TokenInfo.

Local Open Scope Z_scope.
Local Open Scope py_scope.

(** * Features and their settings *)

Inductive Feature : Type :=
| NOP_FEATURE_1 | NOP_FEATURE_2 | NOP_FEATURE_3
| INCREASE_MAX_MERKLE_PATH_LENGTH | COUNT_CHECKDATASIG_OP | NANO_CONTRACTS.

#[export] Instance Feature_eq_dec : EqDecision Feature.
Proof. solve_decision. Defined.

Record Criteria : Type := mkCriteria {
  bit : Z;
  start_height : Z;
  timeout_height : Z;
  threshold : option Z;
  minimum_activation_height : Z;
  lock_in_on_timeout : bool;
  signal_support_by_default : bool
}.

(** [hathor.feature_activation.settings.Settings] *)
Class FeatureSettings : Type := {
  evaluation_interval : Z;
  max_signal_bits : Z;
  default_threshold : Z;
  features : list (Feature * Criteria)
}.

(** * Static metadata *)

Inductive StaticMetadata : Type :=
| BlockStaticMetadata (height min_height : Z) (feature_activation_bit_counts : list Z)
| TransactionStaticMetadata (min_height : Z) (closest_ancestor_block : bytes).

(** [vertex.static_metadata], set by [init_static_metadata_from_storage] when a vertex is
    first seen and read for every vertex of the storage *)
Class StaticStore : Type := { static_metadata : vertex -> StaticMetadata }.

(** the order in which the interpreter enumerates a set of hashes *)
Class SetOrder : Type := {
  set_iter : list bytes -> list bytes;
  set_iter_perm l : set_iter l ≡ₚ remove_dups l
}.

Section static.
Context {TS : TxSettings} {VS : VertexStorage} {SM : StaticStore} {FS : FeatureSettings} {SO : SetOrder}.

Definition min_height (v : vertex) : Z :=
  match static_metadata v with BlockStaticMetadata _ m _ | TransactionStaticMetadata m _ => m end.

(** read on blocks only *)
Definition get_height (v : vertex) : Z :=
  match static_metadata v with BlockStaticMetadata h _ _ => h | TransactionStaticMetadata _ _ => 0 end.

Definition bit_counts (v : vertex) : list Z :=
  match static_metadata v with BlockStaticMetadata _ _ c => c | TransactionStaticMetadata _ _ => [] end.

(** read on transactions only *)
Definition closest_ancestor (v : vertex) : bytes :=
  match static_metadata v with BlockStaticMetadata _ _ _ => [] | TransactionStaticMetadata _ c => c end.

Definition is_genesis (v : vertex) : bool := bool_decide (v_hash v ∈ GENESIS_HASHES).

(** [TransactionStorage.get_block] *)
Definition get_block (h : bytes) : result vertex :=
  let? v := get_transaction h in if is_block v then Ok v else Err AssertionError.

Definition get_block_parent_hash (b : vertex) : result bytes := py_index (v_parents b) 0.

Definition get_block_parent (b : vertex) : result vertex :=
  let? h := get_block_parent_hash b in get_block h.

Definition get_tx_parents_ids (v : vertex) : list bytes :=
  set_iter (if is_block v then tail (v_parents v) else v_parents v).

Definition get_all_dependencies (v : vertex) : list bytes :=
  set_iter (v_parents v ++ map in_tx_id (v_inputs v)).

(** ** Blocks *)

Definition _calculate_height (block : vertex) : result Z :=
  if is_genesis block then Ok 0 else
  let? parent_block := get_block_parent block in
  Ok (get_height parent_block + 1).

(** [min_height = max(min_height, tx.static_metadata.min_height)] *)
Definition min_height_step (m : Z) (h : bytes) : result Z :=
  let? tx := get_transaction h in Ok (Z.max m (min_height tx)).

Definition block_min_height (block : vertex) : result Z :=
  rfold min_height_step (get_tx_parents_ids block) 0.

(** the [while n > 0] loop of [get_bit_list] *)
Fixpoint bits_loop (fuel : nat) (n : Z) : list Z :=
  match fuel with
  | O => []
  | S fuel => if 0 <? n then Z.land n 1 :: bits_loop fuel (Z.shiftr n 1) else []
  end.

Definition get_bit_list (n : Z) (min_size : option Z) : result (list Z) :=
  if n <? 0 then Err AssertionError else
  let bits := bits_loop (Z.to_nat (Z.log2 n + 1)) n in
  Ok (match min_size with
      | Some m => bits ++ repeat 0 (Z.to_nat m - length bits)
      | None => bits
      end).

Definition _get_feature_activation_bitmask : Z := Z.shiftl 1 max_signal_bits - 1.

Definition _get_feature_activation_bit_list (block : vertex) : result (list Z) :=
  if 0xFF <? v_signal_bits block then Err AssertionError
  else get_bit_list (Z.land (v_signal_bits block) _get_feature_activation_bitmask) (Some max_signal_bits).

(** [starmap(add, zip_longest(a, b, fillvalue=0))] *)
Fixpoint add_longest (a b : list Z) : list Z :=
  match a, b with
  | [], _ => b
  | _, [] => a
  | x :: a, y :: b => x + y :: add_longest a b
  end.

Definition _get_previous_feature_activation_bit_counts (block : vertex) (height : Z) : result (list Z) :=
  if height mod evaluation_interval =? 0 then Ok [] else
  let? parent_block := get_block_parent block in Ok (bit_counts parent_block).

Definition _calculate_feature_activation_bit_counts (block : vertex) (height : Z) : result (list Z) :=
  let? previous_counts := _get_previous_feature_activation_bit_counts block height in
  let? bit_list := _get_feature_activation_bit_list block in
  Ok (add_longest previous_counts bit_list).

Definition block_static_create (block : vertex) : result StaticMetadata :=
  let? height := _calculate_height block in
  let? m := block_min_height block in
  let? counts := _calculate_feature_activation_bit_counts block height in
  Ok (BlockStaticMetadata height m counts).

(** ** Transactions *)

Definition _calculate_inherited_min_height (tx : vertex) : result Z :=
  rfold min_height_step (get_tx_parents_ids tx ++ map in_tx_id (v_inputs tx)) 0.

Definition reward_height_step (m : Z) (i : TxInput) : result Z :=
  let? spent_tx := get_transaction (in_tx_id i) in
  Ok (if is_block spent_tx then Z.max m (get_height spent_tx + REWARD_SPEND_MIN_BLOCKS + 1) else m).

Definition _calculate_my_min_height (tx : vertex) : result Z := rfold reward_height_step (v_inputs tx) 0.

Definition tx_min_height (tx : vertex) : result Z :=
  if is_genesis tx then Ok 0 else
  let? inherited := _calculate_inherited_min_height tx in
  let? mine := _calculate_my_min_height tx in
  Ok (Z.max inherited mine).

(** the block a dependency stands for: itself, or the closest ancestor of a transaction *)
Definition candidate_block (h : bytes) : result vertex :=
  let? v := get_transaction h in
  if is_block v then Ok v else get_block (closest_ancestor v).

Definition closest_step (best : option vertex) (h : bytes) : result (option vertex) :=
  let? c := candidate_block h in
  match best with
  | None => Ok (Some c)
  | Some b => Ok (Some (if get_height b <? get_height c then c else b))
  end.

Definition _calculate_closest_ancestor_block (tx : vertex) : result bytes :=
  if is_genesis tx then Ok GENESIS_BLOCK_HASH else
  let? best := rfold closest_step (get_all_dependencies tx) None in
  match best with Some b => Ok (v_hash b) | None => Err AssertionError end.

Definition tx_static_create (tx : vertex) : result StaticMetadata :=
  let? m := tx_min_height tx in
  let? c := _calculate_closest_ancestor_block tx in
  Ok (TransactionStaticMetadata m c).

(** [init_static_metadata_from_storage] *)
Definition create_static (v : vertex) : result StaticMetadata :=
  if is_block v then block_static_create v else tx_static_create v.
End static.
