(* ===== verification/StaticMetadataTheory.v ===== *)
(** What static metadata means: the bit counts of a block count the signals since the last
    boundary, heights count blocks from the genesis, and the minimum height of a vertex
    covers every reward spent in its past. *)

From stdpp Require Import base list sorting gmap.
From Stdlib Require Import ZArith Lia.
From S2P Require Import Prelude PyInt ScriptVM TxStruct TokenInfo TokenInfoTheory StaticMetadata.

Local Open Scope Z_scope.
Local Open Scope py_scope.

(** * Bits *)

Lemma bits_loop_nth fuel : forall n i, 0 <= n < 2 ^ Z.of_nat fuel ->
  nth i (bits_loop fuel n) 0 = Z.b2z (Z.testbit n (Z.of_nat i)).
Proof.
  induction fuel as [|fuel IH]; intros n i Hn.
  - assert (n = 0) as -> by (simpl in Hn; lia). rewrite Z.testbit_0_l. by destruct i.
  - cbn [bits_loop]. destruct (Z.ltb_spec 0 n).
    + destruct i as [|i]; cbn [nth].
      * change (Z.of_nat 0) with 0. rewrite Z.bit0_mod. exact (Z.land_ones n 1 ltac:(lia)).
      * rewrite IH.
        -- rewrite Z.shiftr_spec by lia. do 2 f_equal. lia.
        -- rewrite Z.shiftr_div_pow2 by lia. change (2 ^ 1) with 2. rewrite Nat2Z.inj_succ, Z.pow_succ_r in Hn by lia.
           split; [apply Z.div_pos; lia|apply Z.div_lt_upper_bound; lia].
    + assert (n = 0) as -> by lia. rewrite Z.testbit_0_l. by destruct i.
Qed.

Lemma bits_loop_len fuel : forall n, 0 <= n -> n < 2 ^ Z.of_nat fuel ->
  forall m, n < 2 ^ Z.of_nat m -> (length (bits_loop fuel n) <= m)%nat.
Proof.
  induction fuel as [|fuel IH]; intros n H0 Hn m Hm; cbn [bits_loop]; [simpl; lia|].
  destruct (Z.ltb_spec 0 n); [|simpl; lia]. destruct m as [|m]; [simpl in Hm; lia|]. simpl length.
  rewrite Nat2Z.inj_succ, Z.pow_succ_r in Hn, Hm by lia. apply le_n_S, IH; rewrite Z.shiftr_div_pow2 by lia; change (2 ^ 1) with 2.
  - by apply Z.div_pos.
  - apply Z.div_lt_upper_bound; lia.
  - apply Z.div_lt_upper_bound; lia.
Qed.

Lemma bit_list_spec n m l : get_bit_list n (Some m) = Ok l -> 0 <= m -> n < 2 ^ m ->
  length l = Z.to_nat m /\ forall i, nth i l 0 = Z.b2z (Z.testbit n (Z.of_nat i)).
Proof.
  unfold get_bit_list. destruct (Z.ltb_spec n 0); [done|]. intros E Hm Hn. injection E as <-.
  assert (Hf : n < 2 ^ Z.of_nat (Z.to_nat (Z.log2 n + 1))).
  { pose proof (Z.log2_nonneg n). rewrite Z2Nat.id by lia. destruct (decide (n = 0)) as [->|]; [done|].
    apply Z.log2_spec. lia. }
  set (bits := bits_loop _ n) in *. assert (Hl : (length bits <= Z.to_nat m)%nat).
  { apply bits_loop_len; [done|done|]. by rewrite Z2Nat.id. }
  split.
  - rewrite length_app, repeat_length. lia.
  - intros i. rewrite <- (bits_loop_nth (Z.to_nat (Z.log2 n + 1))) by lia. fold bits.
    destruct (decide (i < length bits)%nat).
    + by rewrite app_nth1.
    + rewrite app_nth2 by lia. rewrite nth_repeat. by rewrite nth_overflow by lia.
Qed.

(** * Remainders along a chain *)

Lemma mod_succ h n : 0 < n -> (h + 1) mod n <> 0 -> (h + 1) mod n = h mod n + 1.
Proof.
  intros Hn Hne. pose proof (Z.mod_pos_bound h n Hn) as Hb. pose proof (Z.div_mod h n ltac:(lia)) as Hd.
  destruct (decide (h mod n + 1 = n)) as [E|E].
  - exfalso. apply Hne. symmetry. apply (Z.mod_unique _ _ (h / n + 1)); [left; lia|nia].
  - symmetry. apply (Z.mod_unique _ _ (h / n)); [left; lia|lia].
Qed.

Lemma mod_succ_boundary h n : 0 < n -> (h + 1) mod n = 0 -> h mod n = n - 1.
Proof.
  intros Hn He. symmetry. pose proof (Z.div_mod (h + 1) n ltac:(lia)) as Hd.
  apply (Z.mod_unique _ _ ((h + 1) / n - 1)); [left; lia|nia].
Qed.

Lemma add_longest_nth a : forall b i, nth i (add_longest a b) 0 = nth i a 0 + nth i b 0.
Proof.
  induction a as [|x a IH]; intros b i; [by destruct i|]. destruct b as [|y b]; [by destruct i; simpl; lia|].
  destruct i as [|i]; simpl; [done|apply IH].
Qed.

Lemma add_longest_len a b : length (add_longest a b) = Nat.max (length a) (length b).
Proof. revert b. induction a as [|x a IH]; intros [|y b]; simpl; try done. by rewrite IH. Qed.

Lemma py_index_nth (l : list Z) i : 0 <= i < Z.of_nat (length l) -> py_index l i = Ok (nth (Z.to_nat i) l 0).
Proof.
  intros H. unfold py_index. rewrite (proj2 (Z.ltb_ge i 0)) by lia. cbv zeta. rewrite (proj2 (Z.ltb_ge i 0)) by lia.
  destruct (lookup_lt_is_Some_2 l (Z.to_nat i)) as [x Hx]; [lia|]. rewrite Hx. by rewrite (nth_lookup_Some _ _ _ _ Hx).
Qed.

(** * The stored vertices *)

Section theory.
Context {TS : TxSettings} {VS : VertexStorage} {SM : StaticStore} {FS : FeatureSettings} {SO : SetOrder}.

Definition dependencies (v : vertex) : list bytes := v_parents v ++ map in_tx_id (v_inputs v).

(** what holds of every stored vertex: it is stored under its hash, its static metadata was
    created from the storage, and what it depends on is older *)
Record dag_ok : Prop := {
  stored_hash h v : get_transaction h = Ok v -> v_hash v = h;
  stored_static h v : get_transaction h = Ok v -> create_static v = Ok (static_metadata v);
  stored_older h v d w : get_transaction h = Ok v -> d ∈ dependencies v -> get_transaction d = Ok w ->
    v_timestamp w < v_timestamp v;
  stored_time h v : get_transaction h = Ok v -> 0 <= v_timestamp v;
  stored_genesis h v : get_transaction h = Ok v -> is_genesis v = true -> dependencies v = []
}.

Definition stored (v : vertex) : Prop := get_transaction (v_hash v) = Ok v.

Definition stored_block (v : vertex) : Prop := stored v /\ is_block v = true.

Hypothesis dag : dag_ok.

Lemma get_stored h v : get_transaction h = Ok v -> stored v.
Proof using dag. intros H. unfold stored. by rewrite (stored_hash dag h v H). Qed.

(** induction along dependencies, by timestamp *)
Lemma stored_ind (P : vertex -> Prop) :
  (forall v, stored v -> (forall d w, d ∈ dependencies v -> get_transaction d = Ok w -> P w) -> P v) ->
  forall v, stored v -> P v.
Proof using dag.
  intros Hs v Hv. remember (Z.to_nat (v_timestamp v)) as n eqn:En. revert v Hv En.
  induction n as [n IH] using lt_wf_ind. intros v Hv ->. apply Hs; [done|]. intros d w Hd Hw.
  pose proof (get_stored _ _ Hw) as Hsw. eapply (IH (Z.to_nat (v_timestamp w))); [|done|done].
  pose proof (stored_older dag _ _ _ _ Hv Hd Hw). pose proof (stored_time dag _ _ Hsw). pose proof (stored_time dag _ _ Hv). lia.
Qed.

Lemma get_block_ok h b : get_block h = Ok b <-> get_transaction h = Ok b /\ is_block b = true.
Proof.
  unfold get_block. destruct (get_transaction h) as [v|e]; simpl; [|by split; [|intros []]].
  destruct (is_block v) eqn:E; split; [|intros [[= <-] ?]|done|intros [[= <-] ?]]; [intros [= <-]; done|done|congruence].
Qed.

Lemma block_parent_dep b p : get_block_parent b = Ok p -> exists h,
  h ∈ dependencies b /\ get_transaction h = Ok p /\ is_block p = true.
Proof.
  unfold get_block_parent, get_block_parent_hash. intros H. inv_rok H. apply get_block_ok in H as [H Hb].
  exists a. split; [|done]. unfold py_index in Hm. simpl in Hm.
  destruct (v_parents b) as [|x l] eqn:E; simpl in Hm; [done|]. injection Hm as ->. unfold dependencies.
  rewrite E. by left.
Qed.

Lemma block_parent_stored b p : get_block_parent b = Ok p -> stored_block p.
Proof using dag. intros H. apply block_parent_dep in H as (h & _ & Hg & Hb). split; [by eapply get_stored|done]. Qed.

(** the fields of a stored block *)
Lemma stored_block_static b : stored_block b -> exists h m c, static_metadata b = BlockStaticMetadata h m c /\
  _calculate_height b = Ok h /\ block_min_height b = Ok m /\ _calculate_feature_activation_bit_counts b h = Ok c.
Proof using dag.
  intros [Hs Hb]. pose proof (stored_static dag _ _ Hs) as E. unfold create_static in E. rewrite Hb in E.
  unfold block_static_create in E. inv_rok E. inv_rok E. inv_rok E. injection E as E. by exists a, a0, a1.
Qed.

Lemma height_genesis b : stored_block b -> is_genesis b = true -> get_height b = 0.
Proof using dag.
  intros Hs Hg. destruct (stored_block_static b Hs) as (h & m & c & E & Hh & _). unfold get_height. rewrite E.
  unfold _calculate_height in Hh. rewrite Hg in Hh. by injection Hh as <-.
Qed.

Lemma height_parent b : stored_block b -> is_genesis b = false ->
  exists p, get_block_parent b = Ok p /\ stored_block p /\ get_height b = get_height p + 1.
Proof using dag.
  intros Hs Hg. destruct (stored_block_static b Hs) as (h & m & c & E & Hh & _). unfold get_height at 1. rewrite E.
  unfold _calculate_height in Hh. rewrite Hg in Hh. inv_rok Hh. injection Hh as <-.
  exists a. split; [done|]. split; [by eapply block_parent_stored|done].
Qed.

(** induction along the chain of a block *)
Lemma chain_ind (P : vertex -> Prop) :
  (forall b, stored_block b -> is_genesis b = true -> P b) ->
  (forall b p, stored_block b -> is_genesis b = false -> get_block_parent b = Ok p -> stored_block p ->
    get_height b = get_height p + 1 -> P p -> P b) ->
  forall b, stored_block b -> P b.
Proof using dag.
  intros Hg Hp b [Hs Hb]. revert b Hs Hb. apply (stored_ind (fun b => is_block b = true -> P b)). intros b Hs IH Hb.
  destruct (is_genesis b) eqn:Eg; [by apply Hg|].
  destruct (height_parent b (conj Hs Hb) Eg) as (p & Ep & Hsp & Eh). eapply Hp; try done.
  apply block_parent_dep in Ep as (d & Hd & Hgp & Hbp). by eapply IH.
Qed.

Lemma height_nonneg b : stored_block b -> 0 <= get_height b.
Proof using dag.
  revert b. apply chain_ind; [intros b Hs Hg; by rewrite height_genesis|]. intros b p _ _ _ _ -> IH. lia.
Qed.

(** * Bit counts *)

Definition signals (i : Z) (b : vertex) : bool := Z.testbit (v_signal_bits b) i.

(** the blocks from the last boundary up to a block *)
Inductive since_boundary : vertex -> list vertex -> Prop :=
| since_here b : get_height b mod evaluation_interval = 0 -> since_boundary b [b]
| since_parent b p l : get_height b mod evaluation_interval <> 0 -> get_block_parent b = Ok p ->
    since_boundary p l -> since_boundary b (b :: l).

Hypothesis interval_pos : 0 < evaluation_interval.
Hypothesis bits_nonneg : 0 <= max_signal_bits.

Lemma feature_bit_list b l : _get_feature_activation_bit_list b = Ok l ->
  length l = Z.to_nat max_signal_bits /\
  forall i, (Z.of_nat i < max_signal_bits) -> nth i l 0 = Z.b2z (signals (Z.of_nat i) b).
Proof using bits_nonneg.
  unfold _get_feature_activation_bit_list, _get_feature_activation_bitmask. destruct (0xFF <? v_signal_bits b); [done|].
  rewrite Z.shiftl_1_l. replace (2 ^ max_signal_bits - 1) with (Z.ones max_signal_bits) by (rewrite Z.ones_equiv; lia).
  rewrite Z.land_ones by done. intros H. pose proof (Z.pow_pos_nonneg 2 max_signal_bits ltac:(lia) bits_nonneg) as Hp.
  apply bit_list_spec in H as [Hl Hn]; [|done|by apply Z.mod_pos_bound]. split; [done|]. intros i Hi. rewrite Hn.
  unfold signals. by rewrite Z.mod_pow2_bits_low.
Qed.

Lemma counts_correct b : stored_block b -> exists l, since_boundary b l /\
  Z.of_nat (length l) = get_height b mod evaluation_interval + 1 /\
  length (bit_counts b) = Z.to_nat max_signal_bits /\
  forall i, Z.of_nat i < max_signal_bits ->
    nth i (bit_counts b) 0 = Z.of_nat (length (List.filter (signals (Z.of_nat i)) l)).
Proof using dag interval_pos bits_nonneg.
  revert b. apply chain_ind.
  - intros b Hs Hg. destruct (stored_block_static b Hs) as (h & m & c & E & Hh & _ & Hc).
    assert (Eh : get_height b = h) by (unfold get_height; by rewrite E).
    pose proof (height_genesis b Hs Hg) as H0. rewrite H0 in Eh. subst h.
    exists [b]. rewrite H0, Z.mod_0_l by lia. split; [constructor; rewrite H0; apply Z.mod_0_l; lia|]. split; [done|].
    unfold bit_counts. rewrite E. unfold _calculate_feature_activation_bit_counts, _get_previous_feature_activation_bit_counts in Hc.
    rewrite Z.mod_0_l in Hc by lia. cbn [Z.eqb rbind] in Hc. inv_rok Hc. injection Hc as <-.
    apply feature_bit_list in Hm as [Hl Hn]. split; [done|]. intros i Hi. cbn [add_longest]. rewrite Hn by done.
    simpl. by destruct (signals (Z.of_nat i) b).
  - intros b p Hs Hg Ep Hsp Eh (lp & Hlp & Llp & Lc & Hn). destruct (stored_block_static b Hs) as (h & m & c & E & Hh & _ & Hc).
    assert (Eh' : get_height b = h) by (unfold get_height; by rewrite E).
    unfold _calculate_feature_activation_bit_counts, _get_previous_feature_activation_bit_counts in Hc.
    rewrite <- Eh' in Hc. destruct (Z.eqb_spec (get_height b mod evaluation_interval) 0) as [E0|E0].
    + cbn [rbind] in Hc. inv_rok Hc. injection Hc as <-. apply feature_bit_list in Hm as [Hl Hb].
      exists [b]. split; [by constructor|]. rewrite E0. split; [done|]. unfold bit_counts. rewrite E. split; [done|].
      intros i Hi. cbn [add_longest]. rewrite Hb by done. simpl. by destruct (signals (Z.of_nat i) b).
    + rewrite Ep in Hc. cbn [rbind] in Hc. inv_rok Hc. injection Hc as <-. apply feature_bit_list in Hm as [Hl Hb].
      exists (b :: lp). split; [by econstructor|]. split.
      * simpl length. rewrite Nat2Z.inj_succ, Llp, Eh.
        rewrite Eh in E0. rewrite (mod_succ (get_height p)) by done. lia.
      * assert (Ec : bit_counts b = add_longest (bit_counts p) a) by (unfold bit_counts at 1; by rewrite E).
        rewrite Ec. split; [rewrite add_longest_len, Hl, Lc; lia|].
        intros i Hi. rewrite add_longest_nth, Hn, Hb by done. simpl. destruct (signals (Z.of_nat i) b); simpl; lia.
Qed.

(** The bit counts of a block count signals: at every signal bit, the rolling count kept in
    the static metadata of a stored block is the number of blocks, from the last boundary of
    the evaluation interval up to that block, whose signal bits have that bit set. *)
Theorem bit_counts_spec b i : stored_block b -> 0 <= i < max_signal_bits ->
  exists l, since_boundary b l /\ Z.of_nat (length l) = get_height b mod evaluation_interval + 1 /\
    py_index (bit_counts b) i = Ok (Z.of_nat (length (List.filter (signals i) l))).
Proof using dag interval_pos bits_nonneg.
  intros Hs Hi. destruct (counts_correct b Hs) as (l & Hl & Ll & Lc & Hn). exists l. split; [done|]. split; [done|].
  rewrite py_index_nth by lia. rewrite Hn by lia. by rewrite Z2Nat.id by lia.
Qed.

(** * Minimum heights *)

(** the vertices whose minimum height a vertex inherits *)
Definition inherited_ids (v : vertex) : list bytes :=
  if is_block v then tail (v_parents v) else v_parents v ++ map in_tx_id (v_inputs v).

(** the past of a vertex *)
Inductive past : vertex -> vertex -> Prop :=
| past_refl v : past v v
| past_step v d w u : d ∈ inherited_ids v -> get_transaction d = Ok w -> past w u -> past v u.

Lemma inherited_dep v d : d ∈ inherited_ids v -> d ∈ dependencies v.
Proof.
  unfold inherited_ids, dependencies. destruct (is_block v); [|done]. intros H. apply elem_of_app. left.
  destruct (v_parents v); [done|by right].
Qed.

Lemma min_height_fold l : forall m r, rfold min_height_step l m = Ok r ->
  m <= r /\ forall d w, d ∈ l -> get_transaction d = Ok w -> min_height w <= r.
Proof.
  induction l as [|x l IH]; intros m r H; cbn [rfold] in H.
  - injection H as <-. split; [lia|]. intros d w Hd. by apply not_elem_of_nil in Hd.
  - inv_rok H. unfold min_height_step in Hm. inv_rok Hm. injection Hm as <-. apply IH in H as [H1 H2]. split; [lia|].
    intros d w Hd Hw. apply elem_of_cons in Hd as [->|Hd]; [|by eapply H2]. rewrite Hm0 in Hw. injection Hw as <-. lia.
Qed.

Lemma reward_height_fold l : forall m r, rfold reward_height_step l m = Ok r ->
  m <= r /\ forall i s, i ∈ l -> get_transaction (in_tx_id i) = Ok s -> is_block s = true ->
    get_height s + REWARD_SPEND_MIN_BLOCKS + 1 <= r.
Proof.
  induction l as [|x l IH]; intros m r H; cbn [rfold] in H.
  - injection H as <-. split; [lia|]. intros d w Hd. by apply not_elem_of_nil in Hd.
  - inv_rok H. unfold reward_height_step in Hm. inv_rok Hm. injection Hm as <-. apply IH in H as [H1 H2].
    split; [destruct (is_block a0); lia|].
    intros i s Hi Hs Hb. apply elem_of_cons in Hi as [->|Hi]; [|by eapply H2]. rewrite Hm0 in Hs. injection Hs as <-.
    rewrite Hb in H1. lia.
Qed.

Lemma elem_of_set_iter h l : h ∈ set_iter l <-> h ∈ l.
Proof. by rewrite set_iter_perm, elem_of_remove_dups. Qed.

Lemma min_height_inherited v d w : stored v -> d ∈ inherited_ids v -> get_transaction d = Ok w -> min_height w <= min_height v.
Proof using dag.
  intros Hs Hd Hw. pose proof (stored_static dag _ _ Hs) as E. unfold create_static in E. unfold inherited_ids in Hd.
  unfold min_height at 2. destruct (is_block v) eqn:Hb.
  - unfold block_static_create in E. inv_rok E. inv_rok E. inv_rok E. injection E as <-.
    unfold block_min_height, get_tx_parents_ids in Hm0. rewrite Hb in Hm0.
    apply min_height_fold in Hm0 as [_ H]. apply (H d); [by apply elem_of_set_iter|done].
  - unfold tx_static_create in E. inv_rok E. inv_rok E. injection E as <-. unfold tx_min_height in Hm.
    destruct (is_genesis v) eqn:Hg.
    { pose proof (stored_genesis dag _ _ Hs Hg) as H0. unfold dependencies in H0. rewrite H0 in Hd. by apply not_elem_of_nil in Hd. }
    inv_rok Hm. inv_rok Hm. injection Hm as <-. unfold _calculate_inherited_min_height, get_tx_parents_ids in Hm1.
    rewrite Hb in Hm1. apply min_height_fold in Hm1 as [_ H]. assert (min_height w <= a1); [|lia].
    apply (H d); [|done]. apply elem_of_app. rewrite elem_of_set_iter. by apply elem_of_app.
Qed.

Lemma min_height_past v u : past v u -> stored v -> min_height u <= min_height v.
Proof using dag.
  induction 1 as [v|v d w u Hd Hw Hp IH]; intros Hs; [lia|].
  pose proof (min_height_inherited v d w Hs Hd Hw). specialize (IH (get_stored _ _ Hw)). lia.
Qed.

Lemma min_height_reward u i r : stored u -> is_block u = false -> i ∈ v_inputs u ->
  get_transaction (in_tx_id i) = Ok r -> is_block r = true -> get_height r + REWARD_SPEND_MIN_BLOCKS < min_height u.
Proof using dag.
  intros Hs Hb Hi Hr Hbr. pose proof (stored_static dag _ _ Hs) as E. unfold create_static in E. rewrite Hb in E.
  unfold tx_static_create in E. inv_rok E. inv_rok E. unfold min_height. injection E as <-. unfold tx_min_height in Hm.
  assert (Hd : in_tx_id i ∈ dependencies u) by (unfold dependencies; apply elem_of_app; right; by apply list_elem_of_fmap_2).
  destruct (is_genesis u) eqn:Hg.
  { rewrite (stored_genesis dag _ _ Hs Hg) in Hd. by apply not_elem_of_nil in Hd. }
  inv_rok Hm. inv_rok Hm. injection Hm as <-. apply reward_height_fold in Hm2 as [_ H].
  pose proof (H i r Hi Hr Hbr). lia.
Qed.

Lemma past_stored v u : past v u -> stored v -> stored u.
Proof using dag. induction 1 as [v|v d w u Hd Hw Hp IH]; intros Hs; [done|]. apply IH. by eapply get_stored. Qed.

(** every reward spent in the past of a vertex is covered by its minimum height *)
Lemma past_reward_covered v u i r : past v u -> stored v -> is_block u = false -> i ∈ v_inputs u ->
  get_transaction (in_tx_id i) = Ok r -> is_block r = true -> get_height r + REWARD_SPEND_MIN_BLOCKS < min_height v.
Proof using dag.
  intros Hp Hs Hb Hi Hr Hbr. pose proof (min_height_past v u Hp Hs).
  pose proof (min_height_reward u i r (past_stored _ _ Hp Hs) Hb Hi Hr Hbr). lia.
Qed.
End theory.
