(* ===== verification/Metadata.v ===== *)
(** Metadata of vertices and what the node reads besides the vertices themselves:
    [hathor/transaction/transaction_metadata.py], [validation_state.py], the height index
    and the best tips. *)

From stdpp Require Import base list gmap.
From Stdlib Require Import ZArith.
From S2P Require Import Prelude PyInt PyValue ScriptVM TxStruct TokenInfo StaticMetadata.

Local Open Scope Z_scope.
Local Open Scope py_scope.

(** * [ValidationState] *)

Inductive ValidationState : Type := INITIAL | BASIC | CHECKPOINT | FULL | CHECKPOINT_FULL | INVALID.

#[export] Instance ValidationState_eq_dec : EqDecision ValidationState.
Proof. solve_decision. Defined.

Definition validation_value (s : ValidationState) : Z :=
  match s with INITIAL => 0 | BASIC => 1 | CHECKPOINT => 2 | FULL => 3 | CHECKPOINT_FULL => 4 | INVALID => -1 end.

Definition is_at_least_basic (s : ValidationState) : bool := validation_value BASIC <=? validation_value s.
Definition is_valid (s : ValidationState) : bool := bool_decide (s ∈ [FULL; CHECKPOINT; CHECKPOINT_FULL]).
Definition is_checkpoint (s : ValidationState) : bool := bool_decide (s ∈ [CHECKPOINT; CHECKPOINT_FULL]).
Definition is_fully_connected (s : ValidationState) : bool := bool_decide (s ∈ [FULL; CHECKPOINT_FULL]).
Definition is_final (s : ValidationState) : bool := bool_decide (s ∈ [FULL; CHECKPOINT_FULL; INVALID]).

(** * [TransactionMetadata] *)

(** [NCExecutionState] *)
Inductive NCExecutionState : Type := NC_PENDING | NC_SUCCESS | NC_FAILURE | NC_SKIPPED.

#[export] Instance NCExecutionState_eq_dec : EqDecision NCExecutionState.
Proof. solve_decision. Defined.

(** [hathor/nanocontracts/runner/index_records.py] *)
Inductive NCIndexUpdateRecord : Type :=
| CreateContractRecord (blueprint_id contract_id : bytes)
| CreateTokenRecord (token_uid : bytes) (amount : Z) (token_symbol token_name : pystr) (token_version : TokenVersion)
| UpdateTokenBalanceRecord (token_uid : bytes) (amount : Z)
| UpdateAuthoritiesRecord (grant : bool) (token_uid : bytes) (mint melt : bool).

Record MetaNCCallRecord : Type := mkMetaCall {
  call_blueprint_id : bytes;
  call_contract_id : bytes;
  call_method_name : pystr;
  call_index_updates : list NCIndexUpdateRecord
}.

(** the fields that verification, consensus and feature activation use; [None] stands for
    an empty set or list where the code allows it *)
Record TransactionMetadata : Type := mkMeta {
  spent_outputs : list (Z * list bytes);
  conflict_with : option (list bytes);
  voided_by : option (gset bytes);
  twins : list bytes;
  accumulated_weight : Z;
  score : Z;
  first_block : option bytes;
  validation : ValidationState;
  nc_execution : option NCExecutionState;
  nc_calls : option (list MetaNCCallRecord)
}.

(** the metadata of a vertex that has none yet, but for the work and the score *)
Definition new_metadata (work score : Z) (state : ValidationState) : TransactionMetadata :=
  mkMeta [] None None [] work score None state None None.

(** the truth value of an optional set, and of an optional list *)
Definition truthy_set (s : option (gset bytes)) : bool :=
  match s with None => false | Some x => negb (bool_decide (x = ∅)) end.
Definition truthy_list (l : option (list bytes)) : bool :=
  match l with None | Some [] => false | Some _ => true end.

(** [add_voided_by] and [del_voided_by] of [TransactionMetadata], on the set *)
Definition add_to_voided_by (item : bytes) (s : option (gset bytes)) : option (gset bytes) :=
  if truthy_set s then Some ({[item]} ∪ default ∅ s) else Some {[item]}.
Definition del_from_voided_by (item : bytes) (s : option (gset bytes)) : option (gset bytes) :=
  match s with
  | None => None
  | Some x => let x' := x ∖ {[item]} in if bool_decide (x' = ∅) then None else Some x'
  end.
Definition is_in_voided_by (item : bytes) (s : option (gset bytes)) : bool :=
  match s with None => false | Some x => bool_decide (item ∈ x) end.

Class NodeState : Type := {
  (** [vertex.get_metadata()] *)
  get_metadata : vertex -> TransactionMetadata;
  (** [storage.get_best_block_tips()] *)
  get_best_block_tips : list bytes;
  (** [storage.indexes.height.get(height)] *)
  height_index : Z -> option bytes;
  (** [storage.indexes.height.get_tip()] *)
  height_tip : bytes
}.

Section storage.
Context {TS : TxSettings} {VS : VertexStorage} {SM : StaticStore} {NS : NodeState}.

Definition get_block_by_height (height : Z) : result (option vertex) :=
  match height_index height with
  | None => Ok None
  | Some ancestor_hash => let? b := get_block ancestor_hash in Ok (Some b)
  end.

Definition get_best_block : result vertex :=
  let? block := get_block height_tip in
  if is_fully_connected (validation (get_metadata block)) then Ok block else Err AssertionError.
End storage.
