(* ===== verification/Daa.v ===== *)
(** Difficulty adjustment and block rewards: [hathor/daa.py]. *)

From stdpp Require Import base list.
From Stdlib Require Import ZArith Lia Floats.SpecFloat.
From S2P Require Import Prelude PyInt PyFloat ScriptVM TxStruct VertexStruct TokenInfo StaticMetadata Metadata.

Local Open Scope Z_scope.
Local Open Scope py_scope.

(** * Floating-point arithmetic *)

(** the C library behind [**] on floats and [math.log]; [flog] raises [ValueError] outside
    its domain *)
Class FloatLib : Type := {
  fpow : spec_float -> spec_float -> result spec_float;
  flog : spec_float -> result spec_float
}.

Definition fadd : spec_float -> spec_float -> spec_float := SFadd prec emax.
Definition fsub : spec_float -> spec_float -> spec_float := SFsub prec emax.

(** division by zero raises *)
Definition fdiv (x y : spec_float) : result spec_float :=
  match y with S754_zero _ => Err ZeroDivisionError | _ => Ok (SFdiv prec emax x y) end.

(** [a / b] of two integers, correctly rounded *)
Definition int_truediv (a b : Z) : result spec_float :=
  let raw (n : Z) := match n with Z0 => S754_zero false | Z.pos p => S754_finite false p 0 | Z.neg p => S754_finite true p 0 end in
  let? q := fdiv (raw a) (raw b) in
  match q with S754_infinity _ => Err OverflowError | _ => Ok q end.

(** [max(a, b)] keeps its first argument unless the second is greater *)
Definition fmax (a b : spec_float) : spec_float := if SFltb a b then b else a.
Definition fmin (a b : spec_float) : spec_float := if SFltb b a then b else a.

Section float.
Context {FL : FloatLib}.

(** [2 ** x] *)
Definition pow2 (x : spec_float) : result spec_float := let? two := float_of_int 2 in fpow two x.

(** [math.log(x, 2)] *)
Definition log2 (x : spec_float) : result spec_float :=
  let? two := float_of_int 2 in let? a := flog x in let? b := flog two in fdiv a b.

(** [aux_calc_weight] and [sum_weights] of [base_transaction.py] *)
Definition aux_calc_weight (w1 w2 : spec_float) (multiplier : Z) : result spec_float :=
  let a := fmax w1 w2 in
  let b := fmin w1 w2 in
  let? zero := float_of_int 0 in
  if SFeqb b zero then Ok a else
  let? p := pow2 (fsub b a) in
  let? m := float_of_int multiplier in
  let? one := float_of_int 1 in
  let? l := log2 (fadd one (float_mul p m)) in
  Ok (fadd a l).

Definition sum_weights (w1 w2 : spec_float) : result spec_float := aux_calc_weight w1 w2 1.

(** [weight_to_work] of [hathor/utils/weight.py]: [math.floor(0.5 + 2**weight)] *)
Definition weight_to_work (weight : spec_float) : result Z :=
  let? one := float_of_int 1 in
  let? two := float_of_int 2 in
  let? half := fdiv one two in
  let? p := pow2 weight in
  float_floor (fadd half p).
End float.

(** * [DifficultyAdjustmentAlgorithm] *)

Class DaaSettings : Type := {
  AVG_TIME_BETWEEN_BLOCKS : Z;
  MIN_BLOCK_WEIGHT : spec_float;
  BLOCK_DIFFICULTY_N_BLOCKS : Z;
  WEIGHT_DECAY_ENABLED : bool;
  WEIGHT_DECAY_ACTIVATE_DISTANCE : Z;
  WEIGHT_DECAY_WINDOW_SIZE : Z;
  WEIGHT_DECAY_AMOUNT : spec_float;
  MIN_TX_WEIGHT : spec_float;
  MIN_TX_WEIGHT_COEFFICIENT : spec_float;
  MIN_TX_WEIGHT_K : Z;
  DECIMAL_PLACES : Z;
  BLOCKS_PER_HALVING : option Z;
  INITIAL_TOKENS_PER_BLOCK : Z;
  MINIMUM_TOKENS_PER_BLOCK : Z;
  MAXIMUM_NUMBER_OF_HALVINGS : Z
}.

Section daa.
Context {FL : FloatLib} {DS : DaaSettings} {TS : TxSettings} {VS : VertexStorage} {SM : StaticStore}.

(** ** Rewards *)

Definition get_tokens_issued_per_block (height : Z) : result Z :=
  match BLOCKS_PER_HALVING with
  | None =>
      if MINIMUM_TOKENS_PER_BLOCK =? INITIAL_TOKENS_PER_BLOCK then Ok MINIMUM_TOKENS_PER_BLOCK else Err AssertionError
  | Some blocks_per_halving =>
      let number_of_halvings := Z.max 0 ((height - 1) / blocks_per_halving) in
      if MAXIMUM_NUMBER_OF_HALVINGS <? number_of_halvings then Ok MINIMUM_TOKENS_PER_BLOCK
      else Ok (Z.max (INITIAL_TOKENS_PER_BLOCK / 2 ^ number_of_halvings) MINIMUM_TOKENS_PER_BLOCK)
  end.

(** one turn of the loop of [get_mined_tokens]: tokens mined, tokens per block *)
Definition halving_step (blocks_per_halving : Z) (s : Z * Z) : Z * Z :=
  let '(mined_tokens, tokens_per_block) := s in
  (mined_tokens + blocks_per_halving * tokens_per_block, Z.max (tokens_per_block / 2) MINIMUM_TOKENS_PER_BLOCK).

(** [for _ in range(n)] *)
Fixpoint halvings (n : nat) (blocks_per_halving : Z) : Z * Z :=
  match n with O => (0, INITIAL_TOKENS_PER_BLOCK) | S n => halving_step blocks_per_halving (halvings n blocks_per_halving) end.

Definition get_mined_tokens (height : Z) : result Z :=
  match BLOCKS_PER_HALVING with
  | None => Err AssertionError
  | Some blocks_per_halving =>
      let number_of_halvings := Z.max 0 ((height - 1) / blocks_per_halving) in
      let blocks_in_this_halving := height - number_of_halvings * blocks_per_halving in
      let '(mined_tokens, tokens_per_block) :=
        halvings (Z.to_nat number_of_halvings) blocks_per_halving in
      Ok (mined_tokens + blocks_in_this_halving * tokens_per_block)
  end.

(** ** Weights *)

Definition _calculate_N (parent_block : vertex) : Z := Z.min (2 * BLOCK_DIFFICULTY_N_BLOCKS) (get_height parent_block - 1).

Section getter.
Context (parent_block_getter : vertex -> result vertex).

(** the [while] loop of [get_block_dependencies] *)
Fixpoint dependency_loop (n : nat) (parent_block : vertex) : result (list bytes) :=
  match n with
  | O => Ok []
  | S n =>
      let? parent_block := parent_block_getter parent_block in
      let? ids := dependency_loop n parent_block in
      Ok (v_hash parent_block :: ids)
  end.

Definition get_block_dependencies (block : vertex) : result (list bytes) :=
  let? parent_block := parent_block_getter block in
  let N := _calculate_N parent_block in
  let? ids := dependency_loop (Z.to_nat (N + 1)) parent_block in
  Ok (v_hash parent_block :: ids).

(** [while len(blocks) < N + 1], newest block first *)
Fixpoint window_loop (n : nat) (root : vertex) : result (list vertex) :=
  match n with
  | O => Ok []
  | S n =>
      let? next := parent_block_getter root in
      let? blocks := window_loop n next in
      Ok (root :: blocks)
  end.

(** [blocks == sorted(blocks, key=lambda tx: -tx.timestamp)]: a stable sort leaves the list
    as it is exactly when it is in order *)
Fixpoint newest_first (blocks : list vertex) : bool :=
  match blocks with
  | a :: (b :: _) as rest => (v_timestamp b <=? v_timestamp a) && newest_first rest
  | _ => true
  end.

(** solve times and weights of consecutive blocks, oldest first *)
Fixpoint solve_pairs (blocks : list vertex) : list (Z * spec_float) :=
  match blocks with
  | prev :: (block :: _) as rest => (v_timestamp block - v_timestamp prev, v_weight block) :: solve_pairs rest
  | _ => []
  end.

(** [prefix_sum_solvetimes], without its first zero *)
Fixpoint prefix_sums (acc : Z) (l : list Z) : list Z :=
  match l with [] => [] | st :: l => (acc + st) :: prefix_sums (acc + st) l end.

(** one turn of the loop over the last [N - K] blocks *)
Definition weight_step (K T S : Z) (pairs : list (Z * spec_float)) (prefix : list Z)
    (s : spec_float * spec_float) (i : Z) : result (spec_float * spec_float) :=
  let '(sum_solvetimes, logsum_weights) := s in
  let? p := py_index pairs i in
  let '(solvetime, weight) := p in
  let? hi := py_index prefix (i + 1) in
  let? lo := py_index prefix (i - K) in
  let? x := int_truediv (hi - lo) K in
  let? t := float_of_int T in
  let? two := float_of_int 2 in
  let? sq := fpow (fsub x t) two in
  let? k := float_of_int K in
  let? d := float_of_int (2 * T * T) in
  let? ki := fdiv (float_mul k sq) d in
  let? s5 := float_of_int S in
  let? scaled := fdiv ki s5 in
  let? one := float_of_int 1 in
  let ki := fmax one scaled in
  let? st := float_of_int solvetime in
  let sum_solvetimes := fadd sum_solvetimes (float_mul ki st) in
  let? l := log2 ki in
  let? logsum_weights := sum_weights logsum_weights (fadd l weight) in
  Ok (sum_solvetimes, logsum_weights).

Definition get_weight_decay_amount (distance : Z) : result spec_float :=
  if negb WEIGHT_DECAY_ENABLED then Ok (S754_zero false)
  else if distance <? WEIGHT_DECAY_ACTIVATE_DISTANCE then Ok (S754_zero false)
  else
    let dt := distance - WEIGHT_DECAY_ACTIVATE_DISTANCE in
    let? n := float_of_int (1 + dt / WEIGHT_DECAY_WINDOW_SIZE) in
    Ok (float_mul n WEIGHT_DECAY_AMOUNT).

(** with [TEST_MODE] disabled *)
Definition calculate_next_weight (parent_block : vertex) (timestamp : Z) : result spec_float :=
  let N := _calculate_N parent_block in
  let K := N / 2 in
  let T := AVG_TIME_BETWEEN_BLOCKS in
  if N <? 10 then Ok MIN_BLOCK_WEIGHT else
  let? blocks := window_loop (Z.to_nat (N + 1)) parent_block in
  if negb (newest_first blocks) then Err AssertionError else
  let pairs := solve_pairs (rev blocks) in
  let prefix := 0 :: prefix_sums 0 (map fst pairs) in
  let? s := rfold (weight_step K T 5 pairs prefix) (seqZ K (N - K)) (S754_zero false, S754_zero false) in
  let '(sum_solvetimes, logsum_weights) := s in
  let? l1 := log2 sum_solvetimes in
  let? t := float_of_int T in
  let? l2 := log2 t in
  let weight := fadd (fsub logsum_weights l1) l2 in
  let? decay := get_weight_decay_amount (timestamp - v_timestamp parent_block) in
  let weight := fsub weight decay in
  Ok (if SFltb weight MIN_BLOCK_WEIGHT then MIN_BLOCK_WEIGHT else weight).

Definition calculate_block_difficulty (block : vertex) : result spec_float :=
  if is_genesis block then Ok MIN_BLOCK_WEIGHT else
  let? parent_block := parent_block_getter block in
  calculate_next_weight parent_block (v_timestamp block).
End getter.

(** [sum_outputs] of a vertex *)
Definition sum_outputs (v : vertex) : Z :=
  fold_left (fun n o => if is_token_authority o then n else n + out_value o) (v_outputs v) 0.

Definition minimum_tx_weight (tx : vertex) : result spec_float :=
  if is_genesis tx then Ok MIN_TX_WEIGHT else
  let? struct_bytes := get_struct tx in
  let tx_size := blen struct_bytes in
  let? amount := int_truediv (Z.max 1 (sum_outputs tx)) (10 ^ DECIMAL_PLACES) in
  let? size := float_of_int tx_size in
  let? l := log2 size in
  let? k := float_of_int MIN_TX_WEIGHT_K in
  let? one := float_of_int 1 in
  let? four := float_of_int 4 in
  let? ka := fdiv k amount in
  let? q := fdiv four (fadd one ka) in
  let weight := fadd (fadd (float_mul MIN_TX_WEIGHT_COEFFICIENT l) q) four in
  Ok (fmax weight MIN_TX_WEIGHT).
End daa.

(** * The issuance schedule *)

Section issuance.
Context {DS : DaaSettings}.

Definition issued (height : Z) : Z := match get_tokens_issued_per_block height with Ok n => n | Err _ => 0 end.

(** the sum of the rewards of heights 1 to [n] *)
Fixpoint total_issued (n : nat) : Z :=
  match n with O => 0 | S n => total_issued n + issued (Z.of_nat (S n)) end.

(** the reward after [n] halvings *)
Definition reward_after (n : Z) : Z := Z.max (INITIAL_TOKENS_PER_BLOCK / 2 ^ n) MINIMUM_TOKENS_PER_BLOCK.

Context (B : Z).
Hypothesis halving : BLOCKS_PER_HALVING = Some B.
Hypothesis B_pos : 0 < B.
Hypothesis minimum_ok : 0 <= MINIMUM_TOKENS_PER_BLOCK <= INITIAL_TOKENS_PER_BLOCK.
(** after the maximum number of halvings the reward is down to the minimum *)
Hypothesis maximum_ok : 0 <= MAXIMUM_NUMBER_OF_HALVINGS /\
  INITIAL_TOKENS_PER_BLOCK / 2 ^ (MAXIMUM_NUMBER_OF_HALVINGS + 1) <= MINIMUM_TOKENS_PER_BLOCK.

Lemma reward_step n : 0 <= n -> Z.max (reward_after n / 2) MINIMUM_TOKENS_PER_BLOCK = reward_after (n + 1).
Proof using halving B_pos minimum_ok maximum_ok.
  intros Hn. unfold reward_after. rewrite Z.pow_add_r, <- Z.div_div by lia. change (2 ^ 1) with 2.
  set (x := INITIAL_TOKENS_PER_BLOCK / 2 ^ n). destruct (Z.max_spec x MINIMUM_TOKENS_PER_BLOCK) as [[H ->]|[H ->]]; [|done].
  assert (MINIMUM_TOKENS_PER_BLOCK / 2 <= MINIMUM_TOKENS_PER_BLOCK) by (apply Z.div_le_upper_bound; lia).
  assert (x / 2 <= MINIMUM_TOKENS_PER_BLOCK / 2) by (apply Z.div_le_mono; lia). lia.
Qed.

Lemma halvings_iter n : snd (halvings n B) = reward_after (Z.of_nat n) /\
  fst (halvings (S n) B) =
  fst (halvings n B) + B * reward_after (Z.of_nat n).
Proof using halving B_pos minimum_ok maximum_ok.
  assert (H : snd (halvings n B) = reward_after (Z.of_nat n)).
  { induction n as [|n IH]; [unfold reward_after; simpl; rewrite Z.div_1_r; lia|]. cbn [halvings].
    destruct (halvings n B) as [m t]. simpl in *. rewrite IH, reward_step by lia. f_equal. lia. }
  split; [done|]. cbn [halvings]. destruct (halvings n B) as [m t]. simpl in *. by rewrite H.
Qed.

Lemma issued_reward h : 0 <= h -> issued (h + 1) = reward_after (h / B).
Proof using halving B_pos minimum_ok maximum_ok.
  intros Hh. unfold issued, get_tokens_issued_per_block. rewrite halving. replace (h + 1 - 1) with h by lia.
  pose proof (Z.div_pos h B Hh B_pos). rewrite Z.max_r by lia. destruct (Z.ltb_spec MAXIMUM_NUMBER_OF_HALVINGS (h / B)); [|done].
  unfold reward_after. assert (INITIAL_TOKENS_PER_BLOCK / 2 ^ (h / B) <= MINIMUM_TOKENS_PER_BLOCK); [|lia].
  destruct maximum_ok as [Hm Hle]. etrans; [|exact Hle].
  apply Z.div_le_compat_l; [lia|]. split; [apply Z.pow_pos_nonneg; lia|]. apply Z.pow_le_mono_r; lia.
Qed.

(** [get_mined_tokens] with [q] past halvings *)
Lemma mined_eq h : get_mined_tokens h = let q := Z.max 0 ((h - 1) / B) in
  Ok (fst (halvings (Z.to_nat q) B) + (h - q * B) * reward_after q).
Proof using halving B_pos minimum_ok maximum_ok.
  unfold get_mined_tokens. rewrite halving. cbv zeta. destruct (halvings_iter (Z.to_nat (Z.max 0 ((h - 1) / B)))) as [E _].
  destruct (halvings _ B) as [m t]. simpl in *. rewrite E. rewrite Z2Nat.id by lia. done.
Qed.

Lemma mined_step h m : 0 <= h -> get_mined_tokens h = Ok m -> get_mined_tokens (h + 1) = Ok (m + issued (h + 1)).
Proof using halving B_pos minimum_ok maximum_ok.
  intros Hh. rewrite !mined_eq, issued_reward by done. cbv zeta. replace (h + 1 - 1) with h by lia. intros E. injection E as <-.
  pose proof (Z.div_pos h B Hh B_pos). rewrite (Z.max_r 0 (h / B)) by lia. f_equal.
  destruct (decide (h = 0)) as [->|Hne].
  { rewrite Z.div_0_l by lia. replace (Z.max 0 ((0 - 1) / B)) with 0; [simpl; lia|].
    assert ((0 - 1) / B < 0) by (apply Z.div_lt_upper_bound; lia). lia. }
  assert (0 <= (h - 1) / B) by (apply Z.div_pos; lia). rewrite Z.max_r by done.
  pose proof (Z.div_mod (h - 1) B ltac:(lia)) as Hd. pose proof (Z.mod_pos_bound (h - 1) B B_pos) as Hb.
  set (q := (h - 1) / B) in *. destruct (decide ((h - 1) mod B = B - 1)) as [E|E].
  - assert (Eq : h / B = q + 1) by (symmetry; apply (Z.div_unique h B (q + 1) 0); lia). rewrite Eq.
    replace (Z.to_nat (q + 1)) with (S (Z.to_nat q)) by lia. destruct (halvings_iter (Z.to_nat q)) as [_ ->].
    rewrite Z2Nat.id by done. nia.
  - assert (Eq : h / B = q) by (symmetry; apply (Z.div_unique h B q ((h - 1) mod B + 1)); lia). rewrite Eq. nia.
Qed.

Lemma mined_total n : get_mined_tokens (Z.of_nat n) = Ok (total_issued n).
Proof using halving B_pos minimum_ok maximum_ok.
  induction n as [|n IH].
  - rewrite mined_eq. cbv zeta. change (Z.of_nat 0) with 0. replace (Z.max 0 ((0 - 1) / B)) with 0; [simpl; f_equal; lia|].
    assert ((0 - 1) / B < 0) by (apply Z.div_lt_upper_bound; lia). lia.
  - cbn [total_issued]. rewrite Nat2Z.inj_succ. by apply mined_step; [lia|].
Qed.

(** The closed form agrees with the schedule: with settings whose maximum number of
    halvings brings the reward down to the minimum, the number of tokens [get_mined_tokens]
    reports for a height is the sum of the rewards [get_tokens_issued_per_block] grants to
    all blocks up to that height. *)
Theorem mined_tokens_sum height : 0 <= height ->
  get_mined_tokens height = Ok (total_issued (Z.to_nat height)).
Proof using halving B_pos minimum_ok maximum_ok.
  intros Hh. rewrite <- (Z2Nat.id height) at 1 by done. apply mined_total.
Qed.
End issuance.

Section demo.
Definition demo_daa : DaaSettings :=
  {| AVG_TIME_BETWEEN_BLOCKS := 30; MIN_BLOCK_WEIGHT := S754_zero false; BLOCK_DIFFICULTY_N_BLOCKS := 134;
     WEIGHT_DECAY_ENABLED := true; WEIGHT_DECAY_ACTIVATE_DISTANCE := 3600; WEIGHT_DECAY_WINDOW_SIZE := 60;
     WEIGHT_DECAY_AMOUNT := S754_zero false; MIN_TX_WEIGHT := S754_zero false; MIN_TX_WEIGHT_COEFFICIENT := S754_zero false;
     MIN_TX_WEIGHT_K := 100; DECIMAL_PLACES := 2; BLOCKS_PER_HALVING := Some 1051200;
     INITIAL_TOKENS_PER_BLOCK := 6400; MINIMUM_TOKENS_PER_BLOCK := 800; MAXIMUM_NUMBER_OF_HALVINGS := 3 |}.

#[local] Existing Instance demo_daa.

Lemma mined_tokens_sum_witness : get_mined_tokens 3 = Ok 19200 /\ get_mined_tokens 3 = Ok (total_issued 3).
Proof.
  split; [vm_compute; reflexivity|].
  apply (mined_tokens_sum 1051200); [reflexivity|lia|vm_compute; split; discriminate|vm_compute; split; discriminate|lia].
Defined.
End demo.
