(* ===== verification/FeatureActivation.v ===== *)
(** Feature activation: [hathor/feature_activation/feature_service.py],
    [bit_signaling_service.py], [model/criteria.py], [model/feature_state.py] and
    [settings.py]. *)

From stdpp Require Import base list sorting gmap.
From Stdlib Require Import ZArith Lia.
From S2P Require Import Prelude PyInt ScriptVM TxStruct TokenInfo StaticMetadata Metadata.

Local Open Scope Z_scope.
Local Open Scope py_scope.

Inductive FeatureState : Type := DEFINED | STARTED | MUST_SIGNAL | LOCKED_IN | ACTIVE | FAILED.

#[export] Instance FeatureState_eq_dec : EqDecision FeatureState.
Proof. solve_decision. Defined.

Definition is_active (s : FeatureState) : bool := bool_decide (s = ACTIVE).

Definition get_signaling_states : list FeatureState := [STARTED; MUST_SIGNAL; LOCKED_IN].

#[export] Instance Feature_countable : Countable Feature.
Proof.
  refine (inj_countable'
    (fun f => match f with
      | NOP_FEATURE_1 => 0 | NOP_FEATURE_2 => 1 | NOP_FEATURE_3 => 2
      | INCREASE_MAX_MERKLE_PATH_LENGTH => 3 | COUNT_CHECKDATASIG_OP => 4 | NANO_CONTRACTS => 5 end%nat)
    (fun n => match n with
      | 0 => NOP_FEATURE_1 | 1 => NOP_FEATURE_2 | 2 => NOP_FEATURE_3
      | 3 => INCREASE_MAX_MERKLE_PATH_LENGTH | 4 => COUNT_CHECKDATASIG_OP | _ => NANO_CONTRACTS end%nat) _).
  by intros [].
Defined.

(** * Settings *)

Section settings.
Context {FS : FeatureSettings}.

Definition get_threshold (c : Criteria) : Z := default default_threshold (threshold c).

(** [Criteria.to_validated]: the validators of the fields, each a [ValueError] *)
Definition _validate_bit (c : Criteria) : bool := bit c <? max_signal_bits.
Definition _validate_timeout_height (c : Criteria) : bool :=
  start_height c + 2 * evaluation_interval <=? timeout_height c.
Definition _validate_threshold (c : Criteria) : bool :=
  match threshold c with Some t => t <=? evaluation_interval | None => true end.
Definition _validate_evaluation_interval_multiple (value : Z) : bool := value mod evaluation_interval =? 0.

Definition nonnegative_fields (c : Criteria) : bool :=
  (0 <=? bit c) && (0 <=? start_height c) && (0 <=? timeout_height c) &&
  match threshold c with Some t => 0 <=? t | None => true end && (0 <=? minimum_activation_height c).

Definition to_validated (c : Criteria) : result Criteria :=
  if nonnegative_fields c && _validate_bit c && _validate_timeout_height c && _validate_threshold c &&
     _validate_evaluation_interval_multiple (start_height c) && _validate_evaluation_interval_multiple (timeout_height c) &&
     _validate_evaluation_interval_multiple (minimum_activation_height c)
  then Ok c else Err ValueError.

(** [FeatureInterval] *)
Record FeatureInterval : Type := mkInterval { begin : Z; end_ : Z; interval_feature : Feature }.

(** [_get_intervals_by_bit]: a dictionary from bits to intervals, in order *)
Definition add_interval (d : list (Z * list FeatureInterval)) (fc : Feature * Criteria) : list (Z * list FeatureInterval) :=
  let '(f, c) := fc in
  let intervals := default [] (od_get d (bit c)) in
  od_set d (bit c) (intervals ++ [mkInterval (start_height c) (timeout_height c) f]).

Definition _get_intervals_by_bit (fs : list (Feature * Criteria)) : list (Z * list FeatureInterval) :=
  fold_left add_interval fs [].

Definition begin_le (a b : FeatureInterval) : Prop := begin a <= begin b.

#[export] Instance begin_le_dec : RelDecision begin_le.
Proof. intros a b. unfold begin_le. apply _. Defined.

Fixpoint overlap_loop (previous : option FeatureInterval) (l : list FeatureInterval) :
    option (FeatureInterval * FeatureInterval) :=
  match l with
  | [] => None
  | current :: l =>
      match previous with
      | Some p => if begin current <=? end_ p then Some (p, current) else overlap_loop (Some current) l
      | None => overlap_loop (Some current) l
      end
  end.

Definition _find_overlap (intervals : list FeatureInterval) : option (FeatureInterval * FeatureInterval) :=
  overlap_loop None (merge_sort begin_le intervals).

Definition _validate_conflicting_bits (fs : list (Feature * Criteria)) : result unit :=
  rfor (_get_intervals_by_bit fs) (fun e => match _find_overlap (snd e) with Some _ => Err ValueError | None => Ok tt end).

(** the validators of [Settings], for the features it holds *)
Definition validate_settings : result unit :=
  if (evaluation_interval <=? 0) || (max_signal_bits <? 1) || (8 <? max_signal_bits) || (default_threshold <? 0) ||
     (evaluation_interval <? default_threshold)
  then Err ValueError
  else
    let? _ := rfor features (fun fc => let? _ := to_validated (snd fc) in Ok tt) in
    _validate_conflicting_bits features.
End settings.

(** * [FeatureService] *)

(** the cached states of the blocks' metadata, and the features a miner supports or not,
    which [BitSignalingService] holds *)
Record fs_state : Type := mkFs {
  feature_states : gmap (bytes * Feature) FeatureState;
  _support_features : gset Feature;
  _not_support_features : gset Feature
}.

Definition FM : Type -> Type := M fs_state.

Section service.
Context {TS : TxSettings} {VS : VertexStorage} {SM : StaticStore} {FS : FeatureSettings} {NS : NodeState}.

(** ** Blocks *)

Definition get_feature_state (block : vertex) (feature : Feature) : FM (option FeatureState) := fun s =>
  (Ok (feature_states s !! (v_hash block, feature)), s).

(** [assert previous_state is None] before a state is set for the first time; saving writes
    the same metadata to the database *)
Definition set_feature_state (block : vertex) (feature : Feature) (state : FeatureState) : FM unit := fun s =>
  match feature_states s !! (v_hash block, feature) with
  | Some st => if bool_decide (state = st) then (Ok tt, s) else (Err AssertionError, s)
  | None => (Ok tt, mkFs (<[(v_hash block, feature) := state]> (feature_states s)) (_support_features s) (_not_support_features s))
  end.

(** ** [BitSignalingService], its state *)

Definition add_feature_support (feature : Feature) : FM unit := fun s =>
  (Ok tt, mkFs (feature_states s) ({[feature]} ∪ _support_features s) (_not_support_features s ∖ {[feature]})).

Definition remove_feature_support (feature : Feature) : FM unit := fun s =>
  (Ok tt, mkFs (feature_states s) (_support_features s ∖ {[feature]}) ({[feature]} ∪ _not_support_features s)).

Definition on_must_signal (feature : Feature) : FM unit := add_feature_support feature.

(** ** Ancestors *)

(** the [while] loop: one parent per unit of height *)
Fixpoint ancestor_loop (fuel : nat) (ancestor : vertex) (ancestor_height : Z) : result vertex :=
  if ancestor_height <? get_height ancestor then
    match fuel with
    | O => Err OutOfFuel
    | S fuel => let? parent := get_block_parent ancestor in ancestor_loop fuel parent ancestor_height
    end
  else Ok ancestor.

Definition _get_ancestor_iteratively (block : vertex) (ancestor_height : Z) : result vertex :=
  if ancestor_height <? 0 then Err AssertionError
  else if evaluation_interval <? get_height block - ancestor_height then Err AssertionError
  else ancestor_loop (Z.to_nat (get_height block - ancestor_height)) block ancestor_height.

Definition _get_ancestor_at_height (block : vertex) (ancestor_height : Z) : result vertex :=
  if get_height block <=? ancestor_height then Err AssertionError else
  let? parent_block := get_block_parent block in
  let parent_metadata := get_metadata parent_block in
  if negb (is_fully_connected (validation parent_metadata)) then Err AssertionError
  else if get_height parent_block =? ancestor_height then Ok parent_block
  else if negb (truthy_set (voided_by parent_metadata)) then
    let? ancestor := get_block_by_height ancestor_height in
    match ancestor with Some a => Ok a | None => Err AssertionError end
  else _get_ancestor_iteratively parent_block ancestor_height.

(** ** States *)

Definition _calculate_new_state (boundary_block : vertex) (feature : Feature) (previous_state : FeatureState) :
    result FeatureState :=
  let height := get_height boundary_block in
  match od_get features feature with
  | None => Ok DEFINED
  | Some criteria =>
      if is_genesis boundary_block then Err AssertionError
      else if negb (height mod evaluation_interval =? 0) then Err AssertionError
      else match previous_state with
      | DEFINED => Ok (if start_height criteria <=? height then STARTED else DEFINED)
      | STARTED =>
          if (timeout_height criteria <=? height) && negb (lock_in_on_timeout criteria) then Ok FAILED
          else
            let? parent_block := get_block_parent boundary_block in
            let? count := py_index (bit_counts parent_block) (bit criteria) in
            if (height <? timeout_height criteria) && (get_threshold criteria <=? count) then Ok LOCKED_IN
            else if (timeout_height criteria <=? height + evaluation_interval) && lock_in_on_timeout criteria
            then Ok MUST_SIGNAL
            else Ok STARTED
      | MUST_SIGNAL => Ok LOCKED_IN
      | LOCKED_IN => Ok (if minimum_activation_height criteria <=? height then ACTIVE else LOCKED_IN)
      | ACTIVE => Ok ACTIVE
      | FAILED => Ok FAILED
      end
  end.

Fixpoint get_state_fuel (fuel : nat) (block : vertex) (feature : Feature) : FM FeatureState :=
  if is_genesis block then ret DEFINED else
  let! cached := get_feature_state block feature in
  match cached with
  | Some state => ret state
  | None =>
      match fuel with
      | O => raise OutOfFuel
      | S fuel =>
          let height := get_height block in
          let offset_to_boundary := height mod evaluation_interval in
          let offset_to_previous_boundary :=
            if offset_to_boundary =? 0 then evaluation_interval else offset_to_boundary in
          let previous_boundary_height := height - offset_to_previous_boundary in
          if previous_boundary_height <? 0 then raise AssertionError else
          let! previous_boundary_block := lift (_get_ancestor_at_height block previous_boundary_height) in
          let! previous_boundary_state := get_state_fuel fuel previous_boundary_block feature in
          set_feature_state previous_boundary_block feature previous_boundary_state ;;;
          if negb (offset_to_boundary =? 0) then ret previous_boundary_state else
          let! new_state := lift (_calculate_new_state block feature previous_boundary_state) in
          (if bool_decide (new_state = MUST_SIGNAL) then on_must_signal feature else ret tt) ;;;
          set_feature_state block feature new_state ;;;
          ret new_state
      end
  end.

(** each call goes to a block of lower height *)
Definition get_state (block : vertex) (feature : Feature) : FM FeatureState :=
  get_state_fuel (Z.to_nat (get_height block)) block feature.

Definition _get_feature_activation_block (v : vertex) : result vertex :=
  if is_block v then Ok v else get_block (closest_ancestor v).

Definition is_feature_active (v : vertex) (feature : Feature) : FM bool :=
  let! block := lift (_get_feature_activation_block v) in
  let! state := get_state block feature in
  ret (is_active state).

(** [get_feature_infos]: the states of all features, in the order of the settings *)
Fixpoint infos_loop (block : vertex) (fs : list (Feature * Criteria)) : FM (list (Feature * (Criteria * FeatureState))) :=
  match fs with
  | [] => ret []
  | (feature, criteria) :: fs =>
      let! state := get_state block feature in
      let! rest := infos_loop block fs in
      ret ((feature, (criteria, state)) :: rest)
  end.

Definition get_feature_infos (v : vertex) : FM (list (Feature * (Criteria * FeatureState))) :=
  let! block := lift (_get_feature_activation_block v) in infos_loop block features.

Definition get_feature_states (v : vertex) : FM (list (Feature * FeatureState)) :=
  let! infos := get_feature_infos v in
  ret (map (fun e => (fst e, snd (snd e))) infos).

Inductive BlockSignalingState : Type := BlockIsSignaling | BlockIsMissingSignal (feature : Feature).

Fixpoint mandatory_loop (counts : list Z) (remaining_blocks : Z)
    (infos : list (Feature * (Criteria * FeatureState))) : result BlockSignalingState :=
  match infos with
  | [] => Ok BlockIsSignaling
  | (feature, (criteria, state)) :: infos =>
      if bool_decide (state = MUST_SIGNAL) then
        let? count := py_index counts (bit criteria) in
        if remaining_blocks <? get_threshold criteria - count then Ok (BlockIsMissingSignal feature)
        else mandatory_loop counts remaining_blocks infos
      else mandatory_loop counts remaining_blocks infos
  end.

Definition is_signaling_mandatory_features (block : vertex) : FM BlockSignalingState :=
  let offset_to_boundary := get_height block mod evaluation_interval in
  let remaining_blocks := evaluation_interval - offset_to_boundary - 1 in
  let! infos := get_feature_infos block in
  lift (mandatory_loop (bit_counts block) remaining_blocks infos).

(** * [BitSignalingService] *)

Definition _get_signaling_features (block : vertex) : FM (list (Feature * Criteria)) :=
  let! infos := get_feature_infos block in
  let signaling := map (fun e => (fst e, fst (snd e)))
    (filter (fun e => snd (snd e) ∈ get_signaling_states) infos) in
  if max_signal_bits <? Z.of_nat (length signaling) then raise AssertionError else ret signaling.

(** the value of the bit of a feature *)
Definition enable_bit (s : fs_state) (f : Feature) (c : Criteria) : bool :=
  (signal_support_by_default c || bool_decide (f ∈ _support_features s)) &&
  negb (bool_decide (f ∈ _not_support_features s)).

Definition _calculate_feature_signals (block : vertex) : FM (list (Feature * (Criteria * bool))) :=
  let! signaling := _get_signaling_features block in
  fun s => (Ok (map (fun fc => (fst fc, (snd fc, enable_bit s (fst fc) (snd fc)))) signaling), s).

Definition generate_signal_bits (block : vertex) : FM Z :=
  let! signals := _calculate_feature_signals block in
  ret (fold_left (fun acc e => Z.lor acc (Z.shiftl (Z.b2z (snd (snd e))) (bit (fst (snd e))))) signals 0).

Definition get_support_features : FM (list Feature) :=
  let! best_block := lift get_best_block in
  let! signals := _calculate_feature_signals best_block in
  ret (map fst (filter (fun e => Is_true (snd (snd e))) signals)).

Definition get_not_support_features : FM (list Feature) :=
  let! best_block := lift get_best_block in
  let! signals := _calculate_feature_signals best_block in
  ret (map fst (filter (fun e => Is_true (negb (snd (snd e)))) signals)).
End service.
