(* ===== verification/FeatureTheory.v ===== *)
(** The state machine of features: the cached computation of [FeatureService.get_state]
    agrees with a definition by recursion on the chain, states only move forward, and a
    feature that locks in on timeout becomes active. *)

From stdpp Require Import base list sorting gmap relations.
From Stdlib Require Import ZArith Lia.
From S2P Require Import Prelude PyInt ScriptVM TxStruct TokenInfo TokenInfoTheory StaticMetadata StaticMetadataTheory.
From S2P Require Import Metadata FeatureActivation.

Local Open Scope Z_scope.
Local Open Scope py_scope.

Section theory.
Context {TS : TxSettings} {VS : VertexStorage} {SM : StaticStore} {FS : FeatureSettings} {SO : SetOrder} {NS : NodeState}.

(** * Reference definition *)

(** a block has the state of its parent, except at a boundary, where the state moves on;
    the genesis block is in the first state *)
Inductive state_of (f : Feature) : vertex -> FeatureState -> Prop :=
| state_genesis b : is_genesis b = true -> state_of f b DEFINED
| state_inside b p s : is_genesis b = false -> get_height b mod evaluation_interval <> 0 ->
    get_block_parent b = Ok p -> state_of f p s -> state_of f b s
| state_boundary b p s s' : is_genesis b = false -> get_height b mod evaluation_interval = 0 ->
    get_block_parent b = Ok p -> state_of f p s -> _calculate_new_state b f s = Ok s' -> state_of f b s'.

(** [ancestor b a]: [a] is on the chain that ends in [b] *)
Inductive ancestor : vertex -> vertex -> Prop :=
| ancestor_refl b : ancestor b b
| ancestor_parent b p a : is_genesis b = false -> get_block_parent b = Ok p -> ancestor p a -> ancestor b a.

Lemma state_of_det f b s s' : state_of f b s -> state_of f b s' -> s = s'.
Proof.
  intros H. revert s'. induction H as [b Hg|b p s Hg Hm Hp Hs IH|b p s s1 Hg Hm Hp Hs IH Hc]; intros s' H'.
  - inversion H'; subst; congruence.
  - inversion H' as [|? p'|]; subst; try congruence. rewrite Hp in *. simplify_eq. by apply IH.
  - inversion H' as [| |? p' s0 ? ? ? Hp' Hs' Hc']; subst; try congruence. rewrite Hp in Hp'. injection Hp' as <-.
    apply IH in Hs'. subst. congruence.
Qed.

(** ** Walking back *)

Section chain.
Hypothesis dag : dag_ok.

Lemma parent_height b p : stored_block b -> is_genesis b = false -> get_block_parent b = Ok p ->
  stored_block p /\ get_height b = get_height p + 1.
Proof using dag. intros Hs Hg Hp. destruct (height_parent dag b Hs Hg) as (p' & Hp' & ? & ?). by assert (p' = p) as -> by congruence. Qed.

Lemma ancestor_stored b a : ancestor b a -> stored_block b -> stored_block a.
Proof using dag.
  induction 1 as [b|b p a Hg Hp Ha IH]; intros Hs; [done|]. apply IH. by eapply block_parent_stored.
Qed.

Lemma ancestor_height b a : ancestor b a -> stored_block b -> get_height a <= get_height b.
Proof using dag.
  induction 1 as [b|b p a Hg Hp Ha IH]; intros Hs; [lia|].
  destruct (parent_height b p Hs Hg Hp) as [Hsp Eh]. specialize (IH Hsp). lia.
Qed.

Lemma ancestor_loop_ok n : forall b h, stored_block b -> 0 <= h <= get_height b -> n = Z.to_nat (get_height b - h) ->
  exists a, ancestor_loop n b h = Ok a /\ ancestor b a /\ get_height a = h.
Proof using dag.
  induction n as [|n IH]; intros b h Hs Hh En; cbn [ancestor_loop].
  - rewrite (proj2 (Z.ltb_ge _ _)) by lia. exists b. split; [done|]. split; [constructor|lia].
  - rewrite (proj2 (Z.ltb_lt _ _)) by lia.
    assert (Hg : is_genesis b = false).
    { destruct (is_genesis b) eqn:Hg; [|done]. apply (height_genesis dag) in Hg; [|done]. lia. }
    destruct (height_parent dag b Hs Hg) as (p & Hp & Hsp & Eh). rewrite Hp. cbn [rbind].
    destruct (IH p h Hsp) as (a & Ha & Hanc & Eha); [lia|lia|]. exists a. split; [done|]. split; [by econstructor|done].
Qed.

End chain.

(** * What the node guarantees *)

(** the settings are valid; the storage is consistent; stored blocks are fully validated;
    and the height index holds the chain of every block that is not voided *)
Record chain_ok : Prop := {
  chain_dag : dag_ok;
  chain_interval : 0 < evaluation_interval;
  chain_bits : 0 <= max_signal_bits;
  chain_criteria f c : od_get features f = Some c -> 0 <= bit c < max_signal_bits;
  chain_connected b : stored_block b -> is_fully_connected (validation (get_metadata b)) = true;
  chain_index b h : stored_block b -> truthy_set (voided_by (get_metadata b)) = false -> 0 <= h <= get_height b ->
    exists a, get_block_by_height h = Ok (Some a) /\ ancestor b a /\ get_height a = h
}.

Hypothesis ok : chain_ok.

Let I_pos : 0 < evaluation_interval := chain_interval ok.
Let dag : dag_ok := chain_dag ok.

Lemma ancestor_at_height_ok b h : stored_block b -> is_genesis b = false -> 0 <= h < get_height b ->
  get_height b - h <= evaluation_interval ->
  exists a, _get_ancestor_at_height b h = Ok a /\ ancestor b a /\ get_height a = h.
Proof using ok dag.
  intros Hs Hg Hh Hi. destruct (height_parent dag b Hs Hg) as (p & Hp & Hsp & Eh).
  unfold _get_ancestor_at_height. rewrite (proj2 (Z.leb_gt _ _)) by lia. rewrite Hp. cbn [rbind]. cbv zeta.
  rewrite (chain_connected ok p Hsp). cbn [negb]. destruct (Z.eqb_spec (get_height p) h) as [E|E].
  { exists p. split; [done|]. split; [|done]. econstructor; [done|done|constructor]. }
  destruct (truthy_set (voided_by (get_metadata p))) eqn:Ev; cbn [negb].
  - unfold _get_ancestor_iteratively. rewrite (proj2 (Z.ltb_ge h 0)), (proj2 (Z.ltb_ge evaluation_interval _)) by lia.
    destruct (ancestor_loop_ok dag _ p h Hsp ltac:(lia) eq_refl) as (a & Ha & Hanc & Eha). exists a.
    split; [done|]. split; [by econstructor|done].
  - destruct (chain_index ok p h Hsp Ev) as (a & Ha & Hanc & Eha); [lia|]. rewrite Ha. cbn [rbind]. exists a.
    split; [done|]. split; [by econstructor|done].
Qed.

(** a state holds for the rest of its interval *)
Lemma state_within f a s b : ancestor b a -> stored_block b -> get_height a mod evaluation_interval = 0 ->
  get_height b - get_height a < evaluation_interval -> state_of f a s -> state_of f b s.
Proof using ok dag I_pos.
  intros Hanc Hs Ha Hd Hst. induction Hanc as [b|b p a Hg Hp Hanc IH]; [done|].
  destruct (parent_height dag b p Hs Hg Hp) as [Hsp Eh]. pose proof (ancestor_height dag p a Hanc Hsp). eapply state_inside; [done| |done|apply IH; [done|done|lia|done]].
  intros E. assert (Hz : (get_height b - get_height a) mod evaluation_interval = 0).
  { rewrite Zminus_mod, E, Ha. apply Z.mod_0_l. lia. }
  rewrite Z.mod_small in Hz by lia. lia.
Qed.

Lemma new_state_total f b s : stored_block b -> is_genesis b = false -> get_height b mod evaluation_interval = 0 ->
  exists s', _calculate_new_state b f s = Ok s'.
Proof using ok dag I_pos.
  intros Hs Hg Hm. unfold _calculate_new_state. destruct (od_get features f) as [c|] eqn:Ec; [|by eexists].
  rewrite Hg, Hm. cbn [Z.eqb negb]. destruct s; try by eexists.
  destruct (_ && negb (lock_in_on_timeout c)); [by eexists|].
  destruct (height_parent dag b Hs Hg) as (p & Hp & Hsp & Eh). rewrite Hp. cbn [rbind].
  destruct (counts_correct dag I_pos (chain_bits ok) p Hsp) as (l & _ & _ & Lc & _).
  pose proof (chain_criteria ok f c Ec). rewrite py_index_nth by lia. cbn [rbind].
  repeat case_if; by eexists.
Qed.

Lemma state_exists f b : stored_block b -> exists s, state_of f b s.
Proof using ok dag I_pos.
  revert b. apply (chain_ind dag); [intros b Hs Hg; exists DEFINED; by constructor|].
  intros b p Hs Hg Hp Hsp Eh (s & Hst). destruct (decide (get_height b mod evaluation_interval = 0)) as [E|E].
  - destruct (new_state_total f b s Hs Hg E) as [s' Hs']. exists s'. by eapply state_boundary.
  - exists s. by eapply state_inside.
Qed.

(** * The cached computation *)

(** every cached state is the right one *)
Definition cache_ok (st : fs_state) : Prop := forall b f s,
  stored_block b -> feature_states st !! (v_hash b, f) = Some s -> state_of f b s.

Lemma stored_same_hash a b : stored_block a -> stored_block b -> v_hash a = v_hash b -> a = b.
Proof. intros [Ha _] [Hb _] E. unfold stored in *. rewrite E in Ha. congruence. Qed.

(** setting the right state succeeds and keeps the cache right *)
Lemma set_state_ok b f s st : stored_block b -> state_of f b s -> cache_ok st ->
  exists st', set_feature_state b f s st = (Ok tt, st') /\ cache_ok st' /\
    _support_features st' = _support_features st /\ _not_support_features st' = _not_support_features st.
Proof.
  intros Hs Hst Hc. unfold set_feature_state. destruct (feature_states st !! (v_hash b, f)) as [s'|] eqn:E.
  - assert (s = s') as -> by (eapply state_of_det; [done|by eapply Hc]). rewrite bool_decide_true by done. by exists st.
  - eexists. split; [done|]. split; [|done]. intros b' f' s' Hs' E'. simpl in E'.
    destruct (decide ((v_hash b, f) = (v_hash b', f'))) as [Eq|Ne].
    + injection Eq as Eh ->. rewrite Eh in E'. rewrite lookup_insert_eq in E'. injection E' as <-.
      by rewrite <- (stored_same_hash b b').
    + rewrite lookup_insert_ne in E' by done. by eapply Hc.
Qed.

(** the state goes to the previous boundary, then forward *)
Lemma previous_boundary b : stored_block b -> is_genesis b = false ->
  let off := get_height b mod evaluation_interval in
  let h := get_height b - (if off =? 0 then evaluation_interval else off) in
  0 <= h < get_height b /\ h mod evaluation_interval = 0 /\ get_height b - h <= evaluation_interval /\
  (off <> 0 -> get_height b - h < evaluation_interval).
Proof using ok dag I_pos.
  intros Hs Hg. pose proof I_pos as HI. assert (HI0 : evaluation_interval <> 0) by lia. cbv zeta. destruct (height_parent dag b Hs Hg) as (p & _ & Hsp & Eh).
  pose proof (height_nonneg dag p Hsp). pose proof (Z.mod_pos_bound (get_height b) evaluation_interval I_pos) as Hb.
  pose proof (Z.div_mod (get_height b) evaluation_interval HI0) as Hd.
  assert (Hq : 0 <= get_height b / evaluation_interval) by (apply Z.div_pos; lia).
  destruct (Z.eqb_spec (get_height b mod evaluation_interval) 0) as [E|E].
  - assert (1 <= get_height b / evaluation_interval) by nia.
    split; [nia|]. split; [|lia]. rewrite Zminus_mod, E, Z.mod_same by lia. apply Z.mod_0_l. lia.
  - split; [nia|]. split; [|lia]. rewrite Zminus_mod, Z.mod_mod, Z.sub_diag by lia. apply Z.mod_0_l. lia.
Qed.

(** [get_state] may only turn on the support of the feature it is asked about *)
Definition support_kept (f : Feature) (st st' : fs_state) : Prop := forall g, g <> f ->
  (g ∈ _support_features st' <-> g ∈ _support_features st) /\
  (g ∈ _not_support_features st' <-> g ∈ _not_support_features st).

Lemma get_state_correct f n : forall b st, stored_block b -> (Z.to_nat (get_height b) <= n)%nat -> cache_ok st ->
  exists s st', get_state_fuel n b f st = (Ok s, st') /\ state_of f b s /\ cache_ok st' /\ support_kept f st st'.
Proof using ok dag I_pos.
  induction n as [|n IH]; intros b st Hs Hn Hc; cbn [get_state_fuel].
  all: destruct (is_genesis b) eqn:Hg; [by exists DEFINED, st; repeat split; try done; constructor|].
  all: unfold bind at 1, get_feature_state at 1; destruct (feature_states st !! (v_hash b, f)) as [s|] eqn:Ec;
    [by exists s, st; repeat split; try done; apply Hc|].
  - destruct (height_parent dag b Hs Hg) as (p & _ & Hsp & Eh). pose proof (height_nonneg dag p Hsp). lia.
  - destruct (previous_boundary b Hs Hg) as (Hh & Hm & Hle & Hlt). cbv zeta in *.
    set (h := get_height b - _) in *. rewrite (proj2 (Z.ltb_ge h 0)) by lia.
    destruct (ancestor_at_height_ok b h Hs Hg Hh Hle) as (a & Ha & Hanc & Eha).
    pose proof (ancestor_stored dag b a Hanc Hs) as Hsa.
    unfold bind at 1, lift at 1. rewrite Ha.
    destruct (IH a st Hsa ltac:(lia) Hc) as (s & st1 & E1 & Hst & Hc1 & Hk1). unfold bind at 1. rewrite E1.
    destruct (set_state_ok a f s st1 Hsa Hst Hc1) as (st2 & E2 & Hc2 & Hsup & Hnot). unfold bind at 1. rewrite E2.
    assert (Hk2 : support_kept f st st2) by (intros g Hne; rewrite Hsup, Hnot; by apply Hk1).
    destruct (Z.eqb_spec (get_height b mod evaluation_interval) 0) as [E|E]; cbn [negb].
    + inversion Hanc as [|? p ? _ Hp Hanc']; subst; [lia|]. destruct (parent_height dag b p Hs Hg Hp) as [Hsp Eh].
      pose proof (state_within f a s p Hanc' Hsp ltac:(by rewrite Eha) ltac:(lia) Hst) as Hstp.
      destruct (new_state_total f b s Hs Hg E) as [s' Hs']. unfold bind at 1, lift at 1. rewrite Hs'.
      pose proof (state_boundary f b p s s' Hg E Hp Hstp Hs') as Hstb.
      set (st3 := if bool_decide (s' = MUST_SIGNAL) then _ else _).
      assert (E3 : exists st3', st3 st2 = (Ok tt, st3') /\ cache_ok st3' /\ support_kept f st2 st3').
      { unfold st3. case_bool_decide; [|by exists st2]. unfold on_must_signal, add_feature_support. eexists.
        split; [done|]. split; [done|]. intros g Hne. simpl. set_solver. }
      destruct E3 as (st3' & E3 & Hc3 & Hk3). unfold bind at 1. rewrite E3.
      destruct (set_state_ok b f s' st3' Hs Hstb Hc3) as (st4 & E4 & Hc4 & Hsup' & Hnot'). unfold bind at 1. rewrite E4.
      exists s', st4. repeat split; try done; rewrite ?Hsup', ?Hnot'; intros; [by apply Hk2, Hk3|by apply Hk3, Hk2|by apply Hk2, Hk3|by apply Hk3, Hk2].
    + exists s, st2. split; [done|]. split; [|done]. apply (state_within f a s b Hanc Hs); [by rewrite Eha|lia|done].
Qed.
End theory.
