(* ===== verification/FeatureClaims.v ===== *)
(** Guarantees of feature activation: agreement with the reference definition, forward-only
    histories, lock-in by enough signals, activation on timeout, and disjoint signalling
    periods. *)

From stdpp Require Import base list sorting gmap relations.
From Stdlib Require Import ZArith Lia Floats.SpecFloat.
From S2P Require Import Prelude PyInt ScriptVM TxStruct TokenInfo TokenInfoTheory StaticMetadata StaticMetadataTheory.
From S2P Require Import PyValue Metadata FeatureActivation FeatureTheory.

Local Open Scope Z_scope.
Local Open Scope py_scope.

(** the arrows between states *)
Inductive FeatureStep : FeatureState -> FeatureState -> Prop :=
| step_defined : FeatureStep DEFINED STARTED
| step_started_must : FeatureStep STARTED MUST_SIGNAL
| step_started_locked : FeatureStep STARTED LOCKED_IN
| step_started_failed : FeatureStep STARTED FAILED
| step_must : FeatureStep MUST_SIGNAL LOCKED_IN
| step_locked : FeatureStep LOCKED_IN ACTIVE.

#[export] Hint Constructors FeatureStep : feature.

Section theory.
Context {TS : TxSettings} {VS : VertexStorage} {SM : StaticStore} {FS : FeatureSettings} {SO : SetOrder} {NS : NodeState}.

Lemma new_state_step f c b s s' : od_get features f = Some c -> _calculate_new_state b f s = Ok s' ->
  s' = s \/ FeatureStep s s'.
Proof.
  intros Hc. unfold _calculate_new_state. rewrite Hc. destruct (is_genesis b); [done|]. destruct (negb _); [done|]. intros H.
  destruct s; try (repeat case_if; injection H as <-; auto with feature; done).
  destruct (_ && _); [injection H as <-; auto with feature|]. inv_rok H. inv_rok H.
  repeat case_if; injection H as <-; auto with feature.
Qed.

Lemma undefined_state f b s : od_get features f = None -> state_of f b s -> s = DEFINED.
Proof. intros Hn. induction 1 as [| |b p s s' ? ? ? ? IH Hc]; try done. unfold _calculate_new_state in Hc. rewrite Hn in Hc. congruence. Qed.

Lemma state_history f a b s s' : ancestor b a -> state_of f a s -> state_of f b s' -> rtc FeatureStep s s'.
Proof.
  destruct (od_get features f) as [c|] eqn:Ec.
  - intros H. revert s s'. induction H as [b|b p a Hg Hp Hanc IH]; intros s s' Ha Hb.
    + by rewrite (state_of_det f b s s') by done.
    + inversion Hb as [|? p' ? ? ? Hp' Hs'|? p' s1 ? ? ? Hp' Hs' Hn]; subst; [congruence| |].
      * assert (p' = p) as -> by congruence. by eapply IH.
      * assert (p' = p) as -> by congruence. transitivity s1; [by eapply IH|].
        destruct (new_state_step f c b s1 s' Ec Hn) as [->|Hs]; [done|by apply rtc_once].
  - intros _ Ha Hb. by rewrite (undefined_state f a s), (undefined_state f b s') by done.
Qed.

(** terminal states have no arrow out of them *)
Lemma rtc_terminal s s' : s = ACTIVE \/ s = FAILED -> rtc FeatureStep s s' -> s' = s.
Proof. intros Ht H. destruct H as [|s x s' Hs]; [done|]. destruct Ht; subst; inversion Hs. Qed.

(** C30: a feature's history on a chain only moves forward: from any block to a later one, the
    state follows the arrows DEFINED to STARTED, STARTED to MUST_SIGNAL, LOCKED_IN or FAILED,
    MUST_SIGNAL to LOCKED_IN, LOCKED_IN to ACTIVE; in particular a feature that is active, or
    failed, stays so on every block built on top. *)
Theorem feature_history f a b s s' : ancestor b a -> state_of f a s -> state_of f b s' ->
  rtc FeatureStep s s' /\ (s = ACTIVE \/ s = FAILED -> s' = s).
Proof.
  intros Hanc Ha Hb. pose proof (state_history f a b s s' Hanc Ha Hb) as H. split; [done|]. intros Ht. by apply rtc_terminal.
Qed.

Hypothesis ok : chain_ok.

(** C29: the cached, index-driven computation of a feature's state is the state defined by
    recursion on the chain: it always returns, the answer is that state whatever right
    states are cached, all states it caches are right, and it changes the miner's support
    of no other feature. *)
Theorem get_state_refines b f st : stored_block b -> cache_ok st ->
  exists s st', get_state b f st = (Ok s, st') /\ state_of f b s /\ cache_ok st' /\ support_kept f st st'.
Proof using ok. intros Hs Hc. by apply get_state_correct. Qed.

(** * Lock-in *)

Lemma infos_ok b st fs : stored_block b -> cache_ok st -> exists infos st',
  infos_loop b fs st = (Ok infos, st') /\ cache_ok st' /\
  forall f c, (f, c) ∈ fs -> exists s, state_of f b s /\ (f, (c, s)) ∈ infos.
Proof using ok.
  intros Hs. revert st. induction fs as [|[f c] fs IH]; intros st Hc; cbn [infos_loop].
  - exists [], st. split; [done|]. split; [done|]. intros f c H. by apply not_elem_of_nil in H.
  - destruct (get_state_correct ok f _ b st Hs (le_n _) Hc) as (s & st1 & E1 & Hst & Hc1 & _).
    unfold bind at 1, get_state. rewrite E1. destruct (IH st1 Hc1) as (infos & st2 & E2 & Hc2 & Hi).
    unfold bind at 1. rewrite E2. eexists _, st2. split; [done|]. split; [done|].
    intros f' c' H. apply elem_of_cons in H as [E|H].
    + injection E as -> ->. exists s. split; [done|by left].
    + destruct (Hi f' c' H) as (s' & ? & ?). exists s'. split; [done|by right].
Qed.

Lemma mandatory_loop_ok counts n infos f c : mandatory_loop counts n infos = Ok BlockIsSignaling ->
  (f, (c, MUST_SIGNAL)) ∈ infos -> exists count, py_index counts (bit c) = Ok count /\ get_threshold c - count <= n.
Proof.
  induction infos as [|[f' [c' s']] infos IH]; intros H Hi; [by apply not_elem_of_nil in Hi|]. cbn [mandatory_loop] in H.
  case_bool_decide as Es.
  - inv_rok H. destruct (Z.ltb_spec n (get_threshold c' - a)); [done|].
    apply elem_of_cons in Hi as [E|Hi]; [|by apply IH]. injection E as -> ->. by exists a.
  - apply elem_of_cons in Hi as [E|Hi]; [|by apply IH]. congruence.
Qed.

Lemma mandatory_count f c p st st' : od_get features f = Some c -> stored_block p -> cache_ok st -> state_of f p MUST_SIGNAL ->
  is_signaling_mandatory_features p st = (Ok BlockIsSignaling, st') ->
  exists count, py_index (bit_counts p) (bit c) = Ok count /\
    get_threshold c - count <= evaluation_interval - get_height p mod evaluation_interval - 1.
Proof using ok.
  intros Hc Hs Hca Hst H. unfold is_signaling_mandatory_features in H. unfold bind at 1, get_feature_infos, bind at 1, lift at 1 in H.
  unfold _get_feature_activation_block in H. destruct Hs as [Hs Hb]. rewrite Hb in H.
  destruct (infos_ok p st features (conj Hs Hb) Hca) as (infos & st1 & E & _ & Hi). rewrite E in H.
  unfold lift in H. injection H as H _. destruct (Hi f c) as (s & Hs' & Hin); [by apply od_get_in|].
  assert (s = MUST_SIGNAL) as -> by (by eapply state_of_det). by eapply mandatory_loop_ok.
Qed.

(** C32: no lock-in without support: when a feature becomes locked in at a boundary block, at
    least its threshold of the blocks of the interval just finished, which is a full
    interval, have signalled it, given that the last of them passed the verification of
    mandatory signalling. *)
Theorem locked_in_supported f c b p s st st' : od_get features f = Some c -> stored_block b -> is_genesis b = false ->
  get_block_parent b = Ok p -> state_of f p s -> state_of f b LOCKED_IN -> s <> LOCKED_IN ->
  cache_ok st -> is_signaling_mandatory_features p st = (Ok BlockIsSignaling, st') ->
  exists l, since_boundary p l /\ Z.of_nat (length l) = evaluation_interval /\
    get_threshold c <= Z.of_nat (length (List.filter (signals (bit c)) l)).
Proof using ok.
  intros Hc Hs Hg Hp Hsp Hsb Hne Hca Hm. destruct (parent_height (chain_dag ok) b p Hs Hg Hp) as [Hstp Eh].
  inversion Hsb as [|? p' ? ? ? Hp' Hs'|? p' s1 ? ? Hmod Hp' Hs' Hn]; subst.
  { exfalso. apply Hne. assert (p' = p) as -> by congruence. by eapply state_of_det. }
  assert (p' = p) as -> by congruence. assert (s1 = s) as -> by (by eapply state_of_det).
  rewrite Eh in Hmod. pose proof (mod_succ_boundary _ _ (chain_interval ok) Hmod) as Hlast.
  pose proof (chain_criteria ok f c Hc) as Hbit.
  destruct (counts_correct (chain_dag ok) (chain_interval ok) (chain_bits ok) p Hstp) as (l & Hl & Ll & Lc & Hcount).
  assert (Hpy : py_index (bit_counts p) (bit c) = Ok (Z.of_nat (length (List.filter (signals (bit c)) l)))).
  { rewrite py_index_nth by lia. rewrite Hcount by lia. by rewrite Z2Nat.id by lia. }
  exists l. split; [done|]. split; [lia|].
  destruct (new_state_step f c b s LOCKED_IN Hc Hn) as [E|E]; [done|]. inversion E; subst.
  - unfold _calculate_new_state in Hn. rewrite Hc, Hg in Hn. destruct (negb _); [done|].
    destruct (_ && negb (lock_in_on_timeout c)); [done|]. rewrite Hp in Hn. cbn [rbind] in Hn. rewrite Hpy in Hn. cbn [rbind] in Hn.
    destruct (_ && (get_threshold c <=? _)) eqn:Hle; [|by destruct (_ && lock_in_on_timeout c)].
    apply andb_true_iff in Hle as [_ Hle]. by apply Z.leb_le in Hle.
  - destruct (mandatory_count f c p st st' Hc Hstp Hca Hsp Hm) as (count & Ec & Hle). rewrite Hpy in Ec.
    injection Ec as <-. lia.
Qed.

(** * Progress *)

(** what holds from one interval before a boundary height carries over to what a step from
    it gives from that height on *)
Lemma progress f B (Qp Q : FeatureState -> Prop) : B mod evaluation_interval = 0 ->
  (forall b s, stored_block b -> state_of f b s -> B - evaluation_interval <= get_height b -> Qp s) ->
  (forall b s s', stored_block b -> B <= get_height b -> _calculate_new_state b f s = Ok s' -> Qp s -> Q s') ->
  0 < B -> forall b s, stored_block b -> state_of f b s -> B <= get_height b -> Q s.
Proof using ok.
  intros HB Hp Hq H0 b s Hs Hst. pose proof (chain_interval ok) as HI.
  induction Hst as [b Hg|b p s Hg Hm Hpar Hst IH|b p s s' Hg Hm Hpar Hst IH Hc]; intros Hle.
  - rewrite (height_genesis (chain_dag ok)) in Hle by done. lia.
  - destruct (parent_height (chain_dag ok) b p Hs Hg Hpar) as [Hsp Eh]. apply IH; [done|].
    destruct (decide (get_height b = B)) as [E|E]; [congruence|lia].
  - destruct (parent_height (chain_dag ok) b p Hs Hg Hpar) as [Hsp Eh]. apply (Hq b s s' Hs Hle Hc). apply (Hp p s Hsp Hst). lia.
Qed.

Lemma never_failed f c b s : od_get features f = Some c -> lock_in_on_timeout c = true -> state_of f b s -> s <> FAILED.
Proof.
  intros Hc Hl. induction 1 as [b Hg|b p s Hg Hm Hpar Hst IH|b p s s' Hg Hm Hpar Hst IH Hn]; try done.
  unfold _calculate_new_state in Hn. rewrite Hc, Hg, Hm, Hl in Hn. cbn [Z.eqb negb] in Hn. rewrite andb_false_r in Hn.
  destruct s; try (injection Hn as <-; by try case_if). inv_rok Hn. inv_rok Hn. repeat case_if; congruence.
Qed.

Section timeout.
Context (f : Feature) (c : Criteria).
Hypothesis Hc : od_get features f = Some c.
Hypothesis Hlock : lock_in_on_timeout c = true.
Hypothesis Hvalid : to_validated c = Ok c.

Lemma validated_facts : 0 <= start_height c /\ start_height c + 2 * evaluation_interval <= timeout_height c /\
  start_height c mod evaluation_interval = 0 /\ timeout_height c mod evaluation_interval = 0 /\
  minimum_activation_height c mod evaluation_interval = 0.
Proof using Hvalid.
  unfold to_validated, nonnegative_fields, _validate_timeout_height, _validate_evaluation_interval_multiple in Hvalid.
  destruct (_ && _) eqn:E in Hvalid; [|done]. rewrite !andb_true_iff, ?Z.leb_le, ?Z.eqb_eq in E. naive_solver.
Qed.

(** the height from which the feature must signal or is further *)
Definition must_height : Z :=
  Z.max (timeout_height c - evaluation_interval) (Z.max (start_height c) evaluation_interval + evaluation_interval).

Lemma mod_max_ a b n : a mod n = 0 -> b mod n = 0 -> Z.max a b mod n = 0.
Proof. intros. by destruct (Z.max_spec a b) as [[_ ->]|[_ ->]]. Qed.

Lemma mod_add_n a n : n <> 0 -> a mod n = 0 -> (a + n) mod n = 0.
Proof. intros Hn H. by rewrite <- Zplus_mod_idemp_r, Z.mod_same, Z.add_0_r by done. Qed.

(** the transition of a started or later feature with [lock_in_on_timeout] *)
Lemma lock_step b s s' : _calculate_new_state b f s = Ok s' -> s <> DEFINED -> s <> FAILED ->
  match s with
  | STARTED => s' = LOCKED_IN \/ s' = (if timeout_height c <=? get_height b + evaluation_interval then MUST_SIGNAL else STARTED)
  | MUST_SIGNAL => s' = LOCKED_IN
  | LOCKED_IN => s' = (if minimum_activation_height c <=? get_height b then ACTIVE else LOCKED_IN)
  | _ => s' = s
  end.
Proof using Hc Hlock.
  unfold _calculate_new_state. rewrite Hc, Hlock. cbn [negb]. rewrite andb_false_r.
  destruct (is_genesis b); [done|]. destruct (negb _); [done|]. intros H Hd Hf. destruct s; try done; try (by injection H as <-).
  inv_rok H. inv_rok H. rewrite andb_true_r in H. destruct (_ && _); [injection H as <-; by left|].
  right. destruct (timeout_height c <=? _); by injection H as <-.
Qed.

Lemma started_by b s : stored_block b -> state_of f b s -> Z.max (start_height c) evaluation_interval <= get_height b ->
  s <> DEFINED /\ s <> FAILED.
Proof using ok Hc Hlock Hvalid.
  destruct validated_facts as (Hs0 & _ & Hms & _). pose proof (chain_interval ok) as HI.
  revert b s. apply (progress f (Z.max (start_height c) evaluation_interval) (fun s => s <> FAILED) (fun s => s <> DEFINED /\ s <> FAILED)).
  - apply mod_max_; [done|]. apply Z.mod_same. lia.
  - intros b' s' _ Hst _. by eapply never_failed.
  - intros b' s1 s' _ Hle Hn Hf. assert (Hd : s1 <> DEFINED \/ s1 = DEFINED) by (destruct s1; auto).
    destruct Hd as [Hd| ->].
    + pose proof (lock_step b' s1 s' Hn Hd Hf) as H. destruct s1; try done; try (by subst s'); [|by subst s'; case_if].
      destruct H as [->| ->]; [done|]. by case_if.
    + unfold _calculate_new_state in Hn. rewrite Hc in Hn. destruct (is_genesis b'); [done|]. destruct (negb _); [done|].
      rewrite (proj2 (Z.leb_le _ _)) in Hn by lia. by injection Hn as <-.
  - lia.
Qed.

Lemma must_by b s : stored_block b -> state_of f b s -> must_height <= get_height b ->
  s = MUST_SIGNAL \/ s = LOCKED_IN \/ s = ACTIVE.
Proof using ok Hc Hlock Hvalid.
  destruct validated_facts as (Hs0 & _ & Hms & Hmt & _). pose proof (chain_interval ok) as HI. unfold must_height.
  revert b s. apply (progress f _ (fun s => s <> DEFINED /\ s <> FAILED) (fun s => s = MUST_SIGNAL \/ s = LOCKED_IN \/ s = ACTIVE)).
  - apply mod_max_; [|apply mod_add_n; [lia|]; apply mod_max_; [done|]; apply Z.mod_same; lia].
    rewrite Zminus_mod, Hmt, Z.mod_same by lia. apply Z.mod_0_l. lia.
  - intros b' s' Hb Hst Hle. apply (started_by b'); [done|done|lia].
  - intros b' s1 s' _ Hle Hn [Hd Hf]. pose proof (lock_step b' s1 s' Hn Hd Hf) as H. destruct s1; try done; try (by subst s'; auto).
    + destruct H as [->| ->]; [by auto|]. rewrite (proj2 (Z.leb_le _ _)) by lia. by auto.
    + subst s'. case_if; auto.
  - lia.
Qed.

Lemma locked_by b s : stored_block b -> state_of f b s -> must_height + evaluation_interval <= get_height b ->
  s = LOCKED_IN \/ s = ACTIVE.
Proof using ok Hc Hlock Hvalid.
  destruct validated_facts as (Hs0 & _ & Hms & Hmt & _). pose proof (chain_interval ok) as HI.
  revert b s. apply (progress f _ (fun s => s = MUST_SIGNAL \/ s = LOCKED_IN \/ s = ACTIVE) (fun s => s = LOCKED_IN \/ s = ACTIVE)).
  - apply mod_add_n; [lia|]. unfold must_height.
    apply mod_max_; [|apply mod_add_n; [lia|]; apply mod_max_; [done|]; apply Z.mod_same; lia].
    rewrite Zminus_mod, Hmt, Z.mod_same by lia. apply Z.mod_0_l. lia.
  - intros b' s' Hb Hst Hle. apply (must_by b'); [done|done|lia].
  - intros b' s1 s' _ Hle Hn Hs1. assert (Hd : s1 <> DEFINED /\ s1 <> FAILED) by (by destruct Hs1 as [->|[->| ->]]).
    pose proof (lock_step b' s1 s' Hn (proj1 Hd) (proj2 Hd)) as H. destruct Hs1 as [->|[->| ->]]; subst s'; auto. case_if; auto.
  - unfold must_height. lia.
Qed.

Lemma active_by b s : stored_block b -> state_of f b s ->
  Z.max (must_height + 2 * evaluation_interval) (minimum_activation_height c) <= get_height b -> s = ACTIVE.
Proof using ok Hc Hlock Hvalid.
  destruct validated_facts as (Hs0 & _ & Hms & Hmt & Hma). pose proof (chain_interval ok) as HI.
  revert b s. apply (progress f _ (fun s => s = LOCKED_IN \/ s = ACTIVE) (fun s => s = ACTIVE)).
  - apply mod_max_; [|done]. replace (must_height + 2 * evaluation_interval) with (must_height + evaluation_interval + evaluation_interval) by lia.
    do 2 (apply mod_add_n; [lia|]). unfold must_height.
    apply mod_max_; [|apply mod_add_n; [lia|]; apply mod_max_; [done|]; apply Z.mod_same; lia].
    rewrite Zminus_mod, Hmt, Z.mod_same by lia. apply Z.mod_0_l. lia.
  - intros b' s' Hb Hst Hle. apply (locked_by b'); [done|done|lia].
  - intros b' s1 s' _ Hle Hn Hs1. assert (Hd : s1 <> DEFINED /\ s1 <> FAILED) by (by destruct Hs1 as [->| ->]).
    pose proof (lock_step b' s1 s' Hn (proj1 Hd) (proj2 Hd)) as H. destruct Hs1 as [->| ->]; subst s'; [|done].
    by rewrite (proj2 (Z.leb_le _ _)) by lia.
  - unfold must_height. lia.
Qed.
End timeout.

(** C31: activation cannot be blocked: a feature with valid criteria that locks in on timeout is
    active at every block whose height reaches its minimum activation height and lies one
    interval past its timeout (two intervals past the earliest possible start of its
    mandatory signalling when it starts at the genesis block), whatever the blocks signal. *)
Theorem lock_in_on_timeout_activates f c b s st st' : od_get features f = Some c ->
  lock_in_on_timeout c = true -> to_validated c = Ok c -> stored_block b -> cache_ok st ->
  Z.max (must_height c + 2 * evaluation_interval) (minimum_activation_height c) <= get_height b ->
  get_state b f st = (Ok s, st') -> s = ACTIVE.
Proof using ok.
  intros Hc Hl Hv Hs Hca Hle E. destruct (get_state_correct ok f _ b st Hs (le_n _) Hca) as (s1 & st1 & E1 & Hst & _).
  unfold get_state in E. rewrite E1 in E. injection E as <- _. by eapply active_by.
Qed.
End theory.

(** * Signalling periods *)

Section periods.
Context {FS : FeatureSettings}.

Definition disjoint_periods (a b : FeatureInterval) : Prop := end_ a < begin b \/ end_ b < begin a.

Lemma disjoint_sym a b : disjoint_periods a b -> disjoint_periods b a.
Proof. unfold disjoint_periods. tauto. Qed.

Lemma pairs_perm l k : l ≡ₚ k -> ForallOrdPairs disjoint_periods l -> ForallOrdPairs disjoint_periods k.
Proof.
  induction 1 as [|x l k Hp IH|x y l|l1 l2 l3 _ IH1 _ IH2]; intros H; auto.
  - inversion H; subst. constructor; [|by apply IH]. by rewrite <- Hp.
  - inversion H as [|? ? Hy Hl]; subst. inversion Hl as [|? ? Hx Hr]; subst. inversion Hy; subst.
    constructor; [constructor; [by apply disjoint_sym|done]|by constructor].
Qed.

Definition proper_periods (l : list FeatureInterval) : Prop := Forall (fun i => begin i <= end_ i) l.

Lemma overlap_sorted l : forall p, StronglySorted begin_le (p :: l) -> proper_periods (p :: l) ->
  overlap_loop (Some p) l = None <-> ForallOrdPairs disjoint_periods (p :: l).
Proof.
  induction l as [|x l IH]; intros p Hs Hp; cbn [overlap_loop].
  { split; [|done]. intros _. by repeat constructor. }
  apply StronglySorted_inv in Hs as [Hs Hle]. apply Forall_cons in Hp as [Hpp Hp]. specialize (IH x Hs Hp).
  apply Forall_cons in Hle as [Hpx Hle]. apply Forall_cons in Hp as [Hpx' Hp]. unfold begin_le in Hpx.
  destruct (Z.leb_spec (begin x) (end_ p)).
  - split; [done|]. intros H1. inversion H1 as [|? ? Hf _]; subst. apply Forall_cons in Hf as [Hd _].
    unfold disjoint_periods in Hd. lia.
  - rewrite IH. split.
    + intros H1. constructor; [|done]. apply Forall_cons. split; [by left|].
      apply StronglySorted_inv in Hs as [_ Hx]. rewrite Forall_forall in Hx. apply Forall_forall. intros y Hy.
      apply Hx in Hy. unfold begin_le in Hy. left. lia.
    + by inversion 1.
Qed.

Lemma find_overlap_none l : proper_periods l -> _find_overlap l = None <-> ForallOrdPairs disjoint_periods l.
Proof.
  intros Hp. unfold _find_overlap.
  assert (Hperm : merge_sort begin_le l ≡ₚ l) by apply merge_sort_Permutation.
  assert (Hs : StronglySorted begin_le (merge_sort begin_le l)).
  { apply StronglySorted_merge_sort; unfold begin_le; [intros ? ? ?; lia|intros ? ?; lia]. }
  transitivity (ForallOrdPairs disjoint_periods (merge_sort begin_le l)).
  - assert (Hp' : proper_periods (merge_sort begin_le l)) by (unfold proper_periods; by rewrite Hperm).
    destruct (merge_sort begin_le l) as [|x k]; cbn [overlap_loop]; [split; [constructor|done]|]. by apply overlap_sorted.
  - split; apply pairs_perm; by rewrite Hperm.
Qed.

Definition period (fc : Feature * Criteria) : FeatureInterval :=
  mkInterval (start_height (snd fc)) (timeout_height (snd fc)) (fst fc).

Definition same_bit (k : Z) (fc : Feature * Criteria) : Prop := bit (snd fc) = k.

#[local] Instance same_bit_dec k fc : Decision (same_bit k fc).
Proof. unfold same_bit. apply _. Defined.

Lemma intervals_by_bit fs : forall d k, (forall k, od_get d k <> Some []) ->
  default [] (od_get (fold_left add_interval fs d) k) = default [] (od_get d k) ++ map period (filter (same_bit k) fs) /\
  (forall k, od_get (fold_left add_interval fs d) k <> Some []).
Proof.
  induction fs as [|[f c] fs IH]; intros d k Hd; cbn [fold_left]; [by rewrite app_nil_r|].
  destruct (IH (add_interval d (f, c)) k) as [E Hne].
  { intros k'. simpl. destruct (decide (bit c = k')) as [->|Ne]; [|by rewrite od_get_set_ne].
    rewrite od_get_set_eq. intros H. injection H as H. by apply app_nil in H as [_ ?]. }
  split; [|done]. rewrite E. rewrite filter_cons. cbn [add_interval]. destruct (decide (bit c = k)) as [Ek|Ne].
  - subst k. rewrite od_get_set_eq. rewrite decide_True by (by unfold same_bit). simpl. by rewrite <- app_assoc.
  - rewrite od_get_set_ne by done. by rewrite decide_False by (by unfold same_bit).
Qed.

Lemma od_set_domain {A} (d : list (Z * A)) k v : NoDup (map fst d) -> NoDup (map fst (od_set d k v)) /\ (forall x, x ∈ map fst (od_set d k v) -> x = k \/ x ∈ map fst d).
Proof.
  induction d as [|[k' v'] d IH]; intros H; simpl.
  - split; [by apply NoDup_singleton|]. intros x Hx. apply list_elem_of_singleton in Hx. by left.
  - apply NoDup_cons in H as [Hn H]. case_bool_decide as E; simpl.
    + split; [by apply NoDup_cons|]. intros x Hx. by right.
    + destruct (IH H) as [H1 H2]. split.
      * apply NoDup_cons. split; [|done]. intros Hx. apply H2 in Hx as [->|Hx]; done.
      * intros x Hx. apply elem_of_cons in Hx as [->|Hx]; [right; by left|]. apply H2 in Hx as [->|Hx]; [by left|right; by right].
Qed.

Lemma intervals_keys fs : forall d, NoDup (map fst d) -> NoDup (map fst (fold_left add_interval fs d)).
Proof. induction fs as [|[f c] fs IH]; intros d H; simpl; [done|]. apply IH. by apply od_set_domain. Qed.

Lemma conflicting_bits_groups fs : Forall (fun fc => start_height (snd fc) <= timeout_height (snd fc)) fs ->
  _validate_conflicting_bits fs = Ok tt <-> forall k, ForallOrdPairs disjoint_periods (map period (filter (same_bit k) fs)).
Proof.
  intros Hp. unfold _validate_conflicting_bits, _get_intervals_by_bit. rewrite rfor_ok, Forall_forall.
  assert (Hk : forall k, default [] (od_get (fold_left add_interval fs []) k) = map period (filter (same_bit k) fs)).
  { intros k. by destruct (intervals_by_bit fs [] k) as [-> _]. }
  assert (Hpr : forall k, proper_periods (map period (filter (same_bit k) fs))).
  { intros k. unfold proper_periods. apply Forall_map. rewrite Forall_forall in *. intros x Hx.
    apply list_elem_of_filter in Hx as [_ Hx]. by apply Hp. }
  split.
  - intros H k. rewrite <- Hk. destruct (od_get (fold_left add_interval fs []) k) as [l|] eqn:E; simpl; [|constructor].
    specialize (H (k, l) (od_get_in _ _ _ E)). simpl in H. destruct (_find_overlap l) eqn:Eo; [done|].
    assert (El : l = map period (filter (same_bit k) fs)) by (rewrite <- Hk; by rewrite E).
    apply find_overlap_none; [by rewrite El|done].
  - intros H [k l] Hin. simpl. apply od_get_elem in Hin; [|apply intervals_keys, NoDup_nil_2].
    assert (El : l = map period (filter (same_bit k) fs)) by (rewrite <- Hk; by rewrite Hin).
    specialize (H k). rewrite <- El in H. apply find_overlap_none in H as ->; [done|by rewrite El].
Qed.

Lemma FOP_app_inv {A} (R : A -> A -> Prop) l x k : ForallOrdPairs R (l ++ x :: k) -> Forall (R x) k.
Proof. induction l as [|y l IH]; simpl; inversion 1; auto. Qed.

(** The configuration check on signal bits is exact: settings whose periods are not reversed
    are accepted if and only if, for any two features with the same bit, the periods from
    start to timeout do not meet. *)
Theorem conflicting_bits_spec fs : Forall (fun fc => start_height (snd fc) <= timeout_height (snd fc)) fs ->
  _validate_conflicting_bits fs = Ok tt <->
  forall l1 x l2 y l3, fs = l1 ++ x :: l2 ++ y :: l3 -> bit (snd x) = bit (snd y) ->
    timeout_height (snd x) < start_height (snd y) \/ timeout_height (snd y) < start_height (snd x).
Proof.
  intros Hp. rewrite conflicting_bits_groups by done. split.
  - intros H l1 x l2 y l3 -> Hb. specialize (H (bit (snd x))).
    rewrite !filter_app, !filter_cons, !filter_app, !filter_cons in H.
    rewrite decide_True in H by (by unfold same_bit). rewrite decide_True in H by (unfold same_bit; congruence).
    rewrite map_app in H. simpl in H. apply FOP_app_inv in H. rewrite map_app in H. simpl in H.
    apply Forall_app in H as [_ H]. by apply Forall_cons in H as [H _].
  - intros H k. clear Hp. induction fs as [|x fs IH]; [constructor|]. rewrite filter_cons. case_decide as Ek.
    + simpl. constructor.
      * apply Forall_map, Forall_forall. intros y Hy. apply list_elem_of_filter in Hy as [Ey Hy].
        apply list_elem_of_split in Hy as (l2 & l3 & ->). apply (H [] x l2 y l3); [done|]. unfold same_bit in *. congruence.
      * apply IH. intros l1 x' l2 y l3 -> Hb. by apply (H (x :: l1) x' l2 y l3).
    + apply IH. intros l1 x' l2 y l3 -> Hb. by apply (H (x :: l1) x' l2 y l3).
Qed.
End periods.

(** * A chain of nine blocks, two per interval, with one feature *)

Section demo.
Definition demo_hash (n : Z) : bytes := repeat (z2b n) 32.

Definition demo_signal (n : Z) : Z := if (n =? 4) || (n =? 5) then 1 else 0.

Definition demo_block (n : Z) : vertex :=
  mkVertex (demo_hash n) (demo_signal n) REGULAR_BLOCK (100 + n) (S754_zero false)
    (if n =? 0 then [] else [demo_hash (n - 1)]) [] [] [] [] [] [] NATIVE.

Definition demo_chain : list vertex := map demo_block (seqZ 0 9).

Definition demo_feature_tx_settings : TxSettings :=
  {| FEE_PER_OUTPUT := 1; TOKEN_DEPOSIT_PERCENTAGE := S754_zero false; MAX_NUM_INPUTS := 255; MAX_NUM_OUTPUTS := 255;
     MAX_OUTPUT_SCRIPT_SIZE := 1024; MAX_INPUT_DATA_SIZE := 1024; MAX_TX_SIGOPS_INPUT := 1275;
     MAX_TX_SIGOPS_OUTPUT := 1275; MAX_DISTANCE_BETWEEN_BLOCKS := 4500; REWARD_SPEND_MIN_BLOCKS := 300;
     GENESIS_HASHES := [demo_hash 0]; GENESIS_BLOCK_HASH := demo_hash 0 |}.

Definition demo_chain_storage : VertexStorage :=
  {| get_transaction := fun h => match List.find (fun v => bool_decide (v_hash v = h)) demo_chain with
       | Some v => Ok v | None => Err TransactionDoesNotExist end |}.

Definition demo_chain_static : StaticStore :=
  {| static_metadata := fun v => let n := v_timestamp v - 100 in
       BlockStaticMetadata n 0 [demo_signal n + if Z.odd n then demo_signal (n - 1) else 0] |}.

Definition demo_criteria : Criteria := mkCriteria 0 2 6 (Some 2) 0 true false.

Definition demo_feature_settings : FeatureSettings :=
  {| evaluation_interval := 2; max_signal_bits := 1; default_threshold := 1;
     features := [(NANO_CONTRACTS, demo_criteria)] |}.

Definition demo_set_order : SetOrder := {| set_iter := remove_dups; set_iter_perm := fun l => Permutation_refl _ |}.

Definition demo_chain_node : NodeState :=
  {| get_metadata := fun _ => new_metadata 0 0 FULL;
     get_best_block_tips := [demo_hash 8];
     height_index := fun h => if (0 <=? h) && (h <=? 8) then Some (demo_hash h) else None;
     height_tip := demo_hash 8 |}.

#[local] Existing Instances demo_feature_tx_settings demo_chain_storage demo_chain_static demo_feature_settings.
#[local] Existing Instances demo_set_order demo_chain_node.

Lemma demo_get h v : get_transaction h = Ok v -> v ∈ demo_chain /\ v_hash v = h.
Proof.
  cbn [get_transaction demo_chain_storage]. destruct (List.find (A := vertex) _ _) as [w|] eqn:E; [|done]. intros H. injection H as <-.
  apply List.find_some in E as [Hin E]. apply bool_decide_eq_true in E. split; [|done]. by apply list_elem_of_In.
Qed.

Lemma demo_elem v : v ∈ demo_chain -> exists n, v = demo_block n /\ 0 <= n <= 8.
Proof.
  unfold demo_chain. intros H. apply list_elem_of_fmap in H as (n & -> & Hn). exists n. split; [done|].
  apply elem_of_seqZ in Hn. lia.
Qed.

Lemma demo_dag : dag_ok.
Proof.
  split.
  - intros h v H. by apply demo_get in H as [_ ?].
  - intros h v H. apply demo_get in H as [H _]. revert v H. apply Forall_forall.
    repeat (constructor; [vm_compute; reflexivity|]). constructor.
  - intros h v d w H Hd Hw. apply demo_get in H as [H _]. apply demo_get in Hw as [Hw Eh].
    apply demo_elem in H as (n & -> & Hn). apply demo_elem in Hw as (m & -> & Hm). unfold dependencies in Hd. simpl in *.
    destruct (n =? 0) eqn:E; simpl in Hd; [by apply not_elem_of_nil in Hd|]. apply list_elem_of_singleton in Hd. subst d.
    unfold demo_hash in Eh. injection Eh as Eh. apply Z.eqb_neq in E.
    assert (Em : m = n - 1); [|lia]. clear -Eh Hn Hm E.
    assert (HZ : forall k, 0 <= k <= 8 -> b2z (z2b k) = k).
    { intros k Hk. assert (H : k ∈ seqZ 0 9) by (apply elem_of_seqZ; lia). clear Hk. revert k H. apply Forall_forall.
      repeat (constructor; [vm_compute; reflexivity|]). constructor. }
    rewrite <- (HZ m) by lia. rewrite <- (HZ (n - 1)) by lia. by rewrite Eh.
  - intros h v H. apply demo_get in H as [H _]. apply demo_elem in H as (n & -> & Hn). simpl. lia.
  - intros h v H Hg. apply demo_get in H as [H _]. revert v H Hg.
    apply (proj1 (Forall_forall (fun v => is_genesis v = true -> dependencies v = []) demo_chain)).
    constructor; [done|]. repeat (constructor; [intros H; vm_compute in H; discriminate|]). constructor.
Qed.

Lemma demo_stored n : 0 <= n <= 8 -> stored_block (demo_block n).
Proof.
  intros Hn. assert (H : n ∈ seqZ 0 9) by (apply elem_of_seqZ; lia). clear Hn. revert n H. apply Forall_forall.
  repeat (constructor; [split; vm_compute; reflexivity|]). constructor.
Qed.

Lemma demo_chain_ok : chain_ok.
Proof.
  split.
  - exact demo_dag.
  - done.
  - done.
  - intros f c H. simpl in H. case_bool_decide; [|done]. injection H as <-. simpl. lia.
  - done.
  - intros b h Hb _ Hh. destruct (ancestor_loop_ok demo_dag _ b h Hb Hh eq_refl) as (a & _ & Hanc & Ea).
    exists a. split; [|done]. destruct (ancestor_stored demo_dag b a Hanc Hb) as [Ha _].
    apply demo_get in Ha as [Ha _]. apply demo_elem in Ha as (n & -> & Hn).
    assert (n = h) as <- by (unfold get_height in Ea; simpl in Ea; lia). clear -Hn.
    assert (H : n ∈ seqZ 0 9) by (apply elem_of_seqZ; lia). clear Hn. revert n H. apply Forall_forall.
    repeat (constructor; [vm_compute; reflexivity|]). constructor.
Qed.

Definition demo_fs : fs_state := mkFs ∅ ∅ ∅.

Lemma demo_cache : cache_ok demo_fs.
Proof. intros b f s _ H. simpl in H. by rewrite lookup_empty in H. Qed.

Lemma demo_state n s : 0 <= n <= 8 -> fst (get_state (demo_block n) NANO_CONTRACTS demo_fs) = Ok s ->
  state_of NANO_CONTRACTS (demo_block n) s.
Proof.
  intros Hn H. destruct (get_state_correct demo_chain_ok NANO_CONTRACTS _ _ demo_fs (demo_stored n Hn) (le_n _) demo_cache)
    as (s' & st' & E & Hs & _). unfold get_state in H. rewrite E in H. by injection H as <-.
Qed.

Lemma bit_counts_spec_witness : exists l, since_boundary (demo_block 5) l /\ length l = 2%nat /\
  length (List.filter (signals 0) l) = 2%nat.
Proof.
  destruct (bit_counts_spec demo_dag ltac:(reflexivity) ltac:(discriminate) (demo_block 5) 0
    (demo_stored 5 ltac:(lia)) ltac:(split; [discriminate|reflexivity])) as (l & Hl & Ll & E).
  exists l. split; [exact Hl|]. split.
  - apply Nat2Z.inj. rewrite Ll. reflexivity.
  - assert (E2 : py_index (bit_counts (demo_block 5)) 0 = Ok 2) by (vm_compute; reflexivity).
    rewrite E2 in E. injection E as E. apply Nat2Z.inj. rewrite <- E. reflexivity.
Defined.

Lemma feature_history_witness : rtc FeatureStep STARTED ACTIVE.
Proof.
  apply (feature_history NANO_CONTRACTS (demo_block 2) (demo_block 8)).
  - destruct (ancestor_loop_ok demo_dag 6 (demo_block 8) 2 (demo_stored 8 ltac:(lia)) ltac:(vm_compute; split; discriminate)
      ltac:(reflexivity)) as (a & Ha & Hanc & _).
    assert (a = demo_block 2) as <- by (vm_compute in Ha; injection Ha as <-; reflexivity). exact Hanc.
  - apply demo_state; [lia|vm_compute; reflexivity].
  - apply demo_state; [lia|vm_compute; reflexivity].
Defined.

Lemma get_state_refines_witness : exists s st',
  get_state (demo_block 7) NANO_CONTRACTS demo_fs = (Ok s, st') /\ state_of NANO_CONTRACTS (demo_block 7) s.
Proof.
  destruct (get_state_refines demo_chain_ok (demo_block 7) NANO_CONTRACTS demo_fs (demo_stored 7 ltac:(lia)) demo_cache)
    as (s & st' & E & Hs & _).
  exists s, st'. split; [exact E|exact Hs].
Defined.

Lemma locked_in_supported_witness : exists l, since_boundary (demo_block 5) l /\
  2 <= Z.of_nat (length (List.filter (signals 0) l)).
Proof.
  destruct (is_signaling_mandatory_features (demo_block 5) demo_fs) as [r st'] eqn:E.
  assert (Hr : r = Ok BlockIsSignaling).
  { change r with (fst (r, st')). rewrite <- E. vm_compute. reflexivity. }
  subst r.
  destruct (locked_in_supported demo_chain_ok NANO_CONTRACTS demo_criteria (demo_block 6) (demo_block 5) MUST_SIGNAL demo_fs st')
    as (l & Hl & _ & Hc).
  - reflexivity.
  - apply demo_stored. lia.
  - vm_compute. reflexivity.
  - vm_compute. reflexivity.
  - apply demo_state; [lia|vm_compute; reflexivity].
  - apply demo_state; [lia|vm_compute; reflexivity].
  - discriminate.
  - exact demo_cache.
  - exact E.
  - exists l. split; [exact Hl|exact Hc].
Defined.

Lemma lock_in_on_timeout_activates_witness :
  fst (get_state (demo_block 8) NANO_CONTRACTS demo_fs) = Ok ACTIVE.
Proof.
  destruct (get_state_correct demo_chain_ok NANO_CONTRACTS _ _ demo_fs (demo_stored 8 ltac:(lia)) (le_n _) demo_cache)
    as (s & st' & E & _).
  change (fst (get_state_fuel (Z.to_nat (get_height (demo_block 8))) (demo_block 8) NANO_CONTRACTS demo_fs) = Ok ACTIVE).
  rewrite E. simpl. f_equal.
  apply (lock_in_on_timeout_activates demo_chain_ok NANO_CONTRACTS demo_criteria (demo_block 8) s demo_fs st').
  - reflexivity.
  - reflexivity.
  - vm_compute. reflexivity.
  - apply demo_stored. lia.
  - exact demo_cache.
  - vm_compute. discriminate.
  - exact E.
Defined.

Lemma conflicting_bits_spec_witness :
  _validate_conflicting_bits [(NANO_CONTRACTS, demo_criteria); (COUNT_CHECKDATASIG_OP, mkCriteria 0 8 14 None 0 false false)] = Ok tt.
Proof.
  apply conflicting_bits_spec.
  - repeat constructor; vm_compute; discriminate.
  - intros l1 x l2 y l3 E _. destruct l1 as [|x1 l1]; simpl in E; injection E as E1 E.
    + subst x. destruct l2 as [|x2 l2]; simpl in E; injection E as E2 E.
      * subst y. left. vm_compute. reflexivity.
      * destruct l2; discriminate.
    + destruct l1 as [|x2 l1]; simpl in E; injection E as E2 E; [destruct l2; discriminate|destruct l1; discriminate].
Defined.
End demo.
