(* ===== verification/TxVerifier.v ===== *)
(** Verification of transactions: [hathor/verification/transaction_verifier.py],
    [vertex_verifier.py], [fee_header_verifier.py], [nano_header_verifier.py],
    [hathor/reward_lock/reward_lock.py]. *)

From stdpp Require Import base list sorting.
From Stdlib Require Import ZArith Lia Floats.SpecFloat.
From S2P Require Import Prelude PyInt PyValue Compound NCTypes BlockStorage PyFloat ScriptCode ScriptVM TxStruct TokenInfo StaticMetadata Metadata Daa.

Local Open Scope Z_scope.
Local Open Scope py_scope.

(** * What the verifiers read of the node *)

(** [VerificationParams] *)
Record VerificationParams : Type := mkParams {
  nc_block_root_id : option bytes;
  enable_checkdatasig_count : bool;
  reject_locked_reward : bool;
  skip_block_weight_verification : bool;
  enable_nano : bool;
  reject_too_old_vertices : bool;
  harden_token_restrictions : bool;
  harden_nano_restrictions : bool;
  reject_conflicts_with_confirmed_txs : bool
}.

Definition MAX_TOKENS_LENGTH : Z := 16.
Definition MAX_WITHIN_CONFLICTS : Z := 8.
Definition MAX_BETWEEN_CONFLICTS : Z := 8.
Definition MAX_FEES_LEN : Z := 16.
Definition MAX_NC_SCRIPT_SIZE : Z := 1024.
Definition MAX_NC_SCRIPT_SIGOPS_COUNT : Z := 20.
Definition MAX_ACTIONS_LEN : Z := 16.

Definition zlen {A} (l : list A) : Z := Z.of_nat (length l).

(** [len(l) > len(set(l))] *)
Definition has_dups {A} `{!EqDecision A} (l : list A) : bool := zlen (remove_dups l) <? zlen l.

Definition raise_if (b : bool) (e : exn) : result unit := if b then Err e else Ok tt.

(** [try: r except TransactionDoesNotExist: raise e] *)
Definition except_missing {A} (r : result A) (e' : exn) : result A :=
  match r with
  | Err e => Err (if issubclass_exn e TransactionDoesNotExist then e' else e)
  | _ => r
  end.

Section verifier.
Context {CR : Crypto} {SS : ScriptSettings} {TS : TxSettings} {VS : VertexStorage} {SM : StaticStore} {NS : NodeState} {FL : FloatLib}.
Context {B : Type} `{!TokenStore B}.

(** what a script sees of a transaction *)
Definition to_script_tx (t : vertex) : script_tx :=
  mkScriptTx (v_timestamp t) (v_outputs t) (get_sighash_all_data t).

(** * [TransactionVerifier] *)

Definition verify_parents_basic (tx : vertex) : result unit :=
  let? _ := raise_if (has_dups (v_parents tx)) DuplicatedParents in
  raise_if (negb (zlen (v_parents tx) =? 2)) IncorrectParents.

Definition sigops_step (enable : bool) (n_txops : Z) (tx_input : TxInput) : result Z :=
  let? spent_tx := except_missing (get_transaction (in_tx_id tx_input)) InexistentInput in
  let? _ := raise_if (zlen (v_outputs spent_tx) <=? in_index tx_input) InexistentInput in
  let? o := py_index (v_outputs spent_tx) (in_index tx_input) in
  let? n := get_sigops_count enable (in_data tx_input) (Some (out_script o)) in
  Ok (n_txops + n).

Definition verify_sigops_input (tx : vertex) (enable : bool) : result unit :=
  let? n_txops := rfold (sigops_step enable) (v_inputs tx) 0 in
  raise_if (MAX_TX_SIGOPS_INPUT <? n_txops) TooManySigOps.

(** one turn of the loop of [verify_inputs], with the outputs spent so far *)
Definition input_check (tx : vertex) (seen : list (bytes * Z)) (i : TxInput) : result (list (bytes * Z)) :=
  let? _ := raise_if (MAX_INPUT_DATA_SIZE <? blen (in_data i)) InvalidInputDataSize in
  let? spent_tx := get_transaction (in_tx_id i) in
  let? _ := raise_if (zlen (v_outputs spent_tx) <=? in_index i) AssertionError in
  let? _ := raise_if (v_timestamp tx <=? v_timestamp spent_tx) TimestampError in
  let? _ := verify_script (to_script_tx tx) i (v_outputs spent_tx) in
  let key := (in_tx_id i, in_index i) in
  if bool_decide (key ∈ seen) then Err ConflictingInputs else Ok (key :: seen).

Definition verify_inputs (tx : vertex) : result unit :=
  let? _ := rfold (input_check tx) (v_inputs tx) [] in Ok tt.

Definition get_minimum_number_of_inputs (tx : vertex) : Z :=
  match v_version tx with ON_CHAIN_BLUEPRINT => 0 | _ => if is_nano_contract tx then 0 else 1 end.

Definition verify_number_of_inputs (tx : vertex) : result unit :=
  let? _ := raise_if (MAX_NUM_INPUTS <? zlen (v_inputs tx)) TooManyInputs in
  if zlen (v_inputs tx) <? get_minimum_number_of_inputs tx then raise_if (negb (is_genesis tx)) TooFewInputs
  else Ok tt.

Definition verify_output_token_indexes (tx : vertex) : result unit :=
  rfor (v_outputs tx) (fun o => raise_if (zlen (v_tokens tx) <? get_token_index o) InvalidToken).

Definition verify_version (tx : vertex) (params : VerificationParams) : result unit :=
  match v_version tx with
  | REGULAR_TRANSACTION | TOKEN_CREATION_TRANSACTION => Ok tt
  | ON_CHAIN_BLUEPRINT => raise_if (negb (enable_nano params)) InvalidVersionError
  | _ => Err InvalidVersionError
  end.

(** the token indexes of the outputs and actions *)
Definition seen_token_indexes (tx : vertex) : list Z :=
  map get_token_index (v_outputs tx) ++
  (if is_nano_contract tx then
     match get_nano_header tx with Some h => map act_token_index (nc_actions h) | None => [] end
   else []).

Definition verify_tokens (tx : vertex) (params : VerificationParams) : result unit :=
  if negb (harden_token_restrictions params) then Ok tt else
  let? _ := raise_if (MAX_TOKENS_LENGTH <? zlen (v_tokens tx)) TooManyTokens in
  let? _ := raise_if (has_dups (v_tokens tx)) InvalidToken in
  let seen := filter (fun i => i <> 0) (remove_dups (seen_token_indexes tx)) in
  raise_if (negb (bool_decide (merge_sort Z.le seen = seqZ 1 (zlen (v_tokens tx))))) UnusedTokensError.

(** the inner loop of [verify_conflict]: the mempool transactions that spend the same
    output, other than the transaction itself *)
Definition within_step (tx : vertex) (within_counter : Z) (h : bytes) : result Z :=
  if bool_decide (h = v_hash tx) then Ok within_counter else
  let? conflict_tx := get_transaction h in
  match first_block (get_metadata conflict_tx) with
  | Some _ => Err ConflictWithConfirmedTxError
  | None => Ok (within_counter + 1)
  end.

Definition conflict_step (tx : vertex) (between_counter : Z) (txin : TxInput) : result Z :=
  let? spent_tx := get_transaction (in_tx_id txin) in
  let meta := get_metadata spent_tx in
  let? _ := raise_if (bool_decide (is_Some (first_block meta)) && truthy_set (voided_by meta)) InputVoidedAndConfirmed in
  match od_get (spent_outputs meta) (in_index txin) with
  | None => Ok between_counter
  | Some spent_by_list =>
      let? within_counter := rfold (within_step tx) spent_by_list 0 in
      let? _ := raise_if (MAX_WITHIN_CONFLICTS <=? within_counter) TooManyWithinConflicts in
      Ok (between_counter + (if within_counter =? 0 then 0 else 1))
  end.

Definition verify_conflict (tx : vertex) (params : VerificationParams) : result unit :=
  if negb (reject_conflicts_with_confirmed_txs params) then Ok tt else
  let? between_counter := rfold (conflict_step tx) (v_inputs tx) 0 in
  raise_if (MAX_BETWEEN_CONFLICTS <? between_counter) TooManyBetweenConflicts.

(** ** [reward_lock.py] *)

Definition _spent_reward_needed_height (block : vertex) (best_height : Z) : Z :=
  Z.max (REWARD_SPEND_MIN_BLOCKS - (best_height - get_height block)) 0.

(** [None] is [math.inf]; [get_block] asserts that the vertex is a block *)
Definition best_height_step (best_height : option Z) (tip : bytes) : result (option Z) :=
  let? blk := get_transaction tip in
  if is_block blk then
    Ok (Some (match best_height with None => get_height blk | Some h => Z.min h (get_height blk) end))
  else Err AssertionError.

Definition get_minimum_best_height : result Z :=
  match get_best_block_tips with
  | [] => Err AssertionError
  | tips =>
      let? best_height := rfold best_height_step tips None in
      match best_height with Some h => Ok h | None => Err AssertionError end
  end.

(** the first locked reward the transaction spends, with the blocks it still needs *)
Fixpoint locked_info (best_height : Z) (inputs : list TxInput) : result (option (bytes * Z)) :=
  match inputs with
  | [] => Ok None
  | i :: inputs =>
      let? spent_tx := get_transaction (in_tx_id i) in
      if is_block spent_tx then
        let needed_height := _spent_reward_needed_height spent_tx best_height in
        if 0 <? needed_height then Ok (Some (v_hash spent_tx, needed_height)) else locked_info best_height inputs
      else locked_info best_height inputs
  end.

Definition get_spent_reward_locked_info (tx : vertex) : result (option (bytes * Z)) :=
  let? best_height := get_minimum_best_height in locked_info best_height (v_inputs tx).

Definition verify_reward_locked_for_height (tx : vertex) (best_height : Z) (assert_min_height : bool) : result unit :=
  let? info := get_spent_reward_locked_info tx in
  match info with
  | Some _ => Err RewardLocked
  | None =>
      if best_height + 1 <? min_height tx then Err (if assert_min_height then AssertionError else RewardLocked)
      else Ok tt
  end.

Definition verify_reward_locked (tx : vertex) : result unit :=
  let? best_height := get_minimum_best_height in
  verify_reward_locked_for_height tx best_height true.

(** * [VertexVerifier] *)

(** the loop of [verify_parents]: tx parents, block parents, [min_timestamp] *)
Definition parents_state : Type := Z * Z * option Z.

Definition min_timestamp_step (parent_hash : bytes) (min_timestamp : option Z) (pi_hash : bytes) : result (option Z) :=
  let? pi := get_transaction parent_hash in
  if is_block pi then Ok min_timestamp
  else Ok (Some (match min_timestamp with Some m => Z.min m (v_timestamp pi) | None => v_timestamp pi end)).

Definition parent_body (v : vertex) (s : parents_state) (parent_hash : bytes) : result parents_state :=
  let '(my_parents_txs, my_parents_blocks, min_timestamp) := s in
  let? parent := get_transaction parent_hash in
  let? _ := raise_if (v_timestamp v <=? v_timestamp parent) TimestampError in
  if is_block parent then
    let? _ := raise_if (is_block v && negb (is_genesis parent) &&
                        (MAX_DISTANCE_BETWEEN_BLOCKS <? v_timestamp v - v_timestamp parent)) TimestampError in
    let? _ := raise_if (0 <? my_parents_txs) IncorrectParents in
    let? min_timestamp := rfold (min_timestamp_step parent_hash) (v_parents parent) min_timestamp in
    Ok (my_parents_txs, my_parents_blocks + 1, min_timestamp)
  else
    let? _ := match min_timestamp with
      | Some m => raise_if (negb (m =? 0) && (v_timestamp parent <? m)) TimestampError
      | None => Ok tt
      end in
    Ok (my_parents_txs + 1, my_parents_blocks, min_timestamp).

Definition parent_step (v : vertex) (s : parents_state) (parent_hash : bytes) : result parents_state :=
  except_missing (parent_body v s parent_hash) ParentDoesNotExist.

Definition verify_parents (v : vertex) : result unit :=
  let? _ := raise_if (has_dups (v_parents v)) DuplicatedParents in
  let? s := rfold (parent_step v) (v_parents v) (0, 0, None) in
  let '(my_parents_txs, my_parents_blocks, _) := s in
  let? _ := raise_if (negb (my_parents_blocks =? (if is_block v then 1 else 0))) IncorrectParents in
  raise_if (negb (my_parents_txs =? 2)) IncorrectParents.

(** [get_target()]: [int(2**(256 - weight) - 1)] *)
Definition get_target (v : vertex) : result Z :=
  match v_weight v with
  | S754_infinity _ | S754_nan => Err WeightError
  | w =>
      let? f := float_of_int 256 in
      let? p := pow2 (SFsub prec emax f w) in
      let? one := float_of_int 1 in
      float_to_int (fun m e => if m <? 0 then - scaled_floor (- m) e else scaled_floor m e) (SFsub prec emax p one)
  end.

Definition verify_pow (v : vertex) : result unit :=
  let? minimum_target := get_target v in
  raise_if (minimum_target <=? be_val (v_hash v)) PowError.

Definition verify_number_of_outputs (v : vertex) : result unit :=
  raise_if (MAX_NUM_OUTPUTS <? zlen (v_outputs v)) TooManyOutputs.

Definition verify_outputs (v : vertex) : result unit :=
  let? _ := verify_number_of_outputs v in
  rfor (v_outputs v) (fun o =>
    let? _ := raise_if ((get_token_index o =? 0) && is_token_authority o) InvalidToken in
    let? _ := raise_if (out_value o <=? 0) InvalidOutputValue in
    raise_if (MAX_OUTPUT_SCRIPT_SIZE <? blen (out_script o)) InvalidOutputScriptSize).

Definition verify_sigops_output (v : vertex) (enable : bool) : result unit :=
  let? n_txops := rfold (fun n o => let? k := get_sigops_count enable (out_script o) None in Ok (n + k)) (v_outputs v) 0 in
  raise_if (MAX_TX_SIGOPS_OUTPUT <? n_txops) TooManySigOps.

(** the class of a header, as [type(header)] tells them apart *)
Definition is_nano_header (h : VertexHeader) : bool := match h with NanoHeader_ _ => true | FeeHeader_ _ => false end.

Definition headers_allowed (v : vertex) (params : VerificationParams) : bool :=
  match v_version v with
  | REGULAR_TRANSACTION | TOKEN_CREATION_TRANSACTION => enable_nano params
  | _ => false
  end.

Definition header_step (v : vertex) (params : VerificationParams) (seen : list bool) (h : VertexHeader) : result (list bool) :=
  let? _ := raise_if (bool_decide (is_nano_header h ∈ seen)) HeaderNotSupported in
  let? _ := raise_if (negb (headers_allowed v params)) HeaderNotSupported in
  Ok (is_nano_header h :: seen).

Definition verify_headers (v : vertex) (params : VerificationParams) : result unit :=
  let? _ := raise_if (get_maximum_number_of_headers <? zlen (v_headers v)) TooManyHeaders in
  let? _ := rfold (header_step v params) (v_headers v) [] in Ok tt.

(** * [FeeHeaderVerifier] *)

(** [FEE_DIVISOR]: [int(1 / TOKEN_DEPOSIT_PERCENTAGE)] *)
Definition FEE_DIVISOR : result Z :=
  let? one := float_of_int 1 in
  match TOKEN_DEPOSIT_PERCENTAGE with
  | S754_zero _ => Err ZeroDivisionError
  | p =>
      match SFdiv prec emax one p with
      | S754_infinity _ | S754_nan => Err AssertionError
      | q =>
          let? n := float_floor q in
          let? back := float_of_int n in
          if SFeqb back q then Ok n else Err AssertionError
      end
  end.

Definition validate_fee_amount (token_uid : bytes) (amount : Z) : result unit :=
  let? _ := raise_if (amount <=? 0) InvalidFeeAmount in
  if bool_decide (token_uid = HATHOR_TOKEN_UID) then Ok tt
  else let? d := FEE_DIVISOR in raise_if (negb (amount mod d =? 0)) InvalidFeeAmount.

Definition verify_fee_list (fees : list FeeHeaderEntry) (tx : vertex) : result unit :=
  let? _ := raise_if (zlen fees =? 0) InvalidFeeHeader in
  let? _ := raise_if (MAX_FEES_LEN <? zlen fees) InvalidFeeHeader in
  let? _ := raise_if (has_dups (map fee_token_index fees)) InvalidFeeHeader in
  rfor fees (fun fee =>
    let? _ := raise_if (zlen (v_tokens tx) <? fee_token_index fee) FeeHeaderTokenNotFound in
    let? u := get_token_uid tx (fee_token_index fee) in
    validate_fee_amount u (fee_amount fee)).

(** * [NanoHeaderVerifier] *)

Definition verify_nc_signature (tx : vertex) : result unit :=
  match get_nano_header tx with
  | None => Err ValueError
  | Some h =>
      let? _ := raise_if (negb (blen (nc_address h) =? ADDRESS_LEN_BYTES)) NCInvalidSignature in
      let? _ := raise_if (MAX_NC_SCRIPT_SIZE <? blen (nc_script h)) NCInvalidSignature in
      let? output_script := create_output_script (nc_address h) None in
      let? sigops_count := get_sigops_count true (nc_script h) (Some output_script) in
      let? _ := raise_if (MAX_NC_SCRIPT_SIGOPS_COUNT <? sigops_count) TooManySigOps in
      match raw_script_eval (nc_script h) output_script (PlainExtras (to_script_tx tx)) with
      | Err e => Err (if issubclass_exn e ScriptError then NCInvalidSignature else e)
      | r => r
      end
  end.

Definition ALLOWED_ACTION_SETS : list (list NCActionType) :=
  [[]; [ACT_DEPOSIT]; [ACT_WITHDRAWAL]; [ACT_GRANT_AUTHORITY]; [ACT_ACQUIRE_AUTHORITY];
   [ACT_DEPOSIT; ACT_GRANT_AUTHORITY]; [ACT_DEPOSIT; ACT_ACQUIRE_AUTHORITY];
   [ACT_WITHDRAWAL; ACT_GRANT_AUTHORITY]; [ACT_WITHDRAWAL; ACT_ACQUIRE_AUTHORITY]].

(** equality of the sets two lists enumerate *)
Definition same_set {A} `{!EqDecision A} (l k : list A) : bool :=
  forallb (fun x => bool_decide (x ∈ k)) l && forallb (fun x => bool_decide (x ∈ l)) k.

(** [actions_map[u]], as the types it holds *)
Definition types_of_token (u : bytes) (actions : list NCAction) : list NCActionType :=
  map nc_action_type (filter (fun a => action_token a = u) actions).

Definition verify_action_list (actions : list NCAction) : result unit :=
  let? _ := raise_if (MAX_ACTIONS_LEN <? zlen actions) NCInvalidAction in
  rfor (map action_token actions) (fun u =>
    raise_if (negb (existsb (same_set (types_of_token u actions)) ALLOWED_ACTION_SETS)) NCInvalidAction).

(** [isinstance(action, BaseAuthorityAction)] *)
Definition is_authority_action (a : NCAction) : bool :=
  match a with NCGrantAuthorityAction _ _ _ | NCAcquireAuthorityAction _ _ _ => true | _ => false end.

Definition verify_actions (tx : vertex) : result unit :=
  match get_nano_header tx with
  | None => Err ValueError
  | Some h =>
      let? actions := get_actions tx h in
      let? _ := verify_action_list actions in
      rfor actions (fun a =>
        let? _ := raise_if (is_authority_action a && bool_decide (action_token a = HATHOR_TOKEN_UID)) AssertionError in
        raise_if (negb (bool_decide (action_token a = HATHOR_TOKEN_UID)) &&
                  negb (bool_decide (action_token a ∈ v_tokens tx))) NCInvalidAction)
  end.

End verifier.
