(* ===== verification/TxVerifierTheory.v ===== *)
(** What the verification of a transaction guarantees: ownership of the inputs, the shape
    of the parents, the reward lock, and the conflicts with confirmed transactions. *)

From stdpp Require Import base list sorting.
From Stdlib Require Import ZArith Lia Floats.SpecFloat.
From S2P Require Import Prelude PyInt PyValue Compound NCTypes BlockStorage PyFloat ScriptCode ScriptVM.
From S2P Require Import ScriptTheory ScriptP2PKH TxStruct TokenInfo TokenInfoTheory StaticMetadata Metadata Daa TxVerifier.

Local Open Scope Z_scope.
Local Open Scope py_scope.

(** * Shared lemmas *)

Lemma raise_if_ok b e : raise_if b e = Ok tt <-> b = false.
Proof. destruct b; simpl; split; congruence. Qed.

Lemma raise_if_inv b e u : raise_if b e = Ok u -> b = false.
Proof. destruct b; simpl; congruence. Qed.

Lemma except_missing_ok {A} (r : result A) e a : except_missing r e = Ok a <-> r = Ok a.
Proof. destruct r; simpl; split; congruence. Qed.

Lemma has_dups_false {A} `{!EqDecision A} (l : list A) : has_dups l = false <-> NoDup l.
Proof.
  unfold has_dups, zlen. rewrite Z.ltb_ge. split.
  - intros H. induction l as [|x l IH]; [constructor|]. simpl in H. case_decide as E; simpl in H.
    + exfalso. assert (Hl : (length (remove_dups l) <= length l)%nat).
      { clear. induction l as [|y l IH]; simpl; [lia|]. case_decide; simpl; lia. }
      lia.
    + constructor; [done|]. apply IH. lia.
  - intros H. induction H as [|x l Hx Hl IH]; simpl; [lia|]. case_decide; [done|]. simpl. lia.
Qed.

(** a fold that raises on some elements checks them all *)
Lemma rfold_Forall {A D} (step : D -> A -> result D) (Q : A -> Prop) l : forall d d',
  (forall d x d', step d x = Ok d' -> Q x) -> rfold step l d = Ok d' -> Forall Q l.
Proof.
  induction l as [|x l IH]; intros d d' Hs H; [constructor|]. simpl in H. inv_rok H.
  constructor; [by eapply Hs|by eapply IH].
Qed.

Ltac inv_raise H :=
  let a := fresh "a" in let E := fresh "E" in
  apply rbind_ok_inv in H; destruct H as (a & E & H); apply raise_if_inv in E; clear a.

Section theory.
Context {CR : Crypto} {SS : ScriptSettings} {TS : TxSettings} {VS : VertexStorage} {SM : StaticStore} {NS : NodeState} {FL : FloatLib}.
Context {B : Type} `{!TokenStore B}.

(** * Parents *)

(** the parents a vertex may have: blocks first, exactly two transactions, all of them
    older than the vertex, a block not too far from the block before it *)
Definition older_parent (v : vertex) (blk : bool) (h : bytes) : Prop := exists p,
  get_transaction h = Ok p /\ is_block p = blk /\ v_timestamp p < v_timestamp v /\
  (is_block v = true -> is_block p = true -> is_genesis p = false ->
   v_timestamp v - v_timestamp p <= MAX_DISTANCE_BETWEEN_BLOCKS).

Definition parents_ok (v : vertex) : Prop := NoDup (v_parents v) /\ exists blocks txs,
  v_parents v = blocks ++ txs /\ length blocks = (if is_block v then 1%nat else 0%nat) /\ length txs = 2%nat /\
  Forall (older_parent v true) blocks /\ Forall (older_parent v false) txs.

(** the loop over the parents of a block parent reads the block parent itself every time,
    so it never finds a transaction and the minimum timestamp stays unset *)
Lemma min_timestamp_unset h p l m : get_transaction h = Ok p -> is_block p = true ->
  rfold (min_timestamp_step h) l m = Ok m.
Proof.
  intros Hp Hb. induction l as [|x l IH]; [done|]. simpl. unfold min_timestamp_step at 1. rewrite Hp. cbn [rbind]. by rewrite Hb.
Qed.

Lemma parent_step_block v ts bs h s :
  parent_step v (ts, bs, None) h = Ok s /\ older_parent v true h <->
  older_parent v true h /\ ts <= 0 /\ s = (ts, bs + 1, None).
Proof.
  unfold parent_step. rewrite except_missing_ok. unfold parent_body, older_parent. split.
  - intros [H (p & Hp & Hb & Ht & Hd)]. split; [by eauto 10|]. rewrite Hp in H. cbn [rbind] in H.
    inv_raise H. rewrite Hb in H. inv_raise H. inv_raise H. rewrite (min_timestamp_unset h p) in H by done.
    cbn [rbind] in H. apply Z.ltb_ge in E1. split; [lia|]. by injection H as <-.
  - intros ((p & Hp & Hb & Ht & Hd) & Hts & ->). split; [|by eauto 10]. rewrite Hp. cbn [rbind].
    rewrite (proj2 (Z.leb_gt _ _)) by lia. cbn [raise_if rbind]. rewrite Hb.
    assert (E : is_block v && negb (is_genesis p) && (MAX_DISTANCE_BETWEEN_BLOCKS <? v_timestamp v - v_timestamp p) = false).
    { destruct (is_block v), (is_genesis p); simpl; try done. apply Z.ltb_ge. by apply Hd. }
    rewrite E. cbn [raise_if rbind]. rewrite (proj2 (Z.ltb_ge _ _)) by lia. cbn [raise_if rbind].
    by rewrite (min_timestamp_unset h p).
Qed.

Lemma parent_step_tx v ts bs h s :
  parent_step v (ts, bs, None) h = Ok s /\ older_parent v false h <->
  older_parent v false h /\ s = (ts + 1, bs, None).
Proof.
  unfold parent_step. rewrite except_missing_ok. unfold parent_body, older_parent. split.
  - intros [H (p & Hp & Hb & Ht & Hd)]. split; [by eauto 10|]. rewrite Hp in H. cbn [rbind] in H.
    inv_raise H. rewrite Hb in H. cbn [rbind] in H. by injection H as <-.
  - intros ((p & Hp & Hb & Ht & Hd) & ->). split; [|by eauto 10]. rewrite Hp. cbn [rbind].
    rewrite (proj2 (Z.leb_gt _ _)) by lia. cbn [raise_if rbind]. by rewrite Hb.
Qed.

Lemma parent_step_kind v ts bs h s : parent_step v (ts, bs, None) h = Ok s ->
  older_parent v true h \/ older_parent v false h.
Proof.
  unfold parent_step. rewrite except_missing_ok. unfold parent_body, older_parent. intros H. inv_rok H. inv_raise H.
  apply Z.leb_gt in E. destruct (is_block a) eqn:Hb; [left|right]; exists a.
  - inv_raise H. repeat split; try done. intros Hv _ Hg. rewrite Hv, Hg in E0. simpl in E0. by apply Z.ltb_ge in E0.
  - repeat split; try done. congruence.
Qed.

(** the states the loop goes through: the blocks seen, then the transactions *)
Lemma parents_fold v l : forall ts bs s, 0 <= ts ->
  rfold (parent_step v) l (ts, bs, None) = Ok s <->
  exists blocks txs, l = blocks ++ txs /\ Forall (older_parent v true) blocks /\ Forall (older_parent v false) txs /\
    (0 < ts -> blocks = []) /\ s = (ts + zlen txs, bs + zlen blocks, None).
Proof.
  induction l as [|h l IH]; intros ts bs s Hts; cbn [rfold].
  - split.
    + intros H. injection H as <-. exists [], []. unfold zlen. simpl. rewrite !Z.add_0_r. by repeat split; try constructor.
    + intros (blocks & txs & E & _ & _ & _ & ->). symmetry in E. apply app_nil in E as [-> ->].
      unfold zlen. simpl. by rewrite !Z.add_0_r.
  - split.
    + intros H. inv_rok H. destruct (parent_step_kind _ _ _ _ _ Hm) as [Hk|Hk].
      * destruct (proj1 (parent_step_block _ _ _ _ _) (conj Hm Hk)) as (_ & Hle & ->).
        apply IH in H as (blocks & txs & -> & Hb & Ht & Hz & ->); [|done].
        exists (h :: blocks), txs. split; [done|]. repeat split; [by constructor|done|lia|].
        unfold zlen. simpl length. do 2 f_equal. lia.
      * destruct (proj1 (parent_step_tx _ _ _ _ _) (conj Hm Hk)) as (_ & ->).
        apply IH in H as (blocks & txs & -> & Hb & Ht & Hz & ->); [|lia]. rewrite (Hz ltac:(lia)) in *.
        exists [], (h :: txs). repeat split; try done; [by constructor|]. unfold zlen. simpl length. do 2 f_equal. lia.
    + intros (blocks & txs & E & Hb & Ht & Hz & ->). destruct blocks as [|b blocks].
      * simpl in E. subst txs. apply Forall_cons in Ht as [Hk Ht].
        destruct (proj2 (parent_step_tx v ts bs h _) (conj Hk eq_refl)) as [-> _]. cbn [rbind].
        apply IH; [lia|]. exists [], l. repeat split; try done; try constructor. unfold zlen. simpl length. do 2 f_equal. lia.
      * simpl in E. injection E as <- ->. apply Forall_cons in Hb as [Hk Hb].
        assert (ts <= 0) by (destruct (Z.ltb_spec 0 ts); [by specialize (Hz ltac:(lia))|lia]).
        destruct (proj2 (parent_step_block v ts bs h _) (conj Hk (conj H eq_refl))) as [-> _]. cbn [rbind].
        apply IH; [done|]. exists blocks, txs. repeat split; try done; [lia|]. unfold zlen. simpl length. do 2 f_equal. lia.
Qed.

Lemma verify_parents_ok v : verify_parents v = Ok tt <-> parents_ok v.
Proof.
  unfold verify_parents, parents_ok. rewrite <- has_dups_false. destruct (has_dups (v_parents v)); [by split; [|intros [? _]]|].
  cbn [raise_if rbind]. split.
  - intros H. split; [done|]. inv_rok H. apply parents_fold in Hm as (blocks & txs & E & Hb & Ht & _ & ->); [|done].
    inv_raise H. apply raise_if_inv in H. apply negb_false_iff, Z.eqb_eq in E0, H. unfold zlen in E0, H.
    exists blocks, txs. repeat split; try done; [destruct (is_block v)|]; lia.
  - intros (_ & blocks & txs & E & Lb & Lt & Hb & Ht).
    assert (Hf : rfold (parent_step v) (v_parents v) (0, 0, None) = Ok (zlen txs, zlen blocks, None)).
    { apply parents_fold; [done|]. exists blocks, txs. repeat split; try done. }
    rewrite Hf. cbn [rbind]. unfold zlen. rewrite Lb, Lt. by destruct (is_block v).
Qed.

(** C25: [verify_parents] accepts exactly the vertices whose parents are distinct, exist, are
    older than the vertex and come blocks first, with two transactions and, for a block,
    one block not further than the allowed distance. Nothing more is required: the check
    of the transactions against the parents of the block parent never takes effect. *)
Theorem verify_parents_spec v : verify_parents v = Ok tt <-> parents_ok v.
Proof. apply verify_parents_ok. Qed.

(** * Reward lock *)

(** the best height is the least height of the best tips *)
Lemma best_height_fold tips : forall acc r, rfold best_height_step tips acc = Ok r ->
  Forall (fun t => exists b, get_transaction t = Ok b /\ is_block b = true /\
    match r with Some h => h <= get_height b | None => False end) tips /\
  match acc, r with
  | Some a, Some h => h <= a /\ (h = a \/ exists t b, t ∈ tips /\ get_transaction t = Ok b /\ h = get_height b)
  | None, Some h => exists t b, t ∈ tips /\ get_transaction t = Ok b /\ h = get_height b
  | None, None => tips = []
  | Some _, None => False
  end.
Proof.
  induction tips as [|t tips IH]; intros acc r H; cbn [rfold] in H.
  - injection H as <-. split; [constructor|]. destruct acc as [a|]; [|done]. split; [lia|by left].
  - inv_rok H. unfold best_height_step in Hm. inv_rok Hm. rename a0 into b. destruct (is_block b) eqn:Hb; [|done].
    injection Hm as <-. destruct (IH _ _ H) as [Hf Hr]. destruct r as [h|]; [|done]. destruct Hr as [Hle Hr]. split.
    + constructor; [|done]. exists b. repeat split; try done. destruct acc; lia.
    + assert (Hin : h = get_height b \/ acc = Some h \/ exists t' b', t' ∈ tips /\ get_transaction t' = Ok b' /\ h = get_height b').
      { destruct Hr as [->|Hr]; [|by auto]. destruct acc as [a|]; [|by left]. destruct (Z.min_spec a (get_height b)) as [[_ ->]|[_ ->]]; auto. }
      destruct acc as [a|].
      * split; [lia|]. destruct Hin as [->|[E|(t' & b' & Hi & Ht & Hh)]].
        -- right. exists t, b. by repeat split; [left|..].
        -- left. by injection E.
        -- right. exists t', b'. by repeat split; [right|..].
      * destruct Hin as [->|[E|(t' & b' & Hi & Ht & Hh)]]; [|done|].
        -- exists t, b. by repeat split; [left|..].
        -- exists t', b'. by repeat split; [right|..].
Qed.

Lemma best_height_total tips : forall acc,
  Forall (fun t => exists b, get_transaction t = Ok b /\ is_block b = true) tips ->
  exists r, rfold best_height_step tips acc = Ok r.
Proof.
  induction tips as [|t tips IH]; intros acc H; cbn [rfold]; [by eexists|].
  apply Forall_cons in H as [(b & Hb & Eb) H]. unfold best_height_step. rewrite Hb. cbn [rbind]. rewrite Eb. by apply IH.
Qed.

(** [h] is the least height among the best tips *)
Definition least_tip_height (h : Z) : Prop :=
  (forall t, t ∈ get_best_block_tips -> exists b, get_transaction t = Ok b /\ is_block b = true /\ h <= get_height b) /\
  exists t b, t ∈ get_best_block_tips /\ get_transaction t = Ok b /\ h = get_height b.

Lemma minimum_best_height_ok h : get_minimum_best_height = Ok h <-> least_tip_height h.
Proof.
  assert (Hs : forall h, get_minimum_best_height = Ok h -> least_tip_height h).
  { unfold get_minimum_best_height, least_tip_height. destruct get_best_block_tips as [|t0 tips]; [done|]. intros h' H. inv_rok H.
    destruct a as [h''|]; [|done]. injection H as ->. apply best_height_fold in Hm as [Hf Hr]. split; [|done].
    intros t Ht. rewrite Forall_forall in Hf. by apply Hf. }
  split; [apply Hs|]. intros [Ha (t & b & Ht & Hb & ->)].
  assert (exists h', get_minimum_best_height = Ok h') as [h' E].
  { unfold get_minimum_best_height. destruct get_best_block_tips as [|t0 tips] eqn:Et; [by apply not_elem_of_nil in Ht|].
    destruct (best_height_total (t0 :: tips) None) as [r Hr].
    { apply Forall_forall. intros t' Ht'. destruct (Ha t' Ht') as (b' & ? & ? & _). by exists b'. }
    rewrite Hr. cbn [rbind]. apply best_height_fold in Hr as [_ Hr]. destruct r; [by eexists|done]. }
  rewrite E. f_equal. destruct (Hs _ E) as [Ha' (t' & b' & Ht' & Hb' & ->)].
  destruct (Ha' t Ht) as (x & Hx & _ & Hle). rewrite Hb in Hx. injection Hx as <-.
  destruct (Ha t' Ht') as (y & Hy & _ & Hle'). rewrite Hb' in Hy. injection Hy as <-. lia.
Qed.

Lemma needed_height_unlocked blk h :
  (0 <? _spent_reward_needed_height blk h) = false <-> get_height blk + REWARD_SPEND_MIN_BLOCKS <= h.
Proof. unfold _spent_reward_needed_height. rewrite Z.ltb_ge. lia. Qed.

(** every reward among the inputs is buried deep enough below height [h] *)
Definition rewards_unlocked (h : Z) (inputs : list TxInput) : Prop := Forall (fun i => exists s,
  get_transaction (in_tx_id i) = Ok s /\ (is_block s = true -> get_height s + REWARD_SPEND_MIN_BLOCKS <= h)) inputs.

Lemma locked_info_none h inputs : locked_info h inputs = Ok None <-> rewards_unlocked h inputs.
Proof.
  unfold rewards_unlocked. induction inputs as [|i inputs IH]; simpl; [by split|]. rewrite Forall_cons, <- IH.
  destruct (get_transaction (in_tx_id i)) as [s|e] eqn:Es; cbn [rbind]; [|by split; [|intros [(? & ? & _) _]]].
  destruct (is_block s) eqn:Eb.
  - destruct (0 <? _spent_reward_needed_height s h) eqn:En.
    + split; [done|]. intros [(s' & E & Hs) _]. injection E as <-. apply Hs in Eb.
      apply needed_height_unlocked in Eb. congruence.
    + apply needed_height_unlocked in En. split; [|by intros [_ ?]]. intros ?. split; [|done]. by exists s.
  - split; [|by intros [_ ?]]. intros ?. split; [|done]. exists s. split; [done|]. congruence.
Qed.

Lemma verify_reward_ok tx :
  verify_reward_locked tx = Ok tt <-> exists h, get_minimum_best_height = Ok h /\
    rewards_unlocked h (v_inputs tx) /\ min_height tx <= h + 1.
Proof.
  unfold verify_reward_locked, verify_reward_locked_for_height, get_spent_reward_locked_info.
  destruct get_minimum_best_height as [h|e]; cbn [rbind]; [|by split; [|intros (? & ? & _)]].
  pose proof (locked_info_none h (v_inputs tx)) as Hl. split.
  - intros H. inv_rok H. destruct a; [done|]. exists h. split; [done|]. split; [by apply Hl|].
    destruct (Z.ltb_spec (h + 1) (min_height tx)); [done|lia].
  - intros (h' & E & Hr & Hm). injection E as <-. apply Hl in Hr. rewrite Hr. cbn [rbind].
    by rewrite (proj2 (Z.ltb_ge _ _)) by lia.
Qed.

(** C26: the reward lock: a transaction passes exactly when, for [h] the least height among
    the best tips, every block reward it spends is at least [REWARD_SPEND_MIN_BLOCKS]
    blocks below [h] and the height it inherits is at most that of the next block. *)
Theorem reward_lock_spec tx : verify_reward_locked tx = Ok tt <->
  exists h, least_tip_height h /\ rewards_unlocked h (v_inputs tx) /\ min_height tx <= h + 1.
Proof. rewrite verify_reward_ok. by setoid_rewrite minimum_best_height_ok. Qed.

(** * Inputs *)

(** the output an input spends *)
Definition spends (i : TxInput) (s : vertex) (o : TxOutput) : Prop :=
  get_transaction (in_tx_id i) = Ok s /\ py_index (v_outputs s) (in_index i) = Ok o.

Definition utxo_extras (tx : vertex) (i : TxInput) (s : vertex) : ScriptExtras :=
  UtxoScriptExtras (to_script_tx tx) i (v_outputs s).

Definition input_key (i : TxInput) : bytes * Z := (in_tx_id i, in_index i).

Lemma sigops_step_ok en n i n' : sigops_step en n i = Ok n' -> exists s o k, spends i s o /\
  get_sigops_count en (in_data i) (Some (out_script o)) = Ok k.
Proof.
  unfold sigops_step, spends. intros H. inv_rok H. rewrite except_missing_ok in Hm. inv_raise H. inv_rok H. inv_rok H. by eauto 10.
Qed.

Lemma verify_script_ok tx i outs o : verify_script tx i outs = Ok tt -> py_index outs (in_index i) = Ok o ->
  raw_script_eval (in_data i) (out_script o) (UtxoScriptExtras tx i outs) = Ok tt.
Proof.
  unfold verify_script, script_eval, output_at. intros H Ho. rewrite Ho in H. cbn [rbind] in H.
  by destruct (raw_script_eval _ _ _) as [[]|].
Qed.

Lemma input_check_ok tx seen i seen' : input_check tx seen i = Ok seen' ->
  seen' = input_key i :: seen /\ input_key i ∉ seen /\ exists s, get_transaction (in_tx_id i) = Ok s /\
    v_timestamp s < v_timestamp tx /\ verify_script (to_script_tx tx) i (v_outputs s) = Ok tt.
Proof.
  unfold input_check, input_key. intros H. inv_raise H. inv_rok H. inv_raise H. inv_raise H. inv_rok H. destruct a0.
  case_bool_decide; [done|]. injection H as <-. apply Z.leb_gt in E1. by eauto 10.
Qed.

Lemma inputs_fold tx l : forall seen seen', rfold (input_check tx) l seen = Ok seen' -> NoDup seen ->
  seen' = rev (map input_key l) ++ seen /\ NoDup seen'.
Proof.
  induction l as [|i l IH]; intros seen seen' H Hn; cbn [rfold] in H; [by injection H as <-|].
  inv_rok H. apply input_check_ok in Hm as (-> & Hi & _). destruct (IH _ _ H) as [-> ?]; [by constructor|].
  split; [|done]. simpl. by rewrite <- app_assoc.
Qed.

Lemma verify_inputs_nodup tx : verify_inputs tx = Ok tt -> NoDup (map input_key (v_inputs tx)).
Proof.
  unfold verify_inputs. intros H. inv_rok H. destruct (inputs_fold tx _ _ _ Hm) as [-> Hn]; [constructor|].
  rewrite app_nil_r in Hn. apply NoDup_ListNoDup in Hn. apply NoDup_ListNoDup. apply List.NoDup_rev in Hn.
  by rewrite rev_involutive in Hn.
Qed.

(** * Conflicts *)

Lemma within_ok tx l : forall n n', rfold (within_step tx) l n = Ok n' ->
  Forall (fun h => h = v_hash tx \/ exists c, get_transaction h = Ok c /\ first_block (get_metadata c) = None) l /\
  n' = n + zlen (filter (fun h => h <> v_hash tx) l).
Proof.
  induction l as [|h l IH]; intros n n' H; cbn [rfold] in H.
  - injection H as <-. split; [constructor|]. unfold zlen. simpl. lia.
  - inv_rok H. apply IH in H as [Hf ->]. unfold within_step in Hm. rewrite filter_cons. case_bool_decide as E.
    + injection Hm as <-. rewrite decide_False by (by intros []). split; [constructor; [by left|done]|done].
    + rewrite decide_True by done. inv_rok Hm. destruct (first_block (get_metadata a0)) eqn:Ef; [done|]. injection Hm as <-.
      split; [constructor; [right; by exists a0|done]|]. unfold zlen. simpl length. lia.
Qed.

(** the output an input spends is not spent by a confirmed transaction, and by fewer than
    [MAX_WITHIN_CONFLICTS] others *)
Definition no_confirmed_conflict (tx : vertex) (i : TxInput) : Prop := exists s,
  get_transaction (in_tx_id i) = Ok s /\
  (is_Some (first_block (get_metadata s)) -> truthy_set (voided_by (get_metadata s)) = false) /\
  forall spenders, od_get (spent_outputs (get_metadata s)) (in_index i) = Some spenders ->
    zlen (filter (fun h => h <> v_hash tx) spenders) < MAX_WITHIN_CONFLICTS /\
    forall h, h ∈ spenders -> h <> v_hash tx -> exists c, get_transaction h = Ok c /\ first_block (get_metadata c) = None.

Lemma conflict_step_ok tx n i n' : conflict_step tx n i = Ok n' -> no_confirmed_conflict tx i.
Proof.
  unfold conflict_step, no_confirmed_conflict. intros H. inv_rok H. inv_raise H. exists a. split; [done|]. split.
  - intros Hs. rewrite bool_decide_true in E by done. by destruct (truthy_set _).
  - intros l Hl. rewrite Hl in H. inv_rok H. inv_raise H. apply within_ok in Hm0 as [Hf ->]. apply Z.leb_gt in E0.
    split; [lia|]. intros h Hh Hne. rewrite Forall_forall in Hf. by destruct (Hf h Hh) as [?|?].
Qed.

Lemma verify_conflict_ok tx params : reject_conflicts_with_confirmed_txs params = true ->
  verify_conflict tx params = Ok tt -> Forall (no_confirmed_conflict tx) (v_inputs tx).
Proof.
  unfold verify_conflict. intros -> H. cbn [negb] in H. inv_rok H.
  eapply rfold_Forall; [|exact Hm]. intros ? ? ?. apply conflict_step_ok.
Qed.

(** * The whole verification *)

(** the owner of the output has authorised the spending *)
Definition authorised (tx : vertex) (i : TxInput) (s : vertex) (o : TxOutput) : Prop :=
  forall address tl, p2pkh_create_output_script address tl = Ok (out_script o) -> valid_lock tl ->
  exists pk sig, get_hash160 pk = address_hash address /\ signed_by (utxo_extras tx i s) pk sig /\
    unlocked (utxo_extras tx i s) tl.

Definition input_authorised (tx : vertex) (i : TxInput) : Prop := exists s o,
  spends i s o /\ v_timestamp s < v_timestamp tx /\ authorised tx i s o.

Lemma inputs_authorised tx en : verify_sigops_input tx en = Ok tt -> verify_inputs tx = Ok tt ->
  Forall (input_authorised tx) (v_inputs tx).
Proof.
  unfold verify_sigops_input, verify_inputs. intros H1 H2. inv_rok H1. inv_rok H2.
  assert (F1 := rfold_Forall (sigops_step en) _ _ _ _ (sigops_step_ok en) Hm).
  assert (F2 : Forall (fun i => exists s, get_transaction (in_tx_id i) = Ok s /\ v_timestamp s < v_timestamp tx /\
      verify_script (to_script_tx tx) i (v_outputs s) = Ok tt) (v_inputs tx)).
  { eapply rfold_Forall; [|exact Hm0]. intros d x d' Hs. by apply input_check_ok in Hs as (_ & _ & ?). }
  rewrite Forall_forall in F1, F2. apply Forall_forall. intros i Hi.
  destruct (F1 i Hi) as (s & o & k & [Hs Ho] & Hk). destruct (F2 i Hi) as (s' & Hs' & Ht & Hv).
  rewrite Hs in Hs'. injection Hs' as <-. exists s, o. split; [done|]. split; [done|]. intros address tl Hsc Hl.
  pose proof (verify_script_ok _ _ _ _ Hv Ho) as He.
  destruct (proj1 (p2pkh_spend_iff _ address tl (out_script o) en (in_data i) k Hsc Hl Hk) He) as (pk & sig & _ & Hu & Hh & Hsig).
  by exists pk, sig.
Qed.

End theory.

(** * A reward spent after enough blocks *)

Section demo.
(** hashes that keep the data; a signature is the key and the first byte of the data *)
Definition demo_crypto : Crypto := {|
  sha256 := fun x => x;
  ripemd160 := fun x => take 20 (x ++ repeat Byte.x00 20);
  PublicKey := bytes;
  from_encoded_point := Some;
  ecdsa_verify := fun k sig data => bool_decide (sig = k ++ take 1 data);
  b58encode := fun i => match i with IBytes b => Ok b | IInt _ => Err TypeError end;
  b58decode := Ok |}.

Definition demo_script_settings : ScriptSettings := {|
  P2PKH_VERSION_BYTE := zb [0x28]; MULTISIG_VERSION_BYTE := zb [0x64];
  MAX_MULTISIG_PUBKEYS := 20; MAX_MULTISIG_SIGNATURES := 15 |}.

Definition demo_tx_settings : TxSettings :=
  {| FEE_PER_OUTPUT := 1; TOKEN_DEPOSIT_PERCENTAGE := float_0_01; MAX_NUM_INPUTS := 255; MAX_NUM_OUTPUTS := 255;
     MAX_OUTPUT_SCRIPT_SIZE := 1024; MAX_INPUT_DATA_SIZE := 1024; MAX_TX_SIGOPS_INPUT := 1275;
     MAX_TX_SIGOPS_OUTPUT := 1275; MAX_DISTANCE_BETWEEN_BLOCKS := 4500; REWARD_SPEND_MIN_BLOCKS := 300;
     GENESIS_HASHES := []; GENESIS_BLOCK_HASH := [] |}.

(** powers of two; no logarithm is taken *)
Definition demo_float_lib : FloatLib :=
  {| fpow := fun _ x => let? n := float_floor x in float_of_int (2 ^ n); flog := fun _ => Err ValueError |}.

Definition demo_no_tokens : TokenStore unit :=
  {| has_token := fun _ _ => Ok false; token_description := fun _ _ => Err KeyError |}.

#[local] Existing Instances demo_crypto demo_script_settings demo_tx_settings demo_float_lib demo_no_tokens.

Definition demo_id (n : Z) : bytes := repeat (z2b n) 32.
Definition demo_key : bytes := zb [2; 10].
Definition demo_owner : bytes := get_address_from_public_key_hash (get_hash160 demo_key) None.
Definition demo_out_script : bytes :=
  match p2pkh_create_output_script demo_owner (Some 70000) with Ok s => s | Err _ => [] end.

Definition demo_vertex (id : Z) (ver : TxVersion) (ts : Z) (parents : list bytes) (ins : list TxInput) (outs : list TxOutput) : vertex :=
  mkVertex (demo_id id) 0 ver ts (S754_zero false) parents ins outs [] [] [] [] NATIVE.

Definition demo_vertices : list vertex :=
  [demo_vertex 1 REGULAR_BLOCK 100 [] [] [mkTxOutput 6400 demo_out_script 0];
   demo_vertex 2 REGULAR_BLOCK 99000 [] [] [];
   demo_vertex 3 REGULAR_TRANSACTION 99001 [] [] [];
   demo_vertex 4 REGULAR_TRANSACTION 99002 [] [] []].

Definition demo_vertex_storage : VertexStorage :=
  {| get_transaction := fun h => match filter (fun v => v_hash v = h) demo_vertices with
       | v :: _ => Ok v | [] => Err TransactionDoesNotExist end |}.

Definition demo_node_state : NodeState :=
  {| get_metadata := fun _ => new_metadata 0 0 FULL;
     get_best_block_tips := [demo_id 2];
     height_index := fun _ => None;
     height_tip := demo_id 2 |}.

Definition demo_static : StaticStore :=
  {| static_metadata := fun v =>
       if bool_decide (v_hash v = demo_id 1) then BlockStaticMetadata 10 0 []
       else if bool_decide (v_hash v = demo_id 2) then BlockStaticMetadata 400 0 []
       else TransactionStaticMetadata 311 (demo_id 1) |}.

#[local] Existing Instances demo_vertex_storage demo_node_state demo_static.

Definition demo_spend : vertex :=
  demo_vertex 0 REGULAR_TRANSACTION 100000 [demo_id 3; demo_id 4]
    [mkTxInput (demo_id 1) 0 (zb [3; 2; 10; 0; 2; 2; 10])] [mkTxOutput 6400 demo_out_script 0].

(** a block may confirm transactions older than those its block parent confirms *)
Example old_parents_accepted :
  let v := mkVertex (demo_id 9) 0 REGULAR_BLOCK 100000 (S754_zero false) [demo_id 2; demo_id 5; demo_id 6] [] [] [] [] [] [] NATIVE in
  let VS := {| get_transaction := fun h =>
    if bool_decide (h = demo_id 2) then Ok (demo_vertex 2 REGULAR_BLOCK 99990 [demo_id 3; demo_id 4] [] [])
    else if bool_decide (h = demo_id 5) then Ok (demo_vertex 5 REGULAR_TRANSACTION 50 [] [] [])
    else if bool_decide (h = demo_id 6) then Ok (demo_vertex 6 REGULAR_TRANSACTION 51 [] [] [])
    else get_transaction h |} in
  verify_parents v = Ok tt /\ exists p3, get_transaction (demo_id 3) = Ok p3 /\ 51 < v_timestamp p3.
Proof. split; [vm_compute; reflexivity|]. eexists. split; [reflexivity|]. vm_compute. reflexivity. Qed.
End demo.
