(* ===== verification/BlockVerifier.v ===== *)
(** Verification of blocks and of the vertices with rules of their own:
    [hathor/verification/block_verifier.py], [merge_mined_block_verifier.py],
    [poa_block_verifier.py] with [hathor/consensus/poa/poa.py],
    [token_creation_transaction_verifier.py], [on_chain_blueprint_verifier.py] and the
    mempool rules of [nano_header_verifier.py]. *)

From stdpp Require Import base list.
From Stdlib Require Import ZArith Lia Floats.SpecFloat.
From S2P Require Import Prelude PyInt PyValue PyFloat NCTypes ScriptCode ScriptVM TxStruct VertexStruct VertexParser.
From S2P Require Import TokenInfo StaticMetadata Metadata Daa FeatureActivation TxVerifier.

Local Open Scope Z_scope.
Local Open Scope py_scope.

(** * What these verifiers read of the settings and the node *)

Record Checkpoint : Type := mkCheckpoint { cp_height : Z; cp_hash : bytes }.

Class VerifierSettings : Type := {
  WEIGHT_TOL : spec_float;
  MAX_TX_WEIGHT_DIFF : spec_float;
  MAX_TX_WEIGHT_DIFF_ACTIVATION : spec_float;
  BLOCK_DATA_MAX_SIZE : Z;
  CHECKPOINTS : list Checkpoint;
  OLD_MAX_MERKLE_PATH_LENGTH : Z;
  NEW_MAX_MERKLE_PATH_LENGTH : Z;
  SKIP_VERIFICATION : list bytes;
  MAX_LENGTH_TOKEN_NAME : Z;
  MAX_LENGTH_TOKEN_SYMBOL : Z;
  HATHOR_TOKEN_NAME : pystr;
  HATHOR_TOKEN_SYMBOL : pystr;
  NC_ON_CHAIN_BLUEPRINT_RESTRICTED : bool;
  (** addresses in base 58 *)
  NC_ON_CHAIN_BLUEPRINT_ALLOWED_ADDRESSES : list bytes
}.

(** the interpreter's Unicode tables: whitespace of regular expressions and of [str.strip],
    and [str.upper] *)
Class Unicode : Type := {
  is_space : Z -> bool;
  str_upper : pystr -> pystr;
  is_space_blank : is_space 32 = true
}.

(** a method of a blueprint class: whether it is public, the check of its arguments
    ([Method.deserialize_args_bytes]) and the actions it allows *)
Record NCMethod : Type := mkMethod {
  is_nc_public_method : bool;
  deserialize_args_bytes : bytes -> result unit;
  nc_allowed_actions : list NCActionType
}.

(** what the mempool rules read of nano contracts; a blueprint class is the function of
    [getattr] on it. [code_rules] are the rules on the Python text of a blueprint. *)
Class NanoNode (B : Type) : Type := {
  get_nc_block_storage : vertex -> result B;
  contract_blueprint_id : B -> bytes -> result bytes;
  address_seqnum : B -> bytes -> result Z;
  get_blueprint_class : bytes -> result (pystr -> option NCMethod);
  code_rules : vertex -> result unit
}.

(** [bytes.find]: the first position of [needle], or -1 *)
Fixpoint bytes_find (hay needle : bytes) : Z :=
  if bool_decide (take (length needle) hay = needle) then 0
  else match hay with
  | [] => -1
  | _ :: hay => let i := bytes_find hay needle in if i <? 0 then -1 else i + 1
  end.

Definition MAX_PAST_TIMESTAMP_ALLOWED : Z := 3600 * 36.
Definition MAX_SEQNUM_JUMP_SIZE : Z := 10.
Definition MAX_SEQNUM_DIFF_MEMPOOL : Z := MAX_SEQNUM_JUMP_SIZE + 30.
(** ["initialize"] *)
Definition NC_INITIALIZE_METHOD : pystr := [105; 110; 105; 116; 105; 97; 108; 105; 122; 101].
(** ["fallback"] *)
Definition NC_FALLBACK_METHOD : pystr := [102; 97; 108; 108; 98; 97; 99; 107].

Section verifiers.
Context {CR : Crypto} {SS : ScriptSettings} {TS : TxSettings} {VS : VertexStorage} {SM : StaticStore} {NS : NodeState}.
Context {FL : FloatLib} {DS : DaaSettings} {FS : FeatureSettings} {PS : ParserSettings} {ES : VerifierSettings} {UN : Unicode}.
Context {B : Type} `{!TokenStore B} `{!NanoNode B}.

Definition is_pow : bool := match CONSENSUS_ALGORITHM with PowSettings => true | PoaSettings _ => false end.

(** * [BlockVerifier] *)

Definition verify_height (block : vertex) : result unit :=
  raise_if (get_height block <? min_height block) RewardLocked.

(** [TransactionStorage.get_parent_block] *)
Definition get_parent_block (block : vertex) : result vertex := get_block_parent block.

Definition block_verify_weight (block : vertex) : result unit :=
  let? _ := raise_if (negb is_pow) AssertionError in
  let? min_block_weight := calculate_block_difficulty get_parent_block block in
  raise_if (SFltb (v_weight block) (fsub min_block_weight WEIGHT_TOL)) WeightError.

Definition verify_reward (block : vertex) : result unit :=
  let? parent_block := get_block_parent block in
  let? tokens_issued_per_block := get_tokens_issued_per_block (get_height parent_block + 1) in
  raise_if (negb (sum_outputs block =? tokens_issued_per_block)) InvalidBlockReward.

Definition verify_no_inputs (block : vertex) : result unit :=
  match v_inputs block with [] => Ok tt | _ => Err BlockWithInputs end.

Definition block_verify_output_token_indexes (block : vertex) : result unit :=
  rfor (v_outputs block) (fun o => raise_if (0 <? get_token_index o) BlockWithTokensError).

Definition verify_data (block : vertex) : result unit :=
  raise_if (BLOCK_DATA_MAX_SIZE <? blen (v_data block)) TransactionDataError.

Definition verify_mandatory_signaling (block : vertex) : FM unit :=
  let! signaling_state := is_signaling_mandatory_features block in
  match signaling_state with
  | BlockIsSignaling => ret tt
  | BlockIsMissingSignal _ => raise BlockMustSignalError
  end.

(** [{cp.height: cp for cp in CHECKPOINTS}.get(height)]: the last one of a height *)
Definition get_checkpoint (height : Z) : option Checkpoint :=
  find (fun cp => cp_height cp =? height) (rev CHECKPOINTS).

Definition verify_checkpoints (block : vertex) : result unit :=
  match last CHECKPOINTS with
  | None => Ok tt
  | Some latest_checkpoint =>
      if cp_height latest_checkpoint <? get_height block then Ok tt else
      let? best_block := get_best_block in
      if cp_height latest_checkpoint <=? get_height best_block then Err CheckpointError else
      match get_checkpoint (get_height block) with
      | Some cp => raise_if (negb (bool_decide (cp_hash cp = v_hash block))) CheckpointError
      | None => Ok tt
      end
  end.

(** * [MergeMinedBlockVerifier] and [BitcoinAuxPow.verify] *)

Definition verify_magic_number (a : BitcoinAuxPow) : result unit :=
  let magic_index := bytes_find (coinbase_head a) MAGIC_NUMBER in
  if magic_index =? -1 then Err AuxPowNoMagicError
  else raise_if (magic_index <? blen (coinbase_head a) - blen MAGIC_NUMBER) AuxPowUnexpectedMagicError.

Definition verify_merkle_path (a : BitcoinAuxPow) (max_merkle_path_length : Z) : result unit :=
  raise_if (max_merkle_path_length <? zlen (merkle_path a)) AuxPowLongMerklePathError.

Definition verify_aux_pow (block : vertex) : FM unit :=
  match v_aux_pow block with
  | None => raise AssertionError
  | Some aux_pow =>
      let! active := is_feature_active block INCREASE_MAX_MERKLE_PATH_LENGTH in
      let max_merkle_path_length := if active then NEW_MAX_MERKLE_PATH_LENGTH else OLD_MAX_MERKLE_PATH_LENGTH in
      let! _ := lift (get_mining_base_hash block) in
      lift (verify_magic_number aux_pow) ;;;
      lift (verify_merkle_path aux_pow max_merkle_path_length)
  end.

(** * [poa.py] and [PoaBlockVerifier] *)

Definition BLOCK_WEIGHT_IN_TURN : result spec_float := float_of_int 2.
Definition BLOCK_WEIGHT_OUT_OF_TURN : result spec_float := float_of_int 1.

(** [Block.get_graph_struct] leaves the signature out *)
Definition get_hashed_poa_data (block : vertex) : result bytes :=
  let? funds := get_funds_struct block in
  let? graph := block_graph_struct block in
  let? nonce := get_struct_nonce block in
  Ok (sha256 (funds ++ graph ++ nonce)).

Definition is_active_signer (height : Z) (s : PoaSignerSettings) : bool :=
  (signer_start_height s <=? height) &&
  match signer_end_height s with Some e => height <=? e | None => true end.

Definition get_active_signers (signers : list PoaSignerSettings) (height : Z) : list bytes :=
  map public_key (List.filter (is_active_signer height) signers).

Definition get_signer_index_distance (signers : list PoaSignerSettings) (signer_index height : Z) : result Z :=
  let n := zlen (get_active_signers signers height) in
  if n =? 0 then Err ZeroDivisionError else
  let expected_index := height mod n in
  Ok ((signer_index - expected_index) mod n).

Definition calculate_weight (signers : list PoaSignerSettings) (block : vertex) (signer_index : Z) : result spec_float :=
  let? index_distance := get_signer_index_distance signers signer_index (get_height block) in
  if index_distance =? 0 then BLOCK_WEIGHT_IN_TURN else
  let? one := BLOCK_WEIGHT_OUT_OF_TURN in
  let? d := float_of_int index_distance in
  fdiv one d.

Definition get_poa_signer_id (compressed_public_key_bytes : bytes) : bytes :=
  take (Z.to_nat SIGNER_ID_LEN) (sha256 compressed_public_key_bytes).

(** the loop over [enumerate(active_signers)], from index [i]; [None] is [InvalidSignature()] *)
Fixpoint signature_loop (block : vertex) (hashed_poa_data : bytes) (i : Z) (active_signers : list bytes) :
    result (option (Z * bytes)) :=
  match active_signers with
  | [] => Ok None
  | public_key_bytes :: rest =>
      if negb (bool_decide (v_signer_id block = get_poa_signer_id public_key_bytes))
      then signature_loop block hashed_poa_data (i + 1) rest
      else match from_encoded_point public_key_bytes with
      | None => Err ValueError
      | Some public_key =>
          if ecdsa_verify public_key (v_signature block) hashed_poa_data then Ok (Some (i, public_key_bytes))
          else signature_loop block hashed_poa_data (i + 1) rest
      end
  end.

Definition verify_poa_signature (signers : list PoaSignerSettings) (block : vertex) : result (option (Z * bytes)) :=
  let active_signers := get_active_signers signers (get_height block) in
  let? hashed_poa_data := get_hashed_poa_data block in
  signature_loop block hashed_poa_data 0 active_signers.

Definition verify_poa (block : vertex) : result unit :=
  match CONSENSUS_ALGORITHM with
  | PowSettings => Err AssertionError
  | PoaSettings signers =>
      let? parent_block := get_block_parent block in
      let? _ := raise_if (v_timestamp block <? v_timestamp parent_block + AVG_TIME_BETWEEN_BLOCKS) PoaValidationError in
      let? _ := raise_if (match v_outputs block with [] => false | _ => true end) PoaValidationError in
      let? signature_validation := verify_poa_signature signers block in
      match signature_validation with
      | None => Err PoaValidationError
      | Some (signer_index, _) =>
          let? expected_weight := calculate_weight signers block signer_index in
          raise_if (negb (SFeqb (v_weight block) expected_weight)) PoaValidationError
      end
  end.

(** * [TransactionVerifier.verify_weight] *)

Definition tx_verify_weight (tx : vertex) : result unit :=
  let? _ := raise_if (negb is_pow) AssertionError in
  let? min_tx_weight := minimum_tx_weight tx in
  let max_tx_weight := fadd min_tx_weight MAX_TX_WEIGHT_DIFF in
  if SFltb (v_weight tx) (fsub min_tx_weight WEIGHT_TOL) then Err WeightError
  else raise_if (SFltb MAX_TX_WEIGHT_DIFF_ACTIVATION min_tx_weight && SFltb max_tx_weight (v_weight tx)) WeightError.

(** * [VertexVerifier], the basic checks *)

Definition verify_version_basic (v : vertex) : result unit :=
  raise_if (negb (is_vertex_version_valid (v_version v) false)) InvalidVersionError.

(** [now] is the clock of the reactor *)
Definition verify_old_timestamp (now : Z) (v : vertex) (params : VerificationParams) : result unit :=
  if negb (reject_too_old_vertices params) then Ok tt
  else raise_if (MAX_PAST_TIMESTAMP_ALLOWED <? now - v_timestamp v) TimestampError.

(** * [TokenCreationTransactionVerifier] *)

(** [re.sub(r'\s\s+', ' ', s)]: runs of two or more spaces become one blank *)
Fixpoint squeeze (s : pystr) : pystr :=
  match s with
  | [] => []
  | c :: s' =>
      if is_space c then
        match s' with
        | d :: _ =>
            if is_space d then
              match squeeze s' with
              | e :: r => if is_space e then 32 :: r else 32 :: e :: r
              | [] => [32]
              end
            else c :: squeeze s'
        | [] => [c]
        end
      else c :: squeeze s'
  end.

Fixpoint lstrip (s : pystr) : pystr :=
  match s with [] => [] | c :: s' => if is_space c then lstrip s' else s end.

Definition strip (s : pystr) : pystr := rev (lstrip (rev (lstrip s))).

Definition clean_token_string (s : pystr) : pystr := str_upper (strip (squeeze s)).

Definition validate_token_name_and_symbol (token_name token_symbol : pystr) : result unit :=
  let? _ := raise_if ((zlen token_name =? 0) || (MAX_LENGTH_TOKEN_NAME <? zlen token_name)) TransactionDataError in
  let? _ := raise_if ((zlen token_symbol =? 0) || (MAX_LENGTH_TOKEN_SYMBOL <? zlen token_symbol)) TransactionDataError in
  let? _ := raise_if (bool_decide (clean_token_string token_name = clean_token_string HATHOR_TOKEN_NAME)) TransactionDataError in
  raise_if (bool_decide (clean_token_string token_symbol = clean_token_string HATHOR_TOKEN_SYMBOL)) TransactionDataError.

Definition verify_token_info (tx : vertex) (params : VerificationParams) : result unit :=
  let? _ := validate_token_name_and_symbol (v_token_name tx) (v_token_symbol tx) in
  raise_if (bool_decide (v_token_version tx = NATIVE) || (bool_decide (v_token_version tx = FEE) && negb (enable_nano params)))
    TransactionDataError.

(** [token_dict[tx.hash]] *)
Definition verify_minted_tokens (tx : vertex) (token_dict : TokenInfoDict) : result unit :=
  match od_get (entries token_dict) (v_hash tx) with
  | None => Err KeyError
  | Some token_info => raise_if (amount token_info <=? 0) InvalidToken
  end.

(** * [OnChainBlueprintVerifier]; the rules on the Python code are a parameter *)

Definition verify_pubkey_is_allowed (tx : vertex) : result unit :=
  if NC_ON_CHAIN_BLUEPRINT_RESTRICTED then
    let? address := get_address_b58_from_public_key_hash (get_hash160 (v_nc_pubkey tx)) in
    raise_if (negb (bool_decide (address ∈ NC_ON_CHAIN_BLUEPRINT_ALLOWED_ADDRESSES))) OCBPubKeyNotAllowed
  else Ok tt.

Definition ocb_verify_nc_signature (tx : vertex) : result unit :=
  let? data := get_sighash_all_data tx in
  match from_encoded_point (v_nc_pubkey tx) with
  | None => Err NCInvalidPubKey
  | Some pubkey => raise_if (negb (ecdsa_verify pubkey (v_nc_signature tx) data)) NCInvalidSignature
  end.

(** * [NanoHeaderVerifier], the rules of the mempool *)

(** [except c as e: raise e'] *)
Definition except_as {A} (r : result A) (c e' : exn) : result A :=
  match r with
  | Err e => Err (if issubclass_exn e c then e' else e)
  | _ => r
  end.

Definition is_creating_a_new_contract (h : NanoHeader) : bool := bool_decide (nc_method h = NC_INITIALIZE_METHOD).

(** the blueprint of the contract called, and whether a fallback is allowed *)
Definition called_blueprint (h : NanoHeader) : result (bytes * bool) :=
  if is_creating_a_new_contract h then Ok (nc_id h, false) else
  let? best_block := get_best_block in
  let? block_storage := get_nc_block_storage best_block in
  let? blueprint_id := except_as (contract_blueprint_id block_storage (nc_id h)) NanoContractDoesNotExist NCTxValidationError in
  Ok (blueprint_id, true).

(** the method that runs *)
Definition called_method (h : NanoHeader) (cls : pystr -> option NCMethod) (allow_fallback : bool) : result NCMethod :=
  match cls (nc_method h) with
  | None =>
      if negb allow_fallback then Err NCMethodNotFound
      else match cls NC_FALLBACK_METHOD with Some m => Ok m | None => Err NCMethodNotFound end
  | Some m =>
      let? _ := raise_if (negb (is_nc_public_method m)) NCInvalidMethodCall in
      let? _ := except_as (deserialize_args_bytes m (nc_args_bytes h)) NCFail NCTxValidationError in
      Ok m
  end.

Definition verify_method_call (tx : vertex) (params : VerificationParams) : result unit :=
  if negb (harden_nano_restrictions params) then Ok tt else
  match get_nano_header tx with
  | None => Err AssertionError
  | Some h =>
      let? called := called_blueprint h in
      let? cls := except_as (get_blueprint_class (fst called)) NCFail NCTxValidationError in
      let? m := called_method h cls (snd called) in
      rfor (nc_actions h) (fun a =>
        raise_if (negb (bool_decide (act_type a ∈ nc_allowed_actions m))) NCTxValidationError)
  end.

Definition verify_seqnum (tx : vertex) (params : VerificationParams) : result unit :=
  if negb (harden_nano_restrictions params) then Ok tt else
  match get_nano_header tx with
  | None => Err AssertionError
  | Some h =>
      let? best_block := get_best_block in
      let? block_storage := get_nc_block_storage best_block in
      let? seqnum := address_seqnum block_storage (nc_address h) in
      let diff := nc_seqnum h - seqnum in
      raise_if ((diff <? 0) || (MAX_SEQNUM_DIFF_MEMPOOL <? diff)) NCInvalidSeqnum
  end.
End verifiers.
