(* ===== verification/NCContext.v ===== *)
(** The arguments and the context of a call: [hathor/nanocontracts/method.py],
    [context.py] and [vertex_data.py]. *)

From stdpp Require Import base list strings.
From Stdlib Require Import ZArith Lia Floats.SpecFloat.
From S2P Require Import Prelude PyInt Serializer Deserializer PyValue Compound NCTypes NCTypeTheory NCTypeSafety.
From S2P Require Import BlockStorage ScriptCode ScriptVM TxStruct TokenInfo StaticMetadata.
From S2P Require Import TxVerifier.

Local Open Scope Z_scope.
Local Open Scope py_scope.

Definition MAX_BYTES_SERIALIZED_ARG : Z := 1000.

(** * Exceptions *)

(** the [except] clauses of [_serialize_map_exception] and [_deserialize_map_exception] *)
Definition map_exception {A} (r : result A) : result A :=
  match r with
  | Ok a => Ok a
  | Err e =>
      if issubclass_exn e MaxBytesExceededError then Err NCSerializationArgTooLong
      else if issubclass_exn e SerializationError then Err NCSerializationError
      else if issubclass_exn e NCFail then Err e
      else Err NCFail
  end.

Definition _serialize_map_exception (serialize : SM unit) : result bytes :=
  map_exception (let '(r, serializer) := serialize build_bytes_serializer in
                 let? _ := r in fst (ser_finalize serializer)).

Definition _deserialize_map_exception {A} (deserialize : DM A) (data : bytes) : result A :=
  map_exception (fst ((let! v := deserialize in des_finalize ;;; ret v) (build_bytes_deserializer data))).

(** * [_ArgsNCType] *)

Section args.
Variables (_args : list nc_type) (_max_bytes : Z).

Definition Args_check_value (deep : bool) (l : list value) : result unit :=
  if (length _args <? length l)%nat then Err TypeError
  else if deep then rfor (zip l _args) (fun x => check_value_ (snd x) true (fst x)) else Ok tt.

(** [NCType.serialize]: the shallow check, then [_serialize] *)
Definition Args_serialize (l : list value) : SM unit :=
  lift (Args_check_value false l) ;;;
  ser_with_max_bytes _max_bytes
    (if (length _args <? length l)%nat then raise TypeError
     else if (length l <? length _args)%nat then raise TypeError
     else
       serialize VarUint32NCType (VInt (Z.of_nat (length l))) ;;;
       for_each (zip _args l) (fun x => serialize (fst x) (snd x))).

Fixpoint decode_args (ts : list nc_type) : DM (list value) :=
  match ts with
  | [] => ret []
  | t :: ts => let! v := deserialize t in let! l := decode_args ts in ret (v :: l)
  end.

(** [len(self._args)] arguments are read: the two tests leave no other number *)
Definition Args_deserialize : DM (list value) :=
  let! l := des_with_max_bytes _max_bytes
    (let! n := deserialize VarUint32NCType in
     match as_int n with
     | None => raise TypeError
     | Some num_args =>
         if Z.of_nat (length _args) <? num_args then raise TypeError
         else if num_args <? Z.of_nat (length _args) then raise TypeError
         else decode_args (take (Z.to_nat num_args) _args)
     end) in
  lift (Args_check_value false l) ;;; ret l.
End args.

(** * [Method] and [ReturnOnly] *)

Record Method : Type := mkSignature {
  arg_names : list pystr;
  args : list nc_type;
  return_ : nc_type
}.

Inductive NCArgs : Type :=
| NCRawArgs (args_bytes : bytes)
| NCParsedArgs (args : list value) (kwargs : list (pystr * value)).

Definition args_nc_type (m : Method) (l : list value) : SM unit := Args_serialize (args m) MAX_BYTES_SERIALIZED_ARG l.

(** [merged] after the loop over the keyword arguments *)
Definition merge_kwarg (m : Method) (merged : list (pystr * value)) (kw : pystr * value) :
    result (list (pystr * value)) :=
  if negb (bool_decide (fst kw ∈ arg_names m)) then Err NCFail
  else match od_get merged (fst kw) with
  | Some _ => Err NCFail
  | None => Ok (od_set merged (fst kw) (snd kw))
  end.

Fixpoint rfold_left {A D} (f : D -> A -> result D) (l : list A) (d : D) : result D :=
  match l with
  | [] => Ok d
  | x :: l => let? d := f d x in rfold_left f l d
  end.

Fixpoint ordered_args (names : list pystr) (merged : list (pystr * value)) : result (list value) :=
  match names with
  | [] => Ok []
  | name :: names =>
      match od_get merged name with
      | None => Err NCFail
      | Some arg => let? l := ordered_args names merged in Ok (arg :: l)
      end
  end.

Definition method_serialize_args_bytes (m : Method) (l : list value) (kwargs : list (pystr * value)) : result bytes :=
  if (length (arg_names m) <? length l)%nat then Err NCFail
  else
    let merged := fold_left (fun d x => od_set d (fst x) (snd x)) (zip (arg_names m) l) [] in
    let? merged := rfold_left (merge_kwarg m) kwargs merged in
    let? ordered := ordered_args (arg_names m) merged in
    _serialize_map_exception (args_nc_type m ordered).

Definition method_deserialize_args_bytes (m : Method) (data : bytes) : result (list value) :=
  _deserialize_map_exception (Args_deserialize (args m) MAX_BYTES_SERIALIZED_ARG) data.

Definition serialize_return_bytes (return_nc_type : nc_type) (return_value : value) : result bytes :=
  _serialize_map_exception (serialize return_nc_type return_value).

Definition deserialize_return_bytes (return_nc_type : nc_type) (data : bytes) : result value :=
  _deserialize_map_exception (deserialize return_nc_type) data.

(** [Runner._validate_nc_args_for_method] *)
Definition _validate_nc_args_for_method (m : Method) (nc_args : NCArgs) : result (list value) :=
  let? args_bytes := match nc_args with
    | NCParsedArgs args kwargs => method_serialize_args_bytes m args kwargs
    | NCRawArgs args_bytes => Ok args_bytes
    end in
  method_deserialize_args_bytes m args_bytes.

(** [Runner._validate_return_type_for_method] *)
Definition _validate_return_type_for_method (return_nc_type : nc_type) (return_value : value) : result value :=
  let? return_bytes := serialize_return_bytes return_nc_type return_value in
  deserialize_return_bytes return_nc_type return_bytes.

(** * What they raise, and the round trip *)

Lemma map_exception_fail {A} (r : result A) e : map_exception r = Err e -> issubclass_exn e NCFail = true.
Proof. destruct r as [a|e']; simpl; [done|]. repeat case_match; intros [= <-]; done. Qed.

Lemma map_exception_ok {A} (r : result A) a : map_exception r = Ok a <-> r = Ok a.
Proof. destruct r as [b|e]; simpl; [done|]. split; [|done]. by repeat case_match. Qed.

Lemma merge_kwargs_fail m kwargs : forall merged e,
  rfold_left (merge_kwarg m) kwargs merged = Err e -> e = NCFail.
Proof.
  induction kwargs as [|kw kwargs IH]; intros merged e; simpl; [done|].
  unfold merge_kwarg at 1. destruct (negb _); simpl; [congruence|].
  destruct (od_get merged (fst kw)); simpl; [congruence|]. apply IH.
Qed.

Lemma ordered_args_fail names merged e : ordered_args names merged = Err e -> e = NCFail.
Proof.
  revert e. induction names as [|n names IH]; intros e; simpl; [done|].
  destruct (od_get merged n); [|congruence]. destruct (ordered_args names merged); simpl; [done|].
  intros [= <-]. by apply IH.
Qed.

(** a call whose arguments are refused fails with an exception that contracts may raise *)
Lemma validate_args_fail m nc_args e : _validate_nc_args_for_method m nc_args = Err e -> issubclass_exn e NCFail = true.
Proof.
  unfold _validate_nc_args_for_method. destruct nc_args as [bs|l kw]; simpl; [by apply map_exception_fail|].
  destruct (method_serialize_args_bytes m l kw) as [bs|e'] eqn:E; simpl; [by apply map_exception_fail|].
  intros [= <-]. revert E. unfold method_serialize_args_bytes. destruct (_ <? _)%nat; [by intros [= <-]|].
  destruct (rfold_left _ _ _) as [d|e1] eqn:E1; simpl.
  - destruct (ordered_args _ d) as [o|e2] eqn:E2; simpl; [by apply map_exception_fail|].
    intros [= <-]. by rewrite (ordered_args_fail _ _ _ E2).
  - intros [= <-]. by rewrite (merge_kwargs_fail _ _ _ _ E1).
Qed.

Lemma validate_return_fail t v e : _validate_return_type_for_method t v = Err e -> issubclass_exn e NCFail = true.
Proof.
  unfold _validate_return_type_for_method. destruct (serialize_return_bytes t v) eqn:E; simpl;
    [by apply map_exception_fail|]. intros [= <-]. by apply map_exception_fail in E.
Qed.

(** the result a caller receives is the value the method returned *)
Lemma validate_return_same t v : has_type t v = true -> within_limits v = true ->
  _validate_return_type_for_method t v = Ok v.
Proof.
  intros Ht Hw. destruct (good_codec (serialize t v) (deserialize t) v) as (bs & W & R);
    [by apply serialize_good|by apply serialize_codec|].
  unfold _validate_return_type_for_method, serialize_return_bytes, deserialize_return_bytes,
    _serialize_map_exception, _deserialize_map_exception.
  apply to_bytes_writes in W. unfold to_bytes in W. rewrite W. simpl.
  apply from_bytes_reads in R. unfold from_bytes in R. by rewrite R.
Qed.

(** * [vertex_data.py] *)

Record ScriptInfo : Type := mkScriptInfo { si_type : script_class; si_address : bytes; si_timelock : option Z }.

Record TxOutputData : Type := mkOutputData {
  od_value : Z;
  od_raw_script : bytes;
  od_parsed_script : option ScriptInfo;
  od_token_data : Z
}.

Record TxInputData : Type := mkInputData {
  id_tx_id : bytes;
  id_index : Z;
  id_data : bytes;
  id_info : option TxOutputData
}.

Record NanoHeaderData : Type := mkNanoHeaderData {
  nh_seqnum : Z;
  nh_id : bytes;
  nh_method : pystr;
  nh_args_bytes : bytes
}.

Record VertexData : Type := mkVertexData {
  vd_version : TxVersion;
  vd_hash : bytes;
  vd_nonce : Z;
  vd_signal_bits : Z;
  vd_weight : spec_float;
  vd_inputs : list TxInputData;
  vd_outputs : list TxOutputData;
  vd_tokens : list bytes;
  vd_parents : list bytes;
  vd_headers : list NanoHeaderData
}.

Record BlockData : Type := mkBlockData { bd_hash : bytes; bd_timestamp : Z; bd_height : Z }.

Definition script_info (s : script_class * base_script) : ScriptInfo :=
  mkScriptInfo (fst s) (bs_address (snd s)) (bs_timelock (snd s)).

Section vertex_data.
Context {CR : Crypto} {SS : ScriptSettings} {VS : VertexStorage} {SM : StaticStore}.

Definition create_from_txout (txout : TxOutput) : result TxOutputData :=
  let? parsed := parse_address_script (out_script txout) in
  Ok (mkOutputData (out_value txout) (out_script txout) (script_info <$> parsed) (out_token_data txout)).

(** [_get_txin_output]: a missing transaction fails an assertion *)
Definition _get_txin_output (txin : TxInput) : result TxOutput :=
  let? vertex2 := match get_transaction (in_tx_id txin) with
    | Err e => Err (if issubclass_exn e TransactionDoesNotExist then AssertionError else e)
    | r => r
    end in
  if Z.of_nat (length (v_outputs vertex2)) <=? in_index txin then Err AssertionError
  else py_index (v_outputs vertex2) (in_index txin).

Definition create_from_txin (txin : TxInput) : result TxInputData :=
  let? txin_output := _get_txin_output txin in
  let? info := create_from_txout txin_output in
  Ok (mkInputData (in_tx_id txin) (in_index txin) (in_data txin) (Some info)).

Definition create_from_nano_header (h : NanoHeader) : NanoHeaderData :=
  mkNanoHeaderData (nc_seqnum h) (nc_id h) (nc_method h) (nc_args_bytes h).

Definition nano_headers (v : vertex) : list NanoHeader :=
  omap (fun h => match h with NanoHeader_ n => Some n | _ => None end) (v_headers v).

Definition vertex_data_create (v : vertex) : result VertexData :=
  let? inputs := rmap create_from_txin (v_inputs v) in
  let? outputs := rmap create_from_txout (v_outputs v) in
  if is_block v then Err AssertionError
  else if (1 <? length (nano_headers v))%nat then Err AssertionError
  else Ok (mkVertexData (v_version v) (v_hash v) (v_nonce v) (v_signal_bits v) (v_weight v) inputs outputs
    (v_tokens v) (v_parents v) (map create_from_nano_header (nano_headers v))).

Definition create_from_block (b : vertex) : BlockData := mkBlockData (v_hash b) (v_timestamp b) (get_height b).
End vertex_data.

(** * [Context] *)

Inductive CallerId : Type := CallerAddress (address : bytes) | CallerContract (contract_id : bytes).

Record Context_ : Type := mkContext {
  caller_id : CallerId;
  ctx_vertex : VertexData;
  ctx_block : option BlockData;
  ctx_actions : list (bytes * list NCAction)
}.

(** [__group_actions__]: a dictionary of the actions of each token *)
Definition group_actions (actions : list NCAction) : list (bytes * list NCAction) :=
  fold_left (fun d a => od_set d (action_token a) (default [] (od_get d (action_token a)) ++ [a])) actions [].

(** [__all_actions__] *)
Definition all_actions (ctx : Context_) : list NCAction := concat (map snd (ctx_actions ctx)).

(** the property [block] *)
Definition context_block (ctx : Context_) : result BlockData :=
  match ctx_block ctx with None => Err AssertionError | Some b => Ok b end.

Definition get_caller_address (ctx : Context_) : option bytes :=
  match caller_id ctx with CallerAddress a => Some a | CallerContract _ => None end.

Definition get_caller_contract_id (ctx : Context_) : option bytes :=
  match caller_id ctx with CallerAddress _ => None | CallerContract c => Some c end.

Definition get_single_action (ctx : Context_) (token_uid : bytes) : result NCAction :=
  match od_get (ctx_actions ctx) token_uid with
  | Some [a] => Ok a
  | _ => Err NCFail
  end.

Definition context_copy (ctx : Context_) : result Context_ :=
  let? b := context_block ctx in
  Ok (mkContext (caller_id ctx) (ctx_vertex ctx) (Some b) (ctx_actions ctx)).

Section create.
Context {CR : Crypto} {SS : ScriptSettings} {VS : VertexStorage} {SM : StaticStore}.

(** [Context.create_from_vertex], for a vertex whose metadata has this first block;
    [verify_action_list] raises [NCInvalidAction], which the [except TxValidationError]
    around it does not catch *)
Definition create_from_vertex (first_block : option bytes) (caller_id : CallerId) (v : vertex) (actions : list NCAction) :
    result Context_ :=
  let? actions_map := match actions with
    | [] => Ok []
    | _ => let? _ := verify_action_list actions in Ok (group_actions actions)
    end in
  let? vertex_data := vertex_data_create v in
  let? block_data := match first_block with
    | None => Ok None
    | Some h => let? b := get_block h in Ok (Some (create_from_block b))
    end in
  Ok (mkContext caller_id vertex_data block_data actions_map).

(** [NanoHeader.get_context] *)
Definition get_context (first_block : option bytes) (v : vertex) (h : NanoHeader) : result Context_ :=
  let? actions := get_actions v h in
  create_from_vertex first_block (CallerAddress (nc_address h)) v actions.
End create.

(** ** Grouping keeps every action *)

Lemma group_actions_app d a : fold_left (fun d a => od_set d (action_token a) (default [] (od_get d (action_token a)) ++ [a])) [a] d
  = od_set d (action_token a) (default [] (od_get d (action_token a)) ++ [a]).
Proof. done. Qed.

Lemma od_set_concat (d : list (bytes * list NCAction)) k a :
  Permutation (concat (map snd (od_set d k (default [] (od_get d k) ++ [a])))) (concat (map snd d) ++ [a]).
Proof.
  induction d as [|[j l] d IH]; simpl; [done|]. destruct (bool_decide_reflect (j = k)) as [->|N]; simpl.
  - rewrite <- !app_assoc. apply Permutation_app_head, Permutation_app_comm.
  - rewrite <- app_assoc. by apply Permutation_app_head.
Qed.

Lemma group_actions_perm actions : Permutation (concat (map snd (group_actions actions))) actions.
Proof.
  unfold group_actions. induction actions as [|a actions IH] using rev_ind; [done|].
  rewrite fold_left_app. cbn [fold_left]. rewrite od_set_concat. by apply Permutation_app_tail.
Qed.

Lemma group_actions_keys actions :
  Forall (fun e => Forall (fun a => action_token a = fst e) (snd e)) (group_actions actions).
Proof.
  unfold group_actions. induction actions as [|a actions IH] using rev_ind; [constructor|].
  rewrite fold_left_app. cbn [fold_left]. apply od_set_Forall; [|done]. cbn [fst snd].
  apply Forall_app. split; [|by repeat constructor].
  destruct (od_get _ (action_token a)) as [l|] eqn:E; simpl; [|constructor].
  apply od_get_in in E. rewrite Forall_forall in IH. by apply (IH _ E).
Qed.
