(* ===== verification/RunnerState.v ===== *)
(** The state of a contract execution: the records of
    [hathor/nanocontracts/runner/index_records.py], the calls and trackers of
    [hathor/nanocontracts/runner/call_info.py], the attributes of [Runner], and the
    programs a blueprint may run.

    A tracker wraps another tracker of the same contract or the contract's storage.
    The trackers of one contract are kept as a list of layers whose head is the most
    recent one; [stack_up] assembles them over the storage, so every operation of
    [NCChangesTracker] runs on the value the code would give it. *)

From stdpp Require Import base list gmap strings.
From Stdlib Require Import ZArith Lia.
From S2P Require Import Prelude PyInt PyValue NCTypes PatriciaTrie BlockStorage ContractStorage.
From S2P Require Import StorageInterface ContractStorageTheory ChangesTracker TxStruct TokenInfo NCContext.

Local Open Scope Z_scope.
Local Open Scope py_scope.

(** * Records of what a call does to the indexes *)

Inductive IndexRecordType : Type := GRANT_AUTHORITIES | REVOKE_AUTHORITIES.

Inductive NCIndexUpdateRecord : Type :=
| CreateContractRecord (blueprint_id contract_id : bytes)
| CreateTokenRecord (token_uid : bytes) (amount : Z) (token_symbol token_name : pystr) (token_version : TokenVersion)
| UpdateTokenBalanceRecord (token_uid : bytes) (amount : Z)
| UpdateAuthoritiesRecord (type : IndexRecordType) (token_uid : bytes) (mint melt : bool).

(** the assertions of [__post_init__] *)
Definition record_post_init (r : NCIndexUpdateRecord) : result NCIndexUpdateRecord :=
  match r with
  | CreateTokenRecord _ amount _ _ v =>
      if negb (bool_decide (v = NATIVE)) && (0 <? amount) then Ok r else Err AssertionError
  | UpdateAuthoritiesRecord _ _ mint melt => if mint || melt then Ok r else Err AssertionError
  | _ => Ok r
  end.

(** the token and the amount of a record, for the two classes that have them *)
Definition record_amount (r : NCIndexUpdateRecord) : option (bytes * Z) :=
  match r with
  | CreateTokenRecord u n _ _ _ | UpdateTokenBalanceRecord u n => Some (u, n)
  | _ => None
  end.

Record NCFee : Type := mkNCFee { fee_token_uid : bytes; nc_fee_amount : Z }.

(** * Layers of trackers *)

(** a tracker but for the storage it wraps *)
Abbreviation layer := (tracker unit).

Definition over {S} (l : layer) (s : S) : tracker S :=
  mkTracker s (tr_nc_id l) (data l) (_balance_diff l) (_authorities_diff l) (_created_tokens l)
    (_blueprint_id l) (has_been_commited l) (has_been_blocked l).

Definition layer_of {S} (t : tracker S) : layer :=
  mkTracker tt (tr_nc_id t) (data t) (_balance_diff t) (_authorities_diff t) (_created_tokens t)
    (_blueprint_id t) (has_been_commited t) (has_been_blocked t).

Definition new_layer (nc_id : bytes) : layer := tracker_init nc_id tt.

Section nest.
Variable sha256 : bytes -> bytes.
Context {DB : Type} `{!NodeTrieStore DB}.

(** [n] trackers over a contract storage *)
Fixpoint nest (n : nat) : Type :=
  match n with O => contract_storage DB | S m => tracker (nest m) end.

#[global] Instance nest_ops (n : nat) : StorageOps (nest n) :=
  (fix go n := match n return StorageOps (nest n) with
    | O => contract_storage_ops sha256
    | S m => @tracker_ops (nest m) (go m)
    end) n.

Fixpoint stack_up (c : contract_storage DB) (ls : list layer) : nest (length ls) :=
  match ls with
  | [] => c
  | l :: ls => over l (stack_up c ls)
  end.

Fixpoint base_of (n : nat) : nest n -> contract_storage DB :=
  match n with O => fun c => c | S m => fun t => base_of m (storage t) end.

Fixpoint layers_of (n : nat) : nest n -> list layer :=
  match n with O => fun _ => [] | S m => fun t => layer_of t :: layers_of m (storage t) end.

(** an operation on a storage of any depth: a read of the storage, a change of the
    tracker on top *)
Definition reader (A : Type) : Type := forall S, StorageOps S -> S -> result A.
Definition writer (A : Type) : Type := forall S, StorageOps S -> M (tracker S) A.

Definition read_at {A} (f : reader A) (c : contract_storage DB) (ls : list layer) : result A :=
  f (nest (length ls)) (nest_ops (length ls)) (stack_up c ls).

Definition write_at {A} (m : writer A) (c : contract_storage DB) (l : layer) (ls : list layer) :
    result A * contract_storage DB * list layer :=
  let '(r, t) := m (nest (length ls)) (nest_ops (length ls)) (over l (stack_up c ls)) in
  (r, base_of (length ls) (storage t), layer_of t :: layers_of (length ls) (storage t)).
End nest.
Arguments nest DB : clear implicits.

(** * Calls *)

Inductive CallType : Type := PUBLIC | VIEW.

#[export] Instance CallType_eq_dec : EqDecision CallType.
Proof. solve_decision. Defined.

(** what a method receives: a public method its context and arguments, a view method
    its arguments, the fallback its context, the name of the method and the arguments *)
Inductive call_args : Type :=
| PublicArgs (args : list value)
| ViewArgs (args : list value)
| FallbackArgs (method_name : pystr) (nc_args : NCArgs).

(** [cr_id] stands for the identity of the record, and of its list [index_updates],
    which [CallInfo] keeps; [cr_tracker] is the position of its tracker among the
    trackers of its contract *)
Record CallRecord : Type := mkCall {
  cr_id : nat;
  cr_type : CallType;
  cr_depth : nat;
  cr_contract_id : bytes;
  cr_blueprint_id : bytes;
  cr_method_name : pystr;
  cr_ctx : option Context_;
  cr_args : call_args;
  cr_tracker : nat
}.

Record CallInfo : Type := mkCallInfo {
  (** the head is the current call *)
  stack : list CallRecord;
  (** the head of each list is the most recent tracker *)
  change_trackers : list (bytes * list layer);
  enable_call_trace : bool;
  calls : option (list CallRecord);
  (** the lists [index_updates] of the public calls, by call *)
  index_updates : gmap nat (list NCIndexUpdateRecord);
  call_counter : nat;
  (** the logger: the contract of the outermost call and the events so far *)
  log_nc_id : bytes;
  events : list (bytes * bytes)
}.

Definition depth (ci : CallInfo) : nat := length (stack ci).

Definition MAX_RECURSION_DEPTH : nat := 100.
Definition MAX_CALL_COUNTER : nat := 250.
Definition MAX_EVENT_SIZE : Z := 1024.

Definition with_trackers (ci : CallInfo) (d : list (bytes * list layer)) : CallInfo :=
  mkCallInfo (stack ci) d (enable_call_trace ci) (calls ci) (index_updates ci) (call_counter ci) (log_nc_id ci) (events ci).
Definition with_stack (ci : CallInfo) (l : list CallRecord) : CallInfo :=
  mkCallInfo l (change_trackers ci) (enable_call_trace ci) (calls ci) (index_updates ci) (call_counter ci) (log_nc_id ci) (events ci).
Definition with_updates (ci : CallInfo) (u : gmap nat (list NCIndexUpdateRecord)) : CallInfo :=
  mkCallInfo (stack ci) (change_trackers ci) (enable_call_trace ci) (calls ci) u (call_counter ci) (log_nc_id ci) (events ci).
Definition with_events (ci : CallInfo) (e : list (bytes * bytes)) : CallInfo :=
  mkCallInfo (stack ci) (change_trackers ci) (enable_call_trace ci) (calls ci) (index_updates ci) (call_counter ci) (log_nc_id ci) e.

Definition pre_call (r : CallRecord) : M CallInfo unit := fun ci =>
  if (MAX_RECURSION_DEPTH <=? depth ci)%nat then (Err NCRecursionError, ci)
  else if (MAX_CALL_COUNTER <=? call_counter ci)%nat then (Err NCNumberOfCallsExceeded, ci)
  else
    let cs := if enable_call_trace ci then Some (default [] (calls ci) ++ [r]) else calls ci in
    let ts := default [] (od_get (change_trackers ci) (cr_contract_id r)) in
    (Ok tt, mkCallInfo (r :: stack ci)
      (od_set (change_trackers ci) (cr_contract_id r) (new_layer (cr_contract_id r) :: ts))
      (enable_call_trace ci) cs
      (match cr_type r with PUBLIC => <[cr_id r := []]> (index_updates ci) | VIEW => index_updates ci end)
      (S (call_counter ci)) (log_nc_id ci) (events ci)).

(** a tracker always has its contract's id, as does the storage it wraps *)
Definition post_call (r : CallRecord) : M CallInfo unit := fun ci =>
  match stack ci with
  | [] => (Err IndexError, ci)
  | r' :: rest =>
      let ci := with_stack ci rest in
      if negb (bool_decide (cr_id r = cr_id r')) then (Err AssertionError, ci)
      else match od_get (change_trackers ci) (cr_contract_id r) with
      | None => (Err KeyError, ci)
      | Some [] => (Err IndexError, ci)
      | Some (l :: ts) =>
          if negb (bool_decide (cr_tracker r = length ts)) then (Err AssertionError, ci)
          else match ts with
          | [] => (Ok tt, ci)
          | _ => (Ok tt, with_trackers ci (od_set (change_trackers ci) (cr_contract_id r) ts))
          end
      end
  end.

(** [NCLogger.__emit_event__] *)
Definition emit_event (data : bytes) : M CallInfo unit := fun ci =>
  if MAX_EVENT_SIZE <? blen data then (Err NCFail, ci)
  else (Ok tt, with_events ci (events ci ++ [(log_nc_id ci, data)])).

(** * What a blueprint's code may ask of the runner *)

Inductive syscall : Type :=
| SysGetContractId
| SysGetBlueprintId
| SysGetCurrentCodeBlueprintId
| SysGetContractBlueprintId (contract_id : bytes)
| SysGetBalanceBeforeCurrentCall (token_uid : option bytes)
| SysGetCurrentBalance (contract_id : option bytes) (token_uid : option bytes)
| SysGetObj (key : bytes) (t : nc_type) (default : option value)
| SysPutObj (key : bytes) (t : nc_type) (v : value)
| SysDelObj (key : bytes)
| SysHasObj (key : bytes)
| SysRevokeAuthorities (token_uid : bytes) (revoke_mint revoke_melt : bool)
| SysMintTokens (token_uid : bytes) (amount : Z) (fee_payment_token : bytes)
| SysMeltTokens (token_uid : bytes) (amount : Z) (fee_payment_token : bytes)
| SysCreateDepositToken (salt : bytes) (token_name token_symbol : pystr) (amount : Z) (mint melt : bool)
| SysCreateFeeToken (salt : bytes) (token_name token_symbol : pystr) (amount : Z) (mint melt : bool)
    (fee_payment_token : bytes)
| SysEmitEvent (data : bytes)
| SysChangeBlueprint (blueprint_id : bytes)
| SysCallPublic (contract_id : bytes) (blueprint_ids : option (list bytes)) (method_name : pystr)
    (actions : list NCAction) (fees : list NCFee) (args : list value) (kwargs : list (pystr * value))
    (forbid_fallback : bool)
| SysCallView (contract_id : bytes) (blueprint_ids : option (list bytes)) (method_name : pystr)
    (args : list value) (kwargs : list (pystr * value))
| SysProxyPublic (blueprint_id : bytes) (method_name : pystr) (actions : list NCAction) (fees : list NCFee)
    (nc_args : NCArgs) (forbid_fallback : bool)
| SysProxyView (blueprint_id : bytes) (method_name : pystr) (args : list value) (kwargs : list (pystr * value))
| SysCreateContract (blueprint_id salt : bytes) (actions : list NCAction) (fees : list NCFee)
    (args : list value) (kwargs : list (pystr * value)).

Definition answer (op : syscall) : Type :=
  match op with
  | SysGetContractId | SysGetBlueprintId | SysGetCurrentCodeBlueprintId | SysGetContractBlueprintId _
  | SysCreateDepositToken _ _ _ _ _ _ | SysCreateFeeToken _ _ _ _ _ _ _ => bytes
  | SysGetBalanceBeforeCurrentCall _ | SysGetCurrentBalance _ _ => Balance
  | SysHasObj _ => bool
  | SysGetObj _ _ _ | SysCallPublic _ _ _ _ _ _ _ _ | SysCallView _ _ _ _ _
  | SysProxyPublic _ _ _ _ _ _ | SysProxyView _ _ _ _ => value
  | SysCreateContract _ _ _ _ _ _ => bytes * value
  | _ => unit
  end.

(** the body of a method: what it does next may depend on every answer; a blueprint
    cannot catch exceptions, so an operation that raises ends it *)
Inductive prog : Type :=
| Return (v : value)
| Raise (e : exn)
| Op (op : syscall) (k : answer op -> prog).

Inductive NCMethodType : Type := NC_PUBLIC | NC_VIEW | NC_FALLBACK.

#[export] Instance NCMethodType_eq_dec : EqDecision NCMethodType.
Proof. solve_decision. Defined.

(** a method of a blueprint: its marks, its signature as [Method.from_callable] and
    [ReturnOnly.from_callable] build it, and its body *)
Record callable : Type := mkCallable {
  nc_method_type : option NCMethodType;
  allow_reentrancy : bool;
  allowed_actions : list NCActionType;
  method_from_callable : result Method;
  return_only : result nc_type;
  body : option Context_ -> call_args -> prog
}.

(** a blueprint class: its attributes and, per declared field, the key that tells
    whether it was initialized: of a value, or of a container *)
Inductive field_kind : Type := LeafField | ContainerField.

Record blueprint_class : Type := mkBlueprint {
  get_attr : pystr -> option callable;
  fields : list (bytes * field_kind)
}.

Class Blueprints : Type := { blueprint_class_of : bytes -> result blueprint_class }.

(** * [Runner] *)

Record Runner (DB : Type) : Type := mkRunner {
  r_block : block_storage DB;
  (** the trie and the lock of each [NCContractStorage]; they share the block storage *)
  _storages : list (bytes * (trie * bool));
  _metered_executor : bool;
  _enable_call_trace : bool;
  _last_call_info : option CallInfo;
  _call_info : option CallInfo;
  _updated_tokens_totals : list (bytes * Z);
  _paid_actions_fees : list (bytes * Z)
}.
Arguments mkRunner {DB} _ _ _ _ _ _ _ _.
Arguments r_block {DB} _.
Arguments _storages {DB} _.
Arguments _metered_executor {DB} _.
Arguments _enable_call_trace {DB} _.
Arguments _last_call_info {DB} _.
Arguments _call_info {DB} _.
Arguments _updated_tokens_totals {DB} _.
Arguments _paid_actions_fees {DB} _.

Definition new_runner {DB} (b : block_storage DB) : Runner DB :=
  mkRunner b [] false true None None [] [].

Section setters.
Context {DB : Type}.
Definition set_block (s : Runner DB) b : Runner DB :=
  mkRunner b (_storages s) (_metered_executor s) (_enable_call_trace s) (_last_call_info s) (_call_info s)
    (_updated_tokens_totals s) (_paid_actions_fees s).
Definition set_storages (s : Runner DB) d : Runner DB :=
  mkRunner (r_block s) d (_metered_executor s) (_enable_call_trace s) (_last_call_info s) (_call_info s)
    (_updated_tokens_totals s) (_paid_actions_fees s).
Definition set_executor (s : Runner DB) : Runner DB :=
  mkRunner (r_block s) (_storages s) true (_enable_call_trace s) (_last_call_info s) (_call_info s)
    (_updated_tokens_totals s) (_paid_actions_fees s).
Definition set_last_call_info (s : Runner DB) ci : Runner DB :=
  mkRunner (r_block s) (_storages s) (_metered_executor s) (_enable_call_trace s) ci (_call_info s)
    (_updated_tokens_totals s) (_paid_actions_fees s).
Definition set_call_info (s : Runner DB) ci : Runner DB :=
  mkRunner (r_block s) (_storages s) (_metered_executor s) (_enable_call_trace s) (_last_call_info s) ci
    (_updated_tokens_totals s) (_paid_actions_fees s).
Definition set_totals (s : Runner DB) d : Runner DB :=
  mkRunner (r_block s) (_storages s) (_metered_executor s) (_enable_call_trace s) (_last_call_info s) (_call_info s)
    d (_paid_actions_fees s).
Definition set_fees (s : Runner DB) d : Runner DB :=
  mkRunner (r_block s) (_storages s) (_metered_executor s) (_enable_call_trace s) (_last_call_info s) (_call_info s)
    (_updated_tokens_totals s) d.
End setters.
