(* ===== verification/Runner.v ===== *)
(** The execution of contracts, [hathor/nanocontracts/runner/runner.py], with the fees
    of [runner/token_fees.py], the execution rules of [balance_rules.py], the ids of
    [utils.py] and the accessors a blueprint calls other contracts with.

    The body of a method is a [prog]; [run_prog] answers its operations.  A call runs
    the body of another method, so the calls are an argument of the interpreter
    ([Calls]) and [calls_at] ties the knot: a call of depth [MAX_RECURSION_DEPTH] is
    refused, so one level more than that is never used up. *)

From stdpp Require Import base list gmap strings.
From Stdlib Require Import ZArith Lia Floats.SpecFloat.
From S2P Require Import Prelude PyInt PyValue NCTypes PatriciaTrie BlockStorage ContractStorage.
From S2P Require Import StorageInterface ContractStorageTheory ChangesTracker PyFloat ScriptCode ScriptVM TxStruct.
From S2P Require Import TokenInfo StaticMetadata Metadata TxVerifier BlockVerifier NCContext RunnerState.

Local Open Scope Z_scope.
Local Open Scope py_scope.

(** [d[k] += n] on a [defaultdict(int)] *)
Definition dd_add (d : list (bytes * Z)) (k : bytes) (n : Z) : list (bytes * Z) :=
  od_set d k (default 0 (od_get d k) + n).

(** [try: m finally: f] *)
Definition try_finally {S A} (m : M S A) (f : M S unit) : M S A := fun s =>
  let '(r, s1) := m s in
  match f s1 with
  | (Ok _, s2) => (r, s2)
  | (Err e, s2) => (Err e, s2)
  end.

(** * Ids of children *)

(** ["child-contract"], ["child-token"] *)
Definition CHILD_CONTRACT_ID_PREFIX : bytes := zb [99; 104; 105; 108; 100; 45; 99; 111; 110; 116; 114; 97; 99; 116].
Definition CHILD_TOKEN_ID_PREFIX : bytes := zb [99; 104; 105; 108; 100; 45; 116; 111; 107; 101; 110].
(** ["fallback"] *)
Definition NC_FALLBACK_METHOD : pystr := [102; 97; 108; 108; 98; 97; 99; 107].
(** [":__init__"] *)
Definition INIT_SUFFIX : bytes := zb [58; 95; 95; 105; 110; 105; 116; 95; 95].

Section ids.
Variable sha256 : bytes -> bytes.

Definition derive_child_contract_id (parent_id salt blueprint_id : bytes) : bytes :=
  sha256 (CHILD_CONTRACT_ID_PREFIX ++ parent_id ++ salt ++ blueprint_id).

Definition derive_child_token_id (parent_id : bytes) (token_symbol : pystr) (salt : bytes) : result bytes :=
  let? symbol := utf8_encode token_symbol in
  Ok (sha256 (CHILD_TOKEN_ID_PREFIX ++ parent_id ++ salt ++ symbol)).
End ids.

(** * [token_fees.py] *)

Section fees.
Context {TS : TxSettings}.

Definition _validate_deposit_based_payment_token (td : TokenDescription) : result unit :=
  raise_if (negb (bool_decide (td_token_id td = HATHOR_TOKEN_UID))) NCInvalidFeePaymentToken.

Definition _validate_fee_based_payment_token (td : TokenDescription) : result unit :=
  match td_token_version td with FEE => Err NCInvalidFeePaymentToken | DEPOSIT | NATIVE => Ok tt end.

(** [int(n / p)] for an integer and a float *)
Definition int_div_float (n : Z) (p : spec_float) : result Z :=
  let? x := float_of_int n in
  match p with
  | S754_zero _ => Err ZeroDivisionError
  | _ =>
      let q := SFdiv prec emax x p in
      if SFltb q (S754_zero false) then float_ceil q else float_floor q
  end.

Definition _calculate_unit_fee_token_fee (td : TokenDescription) : result Z :=
  if bool_decide (td_token_id td = HATHOR_TOKEN_UID) then Ok FEE_PER_OUTPUT
  else int_div_float FEE_PER_OUTPUT TOKEN_DEPOSIT_PERCENTAGE.

Definition calculate_mint_fee (v : TokenVersion) (amount : Z) (payment : TokenDescription) : result Z :=
  match v with
  | NATIVE => Err AssertionError
  | DEPOSIT =>
      let? _ := _validate_deposit_based_payment_token payment in
      let? n := get_deposit_token_deposit_amount TOKEN_DEPOSIT_PERCENTAGE amount in Ok (- n)
  | FEE =>
      let? _ := _validate_fee_based_payment_token payment in
      let? n := _calculate_unit_fee_token_fee payment in Ok (- n)
  end.

Definition calculate_melt_fee (v : TokenVersion) (amount : Z) (payment : TokenDescription) : result Z :=
  match v with
  | NATIVE => Err AssertionError
  | DEPOSIT =>
      let? _ := _validate_deposit_based_payment_token payment in
      get_deposit_token_withdraw_amount TOKEN_DEPOSIT_PERCENTAGE amount
  | FEE =>
      let? _ := _validate_fee_based_payment_token payment in
      let? n := _calculate_unit_fee_token_fee payment in Ok (- n)
  end.

(** [NCFee.get_htr_value] *)
Definition get_htr_value (f : NCFee) : result Z :=
  if bool_decide (fee_token_uid f = HATHOR_TOKEN_UID) then Ok (nc_fee_amount f)
  else get_deposit_token_withdraw_amount TOKEN_DEPOSIT_PERCENTAGE (nc_fee_amount f).
End fees.

(** * The execution rules of [balance_rules.py] *)

(** a check of the authorities a balance has *)
Definition require_authorities {S} (b : Balance) (mint melt : bool) : M S unit :=
  lift (raise_if (mint && negb (can_mint b)) NCInvalidAction) ;;;
  lift (raise_if (melt && negb (can_melt b)) NCInvalidAction).

Definition tracker_balance (token_uid : bytes) : writer Balance := fun S _ t => (tr_get_mutable_balance t token_uid, t).

Definition nc_callee_execution_rule (a : NCAction) : writer unit := fun S ops =>
  match a with
  | NCDepositAction u n => tr_add_balance u n
  | NCWithdrawalAction u n => tr_add_balance u (- n)
  | NCGrantAuthorityAction u mint melt =>
      py_assert (negb (bool_decide (u = HATHOR_TOKEN_UID))) ;;; tr_grant_authorities u mint melt
  | NCAcquireAuthorityAction u mint melt =>
      py_assert (negb (bool_decide (u = HATHOR_TOKEN_UID))) ;;;
      let! balance := tracker_balance u S ops in
      require_authorities balance mint melt
  end.

Definition nc_caller_execution_rule (a : NCAction) : writer unit := fun S ops =>
  match a with
  | NCDepositAction u n => tr_add_balance u (- n)
  | NCWithdrawalAction u n => tr_add_balance u n
  | NCGrantAuthorityAction u mint melt =>
      lift (raise_if (bool_decide (u = HATHOR_TOKEN_UID)) NCInvalidAction) ;;;
      let! balance := tracker_balance u S ops in
      require_authorities balance mint melt
  | NCAcquireAuthorityAction u mint melt =>
      lift (raise_if (bool_decide (u = HATHOR_TOKEN_UID)) NCInvalidAction) ;;;
      tr_grant_authorities u mint melt
  end.

(** [isinstance(action, BaseTokenAction) and action.amount < 0] *)
Definition negative_amount (a : NCAction) : bool :=
  match a with NCDepositAction _ n | NCWithdrawalAction _ n => n <? 0 | _ => false end.

Section runner.
Variable sha256 : bytes -> bytes.
Context {DB : Type} `{!NodeTrieStore DB}.
Context {CR : Crypto} {SS : ScriptSettings} {TS : TxSettings} {VSet : VerifierSettings} {UC : Unicode}.
Context {VS : VertexStorage} {SM : StaticStore} {NS : NodeState} {BP : Blueprints}.

Abbreviation RM := (M (Runner DB)).

(** * Access to the state *)

Definition get_call_info : RM CallInfo := fun s =>
  match _call_info s with Some ci => (Ok ci, s) | None => (Err AssertionError, s) end.

Definition on_call_info {A} (m : M CallInfo A) : RM A := fun s =>
  match _call_info s with
  | None => (Err AssertionError, s)
  | Some ci => let '(r, ci') := m ci in (r, set_call_info s (Some ci'))
  end.

Definition on_block {A} (m : M (block_storage DB) A) : RM A := fun s =>
  let '(r, b) := m (r_block s) in (r, set_block s b).

Definition has_contract_been_initialized (contract_id : bytes) : RM bool := fun s =>
  match od_get (_storages s) contract_id with
  | Some _ => (Ok true, s)
  | None => (has_contract (r_block s) contract_id, s)
  end.

(** [get_storage]: afterwards the storage is in [_storages] *)
Definition get_storage (contract_id : bytes) : RM unit := fun s =>
  match od_get (_storages s) contract_id with
  | Some _ => (Ok tt, s)
  | None =>
      match get_contract_storage sha256 contract_id (r_block s) with
      | (Ok c, b) => (Ok tt, set_storages (set_block s b) (od_set (_storages s) contract_id (_trie c, true)))
      | (Err e, b) => (Err e, set_block s b)
      end
  end.

Definition trackers_of (s : Runner DB) (contract_id : bytes) : option (list layer) :=
  match _call_info s with None => None | Some ci => od_get (change_trackers ci) contract_id end.

Definition storage_of (s : Runner DB) (contract_id : bytes) : option (contract_storage DB) :=
  match od_get (_storages s) contract_id with
  | None => None
  | Some (tr, locked) => Some (mkContract (r_block s) tr contract_id locked)
  end.

Definition put_storage (s : Runner DB) (contract_id : bytes) (c : contract_storage DB) : Runner DB :=
  set_storages (set_block s (cs_block c)) (od_set (_storages s) contract_id (_trie c, is_locked c)).

Definition put_layers (s : Runner DB) (contract_id : bytes) (ls : list layer) : Runner DB :=
  match _call_info s with
  | None => s
  | Some ci => set_call_info s (Some (with_trackers ci (od_set (change_trackers ci) contract_id ls)))
  end.

(** a read through the given trackers of a contract; its storage was opened when the
    first of them was created *)
Definition read_layers {A} (contract_id : bytes) (ls : list layer) (f : reader A) : RM A := fun s =>
  match storage_of s contract_id with
  | None => (Err KeyError, s)
  | Some c => (read_at sha256 f c ls, s)
  end.

(** [get_current_changes_tracker_or_storage], and a read of what it returns *)
Definition read_tracker_or_storage {A} (contract_id : bytes) (f : reader A) : RM A := fun s =>
  match trackers_of s contract_id with
  | Some [] => (Err AssertionError, s)
  | Some ls => read_layers contract_id ls f s
  | None => (get_storage contract_id ;;; read_layers contract_id [] f) s
  end.

(** an operation on the most recent tracker of a contract *)
Definition on_tracker {A} (contract_id : bytes) (m : writer A) : RM A := fun s =>
  match trackers_of s contract_id with
  | None => (Err KeyError, s)
  | Some [] => (Err AssertionError, s)
  | Some (l :: ls) =>
      match storage_of s contract_id with
      | None => (Err KeyError, s)
      | Some c =>
          let '(r, c', ls') := write_at sha256 m c l ls in
          (r, put_layers (put_storage s contract_id c') contract_id ls')
      end
  end.

Definition get_current_call_record : RM CallRecord :=
  let! ci := get_call_info in
  match stack ci with [] => raise IndexError | r :: _ => ret r end.

Definition get_current_contract_id : RM bytes :=
  let! r := get_current_call_record in ret (cr_contract_id r).

(** [get_current_changes_tracker]: the trackers of the running contract *)
Definition get_current_changes_tracker : RM (bytes * list layer) :=
  let! contract_id := get_current_contract_id in
  let! ci := get_call_info in
  match od_get (change_trackers ci) contract_id with
  | None => raise KeyError
  | Some [] => raise AssertionError
  | Some ls => ret (contract_id, ls)
  end.

(** an operation on the tracker of the running contract *)
Definition on_current {A} (m : writer A) : RM A :=
  let! (contract_id, _) := get_current_changes_tracker in on_tracker contract_id m.

Definition get_blueprint_id (contract_id : bytes) : RM bytes :=
  read_tracker_or_storage contract_id (fun S _ s => so_get_blueprint_id s).

Definition get_current_code_blueprint_id : RM bytes :=
  let! r := get_current_call_record in ret (cr_blueprint_id r).

Definition _build_call_info (s : Runner DB) (contract_id : bytes) : CallInfo :=
  mkCallInfo [] [] (_enable_call_trace s) None ∅ 0 contract_id [].

Definition _create_changes_tracker (contract_id : bytes) : RM unit :=
  read_tracker_or_storage contract_id (fun _ _ _ => Ok tt).

Definition forbid_call_on_view : RM unit :=
  let! r := get_current_call_record in
  match cr_type r with VIEW => raise NCViewMethodError | PUBLIC => ret tt end.

(** ** Balances *)

Definition _get_balance (contract_id : bytes) (token_uid : option bytes) (before_current_call : bool) : RM Balance :=
  let token_uid := default HATHOR_TOKEN_UID token_uid in
  let f : reader Balance := fun S _ s => so_get_mutable_balance s token_uid in
  let! current := (fun s => match _call_info s with
    | None => (Ok false, s)
    | Some _ => (let! c := get_current_contract_id in ret (bool_decide (contract_id = c))) s
    end) in
  if (current : bool) then
    let! (contract_id, ls) := get_current_changes_tracker in
    read_layers contract_id (if before_current_call then tail ls else ls) f
  else
    py_assert (negb before_current_call) ;;; read_tracker_or_storage contract_id f.

(** ** Records of index updates *)

Definition append_update (call : CallRecord) (r : NCIndexUpdateRecord) : RM unit :=
  on_call_info (fun ci =>
    match index_updates ci !! cr_id call with
    | None => (Err AssertionError, ci)
    | Some l => (Ok tt, with_updates ci (<[cr_id call := l ++ [r]]> (index_updates ci)))
    end).

Definition assert_updates (call : CallRecord) : RM unit :=
  let! ci := get_call_info in py_assert (match index_updates ci !! cr_id call with None => false | Some _ => true end).

Definition _handle_index_update (a : NCAction) : RM unit :=
  let! r := get_current_call_record in
  assert_updates r ;;;
  match a with
  | NCDepositAction _ _ | NCWithdrawalAction _ _ => ret tt
  | NCGrantAuthorityAction u mint melt | NCAcquireAuthorityAction u mint melt =>
      let! record := lift (record_post_init (UpdateAuthoritiesRecord GRANT_AUTHORITIES u mint melt)) in
      append_update r record
  end.

(** one turn of the loop of [_update_tokens_amount] *)
Definition update_amount (call : CallRecord) (r : NCIndexUpdateRecord) : RM unit :=
  match record_amount r with
  | None => raise AttributeError
  | Some (u, n) =>
      on_tracker (cr_contract_id call) (fun S _ => tr_add_balance u n) ;;;
      (fun s => (Ok tt, set_totals s (dd_add (_updated_tokens_totals s) u n))) ;;;
      append_update call r
  end.

(** the operation and the fee that are given, in order *)
Definition _update_tokens_amount (records : list NCIndexUpdateRecord) : RM unit :=
  let! r := get_current_call_record in
  let! _ := get_current_changes_tracker in
  py_assert (match records with [] => false | _ => true end) ;;;
  assert_updates r ;;;
  for_each records (update_amount r).

(** ** Tokens *)

Definition _get_token (token_uid : bytes) : RM TokenDescription :=
  let! _ := get_current_call_record in
  let! (contract_id, ls) := get_current_changes_tracker in
  let! found := read_layers contract_id ls (fun S _ s => so_has_token s token_uid) in
  if (found : bool) then read_layers contract_id ls (fun S _ s => so_get_token s token_uid)
  else if bool_decide (token_uid = HATHOR_TOKEN_UID)
  then ret (mkTokenDescription HATHOR_TOKEN_UID HATHOR_TOKEN_NAME HATHOR_TOKEN_SYMBOL NATIVE)
  else
    let! tx := lift (except_as (get_token_creation_transaction token_uid) TransactionDoesNotExist NCInvalidSyscall) in
    match first_block (get_metadata tx) with
    | None => raise NCInvalidSyscall
    | Some _ => ret (mkTokenDescription (v_hash tx) (v_token_name tx) (v_token_symbol tx) (v_token_version tx))
    end.

Definition _create_token (token_version : TokenVersion) (token_uid : bytes) (amount : Z)
    (fee_payment_token : TokenDescription) (token_symbol token_name : pystr) : RM unit :=
  py_assert (negb (bool_decide (token_version = NATIVE))) ;;;
  let! fee_amount := lift (calculate_mint_fee token_version amount fee_payment_token) in
  py_assert ((0 <? amount) && (fee_amount <? 0)) ;;;
  let! record := lift (record_post_init (CreateTokenRecord token_uid amount token_symbol token_name token_version)) in
  _update_tokens_amount [record; UpdateTokenBalanceRecord (td_token_id fee_payment_token) fee_amount].

(** the body the two token creation syscalls share *)
Definition create_child_token (token_version : TokenVersion) (salt : bytes) (token_name token_symbol : pystr)
    (amount : Z) (mint_authority melt_authority : bool) (fee_payment_token : bytes) : RM bytes :=
  forbid_call_on_view ;;;
  lift (raise_if (amount <=? 0) NCInvalidSyscall) ;;;
  lift (except_as (validate_token_name_and_symbol token_name token_symbol) TransactionDataError NCInvalidSyscall) ;;;
  let! r := get_current_call_record in
  let! token_id := lift (derive_child_token_id sha256 (cr_contract_id r) (clean_token_string token_symbol) salt) in
  on_current (fun S _ => tr_create_token (mkTokenDescription token_id token_name token_symbol token_version)) ;;;
  on_current (fun S _ => tr_grant_authorities token_id mint_authority melt_authority) ;;;
  let! payment := _get_token fee_payment_token in
  _create_token token_version token_id amount payment token_symbol token_name ;;;
  ret token_id.

Definition syscall_create_child_deposit_token (salt : bytes) (token_name token_symbol : pystr) (amount : Z)
    (mint_authority melt_authority : bool) : RM bytes :=
  create_child_token DEPOSIT salt token_name token_symbol amount mint_authority melt_authority HATHOR_TOKEN_UID.

Definition syscall_create_child_fee_token (salt : bytes) (token_name token_symbol : pystr) (amount : Z)
    (mint_authority melt_authority : bool) (fee_payment_token : bytes) : RM bytes :=
  create_child_token FEE salt token_name token_symbol amount mint_authority melt_authority fee_payment_token.

Definition syscall_revoke_authorities (token_uid : bytes) (revoke_mint revoke_melt : bool) : RM unit :=
  forbid_call_on_view ;;;
  let! r := get_current_call_record in
  lift (raise_if (bool_decide (token_uid = HATHOR_TOKEN_UID)) NCInvalidSyscall) ;;;
  let! balance := on_current (tracker_balance token_uid) in
  lift (raise_if (revoke_mint && negb (can_mint balance)) NCInvalidSyscall) ;;;
  lift (raise_if (revoke_melt && negb (can_melt balance)) NCInvalidSyscall) ;;;
  on_current (fun S _ => tr_revoke_authorities token_uid revoke_mint revoke_melt) ;;;
  assert_updates r ;;;
  let! record := lift (record_post_init (UpdateAuthoritiesRecord REVOKE_AUTHORITIES token_uid revoke_mint revoke_melt)) in
  append_update r record.

Definition syscall_mint_tokens (token_uid : bytes) (amount : Z) (fee_payment_token : bytes) : RM unit :=
  forbid_call_on_view ;;;
  lift (raise_if (amount <=? 0) NCInvalidSyscall) ;;;
  let! _ := get_current_call_record in
  lift (raise_if (bool_decide (token_uid = HATHOR_TOKEN_UID)) NCInvalidSyscall) ;;;
  let! balance := on_current (tracker_balance token_uid) in
  lift (raise_if (negb (can_mint balance)) NCInvalidSyscall) ;;;
  let! token_info := _get_token token_uid in
  let! payment := _get_token fee_payment_token in
  let! fee_amount := lift (calculate_mint_fee (td_token_version token_info) amount payment) in
  py_assert ((0 <? amount) && (fee_amount <? 0)) ;;;
  _update_tokens_amount [UpdateTokenBalanceRecord token_uid amount; UpdateTokenBalanceRecord fee_payment_token fee_amount].

Definition syscall_melt_tokens (token_uid : bytes) (amount : Z) (fee_payment_token : bytes) : RM unit :=
  forbid_call_on_view ;;;
  lift (raise_if (amount <=? 0) NCInvalidSyscall) ;;;
  let! _ := get_current_call_record in
  lift (raise_if (bool_decide (token_uid = HATHOR_TOKEN_UID)) NCInvalidSyscall) ;;;
  let! balance := on_current (tracker_balance token_uid) in
  lift (raise_if (negb (can_melt balance)) NCInvalidSyscall) ;;;
  let! token_info := _get_token token_uid in
  let! payment := _get_token fee_payment_token in
  let! fee_amount := lift (calculate_melt_fee (td_token_version token_info) amount payment) in
  py_assert (0 <? amount) ;;;
  py_assert (match td_token_version token_info with
    | NATIVE => false
    | DEPOSIT => 0 <? fee_amount
    | FEE => fee_amount <? 0
    end) ;;;
  _update_tokens_amount [UpdateTokenBalanceRecord token_uid (- amount); UpdateTokenBalanceRecord fee_payment_token fee_amount].

Definition syscall_emit_event (data : bytes) : RM unit :=
  forbid_call_on_view ;;; on_call_info (emit_event data).

Definition syscall_change_blueprint (blueprint_id : bytes) : RM unit :=
  forbid_call_on_view ;;;
  let! r := get_current_call_record in
  lift (raise_if (bool_decide (cr_type r = VIEW)) NCInvalidPublicMethodCallFromView) ;;;
  let! _ := lift (blueprint_class_of blueprint_id) in
  on_current (fun S _ => tr_set_blueprint_id blueprint_id).

(** ** Checks of a call *)

Definition _validate_context (ctx : Context_) : result unit :=
  rfor (ctx_actions ctx) (fun e => rfor (snd e) (fun a =>
    let? _ := raise_if (negb (bool_decide (fst e = action_token a))) NCInvalidContext in
    raise_if (negative_amount a) NCInvalidContext)).

Definition _validate_reentrancy (contract_id : bytes) (method : callable) : RM unit :=
  let! ci := get_call_info in
  if allow_reentrancy method then ret tt
  else lift (rfor (stack ci) (fun r => raise_if (bool_decide (cr_contract_id r = contract_id)) NCForbiddenReentrancy)).

Definition _validate_actions (method : callable) (ctx : Context_) : result unit :=
  rfor (ctx_actions ctx) (fun e => rfor (snd e) (fun a =>
    raise_if (negb (bool_decide (nc_action_type a ∈ allowed_actions method))) NCForbiddenAction)).

Definition field_initialized (f : bytes * field_kind) : reader bool := fun S _ s =>
  match snd f with
  | LeafField => so_has_obj s (fst f)
  | ContainerField =>
      let? v := so_get_obj s (fst f ++ INIT_SUFFIX) BoolNCType (Some (VBool false)) in
      Ok (match v with VBool b => b | _ => true end)
  end.

(** the fields are read through the tracker of the call *)
Definition _check_all_field_initialized (bp : blueprint_class) : RM unit :=
  let! (contract_id, ls) := get_current_changes_tracker in
  let! uninitialized := (fix go fs : RM bool := match fs with
    | [] => ret false
    | f :: fs =>
        let! init := read_layers contract_id ls (field_initialized f) in
        let! rest := go fs in ret (negb init || rest)
    end) (fields bp) in
  lift (raise_if uninitialized NCFail).

(** [MeteredExecutor.call]: any exception but an [NCFail] becomes one *)
Definition metered_call {A} (m : RM A) : RM A := fun s =>
  match m s with
  | (Err e, s') =>
      if issubclass_exn e NCFail || bool_decide (e = OutOfFuel) then (Err e, s') else (Err NCFail, s')
  | r => r
  end.

(** ** Fees of calls between contracts *)

Definition _register_paid_fee (token_uid : bytes) (amount : Z) : RM unit := fun s =>
  (Ok tt, set_fees s (dd_add (_paid_actions_fees s) token_uid amount)).

Definition is_chargeable (a : NCAction) : bool :=
  match a with NCDepositAction _ _ | NCWithdrawalAction _ _ => true | _ => false end.

Definition expected_fee_of (e : bytes * list NCAction) : RM Z := fun s =>
  match od_get (_paid_actions_fees s) (fst e) with
  | Some _ => (Ok 0, s)
  | None =>
      (let! token_info := _get_token (fst e) in
       ret (if bool_decide (td_token_version token_info = FEE)
            then Z.of_nat (length (List.filter is_chargeable (snd e))) else 0)) s
  end.

Fixpoint msum {A} (f : A -> RM Z) (l : list A) (acc : Z) : RM Z :=
  match l with
  | [] => ret acc
  | x :: l => let! n := f x in msum f l (acc + n)
  end.

Definition _validate_actions_fees (ctx_actions : list (bytes * list NCAction)) (fees : list NCFee) : RM unit :=
  let! paid := (fun s => (Ok (_paid_actions_fees s), s)) in
  for_each (map fst paid) (fun token_uid =>
    let! token := _get_token token_uid in
    lift (raise_if (bool_decide (td_token_version token = FEE)) NCInvalidFeePaymentToken)) ;;;
  let! fee_sum := msum (fun fee =>
    py_assert (match od_get paid (fee_token_uid fee) with None => false | Some _ => true end) ;;;
    lift (get_htr_value fee)) fees 0 in
  let! expected_fee := msum expected_fee_of ctx_actions 0 in
  lift (raise_if (negb (fee_sum =? expected_fee)) NCInvalidFee).

(** * Calls *)

(** the two ways a method runs, as the syscalls use them *)
Record Calls : Type := mkCalls {
  do_public : bytes -> bytes -> pystr -> Context_ -> NCArgs -> bool -> bool -> RM value;
  do_view : bytes -> bytes -> pystr -> list value -> list (pystr * value) -> RM value
}.

Section syscalls.
Variable C : Calls.

Definition _unsafe_call_another_contract_public_method (contract_id blueprint_id : bytes) (method_name : pystr)
    (actions : list NCAction) (fees : list NCFee) (nc_args : NCArgs)
    (skip_reentrancy_validation forbid_fallback : bool) : RM value :=
  let! ci := get_call_info in
  let! last_call_record := get_current_call_record in
  lift (raise_if (bool_decide (cr_type last_call_record = VIEW)) NCInvalidPublicMethodCallFromView) ;;;
  lift (rfor actions (fun a => raise_if (negative_amount a) NCInvalidContext)) ;;;
  lift (rfor fees (fun f => except_as (validate_fee_amount (fee_token_uid f) (nc_fee_amount f)) InvalidFeeAmount NCInvalidFee)) ;;;
  let! first_ctx := match last (stack ci) with
    | None => raise IndexError
    | Some r => match cr_ctx r with None => raise AssertionError | Some ctx => ret ctx end
    end in
  for_each actions (fun a => on_tracker (cr_contract_id last_call_record) (nc_caller_execution_rule a)) ;;;
  for_each fees (fun f =>
    py_assert (0 <? nc_fee_amount f) ;;;
    _update_tokens_amount [UpdateTokenBalanceRecord (fee_token_uid f) (- nc_fee_amount f)] ;;;
    _register_paid_fee (fee_token_uid f) (nc_fee_amount f)) ;;;
  let ctx_actions := group_actions actions in
  let! block := lift (context_block first_ctx) in
  let ctx := mkContext (CallerContract (cr_contract_id last_call_record)) (ctx_vertex first_ctx) (Some block) ctx_actions in
  let! result := do_public C contract_id blueprint_id method_name ctx nc_args skip_reentrancy_validation forbid_fallback in
  _validate_actions_fees ctx_actions fees ;;;
  ret result.

Definition syscall_call_another_contract_public_method (contract_id : bytes) (method_name : pystr)
    (actions : list NCAction) (fees : list NCFee) (args : list value) (kwargs : list (pystr * value))
    (forbid_fallback : bool) : RM value :=
  forbid_call_on_view ;;;
  lift (raise_if (bool_decide (method_name = NC_INITIALIZE_METHOD)) NCInvalidInitializeMethodCall) ;;;
  let! current := get_current_contract_id in
  lift (raise_if (bool_decide (current = contract_id)) NCInvalidContractId) ;;;
  let! initialized := has_contract_been_initialized contract_id in
  lift (raise_if (negb initialized) NCUninitializedContractError) ;;;
  let! blueprint_id := get_blueprint_id contract_id in
  _unsafe_call_another_contract_public_method contract_id blueprint_id method_name actions fees
    (NCParsedArgs args kwargs) false forbid_fallback.

Definition syscall_proxy_call_view_method (blueprint_id : bytes) (method_name : pystr) (args : list value)
    (kwargs : list (pystr * value)) : RM value :=
  let! contract_id := get_current_contract_id in
  let! own := get_blueprint_id contract_id in
  lift (raise_if (bool_decide (blueprint_id = own)) NCInvalidSyscall) ;;;
  let! code := get_current_code_blueprint_id in
  lift (raise_if (bool_decide (blueprint_id = code)) NCInvalidSyscall) ;;;
  let! contract_id := get_current_contract_id in
  do_view C contract_id blueprint_id method_name args kwargs.

Definition syscall_proxy_call_public_method (blueprint_id : bytes) (method_name : pystr) (actions : list NCAction)
    (fees : list NCFee) (nc_args : NCArgs) (forbid_fallback : bool) : RM value :=
  forbid_call_on_view ;;;
  lift (raise_if (bool_decide (method_name = NC_INITIALIZE_METHOD)) NCInvalidInitializeMethodCall) ;;;
  let! contract_id := get_current_contract_id in
  let! own := get_blueprint_id contract_id in
  lift (raise_if (bool_decide (blueprint_id = own)) NCInvalidSyscall) ;;;
  let! code := get_current_code_blueprint_id in
  lift (raise_if (bool_decide (blueprint_id = code)) NCInvalidSyscall) ;;;
  _unsafe_call_another_contract_public_method contract_id blueprint_id method_name actions fees nc_args true forbid_fallback.

Definition syscall_call_another_contract_view_method (contract_id : bytes) (method_name : pystr)
    (args : list value) (kwargs : list (pystr * value)) : RM value :=
  let! _ := get_call_info in
  let! current := get_current_contract_id in
  lift (raise_if (bool_decide (current = contract_id)) NCInvalidContractId) ;;;
  let! blueprint_id := get_blueprint_id contract_id in
  do_view C contract_id blueprint_id method_name args kwargs.

(** the new storage is not locked *)
Definition _internal_create_contract (contract_id blueprint_id : bytes) : RM unit :=
  let! initialized := has_contract_been_initialized contract_id in
  py_assert (negb initialized) ;;;
  (fun s =>
    match get_empty_contract_storage sha256 contract_id (r_block s) with
    | (Err e, b) => (Err e, set_block s b)
    | (Ok c, b) =>
        match cs_set_blueprint_id sha256 blueprint_id (mkContract b (_trie c) contract_id (is_locked c)) with
        | (Ok _, c) => (Ok tt, put_storage s contract_id c)
        | (Err e, c) => (Err e, set_block s (cs_block c))
        end
    end).

Definition syscall_create_another_contract (blueprint_id salt : bytes) (actions : list NCAction) (fees : list NCFee)
    (args : list value) (kwargs : list (pystr * value)) : RM (bytes * value) :=
  forbid_call_on_view ;;;
  lift (raise_if (bool_decide (salt = [])) NCFail) ;;;
  let! last_call_record := get_current_call_record in
  let child_id := derive_child_contract_id sha256 (cr_contract_id last_call_record) salt blueprint_id in
  let! initialized := has_contract_been_initialized child_id in
  lift (raise_if initialized NCAlreadyInitializedContractError) ;;;
  _internal_create_contract child_id blueprint_id ;;;
  let! ret_ := _unsafe_call_another_contract_public_method child_id blueprint_id NC_INITIALIZE_METHOD actions fees
    (NCParsedArgs args kwargs) false false in
  append_update last_call_record (CreateContractRecord blueprint_id child_id) ;;;
  ret (child_id, ret_).

(** [validate_blueprint_id] of [contract_accessor.py] *)
Definition validate_blueprint_id (contract_id : bytes) (blueprint_ids : option (list bytes)) : RM unit :=
  match blueprint_ids with
  | None => ret tt
  | Some ids =>
      let! blueprint_id := get_blueprint_id contract_id in
      lift (raise_if (negb (bool_decide (blueprint_id ∈ ids))) NCFail)
  end.

(** ** The operations of a program *)

Definition run_syscall (op : syscall) : RM (answer op) :=
  match op return RM (answer op) with
  | SysGetContractId => get_current_contract_id
  | SysGetBlueprintId => let! c := get_current_contract_id in get_blueprint_id c
  | SysGetCurrentCodeBlueprintId => get_current_code_blueprint_id
  | SysGetContractBlueprintId c => get_blueprint_id c
  | SysGetBalanceBeforeCurrentCall u => let! c := get_current_contract_id in _get_balance c u true
  | SysGetCurrentBalance None u => let! c := get_current_contract_id in _get_balance c u false
  | SysGetCurrentBalance (Some c) u => _get_balance c u false
  | SysGetObj key t d => on_current (fun S _ tr => (tr_get_obj tr key t d, tr))
  | SysPutObj key t v => on_current (fun S _ => tr_put_obj key t v)
  | SysDelObj key => on_current (fun S _ => tr_del_obj key)
  | SysHasObj key => on_current (fun S _ tr => (tr_has_obj tr key, tr))
  | SysRevokeAuthorities u mint melt => syscall_revoke_authorities u mint melt
  | SysMintTokens u n p => syscall_mint_tokens u n p
  | SysMeltTokens u n p => syscall_melt_tokens u n p
  | SysCreateDepositToken salt name symbol n mint melt =>
      syscall_create_child_deposit_token salt name symbol n mint melt
  | SysCreateFeeToken salt name symbol n mint melt p => syscall_create_child_fee_token salt name symbol n mint melt p
  | SysEmitEvent d => syscall_emit_event d
  | SysChangeBlueprint b => syscall_change_blueprint b
  | SysCallPublic c ids name actions fees args kwargs forbid =>
      validate_blueprint_id c ids ;;;
      syscall_call_another_contract_public_method c name actions fees args kwargs forbid
  | SysCallView c ids name args kwargs =>
      validate_blueprint_id c ids ;;; syscall_call_another_contract_view_method c name args kwargs
  | SysProxyPublic b name actions fees nc_args forbid =>
      syscall_proxy_call_public_method b name actions fees nc_args forbid
  | SysProxyView b name args kwargs => syscall_proxy_call_view_method b name args kwargs
  | SysCreateContract b salt actions fees args kwargs => syscall_create_another_contract b salt actions fees args kwargs
  end.

Fixpoint run_prog (p : prog) : RM value :=
  match p with
  | Return v => ret v
  | Raise e => raise e
  | Op op k => let! a := run_syscall op in run_prog (k a)
  end.

(** ** A method call *)

(** the method a public call runs, its name, its return type and its arguments *)
Definition find_public_method (bp : blueprint_class) (method_name : pystr) (nc_args : NCArgs) (forbid_fallback : bool) :
    result (pystr * callable * nc_type * call_args) :=
  match get_attr bp method_name with
  | None =>
      if bool_decide (method_name = NC_INITIALIZE_METHOD) then Err AssertionError
      else if forbid_fallback then Err NCMethodNotFound
      else match get_attr bp NC_FALLBACK_METHOD with
      | None => Err NCMethodNotFound
      | Some method =>
          if bool_decide (nc_method_type method = Some NC_FALLBACK) then
            let? return_type := return_only method in
            Ok (NC_FALLBACK_METHOD, method, return_type, FallbackArgs method_name nc_args)
          else Err AssertionError
      end
  | Some method =>
      if bool_decide (nc_method_type method = Some NC_PUBLIC) then
        let? parser := method_from_callable method in
        let? args := _validate_nc_args_for_method parser nc_args in
        Ok (method_name, method, return_ parser, PublicArgs args)
      else Err NCInvalidMethodCall
  end.

Definition tracker_count (contract_id : bytes) : RM nat := fun s =>
  match trackers_of s contract_id with None => (Err KeyError, s) | Some ls => (Ok (length ls), s) end.

(** the record of a call made now *)
Definition new_record (type : CallType) (contract_id blueprint_id : bytes) (method_name : pystr)
    (ctx : option Context_) (args : call_args) (ci : CallInfo) : CallRecord :=
  mkCall (call_counter ci) type (depth ci) contract_id blueprint_id method_name ctx args
    (length (default [] (od_get (change_trackers ci) contract_id))).

Definition _execute_public_method_call (contract_id blueprint_id : bytes) (method_name : pystr) (ctx : Context_)
    (nc_args : NCArgs) (skip_reentrancy_validation forbid_fallback : bool) : RM value :=
  (fun s => ((if _metered_executor s then Ok tt else Err AssertionError), s)) ;;;
  let! _ := get_call_info in
  lift (_validate_context ctx) ;;;
  _create_changes_tracker contract_id ;;;
  let! bp := lift (blueprint_class_of blueprint_id) in
  let! (called_method_name, method, return_type, args) :=
    lift (find_public_method bp method_name nc_args forbid_fallback) in
  (if skip_reentrancy_validation then ret tt else _validate_reentrancy contract_id method) ;;;
  let! ci := get_call_info in
  let call_record := new_record PUBLIC contract_id blueprint_id called_method_name (Some ctx) args ci in
  on_call_info (pre_call call_record) ;;;
  lift (_validate_actions method ctx) ;;;
  for_each (all_actions ctx) (fun a =>
    on_tracker contract_id (nc_callee_execution_rule a) ;;; _handle_index_update a) ;;;
  let! ctx_copy := lift (context_copy ctx) in
  let! result := metered_call (run_prog (body method (Some ctx_copy) args)) in
  (if bool_decide (method_name = NC_INITIALIZE_METHOD) then _check_all_field_initialized bp else ret tt) ;;;
  let! n := tracker_count contract_id in
  (if (1 <? n)%nat then on_tracker contract_id (fun S _ => tr_commit) else ret tt) ;;;
  on_call_info (post_call call_record) ;;;
  lift (_validate_return_type_for_method return_type result).

Definition _unsafe_call_view_method (contract_id blueprint_id : bytes) (method_name : pystr) (args : list value)
    (kwargs : list (pystr * value)) : RM value :=
  let! _ := get_call_info in
  let! initialized := has_contract_been_initialized contract_id in
  lift (raise_if (negb initialized) NCUninitializedContractError) ;;;
  (fun s => (Ok tt, set_executor s)) ;;;
  _create_changes_tracker contract_id ;;;
  let! bp := lift (blueprint_class_of blueprint_id) in
  match get_attr bp method_name with
  | None => raise NCMethodNotFound
  | Some method =>
      lift (raise_if (negb (bool_decide (nc_method_type method = Some NC_VIEW))) NCInvalidMethodCall) ;;;
      let! parser := lift (method_from_callable method) in
      let! args := lift (_validate_nc_args_for_method parser (NCParsedArgs args kwargs)) in
      let! ci := get_call_info in
      let call_record := new_record VIEW contract_id blueprint_id method_name None (ViewArgs args) ci in
      on_call_info (pre_call call_record) ;;;
      let! result := metered_call (run_prog (body method None (ViewArgs args))) in
      let! empty := on_tracker contract_id (fun S _ t => (tr_is_empty t, t)) in
      lift (raise_if (negb empty) NCViewMethodError) ;;;
      on_call_info (post_call call_record) ;;;
      lift (_validate_return_type_for_method (return_ parser) result)
  end.
End syscalls.

(** calls nested at most [fuel] deep *)
Fixpoint calls_at (fuel : nat) : Calls :=
  match fuel with
  | O => mkCalls (fun _ _ _ _ _ _ _ => raise OutOfFuel) (fun _ _ _ _ _ => raise OutOfFuel)
  | S fuel => let C := calls_at fuel in mkCalls (_execute_public_method_call C) (_unsafe_call_view_method C)
  end.

Definition call_fuel : nat := S MAX_RECURSION_DEPTH.

Definition execute_public_method_call := _execute_public_method_call (calls_at call_fuel).
Definition unsafe_call_view_method := _unsafe_call_view_method (calls_at call_fuel).

(** * The outermost call *)

(** ** The check of the balances *)

(** the totals of the diffs of the trackers *)
Definition add_diffs (totals : list (bytes * Z)) (l : layer) : list (bytes * Z) :=
  fold_left (fun d item => dd_add d (attr_name (fst item)) (snd item)) (_balance_diff l) totals.

Definition validate_tracker (totals : list (bytes * Z)) (e : bytes * list layer) : RM (list (bytes * Z)) :=
  match snd e with
  | [l] => on_tracker (fst e) (fun S _ t => (validate_balances_are_positive t, t)) ;;; ret (add_diffs totals l)
  | _ => raise AssertionError
  end.

Fixpoint mfold {A D} (f : D -> A -> RM D) (l : list A) (d : D) : RM D :=
  match l with
  | [] => ret d
  | x :: l => let! d := f d x in mfold f l d
  end.

Definition add_record (totals : list (bytes * Z)) (r : NCIndexUpdateRecord) : list (bytes * Z) :=
  match record_amount r with None => totals | Some (u, n) => dd_add totals u n end.

(** [calculated_tokens_totals] *)
Definition calculated_totals (ci : CallInfo) (cs : list CallRecord) : result (list (bytes * Z)) :=
  rfold_left (fun totals call =>
    match index_updates ci !! cr_id call with
    | None => if bool_decide (cr_type call = VIEW) then Ok totals else Err AssertionError
    | Some updates => Ok (fold_left add_record updates totals)
    end) cs [].

(** equality of dictionaries *)
Definition dict_eqb (d e : list (bytes * Z)) : bool :=
  forallb (fun k => bool_decide (od_get d k = od_get e k)) (map fst d ++ map fst e).

Definition action_diff (totals : list (bytes * Z)) (a : NCAction) : list (bytes * Z) :=
  match a with
  | NCDepositAction u n => dd_add totals u (- n)
  | NCWithdrawalAction u n => dd_add totals u n
  | _ => totals
  end.

Definition _validate_balances (ctx : Context_) : RM unit :=
  let! ci := get_call_info in
  match calls ci with
  | None => raise AssertionError
  | Some cs =>
      let! total_diffs := mfold validate_tracker (change_trackers ci) [] in
      let! calculated := lift (calculated_totals ci cs) in
      let! updated := (fun s => (Ok (_updated_tokens_totals s), s)) in
      py_assert (dict_eqb calculated updated) ;;;
      let total_diffs := fold_left (fun d e => dd_add d (fst e) (- snd e)) updated total_diffs in
      let total_diffs := fold_left action_diff (all_actions ctx) total_diffs in
      py_assert (forallb (fun e => snd e =? 0) total_diffs)
  end.

(** ** Commit and reset *)

Definition set_lock (contract_id : bytes) (locked : bool) : RM unit := fun s =>
  match od_get (_storages s) contract_id with
  | None => (Err KeyError, s)
  | Some (tr, _) => (Ok tt, set_storages s (od_set (_storages s) contract_id (tr, locked)))
  end.

Definition commit_contract (e : bytes * list layer) : RM unit :=
  py_assert (bool_decide (length (snd e) = 1%nat)) ;;;
  set_lock (fst e) false ;;;
  on_tracker (fst e) (fun S _ => tr_commit) ;;;
  set_lock (fst e) true ;;;
  let! root_id := (fun s => match storage_of s (fst e) with
    | None => (Err KeyError, s)
    | Some c => (cs_get_root_id c, s)
    end) in
  on_block (update_contract_trie sha256 (fst e) root_id).

Definition _commit_all_changes_to_storage : RM unit :=
  let! ci := get_call_info in for_each (change_trackers ci) commit_contract.

(** a tracker that was not committed is blocked *)
Definition block_layer (l : layer) : result layer :=
  if has_been_commited l then Ok l
  else if has_been_blocked l then Err RuntimeError
  else Ok (over (set_flags (over l tt) (has_been_commited l) true) tt).

Fixpoint block_layers (ls : list layer) : result (list layer) :=
  match ls with
  | [] => Ok []
  | l :: ls => let? l := block_layer l in let? ls := block_layers ls in Ok (l :: ls)
  end.

Fixpoint block_all (d : list (bytes * list layer)) : result (list (bytes * list layer)) :=
  match d with
  | [] => Ok []
  | (c, ls) :: d => let? ls := block_layers ls in let? d := block_all d in Ok ((c, ls) :: d)
  end.

Definition _reset_all_change_trackers : RM unit :=
  let! ci := get_call_info in
  let! d := lift (block_all (change_trackers ci)) in
  fun s => (Ok tt, set_call_info (set_last_call_info s (Some (with_trackers ci d))) None).

(** ** Public calls *)

Definition _unsafe_call_public_method (contract_id : bytes) (method_name : pystr) (ctx : Context_) (nc_args : NCArgs) : RM value :=
  (fun s => match _call_info s with
    | Some _ => (Err AssertionError, s)
    | None => (Ok tt, set_call_info s (Some (_build_call_info s contract_id)))
    end) ;;;
  let! initialized := has_contract_been_initialized contract_id in
  lift (raise_if (negb initialized) NCUninitializedContractError) ;;;
  (fun s => (Ok tt, set_executor s)) ;;;
  let! blueprint_id := get_blueprint_id contract_id in
  let! result := execute_public_method_call contract_id blueprint_id method_name ctx nc_args false false in
  _validate_balances ctx ;;;
  _commit_all_changes_to_storage ;;;
  (fun s => (Ok tt, set_fees (set_totals s []) [])) ;;;
  ret result.

Definition call_public_method_with_nc_args (contract_id : bytes) (method_name : pystr) (ctx : Context_) (nc_args : NCArgs) : RM value :=
  lift (raise_if (bool_decide (method_name = NC_INITIALIZE_METHOD)) NCInvalidInitializeMethodCall) ;;;
  try_finally (_unsafe_call_public_method contract_id method_name ctx nc_args) _reset_all_change_trackers.

Definition create_contract_with_nc_args (contract_id blueprint_id : bytes) (ctx : Context_) (nc_args : NCArgs) : RM value :=
  let! initialized := has_contract_been_initialized contract_id in
  lift (raise_if initialized NCAlreadyInitializedContractError) ;;;
  _internal_create_contract contract_id blueprint_id ;;;
  try_finally (_unsafe_call_public_method contract_id NC_INITIALIZE_METHOD ctx nc_args) _reset_all_change_trackers.

Definition call_view_method (contract_id : bytes) (method_name : pystr) (args : list value) (kwargs : list (pystr * value)) : RM value :=
  (fun s => match _call_info s with
    | Some _ => (Err AssertionError, s)
    | None => (Ok tt, set_call_info s (Some (_build_call_info s contract_id)))
    end) ;;;
  try_finally
    (let! blueprint_id := get_blueprint_id contract_id in
     unsafe_call_view_method contract_id blueprint_id method_name args kwargs)
    _reset_all_change_trackers.

(** [execute_from_tx], for a transaction whose metadata has this first block *)
Definition execute_from_tx (tx : vertex) (tx_first_block : option bytes) : RM unit :=
  match get_nano_header tx with
  | None => raise ValueError
  | Some h =>
      let creating := bool_decide (nc_method h = NC_INITIALIZE_METHOD) in
      let contract_id := if creating then v_hash tx else nc_id h in
      py_assert (0 <=? nc_seqnum h) ;;;
      let! current_seqnum := (fun s => (get_address_seqnum (r_block s) (nc_address h), s)) in
      let diff := nc_seqnum h - current_seqnum in
      if (diff <=? 0) || (MAX_SEQNUM_JUMP_SIZE <? diff) then
        (fun s => (Err NCFail, set_last_call_info s (Some (_build_call_info s contract_id))))
      else
        on_block (set_address_seqnum sha256 (nc_address h) (nc_seqnum h)) ;;;
        py_assert (match tx_first_block with None => false | Some _ => true end) ;;;
        let! ctx := lift (get_context tx_first_block tx h) in
        let! block := lift (context_block ctx) in
        py_assert (bool_decide (Some (bd_hash block) = tx_first_block)) ;;;
        let nc_args := NCRawArgs (nc_args_bytes h) in
        let! _ := if creating then create_contract_with_nc_args contract_id (nc_id h) ctx nc_args
          else call_public_method_with_nc_args contract_id (nc_method h) ctx nc_args in
        ret tt
  end.

(** [Runner.commit] *)
Definition runner_commit : RM unit := fun s =>
  for_each (map fst (_storages s)) (fun contract_id =>
    set_lock contract_id false ;;;
    (fun s => match storage_of s contract_id with
      | None => (Err KeyError, s)
      | Some c => let '(r, c') := cs_commit c in (r, put_storage s contract_id c')
      end) ;;;
    set_lock contract_id true) s.
End runner.
