(* ===== verification/RunnerSteps.v ===== *)
(** What contract code can do to the runner, as a step relation.

    [code d s s'] describes a run of the code of one call: local steps and nested
    calls.  [d] is the change, per token, of the balances of all contracts that no
    record explains.  Every successful run of a program is such a run with [d] zero
    ([run_prog_code]): the theorems on the runner are proved by induction on it. *)

From stdpp Require Import base list gmap strings.
From Stdlib Require Import ZArith Lia.
From S2P Require Import Prelude PyInt PyValue NCTypes PatriciaTrie BlockStorage ContractStorage.
From S2P Require Import StorageInterface ContractStorageTheory ChangesTracker ScriptCode ScriptVM TxStruct TokenInfo.
From S2P Require Import StaticMetadata Metadata TxVerifier BlockVerifier NCContext RunnerState Runner.

Local Open Scope Z_scope.
Local Open Scope py_scope.

(** * Changes per token *)

Definition delta : Type := bytes -> Z.
Definition dzero : delta := fun _ => 0.
Definition dplus (d e : delta) : delta := fun u => d u + e u.
Definition dsingle (u : bytes) (n : Z) : delta := fun v => if bool_decide (u = v) then n else 0.

(** what an action gives to the callee; the caller loses it *)
Definition action_delta (a : NCAction) : delta :=
  match a with
  | NCDepositAction u n => dsingle u n
  | NCWithdrawalAction u n => dsingle u (- n)
  | _ => dzero
  end.

Definition dneg (d : delta) : delta := fun u => - d u.
Definition dsum (l : list delta) : delta := fun u => fold_right (fun d n => d u + n) 0 l.

Lemma dsum_perm {A} (f : A -> delta) l l' u : Permutation l l' -> dsum (map f l) u = dsum (map f l') u.
Proof. induction 1; unfold dsum in *; simpl in *; lia. Qed.

(** the sum, for one token, of the differences of a tracker *)
Definition diff_sum (u : bytes) (d : list (TrieKey * Z)) : Z :=
  fold_right (fun item n => (if bool_decide (attr_name (fst item) = u) then snd item else 0) + n) 0 d.

Definition layer_sum (u : bytes) (l : layer) : Z := diff_sum u (_balance_diff l).

Lemma diff_sum_set u d k n :
  diff_sum u (od_set d k (default 0 (od_get d k) + n)) = diff_sum u d + dsingle (attr_name k) n u.
Proof.
  unfold dsingle. induction d as [|[j x] d IH]; simpl; [case_bool_decide; lia|].
  destruct (bool_decide_reflect (j = k)) as [->|N]; simpl; [case_bool_decide; lia|]. rewrite IH. lia.
Qed.

(** the equations of an equality of pairs *)
Ltac inj H := inversion H; subst; clear H.

(** * Layers *)

Lemma layer_of_over {S} (l : layer) (x : S) : layer_of (over l x) = l.
Proof. destruct l as [[] ? ? ? ? ? ? ? ?]. done. Qed.

Lemma over_layer_of {S} (t : tracker S) : over (layer_of t) (storage t) = t.
Proof. by destruct t. Qed.

Section layers.
Context {DB : Type}.
Lemma base_stack_up (c : contract_storage DB) ls : base_of (length ls) (stack_up c ls) = c.
Proof. induction ls; simpl; [done|]. done. Qed.

Lemma layers_stack_up (c : contract_storage DB) ls : layers_of (length ls) (stack_up c ls) = ls.
Proof. induction ls; simpl; [done|]. by rewrite layer_of_over, IHls. Qed.
End layers.

(** one change of a tracker, with the change of its balances *)
Definition layer_step (d : delta) (l l' : layer) : Prop :=
  tr_nc_id l' = tr_nc_id l /\ has_been_commited l' = has_been_commited l /\
  has_been_blocked l' = has_been_blocked l /\ forall u, layer_sum u l' = layer_sum u l + d u.

(** an operation that leaves the wrapped storage alone *)
Definition top_writer {A} (m : writer A) (d : delta) : Prop := forall S ops (t : tracker S) a t',
  m S ops t = (Ok a, t') -> storage t' = storage t /\ layer_step d (layer_of t) (layer_of t').

(** the balances did not change *)
Lemma layer_step_other l l' : tr_nc_id l' = tr_nc_id l -> has_been_commited l' = has_been_commited l ->
  has_been_blocked l' = has_been_blocked l -> _balance_diff l' = _balance_diff l -> layer_step dzero l l'.
Proof. intros ? ? ? E. repeat split; try done. intros u. unfold dzero, layer_sum. rewrite E. lia. Qed.

Lemma layer_step_refl l : layer_step dzero l l.
Proof. by apply layer_step_other. Qed.

Lemma layer_step_eq d e l l' : (forall u, d u = e u) -> layer_step d l l' -> layer_step e l l'.
Proof. intros H (?&?&?&Hs). repeat split; try done. intros u. rewrite <- H. apply Hs. Qed.

Lemma top_reader {A} (f : forall S, StorageOps S -> tracker S -> result A) :
  top_writer (fun S ops t => (f S ops t, t)) dzero.
Proof. intros S ops t a t' [= _ <-]. split; [done|]. apply layer_step_refl. Qed.

Lemma tr_check_same {S} (t : tracker S) a t' : tr_check_if_locked t = (Ok a, t') -> t' = t.
Proof. unfold tr_check_if_locked. by repeat case_match; intros; simplify_eq. Qed.

Lemma assert_same {S} b (s s' : S) a : py_assert b s = (Ok a, s') -> s' = s /\ b = true.
Proof. unfold py_assert, ret, raise. case_match; intros E; by inversion E. Qed.

Ltac top_step H := inv_ok H; match goal with H : tr_check_if_locked _ = (Ok _, _) |- _ => apply tr_check_same in H end; subst.

Lemma top_add_balance u n : top_writer (fun S _ => tr_add_balance u n) (dsingle u n).
Proof.
  intros S ops t a t' H. unfold tr_add_balance in H. top_step H. inj H. split; [done|].
  repeat split. intros v. apply (diff_sum_set v (_balance_diff t) (BalanceKey (tr_nc_id t) u)).
Qed.

Lemma top_authorities u mint melt new : top_writer (fun S _ => set_authorities u mint melt new) dzero.
Proof.
  intros S ops t a t' H. unfold set_authorities in H. inv_ok H.
  apply assert_same in Hm as [-> _].
  top_step H. inj H. split; [done|]. by apply layer_step_other.
Qed.

Lemma top_put_obj k ty v : top_writer (fun S _ => tr_put_obj k ty v) dzero.
Proof.
  intros S ops t a t' H. unfold tr_put_obj in H. top_step H. inv_ok H. inj Hm.
  inj H. split; [done|]. by apply layer_step_other.
Qed.

Lemma top_del_obj k : top_writer (fun S _ => tr_del_obj k) dzero.
Proof.
  intros S ops t a t' H. unfold tr_del_obj in H. top_step H. inj H. split; [done|]. by apply layer_step_other.
Qed.

Lemma top_create_token td : top_writer (fun S _ => tr_create_token td) dzero.
Proof.
  intros S ops t a t' H. unfold tr_create_token in H. inv_ok H. inj Hm.
  destruct a0; [done|]. inj H. split; [done|]. by apply layer_step_other.
Qed.

Lemma top_set_blueprint b : top_writer (fun S _ => tr_set_blueprint_id b) dzero.
Proof.
  intros S ops t a t' H. unfold tr_set_blueprint_id in H. top_step H. inj H. split; [done|].
  by apply layer_step_other.
Qed.

Lemma require_same {S} b mint melt (t t' : tracker S) a : require_authorities b mint melt t = (Ok a, t') -> t' = t.
Proof. unfold require_authorities. intros H. inv_ok H. inj Hm. by inj H. Qed.

Lemma top_callee_rule a : top_writer (nc_callee_execution_rule a) (action_delta a).
Proof.
  destruct a as [u n|u n|u mint melt|u mint melt]; simpl; [apply top_add_balance..| |];
    intros S ops t x t' H; simpl in H; inv_ok H; apply assert_same in Hm as [-> _].
  - by apply (top_authorities u mint melt GRANTED S ops) in H.
  - inv_ok H. inj Hm. apply require_same in H as ->. split; [done|]. apply layer_step_refl.
Qed.

Lemma top_caller_rule a : top_writer (nc_caller_execution_rule a) (dneg (action_delta a)).
Proof.
  assert (Hz : forall u, dzero u = dneg dzero u) by done.
  destruct a as [u n|u n|u mint melt|u mint melt]; simpl; intros S ops t x t' H; simpl in H.
  - apply (top_add_balance u (- n) S ops) in H as [E1 E2]. split; [done|]. eapply layer_step_eq; [|exact E2].
    intros v. unfold dsingle, dneg. case_bool_decide; lia.
  - apply (top_add_balance u n S ops) in H as [E1 E2]. split; [done|]. eapply layer_step_eq; [|exact E2].
    intros v. unfold dsingle, dneg. case_bool_decide; lia.
  - inv_ok H. inj Hm. inv_ok H. inj Hm. apply require_same in H as ->.
    split; [done|]. apply (layer_step_eq dzero); [done|]. apply layer_step_refl.
  - inv_ok H. inj Hm. apply (top_authorities u mint melt GRANTED S ops) in H as [E1 E2].
    split; [done|]. by apply (layer_step_eq dzero).
Qed.

Section steps.
Variable sha256 : bytes -> bytes.
Context {DB : Type} `{!NodeTrieStore DB}.

Abbreviation St := (Runner DB).

(** [r] is the record of the running call *)
Definition cur (r : CallRecord) (s : St) : Prop :=
  exists ci rest, _call_info s = Some ci /\ stack ci = r :: rest.

(** contract storages were opened or created, nothing else *)
Definition opened (s s' : St) : Prop :=
  _call_info s' = _call_info s /\ _updated_tokens_totals s' = _updated_tokens_totals s /\
  _paid_actions_fees s' = _paid_actions_fees s /\ _enable_call_trace s' = _enable_call_trace s /\
  _last_call_info s' = _last_call_info s /\ _block_trie (r_block s') = _block_trie (r_block s) /\
  forall c x, od_get (_storages s) c = Some x -> od_get (_storages s') c = Some x.

(** the most recent tracker of a contract changed *)
Definition layer_write (c : bytes) (d : delta) (s s' : St) : Prop :=
  exists l l' ls, trackers_of s c = Some (l :: ls) /\ layer_step d l l' /\ s' = put_layers s c (l' :: ls).

(** the end of a public call, and of a view call *)
Definition leave_public (r : CallRecord) : M St unit :=
  let! n := tracker_count (cr_contract_id r) in
  (if (1 <? n)%nat then on_tracker sha256 (cr_contract_id r) (fun S _ => tr_commit) else ret tt) ;;;
  on_call_info (post_call r).

Definition leave_view (r : CallRecord) : M St unit :=
  let! empty := on_tracker sha256 (cr_contract_id r) (fun S _ t => (tr_is_empty t, t)) in
  lift (raise_if (negb empty) NCViewMethodError) ;;;
  on_call_info (post_call r).

Inductive code : delta -> St -> St -> Prop :=
| code_nil d s : (forall u, d u = 0) -> code d s s
| code_cons d d1 d2 s s1 s2 :
    step d1 s s1 -> code d2 s1 s2 -> (forall u, d u = d1 u + d2 u) -> code d s s2
with step : delta -> St -> St -> Prop :=
| step_open s s' : opened s s' -> step dzero s s'
| step_layer r d s s' : cur r s -> layer_write (cr_contract_id r) d s s' -> step d s s'
| step_update r record u n s s1 s' :
    cur r s -> cr_type r = PUBLIC -> record_amount record = Some (u, n) ->
    layer_write (cr_contract_id r) (dsingle u n) s s1 ->
    append_update r record (set_totals s1 (dd_add (_updated_tokens_totals s1) u n)) = (Ok tt, s') ->
    step dzero s s'
| step_record r record s s' :
    cur r s -> cr_type r = PUBLIC -> record_amount record = None -> append_update r record s = (Ok tt, s') ->
    step dzero s s'
| step_event r data s s' :
    cur r s -> cr_type r = PUBLIC -> on_call_info (emit_event data) s = (Ok tt, s') -> step dzero s s'
| step_fee r u n s :
    cur r s -> cr_type r = PUBLIC -> step dzero s (set_fees s (dd_add (_paid_actions_fees s) u n))
| step_public r d ci c bp name ctx args s s1 s2 s3 :
    cur r s -> cr_type r = PUBLIC -> _call_info s = Some ci ->
    on_call_info (pre_call (new_record PUBLIC c bp name (Some ctx) args ci)) s = (Ok tt, s1) ->
    code d s1 s2 ->
    leave_public (new_record PUBLIC c bp name (Some ctx) args ci) s2 = (Ok tt, s3) ->
    step d s s3
| step_view r d ci c bp name args s s1 s2 s3 :
    cur r s -> _call_info s = Some ci ->
    on_call_info (pre_call (new_record VIEW c bp name None args ci)) s = (Ok tt, s1) ->
    code d s1 s2 ->
    leave_view (new_record VIEW c bp name None args ci) s2 = (Ok tt, s3) ->
    step d s s3.

Scheme code_ind' := Induction for code Sort Prop
  with step_ind' := Induction for step Sort Prop.
Combined Scheme code_step_ind from code_ind', step_ind'.

(** ** The stack *)

(** the calls under way in a state *)
Definition stack_of (s : St) : option (list CallRecord) := stack <$> _call_info s.

Lemma cur_stack r s : cur r s <-> exists rest, stack_of s = Some (r :: rest).
Proof.
  unfold cur, stack_of. split.
  - intros (ci & rest & -> & E). exists rest. simpl. by rewrite E.
  - intros (rest & E). destruct (_call_info s) as [ci|]; simpl in E; simplify_eq. by exists ci, rest.
Qed.

Lemma stack_put_layers s c ls : stack_of (put_layers s c ls) = stack_of s.
Proof. unfold stack_of, put_layers. destruct (_call_info s) eqn:E; simpl; [done|by rewrite E]. Qed.

Lemma trackers_put_layers (s : St) c ls c' : is_Some (_call_info s) ->
  trackers_of (put_layers s c ls) c' = if bool_decide (c = c') then Some ls else trackers_of s c'.
Proof.
  intros [ci E]. unfold trackers_of, put_layers. rewrite E. simpl.
  case_bool_decide; subst; [by rewrite od_get_set_eq|by rewrite od_get_set_ne].
Qed.

Lemma trackers_call_info (s : St) c ls : trackers_of s c = Some ls -> is_Some (_call_info s).
Proof. unfold trackers_of. by destruct (_call_info s). Qed.

Lemma on_tracker_ok {A} c (m : writer A) (s : St) (a : A) s' : on_tracker sha256 c m s = (Ok a, s') ->
  exists l ls c0 r c1 ls1, trackers_of s c = Some (l :: ls) /\ storage_of s c = Some c0 /\
    write_at sha256 m c0 l ls = (r, c1, ls1) /\ r = Ok a /\ s' = put_layers (put_storage s c c1) c ls1.
Proof.
  unfold on_tracker. destruct (trackers_of s c) as [[|l ls]|] eqn:E; [by intros [=]| |by intros [=]].
  destruct (storage_of s c) as [c0|] eqn:E0; [|by intros [=]].
  destruct (write_at sha256 m c0 l ls) as [[r c1] ls1] eqn:E1. intros [= -> <-].
  by exists l, ls, c0, (Ok a), c1, ls1.
Qed.

Lemma stack_on_tracker {A} c (m : writer A) (s : St) a s' : on_tracker sha256 c m s = (Ok a, s') -> stack_of s' = stack_of s.
Proof. intros (l & ls & c0 & r & c1 & ls1 & _ & _ & _ & _ & ->)%on_tracker_ok. by rewrite stack_put_layers. Qed.

Lemma on_call_info_ok {A} (m : M CallInfo A) (s : St) a s' : on_call_info m s = (Ok a, s') ->
  exists ci ci', _call_info s = Some ci /\ m ci = (Ok a, ci') /\ s' = set_call_info s (Some ci').
Proof.
  unfold on_call_info. destruct (_call_info s) as [ci|]; [|by intros [=]].
  destruct (m ci) as [r ci'] eqn:E. intros [= -> <-]. by exists ci, ci'.
Qed.

(** what [pre_call] makes of the state of the call *)
Definition pushed_call (r : CallRecord) (ci : CallInfo) : CallInfo :=
  mkCallInfo (r :: stack ci)
    (od_set (change_trackers ci) (cr_contract_id r)
      (new_layer (cr_contract_id r) :: default [] (od_get (change_trackers ci) (cr_contract_id r))))
    (enable_call_trace ci)
    (if enable_call_trace ci then Some (default [] (calls ci) ++ [r]) else calls ci)
    (match cr_type r with PUBLIC => <[cr_id r := []]> (index_updates ci) | VIEW => index_updates ci end)
    (S (call_counter ci)) (log_nc_id ci) (events ci).

Lemma pre_call_ok r ci a ci' : pre_call r ci = (Ok a, ci') ->
  (depth ci < MAX_RECURSION_DEPTH)%nat /\ (call_counter ci < MAX_CALL_COUNTER)%nat /\ ci' = pushed_call r ci.
Proof.
  unfold pre_call. destruct (Nat.leb_spec MAX_RECURSION_DEPTH (depth ci)); [by intros [=]|].
  destruct (Nat.leb_spec MAX_CALL_COUNTER (call_counter ci)); [by intros [=]|]. intros F. inj F. done.
Qed.

(** the trackers of a contract after its call ended *)
Definition popped (ls : list layer) : list layer := match ls with [] | [_] => ls | _ :: ls => ls end.

Lemma post_call_ok r ci a ci' : post_call r ci = (Ok a, ci') ->
  exists r' rest l ls, stack ci = r' :: rest /\ cr_id r = cr_id r' /\
    od_get (change_trackers ci) (cr_contract_id r) = Some (l :: ls) /\ cr_tracker r = length ls /\
    (ls = [] /\ ci' = with_stack ci rest \/
     ls <> [] /\ ci' = with_trackers (with_stack ci rest) (od_set (change_trackers ci) (cr_contract_id r) ls)).
Proof.
  unfold post_call. destruct (stack ci) as [|r' rest]; [by intros [=]|]. simpl.
  destruct (bool_decide_reflect (cr_id r = cr_id r')) as [E1|]; simpl; [|by intros [=]].
  destruct (od_get (change_trackers ci) (cr_contract_id r)) as [[|l ls]|]; [by intros [=]| |by intros [=]].
  destruct (bool_decide_reflect (cr_tracker r = length ls)) as [E2|]; simpl; [|by intros [=]]. intros F.
  exists r', rest, l, ls. repeat split; try done. destruct ls as [|l2 ls]; inj F; [by left|by right].
Qed.

Lemma stack_append r record (s : St) a s' : append_update r record s = (Ok a, s') -> stack_of s' = stack_of s.
Proof.
  intros (ci & ci' & E & H & ->)%on_call_info_ok. unfold stack_of. rewrite E. simpl. f_equal.
  destruct (index_updates ci !! cr_id r); by inversion H.
Qed.

Lemma stack_pre_call r (s : St) a s' : on_call_info (pre_call r) s = (Ok a, s') ->
  exists l, stack_of s = Some l /\ stack_of s' = Some (r :: l).
Proof.
  intros (ci & ci' & E & (_ & _ & ->)%pre_call_ok & ->)%on_call_info_ok. exists (stack ci).
  unfold stack_of. by rewrite E.
Qed.

Lemma stack_post_call r (s : St) a s' : on_call_info (post_call r) s = (Ok a, s') ->
  exists r' l, stack_of s = Some (r' :: l) /\ stack_of s' = Some l.
Proof.
  intros (ci & ci' & E & (r' & rest & l & ls & Es & _ & _ & _ & H)%post_call_ok & ->)%on_call_info_ok.
  exists r', rest. unfold stack_of. rewrite E. simpl. rewrite Es. split; [done|]. by destruct H as [[_ ->]|[_ ->]].
Qed.

Lemma tracker_count_ok c (s : St) n s' : tracker_count c s = (Ok n, s') ->
  s' = s /\ exists ls, trackers_of s c = Some ls /\ n = length ls.
Proof. unfold tracker_count. destruct (trackers_of s c); intros F; inj F. eauto. Qed.

(** the end of a public call: the tracker is committed to the one below it, if any *)
Lemma leave_public_ok r (s : St) a s' : leave_public r s = (Ok a, s') ->
  exists ls s1, trackers_of s (cr_contract_id r) = Some ls /\ on_call_info (post_call r) s1 = (Ok a, s') /\
    ((length ls <= 1)%nat /\ s1 = s \/
     (1 < length ls)%nat /\ on_tracker sha256 (cr_contract_id r) (fun S _ => tr_commit) s = (Ok tt, s1)).
Proof.
  unfold leave_public. intros H. inv_ok H. apply tracker_count_ok in Hm as (-> & ls & E & ->). inv_ok H.
  exists ls, s0. split; [done|]. split; [done|]. destruct (Nat.ltb_spec 1 (length ls)); [right|left].
  - destruct a0. done.
  - split; [lia|]. by inversion Hm.
Qed.

Lemma stack_leave_public r s a s' : leave_public r s = (Ok a, s') ->
  exists r' l, stack_of s = Some (r' :: l) /\ stack_of s' = Some l.
Proof.
  intros (ls & s1 & _ & (r' & l & E & E')%stack_post_call & H)%leave_public_ok. exists r', l. split; [|done].
  rewrite <- E. destruct H as [[_ ->]|[_ H]]; [done|]. symmetry. by eapply stack_on_tracker.
Qed.

Lemma stack_leave_view r s a s' : leave_view r s = (Ok a, s') ->
  exists r' l, stack_of s = Some (r' :: l) /\ stack_of s' = Some l.
Proof.
  unfold leave_view. intros H. inv_ok H. apply stack_on_tracker in Hm. inv_ok H. inj Hm0.
  apply stack_post_call in H as (r' & l & E & ?). exists r', l. by rewrite <- Hm.
Qed.

(** code leaves the stack as it found it *)
Lemma code_stack :
  (forall d s s', code d s s' -> stack_of s' = stack_of s) /\
  (forall d s s', step d s s' -> stack_of s' = stack_of s).
Proof.
  apply (code_step_ind (fun d s s' _ => stack_of s' = stack_of s) (fun d s s' _ => stack_of s' = stack_of s)); try done.
  - intros * _ IH1 _ IH2 _. congruence.
  - intros s s' (E & _). unfold stack_of. by rewrite E.
  - intros r d s s' _ (l & l' & ls & _ & _ & ->). apply stack_put_layers.
  - intros r record u n s s1 s' _ _ _ (l & l' & ls & _ & _ & ->) H. apply stack_append in H. rewrite H.
    apply (stack_put_layers s (cr_contract_id r) (l' :: ls)).
  - intros r record s s' _ _ _ H. by apply stack_append in H.
  - intros r data s s' _ _ (ci & ci' & E & H & ->)%on_call_info_ok. unfold stack_of. rewrite E. simpl. f_equal.
    revert H. unfold emit_event. case_match; intros F; by inversion F.
  - intros r d ci c bp name ctx args s s1 s2 s3 _ _ _ H1 _ IH H2.
    apply stack_pre_call in H1 as (l & E & E1). apply stack_leave_public in H2 as (r' & l' & E2 & E3). congruence.
  - intros r d ci c bp name args s s1 s2 s3 _ _ H1 _ IH H2.
    apply stack_pre_call in H1 as (l & E & E1). apply stack_leave_view in H2 as (r' & l' & E2 & E3). congruence.
Qed.

Lemma code_cur r d s s' : code d s s' -> cur r s -> cur r s'.
Proof. intros H. rewrite !cur_stack. by rewrite (proj1 code_stack _ _ _ H). Qed.

Lemma code_eq d e s s' : (forall u, d u = e u) -> code d s s' -> code e s s'.
Proof.
  intros E H. destruct H as [d s H|d d1 d2 s s1 s2 H1 H2 H].
  - constructor. intros u. by rewrite <- E.
  - econstructor; [done..|]. intros u. by rewrite <- E.
Qed.

Lemma code_app d1 d2 s s1 s2 : code d1 s s1 -> code d2 s1 s2 -> code (dplus d1 d2) s s2.
Proof.
  intros H. revert d2 s2. induction H as [d s H|d e1 e2 s s1 s2 H1 H2 IH H]; intros d2' s' Hc.
  - eapply code_eq; [|exact Hc]. intros u. unfold dplus. rewrite H. lia.
  - econstructor; [exact H1|by apply IH|]. intros u. unfold dplus. rewrite H. lia.
Qed.

Lemma code_step d s s' : step d s s' -> code d s s'.
Proof. intros H. econstructor; [exact H|by apply (code_nil dzero)|]. intros u. unfold dzero. lia. Qed.
End steps.
