(* ===== verification/RunnerRefine.v ===== *)
(** Every successful run of contract code is a run of the step relation of
    [RunnerSteps]: [does r m d Q] reads "with [r] the running call, [m] is code that
    changes balances by [d], and its result satisfies [Q]". *)

From stdpp Require Import base list gmap strings.
From Stdlib Require Import ZArith Lia.
From S2P Require Import Prelude PyInt PyValue NCTypes PatriciaTrie BlockStorage ContractStorage.
From S2P Require Import StorageInterface ContractStorageTheory ChangesTracker ScriptCode ScriptVM TxStruct TokenInfo.
From S2P Require Import StaticMetadata Metadata TxVerifier BlockVerifier NCContext RunnerState Runner RunnerSteps.

Local Open Scope Z_scope.
Local Open Scope py_scope.

Section does.
Variable sha256 : bytes -> bytes.
Context {DB : Type} `{!NodeTrieStore DB}.

Abbreviation St := (Runner DB).
Abbreviation code := (code sha256 (DB := DB)).
Abbreviation step := (step sha256 (DB := DB)).

Definition does {A} (r : CallRecord) (m : M St A) (d : delta) (Q : A -> Prop) : Prop :=
  forall s a s', cur r s -> m s = (Ok a, s') -> code d s s' /\ Q a.

(** ** Combinators *)

Lemma code_refl s : code dzero s s.
Proof. by constructor. Qed.

Lemma does_eq {A} r (m : M St A) d e Q : (forall u, d u = e u) -> does r m d Q -> does r m e Q.
Proof. intros E H s a s' Hc Hm. destruct (H _ _ _ Hc Hm). split; [by eapply code_eq|done]. Qed.

Lemma does_weaken {A} r (m : M St A) d (P Q : A -> Prop) : (forall a, P a -> Q a) -> does r m d P -> does r m d Q.
Proof. intros E H s a s' Hc Hm. destruct (H _ _ _ Hc Hm). auto. Qed.

Lemma does_bind {A B} r (m : M St A) (f : A -> M St B) d1 d2 P Q :
  does r m d1 P -> (forall a, P a -> does r (f a) d2 Q) -> does r (bind m f) (dplus d1 d2) Q.
Proof.
  intros Hm Hf s b s' Hc H. inv_ok H. destruct (Hm _ _ _ Hc Hm0) as [C1 Ha].
  destruct (Hf a Ha _ _ _ (code_cur _ r _ _ _ C1 Hc) H) as [C2 Hb]. split; [by eapply code_app|done].
Qed.

(** both parts leave the balances as they are *)
Lemma does_seq {A B} r (m : M St A) (f : A -> M St B) P Q :
  does r m dzero P -> (forall a, P a -> does r (f a) dzero Q) -> does r (bind m f) dzero Q.
Proof. intros H1 H2. eapply does_eq; [|by eapply does_bind]. done. Qed.

Lemma does_read {A} r (m : M St A) (Q : A -> Prop) :
  (forall s, (m s).2 = s) -> (forall s a, cur r s -> (m s).1 = Ok a -> Q a) -> does r m dzero Q.
Proof.
  intros H HQ s a s' Hc E. specialize (H s). rewrite E in H. simpl in H. subst. split; [apply code_refl|].
  apply (HQ s); [done|]. by rewrite E.
Qed.

Lemma does_ret {A} r (a : A) (Q : A -> Prop) : Q a -> does r (ret a) dzero Q.
Proof. intros H. apply does_read; [done|]. by intros s b _ [= <-]. Qed.

Lemma does_raise {A} r e (d : delta) (Q : A -> Prop) : does r (raise e) d Q.
Proof. by intros s a s' _ [=]. Qed.

Lemma does_lift {A} r (x : result A) : does r (lift x) dzero (fun a => x = Ok a).
Proof. by apply does_read. Qed.

Lemma does_assert r b : does r (py_assert b) dzero (fun _ => b = true).
Proof. apply does_read; [by destruct b|]. by destruct b. Qed.

Lemma does_for_each {A} r (l : list A) (f : A -> M St unit) (g : A -> delta) :
  (forall x, x ∈ l -> does r (f x) (g x) (fun _ => True)) -> does r (for_each l f) (dsum (map g l)) (fun _ => True).
Proof.
  induction l as [|x l IH]; intros H; simpl; [by apply does_ret|].
  eapply (does_bind r (f x) _ (g x)); [apply H; left|]. intros _ _. apply IH. intros y Hy. apply H. by right.
Qed.

Lemma dsum_zero {A} (l : list A) u : dsum (map (fun _ => dzero) l) u = 0.
Proof. unfold dsum. induction l; simpl; [done|]. by rewrite IHl. Qed.

Lemma does_for_each0 {A} r (l : list A) (f : A -> M St unit) :
  (forall x, x ∈ l -> does r (f x) dzero (fun _ => True)) -> does r (for_each l f) dzero (fun _ => True).
Proof. intros H. eapply does_eq; [|by apply (does_for_each r l f (fun _ => dzero))]. intros u. apply dsum_zero. Qed.

(** ** Reading the state *)

Lemma does_get_call_info r : does r get_call_info dzero (fun _ => True).
Proof. apply does_read; [|done]. intros s. unfold get_call_info. by destruct (_call_info s). Qed.

Lemma get_record_cur r (s : St) : cur r s -> get_current_call_record s = (Ok r, s).
Proof.
  intros (ci & rest & E & Es). unfold get_current_call_record, get_call_info, bind. rewrite E, Es. done.
Qed.

Lemma does_record r : does r get_current_call_record dzero (fun a => a = r).
Proof. intros s a s' Hc E. rewrite (get_record_cur r) in E by done. inj E. split; [apply code_refl|done]. Qed.

Lemma does_contract_id r : does r get_current_contract_id dzero (fun c => c = cr_contract_id r).
Proof.
  eapply does_seq; [apply does_record|]. intros a ->. by apply does_ret.
Qed.

Lemma does_current_tracker r : does r get_current_changes_tracker dzero (fun p => fst p = cr_contract_id r).
Proof.
  eapply does_seq; [apply does_contract_id|]. intros c ->. eapply does_seq; [apply does_get_call_info|]. intros ci _.
  repeat case_match; try apply does_raise. by apply does_ret.
Qed.

Lemma does_forbid r : does r forbid_call_on_view dzero (fun _ => cr_type r = PUBLIC).
Proof.
  eapply does_seq; [apply does_record|]. intros a ->. destruct (cr_type r); [by apply does_ret|apply does_raise].
Qed.

Lemma does_assert_updates r call : does r (assert_updates call) dzero (fun _ => True).
Proof.
  eapply does_seq; [apply does_get_call_info|]. intros ci _. eapply does_weaken; [|apply does_assert]. done.
Qed.

Lemma does_initialized r c : does r (has_contract_been_initialized c) dzero (fun _ => True).
Proof.
  apply does_read; [|done]. intros s. unfold has_contract_been_initialized. by destruct (od_get (_storages s) c).
Qed.

Lemma does_read_layers {A} r c ls (f : reader A) : does r (read_layers sha256 c ls f) dzero (fun _ => True).
Proof. apply does_read; [|done]. intros s. unfold read_layers. by destruct (storage_of s c). Qed.

(** ** Opening storages *)

Lemma opened_refl (s : St) : opened s s.
Proof. by repeat split. Qed.

Lemma opened_trans (s1 s2 s3 : St) : opened s1 s2 -> opened s2 s3 -> opened s1 s3.
Proof. intros (E1&E2&E3&E4&E5&E6&E7) (F1&F2&F3&F4&F5&F6&F7). repeat split; try congruence. eauto. Qed.

Lemma block_get_trie_trie root_id (b : block_storage DB) : _block_trie (block_get_trie sha256 root_id b).2 = _block_trie b.
Proof. unfold block_get_trie. by destruct (trie_init sha256 root_id (b_db b)). Qed.

Lemma get_contract_storage_trie c (b : block_storage DB) : _block_trie (get_contract_storage sha256 c b).2 = _block_trie b.
Proof.
  unfold get_contract_storage, bind.
  destruct (get_contract_root_id b c) as [i|e]; [|by destruct e].
  pose proof (block_get_trie_trie (Some i) b) as H. destruct (block_get_trie sha256 (Some i) b) as [[tr|e] b']; [done|].
  by destruct e.
Qed.

Lemma get_storage_opened c (s : St) : opened s (get_storage sha256 c s).2.
Proof.
  unfold get_storage. destruct (od_get (_storages s) c) eqn:E; [apply opened_refl|].
  pose proof (get_contract_storage_trie c (r_block s)) as H.
  destruct (get_contract_storage sha256 c (r_block s)) as [[x|e] b]; repeat split; try done.
  simpl. intros c' x' Hx. rewrite od_get_set_ne; [done|]. congruence.
Qed.

Lemma read_or_storage_opened {A} c (f : reader A) (s : St) : opened s (read_tracker_or_storage sha256 c f s).2.
Proof.
  unfold read_tracker_or_storage. destruct (trackers_of s c) as [[|l ls]|].
  - apply opened_refl.
  - unfold read_layers. destruct (storage_of s c); apply opened_refl.
  - pose proof (get_storage_opened c s) as H. unfold bind. destruct (get_storage sha256 c s) as [[[]|e] s1]; [|done].
    unfold read_layers. by destruct (storage_of s1 c).
Qed.

Lemma does_opened {A} r (m : M St A) : (forall s, opened s (m s).2) -> does r m dzero (fun _ => True).
Proof.
  intros H s a s' _ E. specialize (H s). rewrite E in H. split; [|done]. by apply code_step, step_open.
Qed.

Lemma does_read_or_storage {A} r c (f : reader A) : does r (read_tracker_or_storage sha256 c f) dzero (fun _ => True).
Proof. apply does_opened. intros s. apply read_or_storage_opened. Qed.

Lemma does_blueprint_id r c : does r (get_blueprint_id sha256 c) dzero (fun _ => True).
Proof. apply does_read_or_storage. Qed.

Lemma does_code_blueprint_id r : does r get_current_code_blueprint_id dzero (fun _ => True).
Proof. eapply does_seq; [apply does_record|]. intros a _. by apply does_ret. Qed.

Lemma does_executor r : does r (fun s => (Ok tt, set_executor s)) dzero (fun _ => True).
Proof. apply does_opened. intros s. by repeat split. Qed.

(** ** Changing the tracker of the running call *)

Lemma od_set_same {K A} `{EqDecision K} (d : list (K * A)) k v : od_get d k = Some v -> od_set d k v = d.
Proof.
  induction d as [|[j w] d IH]; simpl; [done|]. destruct (bool_decide_reflect (j = k)) as [->|N].
  - by intros [= ->].
  - intros H. by rewrite IH.
Qed.

(** writing back a storage that did not change *)
Lemma put_storage_same c c0 (s : St) : storage_of s c = Some c0 -> put_storage s c c0 = s.
Proof.
  unfold storage_of, put_storage. destruct (od_get (_storages s) c) as [[tr locked]|] eqn:E; [|done].
  intros [= <-]. simpl. rewrite od_set_same by done. by destruct s.
Qed.

Lemma on_tracker_layer {A} c (m : writer A) d (s : St) a s' : top_writer m d ->
  on_tracker sha256 c m s = (Ok a, s') -> layer_write c d s s'.
Proof.
  intros Hm (l & ls & c0 & r & c1 & ls1 & Et & Es & Ew & -> & ->)%on_tracker_ok.
  unfold write_at in Ew. destruct (m _ _ (over l (stack_up c0 ls))) as [r t] eqn:E. inj Ew.
  apply Hm in E as [Hs Hl]. rewrite layer_of_over in Hl. rewrite Hs. simpl. rewrite base_stack_up, layers_stack_up.
  rewrite (put_storage_same c c0 s Es). by exists l, (layer_of t), ls.
Qed.

Lemma does_on_tracker {A} r (m : writer A) d : top_writer m d ->
  does r (on_tracker sha256 (cr_contract_id r) m) d (fun _ => True).
Proof.
  intros Hm s a s' Hc E. split; [|done]. eapply code_step, step_layer; [done|]. by eapply on_tracker_layer.
Qed.

Lemma does_on_current {A} r (m : writer A) d : top_writer m d -> does r (on_current sha256 m) d (fun _ => True).
Proof.
  intros Hm. unfold on_current. eapply does_eq; [|eapply does_bind; [apply does_current_tracker|]].
  2: { intros [c ls] E. simpl in E. subst c. by apply does_on_tracker. }
  intros u. unfold dplus, dzero. lia.
Qed.

(** ** Records, events and fees *)

Lemma does_append r record : cr_type r = PUBLIC -> record_amount record = None ->
  does r (append_update r record) dzero (fun _ => True).
Proof. intros Hp Hr s [] s' Hc E. split; [|done]. by eapply code_step, step_record. Qed.

Lemma does_update_amount r record : cr_type r = PUBLIC ->
  does r (update_amount sha256 r record) dzero (fun _ => True).
Proof.
  intros Hp. unfold update_amount. destruct (record_amount record) as [[u n]|] eqn:Hr; [|apply does_raise].
  intros s [] s' Hc E. split; [|done]. inv_ok E. inv_ok E. inj Hm0.
  eapply code_step, step_update; [done..| |exact E]. eapply on_tracker_layer; [|exact Hm]. apply top_add_balance.
Qed.

Lemma does_update_tokens r records : cr_type r = PUBLIC ->
  does r (_update_tokens_amount sha256 records) dzero (fun _ => True).
Proof.
  intros Hp. eapply does_seq; [apply does_record|]. intros a ->. eapply does_seq; [apply does_current_tracker|]. intros p _.
  eapply does_seq; [apply does_assert|]. intros _ _. eapply does_seq; [apply does_assert_updates|]. intros _ _.
  apply does_for_each0. intros x _. by apply does_update_amount.
Qed.

Lemma does_event r data : cr_type r = PUBLIC -> does r (on_call_info (emit_event data)) dzero (fun _ => True).
Proof. intros Hp s [] s' Hc E. split; [|done]. by eapply code_step, step_event. Qed.

Lemma does_paid_fee r u n : cr_type r = PUBLIC -> does r (_register_paid_fee u n) dzero (fun _ => True).
Proof. intros Hp s [] s' Hc E. inj E. split; [|done]. by eapply code_step, (step_fee sha256 r u n). Qed.

Lemma does_metered {A} r (m : M St A) d Q : does r m d Q -> does r (metered_call m) d Q.
Proof.
  intros H s a s' Hc E. apply (H s); [done|]. revert E. unfold metered_call. destruct (m s) as [[x|e] s1]; [done|].
  by destruct (_ || _).
Qed.
End does.

Create HintDb does.
#[export] Hint Resolve does_record does_contract_id does_current_tracker does_forbid does_assert_updates
  does_initialized does_read_layers does_read_or_storage does_blueprint_id does_code_blueprint_id does_executor
  does_lift does_assert does_raise does_get_call_info : does.
#[export] Hint Resolve top_put_obj top_del_obj top_create_token top_set_blueprint top_authorities top_reader : does.

(** a chain of commands that leave the balances as they are *)
Ltac does_step :=
  lazymatch goal with
  | |- does _ _ (bind _ _) dzero _ => eapply does_seq; [solve [eauto with does]|intros ? ?; cbv beta in *; subst]
  | |- does _ _ (ret _) dzero _ => by apply does_ret
  | |- does _ _ (raise _) _ _ => apply does_raise
  | |- does _ _ (if ?b then _ else _) _ _ => destruct b eqn:?
  | |- does _ _ (match ?x with _ => _ end) _ _ => destruct x eqn:?
  end.

Section syscalls.
Variable sha256 : bytes -> bytes.
Context {DB : Type} `{!NodeTrieStore DB}.
Context {CR : Crypto} {SS : ScriptSettings} {TS : TxSettings} {VSet : VerifierSettings} {UC : Unicode}.
Context {VS : VertexStorage} {SM : StaticStore} {NS : NodeState} {BP : Blueprints}.

Abbreviation St := (Runner DB).
Abbreviation does := (does sha256 (DB := DB)).

Definition anything {A} (a : A) : Prop := True.

Lemma does_any {A} r (m : M St A) d Q : does r m d Q -> does r m d anything.
Proof. by apply does_weaken. Qed.

Lemma does_balance r c u before : does r (_get_balance sha256 c u before) dzero anything.
Proof.
  unfold _get_balance. eapply (does_seq sha256 r _ _ anything).
  - intros s a s' Hc E. destruct (_call_info s) as [ci|] eqn:Eci; [|inj E; split; [apply code_refl|done]].
    pose proof (does_contract_id sha256 r) as H.
    assert (does r (let! c0 := get_current_contract_id in ret (bool_decide (c = c0))) dzero anything) as H2.
    { eapply does_seq; [apply H|]. intros c0 _. by apply does_ret. }
    by apply (H2 s).
  - intros b _. destruct b.
    + eapply does_seq; [apply does_current_tracker|]. intros [c' ls] _. apply does_read_layers.
    + eapply does_seq; [apply does_assert|]. intros _ _. apply does_read_or_storage.
Qed.

Lemma does_token r u : does r (_get_token sha256 u) dzero anything.
Proof.
  unfold _get_token. does_step. eapply does_seq; [apply does_current_tracker|]. intros [c ls] _.
  eapply does_seq; [apply does_read_layers|]. intros found _. destruct found; [apply does_read_layers|].
  case_bool_decide; [by apply does_ret|]. eapply does_seq; [apply does_lift|]. intros tx _.
  destruct (first_block (get_metadata tx)); [by apply does_ret|apply does_raise].
Qed.

#[local] Hint Resolve does_balance does_token : does.

Lemma does_create_token r v u n payment symbol name : cr_type r = PUBLIC ->
  does r (_create_token sha256 v u n payment symbol name) dzero anything.
Proof. intros Hp. unfold _create_token. repeat does_step. by apply does_update_tokens. Qed.

Lemma does_create_child_token r v salt name symbol n mint melt p :
  does r (create_child_token sha256 v salt name symbol n mint melt p) dzero anything.
Proof.
  unfold create_child_token. eapply does_seq; [apply does_forbid|]. intros ? Hp. simpl in Hp.
  do 4 does_step. eapply does_seq; [apply does_on_current, top_create_token|]. intros _ _.
  eapply does_seq; [apply does_on_current, top_authorities|]. intros _ _.
  does_step. eapply does_seq; [by apply does_create_token|]. intros _ _. by apply does_ret.
Qed.

Lemma top_tracker_balance u : top_writer (tracker_balance u) dzero.
Proof. apply top_reader. Qed.

Lemma post_init_amount x y : record_post_init x = Ok y -> record_amount y = record_amount x.
Proof. destruct x; simpl; try (by intros [= <-]); case_match; [by intros [= <-]|done|by intros [= <-]|done]. Qed.

Lemma does_revoke r u mint melt : does r (syscall_revoke_authorities sha256 u mint melt) dzero anything.
Proof.
  unfold syscall_revoke_authorities. eapply does_seq; [apply does_forbid|]. intros ? Hp. simpl in Hp. do 2 does_step.
  eapply does_seq; [apply does_on_current, top_tracker_balance|]. intros b _. do 2 does_step.
  eapply does_seq; [apply does_on_current, top_authorities|]. intros _ _. does_step.
  eapply does_seq; [apply does_lift|]. intros record Hr. apply does_append; [done|].
  by apply post_init_amount in Hr.
Qed.

Lemma does_mint r u n p : does r (syscall_mint_tokens sha256 u n p) dzero anything.
Proof.
  unfold syscall_mint_tokens. eapply does_seq; [apply does_forbid|]. intros ? Hp. simpl in Hp. do 3 does_step.
  eapply does_seq; [apply does_on_current, top_tracker_balance|]. intros b _. do 5 does_step.
  by apply does_update_tokens.
Qed.

Lemma does_melt r u n p : does r (syscall_melt_tokens sha256 u n p) dzero anything.
Proof.
  unfold syscall_melt_tokens. eapply does_seq; [apply does_forbid|]. intros ? Hp. simpl in Hp. do 3 does_step.
  eapply does_seq; [apply does_on_current, top_tracker_balance|]. intros b _. do 6 does_step.
  by apply does_update_tokens.
Qed.

Lemma does_emit r data : does r (syscall_emit_event data) dzero anything.
Proof. eapply does_seq; [apply does_forbid|]. intros ? Hp. simpl in Hp. by apply does_event. Qed.

Lemma does_change_blueprint r b : does r (syscall_change_blueprint sha256 b) dzero anything.
Proof. unfold syscall_change_blueprint. do 4 does_step. apply does_on_current, top_set_blueprint. Qed.

Lemma does_msum {A} r (f : A -> M St Z) l : (forall x, does r (f x) dzero anything) ->
  forall acc, does r (msum f l acc) dzero anything.
Proof.
  intros H. induction l as [|x l IH]; intros acc; simpl; [by apply does_ret|].
  eapply does_seq; [apply H|]. intros n _. apply IH.
Qed.

Lemma does_actions_fees r actions fees : does r (_validate_actions_fees sha256 actions fees) dzero anything.
Proof.
  unfold _validate_actions_fees. eapply (does_seq sha256 r _ _ anything); [by apply does_read|]. intros paid _.
  eapply does_seq; [apply does_for_each0; intros u _; does_step; eapply does_any, does_lift|]. intros _ _.
  eapply does_seq; [apply does_msum; intros fee; does_step; eapply does_any, does_lift|]. intros fee_sum _.
  eapply does_seq; [apply does_msum|intros; eapply does_any, does_lift].
  intros e s a s' Hc E. unfold expected_fee_of in E. destruct (od_get (_paid_actions_fees s) (fst e)).
  - inj E. split; [apply code_refl|done].
  - assert (does r (let! token_info := _get_token sha256 (fst e) in
      ret (if bool_decide (td_token_version token_info = FEE)
           then Z.of_nat (length (List.filter is_chargeable (snd e))) else 0)) dzero anything) as H.
    { eapply does_seq; [apply does_token|]. intros t _. by apply does_ret. }
    by apply (H s).
Qed.

Lemma does_validate r c ids : does r (validate_blueprint_id sha256 c ids) dzero anything.
Proof.
  unfold validate_blueprint_id. destruct ids; [|by apply does_ret].
  eapply does_seq; [apply does_blueprint_id|]. intros b _. eapply does_any, does_lift.
Qed.

Lemma validate_same {B} r c ids (k : M St B) d Q : does r k d Q -> does r (validate_blueprint_id sha256 c ids ;;; k) d Q.
Proof.
  intros H. eapply does_eq; [|eapply does_bind; [apply does_validate|by intros]].
  intros u. unfold dplus, dzero. lia.
Qed.

(** a new contract's storage is added to those that are open *)
Lemma internal_create_opened c b (s : St) a s' : _internal_create_contract sha256 c b s = (Ok a, s') -> opened s s'.
Proof.
  unfold _internal_create_contract. intros H. inv_ok H. unfold has_contract_been_initialized in Hm.
  destruct (od_get (_storages s) c) as [x|] eqn:Ec; inj Hm.
  - inv_ok H. by apply assert_same in Hm as [_ ?].
  - inv_ok H. apply assert_same in Hm as [-> _]. unfold get_empty_contract_storage in H.
    pose proof (block_get_trie_trie sha256 None (r_block s0)) as Ht.
    destruct (block_get_trie sha256 None (r_block s0)) as [[tr|e] b1]; [|by inversion H]. simpl in H, Ht.
    unfold cs_set_blueprint_id, cs_check_if_locked, bind, _put_metadata, _trie_update, lift in H. simpl in H.
    destruct (_serialize _ _) as [content|e]; [|by inversion H]. unfold bind in H. simpl in H.
    destruct (update sha256 (b_db b1) _ content tr) as [[[]|e] tr']; inj H. repeat split; try done.
    simpl. intros c' x' Hx. rewrite od_get_set_ne; [done|]. congruence.
Qed.

(** ** Calls *)

(** what a level of calls does, with any call running *)
Definition calls_ok (C : Calls (DB := DB)) : Prop :=
  (forall r c b name ctx args skip forbid, cr_type r = PUBLIC ->
     does r (do_public C c b name ctx args skip forbid) (dsum (map action_delta (all_actions ctx))) anything) /\
  (forall r c b name args kwargs, does r (do_view C c b name args kwargs) dzero anything).

Section calls.
Context (C : Calls (DB := DB)) (HC : calls_ok C).

(** the caller loses what the callee receives *)
Lemma actions_cancel (actions : list NCAction) u :
  dsum (map (fun a => dneg (action_delta a)) actions) u
  + dsum (map action_delta (concat (map snd (group_actions actions)))) u = 0.
Proof.
  rewrite (dsum_perm action_delta _ _ u (group_actions_perm actions)).
  induction actions as [|a actions IH]; [done|]. unfold dsum in *. simpl. unfold dneg at 1. lia.
Qed.

Lemma does_unsafe_public r c b name actions fees args skip forbid :
  does r (_unsafe_call_another_contract_public_method sha256 C c b name actions fees args skip forbid) dzero anything.
Proof.
  unfold _unsafe_call_another_contract_public_method. does_step. does_step.
  eapply does_seq; [apply does_lift|]. intros ? Hv. cbv beta in Hv.
  assert (Hp : cr_type r = PUBLIC) by (destruct (cr_type r); [done|by rewrite bool_decide_eq_true_2 in Hv]).
  do 2 does_step. eapply (does_seq sha256 r _ _ anything).
  { destruct (last (stack a)); [|apply does_raise]. destruct (cr_ctx _); [by apply does_ret|apply does_raise]. }
  intros first_ctx _. eapply does_eq; [apply actions_cancel|]. eapply does_bind.
  { apply does_for_each. intros x _. apply does_on_tracker, top_caller_rule. }
  intros _ _. eapply does_eq; [|eapply (does_bind sha256 r _ _ dzero)].
  - intros u. unfold dplus at 1, dzero. apply Z.add_0_l.
  - apply does_for_each0. intros f _. does_step. eapply does_seq; [by apply does_update_tokens|]. intros _ _.
    by apply does_paid_fee.
  - intros _ _. eapply does_eq; [|eapply (does_bind sha256 r _ _ dzero); [eapply does_any, does_lift|]].
    { intros u. unfold dplus, dzero. apply Z.add_0_l. }
    intros block _. eapply does_eq; [|eapply does_bind; [by apply (proj1 HC)|]].
    { intros u. unfold dplus. apply Z.add_0_r. }
    intros result _. eapply does_seq; [apply does_actions_fees|]. intros _ _. by apply does_ret.
Qed.

Lemma does_syscall_public r c name actions fees args kwargs forbid :
  does r (syscall_call_another_contract_public_method sha256 C c name actions fees args kwargs forbid) dzero anything.
Proof. unfold syscall_call_another_contract_public_method. do 7 does_step. apply does_unsafe_public. Qed.

Lemma does_proxy_view r b name args kwargs : does r (syscall_proxy_call_view_method sha256 C b name args kwargs) dzero anything.
Proof. unfold syscall_proxy_call_view_method. do 6 does_step. apply HC. Qed.

Lemma does_proxy_public r b name actions fees args forbid :
  does r (syscall_proxy_call_public_method sha256 C b name actions fees args forbid) dzero anything.
Proof. unfold syscall_proxy_call_public_method. do 7 does_step. apply does_unsafe_public. Qed.

Lemma does_syscall_view r c name args kwargs :
  does r (syscall_call_another_contract_view_method sha256 C c name args kwargs) dzero anything.
Proof. unfold syscall_call_another_contract_view_method. do 4 does_step. apply HC. Qed.

Lemma does_create_contract r b salt actions fees args kwargs :
  does r (syscall_create_another_contract sha256 C b salt actions fees args kwargs) dzero anything.
Proof.
  unfold syscall_create_another_contract. eapply does_seq; [apply does_forbid|]. intros ? Hp. simpl in Hp.
  do 4 does_step. eapply (does_seq sha256 r _ _ anything).
  { intros s x s' _ E. split; [|done]. apply code_step, step_open. by eapply internal_create_opened. }
  intros _ _. eapply does_seq; [apply does_unsafe_public|]. intros v _.
  eapply does_seq; [by apply does_append|]. intros _ _. by apply does_ret.
Qed.

Lemma run_syscall_code r op : does r (run_syscall sha256 C op) dzero anything.
Proof.
  destruct op as [| | |c|u|c u|key t d|key t v|key|key|u mint melt|u n p|u n p|salt name symbol n mint melt
    |salt name symbol n mint melt p|d|b|c ids name actions fees args kwargs forbid|c ids name args kwargs
    |b name actions fees args forbid|b name args kwargs|b salt actions fees args kwargs]; simpl.
  - eapply does_any, does_contract_id.
  - does_step. apply does_blueprint_id.
  - apply does_code_blueprint_id.
  - apply does_blueprint_id.
  - does_step. apply does_balance.
  - destruct c; [apply does_balance|]. does_step. apply does_balance.
  - apply does_on_current, top_reader.
  - apply does_on_current, top_put_obj.
  - apply does_on_current, top_del_obj.
  - apply does_on_current, top_reader.
  - apply does_revoke.
  - apply does_mint.
  - apply does_melt.
  - apply does_create_child_token.
  - apply does_create_child_token.
  - apply does_emit.
  - apply does_change_blueprint.
  - apply validate_same, does_syscall_public.
  - apply validate_same, does_syscall_view.
  - apply does_proxy_public.
  - apply does_proxy_view.
  - apply does_create_contract.
Qed.

Lemma run_prog_code r p : does r (run_prog sha256 C p) dzero anything.
Proof.
  induction p as [v|e|op k IH]; simpl; [by apply does_ret|apply does_raise|].
  eapply does_seq; [apply run_syscall_code|]. intros a _. apply IH.
Qed.

(** ** A method call: the callee's tracker is pushed, its code runs, it is popped *)

Lemma handle_index_code r a : cr_type r = PUBLIC -> does r (_handle_index_update a) dzero anything.
Proof.
  intros Hp. unfold _handle_index_update. do 2 does_step. destruct a; [by apply does_ret..| |];
    (eapply does_seq; [apply does_lift|]; intros record Hr; apply does_append; [done|]; by apply post_init_amount in Hr).
Qed.

Lemma fields_code r bp : does r (_check_all_field_initialized sha256 bp) dzero anything.
Proof.
  unfold _check_all_field_initialized. eapply does_seq; [apply does_current_tracker|]. intros [c ls] _.
  eapply (does_seq sha256 r _ _ anything); [|intros; eapply does_any, does_lift].
  induction (fields bp) as [|f fs IH]; [by apply does_ret|]. eapply does_seq; [apply does_read_layers|]. intros i _.
  eapply does_seq; [apply IH|]. intros b _. by apply does_ret.
Qed.

(** reading the call or checking that there is one leaves the state alone *)
Lemma get_call_info_ok (s : St) ci s' : get_call_info s = (Ok ci, s') -> s' = s /\ _call_info s = Some ci.
Proof. unfold get_call_info. destruct (_call_info s); intros F; inj F. done. Qed.

Lemma lift_ok {A} (x : result A) (s : St) a s' : lift x s = (Ok a, s') -> s' = s /\ x = Ok a.
Proof. intros F. by inj F. Qed.

Lemma reentrancy_ok (skip : bool) c method (s : St) a s' :
  (if skip then ret tt else _validate_reentrancy c method) s = (Ok a, s') -> s' = s.
Proof.
  destruct skip; [intros F; by inj F|]. unfold _validate_reentrancy. intros F. inv_ok F.
  apply get_call_info_ok in Hm as [-> _]. destruct (allow_reentrancy method); by inj F.
Qed.

Lemma create_tracker_opened c (s : St) a s' : _create_changes_tracker sha256 c s = (Ok a, s') -> opened s s'.
Proof.
  intros E. pose proof (read_or_storage_opened sha256 c (fun _ _ _ => Ok tt) s) as Ho.
  unfold _create_changes_tracker in E. by rewrite E in Ho.
Qed.

Lemma pre_call_cur r (s : St) a s' : on_call_info (pre_call r) s = (Ok a, s') -> cur r s'.
Proof. intros (l & _ & ?)%stack_pre_call. apply cur_stack. by exists l. Qed.

Lemma callee_actions_code r actions : cr_type r = PUBLIC ->
  does r (for_each actions (fun a =>
    on_tracker sha256 (cr_contract_id r) (nc_callee_execution_rule a) ;;; _handle_index_update a))
    (dsum (map action_delta actions)) anything.
Proof.
  intros Hp. apply does_for_each. intros a _. eapply does_eq; [|eapply does_bind].
  - intros u. apply Z.add_0_r.
  - apply does_on_tracker, top_callee_rule.
  - intros _ _. by apply handle_index_code.
Qed.

Lemma execute_public_shape c b name ctx args skip forbid s v s' :
  _execute_public_method_call sha256 C c b name ctx args skip forbid s = (Ok v, s') ->
  exists s0 ci called_name called_args s1 s2,
    let r := new_record PUBLIC c b called_name (Some ctx) called_args ci in
    opened s s0 /\ _call_info s0 = Some ci /\ on_call_info (pre_call r) s0 = (Ok tt, s1) /\
    code sha256 (dsum (map action_delta (all_actions ctx))) s1 s2 /\ leave_public sha256 r s2 = (Ok tt, s').
Proof.
  unfold _execute_public_method_call. intros H.
  apply bind_ok_inv in H as (? & ? & F & H). inj F.
  apply bind_ok_inv in H as (? & ? & [-> _]%get_call_info_ok & H).
  apply bind_ok_inv in H as (? & ? & [-> _]%lift_ok & H).
  apply bind_ok_inv in H as (? & s0 & Ho%create_tracker_opened & H).
  apply bind_ok_inv in H as (bp & ? & [-> _]%lift_ok & H).
  apply bind_ok_inv in H as ([[[called method] rt] cargs] & ? & [-> _]%lift_ok & H).
  apply bind_ok_inv in H as (? & ? & ->%reentrancy_ok & H).
  apply bind_ok_inv in H as (ci & ? & [-> Eci]%get_call_info_ok & H).
  set (r := new_record PUBLIC c b called (Some ctx) cargs ci) in *.
  apply bind_ok_inv in H as ([] & s1 & Hpre & H). pose proof (pre_call_cur _ _ _ _ Hpre) as Hcur.
  apply bind_ok_inv in H as (? & ? & [-> _]%lift_ok & H).
  apply bind_ok_inv in H as (? & s2 & Hact & H).
  apply (callee_actions_code r (all_actions ctx) eq_refl) in Hact as [C1 _]; [|done].
  apply bind_ok_inv in H as (? & ? & [-> _]%lift_ok & H).
  apply bind_ok_inv in H as (result & s3 & Hrun & H).
  apply (does_metered sha256 r _ _ _ (run_prog_code r _)) in Hrun as [C2 _]; [|by eapply code_cur].
  apply bind_ok_inv in H as (? & s4 & Hf & H).
  assert (does r (if bool_decide (name = NC_INITIALIZE_METHOD) then _check_all_field_initialized sha256 bp else ret tt)
    dzero anything) as Hfields by (destruct (bool_decide _); [apply fields_code|by apply does_ret]).
  apply Hfields in Hf as [C3 _]; [|by do 2 (eapply code_cur; [done|])].
  exists s0, ci, called, cargs, s1, s4. do 3 (split; [done|]). split.
  - eapply code_eq; [|exact (code_app _ _ _ _ _ _ C1 (code_app _ _ _ _ _ _ C2 C3))]. intros u. unfold dplus, dzero. lia.
  - unfold leave_public. change (cr_contract_id r) with c.
    apply bind_ok_inv in H as (n & s5 & Hn & H). rewrite (bind_ok _ _ _ _ _ Hn).
    apply bind_ok_inv in H as (? & s6 & Hc & H). rewrite (bind_ok _ _ _ _ _ Hc).
    by apply bind_ok_inv in H as ([] & ? & Hpost & [-> _]%lift_ok).
Qed.

Lemma execute_view_shape c b name args kwargs s v s' :
  _unsafe_call_view_method sha256 C c b name args kwargs s = (Ok v, s') ->
  exists s0 ci called_args s1 s2,
    let r := new_record VIEW c b name None called_args ci in
    opened s s0 /\ _call_info s0 = Some ci /\ on_call_info (pre_call r) s0 = (Ok tt, s1) /\
    code sha256 dzero s1 s2 /\ leave_view sha256 r s2 = (Ok tt, s').
Proof.
  unfold _unsafe_call_view_method. intros H.
  apply bind_ok_inv in H as (? & ? & [-> _]%get_call_info_ok & H).
  apply bind_ok_inv in H as (? & si & F & H).
  assert (si = s) as ->.
  { unfold has_contract_been_initialized in F. destruct (od_get (_storages s) c); by inj F. }
  clear F.
  apply bind_ok_inv in H as (? & ? & [-> _]%lift_ok & H).
  apply bind_ok_inv in H as (? & sx & Fx & H).
  assert (Hx : opened s sx) by (inj Fx; by repeat split). clear Fx.
  apply bind_ok_inv in H as (? & s0 & Ho%create_tracker_opened & H).
  apply (opened_trans _ _ _ Hx) in Ho.
  apply bind_ok_inv in H as (bp & ? & [-> _]%lift_ok & H).
  destruct (get_attr bp name) as [method|]; [|by inversion H].
  apply bind_ok_inv in H as (? & ? & [-> _]%lift_ok & H).
  apply bind_ok_inv in H as (parser & ? & [-> _]%lift_ok & H).
  apply bind_ok_inv in H as (cargs & ? & [-> _]%lift_ok & H).
  apply bind_ok_inv in H as (ci & ? & [-> Eci]%get_call_info_ok & H).
  set (r := new_record VIEW c b name None (ViewArgs cargs) ci) in *.
  apply bind_ok_inv in H as ([] & s1 & Hpre & H). pose proof (pre_call_cur _ _ _ _ Hpre) as Hcur.
  apply bind_ok_inv in H as (result & s2 & Hrun & H).
  apply (does_metered sha256 r _ _ _ (run_prog_code r _)) in Hrun as [C1 _]; [|done].
  exists s0, ci, (ViewArgs cargs), s1, s2. do 4 (split; [done|]). unfold leave_view. change (cr_contract_id r) with c.
  apply bind_ok_inv in H as (e & s5 & He & H). rewrite (bind_ok _ _ _ _ _ He).
  apply bind_ok_inv in H as (? & s6 & Hr & H). rewrite (bind_ok _ _ _ _ _ Hr).
  by apply bind_ok_inv in H as ([] & ? & Hpost & [-> _]%lift_ok).
Qed.

Lemma opened_cur r (s s' : St) : opened s s' -> cur r s -> cur r s'.
Proof. intros (E & _) (ci & rest & Ec & Es). exists ci, rest. by rewrite E. Qed.

Lemma calls_step : calls_ok (mkCalls (_execute_public_method_call sha256 C) (_unsafe_call_view_method sha256 C)).
Proof.
  split; simpl.
  - intros r c b name ctx args skip forbid Hp s v s' Hc H.
    apply execute_public_shape in H as (s0 & ci & cn & ca & s1 & s2 & Ho & Eci & Hpre & Hcode & Hl). split; [|done].
    econstructor; [by apply step_open|apply code_step; eapply step_public; try done; by eapply opened_cur|].
    intros u. unfold dzero. lia.
  - intros r c b name args kwargs s v s' Hc H.
    apply execute_view_shape in H as (s0 & ci & ca & s1 & s2 & Ho & Eci & Hpre & Hcode & Hl). split; [|done].
    econstructor; [by apply step_open|apply code_step; eapply step_view; try done; by eapply opened_cur|].
    intros u. unfold dzero. lia.
Qed.
End calls.

Lemma calls_at_ok n : calls_ok (calls_at sha256 n).
Proof.
  induction n as [|n IH]; [|by apply calls_step]. split; intros; apply does_raise.
Qed.
End syscalls.
