(* ===== verification/RunnerBalance.v ===== *)
(** How a call ends, and the balances of an execution: what is left of the callee's
    tracker, and that what all trackers hold for a token changes only by what the context
    brings in and by what the records of the calls say. *)

From stdpp Require Import base list gmap strings.
From Stdlib Require Import ZArith Lia.
From S2P Require Import Prelude PyInt PyValue NCTypes PatriciaTrie BlockStorage ContractStorage.
From S2P Require Import StorageInterface ContractStorageTheory ChangesTracker ScriptCode ScriptVM TxStruct TokenInfo.
From S2P Require Import StaticMetadata Metadata TxVerifier BlockVerifier NCContext RunnerState Runner RunnerSteps.
From S2P Require Import RunnerRefine.

Local Open Scope Z_scope.
Local Open Scope py_scope.

(** * The commit of a tracker to the one below it *)

Lemma layer_step_trans d1 d2 l1 l2 l3 : layer_step d1 l1 l2 -> layer_step d2 l2 l3 -> layer_step (dplus d1 d2) l1 l3.
Proof.
  intros (A1&A2&A3&A4) (B1&B2&B3&B4). repeat split; try congruence. intros u. unfold dplus. rewrite B4, A4. lia.
Qed.

Lemma top_ret {A} (a : A) : top_writer (fun S _ => ret a) dzero.
Proof. intros S ops t x t' H. inj H. split; [done|]. apply layer_step_refl. Qed.

Lemma top_bind {A B} (m : writer A) (f : A -> writer B) d1 d2 :
  top_writer m d1 -> (forall a, top_writer (f a) d2) ->
  top_writer (fun S ops => let! a := m S ops in f a S ops) (dplus d1 d2).
Proof.
  intros Hm Hf S ops t b t' H. inv_ok H. apply Hm in Hm0 as [E1 L1]. apply Hf in H as [E2 L2].
  split; [congruence|]. by eapply layer_step_trans.
Qed.

Lemma top_for_each {A} (l : list A) (f : A -> writer unit) (g : A -> delta) :
  (forall x, top_writer (f x) (g x)) ->
  top_writer (fun S ops => for_each l (fun x => f x S ops)) (dsum (map g l)).
Proof.
  intros H. induction l as [|x l IH]; simpl; [apply top_ret|].
  apply (top_bind (f x) (fun _ S ops => for_each l (fun x => f x S ops))); [done|]. by intros _.
Qed.

Lemma top_eq {A} (m : writer A) d e : (forall u, d u = e u) -> top_writer m d -> top_writer m e.
Proof. intros E H S ops t a t' Hm. apply H in Hm as [? ?]. split; [done|]. by eapply layer_step_eq. Qed.

Lemma top_seq0 {A B} (m : writer A) (f : A -> writer B) d :
  top_writer m dzero -> (forall a, top_writer (f a) d) -> top_writer (fun S ops => let! a := m S ops in f a S ops) d.
Proof. intros H1 H2. eapply top_eq; [|by apply top_bind]. done. Qed.

Lemma top_for_each0 {A} (l : list A) (f : A -> writer unit) :
  (forall x, top_writer (f x) dzero) -> top_writer (fun S ops => for_each l (fun x => f x S ops)) dzero.
Proof. intros H. eapply top_eq; [|by apply (top_for_each l f (fun _ => dzero))]. intros u. apply dsum_zero. Qed.

Lemma diff_sum_dsum (l : list (TrieKey * Z)) u :
  dsum (map (fun item => dsingle (attr_name (fst item)) (snd item)) l) u = diff_sum u l.
Proof. unfold dsum, diff_sum, dsingle. induction l as [|x l IH]; simpl; [done|]. by rewrite IH. Qed.


Definition commit_to {S0} (t : tracker S0) : writer unit := fun S _ =>
  commit_data (S := tracker S) (data t) ;;;
  commit_balances (S := tracker S) (_balance_diff t) ;;;
  commit_authorities (S := tracker S) (_authorities_diff t) ;;;
  commit_tokens (S := tracker S) (_created_tokens t) ;;;
  match _blueprint_id t with None => ret tt | Some b => tr_set_blueprint_id b end.

Lemma top_commit_to {S0} (t : tracker S0) : top_writer (commit_to t) (fun u => diff_sum u (_balance_diff t)).
Proof.
  unfold commit_to. apply (top_seq0 (fun S _ => commit_data (S := tracker S) (data t))).
  { apply (top_for_each0 _ (fun item S _ => _)). intros [k [obj ty]]. destruct (MaybeDeletedNCType.is_DeletedKey obj); [apply top_del_obj|].
    destruct ty; [apply top_put_obj|]. by intros S ops t0 a t'. }
  intros _. eapply (top_eq _ (dplus _ dzero)).
  2: apply (top_bind (fun S _ => commit_balances (S := tracker S) (_balance_diff t))).
  2: { apply (top_for_each _ (fun item S _ => tr_add_balance (attr_name (fst item)) (snd item))). intros item. apply top_add_balance. }
  { intros u. unfold dplus. rewrite diff_sum_dsum. unfold dzero. lia. }
  intros _. apply (top_seq0 (fun S _ => commit_authorities (S := tracker S) (_authorities_diff t))).
  { apply (top_for_each0 _ (fun item S _ => _)). intros item.
    apply (top_seq0 (fun S _ => tr_grant_authorities _ _ _)); [apply top_authorities|]. intros _. apply top_authorities. }
  intros _. apply (top_seq0 (fun S _ => commit_tokens (S := tracker S) (_created_tokens t))).
  { apply (top_for_each0 _ (fun item S _ => _)). intros item. apply top_create_token. }
  intros _. destruct (_blueprint_id t); [apply top_set_blueprint|apply top_ret].
Qed.

(** * The end of a call *)

Lemma od_set_set {K A} `{EqDecision K} (d : list (K * A)) k v w : od_set (od_set d k v) k w = od_set d k w.
Proof.
  induction d as [|[j x] d IH]; simpl; [by rewrite bool_decide_eq_true_2|].
  destruct (bool_decide_reflect (j = k)) as [->|N]; simpl; [by rewrite bool_decide_eq_true_2|].
  by rewrite bool_decide_eq_false_2, IH.
Qed.

Section ends.
Variable sha256 : bytes -> bytes.
Context {DB : Type} `{!NodeTrieStore DB}.

Abbreviation St := (Runner DB).
Abbreviation code := (code sha256 (DB := DB)).
Abbreviation step := (step sha256 (DB := DB)).

(** the top tracker was committed to the one below it *)
Lemma commit_layer c (s s' : St) l l2 ls : trackers_of s c = Some (l :: l2 :: ls) ->
  on_tracker sha256 c (fun S _ => tr_commit) s = (Ok tt, s') ->
  exists l' l2', layer_step (fun u => layer_sum u l) l2 l2' /\ s' = put_layers s c (l' :: l2' :: ls).
Proof.
  intros Et (l0 & ls0 & c0 & r & c1 & ls1 & Et' & Es & Ew & -> & ->)%on_tracker_ok. rewrite Et in Et'. simplify_eq.
  unfold write_at in Ew. cbn [length stack_up] in Ew.
  match type of Ew with (let '(_, _) := ?m in _) = _ => destruct m as [r t] eqn:E end. inj Ew.
  inv_ok E. apply tr_check_same in Hm as ->.
  match type of E with (let '(_, _) := ?m in _) = _ => destruct m as [[?|e] u] eqn:Ec end; inj E.
  apply (top_commit_to (over l0 (over l2 (stack_up c0 ls)))) in Ec as [Hs Hl].
  change (layer_step (fun u => layer_sum u l0) (layer_of (over l2 (stack_up c0 ls))) (layer_of u)) in Hl.
  rewrite layer_of_over in Hl. destruct u as [st ? ? ? ? ? ? ? ?]. simpl in Hs. subst st. cbn.
  rewrite base_stack_up, layers_stack_up, (put_storage_same c c0 s Es). by eexists _, _.
Qed.

(** [r] left the stack; its contract is left with [ls], if it had other trackers *)
Definition left_call (r : CallRecord) (s s' : St) (l : layer) (ls ls' : list layer) : Prop :=
  exists ci r' rest, _call_info s = Some ci /\ stack ci = r' :: rest /\ cr_id r = cr_id r' /\
    od_get (change_trackers ci) (cr_contract_id r) = Some (l :: ls) /\ cr_tracker r = length ls /\
    (ls = [] /\ s' = set_call_info s (Some (with_stack ci rest)) \/
     ls <> [] /\ s' = set_call_info s
       (Some (with_trackers (with_stack ci rest) (od_set (change_trackers ci) (cr_contract_id r) ls')))).

Lemma leave_public_left r (s s' : St) : leave_public sha256 r s = (Ok tt, s') ->
  exists l ls ls', left_call r s s' l ls ls' /\
    (ls = [] /\ ls' = [] \/ exists l2 ls2 l2', ls = l2 :: ls2 /\ ls' = l2' :: ls2 /\ layer_step (fun u => layer_sum u l) l2 l2').
Proof.
  intros (ls0 & s1 & Et & Hp & H)%leave_public_ok.
  apply on_call_info_ok in Hp as (ci1 & ci2 & E1 & Hp & ->).
  apply post_call_ok in Hp as (r' & rest & l & ls & Es & Ei & Eg & El & Hp). destruct H as [[Hle ->]|[Hlt Hc]].
  - unfold trackers_of in Et. rewrite E1, Eg in Et. simplify_eq. destruct ls; simpl in Hle; [|lia].
    exists l, [], []. split; [|by left]. exists ci1, r', rest. repeat (split; [done|]). left.
    destruct Hp as [[_ ->]|[? _]]; done.
  - destruct ls0 as [|l0 [|l2 ls2]]; simpl in Hlt; [lia..|].
    apply (commit_layer _ _ _ _ _ _ Et) in Hc as (l' & l2' & Hl & ->).
    unfold put_layers in E1. unfold trackers_of in Et. destruct (_call_info s) as [ci|] eqn:Eci; [|done].
    simpl in E1. injection E1 as <-. simpl in *. rewrite od_get_set_eq in Eg. simplify_eq.
    exists l0, (l2 :: ls2), (l2' :: ls2). split; [|right; by eexists _, _, _].
    exists ci, r', rest. repeat (split; [done|]). right. split; [done|].
    destruct Hp as [[? _]|[_ ->]]; [done|]. unfold put_layers. rewrite Eci. simpl. rewrite od_set_set. done.
Qed.

Lemma leave_length d (ls ls' : list layer) :
  ls = [] /\ ls' = [] \/ (exists l2 ls2 l2', ls = l2 :: ls2 /\ ls' = l2' :: ls2 /\ layer_step d l2 l2') ->
  length ls' = length ls.
Proof. by intros [[-> ->]|(l2 & ls2 & l2' & -> & -> & _)]. Qed.

(** a tracker that changes nothing *)
Definition empty_layer (l : layer) : Prop :=
  data l = [] /\ _balance_diff l = [] /\ _authorities_diff l = [] /\ _created_tokens l = [] /\
  (_blueprint_id l = None \/ _blueprint_id l = Some []).

Lemma tr_is_empty_ok {S} (t : tracker S) : tr_is_empty t = Ok true -> empty_layer (layer_of t).
Proof.
  unfold tr_is_empty, empty_layer. destruct t as [? ? dt bd ad ct bi]. simpl.
  destruct bd, ad, ct, bi as [[|]|], dt; intros E; simplify_eq; eauto 10.
Qed.

Lemma leave_view_left r (s s' : St) : leave_view sha256 r s = (Ok tt, s') ->
  exists l ls, left_call r s s' l ls ls /\ empty_layer l.
Proof.
  unfold leave_view. intros H. apply bind_ok_inv in H as (e & s1 & He & H).
  apply bind_ok_inv in H as (? & ? & [-> Hr]%lift_ok & H). destruct e; [|done].
  apply on_tracker_ok in He as (l & ls & c0 & r0 & c1 & ls1 & Et & Es & Ew & -> & ->).
  unfold write_at in Ew. injection Ew as Ee <- <-. apply tr_is_empty_ok in Ee. rewrite layer_of_over in Ee.
  cbn in H. rewrite base_stack_up, layers_stack_up, (put_storage_same _ c0 s Es) in H.
  unfold trackers_of in Et. destruct (_call_info s) as [ci|] eqn:Eci; [|done].
  assert (put_layers s (cr_contract_id r) (layer_of (over l (stack_up c0 ls)) :: ls) = s) as Ep.
  { rewrite layer_of_over. unfold put_layers. rewrite Eci, (od_set_same (change_trackers ci)) by done. destruct s, ci. simpl in *. by subst. }
  rewrite Ep in H.
  apply on_call_info_ok in H as (ci1 & ci2 & E1 & Hp & ->). rewrite Eci in E1. injection E1 as <-.
  apply post_call_ok in Hp as (r' & rest & l1 & ls1 & Es1 & Ei & Eg & El & Hp). rewrite Et in Eg. simplify_eq.
  exists l1, ls1. split; [|done]. exists ci, r', rest. repeat (split; [done|]).
  destruct Hp as [[? ->]|[? ->]]; [left|right]; done.
Qed.
End ends.

(** * Sums over all trackers *)

Definition layers_sum (u : bytes) (ls : list layer) : Z := fold_right (fun l n => layer_sum u l + n) 0 ls.

Definition sum_all (u : bytes) (d : list (bytes * list layer)) : Z :=
  fold_right (fun e n => layers_sum u (snd e) + n) 0 d.

Lemma sum_all_set u d k ls :
  sum_all u (od_set d k ls) = sum_all u d - layers_sum u (default [] (od_get d k)) + layers_sum u ls.
Proof.
  induction d as [|[j x] d IH]; simpl; [lia|].
  destruct (bool_decide_reflect (j = k)) as [->|N]; simpl; [lia|]. rewrite IH. lia.
Qed.

Lemma dd_add_get d k n u :
  od_get (dd_add d k n) u = if bool_decide (k = u) then Some (default 0 (od_get d u) + n) else od_get d u.
Proof. unfold dd_add. case_bool_decide; subst; [by rewrite od_get_set_eq|by rewrite od_get_set_ne]. Qed.

Section balance.
Variable sha256 : bytes -> bytes.
Context {DB : Type} `{!NodeTrieStore DB}.

Abbreviation St := (Runner DB).
Abbreviation code := (code sha256 (DB := DB)).
Abbreviation step := (step sha256 (DB := DB)).

Definition held (u : bytes) (s : St) : Z :=
  match _call_info s with None => 0 | Some ci => sum_all u (change_trackers ci) end.
Definition recorded (u : bytes) (s : St) : Z := default 0 (od_get (_updated_tokens_totals s) u).

(** what the trackers hold beyond the records *)
Definition excess (u : bytes) (s : St) : Z := held u s - recorded u s.

Lemma held_write c d (s s' : St) u : layer_write c d s s' -> held u s' = held u s + d u.
Proof.
  intros (l & l' & ls & Et & (_ & _ & _ & Hl) & ->). unfold trackers_of in Et. unfold held, put_layers.
  destruct (_call_info s) as [ci|]; [|done]. simpl. rewrite sum_all_set, Et. simpl. rewrite Hl. lia.
Qed.

Lemma held_append r record (s s' : St) u : append_update r record s = (Ok tt, s') ->
  held u s' = held u s /\ _updated_tokens_totals s' = _updated_tokens_totals s.
Proof.
  intros (ci & ci' & E & H & ->)%on_call_info_ok. unfold held. rewrite E. simpl.
  destruct (index_updates ci !! cr_id r); by inj H.
Qed.

Lemma held_left r (s s' : St) l ls ls' u : left_call r s s' l ls ls' ->
  held u s' = held u s + (if decide (ls = []) then 0 else layers_sum u ls' - layers_sum u (l :: ls)).
Proof.
  intros (ci & r' & rest & E & _ & _ & Eg & _ & H). unfold held. rewrite E.
  destruct H as [[-> ->]|[N ->]]; [rewrite decide_True by done; simpl; lia|rewrite decide_False by done].
  simpl. rewrite sum_all_set, Eg. simpl. lia.
Qed.

Lemma left_other r (s s' : St) l ls ls' : left_call r s s' l ls ls' -> _updated_tokens_totals s' = _updated_tokens_totals s.
Proof. intros (ci & r' & rest & _ & _ & _ & _ & _ & [[_ ->]|[_ ->]]); done. Qed.

Lemma held_pre r (s s' : St) u : on_call_info (pre_call r) s = (Ok tt, s') ->
  held u s' = held u s /\ _updated_tokens_totals s' = _updated_tokens_totals s.
Proof.
  intros (ci & ci' & E & (_ & _ & ->)%pre_call_ok & ->)%on_call_info_ok. unfold held. rewrite E. simpl. split; [|done].
  rewrite sum_all_set. simpl. unfold layer_sum at 1. simpl. lia.
Qed.

Lemma excess_leave_public r (s s' : St) u : leave_public sha256 r s = (Ok tt, s') -> excess u s' = excess u s.
Proof.
  intros (l & ls & ls' & Hl & H)%leave_public_left. unfold excess, recorded.
  rewrite (left_other _ _ _ _ _ _ Hl), (held_left _ _ _ _ _ _ u Hl). case_decide as D; [lia|].
  destruct H as [[? _]|(l2 & ls2 & l2' & -> & -> & _ & _ & _ & Hs)]; [done|]. simpl. rewrite Hs. lia.
Qed.

Lemma excess_leave_view r (s s' : St) u : leave_view sha256 r s = (Ok tt, s') -> excess u s' = excess u s.
Proof.
  intros (l & ls & Hl & (_ & Hb & _))%leave_view_left. unfold excess, recorded.
  rewrite (left_other _ _ _ _ _ _ Hl), (held_left _ _ _ _ _ _ u Hl). case_decide as D; [lia|].
  simpl. unfold layer_sum. rewrite Hb. simpl. lia.
Qed.

Lemma code_excess u :
  (forall d s s', code d s s' -> excess u s' = excess u s + d u) /\
  (forall d s s', step d s s' -> excess u s' = excess u s + d u).
Proof.
  apply (code_step_ind sha256 (fun d s s' _ => excess u s' = excess u s + d u) (fun d s s' _ => excess u s' = excess u s + d u)).
  - intros d s E. rewrite E. lia.
  - intros d d1 d2 s s1 s2 _ IH1 _ IH2 E. rewrite IH2, IH1, E. lia.
  - intros s s' (E1 & E2 & _). unfold excess, held, recorded. rewrite E1, E2. unfold dzero. lia.
  - intros r d s s' _ H. unfold excess. rewrite (held_write _ _ _ _ u H).
    destruct H as (l & l' & ls & _ & _ & ->). unfold recorded, put_layers. destruct (_call_info s); simpl; lia.
  - intros r record v n s s1 s' _ _ _ Hw Ha. apply (held_append _ _ _ _ u) in Ha as [Ea Et].
    unfold excess, recorded. rewrite Ea, Et. unfold held at 1. simpl. change (match _call_info s1 with
      Some ci => sum_all u (change_trackers ci) | None => 0 end) with (held u s1).
    rewrite (held_write _ _ _ _ u Hw), dd_add_get. unfold dsingle, dzero.
    assert (_updated_tokens_totals s1 = _updated_tokens_totals s) as ->.
    { destruct Hw as (l & l' & ls & _ & _ & ->). unfold put_layers. by destruct (_call_info s). }
    case_bool_decide; subst; simpl; lia.
  - intros r record s s' _ _ _ Ha. apply (held_append _ _ _ _ u) in Ha as [Ea Et].
    unfold excess, recorded. rewrite Ea, Et. unfold dzero. lia.
  - intros r data s s' _ _ (ci & ci' & E & H & ->)%on_call_info_ok. unfold excess, recorded, held. rewrite E. simpl.
    unfold emit_event in H. destruct (_ <? _); inj H. unfold dzero. simpl. lia.
  - intros r v n s _ _. unfold excess, held, recorded, dzero. simpl. lia.
  - intros r d ci c bp name ctx args s s1 s2 s3 _ _ _ H1 _ IH H2.
    rewrite (excess_leave_public _ _ _ u H2), IH. apply (held_pre _ _ _ u) in H1 as [E1 E2].
    unfold excess, recorded. by rewrite E1, E2.
  - intros r d ci c bp name args s s1 s2 s3 _ _ H1 _ IH H2.
    rewrite (excess_leave_view _ _ _ u H2), IH. apply (held_pre _ _ _ u) in H1 as [E1 E2].
    unfold excess, recorded. by rewrite E1, E2.
Qed.
End balance.
