(* ===== verification/RunnerRecords.v ===== *)
(** The books of an execution: its trace, the records of its calls and the totals the
    runner keeps of them, and the number of trackers of each contract; with them, the check
    of the balances after an execution reduces to their being positive.  View methods change
    nothing: what their code wrote to its own tracker must be undone, or was never there,
    when it returns. *)

From stdpp Require Import base list gmap strings.
From Stdlib Require Import ZArith Lia.
From S2P Require Import Prelude PyInt PyValue NCTypes PatriciaTrie BlockStorage ContractStorage.
From S2P Require Import StorageInterface ContractStorageTheory ChangesTracker ScriptCode ScriptVM TxStruct TokenInfo.
From S2P Require Import StaticMetadata Metadata TxVerifier BlockVerifier NCContext RunnerState Runner RunnerSteps.
From S2P Require Import RunnerRefine RunnerBalance.

Local Open Scope Z_scope.
Local Open Scope py_scope.

(** * The amount of a token in a list of records; none, if no record names the token *)

Definition oplus (a b : option Z) : option Z :=
  match a, b with
  | None, x | x, None => x
  | Some x, Some y => Some (x + y)
  end.

Lemma oplus_comm a b : oplus a b = oplus b a.
Proof. destruct a, b; simpl; try done. f_equal. lia. Qed.

Lemma oplus_assoc a b c : oplus a (oplus b c) = oplus (oplus a b) c.
Proof. destruct a, b, c; simpl; try done. f_equal. lia. Qed.

Definition amount_in (u : bytes) (r : NCIndexUpdateRecord) : option Z :=
  match record_amount r with None => None | Some (v, n) => if bool_decide (v = u) then Some n else None end.

Definition tally (u : bytes) (l : list NCIndexUpdateRecord) : option Z :=
  fold_right (fun r acc => oplus (amount_in u r) acc) None l.

Lemma tally_app u l l' : tally u (l ++ l') = oplus (tally u l) (tally u l').
Proof. induction l as [|r l IH]; simpl; [by destruct (tally u l')|]. by rewrite IH, oplus_assoc. Qed.

Lemma tally_perm u l l' : Permutation l l' -> tally u l = tally u l'.
Proof.
  induction 1 as [|r l l' H IH|r r' l|l l' l'' H1 IH1 H2 IH2]; simpl; [done|by rewrite IH| |congruence].
  by rewrite !oplus_assoc, (oplus_comm (amount_in u r')).
Qed.

Lemma dd_add_oplus d k n u :
  od_get (dd_add d k n) u = oplus (od_get d u) (if bool_decide (k = u) then Some n else None).
Proof. rewrite dd_add_get. case_bool_decide; subst; by destruct (od_get d u). Qed.

Lemma dd_add_nodup d k n : NoDup (map fst d) -> NoDup (map fst (dd_add d k n)).
Proof. apply od_set_nodup. Qed.

(** * The books *)

Definition updates_of (ci : CallInfo) (r : CallRecord) : list NCIndexUpdateRecord :=
  default [] (index_updates ci !! cr_id r).
Definition all_calls (ci : CallInfo) : list CallRecord := default [] (calls ci).
Definition all_updates (ci : CallInfo) : list NCIndexUpdateRecord := concat (map (updates_of ci) (all_calls ci)).

Record books (ci : CallInfo) (totals : list (bytes * Z)) : Prop := {
  b_trace : enable_call_trace ci = true;
  b_ids : map cr_id (all_calls ci) = seq 0 (call_counter ci);
  b_count : (call_counter ci <= MAX_CALL_COUNTER)%nat;
  b_depth : Forall (fun r => (cr_depth r < MAX_RECURSION_DEPTH)%nat) (all_calls ci);
  b_stack : Forall (fun r => r ∈ all_calls ci) (stack ci);
  b_public : Forall (fun r => cr_type r = PUBLIC <-> is_Some (index_updates ci !! cr_id r)) (all_calls ci);
  b_fresh : forall i, (call_counter ci <= i)%nat -> index_updates ci !! i = None;
  b_keys : NoDup (map fst (change_trackers ci));
  b_full : Forall (fun e => snd e <> []) (change_trackers ci);
  b_totals : NoDup (map fst totals);
  b_tally : forall u, od_get totals u = tally u (all_updates ci)
}.

Lemma od_set_full (d : list (bytes * list layer)) k ls : Forall (fun e => snd e <> []) d -> ls <> [] ->
  Forall (fun e => snd e <> []) (od_set d k ls).
Proof.
  intros H Hl. induction H as [|[j x] d Hx H IH]; simpl; [by constructor|]. case_bool_decide; by constructor.
Qed.

Lemma books_init {DB} (s : Runner DB) c : _enable_call_trace s = true -> books (_build_call_info s c) [].
Proof. intros E. by constructor; simpl; try constructor; try lia. Qed.

(** the calls made so far have the numbers below the counter *)
Lemma books_id ci totals r : books ci totals -> r ∈ all_calls ci -> (cr_id r < call_counter ci)%nat.
Proof.
  intros B Hr. assert (cr_id r ∈ map cr_id (all_calls ci)) as H by (apply list_elem_of_fmap; eauto).
  rewrite (b_ids _ _ B) in H. apply elem_of_seq in H. lia.
Qed.

Lemma concat_map_ext {A B} (f g : A -> list B) l : (forall x, x ∈ l -> f x = g x) -> concat (map f l) = concat (map g l).
Proof. intros H. f_equal. apply map_ext_in. intros x Hx. apply H. by apply list_elem_of_In. Qed.

(** one more record for one of the calls *)
Lemma updates_append (f : nat -> list NCIndexUpdateRecord) (l : list CallRecord) r x :
  NoDup (map cr_id l) -> r ∈ l ->
  Permutation (concat (map (fun r' => if bool_decide (cr_id r = cr_id r') then f (cr_id r') ++ [x] else f (cr_id r')) l))
    (concat (map (fun r' => f (cr_id r')) l) ++ [x]).
Proof.
  induction l as [|y l IH]; intros Hn Hr; [by apply not_elem_of_nil in Hr|]. simpl in *. apply NoDup_cons in Hn as [Hy Hn].
  destruct (bool_decide_reflect (cr_id r = cr_id y)) as [E|N].
  - rewrite (concat_map_ext _ (fun r' => f (cr_id r')) l).
    + rewrite <- !app_assoc. apply Permutation_app_head, Permutation_app_comm.
    + intros z Hz. rewrite bool_decide_eq_false_2; [done|]. intros E'. apply Hy. rewrite <- E, E'.
      apply list_elem_of_fmap. eauto.
  - rewrite <- app_assoc. apply Permutation_app_head, IH; [done|]. apply elem_of_cons in Hr as [->|?]; done.
Qed.

Lemma books_append ci totals totals' r record l : books ci totals -> r ∈ all_calls ci ->
  index_updates ci !! cr_id r = Some l -> NoDup (map fst totals') ->
  (forall v, od_get totals' v = oplus (od_get totals v) (amount_in v record)) ->
  books (with_updates ci (<[cr_id r := l ++ [record]]> (index_updates ci))) totals'.
Proof.
  intros B Hr Hl Hn Hu. pose proof (books_id _ _ _ B Hr). destruct B. constructor; simpl; try done.
  - unfold all_calls in *. simpl. eapply Forall_impl; [exact b_public0|]. intros r' ->. simpl.
    destruct (decide (cr_id r = cr_id r')) as [E|N]; [|by rewrite lookup_insert_ne].
    rewrite <- E, lookup_insert_eq, Hl. naive_solver.
  - intros i Hi. rewrite lookup_insert_ne by lia. by apply b_fresh0.
  - intros v. rewrite Hu, b_tally0. symmetry. unfold all_updates, all_calls in *. simpl.
    transitivity (tally v (concat (map (updates_of ci) (default [] (calls ci))) ++ [record])).
    2: { rewrite tally_app. f_equal. simpl. by destruct (amount_in v record). }
    apply tally_perm. etransitivity; [|apply (updates_append (fun i => default [] (index_updates ci !! i)) _ r); [|done]].
    + erewrite concat_map_ext; [done|]. intros r' _. unfold updates_of. simpl.
      case_bool_decide as E; [rewrite <- E, lookup_insert_eq, Hl; done|by rewrite lookup_insert_ne].
    + rewrite b_ids0. apply NoDup_ListNoDup, seq_NoDup.
Qed.

Lemma amount_dd_add totals record u n : record_amount record = Some (u, n) ->
  forall v, od_get (dd_add totals u n) v = oplus (od_get totals v) (amount_in v record).
Proof. intros E v. rewrite dd_add_oplus. unfold amount_in. by rewrite E. Qed.

Lemma amount_none totals record : record_amount record = None ->
  forall v, od_get totals v = oplus (od_get totals v) (amount_in v record).
Proof. intros E v. unfold amount_in. rewrite E. by destruct (od_get totals v). Qed.

(** a new call *)
Lemma books_pre ci totals type c b name ctx args a ci' : books ci totals ->
  pre_call (new_record type c b name ctx args ci) ci = (Ok a, ci') -> books ci' totals.
Proof.
  intros B (Hd & Hc & ->)%pre_call_ok. pose proof (fun r => books_id _ _ r B) as Hid.
  set (r := new_record type c b name ctx args ci).
  assert (cr_id r = call_counter ci /\ cr_depth r = depth ci) as [Er Ed] by done. clearbody r. clear type.
  destruct B. unfold pushed_call. rewrite b_trace0.
  assert (forall r', r' ∈ all_calls ci -> match cr_type r with
    PUBLIC => <[cr_id r := []]> (index_updates ci) | VIEW => index_updates ci end !! cr_id r' = index_updates ci !! cr_id r') as Hu.
  { intros r' Hr. specialize (Hid r' Hr). destruct (cr_type r); [|done]. rewrite lookup_insert_ne; [done|lia]. }
  constructor; simpl; unfold all_calls in *; simpl; try done.
  - rewrite map_app, b_ids0. change (0%nat :: seq 1 (call_counter ci)) with (seq 0 (S (call_counter ci))).
    rewrite seq_S, <- Er. done.
  - apply Forall_app. split; [done|]. constructor; [|done]. by rewrite Ed.
  - constructor; [apply elem_of_app; right; left|]. eapply Forall_impl; [exact b_stack0|]. intros r' ?. apply elem_of_app. by left.
  - apply Forall_app. split.
    + apply Forall_forall. intros r' Hr. rewrite (Hu r' Hr). by apply (proj1 (Forall_forall _ _) b_public0).
    + constructor; [|done]. destruct (cr_type r); [rewrite lookup_insert_eq; naive_solver|].
      rewrite b_fresh0 by lia. split; [done|]. by intros [? ?].
  - intros i Hi. destruct (cr_type r); [rewrite lookup_insert_ne by lia|]; apply b_fresh0; lia.
  - by apply od_set_nodup.
  - by apply od_set_full.
  - intros v. rewrite b_tally0. symmetry. unfold all_updates, all_calls. simpl. rewrite map_app, concat_app, tally_app. simpl.
    rewrite (concat_map_ext _ (updates_of ci)) by (intros r' Hr; unfold updates_of; simpl; by rewrite Hu).
    unfold updates_of. simpl. destruct (cr_type r); [rewrite lookup_insert_eq|rewrite b_fresh0 by lia]; simpl;
      by destruct (tally v _).
Qed.

(** the trackers changed and the stack shrank *)
Lemma books_trackers ci ci' totals : books ci totals ->
  enable_call_trace ci' = enable_call_trace ci -> calls ci' = calls ci -> call_counter ci' = call_counter ci ->
  index_updates ci' = index_updates ci -> (forall r, r ∈ stack ci' -> r ∈ stack ci) ->
  NoDup (map fst (change_trackers ci')) -> Forall (fun e => snd e <> []) (change_trackers ci') -> books ci' totals.
Proof.
  intros [] E1 E2 E3 E4 Hs Hn Hf. assert (all_calls ci' = all_calls ci) as Ec by (unfold all_calls; by rewrite E2).
  constructor; rewrite ?E1, ?E3, ?E4, ?Ec; try done.
  - apply Forall_forall. intros r Hr%Hs. by apply (proj1 (Forall_forall _ _) b_stack0).
  - intros u. rewrite b_tally0. unfold all_updates, updates_of. by rewrite Ec, E4.
Qed.

Section records.
Variable sha256 : bytes -> bytes.
Context {DB : Type} `{!NodeTrieStore DB}.

Abbreviation St := (Runner DB).
Abbreviation code := (code sha256 (DB := DB)).
Abbreviation step := (step sha256 (DB := DB)).

Definition has_books (s : St) : Prop := exists ci, _call_info s = Some ci /\ books ci (_updated_tokens_totals s).

Lemma books_put (s : St) c ls : ls <> [] -> has_books s -> has_books (put_layers s c ls).
Proof.
  intros Hl (ci & E & B). unfold put_layers. rewrite E. eexists. split; [done|]. simpl.
  eapply books_trackers; [exact B|done..| |]; [apply od_set_nodup, B|apply od_set_full; [apply B|done]].
Qed.

Lemma books_append_update (s s' : St) totals r record : cur r s -> has_books s ->
  append_update r record (set_totals s totals) = (Ok tt, s') -> NoDup (map fst totals) ->
  (forall v, od_get totals v = oplus (od_get (_updated_tokens_totals s) v) (amount_in v record)) -> has_books s'.
Proof.
  intros (ci0 & rest & E0 & Es) (ci & E & B) H Hn Hu. rewrite E in E0. simplify_eq.
  apply on_call_info_ok in H as (ci1 & ci' & E1 & H & ->). simpl in E1. rewrite E in E1. simplify_eq.
  destruct (index_updates ci1 !! cr_id r) as [l|] eqn:Hl; [|done]. injection H as <-.
  eexists. split; [done|]. simpl. eapply books_append; try done.
  pose proof (b_stack _ _ B) as Hs. rewrite Es in Hs. by apply Forall_inv in Hs.
Qed.

Lemma books_left (r : CallRecord) (s s' : St) l ls ls' : left_call r s s' l ls ls' -> length ls' = length ls -> has_books s -> has_books s'.
Proof.
  intros (ci0 & r' & rest & E0 & Es & _ & _ & _ & H) Hl (ci & E & B). rewrite E in E0. simplify_eq.
  assert (forall x, x ∈ rest -> x ∈ stack ci0) as Hs by (intros x Hx; rewrite Es; by right).
  destruct H as [[_ ->]|[N ->]]; eexists; (split; [done|]); (eapply books_trackers; [exact B|done..| |]).
  - apply B.
  - apply B.
  - apply od_set_nodup, B.
  - apply od_set_full; [apply B|]. by destruct ls, ls'.
Qed.

Lemma books_pre_call type c b name ctx args ci (s s' : St) : has_books s -> _call_info s = Some ci ->
  on_call_info (pre_call (new_record type c b name ctx args ci)) s = (Ok tt, s') -> has_books s'.
Proof.
  intros (ci0 & E & B) Eci (ci1 & ci2 & E1 & H & ->)%on_call_info_ok. rewrite Eci in E, E1. simplify_eq.
  eexists. split; [done|]. by eapply books_pre.
Qed.

Lemma code_books :
  (forall d s s', code d s s' -> has_books s -> has_books s') /\
  (forall d s s', step d s s' -> has_books s -> has_books s').
Proof.
  apply (code_step_ind sha256 (fun d s s' _ => has_books s -> has_books s') (fun d s s' _ => has_books s -> has_books s')); [auto..| | | | | | | |].
  - intros s s' (E1 & E2 & _) (ci & E & B). exists ci. by rewrite E1, E2.
  - intros r d s s' _ (l & l' & ls & _ & _ & ->). by apply books_put.
  - intros r record u n s s1 s' Hc _ Hr (l & l' & ls & _ & _ & ->) Ha B.
    assert (has_books (put_layers s (cr_contract_id r) (l' :: ls))) as B1 by by apply books_put.
    eapply books_append_update; [|exact B1|exact Ha| |by apply amount_dd_add].
    + apply cur_stack. rewrite stack_put_layers. by apply cur_stack.
    + destruct B1 as (? & _ & []). by apply dd_add_nodup.
  - intros r record s s' Hc _ Hr Ha B. eapply books_append_update; [exact Hc|exact B| | |by apply amount_none].
    + by destruct s.
    + destruct B as (? & _ & []). done.
  - intros r data s s' _ _ H (ci & E & B). apply on_call_info_ok in H as (ci1 & ci2 & E1 & H & ->).
    rewrite E in E1. simplify_eq. eexists. split; [done|]. simpl.
    unfold emit_event in H. destruct (_ <? _); [done|]. injection H as <-. eapply books_trackers; [exact B|done..|apply B|apply B].
  - intros r u n s _ _ (ci & E & B). by exists ci.
  - intros r d ci c bp name ctx args s s1 s2 s3 _ _ E H1 _ IH H2 B.
    apply leave_public_left in H2 as (l & ls & ls' & Hl & Hn%leave_length). eapply books_left; [exact Hl|done|]. apply IH.
    by eapply books_pre_call.
  - intros r d ci c bp name args s s1 s2 s3 _ E H1 _ IH H2 B.
    apply leave_view_left in H2 as (l & ls & Hl & _). eapply books_left; [exact Hl|done|]. apply IH.
    by eapply books_pre_call.
Qed.

(** * The number of trackers of a contract *)

Definition count (c : bytes) (s : St) : nat := length (default [] (trackers_of s c)).

(** a contract keeps its trackers; one that had none has at most one *)
Definition kept (s s' : St) : Prop := forall c,
  count c s' = count c s \/ count c s = 0%nat /\ count c s' = 1%nat.

Lemma kept_same (s s' : St) : (forall c, count c s' = count c s) -> kept s s'.
Proof. intros H c. left. apply H. Qed.

Lemma kept_trans s1 s2 s3 : kept s1 s2 -> kept s2 s3 -> kept s1 s3.
Proof. intros H1 H2 c. specialize (H1 c). specialize (H2 c). lia. Qed.

Lemma count_put (s : St) c l l' ls c' : trackers_of s c = Some (l :: ls) -> count c' (put_layers s c (l' :: ls)) = count c' s.
Proof.
  intros E. unfold count. rewrite trackers_put_layers by (by eapply trackers_call_info).
  case_bool_decide; subst; [by rewrite E|done].
Qed.

Lemma count_pre r (s s' : St) c : on_call_info (pre_call r) s = (Ok tt, s') ->
  count c s' = (count c s + if bool_decide (cr_contract_id r = c) then 1 else 0)%nat.
Proof.
  intros (ci & ci' & E & (_ & _ & ->)%pre_call_ok & ->)%on_call_info_ok. unfold count, trackers_of. rewrite E. simpl.
  case_bool_decide; subst; [rewrite od_get_set_eq; simpl; lia|rewrite od_get_set_ne by done; lia].
Qed.

Lemma count_left r (s s' : St) l ls ls' c : left_call r s s' l ls ls' -> length ls' = length ls ->
  count (cr_contract_id r) s = S (length ls) /\
  count c s' = (if bool_decide (cr_contract_id r = c) then Nat.max 1 (length ls) else count c s).
Proof.
  intros (ci & r' & rest & E & _ & _ & Eg & _ & H) Hl. unfold count, trackers_of. rewrite E, Eg. split; [done|].
  destruct H as [[-> ->]|[N ->]]; simpl.
  - case_bool_decide; subst; [by rewrite Eg|done].
  - case_bool_decide; subst; [rewrite od_get_set_eq; simpl; destruct ls; simpl in *; [done|lia]|].
    by rewrite od_get_set_ne.
Qed.

Lemma kept_call r (s s1 s2 s3 : St) l ls ls' : on_call_info (pre_call r) s = (Ok tt, s1) -> kept s1 s2 ->
  left_call r s2 s3 l ls ls' -> length ls' = length ls -> kept s s3.
Proof.
  intros H1 Hk Hl Hn c. specialize (Hk c). rewrite (count_pre _ _ _ c H1) in Hk.
  destruct (count_left _ _ _ _ _ _ c Hl Hn) as [E1 ->]. case_bool_decide; subst; [|lia]. lia.
Qed.

Lemma code_kept :
  (forall d s s', code d s s' -> kept s s') /\ (forall d s s', step d s s' -> kept s s').
Proof.
  apply (code_step_ind sha256 (fun d s s' _ => kept s s') (fun d s s' _ => kept s s')).
  - intros. by apply kept_same.
  - intros * _ IH1 _ IH2 _. by eapply kept_trans.
  - intros s s' (E & _). apply kept_same. intros c. unfold count, trackers_of. by rewrite E.
  - intros r d s s' _ (l & l' & ls & E & _ & ->). apply kept_same. intros c. by eapply count_put.
  - intros r record u n s s1 s' _ _ _ (l & l' & ls & E & _ & ->) Ha. apply kept_same. intros c.
    rewrite <- (count_put s (cr_contract_id r) l l' ls c E).
    apply on_call_info_ok in Ha as (ci & ci' & E1 & H & ->). unfold count, trackers_of. simpl in *. rewrite E1.
    destruct (index_updates ci !! cr_id r); by inj H.
  - intros r record s s' _ _ _ Ha. apply kept_same. intros c.
    apply on_call_info_ok in Ha as (ci & ci' & E1 & H & ->). unfold count, trackers_of. simpl in *. rewrite E1.
    destruct (index_updates ci !! cr_id r); by inj H.
  - intros r data s s' _ _ H. apply kept_same. intros c.
    apply on_call_info_ok in H as (ci & ci' & E1 & H & ->). unfold count, trackers_of. simpl in *. rewrite E1.
    unfold emit_event in H. destruct (_ <? _); by inj H.
  - intros. by apply kept_same.
  - intros r d ci c bp name ctx args s s1 s2 s3 _ _ E H1 _ IH H2.
    apply leave_public_left in H2 as (l & ls & ls' & Hl & Hn%leave_length). by eapply kept_call.
  - intros r d ci c bp name args s s1 s2 s3 _ E H1 _ IH H2.
    apply leave_view_left in H2 as (l & ls & Hl & _). by eapply kept_call.
Qed.
End records.

(** * Totals as dictionaries *)

(** the value of a token in a [defaultdict(int)] *)
Definition dval (d : list (bytes * Z)) (u : bytes) : Z := default 0 (od_get d u).

Lemma dval_add d k n u : dval (dd_add d k n) u = dval d u + dsingle k n u.
Proof. unfold dval, dsingle. rewrite dd_add_get. case_bool_decide; simpl; lia. Qed.

(** adding items one by one *)
Lemma dval_fold {A} (f : A -> bytes * Z) (l : list A) d u :
  dval (fold_left (fun d x => dd_add d (fst (f x)) (snd (f x))) l d) u
  = dval d u + dsum (map (fun x => dsingle (fst (f x)) (snd (f x))) l) u.
Proof.
  revert d. induction l as [|x l IH]; intros d; simpl; [unfold dsum; simpl; lia|].
  rewrite IH, dval_add. unfold dsum. simpl. lia.
Qed.

Lemma fold_nodup {A} (f : list (bytes * Z) -> A -> list (bytes * Z)) (l : list A) d :
  (forall d x, NoDup (map fst d) -> NoDup (map fst (f d x))) -> NoDup (map fst d) -> NoDup (map fst (fold_left f l d)).
Proof. intros H. revert d. induction l as [|x l IH]; intros d Hd; simpl; [done|]. apply IH, H, Hd. Qed.

Lemma dsum_items (l : list (bytes * Z)) u : NoDup (map fst l) ->
  dsum (map (fun e => dsingle (fst e) (- snd e)) l) u = - dval l u.
Proof.
  unfold dval. induction l as [|[k n] l IH]; simpl; [done|]. intros [Hk Hn]%NoDup_cons. specialize (IH Hn).
  unfold dsum in *. simpl. rewrite IH. unfold dsingle. case_bool_decide as E; [subst|simpl; lia].
  rewrite (proj2 (od_get_None l u)) by done. simpl. lia.
Qed.

Lemma add_diffs_val l d u : dval (add_diffs d l) u = dval d u + layer_sum u l.
Proof.
  unfold add_diffs, layer_sum.
  rewrite (dval_fold (fun item : TrieKey * Z => (attr_name (fst item), snd item))). by rewrite diff_sum_dsum.
Qed.

Lemma add_diffs_nodup l d : NoDup (map fst d) -> NoDup (map fst (add_diffs d l)).
Proof. apply fold_nodup. intros d' x. apply dd_add_nodup. Qed.

Lemma add_records_get l d u : od_get (fold_left add_record l d) u = oplus (od_get d u) (tally u l).
Proof.
  revert d. induction l as [|r l IH]; intros d; simpl; [by destruct (od_get d u)|].
  rewrite IH, oplus_assoc. f_equal. unfold add_record, amount_in. destruct (record_amount r) as [[v n]|].
  - apply dd_add_oplus.
  - by destruct (od_get d u).
Qed.

(** the recalculated totals are those of the records *)
Lemma calculated_totals_get ci totals : books ci totals ->
  exists d, calculated_totals ci (all_calls ci) = Ok d /\ forall u, od_get d u = tally u (all_updates ci).
Proof.
  intros B. pose proof (b_public _ _ B) as Hp. unfold all_updates, calculated_totals. clear B.
  assert (forall d0, exists d, rfold_left (fun totals call =>
    match index_updates ci !! cr_id call with
    | None => if bool_decide (cr_type call = VIEW) then Ok totals else Err AssertionError
    | Some updates => Ok (fold_left add_record updates totals)
    end) (all_calls ci) d0 = Ok d /\
    forall u, od_get d u = oplus (od_get d0 u) (tally u (concat (map (updates_of ci) (all_calls ci))))) as H.
  2: { destruct (H []) as (d & E & Hd). by exists d. }
  induction Hp as [|r cs Hr Hp IH]; intros d0; simpl.
  - exists d0. split; [done|]. intros u. by destruct (od_get d0 u).
  - unfold updates_of at 1. destruct (index_updates ci !! cr_id r) as [l|] eqn:El; simpl.
    + destruct (IH (fold_left add_record l d0)) as (d & E & Hd). exists d. split; [done|]. intros u.
      rewrite Hd, add_records_get, tally_app, oplus_assoc. done.
    + assert (cr_type r = VIEW) as ->.
      { destruct (cr_type r); [|done]. destruct (proj1 Hr eq_refl). done. }
      rewrite bool_decide_eq_true_2 by done. apply IH.
Qed.

Lemma dict_eqb_true d e : (forall u, od_get d u = od_get e u) -> dict_eqb d e = true.
Proof. intros H. apply forallb_forall. intros u _. apply bool_decide_eq_true_2, H. Qed.

Lemma actions_val l d u : dval (fold_left action_diff l d) u = dval d u - dsum (map action_delta l) u.
Proof.
  revert d. induction l as [|a l IH]; intros d; simpl; [unfold dsum; simpl; lia|]. rewrite IH. unfold dsum. simpl.
  destruct a as [v n|v n|v ? ?|v ? ?]; simpl; rewrite ?dval_add; unfold dsingle, dzero; try case_bool_decide; lia.
Qed.

Lemma actions_nodup l d : NoDup (map fst d) -> NoDup (map fst (fold_left action_diff l d)).
Proof. apply fold_nodup. intros d' []; simpl; auto using dd_add_nodup. Qed.

(** * The check of the balances *)

Section validation.
Variable sha256 : bytes -> bytes.
Context {DB : Type} `{!NodeTrieStore DB}.
Context {CR : Crypto} {SS : ScriptSettings} {TS : TxSettings} {VSet : VerifierSettings} {UC : Unicode}.
Context {VS : VertexStorage} {SM : StaticStore} {NS : NodeState} {BP : Blueprints}.

Abbreviation St := (Runner DB).

(** the balances of one contract are positive *)
Definition check_positive (e : bytes * list layer) : M St unit :=
  on_tracker sha256 (fst e) (fun S _ t => (validate_balances_are_positive t, t)).

Lemma on_tracker_read {A} c (f : forall S, StorageOps S -> tracker S -> result A) (s : St) :
  (on_tracker sha256 c (fun S ops t => (f S ops t, t)) s).2 = s.
Proof.
  unfold on_tracker. destruct (trackers_of s c) as [[|l ls]|] eqn:Et; [done| |done].
  destruct (storage_of s c) as [c0|] eqn:Es; [|done]. unfold write_at. cbn.
  rewrite base_stack_up, layers_stack_up, (put_storage_same _ c0 s Es).
  unfold trackers_of in Et. unfold put_layers. destruct (_call_info s) as [ci|] eqn:Eci; [|done].
  rewrite layer_of_over, (od_set_same (change_trackers ci)) by done. destruct s, ci. simpl in *. by subst.
Qed.

Lemma check_same e (s : St) : (check_positive e s).2 = s.
Proof. apply (on_tracker_read (fst e) (fun S _ t => validate_balances_are_positive t)). Qed.

Lemma checks_same l (s : St) : (for_each l check_positive s).2 = s.
Proof.
  induction l as [|e l IH]; simpl; [done|]. unfold bind. pose proof (check_same e s) as H.
  destruct (check_positive e s) as [[?|?] s1]; simpl in H; subst; [apply IH|done].
Qed.

(** the loop over the trackers: the checks, and the sum of the differences *)
Lemma mfold_checks l acc (s : St) : Forall (fun e : bytes * list layer => exists x, snd e = [x]) l ->
  mfold (validate_tracker sha256) l acc s =
  (for_each l check_positive ;;; ret (fold_left (fun d (e : bytes * list layer) => fold_left add_diffs (snd e) d) l acc)) s.
Proof.
  intros H. revert acc. induction H as [|[c ls] l [x E] H IH]; intros acc; [done|]. simpl in E. subst ls.
  pose proof (check_same (c, [x]) s) as Hc. unfold bind in *. cbn -[check_positive validate_tracker]. unfold bind.
  unfold validate_tracker at 1. cbn -[check_positive]. unfold bind. fold (check_positive (c, [x])).
  change (on_tracker sha256 c (fun S _ t => (validate_balances_are_positive t, t))) with (check_positive (c, [x])).
  destruct (check_positive (c, [x]) s) as [[?|?] s1]; simpl in Hc; subst; [|done]. apply IH.
Qed.

Lemma sum_all_fold l acc u :
  dval (fold_left (fun d (e : bytes * list layer) => fold_left add_diffs (snd e) d) l acc) u = dval acc u + sum_all u l.
Proof.
  revert acc. induction l as [|[c ls] l IH]; intros acc; simpl; [lia|]. rewrite IH.
  assert (forall acc, dval (fold_left add_diffs ls acc) u = dval acc u + layers_sum u ls) as ->; [|lia].
  clear. induction ls as [|x ls IH]; intros acc; simpl; [lia|]. rewrite IH, add_diffs_val. lia.
Qed.

Lemma validate_reduces ctx ci (s : St) : _call_info s = Some ci -> is_Some (calls ci) ->
  books ci (_updated_tokens_totals s) ->
  Forall (fun e : bytes * list layer => exists x, snd e = [x]) (change_trackers ci) ->
  (forall u, excess u s = dsum (map action_delta (all_actions ctx)) u) ->
  _validate_balances sha256 ctx s = for_each (change_trackers ci) check_positive s.
Proof.
  intros Eci [cs Ecs] B Hone Hx. unfold _validate_balances. unfold bind at 1, get_call_info. rewrite Eci, Ecs.
  unfold bind at 1. rewrite mfold_checks by done. unfold bind at 1.
  pose proof (checks_same (change_trackers ci) s) as Hs.
  destruct (for_each (change_trackers ci) check_positive s) as [[[]|e] s1]; simpl in Hs; subst s1; [|done].
  destruct (calculated_totals_get _ _ B) as (d & Ed & Hd). unfold all_calls in Ed. rewrite Ecs in Ed. simpl in Ed.
  unfold ret at 1, bind at 1, lift. rewrite Ed. unfold bind at 1 2.
  rewrite dict_eqb_true by (intros u; by rewrite Hd, <- (b_tally _ _ B)). simpl.
  match goal with |- py_assert ?b s = _ => assert (b = true) as -> end; [|done].
  apply forallb_forall. intros [u n] Hin%list_elem_of_In. simpl. apply Z.eqb_eq.
  match type of Hin with _ ∈ ?l => assert (dval l u = n) as Hn end.
  { unfold dval. erewrite od_get_elem; [done| |exact Hin]. apply actions_nodup, fold_nodup.
    - intros d' x. apply dd_add_nodup.
    - apply fold_nodup; [|constructor]. intros d' x Hd'. apply fold_nodup; [|done]. intros. by apply add_diffs_nodup. }
  rewrite <- Hn, actions_val. rewrite (dval_fold (fun e : bytes * Z => (fst e, - snd e))). simpl.
  rewrite dsum_items by apply B. rewrite sum_all_fold, <- Hx. unfold excess, held, recorded. rewrite Eci.
  unfold dval. simpl. lia.
Qed.
End validation.

Section view.
Variable sha256 : bytes -> bytes.
Context {DB : Type} `{!NodeTrieStore DB}.

Abbreviation St := (Runner DB).
Abbreviation code := (code sha256 (DB := DB)).
Abbreviation step := (step sha256 (DB := DB)).

(** nothing but storages being opened and calls being traced *)
Definition silent (s s' : St) : Prop :=
  (index_updates <$> _call_info s' = index_updates <$> _call_info s) /\
  (events <$> _call_info s' = events <$> _call_info s) /\
  stack_of s' = stack_of s /\
  _updated_tokens_totals s' = _updated_tokens_totals s /\ _paid_actions_fees s' = _paid_actions_fees s /\
  _block_trie (r_block s') = _block_trie (r_block s) /\
  forall c x, od_get (_storages s) c = Some x -> od_get (_storages s') c = Some x.

Lemma silent_refl s : silent s s.
Proof. by repeat split. Qed.

Lemma silent_trans s1 s2 s3 : silent s1 s2 -> silent s2 s3 -> silent s1 s3.
Proof. intros (A1&A2&A3&A4&A5&A6&A7) (B1&B2&B3&B4&B5&B6&B7). repeat split; try congruence. eauto. Qed.

(** the trackers of a contract are what they were, or a first one that is empty *)
Definition untouched (c : bytes) (s s' : St) : Prop :=
  trackers_of s' c = trackers_of s c \/
  trackers_of s c = None /\ exists l, trackers_of s' c = Some [l] /\ empty_layer l.

Lemma untouched_trans c s1 s2 s3 : untouched c s1 s2 -> untouched c s2 s3 -> untouched c s1 s3.
Proof.
  intros [E1|[E1 (l & E2 & H)]] [F1|[F1 F2]].
  - left. congruence.
  - right. split; [congruence|done].
  - right. split; [done|]. exists l. split; [congruence|done].
  - congruence.
Qed.

(** the effect of a view method's code: only its own tracker *)
Definition own_only (r : CallRecord) (s s' : St) : Prop := forall l ls,
  trackers_of s (cr_contract_id r) = Some (l :: ls) ->
  (exists l', trackers_of s' (cr_contract_id r) = Some (l' :: ls)) /\
  (forall c, c <> cr_contract_id r -> untouched c s s') /\ silent s s'.

Lemma own_only_trans r s1 s2 s3 : own_only r s1 s2 -> own_only r s2 s3 -> own_only r s1 s3.
Proof.
  intros H1 H2 l ls E. destruct (H1 l ls E) as ((l1 & E1) & U1 & S1). destruct (H2 l1 ls E1) as ((l2 & E2) & U2 & S2).
  split; [by exists l2|]. split; [|by eapply silent_trans]. intros c Hc. eapply untouched_trans; auto.
Qed.

(** the end of a nested view call *)
Lemma view_call_untouched r2 (s s1 s2 s3 : St) : has_books s -> cr_type r2 = VIEW ->
  on_call_info (pre_call r2) s = (Ok tt, s1) -> own_only r2 s1 s2 -> leave_view sha256 r2 s2 = (Ok tt, s3) ->
  stack_of s3 = stack_of s -> (forall c, untouched c s s3) /\ silent s s3.
Proof.
  intros (ci & Eci & B) Hv (ci0 & ci1 & E0 & (_ & _ & ->)%pre_call_ok & ->)%on_call_info_ok.
  rewrite Eci in E0. injection E0 as <-. set (s1 := set_call_info s (Some (pushed_call r2 ci))).
  set (ts := default [] (od_get (change_trackers ci) (cr_contract_id r2))). intros Ho Hl Est.
  assert (trackers_of s1 (cr_contract_id r2) = Some (new_layer (cr_contract_id r2) :: ts)) as E1.
  { unfold trackers_of. simpl. by rewrite od_get_set_eq. }
  destruct (Ho _ _ E1) as ((l' & E2) & U & (S1 & S2 & S3 & S4 & S5 & S6 & S7)). clear Ho.
  apply leave_view_left in Hl as (l & ls & (ci2 & r' & rest & Eci2 & _ & _ & Eg & _ & H) & Hem).
  unfold trackers_of in E2. rewrite Eci2, Eg in E2. injection E2 as -> ->.
  assert (ts = [] /\ od_get (change_trackers ci) (cr_contract_id r2) = None \/
          ts <> [] /\ od_get (change_trackers ci) (cr_contract_id r2) = Some ts) as Hts.
  { unfold ts. destruct (od_get (change_trackers ci) (cr_contract_id r2)) as [x|] eqn:Ex; [|by left]. right. split; [|done].
    pose proof (b_full _ _ B) as Hf. apply od_get_in in Ex. apply (proj1 (Forall_forall _ _) Hf) in Ex. done. }
  split.
  - intros c. destruct (decide (c = cr_contract_id r2)) as [->|N].
    + destruct H as [[E ->]|[E ->]]; unfold untouched, trackers_of; rewrite Eci; simpl.
      * right. destruct Hts as [[_ ?]|[? _]]; [|done]. split; [done|]. exists l'. rewrite Eg, E. done.
      * left. rewrite od_get_set_eq. destruct Hts as [[? _]|[_ ->]]; done.
    + assert (trackers_of s3 c = trackers_of s2 c) as E3.
      { unfold trackers_of. rewrite Eci2. destruct H as [[_ ->]|[_ ->]]; simpl; [done|]. by rewrite od_get_set_ne. }
      assert (trackers_of s1 c = trackers_of s c) as E4.
      { unfold trackers_of. rewrite Eci. simpl. by rewrite od_get_set_ne. }
      destruct (U c N) as [?|[? (x & ? & ?)]]; [left; congruence|right]. split; [congruence|]. exists x. split; [congruence|done].
  - rewrite Eci2 in S1, S2. simpl in S1, S2, S4, S5, S6, S7. rewrite Hv in S1. injection S1 as S1. injection S2 as S2.
    destruct H as [[_ ->]|[_ ->]]; unfold silent; simpl in *; rewrite Eci; simpl; rewrite S1, S2; repeat split; done.
Qed.

Lemma code_view :
  (forall d s s', code d s s' -> forall r, cur r s -> cr_type r = VIEW -> has_books s -> own_only r s s') /\
  (forall d s s', step d s s' -> forall r, cur r s -> cr_type r = VIEW -> has_books s -> own_only r s s').
Proof.
  assert (forall r r' (s : St), cur r s -> cur r' s -> r = r') as Hun.
  { intros r r' s (ci & rest & E & E1) (ci' & rest' & E' & E1'). congruence. }
  apply (code_step_ind sha256
    (fun d s s' _ => forall r, cur r s -> cr_type r = VIEW -> has_books s -> own_only r s s')
    (fun d s s' _ => forall r, cur r s -> cr_type r = VIEW -> has_books s -> own_only r s s')).
  - intros d s _ r _ _ _ l ls E. split; [eauto|]. split; [by left|]. apply silent_refl.
  - intros d d1 d2 s s1 s2 H1 IH1 _ IH2 _ r Hc Hv B. eapply own_only_trans; [by apply IH1|].
    apply IH2; [by eapply (code_cur sha256), Hc; apply code_step|done|by eapply (proj2 (code_books sha256))].
  - intros s s' (E1&E2&E3&_&_&E4&E5) r _ _ _ l ls E. unfold trackers_of in *. split; [rewrite E1; eauto|].
    split; [intros c _; left; unfold trackers_of; by rewrite E1|]. unfold silent, stack_of. rewrite E1. by repeat split.
  - intros r' d s s' Hc' (l0 & l0' & ls0 & E0 & _ & ->) r Hc _ _ l ls E. rewrite (Hun _ _ _ Hc' Hc) in *.
    rewrite E0 in E. simplify_eq. pose proof (trackers_call_info _ _ _ E0) as His. split.
    + exists l0'. rewrite trackers_put_layers by done. by rewrite bool_decide_eq_true_2.
    + split.
      * intros c N. left. rewrite trackers_put_layers by done. by rewrite bool_decide_eq_false_2 by done.
      * unfold silent. rewrite stack_put_layers. unfold put_layers. destruct (_call_info s) as [ci|] eqn:Eci; [|by destruct His].
        by repeat split.
  - intros r' record u n s s1 s' Hc' Hp _ _ _ r Hc Hv. rewrite (Hun _ _ _ Hc' Hc) in *. congruence.
  - intros r' record s s' Hc' Hp _ _ r Hc Hv. rewrite (Hun _ _ _ Hc' Hc) in *. congruence.
  - intros r' data s s' Hc' Hp _ r Hc Hv. rewrite (Hun _ _ _ Hc' Hc) in *. congruence.
  - intros r' u n s Hc' Hp r Hc Hv. rewrite (Hun _ _ _ Hc' Hc) in *. congruence.
  - intros r' d ci c bp name ctx args s s1 s2 s3 Hc' Hp _ _ _ _ _ r Hc Hv. rewrite (Hun _ _ _ Hc' Hc) in *. congruence.
  - intros r' d ci c bp name args s s1 s2 s3 Hc' E H1 Hco IH H2 r Hc Hv B l ls El.
    destruct (view_call_untouched _ s s1 s2 s3 B (eq_refl : cr_type (new_record VIEW c bp name None args ci) = VIEW) H1) as [U S].
    + apply IH; [by eapply pre_call_cur|done|by eapply books_pre_call].
    + done.
    + apply (proj2 (code_stack sha256) d). by eapply step_view.
    + split; [|auto]. destruct (U (cr_contract_id r)) as [->|[? _]]; [eauto|congruence].
Qed.

(** a view call: nothing is touched *)
Lemma view_shape_untouched c b name args (s s0 s1 s2 s' : St) ci : has_books s ->
  opened s s0 -> _call_info s0 = Some ci ->
  on_call_info (pre_call (new_record VIEW c b name None args ci)) s0 = (Ok tt, s1) ->
  code dzero s1 s2 -> leave_view sha256 (new_record VIEW c b name None args ci) s2 = (Ok tt, s') ->
  (forall c, untouched c s s') /\ silent s s'.
Proof.
  intros B Ho Eci Hpre Hcode Hl.
  assert (has_books s0) as B0. { destruct B as (ci0 & E & B). exists ci0. destruct Ho as (-> & -> & _). done. }
  destruct (view_call_untouched _ s0 s1 s2 s' B0 (eq_refl : cr_type (new_record VIEW c b name None args ci) = VIEW) Hpre) as [U S].
  - eapply (proj1 code_view); [done|by eapply pre_call_cur|done|by eapply books_pre_call].
  - done.
  - apply stack_pre_call in Hpre as (x & E & E1). apply stack_leave_view in Hl as (r' & x' & E2 & E3).
    rewrite (proj1 (code_stack sha256) _ _ _ Hcode) in E2. congruence.
  - destruct Ho as (E1&E2&E3&_&_&E4&E5). split.
    + intros c'. specialize (U c'). unfold untouched, trackers_of in *. by rewrite E1 in U.
    + destruct S as (S1&S2&S3&S4&S5&S6&S7). unfold silent, stack_of in *. rewrite E1 in *. repeat split; try congruence. eauto.
Qed.
End view.
