(* ===== verification/RunnerFuel.v ===== *)
(** The depth of calls: a call of depth [MAX_RECURSION_DEPTH] is refused, so giving the
    interpreter more levels of calls than that changes nothing. *)

From stdpp Require Import base list gmap strings.
From Stdlib Require Import ZArith Lia.
From S2P Require Import Prelude PyInt PyValue NCTypes PatriciaTrie BlockStorage ContractStorage.
From S2P Require Import StorageInterface ContractStorageTheory ChangesTracker ScriptCode ScriptVM TxStruct TokenInfo.
From S2P Require Import StaticMetadata Metadata TxVerifier BlockVerifier NCContext RunnerState Runner RunnerSteps.
From S2P Require Import RunnerRefine.

Local Open Scope Z_scope.
Local Open Scope py_scope.

Section agree.
Variable sha256 : bytes -> bytes.
Context {DB : Type} `{!NodeTrieStore DB}.
Context {CR : Crypto} {SS : ScriptSettings} {TS : TxSettings} {VSet : VerifierSettings} {UC : Unicode}.
Context {VS : VertexStorage} {SM : StaticStore} {NS : NodeState} {BP : Blueprints}.

Abbreviation St := (Runner DB).
Abbreviation does := (does sha256 (DB := DB)).

Definition depth_of (s : St) : nat := match _call_info s with None => 0%nat | Some ci => depth ci end.

Lemma depth_stack s : depth_of s = length (default [] (stack_of s)).
Proof. unfold depth_of, stack_of. by destruct (_call_info s). Qed.

(** the two commands do the same with [r] running at depth [k] or deeper *)
Definition agree {A} (r : CallRecord) (k : nat) (m m' : M St A) : Prop :=
  forall s, cur r s -> (k <= depth_of s)%nat -> m s = m' s.

Lemma agree_refl {A} r k (m : M St A) : agree r k m m.
Proof. done. Qed.

Lemma agree_bind2 {A B} r k (m m' : M St A) (f f' : A -> M St B) d P :
  agree r k m m' -> does r m d P -> (forall a, P a -> agree r k (f a) (f' a)) -> agree r k (bind m f) (bind m' f').
Proof.
  intros Hm Hd Hf s Hc Hk. unfold bind. rewrite <- (Hm s Hc Hk). destruct (m s) as [[a|e] s1] eqn:E; [|done].
  destruct (Hd _ _ _ Hc E) as [C1 Ha]. apply Hf; [done|by eapply code_cur|].
  rewrite depth_stack, (proj1 (code_stack sha256) _ _ _ C1), <- depth_stack. done.
Qed.

Lemma agree_bind {A B} r k (m : M St A) (f f' : A -> M St B) d P :
  does r m d P -> (forall a, P a -> agree r k (f a) (f' a)) -> agree r k (bind m f) (bind m f').
Proof. by apply agree_bind2. Qed.

Lemma agree_metered {A} r k (m m' : M St A) : agree r k m m' -> agree r k (metered_call m) (metered_call m').
Proof. intros H s Hc Hk. unfold metered_call. by rewrite (H s). Qed.

(** two levels of calls that do the same from depth [k] on *)
Definition calls_agree (k : nat) (C C' : Calls (DB := DB)) : Prop :=
  (forall c b name ctx args skip forbid s, (k <= depth_of s)%nat ->
    do_public C c b name ctx args skip forbid s = do_public C' c b name ctx args skip forbid s) /\
  (forall c b name args kwargs s, (k <= depth_of s)%nat ->
    do_view C c b name args kwargs s = do_view C' c b name args kwargs s).

Ltac agree_step := eapply agree_bind; [solve [eauto with does]|intros ? ?; cbv beta in *; subst].

Section levels.
Context (C C' : Calls (DB := DB)) (k : nat) (HC : calls_ok sha256 C) (HA : calls_agree k C C').

Lemma agree_public r c b name ctx args skip forbid :
  agree r k (do_public C c b name ctx args skip forbid) (do_public C' c b name ctx args skip forbid).
Proof. intros s _ Hk. by apply HA. Qed.

Lemma agree_view r c b name args kwargs : agree r k (do_view C c b name args kwargs) (do_view C' c b name args kwargs).
Proof. intros s _ Hk. by apply HA. Qed.

Lemma agree_unsafe_public r c b name actions fees args skip forbid :
  agree r k (_unsafe_call_another_contract_public_method sha256 C c b name actions fees args skip forbid)
    (_unsafe_call_another_contract_public_method sha256 C' c b name actions fees args skip forbid).
Proof.
  unfold _unsafe_call_another_contract_public_method. agree_step. agree_step.
  eapply agree_bind; [apply does_lift|]. intros ? Hv. cbv beta in Hv.
  assert (Hp : cr_type r = PUBLIC) by (destruct (cr_type r); [done|by rewrite bool_decide_eq_true_2 in Hv]).
  do 2 agree_step. eapply (agree_bind _ _ _ _ _ dzero anything).
  { destruct (last (stack a)); [|apply does_raise]. destruct (cr_ctx _); [by apply does_ret|apply does_raise]. }
  intros first_ctx _. eapply agree_bind.
  { apply does_for_each. intros x _. apply does_on_tracker, top_caller_rule. }
  intros _ _. eapply agree_bind.
  { apply does_for_each0. intros f _. eapply does_seq; [apply does_assert|]. intros _ _.
    eapply does_seq; [by apply does_update_tokens|]. intros _ _. by apply does_paid_fee. }
  intros _ _. agree_step. eapply agree_bind2; [apply agree_public|by apply (proj1 HC)|].
  intros. apply agree_refl.
Qed.

Lemma agree_syscall r op : agree r k (run_syscall sha256 C op) (run_syscall sha256 C' op).
Proof.
  destruct op as [| | |c|u|c u|key t d|key t v|key|key|u mint melt|u n p|u n p|salt name symbol n mint melt
    |salt name symbol n mint melt p|d|b|c ids name actions fees args kwargs forbid|c ids name args kwargs
    |b name actions fees args forbid|b name args kwargs|b salt actions fees args kwargs]; simpl; try apply agree_refl.
  - eapply agree_bind; [apply does_validate|].
    intros _ _. unfold syscall_call_another_contract_public_method. do 7 agree_step. apply agree_unsafe_public.
  - eapply agree_bind; [apply does_validate|].
    intros _ _. unfold syscall_call_another_contract_view_method. do 4 agree_step. apply agree_view.
  - unfold syscall_proxy_call_public_method. do 7 agree_step. apply agree_unsafe_public.
  - unfold syscall_proxy_call_view_method. do 6 agree_step. apply agree_view.
  - unfold syscall_create_another_contract. do 5 agree_step. eapply (agree_bind _ _ _ _ _ dzero anything).
    { intros s x s' _ E. split; [|done]. apply code_step, step_open. by eapply internal_create_opened. }
    intros _ _. eapply agree_bind2; [apply agree_unsafe_public|by apply does_unsafe_public|]. intros. apply agree_refl.
Qed.

Lemma agree_prog r p : agree r k (run_prog sha256 C p) (run_prog sha256 C' p).
Proof.
  induction p as [v|e|op f IH]; simpl; [apply agree_refl..|].
  eapply agree_bind2; [apply agree_syscall|by apply run_syscall_code|]. intros a _. apply IH.
Qed.
(** ** One level of calls *)

Lemma bind_agree {A B} (m : M St A) (f f' : A -> M St B) s :
  (forall a s', m s = (Ok a, s') -> f a s' = f' a s') -> bind m f s = bind m f' s.
Proof. intros H. unfold bind. destruct (m s) as [[a|e] s1]; [by apply H|done]. Qed.
End levels.

Lemma pre_call_depth r (s s' : St) a : on_call_info (pre_call r) s = (Ok a, s') ->
  depth_of s' = S (depth_of s) /\ (depth_of s < MAX_RECURSION_DEPTH)%nat.
Proof.
  intros (ci & ci' & E & (Hd & _ & ->)%pre_call_ok & ->)%on_call_info_ok. unfold depth_of. rewrite E. done.
Qed.

Lemma opened_depth (s s' : St) : opened s s' -> depth_of s' = depth_of s.
Proof. intros (E & _). unfold depth_of. by rewrite E. Qed.

(** calls that agree one level deeper, or that are refused *)
Definition deeper (k : nat) (C C' : Calls (DB := DB)) : Prop :=
  (k < MAX_RECURSION_DEPTH)%nat -> calls_agree (S k) C C'.

Ltac skip_lift := apply bind_agree; intros ? ? [-> _]%lift_ok.

Lemma agree_execute_public k C C' c b name ctx args skip forbid (s : St) : calls_ok sha256 C -> deeper k C C' ->
  (k <= depth_of s)%nat ->
  _execute_public_method_call sha256 C c b name ctx args skip forbid s
  = _execute_public_method_call sha256 C' c b name ctx args skip forbid s.
Proof.
  intros HC HA Hk. unfold _execute_public_method_call.
  apply bind_agree. intros ? ? F. inj F. apply bind_agree. intros ? ? [-> _]%get_call_info_ok. skip_lift.
  apply bind_agree. intros ? s0 Ho%create_tracker_opened. rewrite <- (opened_depth _ _ Ho) in Hk.
  skip_lift. rename a into bp. apply bind_agree. intros [[[called method] rt] cargs] ? [-> _]%lift_ok.
  apply bind_agree. intros ? ? ->%reentrancy_ok. apply bind_agree. intros ci ? [-> Eci]%get_call_info_ok.
  set (r := new_record PUBLIC c b called (Some ctx) cargs ci).
  apply bind_agree. intros [] s1 Hpre. pose proof (pre_call_cur _ _ _ _ Hpre) as Hcur.
  apply pre_call_depth in Hpre as [Hd Hlt]. specialize (HA ltac:(lia)).
  assert (S k <= depth_of s1)%nat as Hk1 by lia. clear -HC HA Hcur Hk1. revert s1 Hcur Hk1.
  match goal with |- forall s, _ -> _ -> ?m s = ?m' s => change (agree r (S k) m m') end.
  eapply agree_bind; [apply does_lift|]. intros _ _. eapply agree_bind; [by apply (callee_actions_code sha256 r)|]. intros _ _.
  eapply agree_bind; [apply does_lift|]. intros ctx_copy _.
  eapply agree_bind2; [apply agree_metered; by apply agree_prog|by apply does_metered, run_prog_code|].
  intros. apply agree_refl.
Qed.

Lemma agree_execute_view k C C' c b name args kwargs (s : St) : calls_ok sha256 C -> deeper k C C' ->
  (k <= depth_of s)%nat ->
  _unsafe_call_view_method sha256 C c b name args kwargs s = _unsafe_call_view_method sha256 C' c b name args kwargs s.
Proof.
  intros HC HA Hk. unfold _unsafe_call_view_method.
  apply bind_agree. intros ? ? [-> _]%get_call_info_ok.
  apply bind_agree. intros ini si F. assert (si = s) as ->.
  { unfold has_contract_been_initialized in F. destruct (od_get (_storages s) c); by inj F. }
  skip_lift. apply bind_agree. intros ? sx Fx. assert (depth_of sx = depth_of s) as Hx by by inj Fx. clear Fx F.
  apply bind_agree. intros ? s0 Ho%create_tracker_opened. apply opened_depth in Ho.
  apply bind_agree. intros bp ? [-> _]%lift_ok. destruct (get_attr bp name) as [method|]; [|done].
  do 3 skip_lift. apply bind_agree. intros ci ? [-> Eci]%get_call_info_ok.
  match goal with |- context [pre_call ?x] => set (r := x) end.
  apply bind_agree. intros [] s1 Hpre. pose proof (pre_call_cur _ _ _ _ Hpre) as Hcur.
  apply pre_call_depth in Hpre as [Hd Hlt]. specialize (HA ltac:(lia)).
  assert (S k <= depth_of s1)%nat as Hk1 by lia. clear -HC HA Hcur Hk1. revert s1 Hcur Hk1.
  match goal with |- forall s, _ -> _ -> ?m s = ?m' s => change (agree r (S k) m m') end.
  eapply agree_bind2; [apply agree_metered; by apply agree_prog|by apply does_metered, run_prog_code|].
  intros. apply agree_refl.
Qed.

Lemma agree_level k C C' : calls_ok sha256 C -> deeper k C C' ->
  calls_agree k (mkCalls (_execute_public_method_call sha256 C) (_unsafe_call_view_method sha256 C))
    (mkCalls (_execute_public_method_call sha256 C') (_unsafe_call_view_method sha256 C')).
Proof. intros HC HA. split; intros; [by eapply agree_execute_public|by eapply agree_execute_view]. Qed.

Lemma calls_at_S n : calls_at sha256 (S n) =
  mkCalls (_execute_public_method_call sha256 (calls_at sha256 n)) (_unsafe_call_view_method sha256 (calls_at sha256 n)).
Proof. done. Qed.

(** [S n] levels are as good as any larger number from depth [100 - n] on *)
Lemma calls_at_agree n m k : (n <= m)%nat -> (MAX_RECURSION_DEPTH <= k + n)%nat ->
  calls_agree k (calls_at sha256 (S n)) (calls_at sha256 (S m)).
Proof.
  revert m k. induction n as [|n IH]; intros m k Hnm Hk.
  { rewrite !calls_at_S. apply agree_level; [apply (calls_at_ok sha256 0)|]. intros Hlt. lia. }
  rewrite (calls_at_S (S n)), (calls_at_S m). apply agree_level; [apply (calls_at_ok sha256 (S n))|]. intros Hlt. destruct m as [|m]; [lia|]. apply IH; lia.
Qed.

Lemma calls_deeper n k : (call_fuel <= n)%nat -> deeper k (calls_at sha256 call_fuel) (calls_at sha256 n).
Proof. intros Hn _. destruct n as [|n]; [unfold call_fuel in Hn; lia|]. apply calls_at_agree; unfold call_fuel in *; lia. Qed.
End agree.
