(* ===== verification/RunnerFrame.v ===== *)
(** What holds of an execution whatever its outcome: until its changes are committed, the
    block's trie and the storages of the contracts are as they were; and the trace of its
    calls only gets longer and stays within the limits on their number and depth. *)

From stdpp Require Import base list gmap strings.
From Stdlib Require Import ZArith Lia.
From S2P Require Import Prelude PyInt PyValue NCTypes PatriciaTrie BlockStorage ContractStorage.
From S2P Require Import StorageInterface ContractStorageTheory ChangesTracker ScriptCode ScriptVM TxStruct TokenInfo.
From S2P Require Import StaticMetadata Metadata TxVerifier BlockVerifier NCContext RunnerState Runner RunnerSteps.
From S2P Require Import RunnerRefine RunnerBalance RunnerRecords.

Local Open Scope Z_scope.
Local Open Scope py_scope.

(** * Operations that leave the wrapped storage alone, errors included *)

Definition aloof {A} (m : writer A) : Prop := forall S ops t, storage (m S ops t).2 = storage t.

Lemma aloof_ret {A} (a : A) : aloof (fun S _ => ret a).
Proof. done. Qed.

Lemma aloof_read {A} (f : forall S, StorageOps S -> tracker S -> result A) : aloof (fun S ops t => (f S ops t, t)).
Proof. done. Qed.

Lemma aloof_lift {A} (x : result A) : aloof (fun S _ => lift x).
Proof. done. Qed.

Lemma aloof_raise {A} e : aloof (fun S _ => raise (A := A) e).
Proof. done. Qed.

Lemma aloof_assert b : aloof (fun S _ => py_assert b).
Proof. intros S ops t. by destruct b. Qed.

Lemma aloof_bind {A B} (m : writer A) (f : A -> writer B) :
  aloof m -> (forall a, aloof (f a)) -> aloof (fun S ops => let! a := m S ops in f a S ops).
Proof.
  intros Hm Hf S ops t. unfold bind. specialize (Hm S ops t). destruct (m S ops t) as [[a|e] t1]; simpl in *; [|done].
  by rewrite Hf.
Qed.

Lemma aloof_for_each {A} (l : list A) (f : A -> writer unit) :
  (forall x, aloof (f x)) -> aloof (fun S ops => for_each l (fun x => f x S ops)).
Proof.
  intros H. induction l as [|x l IH]; simpl; [apply aloof_ret|].
  apply (aloof_bind (f x) (fun _ S ops => for_each l (fun x => f x S ops))); [done|]. by intros _.
Qed.

Lemma aloof_check : aloof (fun S _ => tr_check_if_locked).
Proof. intros S ops t. unfold tr_check_if_locked. by repeat case_match. Qed.

Lemma check_err {S} (t t' : tracker S) e : tr_check_if_locked t = (Err e, t') -> t' = t.
Proof. unfold tr_check_if_locked. by repeat case_match; intros; simplify_eq. Qed.

(** a change behind the lock *)
Lemma aloof_locked {A} (g : writer A) : aloof g -> aloof (fun S ops => tr_check_if_locked ;;; g S ops).
Proof. intros H. apply (aloof_bind (fun S _ => tr_check_if_locked) (fun _ => g)); [apply aloof_check|done]. Qed.

Lemma aloof_add_balance u n : aloof (fun S _ => tr_add_balance u n).
Proof. by apply (aloof_locked (fun S _ t => _)). Qed.

Lemma aloof_authorities u mint melt new : aloof (fun S _ => set_authorities u mint melt new).
Proof.
  apply (aloof_bind (fun S _ => py_assert _) (fun _ S _ => _)); [apply aloof_assert|]. intros _.
  by apply (aloof_locked (fun S _ t => _)).
Qed.

Lemma aloof_put_obj k ty v : aloof (fun S _ => tr_put_obj k ty v).
Proof.
  apply (aloof_locked (fun S _ => _)). apply (aloof_bind (fun S _ => _) (fun a S _ => _)); [|done]. done.
Qed.

Lemma aloof_del_obj k : aloof (fun S _ => tr_del_obj k).
Proof. by apply (aloof_locked (fun S _ t => _)). Qed.

Lemma aloof_create_token td : aloof (fun S _ => tr_create_token td).
Proof. apply (aloof_bind (fun S _ t => _) (fun a S _ => _)); [done|]. by intros []. Qed.

Lemma aloof_set_blueprint b : aloof (fun S _ => tr_set_blueprint_id b).
Proof. by apply (aloof_locked (fun S _ t => _)). Qed.

Lemma aloof_require b mint melt : aloof (fun S _ => require_authorities b mint melt).
Proof. apply (aloof_bind (fun S _ => _) (fun _ S _ => _)); [apply aloof_lift|]. intros _. apply aloof_lift. Qed.

Create HintDb aloof.
#[export] Hint Resolve aloof_ret aloof_read aloof_lift aloof_raise aloof_assert aloof_add_balance aloof_authorities aloof_put_obj
  aloof_del_obj aloof_create_token aloof_set_blueprint aloof_require : aloof.

Lemma aloof_callee a : aloof (nc_callee_execution_rule a).
Proof.
  destruct a; simpl; [apply aloof_add_balance..| |];
    (apply (aloof_bind (fun S _ => py_assert _) (fun _ S ops => _)); [apply aloof_assert|]; intros _).
  - apply aloof_authorities.
  - apply (aloof_bind (tracker_balance token_uid) (fun b S _ => _)); [apply aloof_read|]. intros b. apply aloof_require.
Qed.

Lemma aloof_caller a : aloof (nc_caller_execution_rule a).
Proof.
  destruct a; simpl; [apply aloof_add_balance..| |];
    (apply (aloof_bind (fun S _ => lift _) (fun _ S ops => _)); [apply aloof_lift|]; intros _).
  - apply (aloof_bind (tracker_balance token_uid) (fun b S _ => _)); [apply aloof_read|]. intros b. apply aloof_require.
  - apply aloof_authorities.
Qed.

Lemma aloof_commit_to {S0} (t : tracker S0) : aloof (commit_to t).
Proof.
  unfold commit_to. apply (aloof_bind (fun S _ => commit_data (S := tracker S) (data t)) (fun _ S ops => _)).
  { apply (aloof_for_each _ (fun item S _ => _)). intros [k [obj ty]].
    destruct (MaybeDeletedNCType.is_DeletedKey obj); [apply aloof_del_obj|]. destruct ty; [apply aloof_put_obj|apply aloof_raise]. }
  intros _. apply (aloof_bind (fun S _ => commit_balances (S := tracker S) (_balance_diff t)) (fun _ S ops => _)).
  { apply (aloof_for_each _ (fun item S _ => _)). intros item. apply aloof_add_balance. }
  intros _. apply (aloof_bind (fun S _ => commit_authorities (S := tracker S) (_authorities_diff t)) (fun _ S ops => _)).
  { apply (aloof_for_each _ (fun item S _ => _)). intros item.
    apply (aloof_bind (fun S _ => _) (fun _ S _ => _)); [apply aloof_authorities|]. intros _. apply aloof_authorities. }
  intros _. apply (aloof_bind (fun S _ => commit_tokens (S := tracker S) (_created_tokens t)) (fun _ S ops => _)).
  { apply (aloof_for_each _ (fun item S _ => _)). intros item. apply aloof_create_token. }
  intros _. destruct (_blueprint_id t); [apply aloof_set_blueprint|apply aloof_ret].
Qed.

(** * Commands that leave the block's trie and the open storages alone *)

Section tame.
Variable sha256 : bytes -> bytes.
Context {DB : Type} `{!NodeTrieStore DB}.
Context {CR : Crypto} {SS : ScriptSettings} {TS : TxSettings} {VSet : VerifierSettings} {UC : Unicode}.
Context {VS : VertexStorage} {SM : StaticStore} {NS : NodeState} {BP : Blueprints}.

Abbreviation St := (Runner DB).

(** storages may have been opened, none has changed *)
Definition grows (s s' : St) : Prop :=
  _block_trie (r_block s') = _block_trie (r_block s) /\
  forall c x, od_get (_storages s) c = Some x -> od_get (_storages s') c = Some x.

Lemma grows_refl s : grows s s.
Proof. done. Qed.

Lemma grows_trans s1 s2 s3 : grows s1 s2 -> grows s2 s3 -> grows s1 s3.
Proof. intros [A1 A2] [B1 B2]. split; [congruence|]. eauto. Qed.

Lemma opened_grows (s s' : St) : opened s s' -> grows s s'.
Proof. by intros (_&_&_&_&_&?&?). Qed.

(** the limits on the calls of an execution *)
Definition within (ci : CallInfo) : Prop :=
  (call_counter ci <= MAX_CALL_COUNTER)%nat /\ (length (all_calls ci) <= call_counter ci)%nat /\
  Forall (fun r => (cr_depth r < MAX_RECURSION_DEPTH)%nat) (all_calls ci) /\ (depth ci <= MAX_RECURSION_DEPTH)%nat.

(** the calls that were made are kept, and the limits *)
Definition traces (ci ci' : CallInfo) : Prop := (within ci -> within ci') /\ all_calls ci `prefix_of` all_calls ci'.

Lemma traces_same ci ci' : call_counter ci' = call_counter ci -> calls ci' = calls ci -> (depth ci' <= depth ci)%nat -> traces ci ci'.
Proof. intros E1 E2 Hd. unfold traces, within, all_calls. rewrite E1, E2. split; [|done]. intros (?&?&?&?). split_and!; try done. lia. Qed.

(** storages may have been opened, calls may have been made *)
Definition steady (s s' : St) : Prop :=
  grows s s' /\ forall ci, _call_info s = Some ci -> exists ci', _call_info s' = Some ci' /\ traces ci ci'.

Lemma steady_same (s s' : St) : grows s s' -> _call_info s' = _call_info s -> steady s s'.
Proof. intros G E. split; [done|]. intros ci Ec. exists ci. split; [congruence|]. by apply traces_same. Qed.

Lemma steady_refl s : steady s s.
Proof. by apply steady_same. Qed.

Lemma steady_trans s1 s2 s3 : steady s1 s2 -> steady s2 s3 -> steady s1 s3.
Proof.
  intros [A1 A2] [B1 B2]. split; [by eapply grows_trans|]. intros ci E. destruct (A2 ci E) as (ci2 & E2 & T2 & P2).
  destruct (B2 ci2 E2) as (ci3 & E3 & T3 & P3). exists ci3. split; [done|]. split; [auto|]. by etrans.
Qed.

Lemma opened_steady (s s' : St) : opened s s' -> steady s s'.
Proof. intros O. apply steady_same; [by apply opened_grows|]. apply O. Qed.

Definition tame {A} (m : M St A) : Prop := forall s, steady s (m s).2.

Lemma tame_read {A} (m : M St A) : (forall s, (m s).2 = s) -> tame m.
Proof. intros H s. rewrite H. apply steady_refl. Qed.

Lemma tame_ret {A} (a : A) : tame (ret a).
Proof. by apply tame_read. Qed.

Lemma tame_raise {A} e : tame (raise (A := A) e).
Proof. by apply tame_read. Qed.

Lemma tame_lift {A} (x : result A) : tame (lift x).
Proof. by apply tame_read. Qed.

Lemma tame_assert b : tame (py_assert b).
Proof. apply tame_read. by destruct b. Qed.

(** the second part runs only in a state the first returns in *)
Lemma tame_bind_at {A B} (m : M St A) (f : A -> M St B) s :
  steady s (m s).2 -> (forall a s1, m s = (Ok a, s1) -> steady s1 (f a s1).2) -> steady s (bind m f s).2.
Proof.
  intros Hm Hf. unfold bind. destruct (m s) as [[a|e] s1]; simpl in *; [|done].
  eapply steady_trans; [exact Hm|]. by apply Hf.
Qed.

Lemma tame_bind {A B} (m : M St A) (f : A -> M St B) : tame m -> (forall a, tame (f a)) -> tame (bind m f).
Proof. intros Hm Hf s. apply tame_bind_at; [apply Hm|]. intros. apply Hf. Qed.

Lemma tame_for_each {A} (l : list A) (f : A -> M St unit) : (forall x, tame (f x)) -> tame (for_each l f).
Proof. intros H. induction l as [|x l IH]; simpl; [apply tame_ret|]. by apply tame_bind. Qed.

Lemma tame_opened {A} (m : M St A) : (forall s, opened s (m s).2) -> tame m.
Proof. intros H s. apply opened_steady, H. Qed.

Lemma tame_get_call_info : tame get_call_info.
Proof. apply tame_read. intros s. unfold get_call_info. by destruct (_call_info s). Qed.

Lemma on_call_info_steady {A} (m : M CallInfo A) (s : St) :
  (forall ci, _call_info s = Some ci -> traces ci (m ci).2) -> steady s (on_call_info m s).2.
Proof.
  intros H. unfold on_call_info. destruct (_call_info s) as [ci|] eqn:E; [|apply steady_refl].
  specialize (H ci eq_refl). destruct (m ci) as [r ci']. split; [done|]. intros ci0 E0. rewrite E in E0. injection E0 as <-.
  by exists ci'.
Qed.

(** a change of the records, the events or the trackers, and the end of a call *)
Lemma tame_on_call_info {A} (m : M CallInfo A) :
  (forall ci, call_counter (m ci).2 = call_counter ci /\ calls (m ci).2 = calls ci /\ (depth (m ci).2 <= depth ci)%nat) ->
  tame (on_call_info m).
Proof. intros H s. apply on_call_info_steady. intros ci _. by apply traces_same; apply H. Qed.

Lemma tame_emit data : tame (on_call_info (emit_event data)).
Proof. apply tame_on_call_info. intros ci. unfold emit_event. by case_match. Qed.

Lemma tame_append call record : tame (append_update call record).
Proof. apply tame_on_call_info. intros ci. by destruct (index_updates ci !! cr_id call). Qed.

Lemma tame_post_call r : tame (on_call_info (post_call r)).
Proof.
  apply tame_on_call_info. intros ci. unfold post_call, depth. destruct (stack ci) as [|r' rest] eqn:E; [by simpl; rewrite E|].
  cbn [length]. repeat case_match; simpl; (split; [done|]); (split; [done|]); lia.
Qed.

(** the beginning of a call: the limits are checked before the call is recorded *)
Lemma tame_pre_call {A} (f : CallInfo -> CallRecord) (m : CallInfo -> M St A) :
  (forall ci, cr_depth (f ci) = depth ci) -> (forall ci, tame (m ci)) ->
  tame (let! ci := get_call_info in on_call_info (pre_call (f ci)) ;;; m ci).
Proof.
  intros Hf Hm s. apply tame_bind_at; [apply tame_get_call_info|]. intros ci s1 E.
  assert (s1 = s /\ _call_info s = Some ci) as [-> Eci] by (unfold get_call_info in E; destruct (_call_info s); by inj E).
  apply tame_bind_at; [|intros; apply Hm]. apply on_call_info_steady. intros ci0 E0. rewrite Eci in E0. injection E0 as <-.
  unfold pre_call. destruct (Nat.leb_spec MAX_RECURSION_DEPTH (depth ci)); [by apply traces_same|].
  destruct (Nat.leb_spec MAX_CALL_COUNTER (call_counter ci)); [by apply traces_same|].
  unfold traces, within, all_calls. cbn [snd call_counter calls stack depth]. destruct (enable_call_trace ci).
  - change (default [] (Some ?l)) with l. rewrite length_app. split; [|by apply prefix_app_r]. intros (H1 & H2 & H3 & H4). unfold depth in *. simpl in *.
    split_and!; [lia|lia|apply Forall_app; split; [done|by apply Forall_singleton; rewrite Hf]|lia].
  - split; [|done]. intros (H1 & H2 & H3 & H4). unfold depth in *. simpl in *. split_and!; [lia|lia|done|lia].
Qed.

Lemma tame_initialized c : tame (has_contract_been_initialized c).
Proof. apply tame_read. intros s. unfold has_contract_been_initialized. by destruct (od_get (_storages s) c). Qed.

Lemma tame_read_layers {A} c ls (f : reader A) : tame (read_layers sha256 c ls f).
Proof. apply tame_read. intros s. unfold read_layers. by destruct (storage_of s c). Qed.

Lemma tame_read_or_storage {A} c (f : reader A) : tame (read_tracker_or_storage sha256 c f).
Proof. apply tame_opened. intros s. apply read_or_storage_opened. Qed.

Lemma tame_executor : tame (fun s => (Ok tt, set_executor s)).
Proof. intros s. by apply steady_same. Qed.

Lemma tame_totals (f : St -> list (bytes * Z)) : tame (fun s => (Ok tt, set_totals s (f s))).
Proof. intros s. by apply steady_same. Qed.

Lemma tame_fee u n : tame (_register_paid_fee u n).
Proof. intros s. by apply steady_same. Qed.

Lemma steady_put_layers (s : St) c ls : steady s (put_layers s c ls).
Proof.
  unfold put_layers. destruct (_call_info s) as [ci|] eqn:E; [|apply steady_refl]. split; [done|]. intros ci0 E0.
  rewrite E in E0. injection E0 as <-. eexists. split; [done|]. by apply traces_same.
Qed.

Lemma on_tracker_steady {A} c (m : writer A) (s : St) :
  (forall l ls c0, trackers_of s c = Some (l :: ls) -> (write_at sha256 m c0 l ls).1.2 = c0) ->
  steady s (on_tracker sha256 c m s).2.
Proof.
  intros H. unfold on_tracker. destruct (trackers_of s c) as [[|l ls]|]; [apply steady_refl| |apply steady_refl].
  destruct (storage_of s c) as [c0|] eqn:Es; [|apply steady_refl]. specialize (H l ls c0 eq_refl).
  destruct (write_at sha256 m c0 l ls) as [[r c1] ls1]. simpl in *. subst c1.
  rewrite (put_storage_same c c0 s Es). apply steady_put_layers.
Qed.

Lemma tame_on_tracker {A} c (m : writer A) : aloof m -> tame (on_tracker sha256 c m).
Proof.
  intros H s. apply on_tracker_steady. intros l ls c0 _. unfold write_at.
  pose proof (H _ (nest_ops sha256 (length ls)) (over l (stack_up c0 ls))) as Hs.
  destruct (m _ _ (over l (stack_up c0 ls))) as [r t]. simpl in *. rewrite Hs. apply base_stack_up.
Qed.

(** a commit to the tracker below *)
Lemma nested_commit_steady c (s : St) l l2 ls : trackers_of s c = Some (l :: l2 :: ls) ->
  steady s (on_tracker sha256 c (fun S _ => tr_commit) s).2.
Proof.
  intros Et. apply on_tracker_steady. intros l0 ls0 c0 E. rewrite Et in E. simplify_eq.
  unfold write_at, tr_commit. cbn [length stack_up]. unfold bind.
  match goal with |- context [tr_check_if_locked ?x] => destruct (tr_check_if_locked x) as [[[]|e] t] eqn:Ec end.
  - apply tr_check_same in Ec as ->.
    pose proof (aloof_commit_to (over l0 (over l2 (stack_up c0 ls))) _ (nest_ops sha256 (length ls)) (over l2 (stack_up c0 ls))) as Hs.
    match goal with |- context [@commit_storage ?A ?O ?x ?y] =>
      change (@storage (nest DB (length ls)) (@commit_storage A O x y).2 = stack_up c0 ls) in Hs;
      destruct (@commit_storage A O x y) as [[[]|e] u] end;
      simpl in Hs |- *; destruct u; simpl in *; subst; apply base_stack_up.
  - apply check_err in Ec as ->. apply (base_stack_up c0 (l2 :: ls)).
Qed.

Lemma tame_metered {A} (m : M St A) : tame m -> tame (metered_call m).
Proof.
  intros H s. specialize (H s). unfold metered_call. destruct (m s) as [[a|e] s1]; [done|]. by destruct (_ || _).
Qed.

Lemma tame_internal_create c b : tame (_internal_create_contract sha256 c b).
Proof.
  intros s. unfold _internal_create_contract. apply tame_bind_at; [apply tame_initialized|]. intros ini s0 H0.
  assert (s0 = s /\ (ini = false -> od_get (_storages s) c = None)) as [-> Hc].
  { unfold has_contract_been_initialized in H0. destruct (od_get (_storages s) c); inj H0; done. }
  apply tame_bind_at; [apply tame_assert|]. intros [] s1 H1. apply assert_same in H1 as [-> Hi].
  specialize (Hc ltac:(by destruct ini)). unfold get_empty_contract_storage.
  pose proof (block_get_trie_trie sha256 None (r_block s)) as Ht.
  destruct (block_get_trie sha256 None (r_block s)) as [[tr|e] b1]; [|by apply steady_same]. simpl in Ht |- *.
  unfold cs_set_blueprint_id, cs_check_if_locked, bind, _put_metadata, _trie_update, lift. simpl.
  destruct (_serialize _ _) as [content|e]; [|by apply steady_same]. unfold bind. simpl.
  destruct (update sha256 (b_db b1) _ content tr) as [[[]|e] tr']; [|by apply steady_same].
  apply steady_same; [|done]. split; [done|]. simpl.
  intros c' x' Hx. rewrite od_get_set_ne; [done|]. congruence.
Qed.
End tame.

Create HintDb tame.
#[export] Hint Resolve tame_ret tame_raise tame_lift tame_assert tame_get_call_info tame_emit tame_append tame_post_call tame_initialized
  tame_read_layers tame_read_or_storage tame_executor tame_totals tame_fee tame_internal_create
  aloof_callee aloof_caller : tame.
#[export] Hint Extern 3 (tame (on_tracker _ _ _)) => apply tame_on_tracker; eauto with tame aloof : tame.

(** goes through a command bind by bind *)
Ltac tame_walk :=
  repeat first
    [ solve [eauto with tame]
    | apply tame_bind; [|intros ?]
    | apply tame_for_each; intros ?
    | apply tame_metered
    | match goal with
      | |- tame (if ?b then _ else _) => destruct b
      | |- tame (match ?x with _ => _ end) => destruct x
      end ].

Section syscalls.
Variable sha256 : bytes -> bytes.
Context {DB : Type} `{!NodeTrieStore DB}.
Context {CR : Crypto} {SS : ScriptSettings} {TS : TxSettings} {VSet : VerifierSettings} {UC : Unicode}.
Context {VS : VertexStorage} {SM : StaticStore} {NS : NodeState} {BP : Blueprints}.

Abbreviation St := (Runner DB).
Abbreviation tame := (tame (DB := DB)).

Lemma tame_record : tame get_current_call_record.
Proof. unfold get_current_call_record. tame_walk. Qed.
#[local] Hint Resolve tame_record : tame.

Lemma tame_contract_id : tame get_current_contract_id.
Proof. unfold get_current_contract_id. tame_walk. Qed.
#[local] Hint Resolve tame_contract_id : tame.

Lemma tame_current_tracker : tame get_current_changes_tracker.
Proof. unfold get_current_changes_tracker. tame_walk. Qed.
#[local] Hint Resolve tame_current_tracker : tame.

Lemma tame_on_current {A} (m : writer A) : aloof m -> tame (on_current sha256 m).
Proof. intros H. unfold on_current. apply tame_bind; [eauto with tame|]. intros [c ls]. by apply tame_on_tracker. Qed.
#[local] Hint Extern 3 (RunnerFrame.tame (on_current _ _)) => apply tame_on_current; eauto with tame aloof : tame.

Lemma tame_assert_updates call : tame (assert_updates call).
Proof. unfold assert_updates. tame_walk. Qed.

Lemma tame_blueprint_id c : tame (get_blueprint_id sha256 c).
Proof. apply tame_read_or_storage. Qed.

Lemma tame_code_blueprint : tame get_current_code_blueprint_id.
Proof. unfold get_current_code_blueprint_id. tame_walk. Qed.

Lemma tame_forbid : tame forbid_call_on_view.
Proof. unfold forbid_call_on_view. tame_walk. Qed.
#[local] Hint Resolve tame_assert_updates tame_blueprint_id tame_code_blueprint tame_forbid : tame.

Lemma tame_balance c u before : tame (_get_balance sha256 c u before).
Proof.
  unfold _get_balance. apply tame_bind; [|intros []; tame_walk].
  intros s. destruct (_call_info s); [|apply steady_refl].
  assert (tame (let! c0 := get_current_contract_id in ret (bool_decide (c = c0)))) as H by tame_walk. apply H.
Qed.

Lemma tame_handle_index a : tame (_handle_index_update a).
Proof. unfold _handle_index_update. tame_walk. Qed.

Lemma tame_update_amount call r : tame (update_amount sha256 call r).
Proof. unfold update_amount. tame_walk. Qed.
#[local] Hint Resolve tame_balance tame_handle_index tame_update_amount : tame.

Lemma tame_update_tokens records : tame (_update_tokens_amount sha256 records).
Proof. unfold _update_tokens_amount. tame_walk. Qed.

Lemma tame_token u : tame (_get_token sha256 u).
Proof. unfold _get_token. tame_walk. Qed.
#[local] Hint Resolve tame_update_tokens tame_token : tame.

Lemma tame_create_child_token v salt name symbol n mint melt p :
  tame (create_child_token sha256 v salt name symbol n mint melt p).
Proof. unfold create_child_token, _create_token. tame_walk. Qed.

Lemma tame_tokens u n p mint melt :
  tame (syscall_revoke_authorities sha256 u mint melt) /\ tame (syscall_mint_tokens sha256 u n p) /\
  tame (syscall_melt_tokens sha256 u n p).
Proof.
  unfold syscall_revoke_authorities, syscall_mint_tokens, syscall_melt_tokens, tracker_balance. split_and!; tame_walk.
Qed.

Lemma tame_msum {A} (f : A -> M St Z) l acc : (forall x, tame (f x)) -> tame (msum f l acc).
Proof. intros H. revert acc. induction l as [|x l IH]; intros acc; simpl; [tame_walk|]. by apply tame_bind. Qed.

Lemma tame_actions_fees actions fees : tame (_validate_actions_fees sha256 actions fees).
Proof.
  unfold _validate_actions_fees. apply tame_bind; [by apply tame_read|]. intros paid. apply tame_bind; [tame_walk|]. intros _.
  apply tame_bind; [apply tame_msum; intros; tame_walk|]. intros fee_sum.
  apply tame_bind; [apply tame_msum|intros; tame_walk]. intros e s. unfold expected_fee_of.
  destruct (od_get (_paid_actions_fees s) (fst e)); [apply steady_refl|].
  match goal with |- steady s (?m s).2 => assert (tame m) as H by tame_walk end. apply H.
Qed.
#[local] Hint Resolve tame_actions_fees : tame.

Lemma tame_fields bp : tame (_check_all_field_initialized sha256 bp).
Proof.
  unfold _check_all_field_initialized. apply tame_bind; [eauto with tame|]. intros [c ls]. apply tame_bind; [|intros; tame_walk].
  induction (fields bp) as [|f fs IH]; tame_walk.
Qed.

Lemma tame_reentrancy c method : tame (_validate_reentrancy c method).
Proof. unfold _validate_reentrancy. tame_walk. Qed.

(** ** Calls *)

Definition calls_tame (C : Calls (DB := DB)) : Prop :=
  (forall c b name ctx args skip forbid, tame (do_public C c b name ctx args skip forbid)) /\
  (forall c b name args kwargs, tame (do_view C c b name args kwargs)).

Section calls.
Context (C : Calls (DB := DB)) (HC : calls_tame C).

Lemma tame_public c b name ctx args skip forbid : tame (do_public C c b name ctx args skip forbid).
Proof. apply HC. Qed.
Lemma tame_view c b name args kwargs : tame (do_view C c b name args kwargs).
Proof. apply HC. Qed.
#[local] Hint Resolve tame_public tame_view : tame.

Lemma tame_unsafe_public c b name actions fees args skip forbid :
  tame (_unsafe_call_another_contract_public_method sha256 C c b name actions fees args skip forbid).
Proof. unfold _unsafe_call_another_contract_public_method. tame_walk. Qed.

Lemma tame_validate c ids : tame (validate_blueprint_id sha256 c ids).
Proof. unfold validate_blueprint_id. tame_walk. Qed.
#[local] Hint Resolve tame_unsafe_public tame_validate : tame.

Lemma tame_syscall op : tame (run_syscall sha256 C op).
Proof.
  destruct op; simpl; try solve [eauto with tame]; try apply tame_create_child_token; try (by apply tame_tokens);
    unfold syscall_emit_event, syscall_change_blueprint, syscall_call_another_contract_public_method,
      syscall_call_another_contract_view_method, syscall_proxy_call_public_method, syscall_proxy_call_view_method,
      syscall_create_another_contract; tame_walk.
Qed.

Lemma tame_prog p : tame (run_prog sha256 C p).
Proof. induction p as [v|e|op f IH]; simpl; [apply tame_ret|apply tame_raise|]. apply tame_bind; [apply tame_syscall|done]. Qed.
#[local] Hint Resolve tame_prog tame_fields tame_reentrancy : tame.

(** the end of a public call: a tracker is committed to the one below it *)
Lemma tame_leave {A} c (m : M St A) : tame m -> tame
  (let! n := tracker_count c in
   (if (1 <? n)%nat then on_tracker sha256 c (fun S _ => tr_commit) else ret tt) ;;; m).
Proof.
  intros Hm s. apply tame_bind_at.
  { unfold tracker_count. destruct (trackers_of s c); apply steady_refl. }
  intros n s1 (-> & ls & Et & ->)%tracker_count_ok. apply tame_bind_at; [|intros; apply Hm].
  destruct (Nat.ltb_spec 1 (length ls)); [|apply steady_refl].
  destruct ls as [|l [|l2 ls]]; simpl in *; [lia..|]. by eapply nested_commit_steady.
Qed.

Lemma tame_create_tracker c : tame (_create_changes_tracker sha256 c).
Proof. apply tame_read_or_storage. Qed.
#[local] Hint Resolve tame_create_tracker tame_handle_index : tame.

Lemma tame_execute_public c b name ctx args skip forbid :
  tame (_execute_public_method_call sha256 C c b name ctx args skip forbid).
Proof.
  unfold _execute_public_method_call. apply tame_bind; [by apply tame_read|]. intros _.
  do 4 (apply tame_bind; [eauto with tame|intros ?]). apply tame_bind; [apply tame_lift|]. intros [[[called method] rt] cargs].
  apply tame_bind; [tame_walk|intros _].
  apply (tame_pre_call (new_record PUBLIC c b called (Some ctx) cargs)); [done|intros ci]. apply tame_bind; [apply tame_lift|intros _].
  apply tame_bind; [tame_walk|intros _]. apply tame_bind; [apply tame_lift|intros ctx_copy].
  apply tame_bind; [tame_walk|intros res]. apply tame_bind; [tame_walk|intros _]. apply tame_leave. tame_walk.
Qed.

Lemma tame_execute_view c b name args kwargs : tame (_unsafe_call_view_method sha256 C c b name args kwargs).
Proof.
  unfold _unsafe_call_view_method. do 6 (apply tame_bind; [eauto with tame|intros ?]). destruct (get_attr _ _); [|tame_walk].
  do 3 (apply tame_bind; [eauto with tame|intros ?]). apply tame_pre_call; [done|intros ci]. tame_walk.
Qed.
End calls.

Lemma calls_at_tame n : calls_tame (calls_at sha256 n).
Proof.
  induction n as [|n IH]; [split; intros; apply tame_raise|].
  split; intros; [by apply tame_execute_public|by apply tame_execute_view].
Qed.
End syscalls.
