(* ===== verification/VerificationService.v ===== *)
(** [hathor/verification/verification_service.py]: which verifications run on which vertex,
    in which order, and the validation state they lead to.

    The feature service keeps the states it has computed, so a verification is a command on
    its state ([FM]); a class is named by its version, as [type(vertex)] is checked against
    it in every branch. *)

From stdpp Require Import base list.
From Stdlib Require Import ZArith Lia Floats.SpecFloat.
From S2P Require Import Prelude PyInt PyValue PyFloat ScriptCode ScriptVM TxStruct VertexStruct VertexParser.
From S2P Require Import TokenInfo StaticMetadata Metadata Daa FeatureActivation TxVerifier BlockVerifier.

Local Open Scope Z_scope.
Local Open Scope py_scope.

(** [NCStorageFactory] *)
Class NCStorageFactory (B : Type) : Type := {
  get_empty_block_storage : B;
  get_block_storage : bytes -> B
}.

Section service.
Context {CR : Crypto} {SS : ScriptSettings} {TS : TxSettings} {VS : VertexStorage} {SM : StaticStore} {NS : NodeState}.
Context {FL : FloatLib} {DS : DaaSettings} {FS : FeatureSettings} {PS : ParserSettings} {ES : VerifierSettings} {UN : Unicode}.
Context {B : Type} `{!TokenStore B} `{!NanoNode B} `{!NCStorageFactory B}.

(** the clock of the node *)
Context (now : Z).

Definition _get_block_storage (params : VerificationParams) : B :=
  match nc_block_root_id params with
  | None => get_empty_block_storage
  | Some root_id => get_block_storage root_id
  end.

Definition skipped (v : vertex) : bool := bool_decide (v_hash v ∈ SKIP_VERIFICATION).

(** * Without storage *)

Definition _verify_without_storage_base_block (block : vertex) (params : VerificationParams) : result unit :=
  let? _ := verify_no_inputs block in
  let? _ := verify_outputs block in
  let? _ := block_verify_output_token_indexes block in
  let? _ := verify_data block in
  verify_sigops_output block (enable_checkdatasig_count params).

Definition _verify_without_storage_block (block : vertex) (params : VerificationParams) : result unit :=
  let? _ := verify_pow block in
  _verify_without_storage_base_block block params.

Definition _verify_without_storage_tx (tx : vertex) (params : VerificationParams) : result unit :=
  let? _ := if is_pow then verify_pow tx else Ok tt in
  let? _ := verify_number_of_inputs tx in
  let? _ := verify_outputs tx in
  let? _ := verify_output_token_indexes tx in
  let? _ := verify_sigops_output tx (enable_checkdatasig_count params) in
  verify_tokens tx params.

Definition _verify_without_storage_on_chain_blueprint (tx : vertex) (params : VerificationParams) : result unit :=
  let? _ := _verify_without_storage_tx tx params in
  let? _ := verify_pubkey_is_allowed tx in
  let? _ := ocb_verify_nc_signature tx in
  code_rules tx.

Definition _verify_without_storage_nano_header (tx : vertex) : result unit :=
  let? _ := verify_nc_signature tx in
  verify_actions tx.

Definition _verify_without_storage_fee_header (tx : vertex) : result unit :=
  match get_fee_header tx with
  | Some fees => verify_fee_list fees tx
  | None => Err AssertionError
  end.

Definition verify_without_storage (v : vertex) (params : VerificationParams) : result unit :=
  if skipped v then Ok tt else
  let? _ := if has_fees v then _verify_without_storage_fee_header v else Ok tt in
  let? _ := match v_version v with
    | REGULAR_BLOCK | MERGE_MINED_BLOCK => _verify_without_storage_block v params
    | POA_BLOCK => _verify_without_storage_base_block v params
    | REGULAR_TRANSACTION | TOKEN_CREATION_TRANSACTION => _verify_without_storage_tx v params
    | ON_CHAIN_BLUEPRINT => _verify_without_storage_on_chain_blueprint v params
    end in
  if is_nano_contract v then
    if ENABLE_NANO_CONTRACTS then _verify_without_storage_nano_header v else Err AssertionError
  else Ok tt.

(** * Basic verifications *)

Definition _verify_basic_block (block : vertex) (params : VerificationParams) : result unit :=
  let? _ := if skip_block_weight_verification params then Ok tt else block_verify_weight block in
  let? _ := verify_reward block in
  verify_checkpoints block.

Definition _verify_basic_poa_block (block : vertex) : result unit :=
  let? _ := verify_poa block in
  verify_reward block.

Definition _verify_basic_tx (tx : vertex) (params : VerificationParams) : result unit :=
  if is_genesis tx then Ok tt else
  let? _ := verify_parents_basic tx in
  let? _ := if is_pow then tx_verify_weight tx else Ok tt in
  verify_without_storage tx params.

Definition verify_basic (v : vertex) (params : VerificationParams) : result unit :=
  if skipped v then Ok tt else
  let? _ := verify_version_basic v in
  let? _ := verify_old_timestamp now v params in
  let? _ := match v_version v with
    | REGULAR_BLOCK | MERGE_MINED_BLOCK => _verify_basic_block v params
    | POA_BLOCK => _verify_basic_poa_block v
    | REGULAR_TRANSACTION | TOKEN_CREATION_TRANSACTION => _verify_basic_tx v params
    | ON_CHAIN_BLUEPRINT => if ENABLE_NANO_CONTRACTS then _verify_basic_tx v params else Err AssertionError
    end in
  raise_if (is_nano_contract v && negb ENABLE_NANO_CONTRACTS) AssertionError.

(** * Full verifications *)

Definition _verify_block (block : vertex) (params : VerificationParams) : FM unit :=
  if is_genesis block then ret tt else
  lift (verify_without_storage block params) ;;;
  lift (verify_parents block) ;;;
  lift (verify_height block) ;;;
  verify_mandatory_signaling block.

Definition _verify_merge_mined_block (block : vertex) (params : VerificationParams) : FM unit :=
  verify_aux_pow block ;;;
  _verify_block block params.

(** an empty [token_dict] is falsy; the one of a transaction never is *)
Definition _verify_tx (tx : vertex) (params : VerificationParams) (token_dict : option TokenInfoDict) : result unit :=
  if is_genesis tx then Ok tt else
  let? _ := verify_without_storage tx params in
  let? _ := verify_sigops_input tx (enable_checkdatasig_count params) in
  let? _ := verify_inputs tx in
  let? _ := verify_version tx params in
  let? token_dict := match token_dict with
    | Some d => match entries d with [] => get_complete_token_info (_get_block_storage params) tx | _ => Ok d end
    | None => get_complete_token_info (_get_block_storage params) tx
    end in
  let? _ := verify_sum token_dict (is_nano_contract tx) in
  let? _ := verify_parents tx in
  let? _ := verify_conflict tx params in
  if reject_locked_reward params then verify_reward_locked tx else Ok tt.

Definition _verify_token_creation_tx (tx : vertex) (params : VerificationParams) : result unit :=
  let? _ := verify_token_info tx params in
  let? token_dict := get_complete_token_info (_get_block_storage params) tx in
  let? _ := _verify_tx tx params (Some token_dict) in
  verify_minted_tokens tx token_dict.

Definition verify (v : vertex) (params : VerificationParams) : FM unit :=
  if skipped v then ret tt else
  lift (verify_headers v params) ;;;
  (match v_version v with
   | REGULAR_BLOCK | POA_BLOCK => _verify_block v params
   | MERGE_MINED_BLOCK => _verify_merge_mined_block v params
   | REGULAR_TRANSACTION | ON_CHAIN_BLUEPRINT => lift (_verify_tx v params None)
   | TOKEN_CREATION_TRANSACTION => lift (_verify_token_creation_tx v params)
   end) ;;;
  if is_nano_contract v then
    if ENABLE_NANO_CONTRACTS then
      lift (verify_method_call v params) ;;;
      lift (verify_seqnum v params)
    else raise AssertionError
  else ret tt.

(** * Validation states *)

(** the state of a vertex after [validate_basic], from the state it had *)
Definition validate_basic (v : vertex) (params : VerificationParams) (validation : ValidationState) : result ValidationState :=
  if is_at_least_basic validation then Ok validation else
  let? _ := verify_basic v params in
  Ok BASIC.

(** [validate_full], on a vertex whose static metadata is initialised *)
Definition validate_full (v : vertex) (params : VerificationParams) (sync_checkpoints : bool)
    (validation : ValidationState) : FM ValidationState :=
  if is_checkpoint validation then ret CHECKPOINT_FULL else
  (if negb (is_at_least_basic validation) then lift (verify_basic v params) else ret tt) ;;;
  verify v params ;;;
  ret (if sync_checkpoints then CHECKPOINT_FULL else FULL).
End service.
