(* ===== verification/VerificationTheory.v ===== *)
(** What a vertex that passed verification guarantees. *)

From stdpp Require Import base list sorting.
From Stdlib Require Import ZArith Lia Floats.SpecFloat.
From S2P Require Import Prelude PyInt PyValue Compound NCTypes BlockStorage PyFloat ScriptCode ScriptVM.
From S2P Require Import ScriptTheory ScriptP2PKH TxStruct VertexStruct VertexParser TokenInfo TokenInfoTheory VerifySum.
From S2P Require Import StaticMetadata StaticMetadataTheory Metadata Daa FeatureActivation FeatureTheory.
From S2P Require Import TxVerifier TxVerifierTheory BlockVerifier VerificationService.

Local Open Scope Z_scope.
Local Open Scope py_scope.

(** one step of a command that succeeded *)
Lemma lift_bind_ok {S A B} (r : result A) (f : A -> M S B) s b s' :
  bind (lift r) f s = (Ok b, s') -> exists a, r = Ok a /\ f a s = (Ok b, s').
Proof. unfold bind, lift. destruct r; [by eauto|done]. Qed.

Lemma bind_ok_both {S A B} (m : M S A) (f : A -> M S B) s b s' :
  bind m f s = (Ok b, s') -> exists a s1, m s = (Ok a, s1) /\ f a s1 = (Ok b, s').
Proof. unfold bind. destruct (m s) as [[a|e] s1]; [by eauto|done]. Qed.

Section theory.
Context {CR : Crypto} {SS : ScriptSettings} {TS : TxSettings} {VS : VertexStorage} {SM : StaticStore} {NS : NodeState}.
Context {FL : FloatLib} {DS : DaaSettings} {FS : FeatureSettings} {PS : ParserSettings} {ES : VerifierSettings} {UN : Unicode}.
Context {B : Type} `{!TokenStore B} `{!NanoNode B} `{!NCStorageFactory B}.

(** * Transactions *)

(** the sums of a transaction passed their verification *)
Definition sums_verified (tx : vertex) (params : VerificationParams) : Prop := exists d,
  get_complete_token_info (_get_block_storage params) tx = Ok d /\ verify_sum d (is_nano_contract tx) = Ok tt.

(** what all transactions go through *)
Definition tx_checks (tx : vertex) (params : VerificationParams) : Prop :=
  verify_without_storage tx params = Ok tt /\ verify_sigops_input tx (enable_checkdatasig_count params) = Ok tt /\
  verify_inputs tx = Ok tt /\ sums_verified tx params /\ verify_parents tx = Ok tt /\ verify_conflict tx params = Ok tt /\
  (reject_locked_reward params = true -> verify_reward_locked tx = Ok tt).

Lemma verify_tx_checks tx params d : _verify_tx tx params d = Ok tt -> is_genesis tx = false ->
  match d with Some d => get_complete_token_info (_get_block_storage params) tx = Ok d | None => True end ->
  tx_checks tx params.
Proof.
  unfold _verify_tx. intros H Hg Hd. rewrite Hg in H.
  inv_rok H. inv_rok H. inv_rok H. inv_rok H. inv_rok H. inv_rok H. inv_rok H. inv_rok H.
  repeat match goal with u : unit |- _ => destruct u end. repeat split; try done; [|by intros Hr; rewrite Hr in H].
  eexists. split; [|done]. destruct d as [d|]; [|done]. rewrite Hd in *. destruct (entries d); congruence.
Qed.

Lemma verified_tx_checks tx params st st' : is_block tx = false -> is_genesis tx = false -> skipped tx = false ->
  verify tx params st = (Ok tt, st') -> tx_checks tx params.
Proof.
  intros Hb Hg Hs H. unfold verify in H. rewrite Hs in H. apply lift_bind_ok in H as (_ & _ & H).
  apply bind_ok_both in H as ([] & s1 & H & _). unfold is_block in Hb.
  destruct (v_version tx); try done; unfold lift in H; injection H as H _.
  - by eapply verify_tx_checks.
  - unfold _verify_token_creation_tx in H. inv_rok H. inv_rok H. inv_rok H. destruct a1. by eapply verify_tx_checks.
  - by eapply verify_tx_checks.
Qed.


(** * Blocks *)

(** what every block goes through *)
Definition block_checks (b : vertex) : Prop :=
  verify_reward b = Ok tt /\ v_inputs b = [] /\ verify_parents b = Ok tt /\ verify_height b = Ok tt.

(** a vertex that a node received and validated in full *)
Definition validated (v : vertex) : Prop := exists now params sync st s st',
  validate_full now v params sync INITIAL st = (Ok s, st').

Lemma validated_both v : validated v -> exists now params st st',
  verify_basic now v params = Ok tt /\ verify v params st = (Ok tt, st').
Proof.
  intros (now & params & sync & st & s & st' & H). unfold validate_full in H. cbn in H.
  apply lift_bind_ok in H as ([] & Hbasic & H). apply bind_ok_both in H as ([] & s1 & H & _). eauto 10.
Qed.

Lemma basic_reward now b params : is_block b = true -> skipped b = false -> verify_basic now b params = Ok tt ->
  verify_reward b = Ok tt.
Proof.
  unfold is_block. intros Hb Hs H. unfold verify_basic in H. rewrite Hs in H. inv_rok H. inv_rok H. inv_rok H.
  destruct (v_version b); try done.
  - unfold _verify_basic_block in Hm1. inv_rok Hm1. inv_rok Hm1. by destruct a3.
  - unfold _verify_basic_block in Hm1. inv_rok Hm1. inv_rok Hm1. by destruct a3.
  - unfold _verify_basic_poa_block in Hm1. inv_rok Hm1. by destruct a1.
Qed.

Lemma without_storage_no_inputs b params : is_block b = true -> skipped b = false ->
  verify_without_storage b params = Ok tt -> v_inputs b = [].
Proof.
  unfold is_block. intros Hb Hs H. unfold verify_without_storage in H. rewrite Hs in H. inv_rok H. inv_rok H.
  assert (E : exists u, _verify_without_storage_base_block b params = Ok u).
  { destruct (v_version b); try done; [| |by eauto]; unfold _verify_without_storage_block in Hm0; inv_rok Hm0; by eauto. }
  destruct E as [u E]. unfold _verify_without_storage_base_block in E. inv_rok E. unfold verify_no_inputs in Hm1.
  by destruct (v_inputs b).
Qed.

Lemma verify_is_block b params st st' : is_block b = true -> skipped b = false -> verify b params st = (Ok tt, st') ->
  exists s1 s2, _verify_block b params s1 = (Ok tt, s2).
Proof.
  unfold is_block. intros Hb Hs H. unfold verify in H. rewrite Hs in H. apply lift_bind_ok in H as (_ & _ & H).
  apply bind_ok_both in H as ([] & s2 & H & _). destruct (v_version b); try done; [by eauto| |by eauto].
  unfold _verify_merge_mined_block in H. apply bind_ok_both in H as (_ & s3 & _ & H). by eauto.
Qed.

Lemma validated_block b : is_block b = true -> is_genesis b = false -> skipped b = false -> validated b -> block_checks b.
Proof.
  intros Hb Hg Hs Hv. destruct (validated_both b Hv) as (now & params & st & st' & H1 & H2).
  split; [by eapply basic_reward|]. destruct (verify_is_block _ _ _ _ Hb Hs H2) as (s1 & s2 & V).
  unfold _verify_block in V. rewrite Hg in V. apply lift_bind_ok in V as ([] & Hw & V). apply lift_bind_ok in V as ([] & Hp & V).
  apply lift_bind_ok in V as ([] & Hh & _). split; [by eapply without_storage_no_inputs|done].
Qed.

(** the blocks from [b] down to the genesis block, without it *)
Inductive chain_of : vertex -> list vertex -> Prop :=
| chain_genesis g : is_genesis g = true -> chain_of g []
| chain_cons b p l : is_genesis b = false -> get_block_parent b = Ok p -> chain_of p l -> chain_of b (b :: l).

(** all that [v] depends on, directly or not *)
Inductive depends : vertex -> vertex -> Prop :=
| depends_refl v : depends v v
| depends_step v d w u : d ∈ dependencies v -> get_transaction d = Ok w -> depends w u -> depends v u.

Section chain.
Context {SO : SetOrder}.
Hypothesis dag : dag_ok.
(** the node stores vertices that it validated *)
Hypothesis all_validated : forall v, stored v -> is_genesis v = false -> skipped v = false /\ validated v.

Lemma stored_checks b : stored_block b -> is_genesis b = false -> block_checks b.
Proof using all_validated. intros [Hs Hb] Hg. destruct (all_validated b Hs Hg). by apply validated_block. Qed.

Lemma genesis_height b : stored_block b -> is_genesis b = true -> get_height b = 0.
Proof using dag.
  intros [Hs Hb] Hg. pose proof (stored_static dag _ _ Hs) as E. unfold create_static in E. rewrite Hb in E.
  unfold block_static_create in E. inv_rok E. inv_rok E. inv_rok E. unfold get_height. injection E as <-.
  unfold _calculate_height in Hm. rewrite Hg in Hm. by injection Hm as <-.
Qed.

Lemma block_height_nonneg b : stored_block b -> 0 <= get_height b.
Proof using dag.
  apply (chain_ind dag (fun b => 0 <= get_height b)); [intros g Hs Hg; by rewrite genesis_height|].
  intros v p _ _ _ _ -> IH. lia.
Qed.

(** the outputs of a chain are the scheduled rewards *)
Lemma chain_rewards b : stored_block b -> exists l, chain_of b l /\ Z.of_nat (length l) = get_height b /\
  foldr Z.add 0 (map sum_outputs l) = total_issued (Z.to_nat (get_height b)).
Proof using dag all_validated.
  apply (chain_ind dag (fun b => exists l, chain_of b l /\ Z.of_nat (length l) = get_height b /\
    foldr Z.add 0 (map sum_outputs l) = total_issued (Z.to_nat (get_height b)))).
  - intros g Hs Hg. exists []. rewrite genesis_height by done. split; [by constructor|done].
  - intros v p Hs Hg Hp Hsp Eh (l & Hc & Hl & Hsum). exists (v :: l). split; [by econstructor|].
    split; [cbn [length]; lia|]. cbn [map foldr]. rewrite Hsum.
    destruct (stored_checks v Hs Hg) as (Hr & _). unfold verify_reward in Hr. rewrite Hp in Hr. cbn [rbind] in Hr.
    inv_rok Hr. apply raise_if_inv in Hr. apply negb_false_iff, Z.eqb_eq in Hr.
    pose proof (block_height_nonneg p Hsp). replace (Z.to_nat (get_height v)) with (S (Z.to_nat (get_height p))) by lia.
    cbn [total_issued]. replace (Z.of_nat (S (Z.to_nat (get_height p)))) with (get_height p + 1) by lia.
    unfold issued. rewrite Hm. lia.
Qed.

(** ** The supply *)

Section supply.
Context (blocks_per_halving : Z).
Hypothesis halving : BLOCKS_PER_HALVING = Some blocks_per_halving.
Hypothesis halving_pos : 0 < blocks_per_halving.
Hypothesis minimum_ok : 0 <= MINIMUM_TOKENS_PER_BLOCK <= INITIAL_TOKENS_PER_BLOCK.
Hypothesis maximum_ok : 0 <= MAXIMUM_NUMBER_OF_HALVINGS /\
  INITIAL_TOKENS_PER_BLOCK / 2 ^ (MAXIMUM_NUMBER_OF_HALVINGS + 1) <= MINIMUM_TOKENS_PER_BLOCK.

(** C5: the supply is the scheduled one: in a node whose blocks were all validated, the values
    of the outputs of all blocks from the one after genesis up to any stored block add up to
    exactly the tokens [get_mined_tokens] gives for its height. *)
Theorem verified_supply b : stored_block b -> exists l, chain_of b l /\ Z.of_nat (length l) = get_height b /\
  get_mined_tokens (get_height b) = Ok (foldr Z.add 0 (map sum_outputs l)).
Proof using dag all_validated halving halving_pos minimum_ok maximum_ok.
  intros Hs. destruct (chain_rewards b Hs) as (l & Hc & Hl & E). exists l. split; [done|]. split; [done|].
  rewrite E. pose proof (block_height_nonneg b Hs). rewrite <- (Z2Nat.id (get_height b)) at 1 by done.
  by apply (mined_total blocks_per_halving).
Qed.
End supply.

(** ** Rewards are not spent early *)

Lemma first_parent b p : get_block_parent b = Ok p -> exists h l, v_parents b = h :: l /\ get_transaction h = Ok p.
Proof.
  unfold get_block_parent, get_block_parent_hash. destruct (v_parents b) as [|h l]; [done|].
  change (py_index (h :: l) 0) with (Ok h). cbn [rbind]. unfold get_block. intros H. inv_rok H.
  destruct (is_block a); [|done]. injection H as ->. by exists h, l.
Qed.

(** what a dependency of [v] passes on: the height of a block, the minimum height of a transaction *)
Definition reached (v : vertex) : Z := if is_block v then get_height v else min_height v.

Lemma block_reached v d w : stored_block v -> d ∈ dependencies v -> get_transaction d = Ok w -> reached w <= get_height v.
Proof using dag all_validated.
  intros [Hs Hb] Hd Hw. destruct (is_genesis v) eqn:Hg; [by rewrite (stored_genesis dag _ _ Hs Hg) in Hd; apply not_elem_of_nil in Hd|].
  destruct (height_parent dag v (conj Hs Hb) Hg) as (p & Ep & [Hsp Hbp] & Eh).
  destruct (stored_checks v (conj Hs Hb) Hg) as (_ & Hi & Hp & Hh). unfold verify_height in Hh. apply raise_if_ok, Z.ltb_ge in Hh.
  apply verify_parents_ok in Hp as (_ & blocks & txs & Epar & Lb & _ & _ & Ft). rewrite Hb in Lb.
  destruct (first_parent v p Ep) as (h & l & El & Hgp). destruct blocks as [|h' [|]]; try done. rewrite El in Epar. cbn in Epar.
  injection Epar as <- <-. unfold dependencies in Hd. rewrite El, Hi, app_nil_r in Hd. unfold reached.
  apply elem_of_cons in Hd as [->|Hin]; [rewrite Hgp in Hw; injection Hw as <-; rewrite Hbp; lia|].
  rewrite Forall_forall in Ft. destruct (Ft d Hin) as (w' & Hw' & Hbw & _). rewrite Hw in Hw'. injection Hw' as <-. rewrite Hbw.
  etrans; [|exact Hh]. eapply min_height_inherited; [done|done| |done]. unfold inherited_ids. by rewrite Hb, El.
Qed.

Hypothesis lock_nonneg : 0 <= REWARD_SPEND_MIN_BLOCKS.

Lemma tx_reached v d w : stored v -> is_block v = false -> d ∈ dependencies v -> get_transaction d = Ok w -> reached w <= min_height v.
Proof using dag all_validated lock_nonneg.
  intros Hs Hb Hd Hw. unfold reached. destruct (is_block w) eqn:Hbw.
  - destruct (is_genesis v) eqn:Hg; [by rewrite (stored_genesis dag _ _ Hs Hg) in Hd; apply not_elem_of_nil in Hd|].
    destruct (all_validated v Hs Hg) as [Hsk Hv]. destruct (validated_both v Hv) as (now & params & st & st' & _ & H).
    destruct (verified_tx_checks _ _ _ _ Hb Hg Hsk H) as (_ & _ & _ & _ & Hp & _).
    apply verify_parents_ok in Hp as (_ & blocks & txs & Epar & Lb & _ & _ & Ft). rewrite Hb in Lb. destruct blocks; [|done].
    cbn in Epar. unfold dependencies in Hd. rewrite Epar in Hd. apply elem_of_app in Hd as [Hd|Hd].
    + rewrite Forall_forall in Ft. destruct (Ft d Hd) as (w' & Hw' & Hbw' & _). congruence.
    + apply list_elem_of_In, in_map_iff in Hd as (i & <- & Hi). apply list_elem_of_In in Hi.
      pose proof (min_height_reward dag v i w Hs Hb Hi Hw Hbw). lia.
  - eapply min_height_inherited; [done|done| |done]. unfold inherited_ids. by rewrite Hb.
Qed.

Lemma reward_reached v u i r : depends v u -> stored v -> is_block u = false -> i ∈ v_inputs u ->
  get_transaction (in_tx_id i) = Ok r -> is_block r = true -> get_height r + REWARD_SPEND_MIN_BLOCKS < reached v.
Proof using dag all_validated lock_nonneg.
  intros H. induction H as [v|v d w u Hd Hw _ IH]; intros Hs Hbu Hi Hr Hbr.
  - unfold reached. rewrite Hbu. by eapply min_height_reward.
  - specialize (IH (get_stored dag _ _ Hw) Hbu Hi Hr Hbr). eapply Z.lt_le_trans; [exact IH|]. unfold reached at 2.
    destruct (is_block v) eqn:Hb; [by eapply block_reached|by eapply tx_reached].
Qed.

(** C6: rewards are never spent early in the chain: when a block of a node whose vertices were
    all validated confirms, directly or through its ancestors, a transaction that spends a
    block reward, the rewarded block is more than [REWARD_SPEND_MIN_BLOCKS] below it. *)
Theorem rewards_mature b u i r : stored_block b -> depends b u -> is_block u = false -> i ∈ v_inputs u ->
  get_transaction (in_tx_id i) = Ok r -> is_block r = true -> get_height r + REWARD_SPEND_MIN_BLOCKS < get_height b.
Proof using dag all_validated lock_nonneg.
  intros [Hs Hb] Hd Hbu Hi Hr Hbr. pose proof (reward_reached b u i r Hd Hs Hbu Hi Hr Hbr) as H.
  unfold reached in H. by rewrite Hb in H.
Qed.
End chain.
End theory.

(** * A node with two blocks after genesis, the second one confirming a transaction that
    spends the reward of the first *)

Section demo.
Definition node_hash (n : Z) : bytes := repeat Byte.x00 31 ++ [z2b n].

Definition node_settings : TxSettings :=
  {| FEE_PER_OUTPUT := 1; TOKEN_DEPOSIT_PERCENTAGE := float_0_01; MAX_NUM_INPUTS := 255; MAX_NUM_OUTPUTS := 255;
     MAX_OUTPUT_SCRIPT_SIZE := 1024; MAX_INPUT_DATA_SIZE := 1024; MAX_TX_SIGOPS_INPUT := 1275;
     MAX_TX_SIGOPS_OUTPUT := 1275; MAX_DISTANCE_BETWEEN_BLOCKS := 4500; REWARD_SPEND_MIN_BLOCKS := 0;
     GENESIS_HASHES := map node_hash [0; 1; 2]; GENESIS_BLOCK_HASH := node_hash 0 |}.

Definition node_parser_settings : ParserSettings :=
  {| ENABLE_NANO_CONTRACTS := true; NC_ON_CHAIN_BLUEPRINT_CODE_MAX_SIZE_UNCOMPRESSED := 240000;
     NC_ON_CHAIN_BLUEPRINT_CODE_MAX_SIZE_COMPRESSED := 24000; CONSENSUS_ALGORITHM := PowSettings |}.

Definition node_verifier_settings : VerifierSettings :=
  {| WEIGHT_TOL := S754_zero false; MAX_TX_WEIGHT_DIFF := S754_finite false 4503599627370496 (-50);
     MAX_TX_WEIGHT_DIFF_ACTIVATION := S754_finite false 4503599627370496 (-47); BLOCK_DATA_MAX_SIZE := 100; CHECKPOINTS := [];
     OLD_MAX_MERKLE_PATH_LENGTH := 12; NEW_MAX_MERKLE_PATH_LENGTH := 20; SKIP_VERIFICATION := [];
     MAX_LENGTH_TOKEN_NAME := 30; MAX_LENGTH_TOKEN_SYMBOL := 5; HATHOR_TOKEN_NAME := [72]; HATHOR_TOKEN_SYMBOL := [72];
     NC_ON_CHAIN_BLUEPRINT_RESTRICTED := false; NC_ON_CHAIN_BLUEPRINT_ALLOWED_ADDRESSES := [] |}.

Definition node_unicode : Unicode := {| is_space := Z.eqb 32; str_upper := fun s => s; is_space_blank := eq_refl |}.

Definition node_contracts : NanoNode unit :=
  {| get_nc_block_storage := fun _ => Ok tt; contract_blueprint_id := fun _ _ => Err NanoContractDoesNotExist;
     address_seqnum := fun _ _ => Ok (-1); get_blueprint_class := fun _ => Err BlueprintDoesNotExist; code_rules := fun _ => Ok tt |}.

Definition node_factory : NCStorageFactory unit := {| get_empty_block_storage := tt; get_block_storage := fun _ => tt |}.

(** logarithms that are all one *)
Definition node_float_lib : FloatLib :=
  {| fpow := fun _ x => let? n := float_floor x in float_of_int (2 ^ n); flog := fun _ => float_of_int 1 |}.

Definition node_features : FeatureSettings :=
  {| evaluation_interval := 2; max_signal_bits := 1; default_threshold := 1; features := [] |}.

#[local] Existing Instances demo_crypto demo_script_settings demo_no_tokens demo_daa node_settings node_parser_settings.
#[local] Existing Instances node_verifier_settings node_unicode node_contracts node_factory node_float_lib node_features.

Definition node_key : bytes := zb [2; 10].
Definition node_script : bytes :=
  match p2pkh_create_output_script (get_address_from_public_key_hash (get_hash160 node_key) None) None with Ok s => s | Err _ => [] end.

Definition node_vertex (n : Z) (ver : TxVersion) (parents : list Z) (ins : list TxInput) (outs : list TxOutput) : vertex :=
  mkVertex (node_hash n) 0 ver (100 + n) (S754_finite false 4503599627370496 (-49)) (map node_hash parents) ins outs [] [] [] [] NATIVE.

Definition node_spend : vertex :=
  node_vertex 4 REGULAR_TRANSACTION [1; 2] [mkTxInput (node_hash 3) 0 (zb [3; 2; 10; 0; 2; 2; 10])] [mkTxOutput 6400 node_script 0].

Definition node_vertices : list vertex :=
  [node_vertex 0 REGULAR_BLOCK [] [] []; node_vertex 1 REGULAR_TRANSACTION [] [] []; node_vertex 2 REGULAR_TRANSACTION [] [] [];
   node_vertex 3 REGULAR_BLOCK [0; 1; 2] [] [mkTxOutput 6400 node_script 0]; node_spend;
   node_vertex 5 REGULAR_BLOCK [3; 4; 1] [] [mkTxOutput 6400 node_script 0]].

Definition node_storage : VertexStorage :=
  {| get_transaction := fun h => match List.find (fun v => bool_decide (v_hash v = h)) node_vertices with
       | Some v => Ok v | None => Err TransactionDoesNotExist end |}.

Definition node_static : StaticStore :=
  {| static_metadata := fun v => match v_timestamp v - 100 with
       | 0 => BlockStaticMetadata 0 0 [0] | 3 => BlockStaticMetadata 1 0 [0] | 5 => BlockStaticMetadata 2 2 [0]
       | 4 => TransactionStaticMetadata 2 (node_hash 3) | _ => TransactionStaticMetadata 0 (node_hash 0) end |}.

Definition node_state : NodeState :=
  {| get_metadata := fun _ => new_metadata 0 0 FULL; get_best_block_tips := [node_hash 3];
     height_index := fun _ => None; height_tip := node_hash 3 |}.

Definition node_order : SetOrder := {| set_iter := remove_dups; set_iter_perm := fun l => Permutation_refl _ |}.

#[local] Existing Instances node_storage node_static node_state node_order.

Definition node_params : VerificationParams := mkParams None true true true true true true true true.

Definition older_deps (v : vertex) : bool :=
  forallb (fun d => match get_transaction d with Ok w => v_timestamp w <? v_timestamp v | Err _ => true end) (dependencies v).

Lemma node_get h v : get_transaction h = Ok v -> v ∈ node_vertices /\ v_hash v = h.
Proof.
  cbn [get_transaction node_storage]. destruct (List.find (A := vertex) _ _) as [w|] eqn:E; [|done]. intros H. injection H as <-.
  apply List.find_some in E as [Hin E]. apply bool_decide_eq_true in E. split; [|done]. by apply list_elem_of_In.
Qed.

(** a property of the six vertices, checked on each *)
Lemma node_forall (P : vertex -> Prop) : Forall P node_vertices -> forall h v, get_transaction h = Ok v -> P v.
Proof. intros H h v Hv. apply node_get in Hv as [Hv _]. by eapply Forall_forall in H. Qed.

Lemma node_dag : dag_ok.
Proof.
  split.
  - intros h v H. by apply node_get in H as [_ ?].
  - apply (node_forall (fun v => create_static v = Ok (static_metadata v))).
    repeat (constructor; [vm_compute; reflexivity|]). constructor.
  - intros h v d w H Hd Hw. assert (Ho : older_deps v = true).
    { revert h v H Hd. intros h v H _. revert h v H. apply (node_forall (fun v => older_deps v = true)). repeat (constructor; [vm_compute; reflexivity|]). constructor. }
    unfold older_deps in Ho. rewrite forallb_forall in Ho. apply list_elem_of_In in Hd. specialize (Ho d Hd). rewrite Hw in Ho. lia.
  - apply (node_forall (fun v => 0 <= v_timestamp v)). repeat (constructor; [vm_compute; discriminate|]). constructor.
  - apply (node_forall (fun v => is_genesis v = true -> dependencies v = [])). repeat (constructor; [by intros H; try reflexivity; vm_compute in H|]). constructor.
Qed.

Lemma node_validated v : stored v -> is_genesis v = false -> skipped v = false /\ validated v.
Proof.
  intros Hs. revert Hs. unfold stored. generalize (v_hash v). intros h H. revert h v H.
  apply (node_forall (fun v => is_genesis v = false -> skipped v = false /\ validated v)).
  repeat (constructor; [intros Hg; try (vm_compute in Hg; discriminate Hg)|]); [| | |constructor];
    (split; [vm_compute; reflexivity|]); exists 105, node_params, false, (mkFs ∅ ∅ ∅); eexists _, _; vm_compute; reflexivity.
Qed.

Lemma node_spend_balance u : balance node_spend u = 0.
Proof.
  assert (S0 : spent_output (mkTxInput (node_hash 3) 0 (zb [3; 2; 10; 0; 2; 2; 10])) = Ok (HATHOR_TOKEN_UID, mkTxOutput 6400 node_script 0))
    by (vm_compute; reflexivity).
  unfold balance, input_value, TokenInfoTheory.spends, output_value, output_of. cbn [v_inputs v_outputs node_spend node_vertex mkVertex sumz foldr].
  rewrite S0. change (created node_spend u) with false.
  change (tx_actions node_spend) with (@nil NCAction). change (tx_fees node_spend) with (@nil (bytes * Z)).
  change (get_token_uid node_spend (get_token_index (mkTxOutput 6400 node_script 0))) with (Ok HATHOR_TOKEN_UID).
  cbv iota beta. by destruct (bool_decide (HATHOR_TOKEN_UID = u)).
Qed.


Lemma verified_supply_witness : exists l, chain_of (node_vertex 5 REGULAR_BLOCK [3; 4; 1] [] [mkTxOutput 6400 node_script 0]) l /\
  length l = 2%nat /\ foldr Z.add 0 (map sum_outputs l) = 12800.
Proof.
  destruct (verified_supply node_dag node_validated 1051200) with
    (b := node_vertex 5 REGULAR_BLOCK [3; 4; 1] [] [mkTxOutput 6400 node_script 0]) as (l & Hc & Hl & E).
  - reflexivity.
  - lia.
  - vm_compute. split; discriminate.
  - vm_compute. split; discriminate.
  - split; vm_compute; reflexivity.
  - exists l. split; [exact Hc|]. split; [apply Nat2Z.inj; rewrite Hl; reflexivity|].
    change (Ok 12800 = Ok (foldr Z.add 0 (map sum_outputs l))) in E. injection E as <-. reflexivity.
Defined.

Lemma rewards_mature_witness : 1 + 0 < 2.
Proof.
  apply (rewards_mature node_dag node_validated ltac:(discriminate)
    (node_vertex 5 REGULAR_BLOCK [3; 4; 1] [] [mkTxOutput 6400 node_script 0]) node_spend
    (mkTxInput (node_hash 3) 0 (zb [3; 2; 10; 0; 2; 2; 10]))
    (node_vertex 3 REGULAR_BLOCK [0; 1; 2] [] [mkTxOutput 6400 node_script 0])).
  - split; vm_compute; reflexivity.
  - eapply (depends_step _ (node_hash 4) node_spend); [|vm_compute; reflexivity|constructor].
    apply list_elem_of_In. vm_compute. auto.
  - reflexivity.
  - by left.
  - vm_compute. reflexivity.
  - reflexivity.
Defined.
End demo.
