(* ===== verification/BlockVerifierTheory.v ===== *)
(** Proofs of work and of authority: what a merge-mined block commits to, and who may sign
    a block of a proof-of-authority network; and the headers that verification allows and the
    parser refuses. *)

From stdpp Require Import base list.
From Stdlib Require Import ZArith Lia Floats.SpecFloat.
From S2P Require Import Prelude PyInt PyValue PyFloat NCTypes ScriptCode ScriptVM TxStruct TxStructTheory VertexStruct VertexParser.
From S2P Require Import TokenInfo StaticMetadata StaticMetadataTheory Metadata Daa FeatureActivation TxVerifier TxVerifierTheory.
From S2P Require Import VertexTheory BlockVerifier VerificationService VerificationTheory.

Local Open Scope Z_scope.
Local Open Scope py_scope.

(** * The position of a pattern *)

Definition occurs (hay needle : bytes) (i : nat) : Prop := take (length needle) (drop i hay) = needle.

(** the first occurrence *)
Definition first_occurs (hay needle : bytes) (i : nat) : Prop :=
  occurs hay needle i /\ forall j, (j < i)%nat -> ~ occurs hay needle j.

Lemma first_occurs_unique hay needle i j : first_occurs hay needle i -> first_occurs hay needle j -> i = j.
Proof.
  intros [Hi Fi] [Hj Fj]. destruct (Nat.lt_trichotomy i j) as [H|[H|H]]; [|done|]; exfalso; [by eapply Fj|by eapply Fi].
Qed.

Lemma bytes_find_first hay needle : bytes_find hay needle = -1 \/
  exists i, bytes_find hay needle = Z.of_nat i /\ first_occurs hay needle i.
Proof.
  induction hay as [|c hay IH]; simpl; case_bool_decide as E.
  - right. exists 0%nat. split; [done|]. split; [done|]. intros j Hj. lia.
  - by left.
  - right. exists 0%nat. split; [done|]. split; [done|]. intros j Hj. lia.
  - destruct IH as [->|(i & -> & Hi & Fi)]; [by left|]. right. exists (S i).
    destruct (Z.ltb_spec (Z.of_nat i) 0); [lia|]. split; [lia|]. split; [done|]. intros [|j] Hj; [done|]. apply Fi. lia.
Qed.

(** an occurrence that ends [a] is one in any extension of [a], and stays the first *)
Lemma first_occurs_app a needle i rest : (i + length needle = length a)%nat -> first_occurs a needle i ->
  first_occurs (a ++ rest) needle i.
Proof.
  intros Hl [Hi Fi].
  assert (E : forall j, (j <= i)%nat -> take (length needle) (drop j (a ++ rest)) = take (length needle) (drop j a)).
  { intros j Hj. rewrite drop_app_le by lia. rewrite take_app_le; [done|]. rewrite length_drop. lia. }
  split; [unfold occurs; rewrite E by lia; exact Hi|]. intros j Hj. unfold occurs. rewrite E by lia. by apply Fi.
Qed.

(** * Merged mining *)

Lemma magic_ok a : verify_magic_number a = Ok tt ->
  exists i, (i + length MAGIC_NUMBER = length (coinbase_head a))%nat /\ first_occurs (coinbase_head a) MAGIC_NUMBER i.
Proof.
  unfold verify_magic_number. intros H. destruct (bytes_find_first (coinbase_head a) MAGIC_NUMBER) as [E|(i & E & Hf)].
  - by rewrite E in H.
  - rewrite E in H. destruct (Z.eqb_spec (Z.of_nat i) (-1)); [lia|]. apply raise_if_ok, Z.ltb_ge in H.
    exists i. split; [|done]. destruct Hf as [Ho _]. unfold occurs in Ho. apply (f_equal length) in Ho.
    rewrite length_take, length_drop in Ho. unfold blen in H. change (length MAGIC_NUMBER) with 4%nat in *. lia.
Qed.

Lemma commitment_unique a1 a2 h1 h2 : verify_magic_number a1 = Ok tt -> verify_magic_number a2 = Ok tt ->
  length h1 = length h2 ->
  coinbase_head a1 ++ h1 ++ coinbase_tail a1 = coinbase_head a2 ++ h2 ++ coinbase_tail a2 ->
  coinbase_head a1 = coinbase_head a2 /\ h1 = h2 /\ coinbase_tail a1 = coinbase_tail a2.
Proof.
  intros M1 M2 Hl E. destruct (magic_ok a1 M1) as (i & L1 & F1). destruct (magic_ok a2 M2) as (j & L2 & F2).
  apply (first_occurs_app _ _ _ (h1 ++ coinbase_tail a1)) in F1; [|done].
  apply (first_occurs_app _ _ _ (h2 ++ coinbase_tail a2)) in F2; [|done].
  rewrite E in F1. pose proof (first_occurs_unique _ _ _ _ F1 F2) as ->.
  apply app_inj_1 in E as [E1 E2]; [|lia]. split; [done|]. by apply app_inj_1.
Qed.

Section blocks.
Context {CR : Crypto} {SS : ScriptSettings} {TS : TxSettings} {VS : VertexStorage} {SM : StaticStore} {NS : NodeState}.
Context {FL : FloatLib} {DS : DaaSettings} {FS : FeatureSettings} {PS : ParserSettings} {ES : VerifierSettings} {UN : Unicode}.

(** SHA-256 digests have 32 bytes *)
Hypothesis sha256_size : forall x, length (sha256 x) = 32%nat.

Lemma aux_pow_ok b st st' : verify_aux_pow b st = (Ok tt, st') -> exists a h,
  v_aux_pow b = Some a /\ get_mining_base_hash b = Ok h /\ verify_magic_number a = Ok tt.
Proof.
  unfold verify_aux_pow. destruct (v_aux_pow b) as [a|]; [|done]. intros H.
  apply bind_ok_both in H as (active & s1 & _ & H). apply lift_bind_ok in H as (h & Hh & H).
  apply lift_bind_ok in H as ([] & Hm & _). by exists a, h.
Qed.

Lemma base_hash_size b h : get_mining_base_hash b = Ok h -> length h = 32%nat.
Proof using sha256_size.
  unfold get_mining_base_hash. intros H. inv_rok H. injection H as <-. unfold sha256d_hash. by rewrite length_rev.
Qed.

(** the Bitcoin coinbase transaction that a merge-mined block puts its base hash in *)
Definition coinbase_tx (b : vertex) : result bytes :=
  match v_aux_pow b with
  | None => Err AssertionError
  | Some a => let? h := get_mining_base_hash b in Ok (coinbase_head a ++ h ++ coinbase_tail a)
  end.

(** C27: one Bitcoin coinbase transaction cannot carry the work of two blocks: merge-mined
    blocks that pass the verification of their auxiliary proof of work and are mined with
    the same coinbase transaction have the same base hash, the hash of all their funds,
    graph and headers. *)
Theorem merged_mining_unique b1 b2 st1 st2 st1' st2' coinbase :
  verify_aux_pow b1 st1 = (Ok tt, st1') -> verify_aux_pow b2 st2 = (Ok tt, st2') ->
  coinbase_tx b1 = Ok coinbase -> coinbase_tx b2 = Ok coinbase ->
  get_mining_base_hash b1 = get_mining_base_hash b2.
Proof using sha256_size.
  intros V1 V2 C1 C2. destruct (aux_pow_ok _ _ _ V1) as (a1 & h1 & A1 & H1 & M1). destruct (aux_pow_ok _ _ _ V2) as (a2 & h2 & A2 & H2 & M2).
  unfold coinbase_tx in C1, C2. rewrite A1, H1 in C1. rewrite A2, H2 in C2. injection C1 as C1. injection C2 as C2. rewrite <- C2 in C1.
  destruct (commitment_unique a1 a2 h1 h2 M1 M2) as (_ & -> & _); [|done|congruence].
  by rewrite (base_hash_size _ _ H1), (base_hash_size _ _ H2).
Qed.

(** * Proof of authority *)

(** a signer of the settings is active from its start height to its end height, both included;
    without an end height it stays active *)
Definition active_at (h : Z) (s : PoaSignerSettings) : Prop :=
  signer_start_height s <= h /\ match signer_end_height s with Some e => h <= e | None => True end.

#[global] Instance active_at_dec h s : Decision (active_at h s).
Proof. unfold active_at. destruct (signer_end_height s); apply _. Defined.

Lemma active_signers_eq signers h : get_active_signers signers h = map public_key (filter (active_at h) signers).
Proof.
  unfold get_active_signers. induction signers as [|s l IH]; [done|]. cbn [List.filter].
  assert (E : is_active_signer h s = bool_decide (active_at h s)).
  { apply eq_bool_prop_intro. rewrite bool_decide_spec. unfold is_active_signer, active_at.
    rewrite Is_true_true, andb_true_iff, Z.leb_le. destruct (signer_end_height s); [rewrite Z.leb_le|]; tauto. }
  rewrite E. case_bool_decide.
  - rewrite filter_cons_True by done. simpl. by rewrite IH.
  - by rewrite filter_cons_False.
Qed.

(** [b] carries the id of the key [pk] and a signature of [data] by it *)
Definition signs (b : vertex) (data pk : bytes) : Prop :=
  v_signer_id b = get_poa_signer_id pk /\ exists key, from_encoded_point pk = Some key /\ ecdsa_verify key (v_signature b) data = true.

Lemma signature_loop_ok b data l : forall i r, signature_loop b data i l = Ok (Some r) ->
  exists k, l !! k = Some (snd r) /\ fst r = i + Z.of_nat k /\ signs b data (snd r).
Proof.
  induction l as [|pk l IH]; intros i r H; cbn [signature_loop] in H; [done|]. case_bool_decide as E; cbn [negb] in H.
  - destruct (from_encoded_point pk) as [key|] eqn:Ek; [|done]. destruct (ecdsa_verify _ _ _) eqn:Ev.
    + injection H as <-. exists 0%nat. split; [done|]. split; [simpl; lia|]. split; [done|]. by exists key.
    + apply IH in H as (k & Hk & Hf & Hs). exists (S k). split; [done|]. split; [lia|done].
  - apply IH in H as (k & Hk & Hf & Hs). exists (S k). split; [done|]. split; [lia|done].
Qed.

(** C28: in a proof-of-authority network a block that passes verification carries no outputs, is
    at least the average block time after its parent, and is signed over the hash of its
    funds, its graph without the signature, and its nonce, by the key of a signer whose range
    of heights, from its start to its end height, contains the height of the block; and it has
    the weight of that signer's turn: 2 when the signer's position among the active signers
    is the height modulo their number, and 1 divided by the distance to that position
    otherwise. *)
Theorem poa_block_sound b : verify_poa b = Ok tt -> exists signers p i pk funds graph nonce w,
  CONSENSUS_ALGORITHM = PoaSettings signers /\
  let active := map public_key (filter (active_at (get_height b)) signers) in
  let turn := get_height b mod zlen active in
  get_block_parent b = Ok p /\ v_timestamp p + AVG_TIME_BETWEEN_BLOCKS <= v_timestamp b /\ v_outputs b = [] /\
  get_funds_struct b = Ok funds /\ block_graph_struct b = Ok graph /\ get_struct_nonce b = Ok nonce /\
  active !! i = Some pk /\ signs b (sha256 (funds ++ graph ++ nonce)) pk /\ SFeqb (v_weight b) w = true /\
  (Z.of_nat i = turn -> float_of_int 2 = Ok w) /\
  (Z.of_nat i <> turn ->
   (let? one := float_of_int 1 in let? d := float_of_int ((Z.of_nat i - turn) mod zlen active) in fdiv one d) = Ok w).
Proof.
  unfold verify_poa. destruct CONSENSUS_ALGORITHM as [|signers] eqn:Ec; [done|]. intros H. inv_rok H. inv_rok H. inv_rok H.
  apply raise_if_inv, Z.ltb_ge in Hm0. inv_rok H. unfold verify_poa_signature in Hm2. inv_rok Hm2.
  destruct a2 as [[i pk]|]; [|done]. inv_rok H. apply raise_if_inv, negb_false_iff in H.
  apply signature_loop_ok in Hm2 as (k & Hk & Hf & Hs). cbn [fst snd] in *.
  unfold get_hashed_poa_data in Hm3. inv_rok Hm3. inv_rok Hm3. inv_rok Hm3. injection Hm3 as <-.
  exists signers, a, k, pk, a4, a5, a6, a2. split; [done|]. cbv zeta. rewrite <- active_signers_eq. split; [done|]. split; [lia|].
  split; [by destruct (v_outputs b)|]. split; [done|]. split; [done|]. split; [done|]. split; [done|]. split; [done|]. split; [done|].
  rewrite Z.add_0_l in Hf. unfold calculate_weight, get_signer_index_distance in Hm4. pose proof (lookup_lt_Some _ _ _ Hk) as Hlt. subst i.
  set (n := zlen _) in *. assert (Hn : Z.of_nat k < n) by (unfold n, zlen; lia).
  destruct (Z.eqb_spec n 0); [lia|]. cbn [rbind] in Hm4. set (t := get_height b mod n) in *.
  pose proof (Z.mod_pos_bound (get_height b) n ltac:(lia)) as Ht. fold t in Ht.
  assert (D : (Z.of_nat k - t) mod n = 0 <-> Z.of_nat k = t).
  { split; [|intros ->; by rewrite Z.sub_diag]. intros Hd. destruct (Z.le_gt_cases t (Z.of_nat k)).
    - rewrite Z.mod_small in Hd by lia. lia.
    - rewrite <- (Z.mod_add _ 1) in Hd by lia. rewrite Z.mod_small in Hd by lia. lia. }
  destruct (Z.eqb_spec ((Z.of_nat k - t) mod n) 0) as [Ed|Ed].
  - split; [intros _; by symmetry|]. intros Hne. by apply D in Ed.
  - split; [|done]. intros He. by apply D in He.
Qed.
End blocks.

(** * Fee headers *)

Section headers.
Context {PS : ParserSettings} {ZL : Zlib} {CR : Crypto} {TS : TxSettings}.

Lemma verified_headers_class v params : verify_headers v params = Ok tt -> v_headers v <> [] ->
  is_transaction_class (v_version v) = true.
Proof.
  unfold verify_headers. intros H Hne. inv_rok H. inv_rok H. destruct (v_headers v) as [|h hs]; [done|]. cbn [rfold] in Hm0. inv_rok Hm0.
  unfold header_step in Hm1. inv_rok Hm1. inv_rok Hm1. apply raise_if_inv, negb_false_iff in Hm3. unfold headers_allowed in Hm3.
  by destruct (v_version v).
Qed.

(** the part before the first fee header *)
Lemma first_fee_header hs f : FeeHeader_ f ∈ hs -> exists hs1 fees hs2, hs = hs1 ++ FeeHeader_ fees :: hs2.
Proof. intros H. apply list_elem_of_split in H as (l1 & l2 & ->). by exists l1, f, l2. Qed.

End headers.

(** * Examples *)

Section fee_demo.
#[local] Existing Instances demo_parser_settings demo_zlib demo_vertex_crypto.

(** a transaction with a contract call and a fee *)
Definition demo_fee_call : vertex := hashed (demo_call [NanoHeader_ demo_nano; FeeHeader_ [mkFee 0 3]]).

End fee_demo.

Section demo.
#[local] Existing Instances demo_vertex_crypto demo_script_settings demo_daa node_settings.
#[local] Existing Instances node_verifier_settings node_unicode node_float_lib node_features.
#[local] Existing Instances node_storage node_static node_state.

Definition merged_block (signal_bits : Z) (path : list bytes) : vertex :=
  MkVertex (node_hash 6) signal_bits MERGE_MINED_BLOCK 106 (S754_zero false) (map node_hash [5; 4; 1]) [] [] [] [] [] [] NATIVE 0 [] [] []
    (Some (mkAuxPow (repeat Byte.x00 36) (zb [1; 2; 3] ++ MAGIC_NUMBER) (zb [4]) path (repeat Byte.x00 12))) [] [] [].

(** the feature service has computed the state of the feature for this block *)
Definition merged_fs : fs_state := mkFs {[(node_hash 6, INCREASE_MAX_MERKLE_PATH_LENGTH) := DEFINED]} ∅ ∅.

Lemma merged_mining_unique_witness :
  let PS := node_parser_settings in
  let b1 := merged_block 0 [repeat Byte.x01 32] in
  let b2 := merged_block 0 [] in
  b1 <> b2 /\ get_mining_base_hash b1 = get_mining_base_hash b2.
Proof.
  intros PS b1 b2. split; [discriminate|].
  assert (V : forall p, length p = 1%nat \/ length p = 0%nat -> verify_aux_pow (merged_block 0 p) merged_fs = (Ok tt, merged_fs)).
  { intros [|h [|]] H; [| |simpl in H; lia]; vm_compute; reflexivity. }
  apply (merged_mining_unique) with (st1 := merged_fs) (st2 := merged_fs) (st1' := merged_fs) (st2' := merged_fs)
    (coinbase := match coinbase_tx b1 with Ok c => c | Err _ => [] end).
  - intros x. unfold sha256, demo_vertex_crypto. rewrite length_take, length_app. change (length (repeat Byte.x00 32)) with 32%nat. lia.
  - apply V. by left.
  - apply V. by right.
  - vm_compute. reflexivity.
  - vm_compute. reflexivity.
Defined.

(** a network with one signer whose signatures are its key and a byte of the data *)
Definition poa_parser_settings : ParserSettings :=
  {| ENABLE_NANO_CONTRACTS := false; NC_ON_CHAIN_BLUEPRINT_CODE_MAX_SIZE_UNCOMPRESSED := 0;
     NC_ON_CHAIN_BLUEPRINT_CODE_MAX_SIZE_COMPRESSED := 0;
     CONSENSUS_ALGORITHM := PoaSettings [mkSigner (zb [9; 9]) 0 (Some 0); mkSigner (zb [7; 8; 9]) 1 None] |}.
#[local] Existing Instance poa_parser_settings.

Definition poa_block : vertex :=
  MkVertex (node_hash 3) 0 POA_BLOCK 1000 (S754_finite false 4503599627370496 (-51)) (map node_hash [0; 1; 2]) [] [] [] [] [] [] NATIVE 0 []
    (zb [7; 8]) (zb [7; 8; 9; 0]) None [] [] [].

Definition poa_static : StaticStore := {| static_metadata := fun _ => BlockStaticMetadata 1 0 [] |}.

Lemma poa_block_sound_witness : exists i pk data,
  map public_key (filter (active_at 1) [mkSigner (zb [9; 9]) 0 (Some 0); mkSigner (zb [7; 8; 9]) 1 None]) !! i = Some pk /\
  signs poa_block (sha256 data) pk.
Proof.
  destruct (poa_block_sound (SM := poa_static) poa_block) as (signers & p & i & pk & funds & graph & nonce & w & E & H);
    [vm_compute; reflexivity|].
  cbn in E. injection E as <-. cbv zeta in H. destruct H as (_ & _ & _ & _ & _ & _ & Hi & Hs & _).
  exists i, pk, (funds ++ graph ++ nonce). split; [exact Hi|exact Hs].
Defined.
End demo.
