(* ===== verification/Heapq.v ===== *)
(** The binary heap of Python's [heapq], used by [hathor/transaction/storage/traversal.py]:
    [heappush] and [heappop] over a list, with items compared by a key, and what they
    guarantee: the items are kept and the smallest one comes out. *)

From stdpp Require Import base list.
From Stdlib Require Import ZArith Lia Arith.
From S2P Require Import Prelude.

Local Open Scope nat_scope.

Section heapq.
Context {A : Type} (key : A -> Z).

(** [x < y] on items, as [HeapItem.__lt__] *)
Definition item_lt (x y : A) : bool := Z.ltb (key x) (key y).

Definition parent_pos (pos : nat) : nat := Nat.div2 (pos - 1).

(** [_siftdown(heap, 0, pos)]: moves [newitem], held at [pos], towards the root; the
    position decreases, so that [pos] turns are enough *)
Fixpoint siftdown (fuel : nat) (heap : list A) (pos : nat) (newitem : A) : list A :=
  match fuel with
  | O => <[pos := newitem]> heap
  | S fuel =>
      match pos with
      | O => <[pos := newitem]> heap
      | S _ =>
          match heap !! parent_pos pos with
          | Some parent =>
              if item_lt newitem parent then siftdown fuel (<[pos := parent]> heap) (parent_pos pos) newitem
              else <[pos := newitem]> heap
          | None => <[pos := newitem]> heap
          end
      end
  end.

(** the child moved up by [_siftup]: the smaller one, the right one when they are equal *)
Definition smaller_child (heap : list A) (pos : nat) : option (nat * A) :=
  match heap !! (2 * pos + 1), heap !! (2 * pos + 2) with
  | Some l, Some r => if item_lt l r then Some (2 * pos + 1, l) else Some (2 * pos + 2, r)
  | Some l, None => Some (2 * pos + 1, l)
  | None, _ => None
  end.

(** the loop of [_siftup]: moves the smaller children up from [pos] to a leaf; the
    position grows, so that [len(heap)] turns are enough.  Returns the heap and the leaf. *)
Fixpoint siftup (fuel : nat) (heap : list A) (pos : nat) : list A * nat :=
  match fuel with
  | O => (heap, pos)
  | S fuel =>
      match smaller_child heap pos with
      | Some (childpos, child) => siftup fuel (<[pos := child]> heap) childpos
      | None => (heap, pos)
      end
  end.

Definition heappush (item : A) (heap : list A) : list A :=
  siftdown (length heap) (heap ++ [item]) (length heap) item.

(** [None] where [heappop] raises [IndexError] *)
Definition heappop (heap : list A) : option (A * list A) :=
  match last heap with
  | None => None
  | Some lastelt =>
      match removelast heap with
      | [] => Some (lastelt, [])
      | (returnitem :: _) as heap' =>
          let '(h, pos) := siftup (length heap') heap' 0 in
          Some (returnitem, siftdown pos h pos lastelt)
      end
  end.

(** * The heap invariant *)

(** every item is at least as large as its parent *)
Definition heap_ok (l : list A) : Prop :=
  forall i x p, 0 < i -> l !! i = Some x -> l !! parent_pos i = Some p -> (key p <= key x)%Z.

Lemma parent_pos_lt i : 0 < i -> parent_pos i < i.
Proof. intros. unfold parent_pos. pose proof (Nat.div2_div (i - 1)) as ->. apply Nat.Div0.div_lt_upper_bound. lia. Qed.

Lemma parent_child i p : 0 < i -> parent_pos i = p <-> i = 2 * p + 1 \/ i = 2 * p + 2.
Proof.
  intros Hi. unfold parent_pos. rewrite Nat.div2_div. pose proof (Nat.div_mod_eq (i - 1) 2). pose proof (Nat.mod_upper_bound (i - 1) 2 ltac:(lia)). lia.
Qed.

(** the root is a smallest item *)
Lemma heap_root l r i x : heap_ok l -> l !! 0 = Some r -> l !! i = Some x -> (key r <= key x)%Z.
Proof.
  intros Hok Hr. revert x. induction i as [i IH] using lt_wf_ind. intros x Hx.
  destruct (decide (i = 0)) as [->|Hi]; [rewrite Hr in Hx; by injection Hx as ->|].
  assert (Hp := parent_pos_lt i ltac:(lia)).
  destruct (lookup_lt_is_Some_2 l (parent_pos i)) as [p Ep]. { apply lookup_lt_Some in Hx. lia. }
  specialize (IH _ Hp p Ep). specialize (Hok i x p ltac:(lia) Hx Ep). lia.
Qed.

(** ** Moving items *)

Lemma list_delete_insert_same (l : list A) i v : delete i (<[i := v]> l) = delete i l.
Proof. revert i. induction l as [|b l IH]; intros [|i]; simpl; f_equal; auto. Qed.

Lemma insert_perm (l : list A) i a v : l !! i = Some a -> a :: <[i := v]> l ≡ₚ v :: l.
Proof.
  intros H. assert (Hv : <[i := v]> l !! i = Some v).
  { apply list_lookup_insert_eq. by apply lookup_lt_Some in H. }
  assert (Hd := delete_Permutation _ i v Hv). rewrite list_delete_insert_same in Hd.
  rewrite Hd, (Permutation_swap v a). apply Permutation_skip. symmetry. by apply delete_Permutation.
Qed.

(** moving the item at [j] to [i], before [v] is written at [j] instead of [i] *)
Lemma move_perm (l : list A) i j y v : i < length l -> i <> j -> l !! j = Some y ->
  <[j := v]> (<[i := y]> l) ≡ₚ <[i := v]> l.
Proof.
  intros Hi Hij Hj. destruct (lookup_lt_is_Some_2 l i Hi) as [a Ha].
  apply (Permutation_cons_inv (a := y)), (Permutation_cons_inv (a := a)).
  rewrite (insert_perm (<[i := y]> l) j y v) by by rewrite list_lookup_insert_ne.
  rewrite (Permutation_swap v a), (insert_perm l i a y), (Permutation_swap y a), (insert_perm l i a v) by done.
  apply Permutation_swap.
Qed.

(** the invariant but for the edge above [pos]; the items below [pos] respect the one above *)
Definition ok_but (l : list A) (pos : nat) : Prop :=
  (forall i x p, 0 < i -> i <> pos -> l !! i = Some x -> l !! parent_pos i = Some p -> (key p <= key x)%Z) /\
  (forall c x g, 0 < pos -> 0 < c -> parent_pos c = pos -> l !! c = Some x -> l !! parent_pos pos = Some g -> (key g <= key x)%Z).

Lemma siftdown_ok fuel heap pos x : pos <= fuel -> pos < length heap -> ok_but (<[pos := x]> heap) pos ->
  siftdown fuel heap pos x ≡ₚ <[pos := x]> heap /\ heap_ok (siftdown fuel heap pos x).
Proof.
  revert heap pos. induction fuel as [|fuel IH]; intros heap pos Hf Hl [Hok Hsk]; simpl.
  - split; [done|]. intros i a p Hi. apply Hok; lia.
  - destruct pos as [|pos0]; [split; [done|]; intros i a p Hi; apply Hok; lia|].
    set (pos := S pos0) in *. assert (Hp := parent_pos_lt pos ltac:(lia)). set (up := parent_pos pos) in *.
    destruct (lookup_lt_is_Some_2 heap up ltac:(lia)) as [p Ep]. rewrite Ep.
    assert (Hat : forall v, (<[pos := v]> heap) !! pos = Some v) by (intros; by apply list_lookup_insert_eq).
    assert (Hne : forall v i, i <> pos -> (<[pos := v]> heap) !! i = heap !! i) by (intros; by apply list_lookup_insert_ne).
    unfold item_lt. destruct (Z.ltb_spec (key x) (key p)) as [Hlt|Hge].
    + assert (Hok' : ok_but (<[up := x]> (<[pos := p]> heap)) up).
      { assert (Hu : forall v, (<[up := v]> (<[pos := p]> heap)) !! up = Some v) by (intros; apply list_lookup_insert_eq; rewrite length_insert; lia).
        assert (Hn : forall v i, i <> up -> (<[up := v]> (<[pos := p]> heap)) !! i = (<[pos := p]> heap) !! i) by (intros; by apply list_lookup_insert_ne).
        split.
        - intros i a q Hi Hiu. rewrite Hn by done. destruct (decide (i = pos)) as [->|Hip].
          { rewrite Hat. fold up. rewrite Hu. intros [= <-] [= <-]. lia. }
          rewrite Hne by done. intros Ha Hq. destruct (decide (parent_pos i = up)) as [E|E].
          { rewrite E, Hu in Hq. injection Hq as <-. specialize (Hok i a p Hi Hip). rewrite E, !Hne in Hok by lia. specialize (Hok Ha Ep). lia. }
          rewrite Hn in Hq by done. destruct (decide (parent_pos i = pos)) as [E'|E'].
          { rewrite E', Hat in Hq. injection Hq as <-. apply (Hsk i a p ltac:(lia) Hi E'); rewrite Hne by lia; done. }
          rewrite Hne in Hq by done. apply (Hok i a q Hi Hip); by rewrite Hne.
        - intros c a g Hu0 Hc Ec Ha Hg. assert (Hup := parent_pos_lt up ltac:(lia)).
          rewrite Hn, Hne in Hg by lia. assert (Hgp : (key g <= key p)%Z).
          { apply (Hok up p g); [lia..| |]; rewrite Hne by lia; done. }
          assert (Hcu : c <> up). { intros ->. assert (H := parent_pos_lt up ltac:(lia)). lia. }
          rewrite Hn in Ha by done. destruct (decide (c = pos)) as [->|Hcp]; [rewrite Hat in Ha; injection Ha as <-; done|].
          rewrite Hne in Ha by done. enough (key p <= key a)%Z by lia.
          apply (Hok c a p Hc Hcp); [by rewrite Hne|]. rewrite Ec, Hne by lia. done. }
      destruct (IH (<[pos := p]> heap) up ltac:(lia)) as [Hperm Hheap]; [rewrite length_insert; lia|done|].
      split; [|done]. rewrite Hperm. apply move_perm; [done|lia|done].
    + split; [done|]. intros i a q Hi Ha Hq. destruct (decide (i = pos)) as [->|Hip]; [|by apply (Hok i a q)].
      rewrite Hat in Ha. injection Ha as <-. fold up in Hq. rewrite Hne in Hq by lia. rewrite Ep in Hq. by injection Hq as <-.
Qed.

(** the invariant but for the edges around a hole at [pos] *)
Definition hole_ok (l : list A) (pos : nat) : Prop :=
  (forall i x p, 0 < i -> i <> pos -> parent_pos i <> pos -> l !! i = Some x -> l !! parent_pos i = Some p -> (key p <= key x)%Z) /\
  (forall c x g, 0 < pos -> 0 < c -> parent_pos c = pos -> l !! c = Some x -> l !! parent_pos pos = Some g -> (key g <= key x)%Z).

Lemma smaller_child_ok heap pos c x : smaller_child heap pos = Some (c, x) ->
  pos < c /\ parent_pos c = pos /\ heap !! c = Some x /\
  forall i y, 0 < i -> parent_pos i = pos -> heap !! i = Some y -> (key x <= key y)%Z.
Proof.
  unfold smaller_child. intros H.
  assert (Hc : forall i y, 0 < i -> parent_pos i = pos -> heap !! i = Some y ->
    heap !! (2 * pos + 1) = Some y \/ heap !! (2 * pos + 2) = Some y).
  { intros i y Hi E Hy. apply parent_child in E as [-> | ->]; auto. }
  destruct (heap !! (2 * pos + 1)) as [l|] eqn:El; [|done].
  destruct (heap !! (2 * pos + 2)) as [r|] eqn:Er; [unfold item_lt in H; destruct (Z.ltb_spec (key l) (key r))|];
    injection H as <- <-; (split; [lia|]; split; [apply parent_child; lia|]; split; [done|]);
    intros i y Hi E Hy; destruct (Hc i y Hi E Hy) as [[= <-]|[= <-]] || destruct (Hc i y Hi E Hy) as [[= <-]|?]; try done; lia.
Qed.

Lemma siftup_ok fuel heap pos : length heap - pos <= fuel -> pos < length heap -> hole_ok heap pos ->
  let '(h, leaf) := siftup fuel heap pos in
  leaf < length h /\ hole_ok h leaf /\ smaller_child h leaf = None /\ forall v, <[leaf := v]> h ≡ₚ <[pos := v]> heap.
Proof.
  revert heap pos. induction fuel as [|fuel IH]; intros heap pos Hf Hl [Hok Hsk]; simpl; [lia|].
  destruct (smaller_child heap pos) as [[c x]|] eqn:Ec; [|by repeat split].
  destruct (smaller_child_ok _ _ _ _ Ec) as (Hpc & Hpar & Hx & Hmin).
  assert (Hcl : c < length heap) by by apply lookup_lt_Some in Hx.
  assert (Hat : (<[pos := x]> heap) !! pos = Some x) by by apply list_lookup_insert_eq.
  assert (Hne : forall i, i <> pos -> (<[pos := x]> heap) !! i = heap !! i) by (intros; by apply list_lookup_insert_ne).
  assert (Hh : hole_ok (<[pos := x]> heap) c).
  { split.
    - intros i a p Hi Hic Hpi Ha Hp. destruct (decide (i = pos)) as [->|Hip].
      { rewrite Hat in Ha. injection Ha as <-. assert (Hlt := parent_pos_lt pos Hi). rewrite Hne in Hp by lia. by apply (Hsk c x p Hi ltac:(lia) Hpar). }
      rewrite Hne in Ha by done. destruct (decide (parent_pos i = pos)) as [E|E].
      { rewrite E, Hat in Hp. injection Hp as <-. by apply (Hmin i). }
      rewrite Hne in Hp by done. by apply (Hok i a p).
    - intros d a g Hc0 Hd Hpd Ha Hg. rewrite Hpar, Hat in Hg. injection Hg as <-.
      assert (d <> pos). { intros ->. assert (H := parent_pos_lt pos Hd). lia. }
      rewrite Hne in Ha by done. apply (Hok d a x Hd); [done|lia|done|]. by rewrite Hpd. }
  specialize (IH (<[pos := x]> heap) c). rewrite length_insert in IH. specialize (IH ltac:(lia) Hcl Hh).
  destruct (siftup fuel (<[pos := x]> heap) c) as [h leaf]. destruct IH as (? & ? & ? & Hperm). repeat (split; [done|]).
  intros v. rewrite Hperm. apply move_perm; [done|lia|done].
Qed.

(** ** The two operations *)

Lemma heappush_ok x l : heap_ok l -> heap_ok (heappush x l) /\ heappush x l ≡ₚ x :: l.
Proof.
  intros Hok. unfold heappush.
  assert (Hi : <[length l := x]> (l ++ [x]) = l ++ [x]) by (rewrite insert_app_r_alt by lia; by rewrite Nat.sub_diag).
  destruct (siftdown_ok (length l) (l ++ [x]) (length l) x) as [Hperm Hheap]; [done|rewrite length_app; simpl; lia| |].
  - rewrite Hi. split.
    + intros i a p H0 Hil Ha Hp. assert (i < length l). { apply lookup_lt_Some in Ha. rewrite length_app in Ha. simpl in Ha. lia. }
      assert (Hlt := parent_pos_lt i H0). rewrite lookup_app_l in Ha, Hp by lia. by apply (Hok i a p).
    + intros c a g Hl Hc Ec Ha _. apply lookup_lt_Some in Ha. rewrite length_app in Ha. simpl in Ha.
      assert (Hlt := parent_pos_lt c Hc). lia.
  - split; [done|]. rewrite Hperm, Hi. by rewrite Permutation_app_comm.
Qed.

Lemma heappop_None l : heappop l = None <-> l = [].
Proof.
  unfold heappop. destruct l as [|a l _] using rev_ind; [done|]. rewrite last_snoc.
  split; [|by destruct l]. destruct (removelast (l ++ [a])); [done|]. by destruct (siftup _ _ _).
Qed.

Lemma heappop_ok l x l' : heap_ok l -> heappop l = Some (x, l') ->
  heap_ok l' /\ l ≡ₚ x :: l' /\ forall y, y ∈ l -> (key x <= key y)%Z.
Proof.
  intros Hok. unfold heappop. destruct l as [|a l _] using rev_ind; [done|].
  rewrite last_snoc, removelast_last. destruct l as [|r l].
  { intros [= <- <-]. split; [by intros i ? ? ? ?|]. split; [done|]. intros y Hy. apply list_elem_of_singleton in Hy as ->. done. }
  assert (Hr : forall y, y ∈ (r :: l) ++ [a] -> (key r <= key y)%Z).
  { intros y Hy. apply list_elem_of_lookup in Hy as [i Hi]. by apply (heap_root _ _ i y Hok). }
  set (h0 := r :: l) in *. assert (Hh : hole_ok h0 0).
  { split; [|lia]. intros i b p Hi _ _ Hb Hp. apply (Hok i b p Hi); by apply lookup_app_l_Some. }
  assert (Hsu := siftup_ok (length h0) h0 0 ltac:(lia) ltac:(subst h0; simpl; lia) Hh).
  destruct (siftup (length h0) h0 0) as [h leaf]. destruct Hsu as (Hl & [Hhole Hsk] & Hleaf & Hperm).
  intros [= <- <-]. destruct (siftdown_ok leaf h leaf a) as [Hp' Hheap]; [done..| |].
  - assert (Hno : forall i, 0 < i -> parent_pos i = leaf -> h !! i = None).
    { intros i Hi E. apply parent_child in E; [|done]. unfold smaller_child in Hleaf.
      destruct (h !! (2 * leaf + 1)) eqn:E1; [destruct (h !! (2 * leaf + 2)); [by destruct (item_lt _ _)|done]|].
      destruct E as [-> | ->]; [done|]. apply lookup_ge_None_2. apply lookup_ge_None_1 in E1. lia. }
    split.
    + intros i b p Hi Hil Hb Hp. destruct (decide (parent_pos i = leaf)) as [E|E].
      * rewrite list_lookup_insert_ne in Hb by done. by rewrite Hno in Hb.
      * rewrite list_lookup_insert_ne in Hb, Hp by done. by apply (Hhole i b p).
    + intros c b g _ Hc Ec Hb _. assert (Hlt := parent_pos_lt c Hc). rewrite list_lookup_insert_ne in Hb by lia. by rewrite Hno in Hb.
  - split; [done|]. split; [|done]. rewrite Hp', Hperm. subst h0. rewrite (insert_perm (r :: l) 0 r a) by done.
    by rewrite Permutation_app_comm.
Qed.
End heapq.
