(* ===== verification/Traversal.v ===== *)
(** Walks on the DAG of vertices: [hathor/transaction/storage/traversal.py]. *)

From stdpp Require Import base list gmap.
From Stdlib Require Import ZArith Lia.
From S2P Require Import Prelude PyInt ScriptVM TxStruct TokenInfo StaticMetadata Heapq.

Local Open Scope Z_scope.
Local Open Scope py_scope.

(** what a walk reads of the node: [tx.get_children()] and
    [tx.get_metadata().spent_outputs] *)
Class DagView (S : Type) : Type := {
  view_children : S -> vertex -> list bytes;
  view_spent_outputs : S -> vertex -> list (Z * list bytes)
}.

(** * The vertices to visit *)

(** [HeapItem.key] *)
Definition heap_key (reverse : bool) (tx : vertex) : Z := if reverse then - v_timestamp tx else v_timestamp tx.

(** [_push_visit], [_pop_visit] and whether the latter forgets what was seen *)
Record Frontier : Type := mkFrontier {
  _push_visit : vertex -> list vertex -> list vertex;
  _pop_visit : list vertex -> option (vertex * list vertex);
  forgets_seen : bool
}.

Definition BFSTimestampWalk (reverse : bool) : Frontier :=
  mkFrontier (heappush (heap_key reverse)) (heappop (heap_key reverse)) true.

(** [append] and [popleft] of a [deque] *)
Definition BFSOrderWalk : Frontier :=
  mkFrontier (fun tx q => q ++ [tx]) (fun q => match q with [] => None | tx :: q => Some (tx, q) end) false.

(** [append] and [pop] of a [list] *)
Definition DFSWalk : Frontier :=
  mkFrontier (fun tx q => q ++ [tx]) (fun q => match last q with None => None | Some tx => Some (tx, removelast q) end) false.

(** * [GenericWalk] *)

Record WalkConfig : Type := mkWalk {
  is_dag_funds : bool;
  is_dag_verifications : bool;
  is_left_to_right : bool
}.

(** [self.seen] and [self._to_visit] *)
Record WalkState : Type := mkWalkState { seen : gset bytes; to_visit : list vertex }.

(** what the body of [for tx in walk.run(...)] asks for: go on, go on after
    [walk.skip_neighbors(tx)], or [break] *)
Inductive WalkAction : Type := Visit | Skip | Break.

#[export] Instance WalkAction_eq_dec : EqDecision WalkAction.
Proof. solve_decision. Defined.

Section walk.
Context {VS : VertexStorage} {S : Type} {DV : DagView S}.

Definition _get_iterator (c : WalkConfig) (s : S) (tx : vertex) : list bytes :=
  (if is_dag_verifications c then
     if is_left_to_right c then view_children s tx else v_parents tx
   else []) ++
  (if is_dag_funds c then
     if is_left_to_right c then concat (map snd (view_spent_outputs s tx)) else map in_tx_id (v_inputs tx)
   else []).

Definition add_neighbor (F : Frontier) (w : WalkState) (h : bytes) : result WalkState :=
  if bool_decide (h ∈ seen w) then Ok w else
  let? neighbor := get_transaction h in
  Ok (mkWalkState ({[h]} ∪ seen w) (_push_visit F neighbor (to_visit w))).

Definition add_neighbors (F : Frontier) (c : WalkConfig) (tx : vertex) (w : WalkState) : M S WalkState := fun s =>
  (rfold (add_neighbor F) (_get_iterator c s tx) w, s).

(** the first loop of [run] *)
Fixpoint push_roots (F : Frontier) (c : WalkConfig) (roots : list vertex) (skip_root : bool) (w : WalkState) : M S WalkState :=
  match roots with
  | [] => ret w
  | root :: roots =>
      let w := mkWalkState ({[v_hash root]} ∪ seen w) (to_visit w) in
      let! w :=
        (if skip_root then add_neighbors F c root w
         else ret (mkWalkState (seen w) (_push_visit F root (to_visit w)))) in
      push_roots F c roots skip_root w
  end.

(** [self._pop_visit()]: [set.remove] raises [KeyError] *)
Definition pop_visit (F : Frontier) (w : WalkState) : result (option (vertex * WalkState)) :=
  match _pop_visit F (to_visit w) with
  | None => Ok None
  | Some (tx, q) =>
      if forgets_seen F then
        if bool_decide (v_hash tx ∈ seen w) then Ok (Some (tx, mkWalkState (seen w ∖ {[v_hash tx]}) q)) else Err KeyError
      else Ok (Some (tx, mkWalkState (seen w) q))
  end.

(** the [while] loop of [run], with the loop over its vertices: [body] is run on each
    vertex and threads the local variables [L] of the caller *)
Fixpoint walk_loop {L : Type} (fuel : nat) (F : Frontier) (c : WalkConfig)
    (body : vertex -> L -> M S (WalkAction * L)) (w : WalkState) (acc : L) : M S L :=
  let! next := lift (pop_visit F w) in
  match next with
  | None => ret acc
  | Some (tx, w) =>
      match fuel with
      | O => raise OutOfFuel
      | Datatypes.S fuel =>
          let! (action, acc) := body tx acc in
          match action with
          | Break => ret acc
          | Skip => walk_loop fuel F c body w acc
          | Visit => let! w := add_neighbors F c tx w in walk_loop fuel F c body w acc
          end
      end
  end.

(** [for tx in walk.run(roots, skip_root=skip_root): body] *)
Definition run {L : Type} (fuel : nat) (F : Frontier) (c : WalkConfig) (roots : list vertex) (skip_root : bool)
    (body : vertex -> L -> M S (WalkAction * L)) (acc : L) : M S L :=
  let! w := push_roots F c roots skip_root (mkWalkState ∅ []) in
  walk_loop fuel F c body w acc.

(** the walk a [BFSTimestampWalk] makes: it reads [self._reverse_heap] from the direction *)
Definition bfs_timestamp {L : Type} (fuel : nat) (c : WalkConfig) (roots : list vertex) (skip_root : bool)
    (body : vertex -> L -> M S (WalkAction * L)) (acc : L) : M S L :=
  run fuel (BFSTimestampWalk (negb (is_left_to_right c))) c roots skip_root body acc.
End walk.
