(* ===== verification/TraversalTheory.v ===== *)
(** What a [BFSTimestampWalk] visits: vertices come out in the order of their timestamps,
    each once although visited vertices are forgotten, the walk goes exactly where the
    body lets it go, and it ends. *)

From stdpp Require Import base list gmap sorting relations.
From Stdlib Require Import ZArith Lia.
From S2P Require Import Prelude PyInt ScriptVM TxStruct TokenInfo StaticMetadata Heapq Traversal.

Local Open Scope Z_scope.
Local Open Scope py_scope.

(** a vertex with what the body answered *)
Definition visit : Type := vertex * WalkAction.

Definition hashes (l : list vertex) : list bytes := v_hash <$> l.

Section theory.
Context {VS : VertexStorage} {S : Type} {DV : DagView S}.
Context (c : WalkConfig) (N : vertex -> list bytes).

Notation key := (heap_key (negb (is_left_to_right c))).
Notation BFS := (BFSTimestampWalk (negb (is_left_to_right c))).

Definition stored (v : vertex) : Prop := get_transaction (v_hash v) = Ok v.

(** the part of the DAG a walk sees: [U] holds the hashes of stored vertices, the
    neighbours of its vertices are in it and come later in the direction of the walk *)
Record graph_ok (U : gset bytes) : Prop := {
  graph_stored h : h ∈ U -> exists v, get_transaction h = Ok v /\ v_hash v = h;
  graph_next v h : stored v -> v_hash v ∈ U -> h ∈ N v -> h ∈ U;
  graph_later v w : stored v -> v_hash v ∈ U -> stored w -> v_hash w ∈ N v -> key v < key w
}.

(** [exec]: the body run over the vertices of a trace, in order *)
Fixpoint exec {L} (body : vertex -> L -> M S (WalkAction * L)) (tr : list visit) (a : L) (s : S) (a' : L) (s' : S) : Prop :=
  match tr with
  | [] => a' = a /\ s' = s
  | (v, act) :: tr => exists a1 s1, body v a s = (Ok (act, a1), s1) /\ exec body tr a1 s1 a' s'
  end.

Lemma exec_snoc {L} (body : vertex -> L -> M S (WalkAction * L)) tr v act a s a1 s1 a' s' :
  exec body tr a s a1 s1 -> body v a1 s1 = (Ok (act, a'), s') -> exec body (tr ++ [(v, act)]) a s a' s'.
Proof.
  revert a s. induction tr as [|[u b] tr IH]; intros a s; cbn [exec app].
  - intros [-> ->] H. by exists a', s'.
  - intros (a2 & s2 & Hb & H) Hv. exists a2, s2. auto.
Qed.

(** the hashes a walk starts from *)
Definition starts (root : vertex) (skip_root : bool) : list bytes := if skip_root then N root else [v_hash root].

(** a vertex is visited because it is a start or a neighbour of a vertex visited before *)
Inductive walk_trace (st : list bytes) : list visit -> Prop :=
| trace_nil : walk_trace st []
| trace_snoc tr v act : walk_trace st tr -> stored v ->
    v_hash v ∈ st \/ (exists u, (u, Visit) ∈ tr /\ v_hash v ∈ N u) ->
    v_hash v ∉ hashes tr.*1 ->
    (forall u, u ∈ tr.*1 -> key u <= key v) ->
    walk_trace st (tr ++ [(v, act)]).

(** nothing is left to visit *)
Definition trace_complete (st : list bytes) (tr : list visit) : Prop :=
  (forall h, h ∈ st -> h ∈ hashes tr.*1) /\
  (forall u h, (u, Visit) ∈ tr -> h ∈ N u -> h ∈ hashes tr.*1).

(** the state of the loop after the trace [tr]; [X] are the hashes seen but not visited *)
Record loop_ok (U : gset bytes) (st : list bytes) (X : gset bytes) (w : WalkState) (tr : list visit) : Prop := {
  lk_trace : walk_trace st tr;
  lk_heap : heap_ok key (to_visit w);
  lk_nodup : NoDup (hashes (to_visit w));
  lk_seen h : h ∈ seen w <-> h ∈ hashes (to_visit w) \/ h ∈ X;
  lk_stored v : v ∈ to_visit w -> stored v /\ v_hash v ∈ U;
  lk_in v : v ∈ tr.*1 -> stored v /\ v_hash v ∈ U;
  lk_reason v : v ∈ to_visit w -> v_hash v ∈ st \/ exists u, (u, Visit) ∈ tr /\ v_hash v ∈ N u;
  lk_order u v : u ∈ tr.*1 -> v ∈ to_visit w -> key u <= key v /\ v_hash u <> v_hash v;
  lk_start h : h ∈ st -> h ∈ hashes tr.*1 \/ h ∈ hashes (to_visit w);
  lk_next u h : (u, Visit) ∈ tr -> h ∈ N u -> h ∈ hashes tr.*1 \/ h ∈ hashes (to_visit w);
  lk_skipped x u : x ∈ X -> u ∈ tr.*1 ++ to_visit w -> forall v, v_hash v = x -> stored v -> key v < key u
}.

Lemma stored_inj v w : stored v -> stored w -> v_hash v = v_hash w -> v = w.
Proof. unfold stored. intros Hv Hw E. rewrite E, Hw in Hv. by injection Hv. Qed.

Lemma elem_hashes v l : v ∈ l -> v_hash v ∈ hashes l.
Proof. apply list_elem_of_fmap_2. Qed.

(** ** Pushing neighbours *)

Record pushed (X : gset bytes) (hs : list bytes) (w w' : WalkState) : Prop := {
  pu_heap : heap_ok key (to_visit w');
  pu_nodup : NoDup (hashes (to_visit w'));
  pu_seen h : h ∈ seen w' <-> h ∈ hashes (to_visit w') \/ h ∈ X;
  pu_old v : v ∈ to_visit w -> v ∈ to_visit w';
  pu_new v : v ∈ to_visit w' -> v ∈ to_visit w \/ v_hash v ∈ hs /\ v_hash v ∉ X /\ stored v;
  pu_all h : h ∈ hs -> h ∈ hashes (to_visit w') \/ h ∈ X
}.

Lemma hashes_perm l l' : l ≡ₚ l' -> hashes l ≡ₚ hashes l'.
Proof. apply fmap_Permutation. Qed.

Lemma add_neighbor_ok X h v w : get_transaction h = Ok v -> v_hash v = h ->
  heap_ok key (to_visit w) -> NoDup (hashes (to_visit w)) -> (forall h, h ∈ seen w <-> h ∈ hashes (to_visit w) \/ h ∈ X) ->
  exists w', add_neighbor BFS w h = Ok w' /\ pushed X [h] w w'.
Proof.
  intros Hg Hh Hheap Hnd Hseen. unfold add_neighbor. destruct (bool_decide_reflect (h ∈ seen w)) as [Hin|Hin].
  - exists w. split; [done|]. split; [done..|auto|auto|]. intros h' E. apply list_elem_of_singleton in E as ->. by apply Hseen.
  - rewrite Hg. cbn [rbind BFSTimestampWalk _push_visit]. eexists. split; [reflexivity|]. cbn [to_visit seen].
    destruct (heappush_ok key v (to_visit w) Hheap) as [Hheap' Hperm].
    assert (Hel : forall u, u ∈ heappush key v (to_visit w) <-> u = v \/ u ∈ to_visit w).
    { intros u. rewrite Hperm. apply elem_of_cons. }
    assert (Heh : forall k, k ∈ hashes (heappush key v (to_visit w)) <-> k = h \/ k ∈ hashes (to_visit w)).
    { intros k. rewrite (hashes_perm _ _ Hperm). unfold hashes. cbn. rewrite elem_of_cons, Hh. done. }
    rewrite Hseen in Hin. split; cbn [to_visit seen].
    + done.
    + rewrite (hashes_perm _ _ Hperm). unfold hashes. cbn. constructor; [rewrite Hh; tauto|done].
    + intros k. rewrite elem_of_union, elem_of_singleton, Hseen, Heh. tauto.
    + intros u Hu. apply Hel. auto.
    + intros u Hu. apply Hel in Hu as [-> | Hu]; [right|auto]. rewrite Hh. split; [by apply list_elem_of_singleton|].
      split; [tauto|]. unfold stored. by rewrite Hh.
    + intros k Hk. apply list_elem_of_singleton in Hk as ->. left. apply Heh. auto.
Qed.

Lemma heap_pushed_trans X hs hs' w w1 w2 : pushed X hs w w1 -> pushed X hs' w1 w2 -> pushed X (hs ++ hs') w w2.
Proof.
  intros H1 H2. split.
  - apply H2.
  - apply H2.
  - apply H2.
  - intros v Hv. by apply H2, H1.
  - intros v Hv. apply (pu_new _ _ _ _ H2) in Hv as [Hv|(? & ? & ?)].
    + apply (pu_new _ _ _ _ H1) in Hv as [?|(? & ? & ?)]; [auto|]. right. rewrite elem_of_app. auto.
    + right. rewrite elem_of_app. auto.
  - intros h Hh. apply elem_of_app in Hh as [Hh|Hh]; [|by apply (pu_all _ _ _ _ H2)].
    apply (pu_all _ _ _ _ H1) in Hh as [Hh|Hh]; [left|auto].
    apply list_elem_of_fmap in Hh as (v & -> & Hv). by apply elem_hashes, (pu_old _ _ _ _ H2).
Qed.

Lemma add_neighbors_ok X hs w : (forall h, h ∈ hs -> exists v, get_transaction h = Ok v /\ v_hash v = h) ->
  heap_ok key (to_visit w) -> NoDup (hashes (to_visit w)) -> (forall h, h ∈ seen w <-> h ∈ hashes (to_visit w) \/ h ∈ X) ->
  exists w', rfold (add_neighbor BFS) hs w = Ok w' /\ pushed X hs w w'.
Proof.
  revert w. induction hs as [|h hs IH]; intros w Hst Hheap Hnd Hseen.
  - exists w. split; [done|]. split; [done..|auto|auto|]. intros h' E. by apply not_elem_of_nil in E.
  - destruct (Hst h ltac:(left)) as (v & Hg & Hv).
    destruct (add_neighbor_ok X h v w Hg Hv Hheap Hnd Hseen) as (w1 & E1 & P1).
    destruct (IH w1) as (w2 & E2 & P2); [intros; apply Hst; by right|apply P1..|].
    exists w2. cbn [rfold]. rewrite E1. split; [exact E2|]. exact (heap_pushed_trans X [h] hs w w1 w2 P1 P2).
Qed.

(** ** One turn of the loop *)

Lemma pop_None w : pop_visit BFS w = Ok None <-> to_visit w = [].
Proof.
  unfold pop_visit. cbn [BFSTimestampWalk _pop_visit forgets_seen]. rewrite <- (heappop_None key).
  destruct (heappop key (to_visit w)) as [[tx q]|]; [|done]. by case_bool_decide.
Qed.

Lemma verts_snoc (tr : list visit) v act : (tr ++ [(v, act)]).*1 = tr.*1 ++ [v].
Proof. by rewrite fmap_app. Qed.

Lemma visit_snoc (tr : list visit) u v act : (u, Visit) ∈ tr -> (u, Visit) ∈ tr ++ [(v, act)].
Proof. intros. apply elem_of_app. auto. Qed.

Lemma hashes_snoc (tr : list visit) v act h : h ∈ hashes (tr ++ [(v, act)]).*1 <-> h ∈ hashes tr.*1 \/ h = v_hash v.
Proof. unfold hashes. rewrite verts_snoc, fmap_app, elem_of_app. cbn. by rewrite list_elem_of_singleton. Qed.

(** the vertex popped is visited; as long as its neighbours are not pushed it counts as
    skipped *)
Lemma pop_ok U st X w tr : loop_ok U st X w tr -> to_visit w <> [] ->
  exists v w1, pop_visit BFS w = Ok (Some (v, w1)) /\
    forall act, act <> Visit -> loop_ok U st X w1 (tr ++ [(v, act)]).
Proof.
  intros H Hne. unfold pop_visit. cbn [BFSTimestampWalk _pop_visit forgets_seen].
  destruct (heappop key (to_visit w)) as [[v q]|] eqn:E; [|by apply heappop_None in E].
  destruct (heappop_ok key _ _ _ (lk_heap _ _ _ _ _ H) E) as (Hheap & Hperm & Hmin).
  assert (Hin : forall u, u ∈ to_visit w <-> u = v \/ u ∈ q) by (intros u; rewrite Hperm; apply elem_of_cons).
  assert (Hhs : forall h, h ∈ hashes (to_visit w) <-> h = v_hash v \/ h ∈ hashes q).
  { intros h. rewrite (hashes_perm _ _ Hperm). unfold hashes. cbn. apply elem_of_cons. }
  assert (Hv : v ∈ to_visit w) by (apply Hin; auto).
  destruct (lk_stored _ _ _ _ _ H v Hv) as [Hst HU].
  assert (Hnd := lk_nodup _ _ _ _ _ H). rewrite (hashes_perm _ _ Hperm) in Hnd. apply NoDup_cons in Hnd as [Hvq Hnd].
  assert (HvX : v_hash v ∉ X).
  { intros HX. assert (key v < key v); [|lia]. eapply (lk_skipped _ _ _ _ _ H); [exact HX| |done|done]. apply elem_of_app. auto. }
  rewrite bool_decide_true by (apply (lk_seen _ _ _ _ _ H); left; by apply elem_hashes).
  exists v, (mkWalkState (seen w ∖ {[v_hash v]}) q). split; [done|]. intros act Hact. split; cbn [to_visit seen].
  - constructor; [apply (lk_trace _ _ _ _ _ H)|done|by apply (lk_reason _ _ _ _ _ H)| |].
    + intros Hc. apply list_elem_of_fmap in Hc as (u & Eu & Hu). by destruct (lk_order _ _ _ _ _ H u v Hu Hv).
    + intros u Hu. by apply (lk_order _ _ _ _ _ H).
  - done.
  - done.
  - intros h. rewrite elem_of_difference, elem_of_singleton, (lk_seen _ _ _ _ _ H), Hhs.
    split; [tauto|]. intros [Hh|Hh]; (split; [tauto|]); intros ->; tauto.
  - intros u Hu. apply (lk_stored _ _ _ _ _ H), Hin. auto.
  - intros u Hu. rewrite verts_snoc in Hu. apply elem_of_app in Hu as [Hu|Hu]; [by apply (lk_in _ _ _ _ _ H)|]. by apply list_elem_of_singleton in Hu as ->.
  - intros u Hu. destruct (lk_reason _ _ _ _ _ H u) as [?|(x & Hx & ?)]; [apply Hin; auto|auto|]. right. exists x. split; [by apply visit_snoc|done].
  - intros u x Hu Hx. rewrite verts_snoc in Hu. apply elem_of_app in Hu as [Hu|Hu].
    + apply (lk_order _ _ _ _ _ H u x Hu), Hin. auto.
    + apply list_elem_of_singleton in Hu as ->. split; [apply Hmin, Hin; auto|]. intros Eh. apply Hvq. rewrite Eh. by apply elem_hashes.
  - intros h Hh. rewrite hashes_snoc. apply (lk_start _ _ _ _ _ H) in Hh. rewrite Hhs in Hh. tauto.
  - intros u h Hu Hh. rewrite hashes_snoc. apply elem_of_app in Hu as [Hu|Hu].
    + apply (lk_next _ _ _ _ _ H u h Hu) in Hh. rewrite Hhs in Hh. tauto.
    + apply list_elem_of_singleton in Hu. injection Hu as <- <-. done.
  - intros x u Hx Hu. rewrite verts_snoc, <- app_assoc in Hu. apply (lk_skipped _ _ _ _ _ H x u Hx).
    rewrite !elem_of_app, list_elem_of_singleton in Hu. rewrite elem_of_app, Hin. tauto.
Qed.

Lemma walk_trace_act st tr v act act' : walk_trace st (tr ++ [(v, act)]) -> walk_trace st (tr ++ [(v, act')]).
Proof.
  intros H. inversion H as [E|tr0 v0 act0 Htr Hst Hr Hn Ho E]; [by destruct tr|].
  apply app_inj_tail in E as [-> [= -> ->]]. by constructor.
Qed.

Lemma push_ok U st X w1 w2 tr v : graph_ok U -> loop_ok U st X w1 (tr ++ [(v, Skip)]) -> pushed X (N v) w1 w2 ->
  loop_ok U st X w2 (tr ++ [(v, Visit)]).
Proof.
  intros G H P. assert (Hverts : (tr ++ [(v, Visit)]).*1 = (tr ++ [(v, Skip)]).*1) by by rewrite !verts_snoc.
  destruct (lk_in _ _ _ _ _ H v) as [Hst HU]; [rewrite verts_snoc; apply elem_of_app; right; by apply list_elem_of_singleton|].
  assert (Hle : forall u, u ∈ (tr ++ [(v, Skip)]).*1 -> key u <= key v).
  { intros u Hu. rewrite verts_snoc in Hu. apply elem_of_app in Hu as [Hu|Hu]; [|apply list_elem_of_singleton in Hu as ->; lia].
    pose proof (lk_trace _ _ _ _ _ H) as T. inversion T as [E|tr0 v0 act0 ? ? ? ? Ho E]; [by destruct tr|].
    apply app_inj_tail in E as [-> [= -> ->]]. auto. }
  assert (Hnew : forall u, v_hash u ∈ N v -> stored u -> key v < key u) by (intros; by eapply (graph_later U)).
  assert (Hvisit : forall u, (u, Visit) ∈ tr ++ [(v, Visit)] -> u = v \/ (u, Visit) ∈ tr ++ [(v, Skip)]).
  { intros u Hu. apply elem_of_app in Hu as [Hu|Hu]; [right; apply elem_of_app; auto|]. apply list_elem_of_singleton in Hu. injection Hu. auto. }
  assert (Hkeep : forall h, h ∈ hashes (to_visit w1) -> h ∈ hashes (to_visit w2)).
  { intros h Hh. apply list_elem_of_fmap in Hh as (u & -> & Hu). by apply elem_hashes, (pu_old _ _ _ _ P). }
  split; rewrite ?Hverts.
  - eapply walk_trace_act, (lk_trace _ _ _ _ _ H).
  - apply (pu_heap _ _ _ _ P).
  - apply (pu_nodup _ _ _ _ P).
  - apply (pu_seen _ _ _ _ P).
  - intros u Hu. apply (pu_new _ _ _ _ P) in Hu as [Hu|(Hu & _ & Hs)]; [by apply (lk_stored _ _ _ _ _ H)|]. split; [done|]. by apply (graph_next _ G v).
  - apply (lk_in _ _ _ _ _ H).
  - intros u Hu. apply (pu_new _ _ _ _ P) in Hu as [Hu|(Hu & _ & _)].
    + apply (lk_reason _ _ _ _ _ H) in Hu as [?|(x & Hx & ?)]; [auto|right]. exists x. split; [|done].
      apply elem_of_app in Hx as [Hx|Hx]; [by apply visit_snoc|]. by apply list_elem_of_singleton in Hx.
    + right. exists v. split; [|done]. apply elem_of_app. right. by apply list_elem_of_singleton.
  - intros u x Hu Hx. apply (pu_new _ _ _ _ P) in Hx as [Hx|(Hx & _ & Hs)]; [by apply (lk_order _ _ _ _ _ H)|].
    specialize (Hnew x Hx Hs). specialize (Hle u Hu). split; [lia|]. intros Eh.
    rewrite (stored_inj u x) in Hle; [lia|by apply (lk_in _ _ _ _ _ H)|done|done].
  - intros h Hh. apply (lk_start _ _ _ _ _ H) in Hh as [?|?]; auto.
  - intros u h Hu Hh. apply Hvisit in Hu as [-> | Hu]; [|apply (lk_next _ _ _ _ _ H u h Hu) in Hh as [?|?]; auto].
    apply (pu_all _ _ _ _ P) in Hh as Ha. destruct Ha as [?|HX]; [auto|exfalso].
    destruct (graph_stored _ G h) as (y & Hg & Hy); [by apply (graph_next _ G v)|]. subst h.
    assert (stored y) by done. specialize (Hnew y Hh ltac:(done)).
    assert (key y < key v); [|lia]. apply (lk_skipped _ _ _ _ _ H (v_hash y) v HX); [|done|done].
    rewrite verts_snoc, !elem_of_app, list_elem_of_singleton. auto.
  - intros x u Hx Hu y Ey Hs. apply elem_of_app in Hu as [Hu|Hu]; [apply (lk_skipped _ _ _ _ _ H x u Hx); [apply elem_of_app; auto|done..]|].
    apply (pu_new _ _ _ _ P) in Hu as [Hu|(Hu & _ & Hsu)]; [apply (lk_skipped _ _ _ _ _ H x u Hx); [apply elem_of_app; auto|done..]|].
    specialize (Hnew u Hu Hsu). assert (key y < key v); [|lia].
    apply (lk_skipped _ _ _ _ _ H x v Hx); [|done|done]. rewrite verts_snoc, !elem_of_app, list_elem_of_singleton. auto.
Qed.

(** ** The loop *)

Definition view_is (s : S) : Prop := forall v, _get_iterator c s v = N v.

Lemma walk_trace_nodup st tr : walk_trace st tr -> NoDup (hashes tr.*1).
Proof.
  induction 1 as [|tr v act Htr IH _ _ Hn _]; [constructor|]. unfold hashes. rewrite verts_snoc, fmap_app.
  apply NoDup_app. split; [done|]. split; [|apply NoDup_singleton]. intros h Hh E. by apply list_elem_of_singleton in E as ->.
Qed.

Lemma trace_length U st X w tr : loop_ok U st X w tr -> (length tr <= size U)%nat.
Proof.
  intros H. assert (Hnd := walk_trace_nodup _ _ (lk_trace _ _ _ _ _ H)).
  transitivity (length (hashes tr.*1)); [unfold hashes; by rewrite !length_fmap|].
  rewrite <- (size_list_to_set (C := gset bytes)) by done. apply subseteq_size. intros h Hh.
  apply elem_of_list_to_set, list_elem_of_fmap in Hh as (u & -> & Hu). by apply (lk_in _ _ _ _ _ H).
Qed.

(** how a walk ends: nothing is left, the body broke out, or the body raised *)
Definition walk_outcome {L} (body : vertex -> L -> M S (WalkAction * L)) (st : list bytes) (tr : list visit)
    (a : L) (s : S) (r : result L * S) : Prop :=
  match r with
  | (Ok a', s') => exec body tr a s a' s' /\
      ((trace_complete st tr /\ Break ∉ tr.*2) \/ exists tr1 v, tr = tr1 ++ [(v, Break)])
  | (Err e, s') => exists v a1 s1, stored v /\ exec body tr a s a1 s1 /\ body v a1 s1 = (Err e, s')
  end.

Lemma loop_run {L} (body : vertex -> L -> M S (WalkAction * L)) U st X a0 s0 :
  graph_ok U ->
  (forall v a s r s', view_is s -> body v a s = (r, s') -> view_is s') ->
  forall fuel w tr a s, loop_ok U st X w tr -> view_is s -> (size U <= fuel + length tr)%nat ->
  exec body tr a0 s0 a s -> Break ∉ tr.*2 ->
  exists tr', walk_trace st tr' /\ walk_outcome body st tr' a0 s0 (walk_loop fuel BFS c body w a s).
Proof.
  intros G Hframe. induction fuel as [fuel IH] using lt_wf_ind. intros w tr a s H Hview Hfuel Hex Hnb.
  destruct (decide (to_visit w = [])) as [E|E].
  - exists tr. split; [apply (lk_trace _ _ _ _ _ H)|]. assert (Ep := proj2 (pop_None w) E).
    assert (Hc : trace_complete st tr).
    { split; [intros h Hh; apply (lk_start _ _ _ _ _ H) in Hh|intros u h Hu Hh; apply (lk_next _ _ _ _ _ H u h Hu) in Hh];
        rewrite E in Hh; destruct Hh as [?|Hh]; [done|by apply not_elem_of_nil in Hh|done|by apply not_elem_of_nil in Hh]. }
    destruct fuel; cbn [walk_loop]; unfold bind, lift; rewrite Ep; cbn; auto.
  - destruct (pop_ok _ _ _ _ _ H E) as (v & w1 & Ep & Hpop).
    assert (Hlen := trace_length _ _ _ _ _ (Hpop Skip ltac:(done))). rewrite length_app in Hlen. simpl in Hlen.
    destruct fuel as [|fuel]; [lia|]. cbn [walk_loop]. unfold bind at 1, lift. rewrite Ep.
    unfold bind at 1. destruct (body v a s) as [[[act a1]|e] s1] eqn:Eb; cycle 1.
    { exists tr. split; [apply (lk_trace _ _ _ _ _ H)|]. exists v, a, s. split; [|done].
      apply (lk_in _ _ _ _ _ (Hpop Skip ltac:(done))). rewrite verts_snoc. apply elem_of_app. right. by apply list_elem_of_singleton. }
    assert (Hv1 : view_is s1) by by eapply Hframe.
    assert (Hex1 := exec_snoc body tr v act a0 s0 a s a1 s1 Hex Eb).
    assert (Hnb1 : act <> Break -> Break ∉ (tr ++ [(v, act)]).*2).
    { intros Ha. rewrite fmap_app, elem_of_app. intros [?|Hb]; [done|]. apply list_elem_of_singleton in Hb. cbn in Hb. congruence. }
    destruct act.
    + unfold bind, add_neighbors. rewrite Hv1.
      assert (Hs := Hpop Skip ltac:(done)). destruct (lk_in _ _ _ _ _ Hs v) as [Hst HU].
      { rewrite verts_snoc. apply elem_of_app. right. by apply list_elem_of_singleton. }
      destruct (add_neighbors_ok X (N v) w1) as (w2 & E2 & P).
      { intros h Hh. apply (graph_stored _ G). by apply (graph_next _ G v). }
      { apply (lk_heap _ _ _ _ _ Hs). } { apply (lk_nodup _ _ _ _ _ Hs). } { apply (lk_seen _ _ _ _ _ Hs). }
      rewrite E2. apply (IH fuel ltac:(lia) w2 (tr ++ [(v, Visit)])); [by eapply push_ok|done| |done|by apply Hnb1].
      rewrite length_app. simpl. lia.
    + apply (IH fuel ltac:(lia) w1 (tr ++ [(v, Skip)])); [by apply Hpop|done| |done|by apply Hnb1]. rewrite length_app. simpl. lia.
    + exists (tr ++ [(v, Break)]). split; [apply (lk_trace _ _ _ _ _ (Hpop Break ltac:(done)))|]. split; [done|]. right. by exists tr, v.
Qed.

(** ** A walk from one root *)

Lemma start_ok U root skip_root s : graph_ok U -> stored root -> v_hash root ∈ U -> view_is s ->
  exists w X, push_roots BFS c [root] skip_root (mkWalkState ∅ []) s = (Ok w, s) /\
    loop_ok U (starts root skip_root) X w [].
Proof.
  intros G Hst HU Hview. cbn [push_roots]. unfold bind, ret. cbn [seen to_visit].
  set (w0 := mkWalkState ({[v_hash root]} ∪ ∅) []).
  assert (Hnil : forall v : vertex, v ∉ ([] : list vertex)) by (intros; apply not_elem_of_nil).
  assert (Hnilv : forall v : visit, v ∉ ([] : list visit)) by (intros; apply not_elem_of_nil).
  destruct skip_root; unfold starts.
  - unfold add_neighbors. rewrite Hview. destruct (add_neighbors_ok {[v_hash root]} (N root) w0) as (w & E & P).
    { intros h Hh. apply (graph_stored _ G). by apply (graph_next _ G root). }
    { by intros i x p _ ?. } { constructor. } { intros h. cbn. rewrite elem_of_union, elem_of_nil. set_solver. }
    rewrite E. exists w, {[v_hash root]}. split; [done|].
    assert (Hnew : forall v, v ∈ to_visit w -> v_hash v ∈ N root /\ stored v).
    { intros v Hv. apply (pu_new _ _ _ _ P) in Hv as [Hv|(? & _ & ?)]; [by apply Hnil in Hv|done]. }
    split; try (intros ? Hv; by apply Hnil in Hv); try (intros ? ? Hv; by apply Hnil in Hv || by apply Hnilv in Hv).
    + constructor.
    + apply (pu_heap _ _ _ _ P).
    + apply (pu_nodup _ _ _ _ P).
    + apply (pu_seen _ _ _ _ P).
    + intros v Hv. destruct (Hnew v Hv). split; [done|]. by apply (graph_next _ G root).
    + intros v Hv. left. by apply Hnew.
    + intros h Hh. apply (pu_all _ _ _ _ P) in Hh as Ha. destruct Ha as [?|Hx]; [auto|exfalso].
      apply elem_of_singleton in Hx as ->. assert (H := graph_later _ G root root Hst HU Hst Hh). lia.
    + intros x u Hx Hu v <- Hs. apply elem_of_singleton in Hx. rewrite (stored_inj v root) by done.
      cbn in Hu. destruct (Hnew u Hu). by eapply (graph_later _ G).
  - exists (mkWalkState ({[v_hash root]} ∪ ∅) [root]), ∅. split; [done|].
    assert (Hone : forall v : vertex, v ∈ [root] -> v = root) by (intros v; apply list_elem_of_singleton).
    split; cbn [to_visit seen]; try (intros ? Hv; by apply Hnil in Hv); try (intros ? ? Hv; by apply Hnil in Hv || by apply Hnilv in Hv).
    + constructor.
    + intros i x p Hi Hx. destruct i; [lia|done].
    + apply NoDup_singleton.
    + intros h. unfold hashes. cbn. rewrite list_elem_of_singleton. set_solver.
    + by intros v ->%Hone.
    + intros v ->%Hone. left. by left.
    + intros h Hh. right. unfold hashes. done.
    + intros x u Hx. set_solver.
Qed.

Lemma bfs_run {L} (body : vertex -> L -> M S (WalkAction * L)) U root skip_root a s fuel :
  graph_ok U -> (forall v a s r s', view_is s -> body v a s = (r, s') -> view_is s') ->
  stored root -> v_hash root ∈ U -> view_is s -> (size U <= fuel)%nat ->
  exists tr, walk_trace (starts root skip_root) tr /\
    walk_outcome body (starts root skip_root) tr a s (bfs_timestamp fuel c [root] skip_root body a s).
Proof.
  intros G Hframe Hst HU Hview Hf. destruct (start_ok U root skip_root s G Hst HU Hview) as (w & X & E & H).
  unfold bfs_timestamp, run, bind. rewrite E.
  apply (loop_run body U _ X a s G Hframe fuel w []); [done..|simpl; lia|done|]. apply not_elem_of_nil.
Qed.

(** ** What is reachable *)

Definition edge (u v : vertex) : Prop := v_hash v ∈ N u /\ stored v.

(** the vertices a walk from [root] may visit *)
Definition reached (root : vertex) (skip_root : bool) (v : vertex) : Prop :=
  if skip_root then tc edge root v else rtc edge root v.

Lemma reached_step root skip_root u v : reached root skip_root u -> edge u v -> reached root skip_root v.
Proof. destruct skip_root; cbn; [apply tc_r|apply rtc_r]. Qed.

Lemma reached_start root skip_root v : stored root -> stored v -> v_hash v ∈ starts root skip_root -> reached root skip_root v.
Proof.
  intros Hr Hv. destruct skip_root; cbn; intros H; [by apply tc_once|].
  apply list_elem_of_singleton in H. by rewrite (stored_inj v root).
Qed.

Lemma trace_reached root skip_root tr : stored root -> walk_trace (starts root skip_root) tr ->
  forall v, v ∈ tr.*1 -> stored v /\ reached root skip_root v.
Proof.
  intros Hr. induction 1 as [|tr v act Htr IH Hst Hreason _ _]; intros u Hu; [by apply not_elem_of_nil in Hu|].
  rewrite verts_snoc in Hu. apply elem_of_app in Hu as [Hu|Hu]; [auto|]. apply list_elem_of_singleton in Hu as ->.
  split; [done|]. destruct Hreason as [Hs|(x & Hx & Hn)]; [by apply reached_start|].
  destruct (IH x) as [_ Hxr]; [by apply (list_elem_of_fmap_2 fst) in Hx|]. by eapply reached_step.
Qed.

(** a complete trace in which every vertex is expanded has all of them *)
Lemma complete_reached root skip_root tr : stored root -> walk_trace (starts root skip_root) tr ->
  trace_complete (starts root skip_root) tr -> (forall v act, (v, act) ∈ tr -> act = Visit) ->
  forall v, reached root skip_root v -> v ∈ tr.*1.
Proof.
  intros Hr T [Hs Hn] Hall.
  assert (Hin : forall v, stored v -> v_hash v ∈ hashes tr.*1 -> v ∈ tr.*1).
  { intros v Hv Hh. apply list_elem_of_fmap in Hh as (u & Eu & Hu). rewrite (stored_inj v u); [done|done| |done].
    by apply (trace_reached _ _ _ Hr T). }
  assert (Hstep : forall u v, u ∈ tr.*1 -> edge u v -> v ∈ tr.*1).
  { intros u v Hu [Huv Hv]. apply Hin; [done|]. apply list_elem_of_fmap in Hu as ([u' act] & -> & Hu).
    rewrite (Hall _ _ Hu) in Hu. by eapply Hn. }
  assert (Hrtc : forall u v, rtc edge u v -> u ∈ tr.*1 -> v ∈ tr.*1) by (intros u v; induction 1; eauto).
  intros v Hv. destruct skip_root; cbn in *.
  - assert (Hfirst : forall u, edge root u -> u ∈ tr.*1) by (intros u [Hu Hu']; apply Hin; auto).
    inversion Hv as [? ? Hu|? u ? Hu Hv']; subst; [auto|]. apply (Hrtc u v); [by apply tc_rtc|auto].
  - apply (Hrtc root v Hv). apply Hin; [done|]. apply Hs. by left.
Qed.

(** a body that visits every vertex and only folds over them *)
Definition fold_body {L} (f : L -> vertex -> L) : vertex -> L -> M S (WalkAction * L) := fun v a => ret (Visit, f a v).

Lemma exec_fold {L} (f : L -> vertex -> L) tr a s a' s' : exec (fold_body f) tr a s a' s' ->
  s' = s /\ a' = fold_left f tr.*1 a /\ forall v act, (v, act) ∈ tr -> act = Visit.
Proof.
  revert a s. induction tr as [|[v act] tr IH]; intros a s; cbn [exec].
  - intros [-> ->]. repeat split. intros v act H. by apply not_elem_of_nil in H.
  - intros (a1 & s1 & Hb & He). unfold fold_body, ret in Hb. injection Hb as <- <- <-.
    apply IH in He as (-> & -> & Hv). repeat split. intros u b H. apply elem_of_cons in H as [[= -> ->]|H]; [done|eauto].
Qed.

Lemma walk_trace_sorted st tr : walk_trace st tr -> StronglySorted (fun u v => key u <= key v) tr.*1.
Proof.
  induction 1 as [|tr v act Htr IH _ _ _ Ho]; [constructor|]. rewrite verts_snoc. apply StronglySorted_app_2; [|done|repeat constructor].
  intros x1 x2 H1 H2. apply list_elem_of_singleton in H2 as ->. auto.
Qed.

Lemma bfs_fold {L} (f : L -> vertex -> L) U root skip_root a s fuel :
  graph_ok U -> stored root -> v_hash root ∈ U -> view_is s -> (size U <= fuel)%nat ->
  exists l, bfs_timestamp fuel c [root] skip_root (fold_body f) a s = (Ok (fold_left f l a), s) /\
    NoDup (hashes l) /\ StronglySorted (fun u v => key u <= key v) l /\
    (forall v, v ∈ l <-> reached root skip_root v).
Proof.
  intros G Hst HU Hview Hf.
  destruct (bfs_run (fold_body f) U root skip_root a s fuel) as (tr & T & O); [done| |done..|].
  { intros v b s1 r s' H E. unfold fold_body, ret in E. injection E as <- <-. done. }
  exists tr.*1. unfold walk_outcome in O. destruct (bfs_timestamp _ _ _ _ _ _ _) as [[a'|e] s'].
  - destruct O as [Hex Hend]. apply exec_fold in Hex as (-> & -> & Hall).
    split; [done|]. split; [by eapply walk_trace_nodup|]. split; [by eapply walk_trace_sorted|].
    intros v. split; [intros Hv; by apply (trace_reached _ _ _ Hst T)|].
    destruct Hend as [[Hc _]|(tr1 & u & E)]; [by apply complete_reached|].
    assert (Hx := Hall u Break). rewrite E in Hx. discriminate Hx. apply elem_of_app. right. by left.
  - destruct O as (v & a1 & s1 & _ & _ & E). discriminate E.
Qed.
End theory.
