(* ===== verification/ConsensusState.v ===== *)
(** The state of the consensus algorithm: the metadata of the vertices, their children, the
    caches and indexes of the storage and the context of an update.
    [hathor/consensus/context.py], [hathor/transaction/vertex_children.py], parts of
    [transaction_storage.py], [base_transaction.py] and [consensus.py].

    Objects of vertices are shared: the storage hands out one object per hash, with its
    metadata, so that an assignment to a field of a metadata is seen by every holder of the
    vertex.  The map [c_metas] is that store. *)

From stdpp Require Import base list sorting gmap.
From Stdlib Require Import ZArith Lia Floats.SpecFloat.
From S2P Require Import Prelude PyInt PyValue PyFloat ScriptVM TxStruct TokenInfo StaticMetadata Metadata Daa Heapq Traversal.

Local Open Scope Z_scope.
Local Open Scope py_scope.

(** [b'tx-non-grata'], [b'consensus-fail'], [b'pending-validation'] and [b'nc-fail'] *)
Definition SOFT_VOIDED_ID : bytes := zb [116; 120; 45; 110; 111; 110; 45; 103; 114; 97; 116; 97].
Definition CONSENSUS_FAIL_ID : bytes := zb [99; 111; 110; 115; 101; 110; 115; 117; 115; 45; 102; 97; 105; 108].
Definition PARTIALLY_VALIDATED_ID : bytes :=
  zb [112; 101; 110; 100; 105; 110; 103; 45; 118; 97; 108; 105; 100; 97; 116; 105; 111; 110].
Definition NC_EXECUTION_FAIL_ID : bytes := zb [110; 99; 45; 102; 97; 105; 108].

(** [bytes.__le__] *)
Fixpoint bytes_le (a b : bytes) : bool :=
  match a, b with
  | [], _ => true
  | _ :: _, [] => false
  | x :: a, y :: b => (b2z x <? b2z y) || ((b2z x =? b2z y) && bytes_le a b)
  end.

Definition bytes_order (a b : bytes) : Prop := bytes_le a b = true.

#[export] Instance bytes_order_dec : RelDecision bytes_order := fun a b => decide (bytes_le a b = true).

Definition sort_bytes (l : list bytes) : list bytes := merge_sort bytes_order l.

(** [ReorgInfo], by the hashes of the blocks *)
Record ReorgInfo : Type := mkReorg { common_block : bytes; old_best_block : bytes; new_best_block : bytes }.

(** the ids of the transactions that are voided by configuration *)
Class ConsensusParams : Type := { soft_voided_tx_ids : gset bytes }.

(** the tables of [hathor/indexes], whose updates read the metadata *)
Class Indexes (X : Type) : Type := {
  index_add_tx : gmap bytes TransactionMetadata -> vertex -> M X unit;
  index_del_tx : gmap bytes TransactionMetadata -> vertex -> bool -> M X unit;
  index_contract_unexecution : gmap bytes TransactionMetadata -> vertex -> M X unit;
  index_block_tips : X -> list bytes
}.

Record CState (X : Type) : Type := mkC {
  c_metas : gmap bytes TransactionMetadata;
  c_children : gmap bytes (gset bytes);
  c_affected : gset bytes;
  c_reorg : option ReorgInfo;
  c_tips : option (list bytes);
  c_heights : list (bytes * Z);
  c_index : X
}.
Arguments mkC {X} _ _ _ _ _ _ _.
Arguments c_metas {X} _.
Arguments c_children {X} _.
Arguments c_affected {X} _.
Arguments c_reorg {X} _.
Arguments c_tips {X} _.
Arguments c_heights {X} _.
Arguments c_index {X} _.

(** ** Updates of one field of a metadata *)

Definition with_spent (x : list (Z * list bytes)) (m : TransactionMetadata) : TransactionMetadata :=
  mkMeta x (conflict_with m) (voided_by m) (twins m) (accumulated_weight m) (score m) (first_block m) (validation m) (nc_execution m) (nc_calls m).
Definition with_conflict (x : option (list bytes)) (m : TransactionMetadata) : TransactionMetadata :=
  mkMeta (spent_outputs m) x (voided_by m) (twins m) (accumulated_weight m) (score m) (first_block m) (validation m) (nc_execution m) (nc_calls m).
Definition with_voided (x : option (gset bytes)) (m : TransactionMetadata) : TransactionMetadata :=
  mkMeta (spent_outputs m) (conflict_with m) x (twins m) (accumulated_weight m) (score m) (first_block m) (validation m) (nc_execution m) (nc_calls m).
Definition with_twins (x : list bytes) (m : TransactionMetadata) : TransactionMetadata :=
  mkMeta (spent_outputs m) (conflict_with m) (voided_by m) x (accumulated_weight m) (score m) (first_block m) (validation m) (nc_execution m) (nc_calls m).
Definition with_weight (x : Z) (m : TransactionMetadata) : TransactionMetadata :=
  mkMeta (spent_outputs m) (conflict_with m) (voided_by m) (twins m) x (score m) (first_block m) (validation m) (nc_execution m) (nc_calls m).
Definition with_score (x : Z) (m : TransactionMetadata) : TransactionMetadata :=
  mkMeta (spent_outputs m) (conflict_with m) (voided_by m) (twins m) (accumulated_weight m) x (first_block m) (validation m) (nc_execution m) (nc_calls m).
Definition with_first_block (x : option bytes) (m : TransactionMetadata) : TransactionMetadata :=
  mkMeta (spent_outputs m) (conflict_with m) (voided_by m) (twins m) (accumulated_weight m) (score m) x (validation m) (nc_execution m) (nc_calls m).
Definition with_nc (x : option NCExecutionState) (y : option (list MetaNCCallRecord)) (m : TransactionMetadata) : TransactionMetadata :=
  mkMeta (spent_outputs m) (conflict_with m) (voided_by m) (twins m) (accumulated_weight m) (score m) (first_block m) (validation m) x y.

Section state.
Context {TS : TxSettings} {VS : VertexStorage} {FL : FloatLib} {X : Type} {IX : Indexes X}.

Abbreviation C := (M (CState X)).

(** [for x in l: ...] that updates a local variable *)
Fixpoint mfold {A B S : Type} (f : B -> A -> M S B) (l : list A) (b : B) : M S B :=
  match l with
  | [] => ret b
  | x :: l => let! b := f b x in mfold f l b
  end.

(** ** Reading *)

Definition is_partial (v : ValidationState) : bool := bool_decide (v ∈ [INITIAL; BASIC; CHECKPOINT]).

(** [tx.get_metadata()]: a vertex not seen before gets new metadata *)
Definition initial_metadata (tx : vertex) : result TransactionMetadata :=
  let? work := weight_to_work (v_weight tx) in
  Ok (new_metadata work (if is_genesis tx then work else 0) (if is_genesis tx then FULL else INITIAL)).

Definition meta_of (s : CState X) (tx : vertex) : result TransactionMetadata :=
  match c_metas s !! v_hash tx with Some m => Ok m | None => initial_metadata tx end.

Definition get_meta (tx : vertex) : C TransactionMetadata := fun s => (meta_of s tx, s).

Definition get_tx (h : bytes) : C vertex := lift (get_transaction h).

Definition get_txs (hs : list bytes) : C (list vertex) :=
  mfold (fun l h => let! tx := get_tx h in ret (l ++ [tx])) hs [].

(** [tx.get_children()]: the keys of the table in order *)
Definition children_of (s : CState X) (tx : vertex) : list bytes :=
  sort_bytes (elements (default ∅ (c_children s !! v_hash tx))).

Definition get_children (tx : vertex) : C (list bytes) := fun s => (Ok (children_of s tx), s).

#[export] Instance consensus_view : DagView (CState X) := {
  view_children := children_of;
  view_spent_outputs s tx := match meta_of s tx with Ok m => spent_outputs m | Err _ => [] end
}.

(** a walk visits each stored vertex at most once *)
Definition walk {L} (c : WalkConfig) (root : vertex) (skip_root : bool) (body : vertex -> L -> C (WalkAction * L)) (acc : L) : C L :=
  fun s => bfs_timestamp (size (c_metas s)) c [root] skip_root body acc s.

(** the walks of the algorithm: to the right or to the left, over both DAGs *)
Definition to_right : WalkConfig := mkWalk true true true.
Definition to_left : WalkConfig := mkWalk true true false.

(** ** Writing *)

(** an assignment to a field of the metadata *)
Definition set_meta (tx : vertex) (m : TransactionMetadata) : C unit := fun s =>
  (Ok tt, mkC (<[v_hash tx := m]> (c_metas s)) (c_children s) (c_affected s) (c_reorg s) (c_tips s) (c_heights s) (c_index s)).

Definition update_meta (tx : vertex) (f : TransactionMetadata -> TransactionMetadata) : C unit :=
  let! m := get_meta tx in set_meta tx (f m).

(** [storage.save_transaction(tx, only_metadata=True)]: what it checks, the storage
    accepting valid vertices only *)
Definition save_transaction (tx : vertex) : C unit :=
  let! m := get_meta tx in
  let marker := is_in_voided_by PARTIALLY_VALIDATED_ID (voided_by m) in
  py_assert (Bool.eqb (negb marker) (is_fully_connected (validation m))) ;;;
  if is_partial (validation m) || bool_decide (validation m = INVALID) then raise TransactionNotInAllowedScopeError else ret tt.

(** [ConsensusAlgorithmContext.save] *)
Definition save (tx : vertex) : C unit := fun s =>
  save_transaction tx
    (mkC (c_metas s) (c_children s) ({[v_hash tx]} ∪ c_affected s) (c_reorg s) (c_tips s) (c_heights s) (c_index s)).

(** [ConsensusAlgorithmContext.mark_as_reorg] *)
Definition mark_as_reorg (r : ReorgInfo) : C unit := fun s =>
  match c_reorg s with
  | Some _ => (Err AssertionError, s)
  | None => (Ok tt, mkC (c_metas s) (c_children s) (c_affected s) (Some r) (c_tips s) (c_heights s) (c_index s))
  end.

Definition update_best_block_tips_cache (tips : option (list bytes)) : C unit := fun s =>
  (Ok tt, mkC (c_metas s) (c_children s) (c_affected s) (c_reorg s) tips (c_heights s) (c_index s)).

(** a call to the indexes *)
Definition on_index (f : gmap bytes TransactionMetadata -> M X unit) : C unit := fun s =>
  let '(r, x) := f (c_metas s) (c_index s) in
  (r, mkC (c_metas s) (c_children s) (c_affected s) (c_reorg s) (c_tips s) (c_heights s) x).

Definition add_to_indexes (tx : vertex) : C unit := on_index (fun m => index_add_tx m tx).
Definition del_from_indexes (tx : vertex) (relax_assert : bool) : C unit := on_index (fun m => index_del_tx m tx relax_assert).

(** [storage.get_best_block_tips()] *)
Definition tip_step (st : Z * list bytes) (h : bytes) : C (Z * list bytes) :=
  let '(best_score, tips) := st in
  let! tx := get_tx h in
  let! m := get_meta tx in
  if truthy_set (voided_by m) && negb (bool_decide (voided_by m = Some {[h]})) then ret st
  else if score m =? best_score then ret (best_score, tips ++ [h])
  else if best_score <? score m then ret (score m, [h])
  else ret st.

Definition get_best_tips : C (list bytes) := fun s =>
  match c_tips s with
  | Some tips => (Ok tips, s)
  | None =>
      (let! (_, tips) := mfold tip_step (index_block_tips (c_index s)) (0, []) in
       update_best_block_tips_cache (Some tips) ;;; ret tips) s
  end.

(** ** The storage of children *)

Definition add_child (parent : vertex) (child : bytes) : C unit := fun s =>
  (Ok tt, mkC (c_metas s) (<[v_hash parent := {[child]} ∪ default ∅ (c_children s !! v_hash parent)]> (c_children s))
     (c_affected s) (c_reorg s) (c_tips s) (c_heights s) (c_index s)).

Definition remove_child (parent : vertex) (child : bytes) : C unit := fun s =>
  (Ok tt, mkC (c_metas s) (<[v_hash parent := default ∅ (c_children s !! v_hash parent) ∖ {[child]}]> (c_children s))
     (c_affected s) (c_reorg s) (c_tips s) (c_heights s) (c_index s)).

(** ** Metadata of a new vertex *)

(** [get_parents(existing_only=True)] *)
Definition existing_parents (tx : vertex) : C (list vertex) :=
  mfold (fun l h => fun s =>
    match get_transaction h with
    | Ok p => (Ok (l ++ [p]), s)
    | Err e => if issubclass_exn e TransactionDoesNotExist then (Ok l, s) else (Err e, s)
    end) (v_parents tx) [].

Definition _update_parents_children_metadata (tx : vertex) : C unit :=
  let! parents := existing_parents tx in
  for_each parents (fun p => add_child p (v_hash tx)).

Definition _update_initial_accumulated_weight (tx : vertex) : C unit :=
  let! work := lift (weight_to_work (v_weight tx)) in
  update_meta tx (with_weight work).

Definition update_initial_metadata (tx : vertex) : C unit :=
  _update_parents_children_metadata tx ;;;
  _update_initial_accumulated_weight tx ;;;
  save_transaction tx.

(** ** [update_accumulated_weight] *)

Definition weight_body (stop_value : option Z) (tx : vertex) (work : Z) : C (WalkAction * Z) :=
  let! w := lift (weight_to_work (v_weight tx)) in
  let work := work + w in
  match stop_value with
  | Some stop => ret (if stop <? work then Break else Visit, work)
  | None => ret (Visit, work)
  end.

Definition update_accumulated_weight (tx : vertex) (stop_value : option Z) (save_file : bool) : C TransactionMetadata :=
  let! metadata := get_meta tx in
  if match stop_value with Some stop => stop <? accumulated_weight metadata | None => false end then ret metadata else
  let! work := lift (weight_to_work (v_weight tx)) in
  let! work := walk to_right tx true (weight_body stop_value) work in
  update_meta tx (with_weight work) ;;;
  (if save_file then save_transaction tx else ret tt) ;;;
  get_meta tx.
End state.
