(* ===== verification/TxConsensus.v ===== *)
(** The consensus algorithm for transactions: [hathor/consensus/transaction_consensus.py],
    with the operations of [block_consensus.py] it calls and the filters of
    [consensus.py].

    The operations call each other through the two algorithms; the record [algo] holds the
    two that close the recursion, the others take it as an argument, and [algo_at] unrolls
    it: an unrolling that is too short raises [OutOfFuel]. *)

From stdpp Require Import base list sorting gmap.
From Stdlib Require Import ZArith Lia.
From S2P Require Import Prelude PyInt ScriptVM TxStruct TokenInfo StaticMetadata Metadata Daa Heapq Traversal ConsensusState.

Local Open Scope Z_scope.
Local Open Scope py_scope.

(** the keys of [sorted] in [check_twins] *)
Definition input_le (a b : TxInput) : Prop :=
  if bool_decide (in_tx_id a = in_tx_id b) then
    if in_index a =? in_index b then bytes_le (in_data a) (in_data b) = true else in_index a < in_index b
  else bytes_le (in_tx_id a) (in_tx_id b) = true.

#[export] Instance input_le_dec : RelDecision input_le.
Proof. intros a b. unfold input_le. repeat case_match; apply _. Defined.

Definition output_le (a b : TxOutput) : Prop :=
  if bool_decide (out_script a = out_script b) then out_value a <= out_value b
  else bytes_le (out_script a) (out_script b) = true.

#[export] Instance output_le_dec : RelDecision output_le.
Proof. intros a b. unfold output_le. case_match; apply _. Defined.

(** [x.timestamp] in decreasing order *)
Definition newer (a b : vertex) : Prop := v_timestamp b <= v_timestamp a.

#[export] Instance newer_dec : RelDecision newer.
Proof. intros a b. unfold newer. apply _. Defined.

Section tx_consensus.
Context {TS : TxSettings} {VS : VertexStorage} {FL : FloatLib} {SO : SetOrder} {CP : ConsensusParams}.
Context {X : Type} {IX : Indexes X}.

Abbreviation C := (M (CState X)).

(** the iteration over a set *)
Definition iter_set (s : gset bytes) : list bytes := set_iter (elements s).

(** [meta.voided_by or set()] *)
Definition voided_set (m : TransactionMetadata) : gset bytes := default ∅ (voided_by m).

(** [bool(soft_voided_tx_ids & voided_by)] *)
Definition is_soft_voided (s : gset bytes) : bool := negb (bool_decide (soft_voided_tx_ids ∩ s = ∅)).

(** * The filters of [ConsensusAlgorithm] *)

Definition soft_step (tx : vertex) (r : gset bytes) (h : bytes) : C (gset bytes) :=
  if bool_decide (h = SOFT_VOIDED_ID) || bool_decide (h = CONSENSUS_FAIL_ID) || bool_decide (h = NC_EXECUTION_FAIL_ID)
     || bool_decide (h = v_hash tx) || bool_decide (h ∈ soft_voided_tx_ids) then ret r else
  let! tx3 := get_tx h in
  let! tx3_meta := get_meta tx3 in
  ret (if is_soft_voided (voided_set tx3_meta) then r else {[h]} ∪ r).

Definition _filter_out_soft_voided_entries (tx : vertex) (s : gset bytes) : C (gset bytes) :=
  if negb (is_soft_voided s) then ret s else mfold (soft_step tx) (iter_set s) ∅.

Definition nc_fail_step (tx : vertex) (r : gset bytes) (h : bytes) : C (gset bytes) :=
  if bool_decide (h = SOFT_VOIDED_ID) || bool_decide (h = NC_EXECUTION_FAIL_ID) || bool_decide (h = v_hash tx) then ret r else
  let! tx2 := get_tx h in
  let! tx2_meta := get_meta tx2 in
  ret (if bool_decide (NC_EXECUTION_FAIL_ID ∈ voided_set tx2_meta) then r ∖ {[h]} else r).

Definition _filter_out_nc_fail_entries (tx : vertex) (s : gset bytes) : C (gset bytes) :=
  let! r :=
    (if bool_decide (NC_EXECUTION_FAIL_ID ∈ s) then
       (* [set.remove] raises [KeyError] *)
       let r := s ∖ {[NC_EXECUTION_FAIL_ID]} in
       if bool_decide (v_hash tx ∈ r) then ret (r ∖ {[v_hash tx]}) else raise KeyError
     else ret s) in
  let! r := mfold (nc_fail_step tx) (iter_set s) r in
  py_assert (bool_decide (NC_EXECUTION_FAIL_ID ∉ r)) ;;;
  ret r.

Definition filter_out_voided_by_entries_from_parents (tx : vertex) (s : gset bytes) : C (gset bytes) :=
  let! s := _filter_out_nc_fail_entries tx s in
  _filter_out_soft_voided_entries tx s.

(** * Conflicts of a new transaction *)

(** the new value of [conflict_with] of a transaction that conflicts with [h] *)
Definition append_conflict (h : bytes) (l : option (list bytes)) : list bytes :=
  if truthy_list l then
    if bool_decide (h ∈ default [] l) then default [] l else default [] l ++ [h]
  else [h].

(** the new value of [conflict_with] of the transaction that spends what [spent_by] spend *)
Definition extend_conflicts (spent_by : list bytes) (l : option (list bytes)) : list bytes :=
  if truthy_list l then default [] l ++ iter_set (list_to_set spent_by ∖ list_to_set (default [] l)) else spent_by.

(** one turn of the loop over [spent_by] in [mark_input_as_used] *)
Definition mark_conflict (tx : vertex) (h : bytes) : C unit :=
  let! conflict_tx := get_tx h in
  update_meta conflict_tx (fun m => with_conflict (Some (append_conflict (v_hash tx) (conflict_with m))) m) ;;;
  save conflict_tx.

Definition mark_input_as_used (tx : vertex) (txin : TxInput) : C unit :=
  let! spent_tx := get_tx (in_tx_id txin) in
  let! spent_meta := get_meta spent_tx in
  let spent_by := default [] (od_get (spent_outputs spent_meta) (in_index txin)) in
  (* [spent_outputs] is a [defaultdict]: reading an absent key adds it *)
  update_meta spent_tx (fun m => with_spent (od_set (spent_outputs m) (in_index txin) spent_by) m) ;;;
  py_assert (bool_decide (v_hash tx ∉ spent_by)) ;;;
  (match spent_by with
   | [] => ret tt
   | _ :: _ =>
       update_meta tx (fun m =>
         with_conflict (Some (extend_conflicts spent_by (conflict_with m)))
           (with_voided (add_to_voided_by (v_hash tx) (voided_by m)) m))
   end) ;;;
  save tx ;;;
  for_each spent_by (mark_conflict tx) ;;;
  update_meta spent_tx (fun m => with_spent (od_set (spent_outputs m) (in_index txin) (spent_by ++ [v_hash tx])) m) ;;;
  save spent_tx.

Definition mark_inputs_as_used (tx : vertex) : C unit := for_each (v_inputs tx) (mark_input_as_used tx).

(** ** Twins *)

Definition same_inputs (a b : list TxInput) : bool :=
  bool_decide (map (fun i => (in_tx_id i, in_data i, in_index i)) (merge_sort input_le a) =
               map (fun i => (in_tx_id i, in_data i, in_index i)) (merge_sort input_le b)).

Definition same_outputs (a b : list TxOutput) : bool :=
  bool_decide (map (fun o => (out_value o, out_script o)) (merge_sort output_le a) =
               map (fun o => (out_value o, out_script o)) (merge_sort output_le b)).

Definition is_twin (tx candidate : vertex) : bool :=
  (Nat.eqb (length (v_inputs candidate)) (length (v_inputs tx))) &&
  (Nat.eqb (length (v_outputs candidate)) (length (v_outputs tx))) &&
  negb (bool_decide (v_hash candidate = v_hash tx)) &&
  same_inputs (v_inputs candidate) (v_inputs tx) && same_outputs (v_outputs candidate) (v_outputs tx).

Definition check_twin (tx candidate : vertex) : C unit :=
  if is_twin tx candidate then
    update_meta tx (fun m => with_twins (twins m ++ [v_hash candidate]) m) ;;;
    update_meta candidate (fun m => with_twins (twins m ++ [v_hash tx]) m) ;;;
    save candidate
  else ret tt.

Definition check_twins (tx : vertex) (transactions : list vertex) : C unit :=
  for_each transactions (check_twin tx) ;;;
  save tx.

Definition set_conflict_twins (tx : vertex) : C unit :=
  let! meta := get_meta tx in
  if negb (truthy_list (conflict_with meta)) then ret tt else
  let! conflict_txs := get_txs (default [] (conflict_with meta)) in
  check_twins tx conflict_txs.

(** * Assertions on the state *)

Definition assert_valid_consensus (tx : vertex) : C unit :=
  let! meta := get_meta tx in
  let is_tx_executed := negb (truthy_set (voided_by meta)) in
  for_each (default [] (conflict_with meta)) (fun h =>
    let! conflict_tx := get_tx h in
    let! conflict_tx_meta := get_meta conflict_tx in
    let is_conflict_tx_executed := negb (truthy_set (voided_by conflict_tx_meta)) in
    py_assert (negb (is_tx_executed && is_conflict_tx_executed))).

(** the last loop of [assert_voided_with_first_block] *)
Fixpoint some_nc_fail (hs : list bytes) : C unit :=
  match hs with
  | [] => raise AssertionError
  | h :: hs =>
      let! tx2 := get_tx h in
      let! tx2_meta := get_meta tx2 in
      py_assert (truthy_set (voided_by tx2_meta)) ;;;
      if bool_decide (NC_EXECUTION_FAIL_ID ∈ voided_set tx2_meta) then py_assert (is_nano_contract tx2) else some_nc_fail hs
  end.

Definition assert_voided_with_first_block (tx : vertex) : C unit :=
  let! meta := get_meta tx in
  match voided_by meta with
  | None => raise AssertionError
  | Some s =>
      if is_soft_voided s then ret tt
      else if bool_decide (NC_EXECUTION_FAIL_ID ∈ s) then py_assert (is_nano_contract tx)
      else some_nc_fail (iter_set s)
  end.

(** the loop of [has_only_nc_execution_fail_id] *)
Fixpoint only_nc_fail (tx : vertex) (hs : list bytes) : C bool :=
  match hs with
  | [] => ret true
  | h :: hs =>
      if bool_decide (h = v_hash tx) || bool_decide (h = NC_EXECUTION_FAIL_ID) then only_nc_fail tx hs
      else if bool_decide (h = SOFT_VOIDED_ID) then ret false else
      let! tx2 := get_tx h in
      let! tx2_meta := get_meta tx2 in
      if bool_decide (NC_EXECUTION_FAIL_ID ∉ voided_set tx2_meta) then ret false else
      py_assert (bool_decide (voided_set tx2_meta = {[v_hash tx2; NC_EXECUTION_FAIL_ID]})) ;;;
      only_nc_fail tx hs
  end.

Definition has_only_nc_execution_fail_id (tx : vertex) : C bool :=
  let! meta := get_meta tx in
  match voided_by meta with
  | None => ret false
  | Some s =>
      py_assert (truthy_set (Some s)) ;;;
      if bool_decide (v_hash tx ∈ s) && bool_decide (NC_EXECUTION_FAIL_ID ∉ s) then ret false
      else only_nc_fail tx (iter_set s)
  end.

(** * The mutually recursive operations *)

Record algo : Type := mkAlgo {
  add_voided_by_rec : vertex -> bytes -> bool -> C bool;
  check_conflicts_rec : vertex -> C unit
}.

(** ** Blocks *)

Definition first_block_body (block tx : vertex) (u : unit) : C (WalkAction * unit) :=
  if is_block tx then ret (Skip, tt) else
  let! meta := get_meta tx in
  if negb (bool_decide (first_block meta = Some (v_hash block))) then ret (Skip, tt) else
  (if is_nano_contract tx then
     (if bool_decide (nc_execution meta = Some NC_SUCCESS) then on_index (fun m => index_contract_unexecution m tx) else ret tt) ;;;
     update_meta tx (with_nc (Some NC_PENDING) None)
   else ret tt) ;;;
  update_meta tx (with_first_block None) ;;;
  save tx ;;;
  ret (Visit, tt).

Definition remove_first_block_markers (block : vertex) : C unit :=
  walk to_left block true (first_block_body block) tt.

(** [BlockConsensusAlgorithm.add_voided_by], of the hash of the block when none is given *)
Definition block_add_voided_by (A : algo) (block : vertex) (voided_hash : option bytes) : C bool :=
  let voided_hash := default (v_hash block) voided_hash in
  update_meta block (fun m => with_voided (Some (if truthy_set (voided_by m) then voided_set m else ∅)) m) ;;;
  let! meta := get_meta block in
  if bool_decide (voided_hash ∈ voided_set meta) then ret false else
  update_meta block (fun m => with_voided (Some ({[voided_hash]} ∪ voided_set m)) m) ;;;
  save block ;;;
  for_each (concat (map snd (spent_outputs meta))) (fun tx_hash =>
    let! tx := get_tx tx_hash in
    py_assert (negb (is_block tx)) ;;;
    add_voided_by_rec A tx voided_hash true ;;; ret tt) ;;;
  ret true.

(** [BlockConsensusAlgorithm.mark_as_voided] *)
Definition block_mark_as_voided (A : algo) (block : vertex) (skip_remove_first_block_markers : bool) : C unit :=
  (if skip_remove_first_block_markers then ret tt else remove_first_block_markers block) ;;;
  block_add_voided_by A block None ;;;
  ret tt.

(** ** Transactions *)

Definition mark_as_voided (A : algo) (tx : vertex) : C unit :=
  let! meta := get_meta tx in
  py_assert (truthy_list (conflict_with meta)) ;;;
  if truthy_set (voided_by meta) && bool_decide (v_hash tx ∈ voided_set meta) then ret tt else
  add_voided_by_rec A tx (v_hash tx) true ;;;
  assert_valid_consensus tx.

(** the loop body of [add_voided_by]: [root] is the transaction it starts from; the
    accumulator is [check_list] *)
Definition add_voided_body (A : algo) (root : vertex) (voided_hash : bytes) (tx2 : vertex) (check_list : list vertex)
    : C (WalkAction * list vertex) :=
  (if is_block tx2 then
     block_mark_as_voided A tx2 false ;;;
     update_best_block_tips_cache None
   else ret tt) ;;;
  let! meta2 := get_meta tx2 in
  py_assert (negb (truthy_set (voided_by meta2)) || bool_decide (voided_hash ∉ voided_set meta2)) ;;;
  let! check_list :=
    (if negb (bool_decide (v_hash tx2 = v_hash root)) && truthy_list (conflict_with meta2) && negb (truthy_set (voided_by meta2)) then
       let! l := get_txs (default [] (conflict_with meta2)) in ret (check_list ++ l)
     else ret check_list) in
  update_meta tx2 (fun m => with_voided (add_to_voided_by voided_hash (voided_by m)) m) ;;;
  (if truthy_list (conflict_with meta2) then
     py_assert (negb (is_block tx2)) ;;;
     mark_as_voided A tx2 ;;;
     update_accumulated_weight tx2 None false ;;;
     ret tt
   else ret tt) ;;;
  save tx2 ;;;
  del_from_indexes tx2 true ;;;
  assert_valid_consensus tx2 ;;;
  ret (Visit, check_list).

Definition add_voided_by (A : algo) (tx : vertex) (voided_hash : bytes) (is_dag_verifications : bool) : C bool :=
  let! meta := get_meta tx in
  if truthy_set (voided_by meta) && bool_decide (voided_hash ∈ voided_set meta) then ret false else
  let soft := truthy_set (voided_by meta) && is_soft_voided (voided_set meta) in
  let! only_fail := has_only_nc_execution_fail_id tx in
  let dag := is_dag_verifications && negb soft && negb only_fail in
  let! check_list := walk (mkWalk true dag true) tx false (add_voided_body A tx voided_hash) [] in
  for_each check_list (check_conflicts_rec A) ;;;
  ret true.

Definition remove_voided_body (voided_hash : bytes) (tx2 : vertex) (check_list : list vertex) : C (WalkAction * list vertex) :=
  let! meta2 := get_meta tx2 in
  if negb (truthy_set (voided_by meta2) && bool_decide (voided_hash ∈ voided_set meta2)) then ret (Skip, check_list) else
  update_meta tx2 (fun m => with_voided (Some (voided_set m ∖ {[voided_hash]})) m) ;;;
  let! meta2 := get_meta tx2 in
  let check_list := if bool_decide (voided_by meta2 = Some {[v_hash tx2]}) then check_list ++ [tx2] else check_list in
  (if negb (truthy_set (voided_by meta2)) then
     update_meta tx2 (with_voided None) ;;;
     add_to_indexes tx2
   else ret tt) ;;;
  save tx2 ;;;
  assert_valid_consensus tx2 ;;;
  ret (Visit, check_list).

Definition remove_voided_by (A : algo) (tx : vertex) (voided_hash : bytes) : C bool :=
  let! meta := get_meta tx in
  if negb (truthy_set (voided_by meta)) then ret false
  else if bool_decide (voided_hash ∉ voided_set meta) then ret false else
  let! check_list := walk to_right tx false (remove_voided_body voided_hash) [] in
  for_each check_list (fun tx2 => if is_block tx2 then ret tt else check_conflicts_rec A tx2) ;;;
  ret true.

Definition mark_as_winner (A : algo) (tx : vertex) : C unit :=
  let! meta := get_meta tx in
  py_assert (truthy_list (conflict_with meta)) ;;;
  py_assert (bool_decide (voided_by meta = Some {[v_hash tx]})) ;;;
  py_assert (bool_decide (v_hash tx ∉ soft_voided_tx_ids)) ;;;
  remove_voided_by A tx (v_hash tx) ;;;
  assert_valid_consensus tx.

(** the three loops of [check_conflicts] *)
Definition candidate_step (st : list vertex * list vertex) (h : bytes) : C (list vertex * list vertex) :=
  let '(candidates, conflict_list) := st in
  let! conflict_tx := get_tx h in
  let! m := get_meta conflict_tx in
  ret (if negb (truthy_set (voided_by m)) || bool_decide (voided_by m = Some {[v_hash conflict_tx]})
       then candidates ++ [conflict_tx] else candidates,
       conflict_list ++ [conflict_tx]).

(** no voided candidate has more weight *)
Fixpoint highest_voided (tx : vertex) (candidates : list vertex) : C bool :=
  match candidates with
  | [] => ret true
  | candidate :: rest =>
      let! meta := get_meta tx in
      let! tx_meta := get_meta candidate in
      if truthy_set (voided_by tx_meta) && (accumulated_weight meta <? accumulated_weight tx_meta) then ret false
      else highest_voided tx rest
  end.

(** the executed candidates with the same weight, or [None] when one has more *)
Fixpoint executed_ties (tx : vertex) (candidates : list vertex) (tie_list : list vertex) : C (option (list vertex)) :=
  match candidates with
  | [] => ret (Some tie_list)
  | candidate :: rest =>
      let! meta := get_meta tx in
      let! tx_meta := get_meta candidate in
      if truthy_set (voided_by tx_meta) then executed_ties tx rest tie_list else
      let! tx_meta := update_accumulated_weight candidate (Some (accumulated_weight meta)) true in
      let! meta := get_meta tx in
      let d := accumulated_weight tx_meta - accumulated_weight meta in
      if d =? 0 then executed_ties tx rest (tie_list ++ [candidate])
      else if 0 <? d then ret None else executed_ties tx rest tie_list
  end.

Definition check_conflicts (A : algo) (tx : vertex) : C unit :=
  let! meta := get_meta tx in
  if negb (bool_decide (voided_by meta = Some {[v_hash tx]})) then ret tt else
  let! (candidates, conflict_list) := mfold candidate_step (default [] (conflict_with meta)) ([], []) in
  let! is_highest := highest_voided tx candidates in
  if negb is_highest then ret tt else
  let! ties := executed_ties tx candidates [] in
  match ties with
  | None => ret tt
  | Some tie_list =>
      for_each (merge_sort newer conflict_list) (mark_as_voided A) ;;;
      match tie_list with
      | [] => mark_as_winner A tx
      | _ :: _ => ret tt
      end
  end.

Fixpoint algo_at (fuel : nat) : algo :=
  match fuel with
  | O => mkAlgo (fun _ _ _ => raise OutOfFuel) (fun _ => raise OutOfFuel)
  | S fuel => mkAlgo (add_voided_by (algo_at fuel)) (check_conflicts (algo_at fuel))
  end.

(** * [update_voided_info] *)

Definition parent_voided_step (s : gset bytes) (parent_hash : bytes) : C (gset bytes) :=
  let! parent := get_tx parent_hash in
  let! parent_meta := get_meta parent in
  if truthy_set (voided_by parent_meta) then
    let! f := filter_out_voided_by_entries_from_parents parent (voided_set parent_meta) in ret (s ∪ f)
  else ret s.

Definition input_voided_step (s : gset bytes) (txin : TxInput) : C (gset bytes) :=
  let! spent_tx := get_tx (in_tx_id txin) in
  let! spent_meta := get_meta spent_tx in
  ret (if truthy_set (voided_by spent_meta)
       then (s ∪ voided_set spent_meta) ∖ {[SOFT_VOIDED_ID]} ∖ {[NC_EXECUTION_FAIL_ID]} else s).

(** [tx2_meta.accumulated_weight += weight_to_work(tx.weight)] *)
Definition add_weight_to (tx : vertex) (h : bytes) : C unit :=
  let! tx2 := get_tx h in
  let! work := lift (weight_to_work (v_weight tx)) in
  update_meta tx2 (fun m => with_weight (accumulated_weight m + work) m) ;;;
  save tx2.

Definition check_voider (A : algo) (tx : vertex) (h : bytes) : C unit :=
  if bool_decide (h = SOFT_VOIDED_ID) || bool_decide (h = v_hash tx) then ret tt else
  let! tx2 := get_tx h in
  if is_block tx2 then ret tt else check_conflicts A tx2.

Definition void_conflict (A : algo) (h : bytes) : C unit :=
  let! conflict_tx := get_tx h in
  let! m := get_meta conflict_tx in
  if truthy_set (voided_by m) then
    match first_block m with
    | Some _ => assert_voided_with_first_block conflict_tx
    | None => mark_as_voided A conflict_tx
    end
  else ret tt.

Definition update_voided_info (A : algo) (tx : vertex) : C unit :=
  let! s := mfold parent_voided_step (v_parents tx) ∅ in
  py_assert (bool_decide (SOFT_VOIDED_ID ∉ s)) ;;;
  py_assert (bool_decide (NC_EXECUTION_FAIL_ID ∉ s)) ;;;
  py_assert (negb (is_soft_voided s)) ;;;
  let! s := mfold input_voided_step (v_inputs tx) s in
  py_assert (bool_decide (SOFT_VOIDED_ID ∉ s)) ;;;
  py_assert (bool_decide (NC_EXECUTION_FAIL_ID ∉ s)) ;;;
  py_assert (bool_decide (v_hash tx ∉ s)) ;;;
  for_each (iter_set s) (fun h => if bool_decide (h = SOFT_VOIDED_ID) then ret tt else add_weight_to tx h) ;;;
  let! meta := get_meta tx in
  let! work := lift (weight_to_work (v_weight tx)) in
  py_assert (negb (truthy_set (voided_by meta)) || bool_decide (voided_by meta = Some {[v_hash tx]})) ;;;
  py_assert (accumulated_weight meta =? work) ;;;
  let s := if bool_decide (v_hash tx ∈ soft_voided_tx_ids) then {[SOFT_VOIDED_ID; v_hash tx]} ∪ s else s in
  let s := if truthy_list (conflict_with meta) then {[v_hash tx]} ∪ s else s in
  (if bool_decide (s = ∅) then ret tt else
     update_meta tx (with_voided (Some s)) ;;;
     save tx ;;;
     del_from_indexes tx false) ;;;
  for_each (iter_set s) (check_voider A tx) ;;;
  let! meta := get_meta tx in
  for_each (default [] (conflict_with meta)) (void_conflict A) ;;;
  let! meta := get_meta tx in
  (if bool_decide (voided_by meta = Some {[v_hash tx]}) then check_conflicts A tx else ret tt) ;;;
  assert_valid_consensus tx.

(** [TransactionConsensusAlgorithm.update_consensus]; [execute_nano_contracts] does nothing *)
Definition update_consensus (A : algo) (tx : vertex) : C unit :=
  mark_inputs_as_used tx ;;;
  update_voided_info A tx ;;;
  set_conflict_twins tx.
End tx_consensus.
