(* ===== verification/BlockConsensus.v ===== *)
(** The consensus algorithm for blocks: [hathor/consensus/block_consensus.py], with the
    height index ([hathor/indexes/height_index.py], [rocksdb_height_index.py]).  The
    execution of nano contracts is not modelled.

    Loops and recursions over chains of blocks run on fuel, the number of stored vertices:
    each turn goes from a block to its parent. *)

From stdpp Require Import base list sorting gmap.
From Stdlib Require Import ZArith Lia Floats.SpecFloat.
From S2P Require Import Prelude PyInt PyFloat ScriptVM TxStruct TokenInfo StaticMetadata Metadata Daa Heapq Traversal ConsensusState TxConsensus.

Local Open Scope Z_scope.
Local Open Scope py_scope.

Section block_consensus.
Context {TS : TxSettings} {VS : VertexStorage} {SM : StaticStore} {FL : FloatLib} {SO : SetOrder} {CP : ConsensusParams}.
Context {X : Type} {IX : Indexes X}.

Abbreviation C := (M (CState X)).

(** the number of stored vertices *)
Definition chain_fuel {A} (f : nat -> C A) : C A := fun s => f (size (c_metas s)) s.

(** * The height index *)

(** the table has the keys [0 .. n]: entry [k] of the list is the value of key [k] *)
Definition height_get (s : CState X) (height : Z) : result (option bytes) :=
  if (0 <=? height) && (height <? 2 ^ 32) then Ok (fst <$> c_heights s !! Z.to_nat height) else Err StructError.

Definition get_height_tip : C (Z * bytes) := fun s =>
  match last (c_heights s) with
  | Some (h, _) => (Ok (Z.of_nat (length (c_heights s)) - 1, h), s)
  | None => (Err AssertionError, s)
  end.

Definition set_heights (l : list (bytes * Z)) : C unit := fun s =>
  (Ok tt, mkC (c_metas s) (c_children s) (c_affected s) (c_reorg s) (c_tips s) l (c_index s)).

(** [_add]; the key and the value are packed first *)
Definition height_add (height : Z) (block_hash : bytes) (timestamp : Z) (can_reorg : bool) : C unit :=
  let! (cur_height, _) := get_height_tip in
  let! current := (fun s => (height_get s height, s)) in
  py_assert (blen block_hash =? 32) ;;;
  if negb ((0 <=? timestamp) && (timestamp <? 2 ^ 32)) then raise StructError else
  fun s =>
  (if cur_height + 1 <? height then raise ValueError
   else if height =? cur_height + 1 then set_heights (c_heights s ++ [(block_hash, timestamp)])
   else if negb (bool_decide (current = Some block_hash)) then
     if can_reorg then set_heights (take (Z.to_nat height) (c_heights s) ++ [(block_hash, timestamp)]) else raise ValueError
   else ret tt) s.

Definition add_new (height : Z) (block_hash : bytes) (timestamp : Z) : C unit := height_add height block_hash timestamp false.
Definition add_reorg (height : Z) (block_hash : bytes) (timestamp : Z) : C unit := height_add height block_hash timestamp true.

(** [get_block_parent] and [get_block_parent_hash] *)
Definition block_parent (b : vertex) : C vertex := lift (get_block_parent b).

(** the [while] loop of [update_new_chain] *)
Fixpoint new_chain_loop (fuel : nat) (block_height : Z) (side : vertex) (items : list (Z * bytes * Z)) : C (list (Z * bytes * Z)) :=
  let! current := (fun s => (height_get s block_height, s)) in
  if bool_decide (current = Some (v_hash side)) then ret items else
  match fuel with
  | O => raise OutOfFuel
  | S fuel =>
      let! parent := block_parent side in
      let new_block_height := get_height parent in
      py_assert (new_block_height + 1 =? block_height) ;;;
      new_chain_loop fuel new_block_height parent (items ++ [(block_height, v_hash side, v_timestamp side)])
  end.

Definition update_new_chain (height : Z) (block : vertex) : C unit :=
  let! current := (fun s => (height_get s height, s)) in
  py_assert (negb (bool_decide (current = Some (v_hash block)))) ;;;
  let! items := chain_fuel (fun fuel => new_chain_loop fuel height block []) in
  for_each (rev items) (fun '(h, b, t) => add_reorg h b t).

(** * Voidance of blocks *)

Definition block_parent_step (s : gset bytes) (parent_hash : bytes) : C (gset bytes) :=
  let! parent := get_tx parent_hash in
  let! parent_meta := get_meta parent in
  if truthy_set (voided_by parent_meta) then
    let voided_by2 := if is_block parent then voided_set parent_meta ∖ {[v_hash parent]} else voided_set parent_meta in
    let! f := filter_out_voided_by_entries_from_parents parent voided_by2 in
    ret ((s ∪ f) ∖ {[NC_EXECUTION_FAIL_ID]})
  else ret s.

Definition union_voided_by_from_parents (block : vertex) : C (gset bytes) := mfold block_parent_step (v_parents block) ∅.

Definition update_voided_by_from_parents (block : vertex) : C bool :=
  let! s := union_voided_by_from_parents block in
  if bool_decide (s = ∅) then ret false else
  update_meta block (fun m => with_voided (Some (if truthy_set (voided_by m) then voided_set m ∪ s else s)) m) ;;;
  save block ;;;
  del_from_indexes block true ;;;
  ret true.

(** [BlockConsensusAlgorithm.remove_voided_by], of the block's own hash *)
Definition block_remove_voided_by (A : algo) (block : vertex) : C bool :=
  let voided_hash := v_hash block in
  let! meta := get_meta block in
  if negb (truthy_set (voided_by meta)) then ret false
  else if bool_decide (voided_hash ∉ voided_set meta) then ret false else
  update_meta block (fun m =>
    let s := voided_set m ∖ {[voided_hash]} in with_voided (if bool_decide (s = ∅) then None else Some s) m) ;;;
  save block ;;;
  for_each (concat (map snd (spent_outputs meta))) (fun tx_hash =>
    let! tx := get_tx tx_hash in
    py_assert (negb (is_block tx)) ;;;
    remove_voided_by A tx voided_hash ;;; ret tt) ;;;
  ret true.

Fixpoint remove_chain_loop (fuel : nat) (A : algo) (block : vertex) : C unit :=
  py_assert (is_block block) ;;;
  let! success := block_remove_voided_by A block in
  if negb success then ret tt else
  match fuel with
  | O => raise OutOfFuel
  | S fuel => let! parent := block_parent block in remove_chain_loop fuel A parent
  end.

Definition remove_voided_by_from_chain (A : algo) (block : vertex) : C unit :=
  chain_fuel (fun fuel => remove_chain_loop fuel A block).

(** the [while] loop of [add_voided_by_to_multiple_chains] *)
Fixpoint void_chain_loop (fuel : nat) (A : algo) (head first_block : vertex) : C unit :=
  if v_timestamp head <=? v_timestamp first_block then ret tt else
  match fuel with
  | O => raise OutOfFuel
  | S fuel =>
      let! meta := get_meta head in
      (if truthy_set (voided_by meta) && bool_decide (v_hash head ∈ voided_set meta) then ret tt
       else block_mark_as_voided A head false) ;;;
      let! parent := block_parent head in
      void_chain_loop fuel A parent first_block
  end.

Definition add_voided_by_to_multiple_chains (A : algo) (heads : list vertex) (first_block : vertex) : C unit :=
  for_each heads (fun head => chain_fuel (fun fuel => void_chain_loop fuel A head first_block)).

(** the loop of [_find_first_parent_in_best_chain] *)
Fixpoint first_parent_loop (fuel : nat) (parent_hash : bytes) : C vertex :=
  let! parent := get_tx parent_hash in
  py_assert (is_block parent) ;;;
  let! parent_meta := get_meta parent in
  if negb (truthy_set (voided_by parent_meta)) then ret parent else
  match fuel with
  | O => raise OutOfFuel
  | S fuel =>
      py_assert (negb (bool_decide (v_parents parent = []))) ;;;
      let! h := lift (get_block_parent_hash parent) in
      first_parent_loop fuel h
  end.

Definition _find_first_parent_in_best_chain (block : vertex) : C vertex :=
  py_assert (negb (bool_decide (v_parents block = []))) ;;;
  let! h := lift (get_block_parent_hash block) in
  chain_fuel (fun fuel => first_parent_loop fuel h).

(** * Scores *)

(** the score so far and the transactions already counted *)
Definition score_body (block : vertex) (mark_as_best_chain : bool) (newest_timestamp : Z) (tx : vertex)
    (acc : Z * gset bytes) : C (WalkAction * (Z * gset bytes)) :=
  let '(total, used) := acc in
  if is_block tx then ret (Skip, acc)
  else if bool_decide (v_hash tx ∈ used) then ret (Skip, acc) else
  let used := {[v_hash tx]} ∪ used in
  let! meta := get_meta tx in
  let! is_old :=
    (match first_block meta with
     | Some h => let! fb := get_tx h in ret (v_timestamp fb <=? newest_timestamp)
     | None => ret false
     end) in
  if is_old then ret (Skip, (total, used)) else
  (if mark_as_best_chain then
     py_assert (bool_decide (first_block meta = None)) ;;;
     update_meta tx (with_first_block (Some (v_hash block))) ;;;
     save tx
   else ret tt) ;;;
  let! work := lift (weight_to_work (v_weight tx)) in
  ret (Visit, (total + work, used)).

Fixpoint _score_block_dfs (fuel : nat) (mark_as_best_chain : bool) (newest_timestamp : Z) (block : vertex) (used : gset bytes)
    : C (Z * gset bytes) :=
  match fuel with
  | O => raise OutOfFuel
  | S fuel =>
      py_assert (is_block block) ;;;
      let! work := lift (weight_to_work (v_weight block)) in
      let! (total, used) :=
        mfold (fun acc h =>
          let '(total, used) := acc in
          let! parent := get_tx h in
          if is_block parent then
            if v_timestamp parent <=? newest_timestamp then
              let! meta := get_meta parent in ret (total + score meta, used)
            else
              let! (x, used) := _score_block_dfs fuel mark_as_best_chain newest_timestamp parent used in
              ret (total + x, used)
          else walk to_left parent false (score_body block mark_as_best_chain newest_timestamp) (total, used))
        (v_parents block) (work, used) in
      let! meta := get_meta block in
      (if score meta =? 0 then
         update_meta block (with_score total) ;;;
         save block
       else py_assert (score meta =? total)) ;;;
      ret (total, used)
  end.

Definition calculate_score (block : vertex) (mark_as_best_chain : bool) : C Z :=
  if is_genesis block then
    let! work := lift (weight_to_work (v_weight block)) in
    (if mark_as_best_chain then
       update_meta block (with_score work) ;;;
       save block
     else ret tt) ;;;
    ret work
  else
  let! parent := _find_first_parent_in_best_chain block in
  let! (total, _) := chain_fuel (fun fuel => _score_block_dfs fuel mark_as_best_chain (v_timestamp parent) block ∅) in
  ret total.

Definition update_score_and_mark_as_the_best_chain (block : vertex) : C unit :=
  calculate_score block true ;;; ret tt.

(** the heads with the best score; [best_heads] is unbound until a score is positive *)
Definition best_head_step (acc : Z * option (list vertex)) (head : vertex) : C (Z * option (list vertex)) :=
  let '(best_score, best_heads) := acc in
  let! m := get_meta head in
  if score m <? best_score then ret acc
  else if best_score <? score m then ret (score m, Some [head])
  else
  match best_heads with
  | Some l => ret (best_score, Some (l ++ [head]))
  | None => raise UnboundLocalError
  end.

Fixpoint best_chain_if_possible (fuel : nat) (A : algo) (block : vertex) : C unit :=
  update_score_and_mark_as_the_best_chain block ;;;
  remove_voided_by_from_chain A block ;;;
  let! is_voided := update_voided_by_from_parents block in
  if negb is_voided then ret tt else
  let! tips := get_best_tips in
  let! heads := get_txs tips in
  let! (best_score, best_heads) := mfold best_head_step heads (0, None) in
  py_assert (0 <? best_score) ;;;
  match default [] best_heads with
  | [] => raise AssertionError
  | head :: others =>
      let! first_block := _find_first_parent_in_best_chain head in
      add_voided_by_to_multiple_chains A [block] first_block ;;;
      match others with
      | [] =>
          py_assert (negb (bool_decide (v_hash head = v_hash block))) ;;;
          match fuel with
          | O => raise OutOfFuel
          | S fuel => best_chain_if_possible fuel A head
          end
      | _ :: _ => ret tt
      end
  end.

Definition update_score_and_mark_as_the_best_chain_if_possible (A : algo) (block : vertex) : C unit :=
  chain_fuel (fun fuel => best_chain_if_possible fuel A block).

Definition mark_as_reorg_if_needed (common_block new_best_block : vertex) : C unit :=
  let! (_, old_best_block_hash) := get_height_tip in
  let! old_best_block := get_tx old_best_block_hash in
  py_assert (is_block old_best_block) ;;;
  let reorg_size := get_height old_best_block - get_height common_block in
  if reorg_size =? 0 then py_assert (bool_decide (v_hash old_best_block = v_hash common_block))
  else mark_as_reorg (mkReorg (v_hash common_block) (v_hash old_best_block) (v_hash new_best_block)).

(** * [update_voided_info] *)

(** all heads have the same score *)
Definition head_score_step (best : option Z) (head : vertex) : C (option Z) :=
  let! m := get_meta head in
  match best with
  | None => ret (Some (score m))
  | Some b => py_assert (b =? score m) ;;; ret best
  end.

Definition valid_head_step (l : list vertex) (head : vertex) : C (list vertex) :=
  let! m := get_meta head in
  ret (if truthy_set (voided_by m) then l else l ++ [head]).

(** the branch of all cases but (i) *)
Definition resolve_chains (A : algo) (block : vertex) : C unit :=
  block_mark_as_voided A block true ;;;
  let! tips := get_best_tips in
  let! heads := get_txs tips in
  let! best_score := mfold head_score_step heads None in
  match best_score with
  | None => raise AssertionError
  | Some best_score =>
      let! total := calculate_score block false in
      if total <? best_score then
        update_voided_by_from_parents block ;;; ret tt
      else
      let! valid_heads := mfold valid_head_step heads [] in
      py_assert (Nat.leb (length valid_heads) 1) ;;;
      let! common_block := _find_first_parent_in_best_chain block in
      add_voided_by_to_multiple_chains A heads common_block ;;;
      if best_score <? total then
        update_score_and_mark_as_the_best_chain_if_possible A block ;;;
        let! meta := get_meta block in
        if truthy_set (voided_by meta) then ret tt else
        (if bool_decide (v_hash common_block ∈ map v_hash heads) then ret tt else mark_as_reorg_if_needed common_block block) ;;;
        update_new_chain (get_height block) block ;;;
        update_best_block_tips_cache (Some [v_hash block])
      else
        let! meta := get_meta block in
        (if truthy_set (voided_by meta) then ret tt else mark_as_reorg_if_needed common_block block) ;;;
        update_best_block_tips_cache (Some (map v_hash heads ++ [v_hash block]))
  end.

Definition block_update_voided_info (A : algo) (block : vertex) : C unit :=
  py_assert (SFltb (S754_zero false) (v_weight block)) ;;;
  match v_parents block with
  | [] =>
      py_assert (is_genesis block) ;;;
      update_score_and_mark_as_the_best_chain block
  | _ :: _ =>
      let! s := union_voided_by_from_parents block in
      py_assert (bool_decide (v_hash block ∉ s)) ;;;
      for_each (iter_set s) (add_weight_to block) ;;;
      for_each (iter_set s) (fun h => let! tx := get_tx h in if is_block tx then ret tt else check_conflicts A tx) ;;;
      let! parent := block_parent block in
      let! parent_meta := get_meta parent in
      let! children := get_children parent in
      py_assert (bool_decide (v_hash block ∈ children)) ;;;
      let is_connected_to_the_head := Nat.eqb (length children) 1 in
      let is_connected_to_the_best_chain := negb (truthy_set (voided_by parent_meta)) in
      if is_connected_to_the_head && is_connected_to_the_best_chain then
        update_score_and_mark_as_the_best_chain_if_possible A block ;;;
        let! meta := get_meta block in
        if truthy_set (voided_by meta) then ret tt else
        add_new (get_height block) (v_hash block) (v_timestamp block) ;;;
        update_best_block_tips_cache (Some [v_hash block])
      else resolve_chains A block
  end.

(** * A vertex arrives *)

(** [set_validation] of [base_transaction.py] *)
Definition with_validation (x : ValidationState) (m : TransactionMetadata) : TransactionMetadata :=
  mkMeta (spent_outputs m) (conflict_with m) (voided_by m) (twins m) (accumulated_weight m) (score m) (first_block m) x (nc_execution m) (nc_calls m).

Definition set_validation (v : vertex) (x : ValidationState) : C unit :=
  update_meta v (fun m =>
    let m := with_validation x m in
    if is_fully_connected x then with_voided (del_from_voided_by PARTIALLY_VALIDATED_ID (voided_by m)) m
    else with_voided (add_to_voided_by PARTIALLY_VALIDATED_ID (voided_by m)) m).

(** [create_context]: nothing is affected and there is no reorganisation yet *)
Definition create_context : C unit := fun s =>
  (Ok tt, mkC (c_metas s) (c_children s) ∅ None (c_tips s) (c_heights s) (c_index s)).

(** [ConsensusAlgorithm.unsafe_update] up to the update of the metadata *)
Definition unsafe_update (A : algo) (base : vertex) : C unit :=
  let! meta := get_meta base in
  py_assert (is_valid (validation meta)) ;;;
  py_assert (negb (is_in_voided_by PARTIALLY_VALIDATED_ID (voided_by meta))) ;;;
  py_assert (is_fully_connected (validation meta)) ;;;
  create_context ;;;
  let! (_, best_tip) := get_height_tip in
  get_tx best_tip ;;;
  if is_block base then block_update_voided_info A base else update_consensus A base.

(** [VertexHandler._unsafe_save_and_run_consensus] *)
Definition _unsafe_save_and_run_consensus (A : algo) (v : vertex) : C unit :=
  _update_parents_children_metadata v ;;;
  _update_initial_accumulated_weight v ;;;
  save_transaction v ;;;
  add_to_indexes v ;;;
  unsafe_update A v.

(** a vertex accepted by the verifications *)
Definition on_valid_vertex (A : algo) (v : vertex) : C unit :=
  set_validation v FULL ;;;
  _unsafe_save_and_run_consensus A v.
End block_consensus.
