(* ===== verification/ConsensusTheory.v ===== *)
(** The conflict graph and the executed transactions: what the operations of the consensus
    algorithm change and what they keep. *)

From stdpp Require Import base list sorting gmap.
From Stdlib Require Import ZArith Lia.
From S2P Require Import Prelude PyInt ScriptVM TxStruct TokenInfo StaticMetadata Metadata Daa Heapq Traversal TraversalTheory ConsensusState TxConsensus.

Local Open Scope Z_scope.
Local Open Scope py_scope.

Section views.
Context {VS : VertexStorage} {X : Type}.

(** the outputs spent and the conflicts of a vertex *)
Definition links (s : CState X) (h : bytes) : list (Z * list bytes) * option (list bytes) :=
  match c_metas s !! h with Some m => (spent_outputs m, conflict_with m) | None => ([], None) end.

(** the transactions that spend an output *)
Definition spenders (s : CState X) (h : bytes) (index : Z) : list bytes := default [] (od_get (links s h).1 index).

Definition conflicts (s : CState X) (h : bytes) : list bytes := default [] (links s h).2.

Definition voided (s : CState X) (h : bytes) : bool :=
  match c_metas s !! h with Some m => truthy_set (voided_by m) | None => false end.

Definition executed (s : CState X) (h : bytes) : Prop := voided s h = false.

(** [conflict_with] is a symmetric relation *)
Definition symmetric_conflicts (s : CState X) : Prop := forall a b, b ∈ conflicts s a -> a ∈ conflicts s b.

(** blocks are in no conflict *)
Definition blocks_free (s : CState X) : Prop := forall v, stored v -> is_block v = true -> conflicts s (v_hash v) = [].

(** two transactions that spend the same output are in conflict *)
Definition complete_conflicts (s : CState X) : Prop :=
  forall h i a b, a ∈ spenders s h i -> b ∈ spenders s h i -> a <> b -> b ∈ conflicts s a.

(** two transactions in conflict are never both executed *)
Definition resolved (s : CState X) : Prop := forall a b, b ∈ conflicts s a -> voided s a = true \/ voided s b = true.

(** the links between vertices are the same *)
Definition same_links (s s' : CState X) : Prop :=
  c_children s' = c_children s /\ forall h, links s' h = links s h.

#[export] Instance same_links_preorder : PreOrder same_links.
Proof. split; [done|]. intros s1 s2 s3 [E1 H1] [E2 H2]. split; [congruence|]. intros h. by rewrite H2, H1. Qed.

Lemma links_conflicts s s' h : same_links s s' -> conflicts s' h = conflicts s h.
Proof. intros [_ H]. unfold conflicts. by rewrite H. Qed.

Lemma links_spenders s s' h i : same_links s s' -> spenders s' h i = spenders s h i.
Proof. intros [_ H]. unfold spenders. by rewrite H. Qed.

Lemma links_symmetric s s' : same_links s s' -> symmetric_conflicts s -> symmetric_conflicts s'.
Proof. intros H Hs a b. rewrite !(links_conflicts s s') by done. apply Hs. Qed.

Lemma links_blocks_free s s' : same_links s s' -> blocks_free s -> blocks_free s'.
Proof. intros H Hs v. rewrite (links_conflicts s s') by done. apply Hs. Qed.

Lemma links_complete s s' : same_links s s' -> complete_conflicts s -> complete_conflicts s'.
Proof. intros H Hs h i a b. rewrite !(links_spenders s s'), (links_conflicts s s') by done. apply Hs. Qed.

(** a step that keeps the links and, where the conflicts were resolved, keeps them so *)
Definition safe_step (s s' : CState X) : Prop :=
  same_links s s' /\ (symmetric_conflicts s -> blocks_free s -> resolved s -> resolved s').

#[export] Instance safe_step_preorder : PreOrder safe_step.
Proof.
  split; [done|]. intros s1 s2 s3 [L1 H1] [L2 H2]. split; [by etrans|]. intros Hs Hb Hr.
  apply H2; [by eapply links_symmetric|by eapply links_blocks_free|auto].
Qed.

(** a step that only voids more *)
Definition voids_more (s s' : CState X) : Prop := forall h, voided s h = true -> voided s' h = true.

Lemma safe_voids s s' : same_links s s' -> voids_more s s' -> safe_step s s'.
Proof.
  intros L V. split; [done|]. intros _ _ H a b. rewrite (links_conflicts s s') by done. intros Hb.
  destruct (H a b Hb); [left|right]; by apply V.
Qed.

(** every normal outcome of a command is a safe step *)
Definition keeps {A} (m : M (CState X) A) : Prop := forall s a s', m s = (Ok a, s') -> safe_step s s'.

(** the command reads the state only *)
Definition reads_only {A} (m : M (CState X) A) : Prop := forall s, (m s).2 = s.

Lemma keeps_reads {A} (m : M (CState X) A) : reads_only m -> keeps m.
Proof. intros H s a s' E. specialize (H s). rewrite E in H. cbn in H. by subst. Qed.

Lemma read_only_bind {A B} (m : M (CState X) A) (f : A -> M (CState X) B) :
  reads_only m -> (forall a, reads_only (f a)) -> reads_only (bind m f).
Proof. intros Hm Hf s. unfold bind. specialize (Hm s). destruct (m s) as [[a|e] s']; cbn in *; subst; [apply Hf|done]. Qed.

Lemma reads_state {A} (m : M (CState X) A) s a s' : reads_only m -> m s = (a, s') -> s' = s.
Proof. intros H E. specialize (H s). by rewrite E in H. Qed.

Lemma reads_assert b : reads_only (py_assert b).
Proof. by destruct b. Qed.

Lemma keeps_bind {A B} (m : M (CState X) A) (f : A -> M (CState X) B) : keeps m -> (forall a, keeps (f a)) -> keeps (bind m f).
Proof. intros Hm Hf s b s' E. inv_ok E. etrans; [by eapply Hm|by eapply Hf]. Qed.

Lemma keeps_ret {A} (a : A) : keeps (ret a).
Proof. by apply keeps_reads. Qed.

Lemma keeps_raise {A} e : keeps (raise (A := A) e).
Proof. by apply keeps_reads. Qed.

Lemma keeps_lift {A} (r : result A) : keeps (lift r).
Proof. by apply keeps_reads. Qed.

Lemma keeps_assert b : keeps (py_assert b).
Proof. apply keeps_reads. by destruct b. Qed.

Lemma keeps_for_each {A} (l : list A) f : (forall x, keeps (f x)) -> keeps (for_each l f).
Proof. intros H. induction l; simpl; [apply keeps_ret|]. by apply keeps_bind. Qed.

Lemma keeps_mfold {A B} (f : B -> A -> M (CState X) B) l : (forall b x, keeps (f b x)) -> forall b, keeps (mfold f l b).
Proof. intros H. induction l; intros b; simpl; [apply keeps_ret|]. by apply keeps_bind. Qed.

(** same metadata and children *)
Lemma keeps_other {A} (m : M (CState X) A) :
  (forall s a s', m s = (Ok a, s') -> c_metas s' = c_metas s /\ c_children s' = c_children s) -> keeps m.
Proof.
  intros H s a s' E. destruct (H s a s' E) as [Em Ec]. apply safe_voids.
  - split; [done|]. intros h. unfold links. by rewrite Em.
  - intros h. unfold voided. by rewrite Em.
Qed.
End views.

Create HintDb keeps.
#[export] Hint Resolve keeps_ret keeps_raise keeps_lift keeps_assert : keeps.

(** splits a command into its steps *)
Ltac keeps_step :=
  match goal with
  | |- keeps (bind _ _) => apply keeps_bind; [|intros ?]
  | |- keeps (for_each _ _) => apply keeps_for_each; intros ?
  | |- keeps (mfold _ _ _) => apply keeps_mfold; intros ? ?
  | |- keeps (if ?b then _ else _) => destruct b eqn:?
  | |- keeps (match ?x with _ => _ end) => destruct x
  | |- keeps (let _ := _ in _) => cbv zeta
  end.

Ltac keeps_tac := repeat (try solve [auto with keeps]; keeps_step).

Section keeping.
Context {TS : TxSettings} {VS : VertexStorage} {FL : FloatLib} {SO : SetOrder} {CP : ConsensusParams}.
Context {X : Type} {IX : Indexes X}.

(** the storage returns the vertex it is asked for *)
Context (Hstore : forall h v, get_transaction h = Ok v -> v_hash v = h).

Abbreviation C := (M (CState X)).

Lemma keeps_get_meta tx : keeps (get_meta (X := X) tx).
Proof. by apply keeps_reads. Qed.

Lemma keeps_get_tx h : keeps (get_tx (X := X) h).
Proof. by apply keeps_reads. Qed.

#[local] Hint Resolve keeps_get_meta keeps_get_tx : keeps.

Lemma keeps_get_txs l : keeps (get_txs (X := X) l).
Proof. unfold get_txs. keeps_tac. Qed.

Lemma save_transaction_reads tx : reads_only (save_transaction (X := X) tx).
Proof.
  unfold save_transaction. apply read_only_bind; [done|]. intros m. apply read_only_bind; [apply reads_assert|]. intros _. by case_match.
Qed.

Lemma keeps_save_transaction tx : keeps (save_transaction (X := X) tx).
Proof. apply keeps_reads, save_transaction_reads. Qed.

Lemma save_state tx s a s' : save (X := X) tx s = (Ok a, s') -> c_metas s' = c_metas s /\ c_children s' = c_children s.
Proof. unfold save. intros E. by apply reads_state in E as ->; [|apply save_transaction_reads]. Qed.

Lemma keeps_save tx : keeps (save (X := X) tx).
Proof. apply keeps_other, save_state. Qed.

Lemma keeps_on_index f : keeps (on_index (X := X) f).
Proof. apply keeps_other. unfold on_index. intros s a s'. destruct (f _ _). by intros [= _ <-]. Qed.

Lemma keeps_del_from_indexes tx relax : keeps (del_from_indexes (X := X) tx relax).
Proof. apply keeps_on_index. Qed.

Lemma keeps_tips_cache t : keeps (update_best_block_tips_cache (X := X) t).
Proof. apply keeps_other. by intros s a s' [= _ <-]. Qed.

#[local] Hint Resolve keeps_get_txs keeps_save_transaction keeps_save keeps_on_index keeps_del_from_indexes keeps_tips_cache : keeps.

(** ** Updates of a metadata *)

(** the entry a vertex has in the state, or would have *)
Lemma update_meta_inv tx f s a s' : update_meta (X := X) tx f s = (Ok a, s') ->
  exists m, meta_of s tx = Ok m /\ c_metas s' = <[v_hash tx := f m]> (c_metas s) /\ c_children s' = c_children s.
Proof. unfold update_meta, get_meta, set_meta, bind. destruct (meta_of s tx) as [m|e]; [|done]. intros [= _ <-]. by exists m. Qed.

Lemma meta_of_new s tx m : meta_of (X := X) s tx = Ok m -> c_metas s !! v_hash tx = None ->
  spent_outputs m = [] /\ conflict_with m = None /\ voided_by m = None.
Proof.
  unfold meta_of. intros H E. rewrite E in H. unfold initial_metadata in H. inv_rok H. by injection H as <-.
Qed.

Lemma meta_of_Some s tx m m' : meta_of (X := X) s tx = Ok m -> c_metas s !! v_hash tx = Some m' -> m' = m.
Proof. unfold meta_of. intros H E. rewrite E in H. by injection H. Qed.

Lemma meta_of_links s tx m : meta_of (X := X) s tx = Ok m -> links s (v_hash tx) = (spent_outputs m, conflict_with m).
Proof.
  intros H. unfold links. destruct (c_metas s !! v_hash tx) as [m'|] eqn:E; [by rewrite (meta_of_Some _ _ _ _ H E)|].
  by destruct (meta_of_new _ _ _ H E) as (-> & -> & _).
Qed.

Lemma meta_of_conflicts s tx m : meta_of (X := X) s tx = Ok m -> conflicts s (v_hash tx) = default [] (conflict_with m).
Proof. intros H. unfold conflicts. by rewrite (meta_of_links _ _ _ H). Qed.

Lemma meta_of_voided s tx m : meta_of (X := X) s tx = Ok m -> voided s (v_hash tx) = truthy_set (voided_by m).
Proof.
  intros H. unfold voided. destruct (c_metas s !! v_hash tx) as [m'|] eqn:E; [by rewrite (meta_of_Some _ _ _ _ H E)|].
  by destruct (meta_of_new _ _ _ H E) as (_ & _ & ->).
Qed.

Lemma update_meta_links tx f s a s' h : update_meta (X := X) tx f s = (Ok a, s') ->
  exists m, meta_of s tx = Ok m /\
    links s' h = if bool_decide (h = v_hash tx) then (spent_outputs (f m), conflict_with (f m)) else links s h.
Proof.
  intros H. apply update_meta_inv in H as (m & Hm & Em & Ec). exists m. split; [done|]. unfold links. rewrite Em.
  case_bool_decide; [subst; by rewrite lookup_insert_eq|by rewrite lookup_insert_ne].
Qed.

Lemma update_same_links tx f s a s' : update_meta (X := X) tx f s = (Ok a, s') ->
  (forall m, spent_outputs (f m) = spent_outputs m /\ conflict_with (f m) = conflict_with m) -> same_links s s'.
Proof.
  intros H Hf. split; [by apply update_meta_inv in H as (? & ? & ? & ?)|]. intros h.
  destruct (update_meta_links _ _ _ _ _ h H) as (m & Hm & ->). case_bool_decide; [subst|done].
  rewrite (meta_of_links _ _ _ Hm). by destruct (Hf m) as [-> ->].
Qed.

Lemma update_voided tx f s a s' h : update_meta (X := X) tx f s = (Ok a, s') ->
  exists m, meta_of s tx = Ok m /\ voided s' h = if bool_decide (h = v_hash tx) then truthy_set (voided_by (f m)) else voided s h.
Proof.
  intros H. apply update_meta_inv in H as (m & Hm & Em & Ec). exists m. split; [done|]. unfold voided. rewrite Em.
  case_bool_decide; [subst; by rewrite lookup_insert_eq|by rewrite lookup_insert_ne].
Qed.

Lemma keeps_update tx f :
  (forall m, spent_outputs (f m) = spent_outputs m /\ conflict_with (f m) = conflict_with m) ->
  (forall m, truthy_set (voided_by m) = true -> truthy_set (voided_by (f m)) = true) ->
  keeps (update_meta (X := X) tx f).
Proof.
  intros Hl Hv s a s' H. apply safe_voids; [by eapply update_same_links|]. intros h Hh.
  destruct (update_voided _ _ _ _ _ h H) as (m & Hm & ->). case_bool_decide; [subst|done].
  apply Hv. by rewrite <- (meta_of_voided s tx m Hm).
Qed.

Lemma truthy_add x o : truthy_set (add_to_voided_by x o) = true.
Proof. unfold add_to_voided_by. case_match; cbn; by rewrite bool_decide_false by set_solver. Qed.

(** ** Walks *)

Lemma keeps_add_neighbors F c tx w : keeps (add_neighbors (S := CState X) F c tx w).
Proof. by apply keeps_reads. Qed.

#[local] Hint Resolve keeps_add_neighbors : keeps.

Lemma keeps_walk_loop {L} F c (body : vertex -> L -> C (WalkAction * L)) : (forall tx a, keeps (body tx a)) ->
  forall fuel w a, keeps (walk_loop fuel F c body w a).
Proof. intros H. induction fuel as [|fuel IH]; intros w a; cbn [walk_loop]; keeps_tac; auto. Qed.

Lemma keeps_push_roots F c roots skip_root w : keeps (push_roots (S := CState X) F c roots skip_root w).
Proof. revert w. induction roots as [|r roots IH]; intros w; cbn [push_roots]; keeps_tac; auto. Qed.

Lemma keeps_walk {L} c root skip_root (body : vertex -> L -> C (WalkAction * L)) a : (forall tx a, keeps (body tx a)) ->
  keeps (walk c root skip_root body a).
Proof.
  intros H s r s'. unfold walk, bfs_timestamp, run. apply (keeps_bind _ _ (keeps_push_roots _ _ _ _ _)).
  intros w. by apply keeps_walk_loop.
Qed.

Lemma keeps_update_accumulated_weight tx stop save_file : keeps (update_accumulated_weight (X := X) tx stop save_file).
Proof.
  unfold update_accumulated_weight. keeps_tac.
  - apply keeps_walk. intros v w. unfold weight_body. keeps_tac.
  - by apply keeps_update.
Qed.

#[local] Hint Resolve keeps_update_accumulated_weight : keeps.

(** ** The assertion *)

Lemma for_each_reads {A} (l : list A) (f : A -> C unit) : (forall x, reads_only (f x)) -> reads_only (for_each l f).
Proof. intros H. induction l; simpl; [done|]. by apply read_only_bind. Qed.

Lemma assert_valid_reads tx : reads_only (assert_valid_consensus (X := X) tx).
Proof.
  unfold assert_valid_consensus. apply read_only_bind; [done|]. intros m. apply for_each_reads. intros h.
  apply read_only_bind; [done|]. intros v. apply read_only_bind; [done|]. intros m'. apply reads_assert.
Qed.

Lemma keeps_assert_valid tx : keeps (assert_valid_consensus (X := X) tx).
Proof. apply keeps_reads, assert_valid_reads. Qed.

#[local] Hint Resolve keeps_assert_valid : keeps.

Lemma for_each_ok {A S} (l : list A) (f : A -> M S unit) s s' : (forall x, (f x s).2 = s) ->
  for_each l f s = (Ok tt, s') -> Forall (fun x => f x s = (Ok tt, s)) l.
Proof.
  intros Hr. induction l as [|x l IH]; simpl; intros H; [done|]. inv_ok H.
  assert (Hx := Hr x). rewrite Hm in Hx. cbn in Hx. subst. destruct a. constructor; [done|]. by apply IH.
Qed.

Lemma assert_valid_ok tx s s' : assert_valid_consensus (X := X) tx s = (Ok tt, s') ->
  forall b, b ∈ conflicts s (v_hash tx) -> voided s (v_hash tx) = true \/ voided s b = true.
Proof.
  unfold assert_valid_consensus. intros H b Hb. inv_ok H. unfold get_meta in Hm. injection Hm as Hm <-.
  rewrite (meta_of_conflicts _ _ _ Hm) in Hb. rewrite (meta_of_voided _ _ _ Hm).
  apply for_each_ok in H; [|intros h; apply read_only_bind; [done|]; intros v; apply read_only_bind; [done|]; intros m'; apply reads_assert].
  rewrite Forall_forall in H. specialize (H b Hb). unfold bind, get_tx, get_meta, lift in H.
  destruct (get_transaction b) as [v|] eqn:Ev; [|done]. apply Hstore in Ev. subst b.
  destruct (meta_of s v) as [m'|] eqn:Em; [|done]. rewrite (meta_of_voided _ _ _ Em).
  destruct (truthy_set (voided_by a)), (truthy_set (voided_by m')); auto; done.
Qed.

(** ** The operations *)

Lemma keeps_remove_voided_body h tx2 l : keeps (remove_voided_body (X := X) h tx2 l).
Proof.
  unfold remove_voided_body. intros s r s' H. inv_ok H. unfold get_meta in Hm. injection Hm as Hm <-.
  destruct (negb _); [by injection H as _ <-|]. apply bind_ok_inv in H as ([] & s1 & Hu & H).
  apply bind_ok_inv in H as (m2 & s2 & Hg & H). unfold get_meta in Hg. injection Hg as Hg <-.
  apply bind_ok_inv in H as ([] & s3 & Hi & H). apply bind_ok_inv in H as ([] & s4 & Hs & H).
  apply bind_ok_inv in H as ([] & s5 & Ha & H). injection H as _ <-.
  assert (s5 = s4) as -> by (eapply reads_state; [|exact Ha]; apply assert_valid_reads).
  assert (L1 : same_links s s1) by (eapply update_same_links; [exact Hu|done]).
  assert (V1 : forall b, b <> v_hash tx2 -> voided s1 b = voided s b).
  { intros b Hb. destruct (update_voided _ _ _ _ _ b Hu) as (m & _ & ->). by rewrite bool_decide_false. }
  assert (Hrest : same_links s1 s4 /\ forall b, b <> v_hash tx2 -> voided s4 b = voided s1 b).
  { apply save_state in Hs as [Em Ec]. assert (L4 : same_links s3 s4) by (split; [done|]; intros b; unfold links; by rewrite Em).
    assert (V4 : forall b, voided s4 b = voided s3 b) by (intros b; unfold voided; by rewrite Em).
    destruct (negb (truthy_set (voided_by m2))); cycle 1.
    { injection Hi as <-. split; [done|]. intros b _. apply V4. }
    apply bind_ok_inv in Hi as ([] & s6 & Hu2 & Hi). unfold add_to_indexes, on_index in Hi.
    destruct (index_add_tx _ _ _) as [r0 x]. injection Hi as _ <-.
    split.
    - etrans; [eapply update_same_links; [exact Hu2|done]|]. etrans; [|exact L4]. split; [done|]. by intros b.
    - intros b Hb. rewrite V4. destruct (update_voided _ _ _ _ _ b Hu2) as (m & _ & E). rewrite bool_decide_false in E by done. exact E. }
  destruct Hrest as [L2 V2]. split; [by etrans|]. intros Hsym _ Hres x b. rewrite (links_conflicts s s4) by by etrans. intros Hb.
  destruct (decide (x = v_hash tx2)) as [->|Hna].
  { apply (assert_valid_ok _ _ _ Ha). by rewrite (links_conflicts s s4) by by etrans. }
  destruct (decide (b = v_hash tx2)) as [->|Hnb].
  { apply or_comm. apply (assert_valid_ok _ _ _ Ha). rewrite (links_conflicts s s4) by by etrans. by apply Hsym. }
  rewrite !V2, !V1 by done. by apply Hres.
Qed.

#[local] Hint Resolve keeps_remove_voided_body : keeps.

(** what the two recursive calls do *)
Definition algo_keeps (A : algo) : Prop :=
  (forall tx h b, keeps (add_voided_by_rec A tx h b)) /\ (forall tx, keeps (check_conflicts_rec (X := X) A tx)).

Lemma keeps_remove_first_block_markers block : keeps (remove_first_block_markers (X := X) block).
Proof.
  apply keeps_walk. intros tx []. unfold first_block_body. keeps_tac; by apply keeps_update.
Qed.

#[local] Hint Resolve keeps_remove_first_block_markers : keeps.

Lemma keeps_block_add_voided_by A block h : algo_keeps A -> keeps (block_add_voided_by (X := X) A block h).
Proof.
  intros [HA _]. unfold block_add_voided_by. keeps_tac; auto.
  - apply keeps_update; [done|]. intros m Hm. cbn. rewrite Hm. unfold voided_set. by destruct (voided_by m).
  - apply keeps_update; [done|]. intros m _. cbn. by rewrite bool_decide_false by set_solver.
Qed.

Lemma keeps_block_mark_as_voided A block skip : algo_keeps A -> keeps (block_mark_as_voided (X := X) A block skip).
Proof. intros HA. unfold block_mark_as_voided. keeps_tac. by apply keeps_block_add_voided_by. Qed.

Lemma keeps_mark_as_voided A tx : algo_keeps A -> keeps (mark_as_voided (X := X) A tx).
Proof. intros [HA _]. unfold mark_as_voided. keeps_tac. Qed.

Lemma keeps_only_nc_fail tx hs : keeps (only_nc_fail (X := X) tx hs).
Proof. induction hs; cbn [only_nc_fail]; keeps_tac; auto. Qed.

#[local] Hint Resolve keeps_block_mark_as_voided keeps_mark_as_voided keeps_only_nc_fail : keeps.

Lemma keeps_has_only_nc_fail tx : keeps (has_only_nc_execution_fail_id (X := X) tx).
Proof. unfold has_only_nc_execution_fail_id. keeps_tac. Qed.

#[local] Hint Resolve keeps_has_only_nc_fail : keeps.

Lemma keeps_add_voided_by A tx h dag : algo_keeps A -> keeps (add_voided_by (X := X) A tx h dag).
Proof.
  intros HA. unfold add_voided_by. keeps_tac; [|by apply HA].
  apply keeps_walk. intros tx2 l. unfold add_voided_body. keeps_tac.
  apply keeps_update; [done|]. intros m _. apply truthy_add.
Qed.

Lemma keeps_remove_voided_by A tx h : algo_keeps A -> keeps (remove_voided_by (X := X) A tx h).
Proof. intros HA. unfold remove_voided_by. keeps_tac; [|by apply HA]. apply keeps_walk. auto with keeps. Qed.

#[local] Hint Resolve keeps_remove_voided_by : keeps.

Lemma keeps_highest_voided tx l : keeps (highest_voided (X := X) tx l).
Proof. induction l; cbn [highest_voided]; keeps_tac; auto. Qed.

Lemma keeps_executed_ties tx l : forall t, keeps (executed_ties (X := X) tx l t).
Proof. induction l; intros t; cbn [executed_ties]; keeps_tac; auto. Qed.

Lemma keeps_candidate_step st h : keeps (candidate_step (X := X) st h).
Proof. unfold candidate_step. keeps_tac. Qed.

#[local] Hint Resolve keeps_highest_voided keeps_executed_ties keeps_candidate_step : keeps.

Lemma keeps_check_conflicts A tx : algo_keeps A -> keeps (check_conflicts (X := X) A tx).
Proof. intros HA. unfold check_conflicts, mark_as_winner. keeps_tac. Qed.

Lemma algo_at_keeps fuel : algo_keeps (algo_at fuel).
Proof.
  induction fuel as [|fuel IH]; [by split; intros; apply keeps_raise|].
  split; intros; [by apply keeps_add_voided_by|by apply keeps_check_conflicts].
Qed.

(** * The conflicts of a new transaction *)

Lemma iter_set_elem (h : bytes) (u : gset bytes) : h ∈ iter_set u <-> h ∈ u.
Proof. unfold iter_set. by rewrite set_iter_perm, elem_of_remove_dups, elem_of_elements. Qed.

Lemma truthy_list_false l : truthy_list l = false -> default [] l = [].
Proof. by destruct l as [[|]|]. Qed.

Lemma append_conflict_elem t l b : b ∈ append_conflict t l <-> b ∈ default [] l \/ b = t.
Proof.
  unfold append_conflict. destruct (truthy_list l) eqn:E.
  - case_bool_decide as Ht; [|by rewrite elem_of_app, list_elem_of_singleton].
    split; [auto|]. intros [?| ->]; done.
  - rewrite (truthy_list_false l E), list_elem_of_singleton, elem_of_nil. tauto.
Qed.

Lemma extend_conflicts_elem S l b : b ∈ extend_conflicts S l <-> b ∈ default [] l \/ b ∈ S.
Proof.
  unfold extend_conflicts. destruct (truthy_list l) eqn:E.
  - rewrite elem_of_app, iter_set_elem, elem_of_difference, !elem_of_list_to_set.
    destruct (decide (b ∈ default [] l)); tauto.
  - rewrite (truthy_list_false l E), elem_of_nil. tauto.
Qed.

(** the changes of the marking, by what they add to the conflicts *)
Record adds_conflicts (s s' : CState X) (P : bytes -> bytes -> Prop) : Prop := {
  ac_conflicts a b : b ∈ conflicts s' a <-> b ∈ conflicts s a \/ P a b;
  ac_spenders h i : spenders s' h i = spenders s h i;
  ac_voided h : voided s h = true -> voided s' h = true
}.

Lemma adds_save tx s a s' : save (X := X) tx s = (Ok a, s') -> adds_conflicts s s' (fun _ _ => False).
Proof.
  intros H. apply save_state in H as [Em _]. split; unfold conflicts, spenders, links, voided; rewrite Em; [tauto|done|done].
Qed.

Lemma adds_trans s s1 s2 P Q : adds_conflicts s s1 P -> adds_conflicts s1 s2 Q -> adds_conflicts s s2 (fun a b => P a b \/ Q a b).
Proof.
  intros [A1 B1 C1] [A2 B2 C2]. split.
  - intros a b. rewrite A2, A1. tauto.
  - intros h i. by rewrite B2, B1.
  - auto.
Qed.

Lemma adds_weaken s s' (P Q : bytes -> bytes -> Prop) : adds_conflicts s s' P -> (forall a b, P a b <-> Q a b) -> adds_conflicts s s' Q.
Proof. intros [A B D] H. split; [|done|done]. intros a b. by rewrite A, H. Qed.

Lemma update_adds tx f g s a s' : update_meta (X := X) tx f s = (Ok a, s') ->
  (forall m, spent_outputs (f m) = spent_outputs m) ->
  (forall m b, b ∈ default [] (conflict_with (f m)) <-> b ∈ default [] (conflict_with m) \/ g b) ->
  (forall m, truthy_set (voided_by m) = true -> truthy_set (voided_by (f m)) = true) ->
  adds_conflicts s s' (fun x b => x = v_hash tx /\ g b).
Proof.
  intros H Hs Hc Hv. split.
  - intros x b. unfold conflicts. destruct (update_meta_links _ _ _ _ _ x H) as (m & Hm & ->).
    case_bool_decide as E; [subst|tauto]. cbn [snd]. rewrite Hc, (meta_of_links _ _ _ Hm). cbn [snd]. tauto.
  - intros h i. unfold spenders. destruct (update_meta_links _ _ _ _ _ h H) as (m & Hm & ->).
    case_bool_decide as E; [subst|done]. by rewrite (meta_of_links _ _ _ Hm), Hs.
  - intros h Hh. destruct (update_voided _ _ _ _ _ h H) as (m & Hm & ->). case_bool_decide; [subst|done].
    apply Hv. by rewrite <- (meta_of_voided s tx m Hm).
Qed.

Lemma mark_conflict_adds tx h s a s' : mark_conflict (X := X) tx h s = (Ok a, s') ->
  adds_conflicts s s' (fun x b => x = h /\ b = v_hash tx).
Proof.
  unfold mark_conflict. intros H. apply bind_ok_inv in H as (v & s0 & Hg & H). unfold get_tx, lift in Hg. injection Hg as Hg <-.
  apply Hstore in Hg. subst h. apply bind_ok_inv in H as ([] & s1 & Hu & H).
  eapply adds_weaken; [eapply adds_trans; [eapply (update_adds v _ (fun b => b = v_hash tx)); [exact Hu|done| |done]|by eapply adds_save]|].
  - intros m b. cbn. apply append_conflict_elem.
  - tauto.
Qed.

Lemma mark_conflicts_add tx l s a s' : for_each l (mark_conflict (X := X) tx) s = (Ok a, s') ->
  adds_conflicts s s' (fun x b => x ∈ l /\ b = v_hash tx).
Proof.
  revert s. induction l as [|h l IH]; intros s; simpl; intros H.
  - injection H as _ <-. split; [|done|done]. intros x b. rewrite elem_of_nil. tauto.
  - apply bind_ok_inv in H as (u & s1 & Hh & H). eapply adds_weaken; [eapply adds_trans; [by eapply mark_conflict_adds|by eapply IH]|].
    intros x b. rewrite elem_of_cons. tauto.
Qed.

(** the state is sound: conflicts are symmetric, complete and resolved, and only
    transactions spend and conflict *)
Record consensus_ok (s : CState X) : Prop := {
  ok_symmetric : symmetric_conflicts s;
  ok_complete : complete_conflicts s;
  ok_resolved : resolved s;
  ok_blocks : blocks_free s;
  ok_spenders v h i : stored v -> is_block v = true -> v_hash v ∉ spenders s h i
}.

(** what marking one input does *)
Lemma mark_input_effect tx i s a s' : mark_input_as_used (X := X) tx i s = (Ok a, s') ->
  let S := spenders s (in_tx_id i) (in_index i) in
  v_hash tx ∉ S /\
  (forall x b, b ∈ conflicts s' x <-> b ∈ conflicts s x \/ (x = v_hash tx /\ b ∈ S) \/ (x ∈ S /\ b = v_hash tx)) /\
  (forall h j, spenders s' h j = if bool_decide (h = in_tx_id i /\ j = in_index i) then S ++ [v_hash tx] else spenders s h j) /\
  (forall h, voided s h = true -> voided s' h = true) /\
  (S <> [] -> voided s' (v_hash tx) = true).
Proof.
  unfold mark_input_as_used. intros H. cbn zeta.
  apply bind_ok_inv in H as (v & s0 & Hg & H). unfold get_tx, lift in Hg. injection Hg as Hg <-. apply Hstore in Hg. rewrite <- Hg in *.
  apply bind_ok_inv in H as (m & s0 & Hm & H). unfold get_meta in Hm. injection Hm as Hm <-.
  assert (ES : spenders s (v_hash v) (in_index i) = default [] (od_get (spent_outputs m) (in_index i))).
  { unfold spenders. by rewrite (meta_of_links _ _ _ Hm). }
  rewrite <- ES in H. set (S := spenders s (v_hash v) (in_index i)) in *.
  apply bind_ok_inv in H as ([] & s1 & H1 & H). apply bind_ok_inv in H as ([] & s2 & Ha & H).
  assert (HtS : v_hash tx ∉ S) by (case_bool_decide; [done|discriminate Ha]).
  assert (s2 = s1) as -> by (eapply reads_state; [apply reads_assert|exact Ha]). clear Ha.
  apply bind_ok_inv in H as ([] & s3 & H3 & H). apply bind_ok_inv in H as ([] & s4 & H4 & H).
  apply bind_ok_inv in H as ([] & s5 & H5 & H). apply bind_ok_inv in H as ([] & s6 & H6 & H).
  assert (Spent : forall l f (t t' : CState X), f = (fun m => with_spent (od_set (spent_outputs m) (in_index i) l) m) ->
    update_meta v f t = (Ok tt, t') ->
    (forall x, conflicts t' x = conflicts t x) /\ (forall x, voided t' x = voided t x) /\
    forall h j, spenders t' h j = if bool_decide (h = v_hash v /\ j = in_index i) then l else spenders t h j).
  { intros l f t t' -> Hu. split; [|split].
    - intros x. unfold conflicts. destruct (update_meta_links _ _ _ _ _ x Hu) as (m' & Hm' & ->).
      destruct (bool_decide_reflect (x = v_hash v)); [subst|done]. cbn [snd with_spent conflict_with]. by rewrite (meta_of_links _ _ _ Hm').
    - intros x. destruct (update_voided _ _ _ _ _ x Hu) as (m' & Hm' & ->). destruct (bool_decide_reflect (x = v_hash v)); [subst|done]. cbn [with_spent voided_by]. symmetry. by apply meta_of_voided.
    - intros h j. unfold spenders. destruct (update_meta_links _ _ _ _ _ h Hu) as (m' & Hm' & ->).
      destruct (decide (h = v_hash v)) as [->|Hne]; [|by rewrite !bool_decide_false by tauto].
      rewrite bool_decide_true by done. cbn [fst with_spent spent_outputs]. rewrite (meta_of_links _ _ _ Hm'). cbn [fst].
      destruct (decide (j = in_index i)) as [->|Hj].
      + by rewrite bool_decide_true, od_get_set_eq by done.
      + by rewrite bool_decide_false, od_get_set_ne by (congruence || tauto). }
  destruct (Spent S _ s s1 eq_refl H1) as (C1 & V1 & S1). destruct (Spent _ _ s5 s6 eq_refl H6) as (C6 & V6 & S6). clear Spent.
  assert (A3 : adds_conflicts s1 s3 (fun x b => x = v_hash tx /\ b ∈ S) /\ (S <> [] -> voided s3 (v_hash tx) = true)).
  { destruct S as [|h0 S0] eqn:Es.
    - injection H3 as <-. split; [|done]. split; [|done|done]. intros x b. rewrite elem_of_nil. tauto.
    - split.
      + eapply (update_adds tx _ (fun b => b ∈ h0 :: S0)); [exact H3|done| |]; [intros m' b; apply extend_conflicts_elem|intros m' _; apply truthy_add].
      + intros _. destruct (update_voided _ _ _ _ _ (v_hash tx) H3) as (m' & _ & ->). rewrite bool_decide_true by done. apply truthy_add. }
  destruct A3 as [A3 V3]. apply adds_save in H4, H. apply mark_conflicts_add in H5.
  assert (A := adds_trans _ _ _ _ _ A3 (adds_trans _ _ _ _ _ H4 H5)).
  split; [done|]. split; [|split; [|split]].
  - intros x b. rewrite (ac_conflicts _ _ _ H), C6, (ac_conflicts _ _ _ A), C1. tauto.
  - intros h j. rewrite (ac_spenders _ _ _ H), S6. case_bool_decide; [done|]. rewrite (ac_spenders _ _ _ A), S1. by rewrite bool_decide_false.
  - intros h Hh. apply (ac_voided _ _ _ H). rewrite V6. apply (ac_voided _ _ _ A). by rewrite V1.
  - intros Hne. apply (ac_voided _ _ _ H). rewrite V6. apply (ac_voided _ _ _ H5), (ac_voided _ _ _ H4). auto.
Qed.

Lemma mark_input_ok tx i s a s' : stored tx -> is_block tx = false ->
  mark_input_as_used (X := X) tx i s = (Ok a, s') -> consensus_ok s -> consensus_ok s'.
Proof.
  intros Hst Hb H [Hsym Hcomp Hres Hbf Hsp]. destruct (mark_input_effect tx i s a s' H) as (HtS & HC & HS & HV & Hvt).
  set (S := spenders s (in_tx_id i) (in_index i)) in *.
  assert (Hnt : forall v, stored v -> is_block v = true -> v_hash v <> v_hash tx).
  { intros v Hv Hvb E. rewrite (stored_inj v tx) in Hvb by done. congruence. }
  split.
  - intros x b. rewrite !HC. intros [?|[[-> ?]|[? ->]]]; [left; by apply Hsym|tauto..].
  - intros h j x y. rewrite !HS. case_bool_decide as E; cycle 1.
    { intros Hx Hy Hxy. apply HC. left. by apply (Hcomp h j). }
    rewrite !elem_of_app, !list_elem_of_singleton. intros [Hx| ->] [Hy| ->] Hxy; [|apply HC; tauto..|done].
    apply HC. left. by apply (Hcomp (in_tx_id i) (in_index i)).
  - intros x y. rewrite HC. assert (Hne : forall z, z ∈ S -> S <> []) by (intros z Hz E; rewrite E in Hz; by apply not_elem_of_nil in Hz).
    intros [Hy|[[-> Hy]|[Hx ->]]]; [|left; eauto|right; eauto]. destruct (Hres x y Hy); auto.
  - intros v Hv Hvb. destruct (conflicts s' (v_hash v)) as [|y l] eqn:E; [done|exfalso].
    assert (Hy : y ∈ conflicts s' (v_hash v)) by (rewrite E; by left). apply HC in Hy as [Hy|[[Hy _]|[Hy _]]].
    + rewrite (Hbf v Hv Hvb) in Hy. by apply not_elem_of_nil in Hy.
    + by apply (Hnt v).
    + by apply (Hsp v) in Hy.
  - intros v h j Hv Hvb. rewrite HS. case_bool_decide; [|by apply Hsp].
    rewrite elem_of_app, list_elem_of_singleton. intros [Hx|Hx]; [by apply (Hsp v) in Hx|by apply (Hnt v)].
Qed.

Lemma mark_inputs_ok tx s a s' : stored tx -> is_block tx = false ->
  mark_inputs_as_used (X := X) tx s = (Ok a, s') -> consensus_ok s -> consensus_ok s'.
Proof.
  intros Hst Hb. unfold mark_inputs_as_used. revert s. induction (v_inputs tx) as [|i l IH]; intros s; simpl; intros H Hok.
  - by injection H as _ <-.
  - apply bind_ok_inv in H as (u & s1 & Hi & H). apply (IH s1 H). by eapply mark_input_ok.
Qed.

Lemma safe_consensus_ok s s' : safe_step s s' -> consensus_ok s -> consensus_ok s'.
Proof.
  intros [L H] [Hs Hc Hr Hb Hp]. split; [by eapply links_symmetric|by eapply links_complete|auto|by eapply links_blocks_free|].
  intros v h i. rewrite (links_spenders s s') by done. apply Hp.
Qed.

(** at most one executed transaction spends an output *)
Lemma one_executed_spender s h i a b : consensus_ok s ->
  a ∈ spenders s h i -> b ∈ spenders s h i -> executed s a -> executed s b -> a = b.
Proof.
  intros [_ Hc Hr _ _] Ha Hb Ea Eb. destruct (decide (a = b)) as [|Hne]; [done|exfalso].
  unfold executed in *. destruct (Hr a b) as [?|?]; [by apply (Hc h i)|congruence..].
Qed.
End keeping.

#[export] Hint Resolve keeps_get_meta keeps_get_tx keeps_get_txs keeps_save_transaction keeps_save keeps_on_index
  keeps_del_from_indexes keeps_tips_cache keeps_update_accumulated_weight keeps_assert_valid keeps_remove_first_block_markers
  keeps_block_add_voided_by keeps_block_mark_as_voided keeps_mark_as_voided keeps_remove_voided_by keeps_check_conflicts : keeps.
