(* ===== verification/ConsensusSafety.v ===== *)
(** No double spends: every update of the consensus algorithm, for transactions and for
    blocks, leaves at most one executed spender of each output. *)

From stdpp Require Import base list sorting gmap.
From Stdlib Require Import ZArith Lia Floats.SpecFloat.
From S2P Require Import Prelude PyInt PyValue PyFloat ScriptVM TxStruct TokenInfo StaticMetadata Metadata Daa Heapq Traversal TraversalTheory ConsensusState TxConsensus BlockConsensus ConsensusTheory.

Local Open Scope Z_scope.
Local Open Scope py_scope.

Section safety.
Context {TS : TxSettings} {VS : VertexStorage} {SM : StaticStore} {FL : FloatLib} {SO : SetOrder} {CP : ConsensusParams}.
Context {X : Type} {IX : Indexes X}.
Context (Hstore : forall h v, get_transaction h = Ok v -> v_hash v = h).

Abbreviation C := (M (CState X)).

(** a command whose result satisfies [Q] *)
Definition returns {A} (Q : A -> Prop) (m : C A) : Prop := forall s a s', m s = (Ok a, s') -> Q a.

Lemma keeps_bind_post {A B} (Q : A -> Prop) (m : C A) (f : A -> C B) :
  keeps m -> returns Q m -> (forall a, Q a -> keeps (f a)) -> keeps (bind m f).
Proof. intros Hm HQ Hf s b s' E. inv_ok E. etrans; [by eapply Hm|]. eapply Hf; [by eapply HQ|done]. Qed.

Lemma mfold_returns {A B} (Q : B -> Prop) (f : B -> A -> C B) l :
  (forall b x, x ∈ l -> Q b -> returns Q (f b x)) -> forall b, Q b -> returns Q (mfold f l b).
Proof.
  induction l as [|x l IH]; intros H b Hb; simpl; intros s a s' E; [by injection E as <- _|].
  inv_ok E. eapply (IH (fun b x Hx => H b x ltac:(by right))); [|exact E]. eapply (H b x); [by left|done|exact Hm].
Qed.

Lemma get_tx_stored h : returns stored (get_tx (X := X) h).
Proof. intros s v s' E. unfold get_tx, lift in E. injection E as E <-. unfold stored. by rewrite (Hstore h v E). Qed.

Lemma get_txs_stored hs : returns (Forall stored) (get_txs (X := X) hs).
Proof.
  unfold get_txs. apply mfold_returns; [|constructor]. intros l h _ Hl s l' s' E. inv_ok E. injection E as <- _.
  apply Forall_app. split; [done|]. repeat constructor. by eapply get_tx_stored.
Qed.

Lemma returns_block_parent b : returns (fun p => stored p /\ is_block p = true) (block_parent (X := X) b).
Proof.
  intros s p s' E. unfold block_parent, lift in E. injection E as E <-. unfold get_block_parent in E. inv_rok E.
  unfold get_block in E. inv_rok E. destruct (is_block a0) eqn:Eb; [|done]. injection E as <-. split; [|done].
  unfold stored. by rewrite (Hstore _ _ Hm0).
Qed.

(** * Transactions *)

Lemma keeps_filter tx s : keeps (filter_out_voided_by_entries_from_parents (X := X) tx s).
Proof.
  unfold filter_out_voided_by_entries_from_parents, _filter_out_nc_fail_entries, _filter_out_soft_voided_entries.
  keeps_tac; [unfold nc_fail_step|unfold soft_step]; keeps_tac.
Qed.

Lemma keeps_add_weight_to tx h : keeps (add_weight_to (X := X) tx h).
Proof. unfold add_weight_to. keeps_tac. by apply keeps_update. Qed.

Lemma keeps_some_nc_fail hs : keeps (some_nc_fail (X := X) hs).
Proof. induction hs; cbn [some_nc_fail]; keeps_tac; auto. Qed.

#[local] Hint Resolve keeps_filter keeps_add_weight_to keeps_some_nc_fail : keeps.

Lemma keeps_update_voided_info A tx : algo_keeps A -> keeps (update_voided_info (X := X) A tx).
Proof.
  intros HA. unfold update_voided_info. keeps_tac.
  - unfold parent_voided_step. keeps_tac.
  - unfold input_voided_step. keeps_tac.
  - match goal with H : bool_decide (_ = ∅) = false |- _ => apply bool_decide_eq_false in H end.
    apply keeps_update; [done|]. intros m _. cbn. by rewrite bool_decide_false.
  - unfold check_voider. keeps_tac.
  - unfold void_conflict, assert_voided_with_first_block. keeps_tac.
Qed.

Lemma keeps_set_conflict_twins tx : keeps (set_conflict_twins (X := X) tx).
Proof. unfold set_conflict_twins, check_twins, check_twin. keeps_tac; by apply keeps_update. Qed.

(** * Blocks *)

Lemma keeps_height_add h b t r : keeps (height_add (X := X) h b t r).
Proof.
  apply keeps_other. unfold height_add, get_height_tip. intros s a s' E. inv_ok E.
  assert (s0 = s) as -> by (destruct (last (c_heights s)) as [[]|]; by injection Hm). destruct a0 as [cur ?].
  inv_ok E. injection Hm0 as _ <-. inv_ok E. apply reads_state in Hm0 as ->; [|apply reads_assert].
  repeat case_match; try discriminate E; unfold set_heights, ret in E; by injection E as _ <-.
Qed.

Lemma keeps_height_tip : keeps (get_height_tip (X := X)).
Proof. apply keeps_reads. intros s. unfold get_height_tip. by destruct (last (c_heights s)) as [[]|]. Qed.

Lemma keeps_height_get h : keeps (fun s : CState X => (height_get s h, s)).
Proof. by apply keeps_reads. Qed.

Lemma keeps_block_parent b : keeps (block_parent (X := X) b).
Proof. by apply keeps_reads. Qed.

Lemma keeps_get_children b : keeps (get_children (X := X) b).
Proof. by apply keeps_reads. Qed.

Lemma keeps_chain_fuel {A} (f : nat -> C A) : (forall n, keeps (f n)) -> keeps (chain_fuel f).
Proof. intros H s a s'. unfold chain_fuel. apply H. Qed.

#[local] Hint Resolve keeps_height_add keeps_height_tip keeps_height_get keeps_block_parent keeps_get_children : keeps.

Lemma keeps_new_chain_loop fuel : forall h b l, keeps (new_chain_loop (X := X) fuel h b l).
Proof. induction fuel as [|fuel IH]; intros h b l; cbn [new_chain_loop]; keeps_tac; auto. Qed.

Lemma keeps_update_new_chain h b : keeps (update_new_chain (X := X) h b).
Proof.
  unfold update_new_chain. keeps_tac; [apply keeps_chain_fuel; intros; apply keeps_new_chain_loop|].
  unfold add_reorg. auto with keeps.
Qed.

Lemma keeps_union b : keeps (union_voided_by_from_parents (X := X) b).
Proof. unfold union_voided_by_from_parents, block_parent_step. keeps_tac. Qed.

#[local] Hint Resolve keeps_union keeps_update_new_chain : keeps.

Lemma keeps_update_voided_by_from_parents b : keeps (update_voided_by_from_parents (X := X) b).
Proof.
  unfold update_voided_by_from_parents. keeps_tac.
  match goal with H : bool_decide (_ = ∅) = false |- _ => apply bool_decide_eq_false in H end.
  apply keeps_update; [done|]. intros m Hm. cbn. rewrite Hm. by rewrite bool_decide_false by set_solver.
Qed.

(** a block that is no longer voided is in no conflict *)
Lemma keeps_update_block b f : stored b -> is_block b = true ->
  (forall m, spent_outputs (f m) = spent_outputs m /\ conflict_with (f m) = conflict_with m) ->
  keeps (update_meta (X := X) b f).
Proof.
  intros Hst Hb Hf s a s' H. assert (L := update_same_links _ _ _ _ _ H Hf). split; [done|]. intros Hsym Hbf Hres x y.
  rewrite (links_conflicts s s') by done. intros Hy.
  assert (Hv : forall z w, w ∈ conflicts s z -> voided s' z = voided s z).
  { intros z w Hw. destruct (update_voided _ _ _ _ _ z H) as (m & _ & ->). rewrite bool_decide_false; [done|].
    intros ->. rewrite (Hbf b Hst Hb) in Hw. by apply not_elem_of_nil in Hw. }
  rewrite (Hv x y), (Hv y x) by auto. by apply Hres.
Qed.

Lemma keeps_block_remove_voided_by A b : algo_keeps A -> stored b -> is_block b = true -> keeps (block_remove_voided_by (X := X) A b).
Proof. intros HA Hst Hb. unfold block_remove_voided_by. keeps_tac. by apply keeps_update_block. Qed.

Lemma assert_returns b : returns (fun _ => b = true) (py_assert (S := CState X) b).
Proof. intros s a s' E. by destruct b. Qed.

Lemma keeps_remove_chain_loop A fuel : algo_keeps A -> forall b, stored b -> keeps (remove_chain_loop (X := X) fuel A b).
Proof.
  intros HA. induction fuel as [|fuel IH]; intros b Hst; cbn [remove_chain_loop];
    (apply (keeps_bind_post _ _ _ (keeps_assert _) (assert_returns _)); intros _ Hb);
    (apply keeps_bind; [by apply keeps_block_remove_voided_by|]; intros ok); (destruct ok; cbn [negb]; [|auto with keeps]); [auto with keeps|].
  apply (keeps_bind_post _ _ _ (keeps_block_parent b) (returns_block_parent b)). intros p [? ?]. by apply IH.
Qed.

Lemma keeps_void_chain_loop A fuel : algo_keeps A -> forall h f, keeps (void_chain_loop (X := X) fuel A h f).
Proof. intros HA. induction fuel as [|fuel IH]; intros h f; cbn [void_chain_loop]; keeps_tac; auto. Qed.

Lemma keeps_multiple_chains A heads f : algo_keeps A -> keeps (add_voided_by_to_multiple_chains (X := X) A heads f).
Proof. intros HA. apply keeps_for_each. intros h. apply keeps_chain_fuel. intros n. by apply keeps_void_chain_loop. Qed.

Lemma keeps_first_parent_loop fuel : forall h, keeps (first_parent_loop (X := X) fuel h).
Proof. induction fuel as [|fuel IH]; intros h; cbn [first_parent_loop]; keeps_tac; auto. Qed.

Lemma keeps_find_first_parent b : keeps (_find_first_parent_in_best_chain (X := X) b).
Proof. unfold _find_first_parent_in_best_chain. keeps_tac. apply keeps_chain_fuel. intros; apply keeps_first_parent_loop. Qed.

#[local] Hint Resolve keeps_update_voided_by_from_parents keeps_multiple_chains keeps_find_first_parent : keeps.

Lemma keeps_score_body b mark t tx acc : keeps (score_body (X := X) b mark t tx acc).
Proof. unfold score_body. keeps_tac. by apply keeps_update. Qed.

Lemma keeps_score_dfs fuel mark t : forall b used, keeps (_score_block_dfs (X := X) fuel mark t b used).
Proof.
  induction fuel as [|fuel IH]; intros b used; cbn [_score_block_dfs]; keeps_tac; auto.
  - apply keeps_walk. intros; apply keeps_score_body.
  - by apply keeps_update.
Qed.

Lemma keeps_calculate_score b mark : keeps (calculate_score (X := X) b mark).
Proof.
  unfold calculate_score. keeps_tac; [by apply keeps_update|]. apply keeps_chain_fuel. intros; apply keeps_score_dfs.
Qed.

#[local] Hint Resolve keeps_calculate_score : keeps.

Lemma keeps_get_best_tips : keeps (get_best_tips (X := X)).
Proof.
  intros s a s'. unfold get_best_tips. destruct (c_tips s); [by intros [= _ <-]|]. revert s a s'.
  assert (Hk : forall l, keeps (let! (_, tips) := mfold tip_step l (0, []) in update_best_block_tips_cache (X := X) (Some tips) ;;; ret tips)).
  { intros l. keeps_tac. unfold tip_step. keeps_tac. }
  intros s a s'. apply Hk.
Qed.

#[local] Hint Resolve keeps_get_best_tips : keeps.

(** the best heads are among the heads *)
Lemma best_heads_stored l : Forall stored l -> returns (fun r => Forall stored (default [] r.2)) (mfold (best_head_step (X := X)) l (0, None)).
Proof.
  intros Hl. apply mfold_returns; [|constructor]. intros [b hs] h Hh Hs s r s' E. rewrite Forall_forall in Hl. specialize (Hl h Hh).
  unfold best_head_step in E. inv_ok E. repeat case_match; try discriminate E; injection E as <- _; cbn in *; [done|by repeat constructor|].
  apply Forall_app. split; [done|]. by repeat constructor.
Qed.

(** the end of [update_score_and_mark_as_the_best_chain_if_possible]: [k] is the recursive call *)
Lemma keeps_best_heads A b (k : vertex -> C unit) (best : Z * option (list vertex)) : algo_keeps A ->
  (forall h, stored h -> keeps (k h)) -> Forall stored (default [] best.2) ->
  keeps (let '(best_score, best_heads) := best in
    py_assert (0 <? best_score) ;;;
    match default [] best_heads with
    | [] => raise AssertionError
    | head :: others =>
        let! first_block := _find_first_parent_in_best_chain head in
        add_voided_by_to_multiple_chains A [b] first_block ;;;
        match others with
        | [] => py_assert (negb (bool_decide (v_hash head = v_hash b))) ;;; k head
        | _ :: _ => ret tt
        end
    end).
Proof.
  intros HA Hk Hs. destruct best as [bs hs]. cbn in Hs. destruct (default [] hs) as [|h [|]]; keeps_tac.
  apply Hk. by inversion Hs.
Qed.

Lemma keeps_best_chain A fuel : algo_keeps A -> forall b, stored b -> keeps (best_chain_if_possible (X := X) fuel A b).
Proof.
  intros HA. assert (Hrm : forall b, stored b -> keeps (remove_voided_by_from_chain (X := X) A b)).
  { intros b Hst. apply keeps_chain_fuel. intros n. by apply keeps_remove_chain_loop. }
  assert (Hstep : forall heads b, keeps (mfold (best_head_step (X := X)) heads b)).
  { intros heads. apply keeps_mfold. intros [? ?] ?. unfold best_head_step. keeps_tac. }
  induction fuel as [|fuel IH]; intros b Hst; cbn [best_chain_if_possible]; unfold update_score_and_mark_as_the_best_chain;
    (apply keeps_bind; [keeps_tac|]; intros _); (apply keeps_bind; [auto|]; intros _); (apply keeps_bind; [auto with keeps|]; intros v);
    (destruct v; cbn [negb]; [|auto with keeps]); (apply keeps_bind; [auto with keeps|]; intros tips);
    (apply (keeps_bind_post _ _ _ (keeps_get_txs tips) (get_txs_stored tips)); intros heads Hheads);
    (apply (keeps_bind_post _ _ _ (Hstep heads _) (best_heads_stored heads Hheads))); intros best Hbest.
  - apply (keeps_best_heads A b (fun _ => raise OutOfFuel) best HA); auto with keeps.
  - apply (keeps_best_heads A b (best_chain_if_possible fuel A) best HA); auto.
Qed.

Lemma keeps_best_chain_if_possible A b : algo_keeps A -> stored b ->
  keeps (update_score_and_mark_as_the_best_chain_if_possible (X := X) A b).
Proof. intros HA Hst. apply keeps_chain_fuel. intros n. by apply keeps_best_chain. Qed.

Lemma keeps_mark_as_reorg r : keeps (mark_as_reorg (X := X) r).
Proof. apply keeps_other. unfold mark_as_reorg. intros s a s'. case_match; [done|]. by intros [= _ <-]. Qed.

#[local] Hint Resolve keeps_best_chain_if_possible keeps_mark_as_reorg : keeps.

Lemma keeps_reorg_if_needed c b : keeps (mark_as_reorg_if_needed (X := X) c b).
Proof. unfold mark_as_reorg_if_needed. keeps_tac. Qed.

#[local] Hint Resolve keeps_reorg_if_needed : keeps.

Lemma keeps_resolve_chains A b : algo_keeps A -> stored b -> keeps (resolve_chains (X := X) A b).
Proof.
  intros HA Hst. unfold resolve_chains. keeps_tac; [unfold head_score_step|unfold valid_head_step]; keeps_tac.
Qed.

Lemma keeps_block_update_voided_info A b : algo_keeps A -> stored b -> keeps (block_update_voided_info (X := X) A b).
Proof.
  intros HA Hst. unfold block_update_voided_info, update_score_and_mark_as_the_best_chain, add_new. keeps_tac.
  by apply keeps_resolve_chains.
Qed.

(** * Histories *)

(** the vertices accepted one after the other, each new and consistently stored; an update
    that raises stops the node *)
Inductive history (s0 : CState X) : list vertex -> CState X -> Prop :=
| history_start : history s0 [] s0
| history_next l s v fuel s' : history s0 l s -> stored v -> c_metas s !! v_hash v = None ->
    on_valid_vertex (algo_at fuel) v s = (Ok tt, s') -> history s0 (l ++ [v]) s'.

(** no output is spent yet *)
Definition unspent_start (s : CState X) : Prop := forall h, links s h = ([], None).

Lemma unspent_start_ok s : unspent_start s -> consensus_ok s.
Proof.
  intros H. assert (Hc : forall h, conflicts s h = []) by (intros h; unfold conflicts; by rewrite H).
  assert (Hs : forall h i, spenders s h i = []) by (intros h i; unfold spenders; by rewrite H).
  split.
  - intros a b. by rewrite Hc, elem_of_nil.
  - intros h i a b. by rewrite Hs, elem_of_nil.
  - intros a b. by rewrite Hc, elem_of_nil.
  - intros v _ _. apply Hc.
  - intros v h i _ _. rewrite Hs. apply not_elem_of_nil.
Qed.

(** the state stays sound and no spender is forgotten *)
Definition sound_step (s s' : CState X) : Prop :=
  (consensus_ok s -> consensus_ok s') /\ forall h i a, a ∈ spenders s h i -> a ∈ spenders s' h i.

#[local] Instance sound_step_preorder : PreOrder sound_step.
Proof. split; [by split|]. intros s1 s2 s3 [A1 B1] [A2 B2]. split; auto. Qed.

Lemma safe_sound s s' : safe_step s s' -> sound_step s s'.
Proof. intros H. split; [by apply safe_consensus_ok|]. intros h i a. by rewrite (links_spenders s s' h i (proj1 H)). Qed.

Lemma metas_sound s s' : c_metas s' = c_metas s -> sound_step s s'.
Proof.
  intros E. assert (Hl : forall h, links s' h = links s h) by (intros h; unfold links; by rewrite E).
  assert (Hv : forall h, voided s' h = voided s h) by (intros h; unfold voided; by rewrite E).
  assert (Hc : forall h, conflicts s' h = conflicts s h) by (intros h; unfold conflicts; by rewrite Hl).
  assert (Hs : forall h i, spenders s' h i = spenders s h i) by (intros h i; unfold spenders; by rewrite Hl).
  split; [|intros h i a; by rewrite Hs]. intros [H1 H2 H3 H4 H5]. split.
  - intros a b. rewrite !Hc. apply H1.
  - intros h i a b. rewrite !Hs, Hc. apply H2.
  - intros a b. rewrite Hc, !Hv. apply H3.
  - intros v. rewrite Hc. apply H4.
  - intros v h i. rewrite Hs. apply H5.
Qed.

Lemma mark_inputs_spenders tx s a s' : mark_inputs_as_used (X := X) tx s = (Ok a, s') ->
  (forall h j x, x ∈ spenders s h j -> x ∈ spenders s' h j) /\
  forall i, i ∈ v_inputs tx -> v_hash tx ∈ spenders s' (in_tx_id i) (in_index i).
Proof.
  unfold mark_inputs_as_used. revert s. induction (v_inputs tx) as [|i l IH]; intros s; simpl; intros H.
  - injection H as _ <-. split; [done|]. intros i Hi. by apply not_elem_of_nil in Hi.
  - apply bind_ok_inv in H as (u & s1 & Hi & H). destruct (mark_input_effect Hstore tx i s u s1 Hi) as (_ & _ & HS & _).
    destruct (IH s1 H) as [Hkeep Hall]. split.
    + intros h j x Hx. apply Hkeep. rewrite HS. case_bool_decide as E; [|done]. destruct E as [-> ->]. apply elem_of_app. auto.
    + intros k Hk. apply elem_of_cons in Hk as [->|Hk]; [|auto]. apply Hkeep. rewrite HS, bool_decide_true by done.
      apply elem_of_app. right. by apply list_elem_of_singleton.
Qed.

Lemma add_children_metas v ps s a s' : for_each ps (fun p => add_child (X := X) p (v_hash v)) s = (Ok a, s') -> c_metas s' = c_metas s.
Proof.
  revert s. induction ps as [|p ps IH]; intros s; simpl; intros H; [by injection H as _ <-|].
  apply bind_ok_inv in H as (u & s1 & Hp & H). rewrite (IH s1 H). by injection Hp as _ <-.
Qed.

Lemma mfold_reads {A B} (f : B -> A -> C B) l : (forall b x, reads_only (f b x)) -> forall b, reads_only (mfold f l b).
Proof. intros H. induction l; intros b; simpl; [done|]. by apply read_only_bind. Qed.

Lemma existing_parents_reads v : reads_only (existing_parents (X := X) v).
Proof. apply mfold_reads. intros l h s. destruct (get_transaction h) as [p|e]; [done|]. by case_match. Qed.

(** one arrival *)
Lemma arrival_sound v fuel s s' : stored v -> c_metas s !! v_hash v = None -> on_valid_vertex (algo_at fuel) v s = (Ok tt, s') ->
  sound_step s s' /\ (is_block v = false -> forall i, i ∈ v_inputs v -> v_hash v ∈ spenders s' (in_tx_id i) (in_index i)).
Proof.
  intros Hst Hnew H. unfold on_valid_vertex in H. apply bind_ok_inv in H as ([] & s1 & H1 & H).
  assert (S1 : sound_step s s1).
  { apply safe_sound, safe_voids; [eapply update_same_links; [exact H1|done]|]. intros h Hh.
    destruct (update_voided _ _ _ _ _ h H1) as (m & Hm & ->). case_bool_decide; [subst|done].
    unfold voided in Hh. by rewrite Hnew in Hh. }
  unfold _unsafe_save_and_run_consensus in H. apply bind_ok_inv in H as ([] & s2 & H2 & H).
  assert (S2 : sound_step s1 s2).
  { apply metas_sound. unfold _update_parents_children_metadata in H2. apply bind_ok_inv in H2 as (ps & s3 & Hp & H2).
    apply reads_state in Hp as ->; [|apply existing_parents_reads]. by eapply add_children_metas. }
  apply bind_ok_inv in H as ([] & s3 & H3 & H). assert (S3 : safe_step s2 s3).
  { unfold _update_initial_accumulated_weight in H3. apply bind_ok_inv in H3 as (w & s4 & Hw & H3).
    unfold lift in Hw. injection Hw as _ <-. eapply (keeps_update v (with_weight w)); [done|done|exact H3]. }
  apply bind_ok_inv in H as ([] & s4 & H4 & H). apply keeps_save_transaction in H4.
  apply bind_ok_inv in H as ([] & s5 & H5 & H). unfold add_to_indexes in H5; apply keeps_on_index in H5.
  unfold unsafe_update in H. apply bind_ok_inv in H as (m & s6 & H6 & H). unfold get_meta in H6. injection H6 as _ <-.
  apply bind_ok_inv in H as (? & s6 & H6 & H). apply reads_state in H6 as ->; [|apply reads_assert].
  apply bind_ok_inv in H as (? & s6 & H6 & H). apply reads_state in H6 as ->; [|apply reads_assert].
  apply bind_ok_inv in H as (? & s6 & H6 & H). apply reads_state in H6 as ->; [|apply reads_assert].
  apply bind_ok_inv in H as ([] & s6 & H6 & H). assert (S6 : sound_step s5 s6) by (apply metas_sound; by injection H6 as <-).
  apply bind_ok_inv in H as ([? tip] & s7 & H7 & H). apply keeps_height_tip in H7.
  apply bind_ok_inv in H as (? & s8 & H8 & H). apply keeps_get_tx in H8.
  assert (S8 : sound_step s s8).
  { etrans; [exact S1|]. etrans; [exact S2|]. etrans; [exact (safe_sound _ _ S3)|]. etrans; [exact (safe_sound _ _ H4)|].
    etrans; [exact (safe_sound _ _ H5)|]. etrans; [exact S6|]. etrans; apply safe_sound; eassumption. }
  destruct (is_block v) eqn:Eb.
  - apply keeps_block_update_voided_info in H; [|by apply algo_at_keeps|done]. split; [|done]. etrans; [exact S8|by apply safe_sound].
  - unfold update_consensus in H. apply bind_ok_inv in H as ([] & s9 & H9 & H). apply bind_ok_inv in H as ([] & s10 & H10 & H).
    apply keeps_update_voided_info in H10; [|by apply algo_at_keeps]. apply keeps_set_conflict_twins in H.
    destruct (mark_inputs_spenders v _ _ _ H9) as [Hkeep Hall].
    assert (S9 : sound_step s8 s9) by (split; [by apply (mark_inputs_ok Hstore v _ _ _ Hst Eb H9)|done]).
    assert (S10 : sound_step s9 s') by (etrans; apply safe_sound; eassumption).
    split; [by etrans; [exact S8|etrans]|]. intros _ i Hi. by apply S10, Hall.
Qed.

Lemma history_sound s0 l s : unspent_start s0 -> history s0 l s ->
  consensus_ok s /\ forall v i, v ∈ l -> is_block v = false -> i ∈ v_inputs v -> v_hash v ∈ spenders s (in_tx_id i) (in_index i).
Proof.
  intros H0. induction 1 as [|l s v fuel s' _ [Hok Hsp] Hst Hnew Hrun].
  - split; [by apply unspent_start_ok|]. intros v i Hv. by apply not_elem_of_nil in Hv.
  - destruct (arrival_sound v fuel s s' Hst Hnew Hrun) as [[S1 S2] S3]. split; [auto|]. intros w i Hw Hb Hi.
    apply elem_of_app in Hw as [Hw|Hw]; [apply S2; auto|]. apply list_elem_of_singleton in Hw as ->. auto.
Qed.

(** C1: no double spend, by the consensus algorithms without the execution of contracts.
    Whatever vertices have been accepted, one after the other, from a state in which nothing
    is spent, two different transactions that spend the same output are never both executed:
    one of them is voided, by conflict resolution, whatever blocks, side chains and conflicts
    came in between.  The steps modelled are those of a network with nano contracts disabled
    and of transactions that stay valid: [execute_nano_contracts], which returns at once
    there, and the removal of transactions that a reorganisation made invalid are left out. *)
Theorem no_double_spend s0 l s v w i j : unspent_start s0 -> history s0 l s ->
  v ∈ l -> w ∈ l -> is_block v = false -> is_block w = false -> v_hash v <> v_hash w ->
  i ∈ v_inputs v -> j ∈ v_inputs w -> in_tx_id i = in_tx_id j -> in_index i = in_index j ->
  voided s (v_hash v) = true \/ voided s (v_hash w) = true.
Proof.
  intros H0 H Hv Hw Bv Bw Hne Hi Hj Et Ei. destruct (history_sound s0 l s H0 H) as [Hok Hsp].
  assert (Hiv := Hsp v i Hv Bv Hi). assert (Hjw := Hsp w j Hw Bw Hj). rewrite <- Et, <- Ei in Hjw.
  apply (ok_resolved s Hok). by apply (ok_complete s Hok (in_tx_id i) (in_index i)).
Qed.
End safety.

(** * A node with a double spend

    Genesis [0], [1] and [2], a block [3], two transactions [4] and [5] that spend the
    genesis output, the second with more weight, and a block [6] that confirms it; the block
    [7] is on a side chain. *)

Definition cons_hash (n : Z) : bytes := repeat Byte.x00 31 ++ [z2b n].

Definition cons_settings : TxSettings :=
  {| FEE_PER_OUTPUT := 1; TOKEN_DEPOSIT_PERCENTAGE := float_0_01; MAX_NUM_INPUTS := 255; MAX_NUM_OUTPUTS := 255;
     MAX_OUTPUT_SCRIPT_SIZE := 1024; MAX_INPUT_DATA_SIZE := 1024; MAX_TX_SIGOPS_INPUT := 1275;
     MAX_TX_SIGOPS_OUTPUT := 1275; MAX_DISTANCE_BETWEEN_BLOCKS := 4500; REWARD_SPEND_MIN_BLOCKS := 0;
     GENESIS_HASHES := map cons_hash [0; 1; 2]; GENESIS_BLOCK_HASH := cons_hash 0 |}.

(** powers of two with integer exponents *)
Definition cons_float_lib : FloatLib :=
  {| fpow := fun _ x => let? n := float_floor x in float_of_int (2 ^ n); flog := fun _ => float_of_int 1 |}.

Definition cons_vertex (n : Z) (ver : TxVersion) (weight : Z) (parents : list Z) (spends : list Z) : vertex :=
  mkVertex (cons_hash n) 0 ver (100 + n) (match float_of_int weight with Ok f => f | Err _ => S754_zero false end)
    (map cons_hash parents) (map (fun k => mkTxInput (cons_hash k) 0 []) spends) [] [] [] [] [] NATIVE.

Definition cons_vertices : list vertex :=
  [cons_vertex 0 REGULAR_BLOCK 3 [] []; cons_vertex 1 REGULAR_TRANSACTION 3 [] []; cons_vertex 2 REGULAR_TRANSACTION 3 [] [];
   cons_vertex 3 REGULAR_BLOCK 6 [0; 1; 2] []; cons_vertex 4 REGULAR_TRANSACTION 4 [1; 2] [0];
   cons_vertex 5 REGULAR_TRANSACTION 5 [1; 2] [0]; cons_vertex 6 REGULAR_BLOCK 6 [3; 5; 1] [];
   cons_vertex 7 REGULAR_BLOCK 6 [0; 1; 2] []].

Definition cons_storage : VertexStorage :=
  {| get_transaction := fun h => match List.find (fun v => bool_decide (v_hash v = h)) cons_vertices with
       | Some v => Ok v | None => Err TransactionDoesNotExist end |}.

Definition cons_static : StaticStore :=
  {| static_metadata := fun v => match v_timestamp v - 100 with
       | 0 => BlockStaticMetadata 0 0 [0] | 3 | 7 => BlockStaticMetadata 1 0 [0] | 6 => BlockStaticMetadata 2 0 [0]
       | _ => TransactionStaticMetadata 0 (cons_hash 0) end |}.

Definition cons_order : SetOrder := {| set_iter := remove_dups; set_iter_perm := fun l => Permutation_refl _ |}.
Definition cons_params : ConsensusParams := {| soft_voided_tx_ids := ∅ |}.
Definition cons_indexes : Indexes unit :=
  {| index_add_tx := fun _ _ => ret tt; index_del_tx := fun _ _ _ => ret tt; index_contract_unexecution := fun _ _ => ret tt;
     index_block_tips := fun _ => [] |}.

#[local] Existing Instances cons_settings cons_float_lib cons_storage cons_static cons_order cons_params cons_indexes.

Definition cons_start : CState unit :=
  mkC (list_to_map (map (fun n => (cons_hash n, new_metadata 8 8 FULL)) [0; 1; 2])) ∅ ∅ None None [(cons_hash 0, 100)] tt.

Definition cons_run (l : list Z) (s : CState unit) : CState unit :=
  fold_left (fun s n => match get_transaction (cons_hash n) with Ok v => (on_valid_vertex (algo_at 5) v s).2 | Err _ => s end) l s.

Lemma cons_get h v : get_transaction h = Ok v -> v_hash v = h.
Proof.
  cbn [get_transaction cons_storage]. destruct (List.find (A := vertex) _ _) as [w|] eqn:E; [|done]. intros H. injection H as <-.
  apply List.find_some in E as [_ E]. by apply bool_decide_eq_true in E.
Qed.

Lemma cons_start_unspent : unspent_start cons_start.
Proof.
  intros h. unfold links. destruct (c_metas cons_start !! h) as [m|] eqn:E; [|done].
  apply elem_of_list_to_map_2, list_elem_of_fmap in E as (n & E & _). by injection E as _ ->.
Qed.

Definition cons_nth (n : Z) : vertex := match get_transaction (cons_hash n) with Ok v => v | Err _ => cons_vertex 0 REGULAR_BLOCK 0 [] [] end.

Lemma cons_next l s n : history cons_start l s -> get_transaction (cons_hash n) = Ok (cons_nth n) ->
  c_metas s !! v_hash (cons_nth n) = None -> (on_valid_vertex (algo_at 5) (cons_nth n) s).1 = Ok tt ->
  history cons_start (l ++ [cons_nth n]) (on_valid_vertex (algo_at 5) (cons_nth n) s).2.
Proof.
  intros H Hg Hn Hr. apply (history_next _ _ s (cons_nth n) 5); [done| |done|].
  - unfold stored. by rewrite (cons_get _ _ Hg).
  - rewrite <- Hr. by destruct (on_valid_vertex _ _ _).
Qed.

Definition cons_final : CState unit := cons_run [3; 4; 5; 6] cons_start.

Lemma cons_history : history cons_start (map cons_nth [3; 4; 5; 6]) cons_final.
Proof.
  apply (cons_next (map cons_nth [3; 4; 5]) (cons_run [3; 4; 5] cons_start) 6); [|by vm_compute..].
  apply (cons_next (map cons_nth [3; 4]) (cons_run [3; 4] cons_start) 5); [|by vm_compute..].
  apply (cons_next (map cons_nth [3]) (cons_run [3] cons_start) 4); [|by vm_compute..].
  apply (cons_next [] cons_start 3); [constructor|by vm_compute..].
Qed.

(** the heavier transaction wins *)
Example cons_winner : voided cons_final (cons_hash 4) = true /\ executed cons_final (cons_hash 5).
Proof. split; vm_compute; reflexivity. Qed.

Lemma no_double_spend_witness :
  history cons_start (map cons_nth [3; 4; 5; 6]) cons_final /\
  (voided cons_final (cons_hash 4) = true \/ voided cons_final (cons_hash 5) = true).
Proof.
  split; [apply cons_history|].
  apply (no_double_spend cons_get cons_start _ cons_final (cons_nth 4) (cons_nth 5) (mkTxInput (cons_hash 0) 0 []) (mkTxInput (cons_hash 0) 0 [])
    cons_start_unspent cons_history); try (vm_compute; reflexivity).
  - right. left.
  - right. right. left.
  - vm_compute. discriminate.
  - left.
  - left.
Defined.
