(* ===== verification/ConsensusWeights.v ===== *)
(** Walks over the state of the node and accumulated weights: what a walk visits, what
    [update_accumulated_weight] computes, and why stopping early does not change the outcome
    of a comparison.  The height index after a reorganisation: [HeightIndex.update_new_chain]
    and [RocksDBHeightIndex._add]. *)

From stdpp Require Import base list sorting gmap relations.
From Stdlib Require Import ZArith Lia Floats.SpecFloat.
From S2P Require Import Prelude PyInt PyValue PyFloat ScriptVM TxStruct TokenInfo StaticMetadata Metadata Daa Heapq Traversal TraversalTheory ConsensusState TxConsensus BlockConsensus ConsensusTheory ConsensusSafety.
From stdpp Require Import base list sorting gmap.

Local Open Scope Z_scope.
Local Open Scope py_scope.

Section weights.
Context {TS : TxSettings} {VS : VertexStorage} {SM : StaticStore} {FL : FloatLib} {SO : SetOrder} {CP : ConsensusParams}.
Context {X : Type} {IX : Indexes X}.

Abbreviation C := (M (CState X)).

(** C22: a timestamp walk is exhaustive and terminates.  When the neighbours of stored
    vertices are stored and come later in the direction of the walk, a walk that skips
    nothing ends within as many turns as there are stored vertices, visits exactly the
    vertices reachable from its root, each of them once although visited hashes are
    forgotten, in the order of their timestamps (the reverse order to the left), and
    without raising [KeyError]. *)
Theorem walk_spec {L} (f : L -> vertex -> L) c s root skip_root a :
  graph_ok c (_get_iterator c s) (dom (c_metas (X := X) s)) -> stored root -> v_hash root ∈ dom (c_metas s) ->
  exists l, walk c root skip_root (fold_body f) a s = (Ok (fold_left f l a), s) /\
    NoDup (hashes l) /\ StronglySorted (fun u v => heap_key (negb (is_left_to_right c)) u <= heap_key (negb (is_left_to_right c)) v) l /\
    (forall v, v ∈ l <-> reached (_get_iterator c s) root skip_root v).
Proof. intros G Hst Hdom. apply (bfs_fold c (_get_iterator c s) f (dom (c_metas s))); [done..|by rewrite size_dom]. Qed.

(** the work of a vertex, 0 where the power overflows *)
Definition work_of (v : vertex) : Z := match weight_to_work (v_weight v) with Ok w => w | Err _ => 0 end.

Definition sum_work (l : list vertex) : Z := foldr (fun v a => work_of v + a) 0 l.

Lemma sum_work_app l k : sum_work (l ++ k) = sum_work l + sum_work k.
Proof. induction l as [|v l IH]; simpl; [done|]. rewrite IH. lia. Qed.

Lemma sum_work_submseteq l k : (forall v, v ∈ k -> 0 <= work_of v) -> l ⊆+ k -> sum_work l <= sum_work k.
Proof.
  intros Hpos H. induction H as [|v l k _ IH|v w l|v l k _ IH|l k m H1 IH1 H2 IH2]; simpl.
  - lia.
  - specialize (IH ltac:(intros; apply Hpos; by right)). lia.
  - lia.
  - specialize (IH ltac:(intros; apply Hpos; by right)). specialize (Hpos v ltac:(by left)). lia.
  - specialize (IH2 Hpos). assert (sum_work l <= sum_work k); [|lia]. apply IH1. intros v Hv. apply Hpos. by eapply elem_of_submseteq.
Qed.

Lemma sum_work_visit (tr : list visit) v act : sum_work ((v, act) :: tr).*1 = work_of v + sum_work tr.*1.
Proof. done. Qed.

(** a state whose vertices are stored, whose links go to later vertices, and whose weights
    are in range *)
Record weights_ok (s : CState X) : Prop := {
  wk_graph : graph_ok to_right (_get_iterator to_right s) (dom (c_metas s));
  wk_work v : stored v -> weight_to_work (v_weight v) = Ok (work_of v) /\ 0 <= work_of v
}.

(** what the vertices after [tx] are *)
Definition descendant (s : CState X) (tx v : vertex) : Prop := tc (edge (_get_iterator to_right s)) tx v.

Lemma exec_weight s tr stop : forall a a' s', (forall v, v ∈ tr.*1 -> stored v) -> weights_ok s ->
  exec (weight_body (X := X) stop) tr a s a' s' -> s' = s /\ a' = a + sum_work tr.*1 /\
  (forall v, (v, Skip) ∉ tr) /\
  (forall tr1 v, tr = tr1 ++ [(v, Break)] -> exists b, stop = Some b /\ b < a') /\
  (forall tr1 v act, tr = tr1 ++ [(v, act)] -> act <> Break -> forall b, stop = Some b -> a' <= b).
Proof.
  induction tr as [|[v act] tr IH]; intros a a' s' Hst W; cbn [exec].
  { intros [-> ->]. split; [done|]. split; [unfold sum_work; simpl; lia|]. split; [intros v H; by apply not_elem_of_nil in H|].
    split; intros tr1 v; [|intros act]; intros E; by destruct tr1. }
  intros (a1 & s1 & Hb & He). assert (Hv : stored v) by (apply Hst; left).
  destruct (wk_work s W v Hv) as [Ew _]. unfold weight_body, bind, lift in Hb. rewrite Ew in Hb.
  assert (s1 = s /\ a1 = a + work_of v /\ act <> Skip /\ (act = Break -> exists b, stop = Some b /\ b < a1) /\
    (act <> Break -> forall b, stop = Some b -> a1 <= b)) as (-> & -> & Hns & Hbr & Hnb).
  { destruct stop as [b|]; unfold ret in Hb; injection Hb as <- <- <-; (split; [done|]; split; [done|]).
    - destruct (Z.ltb_spec b (a + work_of v)); (split; [done|]); (split; [intros; by (eauto || done)|]); intros ? b' [= ->]; (done || lia).
    - split; [done|]. split; [done|]. intros _ b Hb. discriminate Hb. }
  apply IH in He as (-> & -> & Hsk & Hend & Hlast); [|intros w Hw; apply Hst; by right|done].
  rewrite sum_work_visit. split; [done|]. split; [lia|]. split.
  { intros w H. apply elem_of_cons in H as [[= -> <-]|H]; [done|by eapply Hsk]. }
  split.
  - intros tr1 w E. destruct tr1 as [|x tr1]; cbn in E.
    + injection E as -> -> ->. destruct (Hbr eq_refl) as (b & -> & Hlt). exists b. split; [done|]. unfold sum_work. simpl. lia.
    + injection E as <- ->. by eapply Hend.
  - intros tr1 w act' E Ha b Hb2. destruct tr1 as [|x tr1]; cbn in E.
    + injection E as -> -> ->. specialize (Hnb Ha b Hb2). unfold sum_work. simpl. lia.
    + injection E as <- ->. by eapply Hlast.
Qed.

Lemma descendant_stored s tx v : descendant s tx v -> stored v.
Proof. induction 1 as [u v [_ H]|]; done. Qed.

Lemma sum_work_perm l k : l ≡ₚ k -> sum_work l = sum_work k.
Proof. induction 1; simpl; lia. Qed.

(** the walk over the descendants *)
Lemma weight_walk s tx stop a : weights_ok s -> stored tx -> v_hash tx ∈ dom (c_metas s) ->
  exists l acc, NoDup l /\ (forall v, v ∈ l <-> descendant s tx v) /\
    walk to_right tx true (weight_body stop) a s = (Ok acc, s) /\ acc <= a + sum_work l /\
    match stop with
    | None => acc = a + sum_work l
    | Some b => acc = a + sum_work l \/ b < acc
    end.
Proof.
  intros W Hst Hdom. assert (G := wk_graph s W).
  assert (Hall : exists l, NoDup l /\ forall v, v ∈ l <-> descendant s tx v).
  { destruct (bfs_fold to_right (_get_iterator to_right s) (fun l v => l ++ [v]) (dom (c_metas s)) tx true [] s (size (c_metas s)) G Hst Hdom)
      as (l & _ & Hnd & _ & Hl); [done|by rewrite size_dom|]. exists l. split; [|done]. by eapply NoDup_fmap_1. }
  destruct Hall as (l & Hnd & Hl).
  destruct (bfs_run to_right (_get_iterator to_right s) (weight_body stop) (dom (c_metas s)) tx true a s (size (c_metas s)) G)
    as (tr & T & O); [|done..| |].
  { intros v b s1 r s' Hview E. unfold weight_body, bind, lift in E. repeat case_match; unfold ret in *; simplify_eq; done. }
  { by rewrite size_dom. }
  assert (Hreach := trace_reached _ _ _ true tr Hst T). unfold walk.
  destruct (bfs_timestamp _ _ _ _ _ _ _) as [[acc|e] s'] eqn:Eb; unfold walk_outcome in O.
  - destruct O as [Hex Hend]. destruct (exec_weight s tr stop a acc s') as (-> & -> & Hsk & Hbr & Hlast); [intros; by apply Hreach|done|done|].
    exists l, (a + sum_work tr.*1). split; [done|]. split; [done|]. split; [done|].
    assert (Hsub : tr.*1 ⊆+ l).
    { apply NoDup_submseteq; [|intros v Hv; apply Hl; by apply Hreach].
      assert (Hn := walk_trace_nodup _ _ _ _ T). by eapply NoDup_fmap_1. }
    split; [assert (sum_work tr.*1 <= sum_work l); [|lia]; apply sum_work_submseteq; [|done];
      intros v Hv; apply (wk_work s W); by eapply descendant_stored, Hl|].
    destruct Hend as [[Hc Hnb]|(tr1 & v & E)].
    + assert (Hv : forall v act, (v, act) ∈ tr -> act = Visit).
      { intros v [| |] H; [done|by apply Hsk in H|exfalso; apply Hnb; by apply (list_elem_of_fmap_2 snd) in H]. }
      assert (Hperm : tr.*1 ≡ₚ l).
      { apply NoDup_Permutation; [|done|].
        - assert (Hn := walk_trace_nodup _ _ _ _ T). by eapply NoDup_fmap_1.
        - intros v. rewrite Hl. split; [intros Hv'; by apply Hreach|]. by apply (complete_reached to_right _ tx true tr). }
      rewrite (sum_work_perm _ _ Hperm). destruct stop; auto.
    + destruct (Hbr tr1 v E) as (b & -> & Hlt). auto.
  - destruct O as (v & a1 & s1 & Hv & Hex & Ev). destruct (exec_weight s tr stop a a1 s1) as (-> & _); [intros; by apply Hreach|done|done|].
    destruct (wk_work s W v Hv) as [Ew _]. unfold weight_body, bind, lift in Ev. rewrite Ew in Ev. by destruct stop.
Qed.

(** the storage accepts the metadata *)
Definition savable (m : TransactionMetadata) : Prop :=
  is_fully_connected (validation m) = true /\ is_in_voided_by PARTIALLY_VALIDATED_ID (voided_by m) = false.

Lemma save_transaction_ok tx m s : meta_of (X := X) s tx = Ok m -> savable m -> save_transaction tx s = (Ok tt, s).
Proof.
  intros Hm [Hf Hp]. unfold save_transaction, bind, get_meta. rewrite Hm, Hp, Hf. cbn.
  by destruct (validation m).
Qed.

Lemma meta_of_set tx m s : meta_of (set_meta (X := X) tx m s).2 tx = Ok m.
Proof. unfold meta_of, set_meta. cbn. by rewrite lookup_insert_eq. Qed.

(** a stored weight does not exceed the weight of the transaction and its descendants *)
Definition weight_bound (s : CState X) (tx : vertex) (w : Z) : Prop :=
  forall l, NoDup l -> (forall v, v ∈ l <-> descendant s tx v) -> w <= work_of tx + sum_work l.

(** the bound outlives the arrival of more descendants *)
Lemma weight_bound_grows s s' tx w : weights_ok s -> weights_ok s' -> stored tx -> v_hash tx ∈ dom (c_metas s) ->
  (forall v, descendant s tx v -> descendant s' tx v) -> weight_bound s tx w -> weight_bound s' tx w.
Proof.
  intros W W' Hst Hdom Hsub H l' Hnd' Hl'. destruct (weight_walk s tx None 0 W Hst Hdom) as (l & _ & Hnd & Hl & _).
  specialize (H l Hnd Hl). assert (sum_work l <= sum_work l'); [|lia]. apply sum_work_submseteq.
  - intros v Hv. apply (wk_work s' W'). by eapply descendant_stored, Hl'.
  - apply NoDup_submseteq; [done|]. intros v Hv. by apply Hl', Hsub, Hl.
Qed.

(** C21: accumulated weights are exact.  On a state whose links go to stored, later vertices and
    whose weights are in the range that [weight_to_work] converts, for a transaction whose
    metadata may be saved and whose stored weight does not exceed the exact one,
    [update_accumulated_weight] ends, changes only the stored weight, and without a stop
    value stores the work of the transaction plus the work of all its descendants over both
    DAGs, each counted once.  With a stop value it may keep the stored weight or end the walk
    early, but the comparison with that value, the only use of the result, has the outcome it
    would have with the exact weight; and the weight it leaves again does not exceed the
    exact one (which only grows as descendants arrive). *)
Theorem accumulated_weight_spec s tx m stop save_file : weights_ok s -> stored tx ->
  c_metas s !! v_hash tx = Some m -> savable m -> weight_bound s tx (accumulated_weight m) ->
  exists l s' m', NoDup l /\ (forall v, v ∈ l <-> descendant s tx v) /\
    update_accumulated_weight tx stop save_file s = (Ok m', s') /\
    c_metas s' = <[v_hash tx := m']> (c_metas s) /\ m' = with_weight (accumulated_weight m') m /\
    (stop = None -> accumulated_weight m' = work_of tx + sum_work l) /\
    (forall b, stop = Some b -> Z.compare (accumulated_weight m') b = Z.compare (work_of tx + sum_work l) b) /\
    weight_bound s tx (accumulated_weight m').
Proof.
  intros W Hst Hm Hsave Hbound. assert (Hmo : meta_of s tx = Ok m) by (unfold meta_of; by rewrite Hm).
  assert (Hdom : v_hash tx ∈ dom (c_metas s)) by (apply elem_of_dom; by rewrite Hm).
  destruct (weight_walk s tx stop (work_of tx) W Hst Hdom) as (l & acc & Hnd & Hl & Hw & Hle & Hacc).
  exists l. unfold update_accumulated_weight. unfold bind at 1, get_meta at 1. rewrite Hmo.
  destruct (match stop with Some b => b <? accumulated_weight m | None => false end) eqn:Est.
  { destruct stop as [b|]; [|done]. apply Z.ltb_lt in Est. pose proof (Hbound l Hnd Hl) as Hcache.
    exists s, m. do 2 (split; [done|]). split; [done|]. split; [by rewrite insert_id|]. split; [by destruct m|]. split; [done|].
    split; [|done]. intros b' [= <-]. rewrite !(proj2 (Z.compare_gt_iff _ _)) by lia. done. }
  destruct (wk_work s W tx Hst) as [Ew _]. unfold bind at 1, lift. rewrite Ew. unfold bind at 1. rewrite Hw.
  unfold bind at 1, update_meta, get_meta, bind. rewrite Hmo.
  destruct (set_meta tx (with_weight acc m) s) as [r s1] eqn:Es. assert (Hm1 := meta_of_set tx (with_weight acc m) s).
  rewrite Es in Hm1. cbn in Hm1. unfold set_meta in Es. injection Es as <- <-.
  set (s1 := mkC _ _ _ _ _ _ _) in *. exists s1, (with_weight acc m). do 2 (split; [done|]).
  assert (E : (if save_file then save_transaction tx else ret tt) s1 = (Ok tt, s1)).
  { destruct save_file; [|done]. by apply (save_transaction_ok tx (with_weight acc m)). }
  rewrite E, Hm1. split; [done|]. split; [done|]. split; [done|]. cbn [accumulated_weight with_weight]. split; [|split].
  - intros ->. done.
  - intros b ->. destruct Hacc as [->|Hlt]; [done|]. rewrite !(proj2 (Z.compare_gt_iff _ _)) by lia. done.
  - intros l' Hnd' Hl'. rewrite (sum_work_perm l' l); [done|]. apply NoDup_Permutation; [done|done|]. intros v. by rewrite Hl, Hl'.
Qed.
End weights.

(** * The demonstration node *)

#[local] Existing Instances cons_settings cons_float_lib cons_storage cons_static cons_order cons_params cons_indexes.

Lemma cons_in v : stored v -> v ∈ cons_vertices.
Proof.
  unfold stored. cbn [get_transaction cons_storage]. destruct (List.find (A := vertex) _ _) as [w|] eqn:E; [|done].
  intros H. injection H as <-. apply List.find_some in E as [E _]. by apply list_elem_of_In.
Qed.

(** the links of a vertex are stored and later *)
Definition links_later (c : WalkConfig) (s : CState unit) (v : vertex) : bool :=
  forallb (fun h => bool_decide (h ∈ dom (c_metas s)) &&
    match get_transaction h with
    | Ok w => heap_key (negb (is_left_to_right c)) v <? heap_key (negb (is_left_to_right c)) w
    | Err _ => false
    end) (_get_iterator c s v).

Lemma cons_graph c s :
  forallb (fun h => match get_transaction h with Ok _ => true | Err _ => false end) (elements (dom (c_metas s))) = true ->
  forallb (links_later c s) cons_vertices = true -> graph_ok c (_get_iterator c s) (dom (c_metas s)).
Proof.
  intros H1 H2. rewrite forallb_forall in H1, H2.
  assert (Hlink : forall v h, stored v -> h ∈ _get_iterator c s v -> h ∈ dom (c_metas s) /\
    exists w, get_transaction h = Ok w /\ heap_key (negb (is_left_to_right c)) v < heap_key (negb (is_left_to_right c)) w).
  { intros v h Hv Hh. apply cons_in, list_elem_of_In, H2 in Hv. unfold links_later in Hv. rewrite forallb_forall in Hv.
    apply list_elem_of_In, Hv, andb_true_iff in Hh as [Hd Hw]. apply bool_decide_eq_true in Hd. split; [done|].
    destruct (get_transaction h) as [w|]; [|done]. exists w. split; [done|]. by apply Z.ltb_lt. }
  split.
  - intros h Hh. apply elem_of_elements, list_elem_of_In, H1 in Hh. destruct (get_transaction h) as [v|] eqn:E; [|done].
    exists v. split; [done|]. by apply cons_get.
  - intros v h Hv _ Hh. by apply (Hlink v h).
  - intros v w Hv _ Hw Hh. destruct (Hlink v _ Hv Hh) as (_ & w' & Hg & Hlt). unfold stored in Hw. rewrite Hw in Hg. by injection Hg as <-.
Qed.

Lemma cons_weights : weights_ok cons_final.
Proof.
  split; [apply cons_graph; vm_compute; reflexivity|]. intros v Hv. apply cons_in in Hv. revert v Hv. apply Forall_forall.
  repeat (constructor; [vm_compute; split; [reflexivity|discriminate]|]). constructor.
Qed.

Lemma walk_spec_witness : exists l : list vertex,
  NoDup (hashes l) /\ (forall v, v ∈ l <-> reached (_get_iterator to_left cons_final) (cons_nth 6) true v).
Proof.
  destruct (walk_spec (X := unit) (fun l v => l ++ [v]) to_left cons_final (cons_nth 6) true []) as (l & _ & Hnd & _ & Hl).
  - apply cons_graph; vm_compute; reflexivity.
  - vm_compute. reflexivity.
  - apply elem_of_dom. vm_compute. eauto.
  - exists l. split; [exact Hnd|exact Hl].
Defined.

(** a vertex of the demonstration and its metadata *)
Definition cons_meta_of (n : Z) : TransactionMetadata :=
  match meta_of cons_final (cons_nth n) with Ok m => m | Err _ => new_metadata 0 0 FULL end.

Lemma cons_bound n w : stored (cons_nth n) -> v_hash (cons_nth n) ∈ dom (c_metas cons_final) -> w <= work_of (cons_nth n) ->
  weight_bound cons_final (cons_nth n) w.
Proof.
  intros Hst Hdom Hw l Hnd Hl. assert (0 <= sum_work l); [|lia]. assert (sum_work [] <= sum_work l); [|done].
  apply sum_work_submseteq; [|apply submseteq_nil_l]. intros v Hv. apply (wk_work _ cons_weights). by eapply descendant_stored, Hl.
Qed.

Lemma accumulated_weight_spec_witness :
  (exists s' m' l, update_accumulated_weight (cons_nth 5) None true cons_final = (Ok m', s') /\ accumulated_weight m' = 32 + sum_work l) /\
  (exists s' m' l, update_accumulated_weight (cons_nth 5) (Some 40) true cons_final = (Ok m', s') /\
    Z.compare (accumulated_weight m') 40 = Z.compare (32 + sum_work l) 40).
Proof.
  assert (Hst : stored (cons_nth 5)) by (vm_compute; reflexivity).
  assert (Hb : weight_bound cons_final (cons_nth 5) (accumulated_weight (cons_meta_of 5))).
  { apply cons_bound; [exact Hst|apply elem_of_dom; vm_compute; eauto|vm_compute; discriminate]. }
  split.
  - destruct (accumulated_weight_spec cons_final (cons_nth 5) (cons_meta_of 5) None true)
      as (l & s' & m' & _ & _ & E & _ & _ & Hw & _); [apply cons_weights|exact Hst|vm_compute; reflexivity|split; vm_compute; reflexivity|exact Hb|].
    exists s', m', l. split; [exact E|]. exact (Hw eq_refl).
  - destruct (accumulated_weight_spec cons_final (cons_nth 5) (cons_meta_of 5) (Some 40) true)
      as (l & s' & m' & _ & _ & E & _ & _ & _ & Hc & _); [apply cons_weights|exact Hst|vm_compute; reflexivity|split; vm_compute; reflexivity|exact Hb|].
    exists s', m', l. split; [exact E|]. exact (Hc 40 eq_refl).
Defined.

Section heights.
Context {TS : TxSettings} {VS : VertexStorage} {SM : StaticStore} {FL : FloatLib} {SO : SetOrder} {CP : ConsensusParams}.
Context {X : Type} {IX : Indexes X}.
Context (Hstore : forall h v, get_transaction h = Ok v -> v_hash v = h).

(** each entry is the block parent of the next one *)
Definition chain_index (l : list (bytes * Z)) : Prop :=
  forall k x y, l !! k = Some x -> l !! Datatypes.S k = Some y ->
    exists v, get_transaction y.1 = Ok v /\ get_block_parent_hash v = Ok x.1.

(** the blocks of the side chain, from [side] at [height] down to a block of the index *)
Inductive side_chain (s : CState X) : Z -> vertex -> list (Z * bytes * Z) -> Prop :=
| side_end height side : height_get s height = Ok (Some (v_hash side)) -> side_chain s height side []
| side_next height side parent current l : height_get s height = Ok current -> current <> Some (v_hash side) ->
    get_block_parent side = Ok parent -> side_chain s (height - 1) parent l ->
    side_chain s height side ((height, v_hash side, v_timestamp side) :: l).

Lemma new_chain_loop_ok fuel s s' r : forall height side items,
  new_chain_loop fuel height side items s = (Ok r, s') -> s' = s /\ exists l, r = items ++ l /\ side_chain s height side l.
Proof.
  induction fuel as [|fuel IH]; intros height side items H; cbn [new_chain_loop] in H;
    apply bind_ok_inv in H as (current & s0 & Hg & H); injection Hg as Hg <-; case_bool_decide as Ec; [|done| |].
  1,2: injection H as <- <-; split; [done|]; exists []; rewrite app_nil_r; split; [done|]; subst; by constructor.
  apply bind_ok_inv in H as (parent & s0 & Hp & H). unfold block_parent, lift in Hp. injection Hp as Hp <-.
  apply bind_ok_inv in H as ([] & s0 & Ha & H). apply reads_state in Ha as Es; [|apply reads_assert]. subst s0.
  assert (Eh : get_height parent = height - 1). { destruct (Z.eqb_spec (get_height parent + 1) height); [lia|discriminate Ha]. }
  apply IH in H as (-> & l & -> & Hl). split; [done|]. exists ((height, v_hash side, v_timestamp side) :: l).
  rewrite <- app_assoc. split; [done|]. rewrite Eh in Hl. by econstructor.
Qed.

(** an entry added where the index or the side chain ends *)
Lemma add_reorg_ok height h t (s s' : CState X) : add_reorg height h t s = (Ok tt, s') ->
  (Z.to_nat height <= length (c_heights s))%nat -> 0 <= height ->
  (length (c_heights s) = Z.to_nat height \/ height_get s height <> Ok (Some h)) ->
  c_heights s' = take (Z.to_nat height) (c_heights s) ++ [(h, t)].
Proof.
  unfold add_reorg, height_add. intros H Hlen H0 Hd. apply bind_ok_inv in H as ([cur tip] & s0 & Ht & H).
  unfold get_height_tip in Ht. destruct (last (c_heights s)) as [[h0 t0]|] eqn:El; [|done]. injection Ht as <- <- <-.
  apply bind_ok_inv in H as (current & s0 & Hg & H). injection Hg as Hg <-.
  apply bind_ok_inv in H as ([] & s0 & Ha & H). apply reads_state in Ha as ->; [|apply reads_assert].
  destruct (negb _); [done|]. destruct (Z.ltb_spec (Z.of_nat (length (c_heights s)) - 1 + 1) height); [done|].
  destruct (Z.eqb_spec height (Z.of_nat (length (c_heights s)) - 1 + 1)) as [E|E].
  - unfold set_heights in H. injection H as <-. cbn. rewrite take_ge by lia. done.
  - case_bool_decide as Ec; cbn [negb] in H.
    + subst current. destruct Hd as [Hd|Hd]; [lia|]. done.
    + unfold set_heights in H. by injection H as <-.
Qed.

Lemma for_each_app {A S} (l k : list A) (f : A -> M S unit) s : for_each (l ++ k) f s = bind (for_each l f) (fun _ => for_each k f) s.
Proof.
  revert s. induction l as [|x l IH]; intros s; simpl; [done|]. unfold bind. destruct (f x s) as [[u|e] s1]; [|done].
  by rewrite IH.
Qed.

Lemma chain_index_take l n : chain_index l -> chain_index (take n l).
Proof. intros H k x y Hx Hy. apply lookup_take_Some in Hx as [Hx _], Hy as [Hy _]. by apply (H k). Qed.

Lemma chain_index_snoc l x v : chain_index l -> get_transaction x.1 = Ok v ->
  (forall y, last l = Some y -> get_block_parent_hash v = Ok y.1) -> chain_index (l ++ [x]).
Proof.
  intros H Hv Hl k a b Ha Hb. destruct (decide (Datatypes.S k < length l)%nat) as [Hk|Hk].
  - rewrite lookup_app_l in Ha, Hb by lia. by apply (H k).
  - rewrite lookup_app_r in Hb by lia. assert (Ek : (Datatypes.S k - length l = 0)%nat).
    { apply lookup_lt_Some in Hb. simpl in Hb. lia. }
    rewrite Ek in Hb. injection Hb as <-. exists v. split; [done|]. apply Hl.
    rewrite lookup_app_l in Ha by lia. rewrite last_lookup. by replace (Init.Nat.pred (length l)) with k by lia.
Qed.

(** adding the side chain, lowest block first *)
Lemma add_side_chain s height side l : side_chain s height side l -> stored side -> chain_index (c_heights s) -> 0 <= height ->
  forall s', for_each (rev l) (fun '(h, b, t) => add_reorg h b t) s = (Ok tt, s') ->
  (l <> [] -> length (c_heights s') = Datatypes.S (Z.to_nat height)) /\ (l = [] -> s' = s) /\
  (Z.to_nat height < length (c_heights s'))%nat /\
  chain_index (take (Datatypes.S (Z.to_nat height)) (c_heights s')) /\
  (exists t, c_heights s' !! Z.to_nat height = Some (v_hash side, t)) /\ c_heights s' !! 0%nat = c_heights s !! 0%nat.
Proof.
  intros H. induction H as [height side Hg|height side parent current l Hg Hc Hp Hl IH]; intros Hst Hch H0 s' Hr.
  - injection Hr as <-. unfold height_get in Hg. destruct ((0 <=? height) && _); [|done]. injection Hg as Hg.
    destruct (c_heights s !! Z.to_nat height) as [[h t]|] eqn:E; [|done]. cbn in Hg. injection Hg as ->.
    repeat split; try done; [by eapply lookup_lt_Some|by apply chain_index_take|eauto].
  - simpl in Hr. rewrite for_each_app in Hr. apply bind_ok_inv in Hr as ([] & s1 & H1 & Hr).
    simpl in Hr. apply bind_ok_inv in Hr as ([] & s2 & H2 & Hr). injection Hr as <-.
    assert (Hparent : stored parent /\ get_block_parent_hash side = Ok (v_hash parent)).
    { unfold get_block_parent in Hp. inv_rok Hp. unfold get_block in Hp. inv_rok Hp. destruct (is_block a0); [|done].
      injection Hp as <-. rewrite (Hstore _ _ Hm0). split; [|done]. unfold stored. by rewrite (Hstore _ _ Hm0). }
    destruct Hparent as [Hps Hph].
    assert (Hh : 0 <= height - 1).
    { destruct (decide (0 <= height - 1)); [done|]. inversion Hl as [? ? Hg'|? ? ? ? ? Hg']; subst;
        unfold height_get in Hg'; rewrite (proj2 (Z.leb_gt 0 (height - 1))) in Hg' by lia; done. }
    destruct (IH Hps Hch Hh s1 H1) as (Hlen & Hnil & Hlt & Hci & (t & Hlast) & Hz).
    replace (Datatypes.S (Z.to_nat (height - 1))) with (Z.to_nat height) in * by lia.
    assert (E := add_reorg_ok height (v_hash side) (v_timestamp side) s1 s2 H2 ltac:(lia) H0).
    assert (Es : c_heights s2 = take (Z.to_nat height) (c_heights s1) ++ [(v_hash side, v_timestamp side)]).
    { apply E. destruct l as [|x l]; [right; rewrite (Hnil eq_refl); congruence|left; by apply Hlen]. }
    assert (Elen : length (take (Z.to_nat height) (c_heights s1)) = Z.to_nat height) by (rewrite length_take; lia).
    assert (Elast : last (take (Z.to_nat height) (c_heights s1)) = Some (v_hash parent, t)).
    { rewrite last_lookup, Elen, lookup_take_lt by lia. by replace (Init.Nat.pred (Z.to_nat height)) with (Z.to_nat (height - 1)) by lia. }
    rewrite Es. split; [intros _; rewrite length_app, Elen; simpl; lia|]. split; [done|].
    split; [rewrite length_app, Elen; simpl; lia|]. split; [|split].
    + rewrite take_ge by (rewrite length_app, Elen; simpl; lia). apply (chain_index_snoc _ _ side); [done|done|].
      rewrite Elast. intros y [= <-]. done.
    + exists (v_timestamp side). by rewrite lookup_app_r, Elen, Nat.sub_diag by lia.
    + rewrite lookup_app_l by lia. rewrite lookup_take_lt by lia. done.
Qed.

(** C23: the height index is the best chain after a reorganisation.  When
    [update_new_chain] returns, the index still starts at the same block, each entry is the
    block parent of the next one, the new best block is its last entry, and there are as
    many entries as the height of that block plus one, whatever longer chain was indexed. *)
Theorem height_index_follows_chain block (s s' : CState X) : stored block -> chain_index (c_heights s) ->
  update_new_chain (get_height block) block s = (Ok tt, s') ->
  chain_index (c_heights s') /\ fst <$> last (c_heights s') = Some (v_hash block) /\
  Z.of_nat (length (c_heights s')) = get_height block + 1 /\ c_heights s' !! 0%nat = c_heights s !! 0%nat.
Proof.
  intros Hst Hch H. unfold update_new_chain in H. apply bind_ok_inv in H as (current & s0 & Hg & H). injection Hg as Hg <-.
  apply bind_ok_inv in H as ([] & s0 & Ha & H). apply reads_state in Ha as Es; [|apply reads_assert]. subst s0.
  apply bind_ok_inv in H as (items & s0 & Hl & H). unfold chain_fuel in Hl. apply new_chain_loop_ok in Hl as (-> & l & -> & Hl).
  assert (H0 : 0 <= get_height block). { unfold height_get in Hg. destruct (Z.leb_spec 0 (get_height block)); done. }
  assert (Hne : l <> []). { intros ->. inversion Hl as [? ? Hg'|]; subst. rewrite Hg in Hg'. injection Hg' as ->. by rewrite bool_decide_true in Ha. }
  destruct (add_side_chain s _ block l Hl Hst Hch H0 s' H) as (Hlen & _ & _ & Hci & (t & Hlast) & Hz).
  specialize (Hlen Hne). rewrite take_ge in Hci by lia. split; [done|]. split; [|split; [lia|done]].
  rewrite last_lookup, Hlen. cbn [Init.Nat.pred]. by rewrite Hlast.
Qed.
End heights.

#[local] Existing Instances cons_settings cons_float_lib cons_storage cons_static cons_order cons_params cons_indexes.

(** the index of the side chain of block [7], before the chain of block [6] wins *)
Definition side_state : CState unit :=
  mkC (c_metas cons_final) (c_children cons_final) ∅ None None [(cons_hash 0, 100); (cons_hash 7, 107)] tt.

Lemma height_index_follows_chain_witness : exists s',
  update_new_chain (get_height (cons_nth 6)) (cons_nth 6) side_state = (Ok tt, s') /\
  fst <$> last (c_heights s') = Some (cons_hash 6) /\ Z.of_nat (length (c_heights s')) = 3.
Proof.
  exists (update_new_chain (get_height (cons_nth 6)) (cons_nth 6) side_state).2.
  assert (E : update_new_chain (get_height (cons_nth 6)) (cons_nth 6) side_state =
    (Ok tt, (update_new_chain (get_height (cons_nth 6)) (cons_nth 6) side_state).2)) by (vm_compute; reflexivity).
  split; [exact E|].
  assert (Hch : chain_index (c_heights side_state)).
  { intros [|[|k]] x y Hx Hy; [|discriminate Hy..]. injection Hx as <-. injection Hy as <-.
    exists (cons_nth 7). split; vm_compute; reflexivity. }
  destruct (height_index_follows_chain cons_get (cons_nth 6) side_state _ ltac:(vm_compute; reflexivity) Hch E) as (_ & H1 & H2 & _).
  split; [exact H1|exact H2].
Defined.
