(* ===== verification/RunnerClaims.v ===== *)
(** The theorems on the execution of contracts, and a node with two contracts whose runs
    they are applied to; other runs show where the runner and what surrounds it disagree. *)

From stdpp Require Import base list gmap strings.
From Stdlib Require Import ZArith Lia Floats.SpecFloat.
From S2P Require Import Prelude PyInt PyValue NCTypes PatriciaTrie TrieHash NodeStore BlockStorage ContractStorage.
From S2P Require Import StorageInterface ContractStorageTheory ChangesTracker ScriptCode ScriptVM TxStruct TokenInfo.
From S2P Require Import StaticMetadata Metadata TxVerifier BlockVerifier NCContext RunnerState Runner RunnerSteps.
From S2P Require Import RunnerRefine RunnerBalance RunnerRecords RunnerFuel RunnerFrame.
From S2P Require BlockStorageTheory TxVerifierTheory VerificationTheory.

Local Open Scope Z_scope.
Local Open Scope py_scope.

Section claims.
Variable sha256 : bytes -> bytes.
Context {DB : Type} `{!NodeTrieStore DB}.
Context {CR : Crypto} {SS : ScriptSettings} {TS : TxSettings} {VSet : VerifierSettings} {UC : Unicode}.
Context {VS : VertexStorage} {SM : StaticStore} {NS : NodeState} {BP : Blueprints}.

Abbreviation St := (Runner DB).

(** the state of an outermost call before its method runs *)
Definition fresh_call (s : St) : Prop :=
  exists c, _call_info s = Some (_build_call_info s c) /\ _enable_call_trace s = true /\ _updated_tokens_totals s = [].

Lemma fresh_books s : fresh_call s -> has_books s.
Proof. intros (c & E & Et & Eu). eexists. split; [exact E|]. rewrite Eu. by apply books_init. Qed.

(** the last call leaves the stack; the books and the trackers are those of the whole run *)
Lemma execution_end c b name ctx args skip forbid (s : St) v s' : fresh_call s ->
  execute_public_method_call sha256 c b name ctx args skip forbid s = (Ok v, s') ->
  exists ci, _call_info s' = Some ci /\ books ci (_updated_tokens_totals s') /\ stack ci = [] /\ is_Some (calls ci) /\
    Forall (fun e : bytes * list layer => exists x, snd e = [x]) (change_trackers ci) /\
    forall u, excess u s' = dsum (map action_delta (all_actions ctx)) u.
Proof.
  intros Hf H. pose proof (fresh_books s Hf) as B. destruct Hf as (c0 & E0 & _ & Eu).
  apply (execute_public_shape sha256 _ (calls_at_ok sha256 _)) in H as (s0 & ci0 & cn & ca & s1 & s2 & Ho & Eci & Hpre & Hcode & Hl).
  set (r := new_record PUBLIC c b cn (Some ctx) ca ci0) in *.
  assert (has_books s0) as B0. { destruct B as (ci & E & B). exists ci. destruct Ho as (-> & -> & _). done. }
  assert (has_books s2) as B2 by (eapply (proj1 (code_books sha256)), books_pre_call; done).
  pose proof (excess_leave_public sha256 r s2 s') as Hx.
  pose proof (stack_leave_public sha256 r s2 tt s' Hl) as (r' & st & Es2 & Es').
  pose proof (stack_pre_call r s0 tt s1 Hpre) as (st0 & Es0 & Es1).
  rewrite (proj1 (code_stack sha256) _ _ _ Hcode), Es1 in Es2. injection Es2 as <- <-.
  destruct (leave_public_left sha256 r s2 s' Hl) as (l & ls & ls' & Hleft & Hn%leave_length).
  pose proof (books_left r s2 s' l ls ls' Hleft Hn B2) as (ci & E & B').
  assert (kept s0 s') as Hk by (eapply kept_call; [exact Hpre|by eapply (proj1 (code_kept sha256))|exact Hleft|done]).
  exists ci. split; [done|]. split; [done|].
  assert (_call_info s0 = Some (_build_call_info s c0)) as E0' by (destruct Ho as (-> & _); done).
  split; [|split; [|split]].
  - unfold stack_of in Es0, Es'. rewrite E in Es'. rewrite E0' in Es0. simpl in *. by simplify_eq.
  - destruct Hleft as (ci2 & r2 & rest & E2 & Es & _ & _ & _ & Hs).
    destruct B2 as (ci2' & E2' & B2). rewrite E2 in E2'. injection E2' as <-.
    pose proof (b_stack _ _ B2) as Hst. rewrite Es in Hst. apply Forall_inv in Hst.
    assert (calls ci = calls ci2) as ->.
    { destruct Hs as [[_ Hs]|[_ Hs]]; rewrite Hs in E; simpl in E; by simplify_eq. }
    unfold all_calls in Hst. destruct (calls ci2); [done|]. by apply not_elem_of_nil in Hst.
  - apply Forall_forall. intros [k x] Hin. pose proof (b_full _ _ B') as Hfull.
    pose proof (proj1 (Forall_forall _ _) Hfull _ Hin) as Hne. simpl in Hne |- *.
    apply od_get_elem in Hin; [|apply B']. specialize (Hk k). unfold count, trackers_of in Hk.
    rewrite E0', E, Hin in Hk. simpl in Hk. destruct x as [|x [|y t]]; simpl in Hk; [done|eauto|lia].
  - intros u. rewrite Hx by done. rewrite (proj1 (code_excess sha256 u) _ _ _ Hcode).
    apply (held_pre _ _ _ u) in Hpre as [E1 E2]. unfold excess, recorded, held. rewrite E2. unfold held in E1. rewrite E1, E0'.
    destruct Ho as (_ & -> & _). rewrite Eu. simpl. lia.
Qed.

(** C2: After a public method of an outermost call returned, however many contracts it
    called, the changes of all contracts' balances add up, token by token, to the deposits
    less the withdrawals of the call's context plus the amounts of the recorded mints,
    melts and fees.  So the assertions of [_validate_balances] hold and the check reduces
    to the balances of every contract being positive. *)
Theorem execution_balanced c b name ctx args skip forbid (s : St) v s' : fresh_call s ->
  execute_public_method_call sha256 c b name ctx args skip forbid s = (Ok v, s') ->
  exists ci, _call_info s' = Some ci /\
    (forall u, sum_all u (change_trackers ci)
      = dsum (map action_delta (all_actions ctx)) u + default 0 (tally u (all_updates ci))) /\
    _validate_balances sha256 ctx s' = for_each (change_trackers ci) (check_positive sha256) s'.
Proof.
  intros Hf H. destruct (execution_end _ _ _ _ _ _ _ _ _ _ Hf H) as (ci & E & B & _ & Hc & Hone & Hx).
  exists ci. split; [done|]. split; [|by apply validate_reduces].
  intros u. rewrite <- Hx, <- (b_tally _ _ B). unfold excess, held, recorded. rewrite E. lia.
Qed.


(** C10: The number of levels of calls the interpreter is given does not limit what it
    runs: with more levels every call has the same outcome, a call at depth 100 being
    refused. *)
Theorem call_fuel_enough n (s : St) : (call_fuel <= n)%nat ->
  (forall c b name ctx args skip forbid,
    _execute_public_method_call sha256 (calls_at sha256 n) c b name ctx args skip forbid s
    = execute_public_method_call sha256 c b name ctx args skip forbid s) /\
  (forall c b name args kwargs,
    _unsafe_call_view_method sha256 (calls_at sha256 n) c b name args kwargs s
    = unsafe_call_view_method sha256 c b name args kwargs s).
Proof.
  intros Hn. split; intros; symmetry.
  - eapply agree_execute_public; [apply calls_at_ok|by apply calls_deeper|apply Nat.le_0_l].
  - eapply agree_execute_view; [apply calls_at_ok|by apply calls_deeper|apply Nat.le_0_l].
Qed.

(** C8: A call of a view method that returns changed nothing, wherever in an execution it
    was made: the trackers of every contract are as before, or a first tracker that is
    empty; and so are the records, the events, the totals, the fees, the block's trie and
    the open storages. *)
Theorem view_call_pure c b name args kwargs (s : St) v s' : has_books s ->
  unsafe_call_view_method sha256 c b name args kwargs s = (Ok v, s') ->
  (forall c', untouched c' s s') /\ silent s s'.
Proof.
  intros B H. apply (execute_view_shape sha256 _ (calls_at_ok sha256 _)) in H as (s0 & ci & ca & s1 & s2 & Ho & E & Hp & Hc & Hl).
  by eapply view_shape_untouched.
Qed.
(** what a runner keeps between calls *)
Lemma reset_grows (s : St) : grows s (_reset_all_change_trackers s).2.
Proof.
  unfold _reset_all_change_trackers, bind, get_call_info, lift. destruct (_call_info s) as [ci|]; [|done].
  by destruct (block_all (change_trackers ci)).
Qed.

Lemma finally_grows {A} (m : M St A) (s : St) (P : Prop) :
  grows s (m s).2 \/ P -> grows s (try_finally m _reset_all_change_trackers s).2 \/ P.
Proof.
  intros [H|H]; [left|by right]. unfold try_finally. destruct (m s) as [r s1]. simpl in H.
  pose proof (reset_grows s1) as Hr. destruct (_reset_all_change_trackers s1) as [[x|e] s2]; by eapply grows_trans.
Qed.

Lemma still_bind {A B} (m : M St A) (f : A -> M St B) s : (m s).2 = s -> (forall a, (f a s).2 = s) -> (bind m f s).2 = s.
Proof. intros Hm Hf. unfold bind. destruct (m s) as [[a|e] s1]; simpl in *; subst; [apply Hf|done]. Qed.

Lemma validate_same_state ctx (s : St) : (_validate_balances sha256 ctx s).2 = s.
Proof.
  apply still_bind; [unfold get_call_info; by destruct (_call_info s)|]. intros ci.
  destruct (calls ci) as [cs|]; [|done]. apply still_bind.
  - generalize (@nil (bytes * Z)). induction (change_trackers ci) as [|e l IH]; intros acc; [done|].
    apply still_bind; [|intros d; apply IH]. unfold validate_tracker. destruct (snd e) as [|x [|y t]]; [done| |done].
    apply still_bind; [apply check_same|done].
  - intros d. apply still_bind; [done|]. intros calculated. apply still_bind; [done|]. intros updated.
    apply still_bind; [|intros _]; unfold py_assert; by case_match.
Qed.

(** C7: A call of a public method, whatever its outcome, leaves the block's trie and every
    open storage as they were, unless its method returned and its balances passed the
    check: no part of an execution that failed reaches the storage. *)
Theorem storage_changes_only_after_checks c name ctx args (s : St) :
  grows s (call_public_method_with_nc_args sha256 c name ctx args s).2 \/
  exists s0 b v s1, grows s s0 /\ _call_info s0 = Some (_build_call_info s c) /\
    execute_public_method_call sha256 c b name ctx args false false s0 = (Ok v, s1) /\ grows s0 s1 /\
    _validate_balances sha256 ctx s1 = (Ok tt, s1).
Proof.
  unfold call_public_method_with_nc_args, bind at 1, lift. destruct (raise_if _ _) as [[]|e]; [|by left].
  apply finally_grows. unfold _unsafe_call_public_method. unfold bind at 1.
  destruct (_call_info s) eqn:E0; [by left|]. set (sc := set_call_info s (Some (_build_call_info s c))).
  assert (grows s sc) as Gc by done. assert (_call_info sc = Some (_build_call_info s c)) as Ec by done. clearbody sc.
  pose proof (tame_initialized (DB := DB) c sc) as Hi. unfold bind at 1.
  assert ((has_contract_been_initialized c sc).2 = sc) as Ei.
  { unfold has_contract_been_initialized. by destruct (od_get (_storages sc) c). }
  destruct (has_contract_been_initialized c sc) as [[ini|e] si]; simpl in Ei; subst si; [|by left].
  unfold bind at 1, lift. destruct (raise_if _ _) as [[]|e]; [|by left]. unfold bind at 1.
  set (se := set_executor sc). assert (opened sc se) as Oe by by repeat split. clearbody se.
  pose proof (read_or_storage_opened sha256 c (fun S _ s => so_get_blueprint_id s) se) as Ob.
  unfold bind at 1. unfold get_blueprint_id at 1.
  destruct (read_tracker_or_storage sha256 c _ se) as [[b|e] s0]; simpl in Ob;
    pose proof (opened_trans _ _ _ Oe Ob) as O0; pose proof (grows_trans _ _ _ Gc (opened_grows _ _ O0)) as G0; [|by left].
  pose proof (tame_execute_public sha256 (calls_at sha256 call_fuel) (calls_at_tame sha256 _) c b name ctx args false false s0) as [G1 _].
  change (_execute_public_method_call sha256 (calls_at sha256 call_fuel)) with (execute_public_method_call sha256 (DB := DB)) in G1.
  unfold bind at 1. destruct (execute_public_method_call sha256 c b name ctx args false false s0) as [[v|e] s1] eqn:Ex;
    simpl in G1; [|left; by eapply grows_trans].
  unfold bind at 1. pose proof (validate_same_state ctx s1) as Ev.
  destruct (_validate_balances sha256 ctx s1) as [[[]|e] s2] eqn:Evb; simpl in Ev; subst s2; [|left; by eapply grows_trans].
  right. exists s0, b, v, s1. split_and!; try done. destruct O0 as (-> & _). done.
Qed.
End claims.

#[local] Existing Instances VerificationTheory.node_settings VerificationTheory.node_verifier_settings
  VerificationTheory.node_unicode VerificationTheory.node_storage VerificationTheory.node_static VerificationTheory.node_state
  TxVerifierTheory.demo_crypto TxVerifierTheory.demo_script_settings.

(** * Blueprints *)

Definition go : pystr := [103; 111].
Definition peek : pystr := [112; 101; 101; 107].
Definition first_contract : bytes := zb [1].
Definition second_contract : bytes := zb [2].

Definition demo_method (type : NCMethodType) (p : prog) : callable :=
  mkCallable (Some type) false [ACT_DEPOSIT; ACT_WITHDRAWAL] (Ok (mkSignature [] [] NullNCType)) (Ok NullNCType) (fun _ _ => p).

Definition demo_blueprint (p q : prog) : blueprint_class :=
  mkBlueprint (fun n =>
    if bool_decide (n = NC_INITIALIZE_METHOD) then Some (demo_method NC_PUBLIC (Return VNone))
    else if bool_decide (n = go) then Some (demo_method NC_PUBLIC p)
    else if bool_decide (n = peek) then Some (demo_method NC_VIEW q)
    else None) [].

(** creates a token, paying the fee, and sends four units to the second contract *)
Definition spend_prog : prog :=
  Op (SysCreateFeeToken [] [84] [84] 50 true true HATHOR_TOKEN_UID) (fun _ =>
  Op (SysPutObj (zb [5]) VarInt32NCType (VInt 7)) (fun _ =>
  Op (SysCallPublic second_contract None go [NCDepositAction HATHOR_TOKEN_UID 4] [] [] [] false) (fun _ => Return VNone))).

(** reads the second contract *)
Definition look_prog : prog :=
  Op (SysCallView second_contract None peek [] []) (fun _ =>
  Op (SysGetCurrentBalance (Some second_contract) None) (fun _ => Return VNone)).

(** stores a string with a lone surrogate *)
Definition surrogate_prog : prog := Op (SysPutObj (zb [5]) StrNCType (VStr [55296])) (fun _ => Return VNone).
(** creates more of a token than an amount field holds *)
Definition huge_prog : prog := Op (SysCreateFeeToken [] [84] [84] (2 ^ 230) true true HATHOR_TOKEN_UID) (fun _ => Return VNone).
(** creates a token and fails *)
Definition failing_prog : prog :=
  Op (SysCreateFeeToken [] [84] [84] 100 true true HATHOR_TOKEN_UID) (fun _ => Raise NCFail).

Definition demo_blueprints : list (bytes * blueprint_class) :=
  [(zb [100], demo_blueprint spend_prog look_prog); (zb [101], demo_blueprint (Return VNone) (Return VNone));
   (zb [102], demo_blueprint surrogate_prog (Return VNone)); (zb [103], demo_blueprint huge_prog (Return VNone));
   (zb [104], demo_blueprint failing_prog (Return VNone))].

#[local] Instance demo_blueprint_service : Blueprints := {
  blueprint_class_of := fun b => match od_get demo_blueprints b with Some c => Ok c | None => Err BlueprintDoesNotExist end
}.

(** * A runner with two contracts *)

Definition demo_vertex : VertexData := mkVertexData REGULAR_TRANSACTION [] 0 0 (S754_zero false) [] [] [] [] [].
Definition demo_context (l : list NCAction) : Context_ :=
  mkContext (CallerAddress []) demo_vertex (Some (mkBlockData [] 0 0)) (group_actions l).
Definition no_args : NCArgs := NCRawArgs (zb [0]).
Definition ten_htr : Context_ := demo_context [NCDepositAction HATHOR_TOKEN_UID 10].

Definition demo_create (c b : bytes) (s : Runner (gmap bytes bytes)) : result value * Runner (gmap bytes bytes) :=
  create_contract_with_nc_args demo_hash c b ten_htr no_args s.

(** both contracts exist, the first one of the given blueprint *)
Definition demo_runner (b : bytes) : Runner (gmap bytes bytes) :=
  (demo_create second_contract (zb [101]) (demo_create first_contract b (new_runner BlockStorageTheory.demo_block)).2).2.

(** an outermost call of the first contract is about to run *)
Definition start_call (s : Runner (gmap bytes bytes)) : Runner (gmap bytes bytes) :=
  let s := set_executor s in set_call_info s (Some (_build_call_info s first_contract)).

Definition demo_state : Runner (gmap bytes bytes) := start_call (demo_runner (zb [100])).

Lemma start_call_fresh s : _enable_call_trace s = true -> _updated_tokens_totals s = [] -> fresh_call (start_call s).
Proof. intros Et Eu. by exists first_contract. Qed.

Definition demo_withdraw : Context_ := demo_context [NCWithdrawalAction HATHOR_TOKEN_UID 3].

Lemma result_pair {A B} (p : result A * B) (a : A) : fst p = Ok a -> p = (Ok a, snd p).
Proof. destruct p as [r b]. simpl. by intros ->. Qed.

Lemma demo_execution_ok :
  fst (execute_public_method_call demo_hash first_contract (zb [100]) go demo_withdraw no_args false false demo_state) = Ok VNone.
Proof. vm_compute. reflexivity. Qed.

Lemma demo_fresh : fresh_call demo_state.
Proof. apply start_call_fresh; vm_compute; done. Qed.

Lemma execution_balanced_witness :
  exists s', execute_public_method_call demo_hash first_contract (zb [100]) go demo_withdraw no_args false false demo_state
    = (Ok VNone, s') /\
  exists ci, _call_info s' = Some ci /\
    (forall u, sum_all u (change_trackers ci)
      = dsum (map action_delta (all_actions demo_withdraw)) u + default 0 (tally u (all_updates ci))) /\
    _validate_balances demo_hash demo_withdraw s' = for_each (change_trackers ci) (check_positive demo_hash) s'.
Proof.
  pose proof (result_pair _ _ demo_execution_ok) as E. eexists. split; [exact E|].
  exact (execution_balanced _ _ _ _ _ _ _ _ _ _ _ demo_fresh E).
Defined.


Lemma call_fuel_enough_witness :
  (forall c b name ctx args skip forbid,
    _execute_public_method_call demo_hash (calls_at demo_hash 200) c b name ctx args skip forbid demo_state
    = execute_public_method_call demo_hash c b name ctx args skip forbid demo_state) /\
  (forall c b name args kwargs,
    _unsafe_call_view_method demo_hash (calls_at demo_hash 200) c b name args kwargs demo_state
    = unsafe_call_view_method demo_hash c b name args kwargs demo_state).
Proof. apply call_fuel_enough. unfold call_fuel, MAX_RECURSION_DEPTH. lia. Defined.

Lemma demo_view_ok : fst (unsafe_call_view_method demo_hash first_contract (zb [100]) peek [] [] demo_state) = Ok VNone.
Proof. vm_compute. reflexivity. Qed.

Lemma view_call_pure_witness :
  exists s', unsafe_call_view_method demo_hash first_contract (zb [100]) peek [] [] demo_state = (Ok VNone, s') /\ (forall c', untouched c' demo_state s') /\ silent demo_state s'.
Proof.
  pose proof (result_pair _ _ demo_view_ok) as E. eexists. split; [exact E|].
  exact (view_call_pure _ _ _ _ _ _ _ _ _ (fresh_books _ demo_fresh) E).
Defined.

(** * Outcomes the caller does not expect *)

Definition demo_call (b : bytes) : result value * Runner (gmap bytes bytes) :=
  call_public_method_with_nc_args demo_hash first_contract go (demo_context []) no_args (demo_runner b).

(** a whole call: the withdrawal leaves the first contract, the deposit reaches the second *)
Lemma demo_call_ok : fst (demo_call (zb [100])) = Ok VNone.
Proof. vm_compute. done. Qed.

(** the commit of a string that is not encodable raises an exception that is not an
    [NCFail], after the metered execution is over *)
Lemma surrogate_escapes : fst (demo_call (zb [102])) = Err UnicodeEncodeError /\ issubclass_exn UnicodeEncodeError NCFail = false.
Proof. vm_compute. done. Qed.

(** so does the commit of a balance that is too large *)
Lemma huge_token_escapes : fst (demo_call (zb [103])) = Err ValueError /\ issubclass_exn ValueError NCFail = false.
Proof. vm_compute. done. Qed.

(** a call that fails leaves its totals in the runner, and the next call on it, which
    does nothing, fails an assertion *)
Lemma failed_call_spoils_runner :
  let r := demo_call (zb [104]) in
  fst r = Err NCFail /\ _updated_tokens_totals r.2 <> [] /\
  fst (call_public_method_with_nc_args demo_hash second_contract go (demo_context []) no_args r.2) = Err AssertionError.
Proof. vm_compute. done. Qed.

(** the block's trie refers to the new contracts before their nodes are stored: a runner
    made before [commit] cannot open them *)
Lemma uncommitted_roots_dangle :
  fst (call_public_method_with_nc_args demo_hash second_contract go (demo_context []) no_args
    (new_runner (r_block (demo_runner (zb [101]))))) = Err NanoContractDoesNotExist /\
  fst (call_public_method_with_nc_args demo_hash second_contract go (demo_context []) no_args
    (new_runner (r_block (runner_commit (demo_runner (zb [101]))).2))) = Ok VNone.
Proof. vm_compute. done. Qed.
